(* ===== verification/_CoqProject ===== *)
-Q . S2P
Prelude.v
Bitmap.v
PageRef.v
PageList.v
Buddy.v
BuddyInv.v
BuddySys.v
BuddyFree.v
Frame.v
FrameInv.v
FrameProps.v
KMem.v
KMemset.v
KMemcpy.v
KString.v
KStr.v
KStrSpec.v
KNum.v
KNumSpec.v
KHeap.v
KPath.v
KProps.v
Fresh.v
Vma.v
VmaList.v
VmaSpec.v
VmaUnmap.v
VmaProps.v
IdAlloc.v
Map.v
Cow.v
CowSpec.v
CowProps.v
Ipc.v
Pipe.v
PipeSpec.v
PipeProps.v
AtomQueue.v
RbTree.v
RbShape.v
RbInsert.v
RbErase.v
RbFixup.v
RbWalk.v
RbProps.v
LList.v
LListSpec.v
Rrs.v
RrsProps.v
Eevdf.v
EevdfSpec.v
EevdfInv.v
EevdfOps.v
EevdfProps.v
Futex.v
FutexSpec.v
FutexOps.v
FutexSched.v
FutexProps.v
Mpool.v
MpoolRep.v
MpoolInv.v
MpoolOps.v
MpoolMerge.v
MpoolFind.v
MpoolAlloc.v
MpoolRealloc.v
MpoolProps.v
MpoolAlign.v
Heap.v
Signal.v
SignalProps.v
Sleep.v
SleepSpec.v
SleepProps.v
Fds.v
FdsProps.v
Frames.v
Tmpfs.v
TmpfsProps.v
