(* ===== verification/Prelude.v ===== *)
(** * A verification of CoolPotOS

    CoolPotOS is a small Unix-like kernel in C. This library models parts of
    it as Rocq functions, statement by statement, and proves what they do.
    Paths below are relative to the repository's [src/] directory.

    ** The parts of the kernel and the files that model them

    Physical memory. [mem/bitmap.c] keeps one bit per page frame,
    [mem/page_ref.c] a reference count per frame, [mem/buddy.c] the free
    blocks of each zone in chains of metadata pages, and [mem/frame.c] sets
    all this up from the boot loader's memory map.
      - [Bitmap]: the bitmap, its range operations and run searches.
      - [PageRef]: the counts and their compare-and-swap loops, with arbitrary
        interference by other processors between two accesses.
      - [PageList]: the chains of metadata pages as bags of block addresses.
      - [Buddy] (code), [BuddyInv], [BuddySys], [BuddyFree] (invariant of the
        zones, allocation, release and merging).
      - [Frame] (code), [FrameInv], [FrameProps]: start-up and the theorems on
        the whole allocator.
      - [Frames]: the contract of the allocator for its users, as a class, and
        that the buddy allocator meets it.
    The state is a record of zones, frame bitmap, counts and metadata memory;
    [alloc_frames] and [free_frames] are the operations others call.

    C library. [util/krlibc.c] over a byte-addressed memory.
      - [KMem], [KMemset], [KMemcpy]: memory and the portable memory routines,
        which work on words with shifts and overlapping stores.
      - [KString], [KStr], [KStrSpec], [KNum], [KNumSpec]: strings and numbers.
      - [KHeap] (what the library asks of [malloc]), [KPath]: path routines.
      - [KProps]: the theorems.

    Address spaces. [mem/vma.c] keeps the areas of an address space in a
    sorted doubly linked list of heap nodes.
      - [Fresh]: an allocator for examples. [Vma]: the code. [VmaList]: linked
        lists as lists. [VmaSpec]: well-formedness, search, insertion, removal,
        clean-up. [VmaUnmap]: splitting, unmapping and copying.
        [VmaProps]: the theorems.

    Containers. [IdAlloc] ([util/id_alloc.c]), [Map] ([util/map.c]), [Cow],
    [CowSpec] and [CowProps] ([util/cow_arraylist.c]), [AtomQueue]
    ([util/atom_queue.c]), [LList] and [LListSpec] ([util/llist_queue.c]: a
    doubly linked queue with sentinels).
      - [RbTree]: the red-black tree of [util/rbtree.c], nodes by address with
        the colour in the low bit of the parent link. [RbShape]: the tree a
        memory represents, at a hole in it too. [RbInsert], [RbErase],
        [RbFixup]: insertion, removal and recolouring. [RbWalk]: first, last,
        next, previous. [RbProps]: the theorems.

    Scheduling. [task/rrs.c] is the round-robin scheduler, on the linked queue
    ([Rrs], [RrsProps]). [task/eevdf.c] is the fair scheduler: a red-black tree
    of entities by deadline, with the waiting ones in an array list.
      - [Eevdf]: the code. [EevdfSpec], [EevdfInv], [EevdfOps]: the invariant
        of the run queue, every operation on it and the fixed-point scaling of
        run times. [EevdfProps]: the theorems.
      - [Futex]: [task/futex.c] and the futex call of [task/prsys.c], over the
        hash map and the array list, against the class [Scheduler], which both
        schedulers meet ([FutexSched]). [FutexSpec], [FutexOps]:
        the threads that wait at an address; [FutexProps]: the theorems.
      - [Signal], [SignalProps]: [task/signal.c], sending and delivery.
      - [Sleep]: the list of sleeping threads of [task/scheduler.c], on the
        array list, against the class [Scheduler] and with the signals of
        [Signal], and what [kill_thread] of [task/task.c] does to it.
        [SleepSpec]: the sleeping and the runnable threads under every
        operation; [SleepProps]: the theorems.

    Kernel heap. [mem/heap/pool.c], with the headers [block.h], [area.h] and
    [freelist.h] of [include/mem/alloc/], tiles an area with blocks that carry
    boundary tags, and keeps the free ones on lists by size; [mem/heap/heap.c]
    is [malloc] and its relatives on it.
      - [Mpool]: the code of the pool. [MpoolRep]: blocks and tags,
        and free lists in memory. [MpoolInv], [MpoolOps], [MpoolMerge]: the
        representation, and put, detach, merge and split on it. [MpoolFind],
        [MpoolAlloc], [MpoolRealloc]: searching, growing, allocation, release,
        reallocation. [MpoolProps], [MpoolAlign]:
        the theorems. [Heap]: [heap.c].

    Communication. [Ipc] ([task/ipc.c]): the message queue of a process.
    [Pipe], [PipeSpec], [PipeProps] ([fs/pipefs.c]): pipes, with the records of
    their two ends and the file-system nodes they are reached through.

    Files. [Fds], [FdsProps] ([fs/fds.c], and the duplication of descriptors in
    [fs/fssys.c]): descriptor tables, on the nodes and pipes of [Pipe].
    [Tmpfs], [TmpfsProps] ([fs/tmpfs.c]): files in memory, on the contract of
    [Frames].

    ** How the code is modelled

    A C integer is a [Z], with the wrap-around of its type written out. An
    array is a list read and written by [zget] and [zset]. [None] is an error
    the C code does not handle: an access outside an object or to one that was
    freed, a double free, a division by zero, a second acquisition of a lock
    that is held. Error codes are values. A theorem that an operation returns
    [Some] therefore says that none of these errors occurs.

    Heap objects that share or outlive each other are entries of a map from
    addresses, so that aliasing, use after free and double free are visible;
    objects reachable in one way only (the chain of a hash bucket) are lists.

    [malloc] and its relatives are parameters: functions from the heap to the
    address of the new block, 0 for NULL. A theorem that needs it assumes that
    the address is not in use ([malloc_fresh], [BlockAllocator],
    [AllocatorLaws]), and, where it speaks of success, that there is memory;
    theorems on failing allocation are stated apart. Each such hypothesis is
    met by a concrete allocator in the witness of the theorem.

    Loops that are not structural have fuel: the number of nodes in the heap
    plus one for list walks ([lq_fuel], [fl_fuel]) and for walks in a tree
    ([rb_fuel]), the number of blocks, waiting threads or rounds that bound
    the loop otherwise. The theorems prove that it is enough: they conclude
    [Some], which running out of fuel is not.

    A task that waits lets the others run: what they do is a list of functions
    on the state ([Ipc.ipc_recv_wait], [Pipe.turn]). The lock-free queue is
    split into single accesses, with all interleavings of one producer and one
    consumer; memory is sequentially consistent there, while the code asks for
    relaxed ordering only.

    ** What the theorems show

      - Physical memory: start-up, given frames for its tables, establishes the
        invariant with a metadata pool that covers every fragmentation of the
        zones; allocation and release keep the invariant, never fail
        an assertion or run out of metadata pages, hand out aligned blocks of
        free frames and undo each other; a block is released once; reference
        counts never revive a frame; the bitmap operations set and find exactly
        the bits they should. Counterexamples: the search for clear bits, and
        start-up with a memory limit.
      - C library: the word-wise routines equal the byte-wise ones for every
        alignment and overlap; strings, numbers and paths are what they should
        be, with the exceptions stated ([atoi], [strtol] on overflow, [strcpy]
        of the empty string, [normalize_path] of a relative path).
      - Address spaces: insertion keeps the areas sorted and disjoint,
        unmapping removes exactly a range of addresses, copying makes an equal
        space that can be given up without harm to the first. Counterexamples:
        unmapping without memory, merging areas with names.
      - Containers: the identifier allocator finds a free identifier in bounded
        time, the hash map refines a finite map and the array list a list under
        all operations, the lock-free queue is FIFO in all interleavings.
      - Red-black tree: insertion and removal give a red-black tree of the right
        nodes in the right order, and the walks follow that order.
      - Scheduling: every run queue reached while only runnable threads end and
        virtual time is not wrapped is sorted and holds exactly the runnable
        entities, and no operation on it faults, a tick that wraps included;
        the earliest deadline is picked while deadlines are within 2^63 of each
        other; waiting and waking restore the queue, scaling is accurate;
        the round-robin queue gives everyone a turn and never runs a removed
        thread; every thread is runnable or waits at one futex, and waking is
        first come, first served; every thread is runnable or asleep, a tick
        wakes exactly those whose time has come or who have a signal, and a
        signal is delivered in the order of numbers, ignored ones dropped.
        Counterexamples: stale waiting positions, a wake-up that is lost, a
        sleeping thread that is killed and runs again.
      - Kernel heap: allocation, release, reallocation and aligned allocation
        keep the heap well formed, live blocks apart and their data as it was,
        find a block whenever one fits and coalesce free neighbours, for sizes
        below the top of the range that, where the heap can grow, do not pad to
        a multiple of 16 KiB; a reallocation that moves needs memory.
        Counterexamples: requests of multiples of 16 KiB, an aligned address 16
        bytes above a free block, sizes near the top of the range.
      - Communication: receiving takes the first message of a type and a
        waiting task gets its message; pipes are byte queues with atomic short
        writes, shown for writes that fit or do not block, with a reader. Counterexamples: freeing by type, a race when an end is closed
        during a call.
      - Files: copying a descriptor table counts every new user of a node, a
        pipe end or a socket; new descriptors are the lowest free ones; a file
        in memory reads as it was written, and its frames are exactly those
        taken from the allocator. Counterexample: a read whose end wraps around.

    ** Not modelled

    Page tables, task creation, reaping and switching, the virtual file system
    and the other file systems, networking, the module loader: not reached. Drivers, interrupt and start-up code: hardware access. The heap of
    the x86_64 build, ACPICA, libfdt, tinycrypt, flanterm, FatFs, squashfs and
    zstd: third-party code. Within the modelled parts: log messages, the
    functions of [krlibc.c] that build argument vectors, the mount and
    registration callbacks of [pipefs.c], the heap's debugging modes
    ([HEAP_CHECK], [KASAN_CHECK]), the timer handler and the choice of a
    processor in [scheduler.c], the callbacks of [tmpfs.c] that look up paths
    or map pages, and of [kill_thread] what is not about scheduling.

    ** Plan

    Next: [lazy_alloc.c], the node tree of [vfs.c], the archive reader, and
    the life of a task from creation to reaping.

    ** This file

    Machine integers, C-style array access, counted loops, spin locks, and
    the hint databases and tactics every component file uses. *)

From Stdlib Require Export ZArith Lia.
From stdpp Require Export base tactics list option.
(* stdpp's list lemmas take precedence over the Standard Library's *)
Export list_basics.list list_relations.list list_monad.list list_misc.list list_numbers.list.

#[export] Set Default Goal Selector "!".

Open Scope Z_scope.

(** ** Machine integers

    A C integer is a [Z] in the range of its type; the wrap-around of an
    operation is written with the conversion below. *)

Declare Scope kern_scope.
Delimit Scope kern_scope with K.
Notation "'two64'" := 18446744073709551616 : kern_scope.
Notation "'two63'" := 9223372036854775808 : kern_scope.
Notation "'two32'" := 4294967296 : kern_scope.
Notation "'two31'" := 2147483648 : kern_scope.
Notation "'SIZE_MAX'" := 18446744073709551615 : kern_scope.
Open Scope kern_scope.

Definition u8 (x : Z) : Z := x mod 256.
Definition u16 (x : Z) : Z := x mod 65536.
Definition u32 (x : Z) : Z := x mod two32.
Definition u64 (x : Z) : Z := x mod two64.
Definition i32 (x : Z) : Z := (x + two31) mod two32 - two31.
Definition i64 (x : Z) : Z := (x + two63) mod two64 - two63.

Lemma u8_id x : 0 <= x < 256 -> u8 x = x.
Proof. apply Z.mod_small. Qed.
Lemma u32_id x : 0 <= x < two32 -> u32 x = x.
Proof. apply Z.mod_small. Qed.
Lemma u64_id x : 0 <= x < two64 -> u64 x = x.
Proof. apply Z.mod_small. Qed.
Lemma i32_id x : - two31 <= x < two31 -> i32 x = x.
Proof. intros. unfold i32. rewrite Z.mod_small; lia. Qed.
Lemma i64_id x : - two63 <= x < two63 -> i64 x = x.
Proof. intros. unfold i64. rewrite Z.mod_small; lia. Qed.

Lemma u8_bound x : 0 <= u8 x < 256.
Proof. apply Z.mod_pos_bound. lia. Qed.
Lemma u32_bound x : 0 <= u32 x < two32.
Proof. apply Z.mod_pos_bound. lia. Qed.
Lemma u64_bound x : 0 <= u64 x < two64.
Proof. apply Z.mod_pos_bound. lia. Qed.

(** The macros [MIN], [MAX], [PADDING_DOWN] and [PADDING_UP] of [krlibc.h];
    the padding macros compute in [size_t]. *)
Definition MIN (x y : Z) : Z := if x <? y then x else y.
Definition MAX (x y : Z) : Z := if x >? y then x else y.
Definition PADDING_DOWN (size to : Z) : Z := size / to * to.
Definition PADDING_UP (size to : Z) : Z := PADDING_DOWN (u64 (size + to - 1)) to.
Definition PAGE_SIZE : Z := 4096.

Lemma MIN_min x y : MIN x y = Z.min x y.
Proof. unfold MIN. destruct (Z.ltb_spec x y); lia. Qed.
Lemma MAX_max x y : MAX x y = Z.max x y.
Proof. unfold MAX. destruct (Z.gtb_spec x y); lia. Qed.

Lemma PADDING_DOWN_le x t : 0 <= x -> 0 < t -> 0 <= PADDING_DOWN x t <= x.
Proof.
  intros. unfold PADDING_DOWN. pose proof (Z.mul_div_le x t).
  pose proof (Z.div_pos x t). nia.
Qed.

Lemma PADDING_DOWN_aligned x t : 0 < t -> (t | PADDING_DOWN x t).
Proof. intros. exists (x / t). reflexivity. Qed.

Lemma PADDING_UP_spec x t :
  0 <= x -> 0 < t -> x + t - 1 < two64 -> x <= PADDING_UP x t < x + t /\ (t | PADDING_UP x t).
Proof.
  intros. unfold PADDING_UP. rewrite u64_id by lia. split; [|by apply PADDING_DOWN_aligned].
  unfold PADDING_DOWN. pose proof (Z.div_mod (x + t - 1) t). pose proof (Z.mod_pos_bound (x + t - 1) t). lia.
Qed.

(** [isdigit] of [krlibc.c]. *)
Definition isdigit (c : Z) : bool := (c >=? 48) && (c <=? 57).

(** ** Arrays

    [zget] and [zset] read and write element [i] of a C array; [None] is an
    access outside the object, which C leaves undefined. *)

Definition zlen {A} (l : list A) : Z := Z.of_nat (length l).

Definition zget {A} (l : list A) (i : Z) : option A :=
  if i <? 0 then None else l !! Z.to_nat i.

Definition zset {A} (l : list A) (i : Z) (x : A) : option (list A) :=
  if (0 <=? i) && (i <? zlen l) then Some (<[Z.to_nat i := x]> l) else None.

Section Arrays.
Context {A : Type}.
Implicit Types (l : list A) (i j : Z) (x y : A).

Lemma zlen_nonneg l : 0 <= zlen l.
Proof. unfold zlen. lia. Qed.

Lemma zget_range l i x : zget l i = Some x -> 0 <= i < zlen l.
Proof.
  unfold zget, zlen. destruct (Z.ltb_spec i 0); [done|].
  intros E. apply lookup_lt_Some in E. lia.
Qed.

Lemma zget_ok l i : 0 <= i < zlen l -> exists x, zget l i = Some x.
Proof.
  unfold zget, zlen. intros. destruct (Z.ltb_spec i 0); [lia|].
  apply lookup_lt_is_Some_2. lia.
Qed.

Lemma zget_none l i : ~ (0 <= i < zlen l) -> zget l i = None.
Proof.
  unfold zget, zlen. intros. destruct (Z.ltb_spec i 0); [done|].
  apply lookup_ge_None_2. lia.
Qed.

Lemma zset_ok l i x : 0 <= i < zlen l -> zset l i x = Some (<[Z.to_nat i := x]> l).
Proof.
  intros. unfold zset. destruct (Z.leb_spec 0 i), (Z.ltb_spec i (zlen l)); simpl; try done; lia.
Qed.

Lemma zset_Some l i x l' :
  zset l i x = Some l' -> 0 <= i < zlen l /\ l' = <[Z.to_nat i := x]> l.
Proof.
  unfold zset. destruct (Z.leb_spec 0 i), (Z.ltb_spec i (zlen l)); simpl; try done.
  intros [= <-]. done.
Qed.

Lemma zset_none l i x : ~ (0 <= i < zlen l) -> zset l i x = None.
Proof.
  intros. unfold zset. destruct (Z.leb_spec 0 i), (Z.ltb_spec i (zlen l)); simpl; try done; lia.
Qed.

Lemma zset_len l i x l' : zset l i x = Some l' -> zlen l' = zlen l.
Proof. intros [_ ->]%zset_Some. unfold zlen. by rewrite length_insert. Qed.

Lemma zset_get l i j x l' :
  zset l i x = Some l' -> zget l' j = if decide (i = j) then Some x else zget l j.
Proof.
  intros [? ->]%zset_Some. unfold zlen, zget in *. case_decide as E.
  - subst j. destruct (Z.ltb_spec i 0); [lia|]. apply list_lookup_insert_eq. lia.
  - destruct (Z.ltb_spec j 0); [done|]. apply list_lookup_insert_ne. lia.
Qed.

Lemma zget_ext l1 l2 : (forall i, zget l1 i = zget l2 i) -> l1 = l2.
Proof.
  intros E. apply list_eq. intros n. specialize (E (Z.of_nat n)). unfold zget in E.
  destruct (Z.ltb_spec (Z.of_nat n) 0); [lia|]. by rewrite Nat2Z.id in E.
Qed.

Lemma zget_replicate n (x : A) i : 0 <= i < Z.of_nat n -> zget (replicate n x) i = Some x.
Proof.
  intros. unfold zget. destruct (Z.ltb_spec i 0); [lia|]. apply lookup_replicate_2. lia.
Qed.

Lemma zlen_replicate n (x : A) : zlen (replicate n x) = Z.of_nat n.
Proof. unfold zlen. by rewrite length_replicate. Qed.

Lemma zget_cons_0 x l : zget (x :: l) 0 = Some x.
Proof. reflexivity. Qed.

Lemma zget_cons_S x l i : 0 < i -> zget (x :: l) i = zget l (i - 1).
Proof.
  intros. unfold zget. destruct (Z.ltb_spec i 0), (Z.ltb_spec (i - 1) 0); try lia.
  replace (Z.to_nat i) with (S (Z.to_nat (i - 1))) by lia. done.
Qed.

Lemma zget_elem l i x : zget l i = Some x -> x ∈ l.
Proof.
  unfold zget. destruct (i <? 0); [done|]. intros E. apply list_elem_of_lookup. eauto.
Qed.

Lemma Forall_zget (P : A -> Prop) l i x : Forall P l -> zget l i = Some x -> P x.
Proof. unfold zget. destruct (i <? 0); [done|]. apply Forall_lookup_1. Qed.

End Arrays.

Lemma zlen_cons {A} (x : A) l : zlen (x :: l) = 1 + zlen l.
Proof. unfold zlen. simpl. lia. Qed.

Lemma zlen_app {A} (k l : list A) : zlen (k ++ l) = zlen k + zlen l.
Proof. unfold zlen. rewrite length_app. lia. Qed.

Lemma zget_app_l {A} (k l : list A) i : i < zlen k -> zget (k ++ l) i = zget k i.
Proof. unfold zget, zlen. intros. destruct (Z.ltb_spec i 0); [done|]. apply lookup_app_l. lia. Qed.

Lemma zget_app_r {A} (k l : list A) i : zlen k <= i -> zget (k ++ l) i = zget l (i - zlen k).
Proof.
  unfold zget, zlen. intros. destruct (Z.ltb_spec i 0); [lia|]. destruct (Z.ltb_spec (i - Z.of_nat (length k)) 0); [lia|].
  rewrite lookup_app_r by lia. f_equal. lia.
Qed.

Lemma list_snoc {A} (l : list A) : l = [] \/ exists k x, l = k ++ [x].
Proof. destruct l as [|x k] using rev_ind; [by left|]. right. eauto. Qed.

(** ** Counted loops

    [for_range lo hi body s] is [for (i = lo; i < hi; i++) body]. *)

Fixpoint for_n {S} (n : nat) (i : Z) (body : Z -> S -> option S) (s : S) : option S :=
  match n with
  | O => Some s
  | Datatypes.S n' => s' ← body i s; for_n n' (i + 1) body s'
  end.

Definition for_range {S} (lo hi : Z) (body : Z -> S -> option S) (s : S) : option S :=
  for_n (Z.to_nat (hi - lo)) lo body s.

(** The loop rule: an invariant indexed by the counter that every iteration
    re-establishes, without a fault, holds at the end. *)
Lemma for_range_inv {S} (P : Z -> S -> Prop) lo hi (body : Z -> S -> option S) s :
  lo <= hi ->
  P lo s ->
  (forall i t, lo <= i < hi -> P i t -> exists t', body i t = Some t' /\ P (i + 1) t') ->
  exists t, for_range lo hi body s = Some t /\ P hi t.
Proof.
  intros Hle H0 Hstep. unfold for_range.
  remember (Z.to_nat (hi - lo)) as n eqn:En. revert lo s Hle H0 Hstep En.
  induction n as [|n IH]; intros lo s Hle H0 Hstep En; simpl.
  - replace hi with lo by lia. eauto.
  - destruct (Hstep lo s) as (t' & -> & Ht'); [lia|done|]. simpl.
    apply IH; [lia|done| |lia]. intros i t ?. apply Hstep. lia.
Qed.

Lemma for_range_empty {S} lo hi (body : Z -> S -> option S) s :
  hi <= lo -> for_range lo hi body s = Some s.
Proof. intros. unfold for_range. by replace (Z.to_nat (hi - lo)) with 0%nat by lia. Qed.

(** ** Spin locks

    [spin_t] is a flag. [spin_lock] on a held lock spins; with a single
    thread of control that never ends, which the model reports as [None]. *)

Definition spin_t : Type := bool.
Definition SPIN_INIT : spin_t := false.
Definition spin_lock (l : spin_t) : option spin_t := if l then None else Some true.
Definition spin_unlock (l : spin_t) : spin_t := false.

(** ** Bits *)

(** [(x >> n) & 1] as a truth value. *)
Definition bit_of (x n : Z) : bool := negb (Z.land (Z.shiftr x n) 1 =? 0).

Lemma bit_of_testbit x n : 0 <= n -> bit_of x n = Z.testbit x n.
Proof.
  intros. unfold bit_of. change 1 with (Z.ones 1). rewrite Z.land_ones by lia.
  rewrite Z.shiftr_div_pow2 by lia. change (2 ^ 1) with 2.
  rewrite <- Z.testbit_spec' by lia. by destruct (Z.testbit x n).
Qed.

Lemma u8_testbit x n : 0 <= n < 8 -> Z.testbit (u8 x) n = Z.testbit x n.
Proof. intros. unfold u8. change 256 with (2 ^ 8). apply Z.mod_pow2_bits_low. lia. Qed.

Lemma testbit_1_l k : Z.testbit 1 k = (k =? 0).
Proof.
  destruct (Z.eqb_spec k 0) as [->|]; [done|]. destruct (Z.ltb_spec k 0).
  - by apply Z.testbit_neg_r.
  - apply Z.bits_above_log2; [lia|]. change (Z.log2 1) with 0. lia.
Qed.

Lemma testbit_byte_high x n : 0 <= x < 256 -> 8 <= n -> Z.testbit x n = false.
Proof.
  intros. rewrite <- (Z.mod_small x (2 ^ 8)) by lia. apply Z.mod_pow2_bits_high. lia.
Qed.

(** ** Automation *)

Create HintDb kern.
#[export] Hint Resolve u8_bound u32_bound u64_bound zlen_nonneg : kern.
#[export] Hint Resolve zset_len : kern.
Create Rewrite HintDb kern_rw.
#[export] Hint Rewrite @zlen_replicate MIN_min MAX_max : kern_rw.

(** Splits the next conditional of the goal, or of a hypothesis, keeping the
    condition's value as an equation that [lia] reads. *)
Ltac case_if :=
  match goal with
  | |- context [if ?b then _ else _] => let E := fresh "E" in destruct b eqn:E
  end.
Ltac case_if_in H :=
  match type of H with
  | context [if ?b then _ else _] => let E := fresh "E" in destruct b eqn:E
  end.

(** Inverts one step of an option-monad computation in [H]. *)
Ltac bind_inv H :=
  match type of H with
  | mbind _ ?m = Some _ =>
      let E := fresh "E" in destruct m eqn:E; simpl in H; [|discriminate H]
  end.

(** Boolean connectives to propositions in the context. *)
Ltac bools :=
  repeat match goal with
  | H : _ && _ = true |- _ => apply andb_true_iff in H as [? ?]
  | H : _ && _ = false |- _ => apply andb_false_iff in H
  | H : _ || _ = true |- _ => apply orb_true_iff in H
  | H : _ || _ = false |- _ => apply orb_false_iff in H as [? ?]
  | H : negb _ = true |- _ => apply negb_true_iff in H
  | H : negb _ = false |- _ => apply negb_false_iff in H
  end.
