(* ===== verification/Bitmap.v ===== *)
(** * Frame bitmap ([src/src/mem/bitmap.c])

    The bit array that records which page frames are usable
    ([usable_regions]) and which are handed out ([using_regions]).
    [bitmap_get], [bitmap_set], [bitmap_set_range] and the first-run search
    [bitmap_find_range_from], with the per-bit specification they meet. *)

From S2P Require Import Prelude.

(** ** State *)

Record Bitmap := mkBitmap {
  bm_lock : spin_t;
  bm_buffer : list Z;        (* uint8_t *buffer *)
  bm_length : Z;             (* size_t length, in bits *)
  bm_refcount : Z;
}.

Definition bm_with_lock (b : Bitmap) (l : spin_t) : Bitmap :=
  mkBitmap l (bm_buffer b) (bm_length b) (bm_refcount b).
Definition bm_with_buffer (b : Bitmap) (buf : list Z) : Bitmap :=
  mkBitmap (bm_lock b) buf (bm_length b) (bm_refcount b).

(** [bitmap_init] over a buffer of [size] bytes, which it clears. *)
Definition bitmap_init (buffer : list Z) (size : Z) : option Bitmap :=
  if size <=? zlen buffer
  then Some (mkBitmap SPIN_INIT
               (replicate (Z.to_nat size) 0 ++ drop (Z.to_nat size) buffer)
               (u64 (size * 8)) 1)
  else None.

(** ** Operations *)

Definition bitmap_get (b : Bitmap) (index : Z) : option bool :=
  let word_index := index / 8 in
  let bit_index := index mod 8 in
  if word_index >? bm_length b then Some false
  else byte ← zget (bm_buffer b) word_index; Some (bit_of byte bit_index).

Definition bitmap_set (b : Bitmap) (index : Z) (value : bool) : option Bitmap :=
  let word_index := index / 8 in
  let bit_index := index mod 8 in
  if word_index >? bm_length b then Some b
  else
    byte ← zget (bm_buffer b) word_index;
    let byte' := if value
                 then u8 (Z.lor byte (Z.shiftl 1 bit_index))
                 else u8 (Z.land byte (u64 (Z.lnot (Z.shiftl 1 bit_index)))) in
    buf ← zset (bm_buffer b) word_index byte';
    Some (bm_with_buffer b buf).

Definition bitmap_set_range (b : Bitmap) (start end_ : Z) (value : bool) : option Bitmap :=
  if (start >=? end_) || (start >=? bm_length b) then Some b
  else
    l ← spin_lock (bm_lock b);
    let b := bm_with_lock b l in
    let start_word := u64 (start + 7) / 8 in
    let end_word := end_ / 8 in
    b ← for_range start (MIN (u64 (start_word * 8)) end_) (fun i b => bitmap_set b i value) b;
    if start_word >? end_word then Some (bm_with_lock b (spin_unlock (bm_lock b)))
    else
      let fill_value := if value then 255 else 0 in
      b ← (if start_word <=? end_word
           then for_range start_word end_word
                  (fun i b => buf ← zset (bm_buffer b) i fill_value; Some (bm_with_buffer b buf)) b
           else Some b);
      b ← for_range (MAX (u64 (end_word * 8)) start) end_ (fun i b => bitmap_set b i value) b;
      Some (bm_with_lock b (spin_unlock (bm_lock b))).

(** The bit loop of [bitmap_find_range_from]: [inl r] is its [return r],
    [inr (count, start_index)] falls through to the next byte. The running
    [count] never exceeds the number of bits of the map, so it needs no wrap. *)
Fixpoint scan_bits (n : nat) (bit byte length : Z) (value : bool) (byte_idx count start_index : Z)
  : Z + Z * Z :=
  match n with
  | O => inr (count, start_index)
  | S n' =>
      let bit_value := bit_of byte bit in
      if Bool.eqb bit_value value then
        let start_index := if count =? 0 then byte_idx * 8 + bit else start_index in
        let count := count + 1 in
        if count =? length then inl start_index
        else scan_bits n' (bit + 1) byte length value byte_idx count start_index
      else scan_bits n' (bit + 1) byte length value byte_idx 0 start_index
  end.

(** The byte loop, over the [n] bytes from [byte_idx] on. *)
Fixpoint scan_bytes (n : nat) (byte_idx : Z) (buf : list Z) (length : Z) (value : bool)
    (count start_index : Z) : option Z :=
  match n with
  | O => Some SIZE_MAX
  | S n' =>
      let byte_match := if value then 255 else 0 in
      byte ← zget buf byte_idx;
      (* the C operator ! yields 1 for a zero operand and 0 otherwise *)
      if byte =? (if byte_match =? 0 then 1 else 0) then
        scan_bytes n' (byte_idx + 1) buf length value 0 start_index
      else if byte =? byte_match then
        if length <? 8 then Some (byte_idx * 8)
        else
          let start_index := if count =? 0 then byte_idx * 8 else start_index in
          let count := count + 8 in
          if count >=? length then Some start_index
          else scan_bytes n' (byte_idx + 1) buf length value count start_index
      else
        match scan_bits 8 0 byte length value byte_idx count start_index with
        | inl r => Some r
        | inr (count, start_index) =>
            scan_bytes n' (byte_idx + 1) buf length value count start_index
        end
  end.

Definition bitmap_find_range_from (b : Bitmap) (length : Z) (value : bool) (start_from : Z)
  : option (Z * Bitmap) :=
  l ← spin_lock (bm_lock b);
  let b := bm_with_lock b l in
  let first := start_from / 8 in
  r ← scan_bytes (Z.to_nat (bm_length b / 8 - first)) first (bm_buffer b) length value 0 0;
  Some (r, bm_with_lock b (spin_unlock (bm_lock b))).

Definition bitmap_find_range (b : Bitmap) (length : Z) (value : bool) : option (Z * Bitmap) :=
  bitmap_find_range_from b length value 0.

(** ** Specification *)

(** Bit [i] of the map, false outside it. *)
Definition bit (b : Bitmap) (i : Z) : bool :=
  match zget (bm_buffer b) (i / 8) with
  | Some byte => Z.testbit byte (i mod 8)
  | None => false
  end.

(** The buffer has exactly [length] bits, in whole bytes. *)
Definition bitmap_wf (b : Bitmap) : Prop :=
  bm_length b = 8 * zlen (bm_buffer b) /\ bm_length b < two64 - 8 /\
  Forall (fun y => 0 <= y < 256) (bm_buffer b).

(** [b'] is [b] with the bits selected by [sel] set to [v] and no other bit
    changed. *)
Definition bits_upd (b b' : Bitmap) (sel : Z -> bool) (v : bool) : Prop :=
  forall i, 0 <= i < bm_length b -> bit b' i = if sel i then v else bit b i.

(** The half-open interval of indices [lo, hi). *)
Definition within (lo hi i : Z) : bool := (lo <=? i) && (i <? hi).

(** Everything but the buffer's contents is the same. *)
Definition same_frame (b b' : Bitmap) : Prop :=
  bm_lock b' = bm_lock b /\ bm_length b' = bm_length b /\ bm_refcount b' = bm_refcount b.

(** ** Single-bit and single-byte updates *)

Lemma same_frame_refl b : same_frame b b.
Proof. done. Qed.

Lemma same_frame_trans b1 b2 b3 : same_frame b1 b2 -> same_frame b2 b3 -> same_frame b1 b3.
Proof. intros (?&?&?) (?&?&?). repeat split; congruence. Qed.

#[export] Hint Resolve same_frame_refl same_frame_trans : kern.

Lemma bits_upd_refl b v lo hi : hi <= lo -> bits_upd b b (within lo hi) v.
Proof. intros ? i ?. unfold within. case_if; [bools; lia|done]. Qed.

Lemma bits_upd_trans b1 b2 b3 f g v :
  bm_length b2 = bm_length b1 -> bits_upd b1 b2 f v -> bits_upd b2 b3 g v ->
  bits_upd b1 b3 (fun i => f i || g i) v.
Proof.
  intros Hl H12 H23 i Hi. rewrite H23, H12 by lia. by destruct (f i), (g i).
Qed.

Lemma bits_upd_ext b1 b2 f g v :
  (forall i, 0 <= i < bm_length b1 -> f i = g i) -> bits_upd b1 b2 f v -> bits_upd b1 b2 g v.
Proof. intros E H i Hi. rewrite <- E by done. by apply H. Qed.

Lemma bitmap_wf_byte b i y : bitmap_wf b -> zget (bm_buffer b) i = Some y -> 0 <= y < 256.
Proof. intros (_&_&F) E. by apply (Forall_zget _ _ _ _ F E). Qed.

(** Replacing one byte keeps the map well-formed and changes the bits of
    that byte only. *)
Lemma set_byte_spec b w y :
  bitmap_wf b -> 0 <= w < zlen (bm_buffer b) -> 0 <= y < 256 ->
  exists buf, zset (bm_buffer b) w y = Some buf /\
    bitmap_wf (bm_with_buffer b buf) /\ same_frame b (bm_with_buffer b buf) /\
    forall i, 0 <= i -> bit (bm_with_buffer b buf) i =
      if i / 8 =? w then Z.testbit y (i mod 8) else bit b i.
Proof.
  intros (Hl & Hb & HF) Hw Hy. rewrite (zset_ok _ _ _ Hw). eexists; split; [done|]. split; [|split]; [|done|].
  - unfold bitmap_wf, zlen in *; cbn [bm_length bm_buffer bm_with_buffer]. rewrite length_insert.
    split_and!; try done. by apply Forall_insert.
  - intros i Hi. unfold bit; simpl.
    rewrite (zset_get (bm_buffer b) w (i / 8) y) by by apply zset_ok.
    destruct (Z.eqb_spec (i / 8) w); case_decide; congruence.
Qed.

Lemma bitmap_set_spec b i v :
  bitmap_wf b -> 0 <= i < bm_length b ->
  exists b', bitmap_set b i v = Some b' /\ bitmap_wf b' /\ same_frame b b' /\
    bits_upd b b' (within i (i + 1)) v.
Proof.
  intros Hwf Hi. pose proof Hwf as (Hl & Hb & _).
  assert (0 <= i / 8 < zlen (bm_buffer b)) as Hw by (split; [apply Z.div_pos|apply Z.div_lt_upper_bound]; lia).
  assert (0 <= i mod 8 < 8) as Hm by (apply Z.mod_pos_bound; lia).
  unfold bitmap_set. case_if; [lia|]. destruct (zget_ok _ _ Hw) as [y Hy]. rewrite Hy; simpl.
  set (y' := if v then _ else _).
  assert (forall k, 0 <= k < 8 -> Z.testbit y' k = if k =? i mod 8 then v else Z.testbit y k) as Hbit.
  { intros k Hk. unfold y'. destruct v.
    - rewrite u8_testbit, Z.lor_spec, Z.shiftl_spec, testbit_1_l by lia.
      destruct (Z.eqb_spec k (i mod 8)), (Z.eqb_spec (k - i mod 8) 0); try lia; by destruct (Z.testbit y k).
    - unfold u64. change two64 with (2 ^ 64).
      rewrite u8_testbit, Z.land_spec, Z.mod_pow2_bits_low, Z.lnot_spec, Z.shiftl_spec, testbit_1_l by lia.
      destruct (Z.eqb_spec k (i mod 8)), (Z.eqb_spec (k - i mod 8) 0); try lia; by destruct (Z.testbit y k). }
  destruct (set_byte_spec b (i / 8) y' Hwf Hw) as (buf & -> & Hwf' & Hsf & Hbits).
  { unfold y'. destruct v; auto with kern. }
  eexists; split; [done|]. split_and!; [done|done|]. intros j Hj. rewrite Hbits by lia.
  unfold within. destruct (Z.eqb_spec (j / 8) (i / 8)) as [Ej|Ej].
  - rewrite Hbit by (apply Z.mod_pos_bound; lia). unfold bit. rewrite Ej, Hy.
    pose proof (Z.div_mod i 8). pose proof (Z.div_mod j 8).
    destruct (Z.eqb_spec (j mod 8) (i mod 8)); case_if; bools; try done; lia.
  - case_if; [|done]. bools. exfalso. apply Ej. f_equal. lia.
Qed.

Lemma fill_byte_spec b w (v : bool) :
  bitmap_wf b -> 0 <= w < zlen (bm_buffer b) ->
  exists buf, zset (bm_buffer b) w (if v then 255 else 0) = Some buf /\
    bitmap_wf (bm_with_buffer b buf) /\ same_frame b (bm_with_buffer b buf) /\
    bits_upd b (bm_with_buffer b buf) (within (8 * w) (8 * (w + 1))) v.
Proof.
  intros Hwf Hw. destruct (set_byte_spec b w (if v then 255 else 0) Hwf Hw) as (buf & E & ? & ? & Hbits).
  { destruct v; lia. }
  exists buf. split_and!; try done. intros i Hi. rewrite Hbits by lia. unfold within.
  pose proof (Z.div_mod i 8). pose proof (Z.mod_pos_bound i 8).
  destruct (Z.eqb_spec (i / 8) w).
  - replace ((8 * w <=? i) && (i <? 8 * (w + 1))) with true by lia.
    destruct v; [|apply Z.testbit_0_l].
    change 255 with (Z.ones 8). apply Z.ones_spec_low. lia.
  - by replace ((8 * w <=? i) && (i <? 8 * (w + 1))) with false by lia.
Qed.

(** ** Range updates *)

(** One pass of a loop that sets a span of bits per iteration. *)
Lemma span_loop b lo hi k v (body : Z -> Bitmap -> option Bitmap) :
  bitmap_wf b -> 0 < k -> 0 <= lo <= hi ->
  (forall i t, lo <= i < hi -> bitmap_wf t -> same_frame b t ->
     exists t', body i t = Some t' /\ bitmap_wf t' /\ same_frame t t' /\
       bits_upd t t' (within (k * i) (k * (i + 1))) v) ->
  exists b', for_range lo hi body b = Some b' /\ bitmap_wf b' /\ same_frame b b' /\
    bits_upd b b' (within (k * lo) (k * hi)) v.
Proof.
  intros Hwf Hk Hle Hbody.
  apply (for_range_inv (fun i t => bitmap_wf t /\ same_frame b t /\
           bits_upd b t (within (k * lo) (k * i)) v)); [lia| |].
  - split_and!; auto with kern. apply bits_upd_refl. lia.
  - intros i t Hi (Hwt & Hsf & Hup).
    destruct (Hbody i t Hi Hwt Hsf) as (t' & E & Hwt' & Hsf' & Hup').
    exists t'. split_and!; eauto with kern.
    eapply bits_upd_ext; [|eapply bits_upd_trans; [apply Hsf|exact Hup|exact Hup']].
    intros j _. unfold within.
    assert (k * lo <= k * i) by nia. assert (k * i <= k * (i + 1)) by nia.
    destruct (Z.leb_spec (k * lo) j), (Z.ltb_spec j (k * i)), (Z.leb_spec (k * i) j),
      (Z.ltb_spec j (k * (i + 1))); simpl; try done; lia.
Qed.

Lemma set_bits_loop b lo hi v :
  bitmap_wf b -> 0 <= lo <= hi -> hi <= bm_length b ->
  exists b', for_range lo hi (fun i b => bitmap_set b i v) b = Some b' /\ bitmap_wf b' /\
    same_frame b b' /\ bits_upd b b' (within lo hi) v.
Proof.
  intros Hwf Hle Hhi. destruct (span_loop b lo hi 1 v (fun i b => bitmap_set b i v)) as (b' & ?); auto.
  - lia.
  - intros i t Hi Hwt (_ & Hl & _). rewrite !Z.mul_1_l. apply bitmap_set_spec; [done|lia].
  - rewrite !Z.mul_1_l in *. eauto.
Qed.

Lemma fill_bytes_loop b lo hi (v : bool) :
  bitmap_wf b -> 0 <= lo <= hi -> hi <= zlen (bm_buffer b) ->
  exists b', for_range lo hi
      (fun i b => buf ← zset (bm_buffer b) i (if v then 255 else 0); Some (bm_with_buffer b buf)) b
      = Some b' /\ bitmap_wf b' /\ same_frame b b' /\ bits_upd b b' (within (8 * lo) (8 * hi)) v.
Proof.
  intros Hwf Hle Hhi. apply span_loop; try done.
  intros i t Hi Hwt (_ & Hl & _).
  destruct (fill_byte_spec t i v Hwt) as (buf & -> & ? & ? & ?).
  { destruct Hwt as [? _], Hwf as [? _]. lia. }
  simpl. eauto.
Qed.

Lemma with_lock_wf b l : bitmap_wf b -> bitmap_wf (bm_with_lock b l).
Proof. done. Qed.

(** The frame relation when the caller's lock flag is put back. *)
Lemma relock_frame b b' l :
  bm_lock b = false -> same_frame (bm_with_lock b l) b' ->
  same_frame b (bm_with_lock b' (spin_unlock (bm_lock b'))).
Proof. intros Hl (_ & H2 & H3). by repeat split. Qed.

Lemma bitmap_set_range_spec b s e v :
  bitmap_wf b -> bm_lock b = false -> 0 <= s -> 0 <= e <= bm_length b ->
  exists b', bitmap_set_range b s e v = Some b' /\ bitmap_wf b' /\ same_frame b b' /\
    bits_upd b b' (within s e) v.
Proof.
  intros Hwf Hlk Hs He. unfold bitmap_set_range. case_if.
  { bools. exists b. split_and!; auto with kern. apply bits_upd_refl. lia. }
  bools. rewrite Hlk; simpl. set (b0 := bm_with_lock b true).
  destruct Hwf as (Hlen & Hmax & HF).
  rewrite (u64_id (s + 7)), (u64_id ((s + 7) / 8 * 8)), (u64_id (e / 8 * 8)), MIN_min, MAX_max
    by (pose proof (Z.div_mod (s + 7) 8); pose proof (Z.div_mod e 8);
        pose proof (Z.mod_pos_bound (s + 7) 8); pose proof (Z.mod_pos_bound e 8); lia).
  pose proof (Z.div_mod (s + 7) 8). pose proof (Z.mod_pos_bound (s + 7) 8).
  pose proof (Z.div_mod e 8). pose proof (Z.mod_pos_bound e 8).
  destruct (set_bits_loop b0 s (Z.min ((s + 7) / 8 * 8) e) v) as (b1 & -> & W1 & F1 & U1);
    [done|lia|change (bm_length b0) with (bm_length b); lia|]. simpl.
  case_if.
  { eexists; split; [done|]. split_and!; [done|by apply (relock_frame b b1 true)|].
    by replace (Z.min ((s + 7) / 8 * 8) e) with e in U1 by lia. }
  replace ((s + 7) / 8 <=? e / 8) with true by lia.
  assert (bm_length b1 = bm_length b) as L1 by apply F1.
  destruct (fill_bytes_loop b1 ((s + 7) / 8) (e / 8) v) as (b2 & -> & W2 & F2 & U2);
    [done|lia|destruct W1; lia|]. simpl.
  assert (bm_length b2 = bm_length b) as L2 by (destruct F2 as (_ & ? & _); congruence).
  destruct (set_bits_loop b2 (Z.max (e / 8 * 8) s) e v) as (b3 & -> & W3 & F3 & U3);
    [done|lia|lia|]. simpl.
  eexists; split; [done|]. split_and!; [done| |].
  { apply (relock_frame b b3 true); [done|]. eauto using same_frame_trans. }
  intros i Hi. change (bit (bm_with_lock b3 _) i) with (bit b3 i).
  rewrite U3, U2, (U1 i) by (try lia; done). change (bit b0 i) with (bit b i). unfold within.
  repeat case_if; bools; try done; lia.
Qed.

(** A reader of a well-formed map sees bit [i], without a fault. *)
Lemma bitmap_get_spec b i :
  bitmap_wf b -> 0 <= i < bm_length b -> bitmap_get b i = Some (bit b i).
Proof.
  intros (Hlen & _ & _) Hi. unfold bitmap_get, bit.
  assert (0 <= i / 8 < zlen (bm_buffer b)) as Hw by (split; [apply Z.div_pos|apply Z.div_lt_upper_bound]; lia).
  case_if; [lia|]. destruct (zget_ok _ _ Hw) as [y ->]; simpl.
  f_equal. apply bit_of_testbit. apply Z.mod_pos_bound. lia.
Qed.

(** ** The run search *)

(** [n] consecutive bits from [lo] on have the value [v]. *)
Definition run (b : Bitmap) (v : bool) (lo n : Z) : Prop :=
  forall i, lo <= i < lo + n -> bit b i = v.

(** The loop invariant before bit [p], for a search that began at bit [base]
    for a run of [L]: the counter describes a run that ends at [p], shorter
    than [L]. When the search is for set bits, that run is also the longest
    one ending at [p], and no run of [L] ends at or before [p]. *)
Record scan_inv (b : Bitmap) (v : bool) (base p L count start : Z) : Prop := {
  si_base : base <= p;
  si_count : 0 <= count < L;
  si_run : count = 0 \/ (start + count = p /\ base <= start /\ run b v start count);
  si_maximal : v = true -> count = p - base \/ (base < p - count /\ bit b (p - count - 1) <> v);
  si_none : v = true -> forall r, base <= r -> r + L <= p -> ~ run b v r L;
}.

(** What a successful search returns. *)
Definition found (b : Bitmap) (v : bool) (base lim L r : Z) : Prop :=
  base <= r /\ r + L <= lim /\ run b v r L.

(** A run longer than the maximal one cannot end at [p]. *)
Lemma maximal_no_run b v base p L count r :
  0 <= count < L -> count = p - base \/ (base < p - count /\ bit b (p - count - 1) <> v) ->
  base <= r -> r + L = p -> ~ run b v r L.
Proof. intros ? [?|[? Hb]] ? ? Hr; [lia|]. apply Hb, Hr. lia. Qed.

Lemma scan_inv_miss b v base p L count start start' :
  0 < L -> scan_inv b v base p L count start -> (v = true -> bit b p <> v) ->
  scan_inv b v base (p + 1) L 0 start'.
Proof.
  intros HL [? ? ? Hmax Hn] Hb. constructor; try lia; intros Hv.
  - right. split; [lia|]. replace (p + 1 - 0 - 1) with p by lia. auto.
  - intros r ? ? Hr. destruct (decide (r + L = p + 1)).
    + apply (Hb Hv), Hr. lia.
    + eapply Hn; eauto. lia.
Qed.

Lemma scan_inv_hit b v base p L count start :
  scan_inv b v base p L count start -> bit b p = v ->
  let start' := if count =? 0 then p else start in
  base <= start' /\ start' + (count + 1) = p + 1 /\ run b v start' (count + 1) /\
  (count + 1 < L -> scan_inv b v base (p + 1) L (count + 1) start').
Proof.
  intros [? ? Hrun Hmax Hn] Hb start'.
  assert (base <= start' /\ start' + (count + 1) = p + 1 /\ run b v start' (count + 1)) as (?&?&Hr).
  { unfold start'. destruct (Z.eqb_spec count 0) as [->|].
    - split_and!; [lia|lia|]. intros i Hi. by replace i with p by lia.
    - destruct Hrun as [|(? & ? & Hr)]; [done|]. split_and!; [lia|lia|].
      intros i Hi. destruct (decide (i = p)) as [->|]; [done|]. apply Hr. lia. }
  split_and!; try done. intros. constructor; try lia; eauto.
  - intros Hv. destruct (Hmax Hv) as [->|[? Hne]]; [left; lia|right].
    split; [lia|]. by replace (p + 1 - (count + 1) - 1) with (p - count - 1) by lia.
  - intros Hv r ? ? Hrr. destruct (decide (r + L = p + 1)); [|eapply Hn; eauto; lia].
    destruct (Hmax Hv) as [->|[? Hne]]; [lia|]. apply Hne, Hrr. lia.
Qed.

(** The bit loop over the last [n] bits of byte [w]. *)
Lemma scan_bits_spec b v base L w y n : forall k count start,
  zget (bm_buffer b) w = Some y -> 0 <= w -> 0 <= k -> k + Z.of_nat n = 8 ->
  scan_inv b v base (8 * w + k) L count start ->
  match scan_bits n k y L v w count start with
  | inl r => found b v base (8 * w + 8) L r
  | inr (count', start') => scan_inv b v base (8 * w + 8) L count' start'
  end.
Proof.
  induction n as [|n IH]; intros k count start Hy Hw Hk Hkn Hinv; cbn [scan_bits].
  { by replace (8 * w + 8) with (8 * w + k) by lia. }
  assert (bit b (8 * w + k) = bit_of y k) as Hbit.
  { unfold bit. replace ((8 * w + k) / 8) with w by (rewrite Z.mul_comm, Z.div_add_l, Z.div_small; lia).
    rewrite Hy, bit_of_testbit by lia. f_equal.
    rewrite Z.mul_comm, Z.add_comm, Z.mod_add, Z.mod_small; lia. }
  destruct (Bool.eqb_spec (bit_of y k) v) as [Hv|Hv].
  - pose proof (scan_inv_hit _ _ _ _ _ _ _ Hinv) as Hhit. rewrite Hbit in Hhit.
    destruct (Hhit Hv) as (? & ? & Hr & Hnext). replace (w * 8 + k) with (8 * w + k) by lia.
    pose proof (si_count _ _ _ _ _ _ _ Hinv). case_if.
    + split_and!; [done|lia|]. by replace L with (count + 1) by lia.
    + apply IH; try done; [lia|lia|]. rewrite Z.add_assoc. apply Hnext. lia.
  - apply IH; try done; [lia|lia|]. rewrite Z.add_assoc.
    eapply scan_inv_miss; [|done|intros; congruence]. pose proof (si_count _ _ _ _ _ _ _ Hinv). lia.
Qed.

(** A byte of uniform bits. *)
Lemma bit_uniform b w y (v : bool) i :
  zget (bm_buffer b) w = Some y -> y = (if v then 255 else 0) -> 8 * w <= i < 8 * w + 8 -> bit b i = v.
Proof.
  intros Hy -> Hi. unfold bit. replace (i / 8) with w by (apply Z.div_unique with (i - 8 * w); lia).
  rewrite Hy. pose proof (Z.mod_pos_bound i 8). destruct v; [|apply Z.testbit_0_l].
  change 255 with (Z.ones 8). apply Z.ones_spec_low. lia.
Qed.

(** A byte with no matching bit, or (in a search for clear bits) any byte
    skipped whole: the search restarts after it. *)
Lemma scan_inv_skip b v base w L count start start' :
  0 < L -> scan_inv b v base (8 * w) L count start ->
  (v = true -> forall i, 8 * w <= i < 8 * w + 8 -> bit b i = false) ->
  scan_inv b v base (8 * w + 8) L 0 start'.
Proof.
  intros HL [? ? ? Hmax Hn] Hb. constructor; try lia; intros Hv.
  - right. split; [lia|]. rewrite Hb by (try done; lia). congruence.
  - intros r ? ? Hr. destruct (decide (r + L <= 8 * w)); [by eapply Hn; eauto|].
    specialize (Hr (r + L - 1)). rewrite Hb in Hr by (try done; lia). subst v. discriminate Hr. lia.
Qed.

Lemma scan_inv_byte b v base w L count start :
  scan_inv b v base (8 * w) L count start -> run b v (8 * w) 8 ->
  let start' := if count =? 0 then w * 8 else start in
  base <= start' /\ run b v start' (count + 8) /\ start' + (count + 8) = 8 * w + 8 /\
  (count + 8 < L -> scan_inv b v base (8 * w + 8) L (count + 8) start').
Proof.
  intros [? ? Hrun Hmax Hn] Hb start'.
  assert (base <= start' /\ start' + (count + 8) = 8 * w + 8 /\ run b v start' (count + 8)) as (?&?&Hr).
  { unfold start'. destruct (Z.eqb_spec count 0) as [->|].
    - split_and!; [lia|lia|]. intros i Hi. apply Hb. lia.
    - destruct Hrun as [|(? & ? & Hr)]; [done|]. split_and!; [lia|lia|].
      intros i Hi. destruct (decide (i < 8 * w)); [apply Hr|apply Hb]; lia. }
  split_and!; try done. intros. constructor; try lia; eauto.
  - intros Hv. destruct (Hmax Hv) as [->|[? Hne]]; [left; lia|right].
    split; [lia|]. by replace (8 * w + 8 - (count + 8) - 1) with (8 * w - count - 1) by lia.
  - intros Hv r ? ? Hrr. destruct (decide (r + L <= 8 * w)); [eapply Hn; eauto; lia|].
    destruct (Hmax Hv) as [->|[? Hne]]; [lia|]. apply Hne, Hrr. lia.
Qed.

(** The byte loop over the bytes [w] to [w + n - 1]. *)
Lemma scan_bytes_spec b v base L n : forall w count start,
  bitmap_wf b -> 0 <= w -> w + Z.of_nat n <= zlen (bm_buffer b) ->
  scan_inv b v base (8 * w) L count start ->
  let lim := 8 * (w + Z.of_nat n) in
  exists r, scan_bytes n w (bm_buffer b) L v count start = Some r /\
    (r = SIZE_MAX /\ (v = true -> forall s, base <= s -> s + L <= lim -> ~ run b v s L) \/
     found b v base lim L r).
Proof.
  induction n as [|n IH]; intros w count start Hwf Hw Hn Hinv lim; cbn [scan_bytes].
  { exists SIZE_MAX. split; [done|]. left. split; [done|]. intros Hv.
    unfold lim. replace (w + Z.of_nat 0) with w by lia. by apply (si_none _ _ _ _ _ _ _ Hinv). }
  destruct (zget_ok (bm_buffer b) w) as [y Hy]; [lia|]. rewrite Hy; cbn [mbind option_bind].
  pose proof (si_count _ _ _ _ _ _ _ Hinv). pose proof (si_base _ _ _ _ _ _ _ Hinv).
  assert (8 * w + 8 <= lim) by (unfold lim; lia).
  assert (lim = 8 * (w + 1 + Z.of_nat n)) as Elim by (unfold lim; lia). clearbody lim. subst lim.
  replace (8 * w + 8) with (8 * (w + 1)) in * by lia.
  case_if; [|case_if].
  - apply IH; try done; [lia|lia|].
    replace (8 * (w + 1)) with (8 * w + 8) by lia. eapply scan_inv_skip; [lia|done|].
    intros Hv i Hi. apply (bit_uniform b w y false); try done.
    destruct v; [|done]. by apply Z.eqb_eq.
  - assert (run b v (8 * w) 8) as Hb.
    { intros i Hi. eapply bit_uniform; [done| |lia]. by apply Z.eqb_eq. }
    case_if.
    + eexists; split; [done|]. right. split_and!; [lia|lia|].
      intros i Hi. apply Hb. lia.
    + destruct (scan_inv_byte _ _ _ _ _ _ _ Hinv Hb) as (? & Hr & ? & Hnext). case_if.
      * eexists; split; [done|]. right. split_and!; [done|lia|]. intros i Hi. apply Hr. lia.
      * apply IH; try done; [lia|lia|]. replace (8 * (w + 1)) with (8 * w + 8) by lia. apply Hnext. lia.
  - pose proof (scan_bits_spec b v base L w y 8 0 count start) as Hs.
    rewrite Z.add_0_r in Hs. specialize (Hs Hy Hw ltac:(lia) ltac:(lia) Hinv).
    destruct (scan_bits 8 0 y L v w count start) as [r|[c s]].
    + exists r. split; [done|]. right. destruct Hs as (? & ? & ?). split_and!; [done|lia|done].
    + apply IH; try done; [lia|lia|]. by replace (8 * (w + 1)) with (8 * w + 8) by lia.
Qed.

(** A search that ends in a prefix ends there in the whole map. *)
Lemma scan_bytes_more k n : forall w buf L v count start r,
  scan_bytes n w buf L v count start = Some r -> r <> SIZE_MAX ->
  scan_bytes (n + k) w buf L v count start = Some r.
Proof.
  induction n as [|n IH]; intros w buf L v count start r; cbn [scan_bytes Nat.add]; [congruence|].
  destruct (zget buf w) as [y|]; [|done]. cbn [mbind option_bind].
  repeat case_if; try done; try (by apply IH).
  all: destruct (scan_bits 8 0 y L v w count start) as [?|[??]]; try done; by apply IH.
Qed.

Lemma scan_inv_start b v base L : 0 < L -> scan_inv b v base base L 0 0.
Proof. intros. constructor; try lia. all: try (intros _; left; lia). Qed.

Lemma relock_id b : bm_lock b = false ->
  bm_with_lock (bm_with_lock b true) (spin_unlock (bm_lock (bm_with_lock b true))) = b.
Proof. destruct b; simpl; intros ->. done. Qed.

Lemma bitmap_find_range_from_spec b v L from :
  bitmap_wf b -> bm_lock b = false -> 0 < L -> 0 <= from <= bm_length b ->
  let base := 8 * (from / 8) in
  exists r, bitmap_find_range_from b L v from = Some (r, b) /\
    (r = SIZE_MAX /\ (v = true -> forall s, base <= s -> s + L <= bm_length b -> ~ run b v s L) \/
     found b v base (bm_length b) L r).
Proof.
  intros Hwf Hlk HL Hf base. unfold bitmap_find_range_from. rewrite Hlk; cbn -[Z.div Z.sub scan_bytes].
  pose proof Hwf as (Hl & _ & _).
  assert (bm_length b / 8 = zlen (bm_buffer b)) as Hlen by (rewrite Hl, Z.mul_comm, Z.div_mul; lia).
  assert (from / 8 <= bm_length b / 8) by (apply Z.div_le_mono; lia).
  destruct (scan_bytes_spec b v base L (Z.to_nat (bm_length b / 8 - from / 8)) (from / 8) 0 0)
    as (r & -> & Hr); try done.
  - apply Z.div_pos; lia.
  - lia.
  - by apply scan_inv_start.
  - exists r. simpl. split; [f_equal; f_equal; by apply relock_id|].
    by replace (8 * (from / 8 + Z.of_nat (Z.to_nat (bm_length b / 8 - from / 8)))) with (bm_length b) in Hr by lia.
Qed.

(** A search for set bits ends in the byte where the first run that starts
    at or after the search's own start is complete. *)
Lemma bitmap_find_range_from_first b L from s :
  bitmap_wf b -> bm_lock b = false -> 0 < L -> 0 <= from <= bm_length b ->
  8 * (from / 8) <= s -> s + L <= bm_length b -> run b true s L ->
  exists r, bitmap_find_range_from b L true from = Some (r, b) /\ found b true (8 * (from / 8)) (s + L + 7) L r.
Proof.
  intros Hwf Hlk HL Hf Hs Hsl Hrun. unfold bitmap_find_range_from. rewrite Hlk; cbn -[Z.div Z.sub scan_bytes].
  pose proof Hwf as (Hl & Hmax & _).
  assert (bm_length b / 8 = zlen (bm_buffer b)) as Hlen by (rewrite Hl, Z.mul_comm, Z.div_mul; lia).
  assert (0 <= from / 8) as H0 by (apply Z.div_pos; lia).
  pose proof (Z.div_mod (s + L + 7) 8 ltac:(lia)) as Hdm. pose proof (Z.mod_pos_bound (s + L + 7) 8 ltac:(lia)) as Hmb.
  set (e := (s + L + 7) / 8) in *. clearbody e. rewrite Hlen in *.
  destruct (scan_bytes_spec b true (8 * (from / 8)) L (Z.to_nat (e - from / 8)) (from / 8) 0 0)
    as (r & E & Hr); try done; [lia|by apply scan_inv_start|].
  replace (8 * (from / 8 + Z.of_nat (Z.to_nat (e - from / 8)))) with (8 * e) in Hr by lia.
  destruct Hr as [[_ Hno]|(Hr1 & Hr2 & Hr3)]; [exfalso; apply (Hno eq_refl s); [lia|lia|done]|].
  assert (r <> SIZE_MAX) by lia.
  apply (scan_bytes_more (Z.to_nat (zlen (bm_buffer b) - e))) in E; [|done].
  replace (Z.to_nat (e - from / 8) + Z.to_nat (zlen (bm_buffer b) - e))%nat
    with (Z.to_nat (zlen (bm_buffer b) - from / 8)) in E by lia.
  rewrite E. exists r. simpl. split; [f_equal; f_equal; by apply relock_id|]. split_and!; [lia|lia|done].
Qed.

(** ** Properties *)

(** [bitmap_set_range] on a well-formed, unlocked map with the range
    inside it never touches memory outside the buffer, sets exactly the bits
    of [start, end) as [bitmap_get] reads them (its partial-byte loops and
    its whole-byte fill agree with the per-bit meaning, for every alignment
    of the two ends), keeps every other bit, and gives the lock back. *)
Theorem bitmap_set_range_correct b start end_ v :
  bitmap_wf b -> bm_lock b = false -> 0 <= start -> 0 <= end_ <= bm_length b ->
  exists b', bitmap_set_range b start end_ v = Some b' /\ bitmap_wf b' /\
    bm_lock b' = false /\ bm_length b' = bm_length b /\
    forall i, 0 <= i < bm_length b ->
      bitmap_get b' i = if within start end_ i then Some v else bitmap_get b i.
Proof.
  intros Hwf Hlk Hs He.
  destruct (bitmap_set_range_spec b start end_ v) as (b' & E & Hwf' & (Hl & Hn & _) & Hup); try done.
  exists b'. split_and!; try done; [congruence|]. intros i Hi.
  rewrite !bitmap_get_spec, Hup by (try done; lia). by destruct (within start end_ i).
Qed.

Lemma bitmap_set_range_correct_witness :
  let b := mkBitmap false [0; 0; 0] 24 1 in
  exists b', bitmap_set_range b 5 18 true = Some b' /\ bitmap_wf b' /\
    bm_lock b' = false /\ bm_length b' = bm_length b /\
    forall i, 0 <= i < bm_length b ->
      bitmap_get b' i = if within 5 18 i then Some true else bitmap_get b i.
Proof.
  apply (bitmap_set_range_correct (mkBitmap false [0; 0; 0] 24 1) 5 18 true).
  - split; [reflexivity|split; [reflexivity|]]. repeat constructor; discriminate.
  - reflexivity.
  - lia.
  - simpl. lia.
Defined.

(** [bitmap_find_range_from] on a well-formed, unlocked map terminates
    without a fault, leaves the map as it was, and either returns an index
    at which [length] bits of the wanted value lie inside the map (at or
    after the byte of [start_from]), or returns [(size_t)-1]; in a search for
    set bits (the only use the frame allocator makes of it) the latter
    happens only when there is no such run. *)
Theorem bitmap_find_range_from_correct b v L from :
  bitmap_wf b -> bm_lock b = false -> 0 < L -> 0 <= from <= bm_length b ->
  let base := 8 * (from / 8) in
  exists r, bitmap_find_range_from b L v from = Some (r, b) /\
    (r = SIZE_MAX /\ (v = true -> forall s, base <= s -> s + L <= bm_length b -> ~ run b v s L) \/
     base <= r /\ r + L <= bm_length b /\ run b v r L).
Proof. apply bitmap_find_range_from_spec. Qed.

Lemma bitmap_find_range_from_correct_witness :
  let b := mkBitmap false [0; 240; 7] 24 1 in
  exists r, bitmap_find_range_from b 6 true 3 = Some (r, b) /\
    (r = SIZE_MAX /\ (true = true -> forall s, 8 * (3 / 8) <= s -> s + 6 <= bm_length b -> ~ run b true s 6) \/
     8 * (3 / 8) <= r /\ r + 6 <= bm_length b /\ run b true r 6).
Proof.
  apply (bitmap_find_range_from_correct (mkBitmap false [0; 240; 7] 24 1) true 6 3).
  - split; [reflexivity|split; [reflexivity|]]. repeat constructor; discriminate.
  - reflexivity.
  - lia.
  - simpl. lia.
Defined.

(** The search for clear bits is not complete. The all-opposite test is
    written [byte == !byte_match], and [!0] is 1, not 0xFF: a byte 0x01 is
    skipped as if it had no clear bit, so a map whose bits 1 to 7 are clear
    is reported to have no run of seven clear bits. *)
Theorem bitmap_find_clear_incomplete :
  let b := mkBitmap false [1] 8 1 in
  bitmap_wf b /\ run b false 1 7 /\ bitmap_find_range b 7 false = Some (SIZE_MAX, b).
Proof.
  split_and!; [split; [reflexivity|split; [reflexivity|]]; repeat constructor; discriminate| |reflexivity].
  intros i Hi. assert (i = 1 \/ i = 2 \/ i = 3 \/ i = 4 \/ i = 5 \/ i = 6 \/ i = 7) as Hc by lia.
  destruct_or! Hc; by subst i.
Qed.
