(* ===== verification/PageRef.v ===== *)
(** * Page reference counts ([src/src/mem/page_ref.c])

    One [int] counter per page frame. A [page_t *] is an index into
    [page_maps], or NULL. The counters are updated by compare-and-swap loops;
    [cas] is one [__atomic_compare_exchange_n] on the counter array. *)

From S2P Require Import Prelude Bitmap.

(** ** Operations on the counter array *)

Definition page_ptr : Type := option Z.

(** [page_maps + (addr / PAGE_SIZE)]: never NULL once the array exists. *)
Definition get_page_ref (addr : Z) : page_ptr := Some (addr / PAGE_SIZE).

Definition page_refcount_read (pm : list Z) (page : page_ptr) : option Z :=
  match page with None => Some 0 | Some i => zget pm i end.

Definition page_ref (pm : list Z) (page : page_ptr) : option (list Z) :=
  match page with
  | None => Some pm
  | Some i => r ← zget pm i; zset pm i (i32 (r + 1))
  end.

(** Success flag, value observed, array after the operation. *)
Definition cas (pm : list Z) (i expected desired : Z) : option (bool * Z * list Z) :=
  cur ← zget pm i;
  if cur =? expected then pm' ← zset pm i desired; Some (true, cur, pm')
  else Some (false, cur, pm).

(** The [while (refs > 0)] loop of [page_try_ref]. Between two of its steps
    other CPUs may change the array: [env] is what they do before the next
    compare-and-swap. *)
Fixpoint try_ref_loop (fuel : nat) (env : nat -> list Z -> list Z) (pm : list Z) (i refs : Z)
  : option (bool * list Z) :=
  match fuel with
  | O => None
  | S n =>
      if refs >? 0 then
        let new_refs := i32 (refs + 1) in
        '(ok, cur, pm) ← cas (env n pm) i refs new_refs;
        if ok : bool then Some (true, pm) else try_ref_loop n env pm i cur
      else Some (false, pm)
  end.

Fixpoint unref_loop (fuel : nat) (env : nat -> list Z -> list Z) (pm : list Z) (i refs : Z)
  : option (Z * list Z) :=
  match fuel with
  | O => None
  | S n =>
      if refs >? 0 then
        let new_refs := refs - 1 in
        '(ok, cur, pm) ← cas (env n pm) i refs new_refs;
        if ok : bool then Some (new_refs, pm) else unref_loop n env pm i cur
      else Some (-1, pm)
  end.

(** The calls as the kernel makes them with no other CPU in between: the
    first compare-and-swap succeeds, so one step of fuel is enough. *)
Definition quiet : nat -> list Z -> list Z := fun _ pm => pm.

Definition page_try_ref (pm : list Z) (page : page_ptr) : option (bool * list Z) :=
  match page with
  | None => Some (false, pm)
  | Some i => refs ← zget pm i; try_ref_loop 1 quiet pm i refs
  end.

Definition page_unref (pm : list Z) (page : page_ptr) : option (Z * list Z) :=
  match page with
  | None => Some (-1, pm)
  | Some i => refs ← zget pm i; unref_loop 1 quiet pm i refs
  end.

Definition page_try_release_last (pm : list Z) (page : page_ptr) : option (bool * list Z) :=
  match page with
  | None => Some (false, pm)
  | Some i => '(ok, _, pm) ← cas pm i 1 0; Some (ok, pm)
  end.

Definition page_can_free (pm : list Z) (page : page_ptr) : option bool :=
  r ← page_refcount_read pm page; Some (r <=? 0).

(** ** Operations by physical address

    [page_maps] is NULL until [page_ref_init]; [usable] is the bitmap of
    usable frames. *)

Record ref_ctx := mkRefCtx {
  page_maps : option (list Z);
  rc_memory_size : Z;
  rc_usable : Bitmap;
}.

Definition address_is_managed (c : ref_ctx) (addr : Z) : option bool :=
  match page_maps c with
  | None => Some false
  | Some _ =>
      if addr >=? rc_memory_size c then Some false
      else
        let page_index := addr / PAGE_SIZE in
        if page_index >=? bm_length (rc_usable c) then Some false
        else bitmap_get (rc_usable c) page_index
  end.

Definition with_maps (c : ref_ctx) (pm : list Z) : ref_ctx :=
  mkRefCtx (Some pm) (rc_memory_size c) (rc_usable c).

(** The counter array as [get_page_ref] dereferences it. *)
Definition maps_of (c : ref_ctx) : option (list Z) := page_maps c.

Definition address_ref (c : ref_ctx) (addr : Z) : option (bool * ref_ctx) :=
  managed ← address_is_managed c addr;
  if negb managed then Some (true, c)
  else pm ← maps_of c; '(ok, pm) ← page_try_ref pm (get_page_ref addr); Some (ok, with_maps c pm).

Definition address_unref (c : ref_ctx) (addr : Z) : option ref_ctx :=
  managed ← address_is_managed c addr;
  if managed : bool
  then pm ← maps_of c; '(_, pm) ← page_unref pm (get_page_ref addr); Some (with_maps c pm)
  else Some c.

Definition address_can_free (c : ref_ctx) (addr : Z) : option bool :=
  managed ← address_is_managed c addr;
  if managed : bool then pm ← maps_of c; page_can_free pm (get_page_ref addr) else Some false.

(** ** Behaviour *)

Lemma cas_spec pm i e d :
  0 <= i < zlen pm ->
  exists cur, zget pm i = Some cur /\
    cas pm i e d = if cur =? e then Some (true, cur, <[Z.to_nat i := d]> pm) else Some (false, cur, pm).
Proof.
  intros Hi. destruct (zget_ok pm i Hi) as [cur Hc]. exists cur. split; [done|].
  unfold cas. rewrite Hc; simpl. case_if; [|done]. by rewrite zset_ok.
Qed.

Lemma page_try_ref_spec pm i r :
  zget pm i = Some r -> page_try_ref pm (Some i) =
    if r >? 0 then Some (true, <[Z.to_nat i := i32 (r + 1)]> pm) else Some (false, pm).
Proof.
  intros Hr. unfold page_try_ref. rewrite Hr; simpl. case_if; [|done]. unfold quiet.
  destruct (cas_spec pm i r (i32 (r + 1)) (zget_range _ _ _ Hr)) as (cur & Hc & ->).
  replace cur with r by congruence. by rewrite Z.eqb_refl.
Qed.

Lemma page_unref_spec pm i r :
  zget pm i = Some r -> page_unref pm (Some i) =
    if r >? 0 then Some (r - 1, <[Z.to_nat i := r - 1]> pm) else Some (-1, pm).
Proof.
  intros Hr. unfold page_unref. rewrite Hr; simpl. case_if; [|done]. unfold quiet.
  destruct (cas_spec pm i r (r - 1) (zget_range _ _ _ Hr)) as (cur & Hc & ->).
  replace cur with r by congruence. by rewrite Z.eqb_refl.
Qed.

Lemma page_try_release_last_spec pm i r :
  zget pm i = Some r -> page_try_release_last pm (Some i) =
    if r =? 1 then Some (true, <[Z.to_nat i := 0]> pm) else Some (false, pm).
Proof.
  intros Hr. unfold page_try_release_last.
  destruct (cas_spec pm i 1 0 (zget_range _ _ _ Hr)) as (cur & Hc & ->).
  replace cur with r by congruence. by destruct (r =? 1).
Qed.

Lemma page_ref_spec pm i r :
  zget pm i = Some r -> page_ref pm (Some i) = Some (<[Z.to_nat i := i32 (r + 1)]> pm).
Proof. intros Hr. unfold page_ref. rewrite Hr; simpl. apply zset_ok. by eapply zget_range. Qed.
