(* ===== verification/PageList.v ===== *)
(** * Buddy free lists in metadata pages ([src/src/mem/buddy.c])

    The buddy allocator keeps, per zone and order, a chain of 4 KiB metadata
    pages, each a header ([page_list_t]) followed by an array of block
    addresses. This file models the physical memory those pages live in, the
    pool they come from ([metadata_page_alloc], [metadata_page_free]) and the
    three list operations ([page_list_push], [page_list_pop],
    [page_list_take]), and proves that they act on the chain of an order as
    insertion into, extraction from and removal from a bag of blocks. *)

From stdpp Require Import gmap.
From S2P Require Import Prelude.

(** ** Constants and data *)

Definition MAX_ORDER : Z := 31.
Definition MIN_ORDER : Z := 12.
Definition ORDER_COUNT : Z := MAX_ORDER - MIN_ORDER.

(** Arithmetic goals that need the values of the order constants. *)
Ltac olia := unfold ORDER_COUNT, MAX_ORDER, MIN_ORDER in *; lia.

(** [(PAGE_SIZE - sizeof(page_list_t)) / sizeof(uintptr_t)] *)
Definition PAGE_LIST_ENTRY_CAPACITY : Z := (PAGE_SIZE - 16) / 8.

Lemma capacity_510 : PAGE_LIST_ENTRY_CAPACITY = 510.
Proof. reflexivity. Qed.

(** [page_list_t] together with the entry array behind it. *)
Record page_list := mkPageList {
  entry_num : Z;
  next_page : Z;
  pl_entries : list Z;
}.

Definition pl_with_next (p : page_list) (n : Z) : page_list :=
  mkPageList (entry_num p) n (pl_entries p).

(** A page after [memset(page, 0, PAGE_SIZE)]. *)
Definition zero_page : page_list :=
  mkPageList 0 0 (replicate (Z.to_nat PAGE_LIST_ENTRY_CAPACITY) 0).

(** The metadata memory, by physical address, and the file's static
    variables. A read of an address that holds no metadata page is [None]. *)
Record meta := mkMeta {
  md_pages : gmap Z page_list;
  metadata_pool_phys : Z;
  metadata_pool_pages : Z;
  metadata_pool_used : Z;
  metadata_free_list : Z;
  metadata_lock : spin_t;
}.

Definition md_with_pages (m : meta) (p : gmap Z page_list) : meta :=
  mkMeta p (metadata_pool_phys m) (metadata_pool_pages m) (metadata_pool_used m)
    (metadata_free_list m) (metadata_lock m).

Inductive zone_type := ZONE_DMA | ZONE_DMA32 | ZONE_NORMAL.

#[export] Instance zone_type_eq_dec : EqDecision zone_type.
Proof. solve_decision. Defined.

(** [zone_t]; [free_area] and [zn_lock] are its embedded [buddy_allocator_t].
    The name string only serves log messages and is left out. *)
Record zone_t := mkZone {
  free_area : list Z;
  zn_lock : spin_t;
  zone_start_pfn : Z;
  zone_end_pfn : Z;
  managed_pages : Z;
  free_pages : Z;
  zn_type : zone_type;
}.

Definition zn_with_area (z : zone_t) (fa : list Z) : zone_t :=
  mkZone fa (zn_lock z) (zone_start_pfn z) (zone_end_pfn z) (managed_pages z) (free_pages z) (zn_type z).

(** ** Metadata pages *)

Definition order_to_index (order : Z) : Z := order - MIN_ORDER.

(** [page_list_virt(phys)] followed by a dereference: the NULL page and an
    address without a metadata page fault. *)
Definition page_list_read (m : meta) (phys : Z) : option page_list :=
  if phys =? 0 then None else md_pages m !! phys.

(** A store to the metadata page at [phys], which must be one. *)
Definition page_list_write (m : meta) (phys : Z) (p : page_list) : option meta :=
  _ ← page_list_read m phys; Some (md_with_pages m (<[phys := p]> (md_pages m))).

Definition metadata_page_alloc (m : meta) : option (Z * meta) :=
  l ← spin_lock (metadata_lock m);
  '(phys, m) ←
    (if negb (metadata_free_list m =? 0) then
       let phys := metadata_free_list m in
       p ← page_list_read m phys;
       Some (phys, mkMeta (md_pages m) (metadata_pool_phys m) (metadata_pool_pages m)
                     (metadata_pool_used m) (next_page p) l)
     else if metadata_pool_used m <? metadata_pool_pages m then
       let phys := u64 (metadata_pool_phys m + metadata_pool_used m * PAGE_SIZE) in
       Some (phys, mkMeta (md_pages m) (metadata_pool_phys m) (metadata_pool_pages m)
                     (u64 (metadata_pool_used m + 1)) (metadata_free_list m) l)
     else None (* the assertion fails and the kernel halts *));
  let m := mkMeta (md_pages m) (metadata_pool_phys m) (metadata_pool_pages m)
             (metadata_pool_used m) (metadata_free_list m) (spin_unlock (metadata_lock m)) in
  if phys =? 0 then None
  else Some (phys, md_with_pages m (<[phys := zero_page]> (md_pages m))).

Definition metadata_page_free (m : meta) (phys : Z) : option meta :=
  m ← page_list_write m phys zero_page;
  l ← spin_lock (metadata_lock m);
  m ← page_list_write m phys (pl_with_next zero_page (metadata_free_list m));
  Some (mkMeta (md_pages m) (metadata_pool_phys m) (metadata_pool_pages m)
          (metadata_pool_used m) phys (spin_unlock l)).

(** ** List operations

    The walks carry fuel; a chain never has more pages than the metadata
    memory, so [S (size (md_pages m))] steps always suffice (see
    [push_spec], [pop_spec] and [take_spec]). *)

(** [page_list_virt(prev)->next_page = next; metadata_page_free(phys);] *)
Definition unlink (m : meta) (prev phys next : Z) : option meta :=
  p ← page_list_read m prev;
  m ← page_list_write m prev (pl_with_next p next);
  metadata_page_free m phys.

(** The [while (phys)] loop of [page_list_push]; the result is [phys] at its
    exit. *)
Fixpoint push_seek (fuel : nat) (m : meta) (phys prev : Z) : option (meta * Z) :=
  match fuel with
  | O => None
  | S fuel =>
      if phys =? 0 then Some (m, 0)
      else
        list ← page_list_read m phys;
        if entry_num list <? PAGE_LIST_ENTRY_CAPACITY then Some (m, phys)
        else
          let next := next_page list in
          if negb (prev =? 0) && (entry_num list =? 0) then
            m ← unlink m prev phys next; push_seek fuel m next prev
          else push_seek fuel m next phys
  end.

(** The [if (!phys)] of [page_list_push]: a new head page when every page of
    the chain is full. *)
Definition push_room (m : meta) (z : zone_t) (index head phys : Z) : option (meta * zone_t * Z) :=
  if phys =? 0 then
    '(new, m) ← metadata_page_alloc m;
    p ← page_list_read m new;
    m ← page_list_write m new (mkPageList 0 head (pl_entries p));
    fa ← zset (free_area z) index new;
    Some (m, zn_with_area z fa, new)
  else Some (m, z, phys).

Definition page_list_push (m : meta) (z : zone_t) (order block : Z) : option (meta * zone_t) :=
  let index := order_to_index order in
  head ← zget (free_area z) index;
  '(m, phys) ← push_seek (S (size (md_pages m))) m head 0;
  '(m, z, phys) ← push_room m z index head phys;
  list ← page_list_read m phys;
  entries ← zset (pl_entries list) (entry_num list) block;
  m ← page_list_write m phys (mkPageList (entry_num list + 1) (next_page list) entries);
  Some (m, z).

Fixpoint pop_loop (fuel : nat) (m : meta) (phys prev : Z) : option (meta * Z) :=
  match fuel with
  | O => None
  | S fuel =>
      if phys =? 0 then Some (m, 0)
      else
        list ← page_list_read m phys;
        let next := next_page list in
        if negb (entry_num list =? 0) then
          block ← zget (pl_entries list) (entry_num list - 1);
          entries ← zset (pl_entries list) (entry_num list - 1) 0;
          let n := entry_num list - 1 in
          m ← page_list_write m phys (mkPageList n next entries);
          m ← (if (n =? 0) && negb (prev =? 0) then unlink m prev phys next else Some m);
          Some (m, block)
        else if negb (prev =? 0) then
          m ← unlink m prev phys next; pop_loop fuel m next prev
        else pop_loop fuel m next phys
  end.

Definition page_list_pop (m : meta) (z : zone_t) (order : Z) : option (meta * Z) :=
  head ← zget (free_area z) (order_to_index order);
  pop_loop (S (size (md_pages m))) m head 0.

(** The [for] loop of [page_list_take]: the first index below [entry_num]
    whose entry is [target]. *)
Fixpoint find_entry (n : nat) (i : Z) (entries : list Z) (target : Z) : option (option Z) :=
  match n with
  | O => Some None
  | S n' =>
      e ← zget entries i;
      if negb (e =? target) then find_entry n' (i + 1) entries target else Some (Some i)
  end.

Fixpoint take_loop (fuel : nat) (m : meta) (phys prev target : Z) : option (meta * bool) :=
  match fuel with
  | O => None
  | S fuel =>
      if phys =? 0 then Some (m, false)
      else
        list ← page_list_read m phys;
        let next := next_page list in
        r ← find_entry (Z.to_nat (entry_num list)) 0 (pl_entries list) target;
        match r with
        | Some i =>
            let n := entry_num list - 1 in
            last ← zget (pl_entries list) n;
            entries ← zset (pl_entries list) i last;
            entries ← zset entries n 0;
            m ← page_list_write m phys (mkPageList n next entries);
            m ← (if (n =? 0) && negb (prev =? 0) then unlink m prev phys next else Some m);
            Some (m, true)
        | None =>
            if negb (prev =? 0) && (entry_num list =? 0) then
              m ← unlink m prev phys next; take_loop fuel m next prev target
            else take_loop fuel m next phys target
        end
  end.

Definition page_list_take (m : meta) (z : zone_t) (order target : Z) : option (meta * bool) :=
  head ← zget (free_area z) (order_to_index order);
  take_loop (S (size (md_pages m))) m head 0 target.

(** ** Abstract view: a bag of blocks per list *)

Definition page_ok (p : page_list) : Prop :=
  0 <= entry_num p <= PAGE_LIST_ENTRY_CAPACITY /\ zlen (pl_entries p) = PAGE_LIST_ENTRY_CAPACITY.

(** The blocks a page holds: the first [entry_num] entries. *)
Definition live (p : page_list) : list Z := take (Z.to_nat (entry_num p)) (pl_entries p).

(** A chain is given by its pages with their addresses, head first. *)
Definition blocks_of (l : list (Z * page_list)) : list Z := concat (live <$> l.*2).

(** [l] is laid out in memory from address [p], the last link being [r]. *)
Fixpoint seg (pages : gmap Z page_list) (p : Z) (l : list (Z * page_list)) (r : Z) : Prop :=
  match l with
  | [] => p = r
  | (q, pg) :: l' => p = q /\ q <> 0 /\ pages !! q = Some pg /\ seg pages (next_page pg) l' r
  end.

(** A list of the allocator: the zone it belongs to and its index in
    [free_area]. *)
Abbreviation tag := (zone_type * Z)%type.

(** A complete chain of well-formed pages, all owned by [tg] ([None] is the
    pool's own list of released pages). *)
Record owned_chain (m : meta) (own : gmap Z (option tag)) (tg : option tag) (h : Z)
    (l : list (Z * page_list)) : Prop := {
  oc_seg : seg (md_pages m) h l 0;
  oc_nodup : NoDup l.*1;
  oc_own : Forall (fun e => own !! e.1 = Some tg /\ page_ok e.2) l;
}.

(** The metadata memory holds the chains [ls] of the lists with heads [hd],
    and the released pages [lf]; ownership keeps the chains disjoint, and the
    unused part of the pool is owned by nobody. *)
Record reps (m : meta) (hd : tag -> option Z) (own : gmap Z (option tag))
    (ls : tag -> list (Z * page_list)) (lf : list (Z * page_list)) : Prop := {
  rp_chain : forall t h, hd t = Some h -> owned_chain m own (Some t) h (ls t) /\ ls t <> [];
  rp_free : owned_chain m own None (metadata_free_list m) lf;
  rp_own : forall q tg, own !! q = Some tg ->
    0 < q < metadata_pool_phys m + metadata_pool_used m * PAGE_SIZE;
  rp_pool : 0 < metadata_pool_phys m /\ 0 <= metadata_pool_used m <= metadata_pool_pages m /\
    metadata_pool_phys m + metadata_pool_pages m * PAGE_SIZE < two64;
  rp_lock : metadata_lock m = false;
}.

(** Metadata pages that can still be handed out. *)
Definition avail (m : meta) (lf : list (Z * page_list)) : Z :=
  zlen lf + (metadata_pool_pages m - metadata_pool_used m).

(** All lists of the allocator, and sums over them. *)
Definition all_tags : list tag :=
  [ZONE_DMA; ZONE_DMA32; ZONE_NORMAL] ≫= fun ty => (ty,.) <$> seqZ 0 ORDER_COUNT.
Definition sum_tags (f : tag -> Z) : Z := foldr (fun t acc => f t + acc) 0 all_tags.

(** The pages a list holds. *)
Definition held (hd : tag -> option Z) (ls : tag -> list (Z * page_list)) (t : tag) : Z :=
  match hd t with Some _ => zlen (ls t) | None => 0 end.

(** The interface to the allocator: list [t] with head [hd t] holds the
    blocks [B t], in some order. Every list keeps to its share [C t] of the
    pool, and the pool can serve what is left of all shares. *)
Definition bags (m : meta) (hd : tag -> option Z) (B : tag -> list Z) (C : tag -> Z) : Prop :=
  exists own ls lf, reps m hd own ls lf /\ (forall t, is_Some (hd t) -> B t ≡ₚ blocks_of (ls t)) /\
    (forall t, held hd ls t <= C t) /\ sum_tags (fun t => C t - held hd ls t) <= avail m lf.

Definition fupd {A} (f : tag -> A) (t : tag) (a : A) : tag -> A :=
  fun t' => if decide (t' = t) then a else f t'.

Lemma fupd_eq {A} (f : tag -> A) t a : fupd f t a t = a.
Proof. unfold fupd. by rewrite decide_True. Qed.
Lemma fupd_ne {A} (f : tag -> A) t t' a : t' <> t -> fupd f t a t' = f t'.
Proof. intros. unfold fupd. by rewrite decide_False. Qed.

(** Sums *)

Lemma elem_all_tags ty i : 0 <= i < ORDER_COUNT -> (ty, i) ∈ all_tags.
Proof.
  intros Hi. unfold all_tags. apply list_elem_of_bind. exists ty. split; [|destruct ty; set_solver].
  apply list_elem_of_fmap. exists i. split; [done|]. apply elem_of_seqZ. lia.
Qed.

Lemma NoDup_all_tags : NoDup all_tags.
Proof. apply (bool_decide_unpack _). vm_compute. exact I. Qed.

Lemma sum_tags_ext f g : (forall t, f t = g t) -> sum_tags f = sum_tags g.
Proof. intros E. unfold sum_tags. induction all_tags as [|t l IH]; simpl; [done|]. by rewrite E, IH. Qed.

Lemma sum_tags_le f g : (forall t, f t <= g t) -> sum_tags f <= sum_tags g.
Proof. intros E. unfold sum_tags. induction all_tags as [|t l IH]; simpl; [done|]. specialize (E t). lia. Qed.

Lemma foldr_upd (f g : tag -> Z) t l :
  NoDup l -> (forall t', t' <> t -> g t' = f t') ->
  foldr (fun t acc => g t + acc) 0 l =
  foldr (fun t acc => f t + acc) 0 l + (if decide (t ∈ l) then g t - f t else 0).
Proof.
  intros Hn E. induction l as [|t' l IH]; cbn [foldr]; [by rewrite decide_False by apply not_elem_of_nil|].
  apply NoDup_cons in Hn as [Hni Hn]. specialize (IH Hn). destruct (decide (t' = t)) as [->|Hne].
  - rewrite decide_False in IH by done. rewrite decide_True by by left. lia.
  - rewrite E by done. destruct (decide (t ∈ l)) as [Hin|Hnin].
    + rewrite decide_True by by right. lia.
    + rewrite decide_False; [lia|]. intros [?|?]%elem_of_cons; congruence.
Qed.

(** Changing one summand. *)
Lemma sum_tags_upd f g t :
  t ∈ all_tags -> (forall t', t' <> t -> g t' = f t') -> sum_tags g = sum_tags f + (g t - f t).
Proof.
  intros Ht E. unfold sum_tags. rewrite (foldr_upd f g t all_tags NoDup_all_tags E). by rewrite decide_True.
Qed.

Lemma sum_tags_ge f t : t ∈ all_tags -> (forall t, 0 <= f t) -> f t <= sum_tags f.
Proof.
  intros Ht Hf. rewrite (sum_tags_upd (fun t' => if decide (t' = t) then 0 else f t') f t Ht).
  - rewrite decide_True by done. assert (sum_tags (fun _ => 0) <= sum_tags (fun t' => if decide (t' = t) then 0 else f t')) as H.
    { apply sum_tags_le. intros t'. case_decide; [done|apply Hf]. }
    assert (sum_tags (fun _ => 0) = 0) by done. lia.
  - intros t' Hne. by rewrite decide_False.
Qed.

(** An operation on list [t] that trades pages with the pool. *)
Lemma room_step m m' hd hd' ls ls' lf lf' C t :
  t ∈ all_tags -> is_Some (hd t) -> (forall t', is_Some (hd' t') <-> is_Some (hd t')) ->
  (forall t', t' <> t -> zlen (ls' t') = zlen (ls t')) ->
  avail m' lf' + zlen (ls' t) = avail m lf + zlen (ls t) -> zlen (ls' t) <= C t ->
  (forall t, held hd ls t <= C t) -> sum_tags (fun t => C t - held hd ls t) <= avail m lf ->
  (forall t, held hd' ls' t <= C t) /\ sum_tags (fun t => C t - held hd' ls' t) <= avail m' lf'.
Proof.
  intros Ht Hs Hiff Ho Ha Hc Hh Hsum.
  assert (forall t', t' <> t -> held hd' ls' t' = held hd ls t') as Hoth.
  { intros t' Hne. unfold held. specialize (Hiff t'). destruct (hd' t'), (hd t'); auto;
      exfalso; destruct Hiff as [H1 H2]; [destruct H1|destruct H2]; eauto; done. }
  assert (held hd' ls' t = zlen (ls' t)) as E'.
  { unfold held. apply Hiff in Hs as [h ->]. done. }
  assert (held hd ls t = zlen (ls t)) as E by (unfold held; by destruct Hs as [h ->]).
  split.
  - intros t'. destruct (decide (t' = t)) as [->|]; [lia|]. rewrite Hoth by done. apply Hh.
  - rewrite (sum_tags_upd (fun t => C t - held hd ls t) (fun t => C t - held hd' ls' t) t Ht); [lia|].
    intros t' Hne. by rewrite Hoth.
Qed.

(** A list below its share can get a page. *)
Lemma room_avail m hd ls lf C t :
  t ∈ all_tags -> is_Some (hd t) -> zlen (ls t) < C t ->
  (forall t, held hd ls t <= C t) -> sum_tags (fun t => C t - held hd ls t) <= avail m lf -> 1 <= avail m lf.
Proof.
  intros Ht [h Hs] Hlt Hh Hsum.
  assert (held hd ls t = zlen (ls t)) as E by (unfold held; by rewrite Hs).
  assert (C t - held hd ls t <= sum_tags (fun t => C t - held hd ls t)); [|lia].
  apply (sum_tags_ge (fun t => C t - held hd ls t) t Ht). intros t'. specialize (Hh t'). lia.
Qed.

(** An operation that can only give pages back. *)
Lemma room_shrink m m' hd ls ls' lf lf' C t h :
  t ∈ all_tags -> hd t = Some h ->
  (forall t, held hd ls t <= C t) -> sum_tags (fun t => C t - held hd ls t) <= avail m lf ->
  avail m' lf' + zlen (ls' t) = avail m lf + zlen (ls t) -> zlen (ls' t) <= zlen (ls t) ->
  (forall t', t' <> t -> ls' t' = ls t') ->
  (forall t, held hd ls' t <= C t) /\ sum_tags (fun t => C t - held hd ls' t) <= avail m' lf'.
Proof.
  intros Htag Ht Hh Ha Ha' Hl' Ho'. apply (room_step m m' hd hd ls ls' lf lf' C t); eauto.
  - intros t' Hne. by rewrite Ho'.
  - specialize (Hh t). unfold held in Hh. rewrite Ht in Hh. lia.
Qed.

(** ** Segments *)

Lemma seg_app pages p l1 l2 r :
  seg pages p (l1 ++ l2) r <-> exists q, seg pages p l1 q /\ seg pages q l2 r.
Proof.
  revert p. induction l1 as [|[q pg] l1 IH]; intros p; simpl.
  - split; [eauto|]. by intros (q & -> & ?).
  - rewrite IH. naive_solver.
Qed.

Lemma seg_frame pages pages' p l r :
  (forall q, q ∈ l.*1 -> pages' !! q = pages !! q) -> seg pages p l r -> seg pages' p l r.
Proof.
  revert p. induction l as [|[q pg] l IH]; intros p Hf; simpl; [done|].
  intros (-> & ? & Hq & Hs). split_and!; try done.
  - rewrite Hf; [done|]. simpl. set_solver.
  - apply IH; [|done]. intros q' ?. apply Hf. simpl. set_solver.
Qed.

Lemma seg_dom pages p l r q : seg pages p l r -> q ∈ l.*1 -> is_Some (pages !! q).
Proof.
  revert p. induction l as [|[q' pg] l IH]; intros p; simpl; [set_solver|].
  intros (-> & ? & Hq & Hs) [->|?]%elem_of_cons; eauto.
Qed.

(** A chain has no more pages than the memory, so the walks have fuel. *)
Lemma seg_length pages p l r : seg pages p l r -> NoDup l.*1 -> (length l <= size pages)%nat.
Proof.
  intros Hs Hn. rewrite <- (length_fmap fst l), <- (size_list_to_set (C := gset Z)) by done.
  rewrite <- size_dom. apply subseteq_size. intros q.
  rewrite elem_of_list_to_set, elem_of_dom. by apply seg_dom with p r.
Qed.

(** ** Pages *)

Lemma page_ok_zero : page_ok zero_page.
Proof. split; [by vm_compute|reflexivity]. Qed.

Lemma page_ok_next p n : page_ok p -> page_ok (pl_with_next p n).
Proof. done. Qed.

#[export] Hint Resolve page_ok_zero page_ok_next : kern.

Lemma blocks_of_app l1 l2 : blocks_of (l1 ++ l2) = blocks_of l1 ++ blocks_of l2.
Proof. unfold blocks_of. by rewrite !fmap_app, concat_app. Qed.

Lemma blocks_of_cons q p l : blocks_of ((q, p) :: l) = live p ++ blocks_of l.
Proof. done. Qed.

Lemma live_empty p : entry_num p = 0 -> live p = [].
Proof. unfold live. intros ->. done. Qed.

Lemma take_insert_snoc (l : list Z) n x :
  (n < length l)%nat -> take (S n) (<[n := x]> l) = take n l ++ [x].
Proof.
  intros Hn. rewrite (take_S_r _ _ x) by by apply list_lookup_insert_eq.
  by rewrite take_insert_ge by lia.
Qed.

Lemma live_push p b es :
  page_ok p -> zset (pl_entries p) (entry_num p) b = Some es ->
  live (mkPageList (entry_num p + 1) (next_page p) es) = live p ++ [b].
Proof.
  intros [? Hl] [? ->]%zset_Some. unfold live, zlen in *; simpl.
  replace (Z.to_nat (entry_num p + 1)) with (S (Z.to_nat (entry_num p))) by lia.
  apply take_insert_snoc. lia.
Qed.

Lemma live_pop p n b es x :
  page_ok p -> zget (pl_entries p) (entry_num p - 1) = Some b ->
  zset (pl_entries p) (entry_num p - 1) x = Some es ->
  live p = live (mkPageList (entry_num p - 1) n es) ++ [b].
Proof.
  intros [? Hl] Hg [? ->]%zset_Some. unfold live; simpl.
  replace (Z.to_nat (entry_num p)) with (S (Z.to_nat (entry_num p - 1))) by lia.
  rewrite take_insert_ge by lia. apply take_S_r.
  unfold zget in Hg. by destruct (Z.ltb_spec (entry_num p - 1) 0); [lia|].
Qed.

(** Removing an element of an array by moving the last one into its place. *)
Lemma swap_remove (l : list Z) n i x y :
  (i <= n)%nat -> l !! i = Some x -> l !! n = Some y ->
  take (S n) l ≡ₚ x :: take n (<[i := y]> l).
Proof.
  intros Hin Hi Hn. rewrite (take_S_r _ _ _ Hn). destruct (decide (i = n)) as [->|].
  - assert (x = y) as -> by congruence. rewrite take_insert_ge by lia. by rewrite Permutation_app_comm.
  - rewrite take_insert_lt by lia.
    assert (take n l !! i = Some x) as Hx by (rewrite lookup_take_lt; [done|lia]).
    rewrite insert_take_drop by by apply lookup_lt_Some in Hx.
    rewrite <- (take_drop_middle _ _ _ Hx) at 1. solve_Permutation.
Qed.

Lemma find_entry_spec n : forall i es target,
  0 <= i -> i + Z.of_nat n <= zlen es ->
  exists r, find_entry n i es target = Some r /\
    match r with
    | Some j => i <= j < i + Z.of_nat n /\ zget es j = Some target
    | None => forall j, i <= j < i + Z.of_nat n -> zget es j <> Some target
    end.
Proof.
  induction n as [|n IH]; intros i es target Hi Hn; cbn [find_entry].
  { eexists; split; [done|]. intros j ?. lia. }
  destruct (zget_ok es i) as [e He]; [lia|]. rewrite He; cbn [mbind option_bind].
  destruct (Z.eqb_spec e target) as [->|Hne]; cbn [negb].
  { eexists; split; [done|]. split; [lia|done]. }
  destruct (IH (i + 1) es target) as (r & -> & Hr); [lia|lia|]. eexists; split; [done|].
  destruct r as [j|]; [destruct Hr; split; [lia|done]|].
  intros j Hj. destruct (decide (j = i)) as [->|]; [congruence|]. apply Hr. lia.
Qed.

Lemma live_elem p x :
  page_ok p -> x ∈ live p <-> exists j, 0 <= j < entry_num p /\ zget (pl_entries p) j = Some x.
Proof.
  intros [Hn Hl]. unfold live. rewrite list_elem_of_lookup. split.
  - intros (i & Hi). apply lookup_take_Some in Hi as [Hi ?]. exists (Z.of_nat i). split; [lia|].
    unfold zget. rewrite Nat2Z.id. by destruct (Z.ltb_spec (Z.of_nat i) 0); [lia|].
  - intros (j & Hj & Hg). exists (Z.to_nat j). apply lookup_take_Some. split; [|lia].
    unfold zget in Hg. by destruct (Z.ltb_spec j 0); [lia|].
Qed.

Lemma live_take p i n x last es es' :
  page_ok p -> 0 <= i < entry_num p -> zget (pl_entries p) i = Some x ->
  zget (pl_entries p) (entry_num p - 1) = Some last ->
  zset (pl_entries p) i last = Some es -> zset es (entry_num p - 1) 0 = Some es' ->
  live p ≡ₚ x :: live (mkPageList (entry_num p - 1) n es').
Proof.
  intros [? Hl] Hi Hx Hlast [? ->]%zset_Some [? ->]%zset_Some. unfold live; simpl.
  unfold zget in Hx, Hlast.
  destruct (Z.ltb_spec i 0), (Z.ltb_spec (entry_num p - 1) 0); try lia.
  replace (Z.to_nat (entry_num p)) with (S (Z.to_nat (entry_num p - 1))) by lia.
  rewrite take_insert_ge by lia. apply swap_remove; try done. lia.
Qed.

(** ** Updates of the memory that keep the representation *)

Lemma owned_chain_frame m m' own own' tg h l :
  (forall q, q ∈ l.*1 -> md_pages m' !! q = md_pages m !! q) ->
  (forall q, q ∈ l.*1 -> own' !! q = own !! q) ->
  owned_chain m own tg h l -> owned_chain m' own' tg h l.
Proof.
  intros Hp Ho [Hs Hn Hf]. constructor; [by eapply seg_frame|done|].
  rewrite Forall_forall in *. intros e He. rewrite Ho; [by apply Hf|]. by apply list_elem_of_fmap_2.
Qed.

Lemma owned_chain_key m own tg h l q : owned_chain m own tg h l -> q ∈ l.*1 -> own !! q = Some tg.
Proof.
  intros [_ _ Hf] (e & -> & He)%list_elem_of_fmap. rewrite Forall_forall in Hf. by apply Hf.
Qed.

(** Chains owned by someone else do not see a change of the pages of [tg]. *)
Lemma owned_chain_other m m' own own' tg tg' h l :
  tg' <> tg -> owned_chain m own tg' h l ->
  (forall q, own !! q <> Some tg -> md_pages m' !! q = md_pages m !! q /\ own' !! q = own !! q) ->
  owned_chain m' own' tg' h l.
Proof.
  intros Hne Hc Hf. eapply owned_chain_frame; [..|exact Hc]; intros q Hq; apply Hf;
    rewrite (owned_chain_key _ _ _ _ _ _ Hc Hq); congruence.
Qed.

(** Reading a page of a chain. *)
Lemma reps_read m own tg h l1 q p l2 :
  owned_chain m own tg h (l1 ++ (q, p) :: l2) ->
  page_list_read m q = Some p /\ page_ok p /\ q <> 0 /\ own !! q = Some tg.
Proof.
  intros Hc. pose proof Hc as [Hs _ Hf]. apply seg_app in Hs as (q' & _ & (-> & ? & Hq & _)).
  apply Forall_app in Hf as [_ [[? ?] _]%Forall_cons]. simpl in *.
  unfold page_list_read. destruct (Z.eqb_spec q 0); [done|]. done.
Qed.

Lemma nodup_middle {A} (l1 l2 : list (Z * A)) q p :
  NoDup (l1 ++ (q, p) :: l2).*1 -> (q ∉ l1.*1) /\ (q ∉ l2.*1) /\ NoDup (l1 ++ l2).*1.
Proof.
  rewrite !fmap_app, fmap_cons. simpl. rewrite !NoDup_app, NoDup_cons. set_solver.
Qed.

(** Overwriting a page of a chain without changing its link. *)
Lemma owned_chain_write m own tg h l1 q p p' l2 :
  owned_chain m own tg h (l1 ++ (q, p) :: l2) -> page_ok p' -> next_page p' = next_page p ->
  owned_chain (md_with_pages m (<[q := p']> (md_pages m))) own tg h (l1 ++ (q, p') :: l2).
Proof.
  intros [Hs Hn Hf] Hok Hnx. destruct (nodup_middle _ _ _ _ Hn) as (Hq1 & Hq2 & _).
  constructor.
  - apply seg_app in Hs as (q' & Hs1 & (-> & Hq & _ & Hs2)). apply seg_app. exists q. split.
    + eapply seg_frame; [|done]. intros r ?. apply lookup_insert_ne. set_solver.
    + simpl. split_and!; try done; [by rewrite lookup_insert_eq|]. rewrite Hnx.
      eapply seg_frame; [|done]. intros r ?. apply lookup_insert_ne. set_solver.
  - by rewrite fmap_app, fmap_cons in *.
  - apply Forall_app in Hf as [? [[? _] ?]%Forall_cons]. apply Forall_app. split; [done|].
    by apply Forall_cons.
Qed.

Section Updates.
Context (m : meta) (hd : tag -> option Z) (own : gmap Z (option tag))
  (ls : tag -> list (Z * page_list)) (lf : list (Z * page_list)).
Hypothesis (R : reps m hd own ls lf).
Context (t : tag) (h : Z) (Ht : hd t = Some h).

Lemma reps_write l1 q p p' l2 :
  ls t = l1 ++ (q, p) :: l2 -> page_ok p' -> next_page p' = next_page p ->
  exists m', page_list_write m q p' = Some m' /\
    reps m' hd own (fupd ls t (l1 ++ (q, p') :: l2)) lf /\
    metadata_pool_used m' = metadata_pool_used m /\ metadata_pool_pages m' = metadata_pool_pages m /\
    md_pages m' = <[q := p']> (md_pages m).
Proof using R Ht.
  intros El Hok Hnx. destruct R as [Rc Rf Ro Rp Rl]. destruct (Rc t h Ht) as [Hc _]. rewrite El in Hc.
  destruct (reps_read _ _ _ _ _ _ _ _ Hc) as (Hr & _ & Hq & Hown).
  unfold page_list_write. rewrite Hr; simpl. eexists; split; [done|]. split; [|done].
  assert (forall r, own !! r <> Some (Some t) ->
    md_pages (md_with_pages m (<[q := p']> (md_pages m))) !! r = md_pages m !! r /\ own !! r = own !! r) as Hfr.
  { intros r Hr'. split; [|done]. simpl. apply lookup_insert_ne. congruence. }
  constructor; try done.
  - intros t' h' Ht'. unfold fupd. case_decide as E.
    + subst t'. assert (h' = h) as -> by congruence. split; [by eapply owned_chain_write|by destruct l1].
    + destruct (Rc t' h' Ht') as [Hc' ?]. split; [|done].
      eapply owned_chain_other; [|exact Hc'|exact Hfr]. congruence.
  - eapply owned_chain_other; [|exact Rf|exact Hfr]. done.
Qed.

(** Taking page [q] out of a chain, behind page [p0], and releasing it. *)
Lemma reps_unlink l1 p0 pg0 q pg l2 :
  ls t = l1 ++ (p0, pg0) :: (q, pg) :: l2 ->
  exists m' lf', unlink m p0 q (next_page pg) = Some m' /\
    reps m' hd (<[q := None]> own)
      (fupd ls t (l1 ++ (p0, pl_with_next pg0 (next_page pg)) :: l2)) lf' /\
    avail m' lf' = avail m lf + 1.
Proof using R Ht.
  intros El. destruct R as [Rc Rf Ro Rp Rl]. destruct (Rc t h Ht) as [Hc _]. rewrite El in Hc.
  destruct (reps_read _ _ _ _ _ _ _ _ Hc) as (Hr0 & Hok0 & Hp0 & Hown0).
  assert (owned_chain m own (Some t) h ((l1 ++ [(p0, pg0)]) ++ (q, pg) :: l2)) as Hc'
    by by rewrite <- app_assoc.
  destruct (reps_read _ _ _ _ _ _ _ _ Hc') as (Hr & Hok & Hq & Hown).
  pose proof (oc_nodup _ _ _ _ _ Hc') as Hnd.
  destruct (nodup_middle _ _ _ _ Hnd) as (Hq1 & Hq2 & Hnd').
  assert (p0 <> q) as Hpq by (rewrite fmap_app in Hq1; simpl in Hq1; set_solver).
  pose proof (oc_nodup _ _ _ _ _ Hc) as Hnd0.
  destruct (nodup_middle _ _ _ _ Hnd0) as (Hp1 & Hp2 & _). rewrite fmap_cons in Hp2; simpl in Hp2.
  unfold unlink, metadata_page_free, page_list_write. rewrite Hr0; simpl.
  unfold page_list_read in *; simpl.
  destruct (Z.eqb_spec q 0) as [|_]; [done|]. destruct (Z.eqb_spec p0 0) as [|_]; [done|].
  rewrite lookup_insert_ne by done. rewrite Hr; simpl. rewrite Rl; simpl. rewrite lookup_insert_eq; simpl.
  set (pages' := <[q := _]> _). eexists _, ((q, pl_with_next zero_page (metadata_free_list m)) :: lf).
  split; [done|]. split; [|unfold avail, zlen; simpl; lia].
  assert (forall r, r <> q -> r <> p0 -> pages' !! r = md_pages m !! r) as Hpg.
  { intros r ? ?. unfold pages'. by rewrite !lookup_insert_ne by done. }
  assert (pages' !! p0 = Some (pl_with_next pg0 (next_page pg))) as Hpg0.
  { unfold pages'. by rewrite !lookup_insert_ne, lookup_insert_eq by done. }
  assert (forall r, own !! r <> Some (Some t) -> pages' !! r = md_pages m !! r /\ <[q := None]> own !! r = own !! r) as Hfr.
  { intros r Hr'. split; [apply Hpg; congruence|]. apply lookup_insert_ne. congruence. }
  constructor; try done; simpl.
  - intros t' h' Ht'. unfold fupd. case_decide as E.
    + subst t'. assert (h' = h) as -> by congruence. split; [|by destruct l1].
      destruct Hc as [Hs _ Hf]. apply seg_app in Hs as (r & Hs1 & (-> & _ & _ & (E & _ & _ & Hs2))).
      apply Forall_app in Hf as [Hf1 [[??] [_ Hf2]%Forall_cons]%Forall_cons]. simpl in *.
      constructor.
      * apply seg_app. exists p0. split.
        -- eapply seg_frame; [|done]. intros r Hrin. apply Hpg; [|set_solver].
           intros ->. apply Hq1. rewrite fmap_app. set_solver.
        -- simpl. split_and!; try done. eapply seg_frame; [|done]. intros r Hrin. apply Hpg; set_solver.
      * rewrite !fmap_app, !fmap_cons in *. simpl in *. by rewrite <- app_assoc in Hnd'.
      * assert (forall l, q ∉ l.*1 -> Forall (fun e : Z * page_list => own !! e.1 = Some (Some t) /\ page_ok e.2) l ->
          Forall (fun e => <[q := None]> own !! e.1 = Some (Some t) /\ page_ok e.2) l) as Hmono.
        { intros l Hl HF. rewrite Forall_forall in *. intros e He. rewrite lookup_insert_ne; [by apply HF|].
          intros ->. apply Hl. by apply list_elem_of_fmap_2. }
        apply Forall_app. split; [apply Hmono; [|done]; rewrite fmap_app in Hq1; set_solver|].
        apply Forall_cons. split; [|by apply Hmono]. simpl. by rewrite lookup_insert_ne by done.
    + destruct (Rc t' h' Ht') as [Hcc ?]. split; [|done].
      eapply owned_chain_other; [|exact Hcc|exact Hfr]. congruence.
  - assert (q ∉ lf.*1) as Hqf.
    { intros Hin. pose proof (owned_chain_key _ _ _ _ _ _ Rf Hin). congruence. }
    assert (owned_chain (md_with_pages m pages') (<[q := None]> own) None (metadata_free_list m) lf) as [Hs Hn Hf].
    { eapply owned_chain_other; [|exact Rf|exact Hfr]. done. }
    constructor; simpl; [|by constructor|].
    + split_and!; try done. unfold pages'. by rewrite lookup_insert_eq.
    + apply Forall_cons. split; [|done]. simpl. rewrite lookup_insert_eq. auto with kern.
  - intros r tg. destruct (decide (r = q)) as [->|]; [|rewrite lookup_insert_ne by done; by apply Ro].
    intros _. by eapply Ro.
Qed.

End Updates.

(** ** The metadata pool *)

(** Memory and ownership may change at pages nobody owns in the result. *)
Lemma reps_frame m m' hd own own' ls lf0 lf :
  reps m hd own ls lf0 ->
  (forall q tg, own' !! q = Some tg -> own !! q = Some tg) ->
  (forall t h q, hd t = Some h -> q ∈ (ls t).*1 -> md_pages m' !! q = md_pages m !! q /\ own' !! q = own !! q) ->
  owned_chain m' own' None (metadata_free_list m') lf ->
  metadata_pool_phys m' = metadata_pool_phys m -> metadata_pool_pages m' = metadata_pool_pages m ->
  metadata_pool_used m <= metadata_pool_used m' <= metadata_pool_pages m -> metadata_lock m' = false ->
  reps m' hd own' ls lf.
Proof.
  intros [Rc Rf Ro Rp Rl] Hsub Hch Hfree E1 E2 Hu Hl. constructor; try done.
  - intros t h Ht. destruct (Rc t h Ht) as [Hc ?]. split; [|done].
    eapply owned_chain_frame; [..|exact Hc]; intros q Hq; by eapply Hch.
  - intros q tg Hq. apply Hsub, Ro in Hq. rewrite E1. unfold PAGE_SIZE in *. lia.
  - rewrite E1, E2. unfold PAGE_SIZE in *. lia.
Qed.

Lemma alloc_spec m hd own ls lf :
  reps m hd own ls lf -> 0 < avail m lf ->
  exists q m' own' lf', metadata_page_alloc m = Some (q, m') /\ reps m' hd own' ls lf' /\
    own' !! q = None /\ 0 < q < metadata_pool_phys m' + metadata_pool_used m' * PAGE_SIZE /\
    md_pages m' !! q = Some zero_page /\ avail m' lf' = avail m lf - 1.
Proof.
  intros R Hav. pose proof R as [Rc Rf Ro Rp Rl]. unfold metadata_page_alloc. rewrite Rl; simpl.
  destruct lf as [|[q p] lf]; unfold avail, zlen in *; simpl in *.
  - assert (metadata_free_list m = 0) as E0 by apply (oc_seg _ _ _ _ _ Rf). rewrite E0; simpl.
    destruct (Z.ltb_spec (metadata_pool_used m) (metadata_pool_pages m)); [|lia]. simpl.
    unfold PAGE_SIZE in *. rewrite !u64_id by lia.
    set (q := metadata_pool_phys m + metadata_pool_used m * 4096).
    destruct (Z.eqb_spec q 0); [unfold q in *; lia|].
    assert (own !! q = None) as Hq.
    { destruct (own !! q) eqn:Hq; [|done]. apply Ro in Hq. unfold q in *. lia. }
    eexists q, _, own, []. split; [done|]. split_and!; try done; simpl;
      [|unfold q; lia|unfold q; lia|by rewrite lookup_insert_eq|unfold avail, zlen; simpl; lia].
    eapply reps_frame; try done; simpl; [|by repeat constructor|lia].
    intros t h r Ht Hr. split; [|done]. apply lookup_insert_ne. intros <-.
    destruct (Rc t h Ht) as [Hc _]. pose proof (owned_chain_key _ _ _ _ _ _ Hc Hr). congruence.
  - destruct (reps_read _ _ _ _ [] _ _ _ Rf) as (Hr & Hok & Hq & Hown).
    destruct Rf as [(E0 & _ & Hp & Hs) Hn Hf]. rewrite E0.
    replace (q =? 0) with false by lia. simpl. rewrite Hr; simpl. replace (q =? 0) with false by lia.
    apply NoDup_cons in Hn as [Hq1 Hn]. apply Forall_cons in Hf as [_ Hf]. simpl in *.
    eexists q, _, (delete q own), lf. split; [done|]. split_and!; try done; simpl.
    + eapply reps_frame; try done; simpl.
      * intros r tg Hr'. by apply lookup_delete_Some in Hr' as [? ?].
      * intros t h r Ht Hr'. destruct (Rc t h Ht) as [Hc _].
        pose proof (owned_chain_key _ _ _ _ _ _ Hc Hr') as Ho.
        rewrite lookup_insert_ne, lookup_delete_ne by congruence. done.
      * constructor; simpl; [|done|].
        -- eapply seg_frame; [|done]. intros r ?. apply lookup_insert_ne. set_solver.
        -- rewrite Forall_forall in *. intros e He. rewrite lookup_delete_ne; [by apply Hf|].
           intros ->. apply Hq1. by apply list_elem_of_fmap_2.
      * lia.
    + apply lookup_delete_eq.
    + by eapply Ro.
    + by eapply Ro.
    + by rewrite lookup_insert_eq.
    + unfold avail, zlen; simpl. lia.
Qed.

(** Putting a page nobody owns in front of a chain. *)
Lemma attach_spec m hd own ls lf t h q p0 p :
  reps m hd own ls lf -> hd t = Some h -> own !! q = None ->
  0 < q < metadata_pool_phys m + metadata_pool_used m * PAGE_SIZE ->
  md_pages m !! q = Some p0 -> page_ok p -> next_page p = h ->
  exists m', page_list_write m q p = Some m' /\
    reps m' (fupd hd t (Some q)) (<[q := Some t]> own) (fupd ls t ((q, p) :: ls t)) lf /\
    avail m' lf = avail m lf.
Proof.
  intros [Rc Rf Ro Rp Rl] Ht Hq Hlim Hp0 Hok Hnx. unfold page_list_write, page_list_read.
  destruct (Z.eqb_spec q 0); [lia|]. rewrite Hp0; simpl. eexists; split; [done|]. split; [|done].
  assert (forall tg h' l, owned_chain m own tg h' l ->
    owned_chain (md_with_pages m (<[q := p]> (md_pages m))) (<[q := Some t]> own) tg h' l) as Hfr.
  { intros tg h' l Hc. eapply owned_chain_frame; [..|exact Hc]; intros r Hr; apply lookup_insert_ne;
      pose proof (owned_chain_key _ _ _ _ _ _ Hc Hr); congruence. }
  constructor; try done.
  - intros t' h'. unfold fupd. case_decide as E.
    + subst t'. intros [= <-]. split; [|done]. destruct (Rc t h Ht) as [Hc _].
      assert (q ∉ (ls t).*1) as Hqn.
      { intros Hin. pose proof (owned_chain_key _ _ _ _ _ _ Hc Hin). congruence. }
      destruct (Hfr _ _ _ Hc) as [Hs Hn Hf]. constructor; [|by constructor|].
      * simpl. split_and!; try done; [by rewrite lookup_insert_eq|]. by rewrite Hnx.
      * apply Forall_cons. split; [|done]. simpl. by rewrite lookup_insert_eq.
    + intros Ht'. destruct (Rc t' h' Ht') as [Hc ?]. split; [|done]. by apply Hfr.
  - by apply Hfr.
  - intros r tg. destruct (decide (r = q)) as [->|]; [done|]. rewrite lookup_insert_ne by done. apply Ro.
Qed.

(** ** The list operations on bags *)

(** The heads after zone [ty] got the array [fa]; the other zones keep theirs. *)
Definition zone_heads (hd : tag -> option Z) (ty : zone_type) (fa : list Z) : tag -> option Z :=
  fun t => if decide (t.1 = ty) then zget fa t.2 else hd t.

(** The heads of zone [z] are the entries of its array. *)
Definition heads_ok (hd : tag -> option Z) (z : zone_t) : Prop :=
  zlen (free_area z) = ORDER_COUNT /\ forall i, hd (zn_type z, i) = zget (free_area z) i.

Lemma bags_ext m hd hd' B B' C C' :
  (forall t, hd' t = hd t) -> (forall t, is_Some (hd t) -> B' t ≡ₚ B t) -> (forall t, C' t = C t) ->
  bags m hd B C -> bags m hd' B' C'.
Proof.
  intros Eh EB EC (own & ls & lf & [Rc Rf Ro Rp Rl] & HB & Hh & Ha).
  assert (forall t, held hd' ls t = held hd ls t) as Ehd by (intros t; unfold held; by rewrite Eh).
  exists own, ls, lf. split_and!.
  - constructor; try done. intros t h. rewrite Eh. apply Rc.
  - intros t. rewrite Eh. intros Hs. by rewrite EB, HB.
  - intros t. rewrite Ehd, EC. apply Hh.
  - erewrite sum_tags_ext; [exact Ha|]. intros t. simpl. by rewrite Ehd, EC.
Qed.

Lemma heads_ok_head hd z order :
  heads_ok hd z -> MIN_ORDER <= order < MAX_ORDER ->
  exists h, zget (free_area z) (order_to_index order) = Some h /\ hd (zn_type z, order_to_index order) = Some h.
Proof.
  intros [Hl Hh] Ho. destruct (zget_ok (free_area z) (order_to_index order)) as [h Hg].
  { rewrite Hl. unfold order_to_index, ORDER_COUNT. lia. }
  exists h. split; [done|]. by rewrite Hh.
Qed.

Lemma oc_pages_ok m own tg h l : owned_chain m own tg h l -> Forall (fun e => page_ok e.2) l.
Proof. intros [_ _ Hf]. eapply Forall_impl; [exact Hf|]. by intros e [_ ?]. Qed.

Lemma push_seek_spec m l : forall p prev fuel,
  seg (md_pages m) p l 0 -> Forall (fun e => page_ok e.2) l -> (length l < fuel)%nat ->
  exists r, push_seek fuel m p prev = Some (m, r) /\
    (r = 0 /\ zlen (blocks_of l) = PAGE_LIST_ENTRY_CAPACITY * zlen l \/
     exists la pg lb, l = la ++ (r, pg) :: lb /\ entry_num pg < PAGE_LIST_ENTRY_CAPACITY).
Proof.
  induction l as [|[q pg] l IH]; intros p prev [|fuel] Hs Hf Hlen; simpl in *; try lia.
  { subst p. exists 0. by split; [|left]. }
  destruct Hs as (-> & Hq & Hp & Hs). apply Forall_cons in Hf as [[Hn Hlen'] Hf]. simpl in Hn, Hlen'.
  replace (q =? 0) with false by lia. unfold page_list_read. replace (q =? 0) with false by lia.
  rewrite Hp; simpl. case_if.
  { exists q. split; [done|]. right. exists [], pg, l. split; [done|lia]. }
  replace (entry_num pg =? 0) with false by (rewrite capacity_510 in *; lia).
  rewrite andb_false_r. destruct (IH (next_page pg) q fuel) as (r & -> & Hr); try done; [lia|].
  exists r. split; [done|]. destruct Hr as [[-> Hfull]|(la & pg' & lb & -> & ?)]; [left|right].
  - split; [done|]. rewrite blocks_of_cons. unfold live, zlen in *. rewrite length_app, length_take.
    simpl length. rewrite capacity_510 in *. lia.
  - by exists ((q, pg) :: la), pg', lb.
Qed.

(** Storing one more block in a page with room. *)
Lemma store_spec m hd own ls lf t h l1 q p l2 b :
  reps m hd own ls lf -> hd t = Some h -> ls t = l1 ++ (q, p) :: l2 ->
  entry_num p < PAGE_LIST_ENTRY_CAPACITY ->
  exists es m' ls', page_list_read m q = Some p /\ zset (pl_entries p) (entry_num p) b = Some es /\
    page_list_write m q (mkPageList (entry_num p + 1) (next_page p) es) = Some m' /\
    reps m' hd own ls' lf /\ avail m' lf = avail m lf /\
    blocks_of (ls' t) ≡ₚ b :: blocks_of (ls t) /\ (forall t', t' <> t -> ls' t' = ls t') /\
    zlen (ls' t) = zlen (ls t).
Proof.
  intros R Ht El Hn. destruct (rp_chain _ _ _ _ _ R t h Ht) as [Hc _]. rewrite El in Hc.
  destruct (reps_read _ _ _ _ _ _ _ _ Hc) as (Hr & Hok & _). pose proof Hok as [Hn0 Hl].
  assert (0 <= entry_num p < zlen (pl_entries p)) as Hi by lia.
  pose proof (zset_ok _ _ b Hi) as Es. pose proof (zset_len _ _ _ _ Es) as El'.
  set (p' := mkPageList (entry_num p + 1) (next_page p) (<[Z.to_nat (entry_num p) := b]> (pl_entries p))).
  destruct (reps_write m hd own ls lf R t h Ht l1 q p p' l2) as (m' & Ew & R' & Eu & Ep & _); try done.
  { split; unfold p'; simpl; [lia|by rewrite El']. }
  exists (<[Z.to_nat (entry_num p) := b]> (pl_entries p)), m', (fupd ls t (l1 ++ (q, p') :: l2)).
  split_and!; try done.
  - unfold avail. by rewrite Eu, Ep.
  - rewrite fupd_eq, El, !blocks_of_app, !blocks_of_cons. unfold p'. rewrite (live_push p b _ Hok Es).
    solve_Permutation.
  - intros t' Hne. by apply fupd_ne.
  - rewrite fupd_eq, El. unfold zlen. by rewrite !length_app.
Qed.

(** Replacing one entry of a zone's array. *)
Lemma zone_heads_set hd z i h fa :
  heads_ok hd z -> zset (free_area z) i h = Some fa ->
  forall t, zone_heads hd (zn_type z) fa t = fupd hd (zn_type z, i) (Some h) t.
Proof.
  intros [_ Hzh] Es [ty j]. unfold zone_heads, fupd; simpl. destruct (decide (ty = zn_type z)) as [->|].
  - rewrite (zset_get _ _ _ _ _ Es). destruct (decide (i = j)) as [->|]; [by rewrite decide_True|].
    rewrite decide_False by congruence. by rewrite Hzh.
  - by rewrite decide_False by congruence.
Qed.

Lemma zone_heads_same hd z : heads_ok hd z -> forall t, zone_heads hd (zn_type z) (free_area z) t = hd t.
Proof. intros [_ Hzh] [ty j]. unfold zone_heads; simpl. case_decide as E; [|done]. by subst ty. Qed.

Lemma reps_heads m hd hd' own ls lf :
  (forall t, hd' t = hd t) -> reps m hd own ls lf -> reps m hd' own ls lf.
Proof. intros E [Rc ????]. constructor; try done. intros t h. rewrite E. apply Rc. Qed.

Lemma zone_heads_Some hd z fa t :
  heads_ok hd z -> zlen fa = ORDER_COUNT -> is_Some (zone_heads hd (zn_type z) fa t) -> is_Some (hd t).
Proof.
  intros [Hzl Hzh] Hl. unfold zone_heads. case_decide as E; [|done]. destruct t as [ty i]; simpl in *; subst ty.
  intros [? Hs]. apply zget_range in Hs. rewrite Hzh. apply zget_ok. lia.
Qed.

Lemma push_room_spec m hd own ls lf z order h r :
  reps m hd own ls lf -> heads_ok hd z -> (r = 0 -> 1 <= avail m lf) ->
  zget (free_area z) (order_to_index order) = Some h ->
  let t := (zn_type z, order_to_index order) in
  (r = 0 \/ exists la pg lb, ls t = la ++ (r, pg) :: lb /\ entry_num pg < PAGE_LIST_ENTRY_CAPACITY) ->
  exists m1 fa1 own1 ls1 lf1 q p l1 l2,
    push_room m z (order_to_index order) h r = Some (m1, zn_with_area z fa1, q) /\
    zlen fa1 = ORDER_COUNT /\ reps m1 (zone_heads hd (zn_type z) fa1) own1 ls1 lf1 /\
    avail m1 lf1 + zlen (ls1 t) = avail m lf + zlen (ls t) /\
    zlen (ls1 t) <= zlen (ls t) + (if r =? 0 then 1 else 0) /\ (forall t', t' <> t -> ls1 t' = ls t') /\
    ls1 t = l1 ++ (q, p) :: l2 /\ entry_num p < PAGE_LIST_ENTRY_CAPACITY /\
    forall t', blocks_of (ls1 t') = blocks_of (ls t').
Proof.
  intros R Hz Ha Hg t Hr. pose proof Hz as [Hzl Hzh]. unfold push_room. destruct (Z.eqb_spec r 0) as [->|Hr0].
  - destruct (alloc_spec m hd own ls lf R) as (q & m1 & own1 & lf1 & -> & R1 & Hq & Hlim & Hpg & Ea); [specialize (Ha eq_refl); lia|].
    cbn [mbind option_bind]. unfold page_list_read at 1. replace (q =? 0) with false by lia. rewrite Hpg.
    cbn [mbind option_bind]. assert (hd t = Some h) as Ht by (unfold t; by rewrite Hzh).
    set (p0 := mkPageList 0 h (pl_entries zero_page)) in *.
    destruct (attach_spec m1 hd own1 ls lf1 t h q zero_page p0) as (m2 & -> & R2 & Ea2); try done.
    cbn [mbind option_bind]. pose proof (zset_ok _ _ q (zget_range _ _ _ Hg)) as Es. rewrite Es.
    cbn [mbind option_bind].
    eexists m2, _, (<[q := Some t]> own1), (fupd ls t ((q, p0) :: ls t)), lf1, q, p0, [], (ls t).
    assert (zlen ((q, p0) :: ls t) = zlen (ls t) + 1) as Elen by (unfold zlen; simpl; lia).
    split_and!; try done; [by rewrite (zset_len _ _ _ _ Es)| |rewrite fupd_eq; lia|rewrite fupd_eq; simpl; lia| |by rewrite fupd_eq|].
    + eapply reps_heads; [|exact R2]. by apply zone_heads_set.
    + intros t' ?. by apply fupd_ne.
    + intros t'. unfold fupd. case_decide as E; [subst t'|done]. rewrite blocks_of_cons. done.
  - destruct Hr as [|(la & pg & lb & El & Hroom)]; [done|].
    exists m, (free_area z), own, ls, lf, r, pg, la, lb. split_and!; try done; [by destruct z| |replace (r =? 0) with false by lia; lia].
    eapply reps_heads; [|exact R]. by apply zone_heads_same.
Qed.

Lemma zone_heads_iff hd z fa t :
  heads_ok hd z -> zlen fa = ORDER_COUNT -> is_Some (zone_heads hd (zn_type z) fa t) <-> is_Some (hd t).
Proof.
  intros Hz Hl. split; [by apply zone_heads_Some|]. destruct Hz as [Hzl Hzh]. unfold zone_heads.
  case_decide as E; [|done]. destruct t as [ty i]; simpl in *; subst ty. rewrite Hzh.
  intros [? Hs]. apply zget_range in Hs. apply zget_ok. lia.
Qed.

Lemma order_index order : MIN_ORDER <= order < MAX_ORDER -> 0 <= order_to_index order < ORDER_COUNT.
Proof. unfold order_to_index, ORDER_COUNT. lia. Qed.

(** Pushing a block needs a page only when the chain is full, and then the
    list is below its share. *)
Lemma push_spec m hd B C z order b :
  let t := (zn_type z, order_to_index order) in
  bags m hd B C -> heads_ok hd z -> MIN_ORDER <= order < MAX_ORDER ->
  zlen (B t) < PAGE_LIST_ENTRY_CAPACITY * C t ->
  exists m' fa', page_list_push m z order b = Some (m', zn_with_area z fa') /\ zlen fa' = ORDER_COUNT /\
    bags m' (zone_heads hd (zn_type z) fa') (fupd B t (b :: B t)) C.
Proof.
  intros t (own & ls & lf & R & HB & Hh & Ha) Hz Ho Hroom.
  assert (t ∈ all_tags) as Htag by by apply elem_all_tags, order_index.
  destruct (heads_ok_head hd z order Hz Ho) as (h & Hg & Ht). fold t in Ht.
  unfold page_list_push. rewrite Hg; cbn [mbind option_bind].
  destruct (rp_chain _ _ _ _ _ R t h Ht) as [Hc _].
  destruct (push_seek_spec m (ls t) h 0 (S (size (md_pages m)))) as (r & -> & Hr).
  { apply Hc. } { by eapply oc_pages_ok. }
  { apply le_n_S. eapply seg_length; apply Hc. }
  cbn [mbind option_bind]. assert (B t ≡ₚ blocks_of (ls t)) as HBt by (apply HB; eauto).
  assert (zlen (ls t) <= C t) as HCt by (specialize (Hh t); unfold held in Hh; by rewrite Ht in Hh).
  assert (r = 0 -> zlen (ls t) < C t) as Hbelow.
  { intros ->. destruct Hr as [[_ Hfull]|(la & pg & lb & El & _)].
    - unfold zlen in Hroom at 1. rewrite HBt in Hroom. fold (zlen (blocks_of (ls t))) in Hroom.
      rewrite capacity_510 in *. lia.
    - rewrite El in Hc. by destruct (reps_read _ _ _ _ _ _ _ _ Hc) as (_ & _ & ? & _). }
  destruct (push_room_spec m hd own ls lf z order h r R Hz)
    as (m1 & fa1 & own1 & ls1 & lf1 & q & p & l1 & l2 & -> & Hl1 & R1 & Ha1 & Hle & Ho1 & El & Hrm & Hbl); try done.
  { intros E. eapply (room_avail m hd ls lf C t); eauto. }
  { destruct Hr as [[-> _]|?]; [by left|by right]. }
  fold t in Ha1, Hle, El, Ho1. cbn [mbind option_bind].
  assert (is_Some (zone_heads hd (zn_type z) fa1 t)) as [h1 Ht1] by (apply zone_heads_iff; eauto).
  destruct (store_spec m1 _ own1 ls1 lf1 t h1 l1 q p l2 b R1 Ht1 El Hrm)
    as (es & m2 & ls2 & -> & Es & Ew & R2 & Ea2 & Hb & Hother & Hlen).
  cbn [mbind option_bind]. rewrite Es. cbn [mbind option_bind]. rewrite Ew. cbn [mbind option_bind].
  exists m2, fa1. split_and!; [done|done|]. exists own1, ls2, lf1. split; [done|]. split.
  - intros t' Hs. unfold fupd. case_decide as E.
    + subst t'. by rewrite Hb, Hbl, HB.
    + rewrite Hother, Hbl by done. apply HB. by eapply zone_heads_Some.
  - apply (room_step m m2 hd _ ls ls2 lf lf1 C t); eauto.
    + intros t'. by apply zone_heads_iff.
    + intros t' Hne. by rewrite Hother, Ho1.
    + rewrite Ea2, Hlen. done.
    + rewrite Hlen. destruct (Z.eqb_spec r 0) as [E|]; [specialize (Hbelow E)|]; lia.
Qed.

(** The address of the first page of a chain's remainder. *)
Definition head_key (l : list (Z * page_list)) : Z :=
  match l with [] => 0 | (q, _) :: _ => q end.

(** [prev] is the page before the remainder: the last of [l1], 0 if none. *)
Definition link_prev (l1 : list (Z * page_list)) (prev : Z) : Prop :=
  l1 = [] /\ prev = 0 \/ exists l0 pg0, l1 = l0 ++ [(prev, pg0)] /\ prev <> 0.

Lemma chain_next m own tg h l1 q p l2 :
  owned_chain m own tg h (l1 ++ (q, p) :: l2) -> next_page p = head_key l2.
Proof.
  intros [Hs _ _]. apply seg_app in Hs as (r & _ & (_ & _ & _ & Hs)).
  destruct l2 as [|[q' p'] l2]; simpl in *; [done|]. by destruct Hs.
Qed.

(** What an operation on list [t] leaves behind: the other chains, the pages
    it dropped in the pool, and the blocks [blk] in [t]. *)
Definition evolves (m : meta) (hd : tag -> option Z) (ls : tag -> list (Z * page_list))
    (lf : list (Z * page_list)) (t : tag) (m' : meta) (blk : list Z) : Prop :=
  exists own' ls' lf', reps m' hd own' ls' lf' /\ avail m' lf' + zlen (ls' t) = avail m lf + zlen (ls t) /\
    zlen (ls' t) <= zlen (ls t) /\ (forall t', t' <> t -> ls' t' = ls t') /\ blocks_of (ls' t) ≡ₚ blk.

Section Walk.
Context (hd : tag -> option Z) (t : tag) (h : Z) (Ht : hd t = Some h).

(** Dropping an empty page behind [prev]; the walk continues after it. *)
Lemma drop_page m own ls lf l1 prev q p l2 :
  reps m hd own ls lf -> ls t = l1 ++ (q, p) :: l2 -> link_prev l1 prev -> prev <> 0 -> entry_num p = 0 ->
  exists m' own' ls' lf' l1', unlink m prev q (next_page p) = Some m' /\ reps m' hd own' ls' lf' /\
    ls' t = l1' ++ l2 /\ link_prev l1' prev /\ avail m' lf' = avail m lf + 1 /\
    (forall t', t' <> t -> ls' t' = ls t') /\ blocks_of l1' = blocks_of l1 /\ next_page p = head_key l2 /\
    zlen (ls' t) = zlen (ls t) - 1.
Proof using Ht.
  intros R El [[_ ?]|(l0 & pg0 & -> & Hp)] Hp0 Hn; [done|]. rewrite <- app_assoc in El; simpl in El.
  destruct (reps_unlink m hd own ls lf R t h Ht l0 prev pg0 q p l2 El) as (m' & lf' & Eu & R' & Ea).
  eexists m', _, _, lf', (l0 ++ [(prev, pl_with_next pg0 (next_page p))]). split_and!; try done.
  - by rewrite fupd_eq, <- app_assoc.
  - right. eauto.
  - intros t' ?. by apply fupd_ne.
  - rewrite !blocks_of_app. done.
  - destruct (rp_chain _ _ _ _ _ R t h Ht) as [Hc _]. rewrite El in Hc.
    apply (chain_next m own (Some t) h (l0 ++ [(prev, pg0)]) q). by rewrite <- app_assoc.
  - rewrite fupd_eq, El. unfold zlen. rewrite !length_app. simpl. lia.
Qed.

(** The end of pop and take: store the shortened page, and drop it when it
    became empty and is not the head. *)
Lemma shrink_page m own ls lf l1 prev q p es l2 :
  reps m hd own ls lf -> ls t = l1 ++ (q, p) :: l2 -> link_prev l1 prev -> entry_num p <> 0 ->
  zlen es = PAGE_LIST_ENTRY_CAPACITY ->
  let n := entry_num p - 1 in let p' := mkPageList n (next_page p) es in
  exists m1 m', page_list_write m q p' = Some m1 /\
    (if (n =? 0) && negb (prev =? 0) then unlink m1 prev q (next_page p) else Some m1) = Some m' /\
    evolves m hd ls lf t m' (blocks_of l1 ++ live p' ++ blocks_of l2).
Proof using Ht.
  intros R El Hlp Hn Hes n p'.
  destruct (rp_chain _ _ _ _ _ R t h Ht) as [Hc _]. rewrite El in Hc.
  destruct (reps_read _ _ _ _ _ _ _ _ Hc) as (_ & [Hb Hl] & _).
  destruct (reps_write m hd own ls lf R t h Ht l1 q p p' l2) as (m1 & Ew & R1 & Eu & Ep & _); try done.
  { split; unfold p', n; simpl; [lia|done]. }
  exists m1. assert (avail m1 lf = avail m lf) as Ea by (unfold avail; by rewrite Eu, Ep).
  assert (zlen (l1 ++ (q, p') :: l2) = zlen (ls t)) as Elt by (rewrite El; unfold zlen; by rewrite !length_app).
  destruct ((n =? 0) && negb (prev =? 0)) eqn:E.
  - bools. destruct (drop_page m1 own _ lf l1 prev q p' l2 R1) as (m' & own' & ls' & lf' & l1' & Hu & R' & El' & _ & Ea' & Ho & Eb & _ & Hlen);
      [by rewrite fupd_eq|done|lia|simpl; lia|].
    exists m'. split_and!; [done|done|]. rewrite fupd_eq in Hlen. exists own', ls', lf'. split_and!; [done|lia|lia| |].
    + intros t' ?. rewrite Ho, fupd_ne; done.
    + rewrite El', blocks_of_app, Eb, (live_empty p') by (simpl; lia). done.
  - exists m1. split_and!; try done. eexists own, _, lf. split_and!; [exact R1|rewrite fupd_eq; lia|rewrite fupd_eq; lia| |].
    + intros t' ?. by apply fupd_ne.
    + by rewrite fupd_eq, blocks_of_app, blocks_of_cons.
Qed.

Lemma evolves_trans m ls lf m1 ls1 lf1 m' blk :
  avail m1 lf1 + zlen (ls1 t) = avail m lf + zlen (ls t) -> zlen (ls1 t) <= zlen (ls t) ->
  (forall t', t' <> t -> ls1 t' = ls t') ->
  evolves m1 hd ls1 lf1 t m' blk -> evolves m hd ls lf t m' blk.
Proof.
  intros Ha Hl Ho (own' & ls' & lf' & R & Ha' & Hl' & Ho' & Hb). exists own', ls', lf'. split_and!; try done; [lia|lia|].
  intros t' ?. by rewrite Ho', Ho.
Qed.

(** Moving over page [q] without changing it. *)
Lemma link_prev_snoc l1 q (p : page_list) : q <> 0 -> link_prev (l1 ++ [(q, p)]) q.
Proof. intros. right. eauto. Qed.

Lemma pop_loop_spec l2 : forall m own ls lf l1 prev fuel,
  reps m hd own ls lf -> ls t = l1 ++ l2 -> link_prev l1 prev -> blocks_of l1 = [] ->
  (length l2 < fuel)%nat ->
  exists m' r, pop_loop fuel m (head_key l2) prev = Some (m', r) /\
    (r = 0 /\ blocks_of l2 = [] /\ evolves m hd ls lf t m' [] \/
     exists blk, blocks_of l2 ≡ₚ r :: blk /\ evolves m hd ls lf t m' blk).
Proof using Ht.
  induction l2 as [|[q p] l2 IH]; intros m own ls lf l1 prev [|fuel] R El Hlp Hl1 Hf; simpl in Hf; try lia.
  { exists m, 0. split; [done|]. left. split_and!; try done. exists own, ls, lf.
    rewrite El, app_nil_r, Hl1. split_and!; done. }
  destruct (rp_chain _ _ _ _ _ R t h Ht) as [Hc _]. rewrite El in Hc.
  destruct (reps_read _ _ _ _ _ _ _ _ Hc) as (Hr & Hok & Hq & _).
  cbn [pop_loop head_key]. replace (q =? 0) with false by lia. rewrite Hr; cbn [mbind option_bind].
  destruct (Z.eqb_spec (entry_num p) 0) as [Hn|Hn]; cbn [negb].
  - assert (blocks_of ((q, p) :: l2) = blocks_of l2) as -> by by rewrite blocks_of_cons, live_empty.
    destruct (Z.eqb_spec prev 0) as [Hp|Hp]; cbn [negb].
    + rewrite (chain_next _ _ _ _ _ _ _ _ Hc).
      apply (IH m own ls lf (l1 ++ [(q, p)])); try done; [by rewrite <- app_assoc|by apply link_prev_snoc| |lia].
      rewrite blocks_of_app, Hl1, blocks_of_cons, live_empty; done.
    + destruct (drop_page m own ls lf l1 prev q p l2) as (m' & own' & ls' & lf' & l1' & Hu & R' & El' & Hlp' & Ea & Ho & Eb & Enx & Hlen); try done.
      rewrite Hu; cbn [mbind option_bind]. rewrite Enx.
      destruct (IH m' own' ls' lf' l1' prev fuel) as (m'' & r & -> & Hres); try done; [congruence|lia|].
      exists m'', r. split; [done|]. destruct Hres as [(-> & ? & He)|(blk & ? & He)]; [left|right; exists blk];
        (split_and!; try done); (eapply evolves_trans; [| | |exact He]; [lia|lia|done]).
  - pose proof Hok as [Hb Hl]. destruct (zget_ok (pl_entries p) (entry_num p - 1)) as [b Hg]; [lia|].
    rewrite Hg; cbn [mbind option_bind].
    pose proof (zset_ok (pl_entries p) (entry_num p - 1) 0 ltac:(lia)) as Es. rewrite Es; cbn [mbind option_bind].
    destruct (shrink_page m own ls lf l1 prev q p _ l2 R El Hlp Hn
      (eq_trans (zset_len _ _ _ _ Es) Hl)) as (m1 & m' & Ew & Eu & He).
    rewrite Ew; cbn [mbind option_bind]. rewrite Eu; cbn [mbind option_bind].
    exists m', b. split; [done|]. right. rewrite Hl1 in He. eexists. split; [|exact He].
    rewrite blocks_of_cons, (live_pop p (next_page p) b _ 0 Hok Hg Es). solve_Permutation.
Qed.

Lemma take_loop_spec target l2 : forall m own ls lf l1 prev fuel,
  reps m hd own ls lf -> ls t = l1 ++ l2 -> link_prev l1 prev -> (length l2 < fuel)%nat ->
  exists m' r, take_loop fuel m (head_key l2) prev target = Some (m', r) /\
    (if r : bool
     then exists blk, blocks_of l2 ≡ₚ target :: blk /\ evolves m hd ls lf t m' (blocks_of l1 ++ blk)
     else (target ∉ blocks_of l2) /\ evolves m hd ls lf t m' (blocks_of l1 ++ blocks_of l2)).
Proof using Ht.
  induction l2 as [|[q p] l2 IH]; intros m own ls lf l1 prev [|fuel] R El Hlp Hf; simpl in Hf; try lia.
  { exists m, false. split; [done|]. split; [by apply not_elem_of_nil|]. exists own, ls, lf.
    rewrite El, blocks_of_app. split_and!; done. }
  destruct (rp_chain _ _ _ _ _ R t h Ht) as [Hc _]. rewrite El in Hc.
  destruct (reps_read _ _ _ _ _ _ _ _ Hc) as (Hr & Hok & Hq & _). pose proof Hok as [Hb Hl].
  cbn [take_loop head_key]. replace (q =? 0) with false by lia. rewrite Hr; cbn [mbind option_bind].
  destruct (find_entry_spec (Z.to_nat (entry_num p)) 0 (pl_entries p) target) as (r & -> & Hfind); [lia|lia|].
  cbn [mbind option_bind]. destruct r as [i|].
  - destruct Hfind as [Hi Hgi].
    destruct (zget_ok (pl_entries p) (entry_num p - 1)) as [b Hg]; [lia|]. rewrite Hg; cbn [mbind option_bind].
    pose proof (zset_ok (pl_entries p) i b ltac:(lia)) as Es. rewrite Es; cbn [mbind option_bind].
    pose proof (zset_len _ _ _ _ Es) as El1. pose proof (zset_ok _ (entry_num p - 1) 0 ltac:(rewrite El1; lia)) as Es'.
    rewrite Es'; cbn [mbind option_bind].
    destruct (shrink_page m own ls lf l1 prev q p _ l2 R El Hlp ltac:(lia)
      (eq_trans (zset_len _ _ _ _ Es') (eq_trans El1 Hl))) as (m1 & m' & Ew & Eu & He).
    rewrite Ew; cbn [mbind option_bind]. rewrite Eu; cbn [mbind option_bind].
    exists m', true. split; [done|]. eexists. split; [|exact He].
    rewrite blocks_of_cons, (live_take p i (next_page p) target b _ _ Hok ltac:(lia) Hgi Hg Es Es'). done.
  - assert (target ∉ live p) as Hnl.
    { rewrite live_elem by done. intros (j & Hj & Hgj). eapply Hfind; [|exact Hgj]. lia. }
    destruct (negb (prev =? 0) && (entry_num p =? 0)) eqn:E.
    + bools. destruct (drop_page m own ls lf l1 prev q p l2) as (m' & own' & ls' & lf' & l1' & Hu & R' & El' & Hlp' & Ea & Ho & Eb & Enx & Hlen);
        try done; [lia|lia|]. rewrite Hu; cbn [mbind option_bind]. rewrite Enx.
      destruct (IH m' own' ls' lf' l1' prev fuel) as (m'' & r & -> & Hres); try done; [lia|].
      exists m'', r. split; [done|]. rewrite blocks_of_cons, live_empty by lia. rewrite Eb in Hres.
      destruct r; [destruct Hres as (blk & ? & He); exists blk|destruct Hres as [? He]]; (split; [done|]);
        (eapply evolves_trans; [| | |exact He]; [lia|lia|done]).
    + rewrite (chain_next _ _ _ _ _ _ _ _ Hc).
      destruct (IH m own ls lf (l1 ++ [(q, p)]) q fuel) as (m'' & r & -> & Hres); try done;
        [by rewrite <- app_assoc|by apply link_prev_snoc|lia|].
      exists m'', r. split; [done|]. rewrite blocks_of_cons, blocks_of_app, blocks_of_cons in *. simpl in Hres.
      rewrite app_nil_r in Hres. destruct r.
      * destruct Hres as (blk & Hp & He). exists (live p ++ blk). split; [rewrite Hp; solve_Permutation|].
        by rewrite app_assoc.
      * destruct Hres as [Hn He]. split; [|by rewrite app_assoc]. rewrite elem_of_app. tauto.
Qed.

End Walk.

Lemma pop_spec m hd B C z order :
  bags m hd B C -> heads_ok hd z -> MIN_ORDER <= order < MAX_ORDER ->
  let t := (zn_type z, order_to_index order) in
  exists m' r, page_list_pop m z order = Some (m', r) /\
    (r = 0 /\ B t = [] /\ bags m' hd B C \/
     exists blk, B t ≡ₚ r :: blk /\ bags m' hd (fupd B t blk) C).
Proof.
  intros (own & ls & lf & R & HB & Hh & Ha) Hz Ho t.
  assert (t ∈ all_tags) as Htag by by apply elem_all_tags, order_index.
  destruct (heads_ok_head hd z order Hz Ho) as (h & Hg & Ht). fold t in Ht.
  unfold page_list_pop. rewrite Hg; cbn [mbind option_bind].
  destruct (rp_chain _ _ _ _ _ R t h Ht) as [Hc _].
  assert (h = head_key (ls t)) as Eh.
  { pose proof (oc_seg _ _ _ _ _ Hc) as Hs. destruct (ls t) as [|[q p] l]; simpl in *; [done|]. by destruct Hs. }
  rewrite Eh.
  destruct (pop_loop_spec hd t h Ht (ls t) m own ls lf [] 0 (S (size (md_pages m)))) as (m' & r & -> & Hres);
    try done; [by left|apply le_n_S; eapply seg_length; apply Hc|].
  exists m', r. split; [done|].
  assert (B t ≡ₚ blocks_of (ls t)) as HBt by (apply HB; eauto).
  destruct Hres as [(-> & Hb & own' & ls' & lf' & R' & Ha' & Hl' & Hoth & Hb')|(blk & Hb & own' & ls' & lf' & R' & Ha' & Hl' & Hoth & Hb')].
  - left. split_and!; [done|apply Permutation_nil_r; by rewrite HBt, Hb|].
    exists own', ls', lf'. split; [done|]. split; [|by eapply (room_shrink m m' hd ls ls' lf lf')]. intros t' Hs. destruct (decide (t' = t)) as [->|].
    + by rewrite HBt, Hb, Hb'.
    + rewrite Hoth by done. by apply HB.
  - right. exists blk. split; [by rewrite HBt|]. exists own', ls', lf'. split; [done|]. split; [|by eapply (room_shrink m m' hd ls ls' lf lf')].
    intros t' Hs. unfold fupd. case_decide as E; [by subst t'|]. rewrite Hoth by done. by apply HB.
Qed.

Lemma take_spec m hd B C z order target :
  bags m hd B C -> heads_ok hd z -> MIN_ORDER <= order < MAX_ORDER ->
  let t := (zn_type z, order_to_index order) in
  exists m' r, page_list_take m z order target = Some (m', r) /\
    (if r : bool
     then exists blk, B t ≡ₚ target :: blk /\ bags m' hd (fupd B t blk) C
     else (target ∉ B t) /\ bags m' hd B C).
Proof.
  intros (own & ls & lf & R & HB & Hh & Ha) Hz Ho t.
  assert (t ∈ all_tags) as Htag by by apply elem_all_tags, order_index.
  destruct (heads_ok_head hd z order Hz Ho) as (h & Hg & Ht). fold t in Ht.
  unfold page_list_take. rewrite Hg; cbn [mbind option_bind].
  destruct (rp_chain _ _ _ _ _ R t h Ht) as [Hc _].
  assert (h = head_key (ls t)) as Eh.
  { pose proof (oc_seg _ _ _ _ _ Hc) as Hs. destruct (ls t) as [|[q p] l]; simpl in *; [done|]. by destruct Hs. }
  rewrite Eh.
  destruct (take_loop_spec hd t h Ht target (ls t) m own ls lf [] 0 (S (size (md_pages m)))) as (m' & r & -> & Hres);
    try done; [by left|apply le_n_S; eapply seg_length; apply Hc|].
  exists m', r. split; [done|].
  assert (B t ≡ₚ blocks_of (ls t)) as HBt by (apply HB; eauto).
  destruct r.
  - destruct Hres as (blk & Hb & own' & ls' & lf' & R' & Ha' & Hl' & Hoth & Hb'). exists blk. split; [by rewrite HBt|].
    exists own', ls', lf'. split; [done|]. split; [|by eapply (room_shrink m m' hd ls ls' lf lf')].
    intros t' Hs. unfold fupd. case_decide as E; [by subst t'|]. rewrite Hoth by done. by apply HB.
  - destruct Hres as (Hb & own' & ls' & lf' & R' & Ha' & Hl' & Hoth & Hb'). split; [by rewrite HBt|].
    exists own', ls', lf'. split; [done|]. split; [|by eapply (room_shrink m m' hd ls ls' lf lf')]. intros t' Hs. destruct (decide (t' = t)) as [->|].
    + by rewrite HBt, Hb'.
    + rewrite Hoth by done. by apply HB.
Qed.
