(* ===== verification/Buddy.v ===== *)
(** * Buddy frame allocator ([src/src/mem/buddy.c])

    Zones of physical memory, each with nineteen free lists (orders 12 to
    30) kept in metadata pages (file PageList). Allocation splits a larger
    block down to the wanted order; freeing merges a block with its buddy as
    long as the buddy is free. [alloc_frames] and [free_frames_common] tie
    the lists to the bitmap of handed-out frames and to the page reference
    counts. The model is the x86_64 configuration, which has ZONE_DMA. *)

From stdpp Require Import gmap.
From S2P Require Import Prelude Bitmap PageRef PageList.

(** ** Orders *)

Definition ZONE_DMA_END : Z := Z.shiftl 16 20.
Definition ZONE_DMA32_END : Z := Z.shiftl 4 30.

Definition order_to_pages (order : Z) : Z := u64 (Z.shiftl 1 (order - MIN_ORDER)).
Definition order_to_bytes (order : Z) : Z := u64 (Z.shiftl 1 order).
Definition order_valid (order : Z) : bool := (order >=? MIN_ORDER) && (order <? MAX_ORDER).
Definition zone_phys_start (z : zone_t) : Z := u64 (zone_start_pfn z * PAGE_SIZE).
Definition zone_phys_end (z : zone_t) : Z := u64 (zone_end_pfn z * PAGE_SIZE).

(** [count_to_order]: the first loop rounds [count] up to a power of two, the
    second computes its logarithm. A [size_t] has 64 bits, so 64 doublings
    (or halvings) end each loop. *)
Fixpoint round_up_loop (fuel : nat) (pages count : Z) : option (option Z) :=
  match fuel with
  | O => None
  | S n =>
      if pages <? count then
        if pages >? Z.shiftr SIZE_MAX 1 then Some None
        else round_up_loop n (u64 (Z.shiftl pages 1)) count
      else Some (Some pages)
  end.

Fixpoint log_loop (fuel : nat) (tmp order : Z) : option Z :=
  match fuel with
  | O => None
  | S n => if tmp >? 1 then log_loop n (Z.shiftr tmp 1) (order + 1) else Some order
  end.

(** [Some None] is [return false]; [Some (Some (order, pages))] stores both
    outputs. *)
Definition count_to_order (count : Z) : option (option (Z * Z)) :=
  if count =? 0 then Some None
  else
    let max_pages := order_to_pages (MAX_ORDER - 1) in
    r ← round_up_loop 65 1 count;
    match r with
    | None => Some None
    | Some pages =>
        if pages >? max_pages then Some None
        else
          order ← log_loop 65 pages MIN_ORDER;
          if negb (order_valid order) then Some None else Some (Some (order, pages))
    end.

Definition count_to_pages (count : Z) : option (option Z) :=
  r ← count_to_order count; Some (option_map snd r).

Definition zone_block_valid (z : zone_t) (addr order : Z) : bool :=
  if negb (order_valid order) then false
  else
    let block_bytes := order_to_bytes order in
    let start := zone_phys_start z in
    let end_ := zone_phys_end z in
    let block_end := u64 (addr + block_bytes) in
    if block_end <? addr then false
    else if negb (Z.land addr (block_bytes - 1) =? 0) then false
    else if (addr <? start) || (block_end >? end_) then false
    else true.

(** ** Splitting and merging *)

Definition zn_with_free (z : zone_t) (n : Z) : zone_t :=
  mkZone (free_area z) (zn_lock z) (zone_start_pfn z) (zone_end_pfn z) (managed_pages z) n (zn_type z).
Definition zn_with_managed (z : zone_t) (n : Z) : zone_t :=
  mkZone (free_area z) (zn_lock z) (zone_start_pfn z) (zone_end_pfn z) n (free_pages z) (zn_type z).
Definition zn_with_lock (z : zone_t) (l : spin_t) : zone_t :=
  mkZone (free_area z) l (zone_start_pfn z) (zone_end_pfn z) (managed_pages z) (free_pages z) (zn_type z).

(** The first loop of [buddy_alloc_order_locked]: the block found (0 if
    none) and the order it was found at. *)
Fixpoint alloc_find (fuel : nat) (m : meta) (z : zone_t) (source_order : Z) : option (meta * Z * Z) :=
  match fuel with
  | O => Some (m, 0, source_order)
  | S n =>
      '(m, block) ← page_list_pop m z source_order;
      if negb (block =? 0) then Some (m, block, source_order)
      else alloc_find n m z (source_order + 1)
  end.

(** The second loop: hand back the upper half at every order on the way
    down. *)
Fixpoint alloc_split (fuel : nat) (m : meta) (z : zone_t) (block source_order : Z)
  : option (meta * zone_t) :=
  match fuel with
  | O => Some (m, z)
  | S n =>
      let source_order := source_order - 1 in
      let buddy := u64 (block + order_to_bytes source_order) in
      '(m, z) ← page_list_push m z source_order buddy;
      alloc_split n m z block source_order
  end.

Definition buddy_alloc_order_locked (m : meta) (z : zone_t) (target_order : Z)
  : option (meta * zone_t * Z) :=
  '(m, block, source_order) ← alloc_find (Z.to_nat (MAX_ORDER - target_order)) m z target_order;
  if block =? 0 then Some (m, z, 0)
  else
    '(m, z) ← alloc_split (Z.to_nat (source_order - target_order)) m z block source_order;
    Some (m, z, block).

(** The merge loop of [buddy_free_zone_locked]. *)
Fixpoint free_merge (fuel : nat) (m : meta) (z : zone_t) (addr order : Z) : option (meta * Z * Z) :=
  match fuel with
  | O => Some (m, addr, order)
  | S n =>
      let buddy := Z.lxor addr (order_to_bytes order) in
      if negb (zone_block_valid z buddy order) then Some (m, addr, order)
      else
        '(m, taken) ← page_list_take m z order buddy;
        if negb taken then Some (m, addr, order)
        else free_merge n m z (if buddy <? addr then buddy else addr) (order + 1)
  end.

Definition buddy_free_zone_locked (m : meta) (z : zone_t) (addr order : Z) : option (meta * zone_t) :=
  let base_order := order in
  '(m, addr, order) ← free_merge (Z.to_nat (MAX_ORDER - 1 - order)) m z addr order;
  '(m, z) ← page_list_push m z order addr;
  Some (m, zn_with_free z (u64 (free_pages z + order_to_pages base_order))).

(** ** Zones *)

Definition phys_to_zone_type (phys : Z) : zone_type :=
  if phys <? ZONE_DMA_END then ZONE_DMA
  else if phys <? ZONE_DMA32_END then ZONE_DMA32
  else ZONE_NORMAL.

(** The state of the frame allocator: the metadata pool and zones of
    [buddy.c], both frame bitmaps, the page counters, and the CPU's interrupt
    flag. *)
Record memsys := mkMem {
  ms_md : meta;
  ms_zones : zone_type -> option zone_t;
  ms_using : Bitmap;
  ms_ref : ref_ctx;
  ms_irq : bool;
}.

Definition with_md (s : memsys) (m : meta) : memsys :=
  mkMem m (ms_zones s) (ms_using s) (ms_ref s) (ms_irq s).
Definition with_zone (s : memsys) (ty : zone_type) (z : zone_t) : memsys :=
  mkMem (ms_md s) (fun ty' => if decide (ty' = ty) then Some z else ms_zones s ty')
    (ms_using s) (ms_ref s) (ms_irq s).
Definition with_using (s : memsys) (b : Bitmap) : memsys :=
  mkMem (ms_md s) (ms_zones s) b (ms_ref s) (ms_irq s).
Definition with_ref (s : memsys) (c : ref_ctx) : memsys :=
  mkMem (ms_md s) (ms_zones s) (ms_using s) c (ms_irq s).
Definition with_irq (s : memsys) (b : bool) : memsys :=
  mkMem (ms_md s) (ms_zones s) (ms_using s) (ms_ref s) b.

Definition get_zone (s : memsys) (ty : zone_type) : option zone_t := ms_zones s ty.

Definition zone_has_memory (z : option zone_t) : bool :=
  match z with None => false | Some z => free_pages z >? 0 end.

Definition buddy_free_zone (s : memsys) (ty : zone_type) (addr order : Z) : option memsys :=
  match get_zone s ty with
  | None => Some s
  | Some z =>
      if negb (zone_block_valid z addr order) then Some s
      else
        l ← spin_lock (zn_lock z);
        '(m, z) ← buddy_free_zone_locked (ms_md s) (zn_with_lock z l) addr order;
        Some (with_zone (with_md s m) ty (zn_with_lock z (spin_unlock (zn_lock z))))
  end.

Definition buddy_alloc_zone (s : memsys) (ty : zone_type) (count : Z) : option (memsys * Z) :=
  match get_zone s ty with
  | None => Some (s, 0)
  | Some z =>
      if count =? 0 then Some (s, 0)
      else
        r ← count_to_order count;
        match r with
        | None => Some (s, 0)
        | Some (order, required_pages) =>
            let irq := ms_irq s in
            let s := with_irq s false in
            l ← spin_lock (zn_lock z);
            let z := zn_with_lock z l in
            if free_pages z <? required_pages then
              let s := with_zone s ty (zn_with_lock z (spin_unlock (zn_lock z))) in
              Some (if irq then with_irq s true else s, 0)
            else
              '(m, z, addr) ← buddy_alloc_order_locked (ms_md s) z order;
              let z := if negb (addr =? 0) then zn_with_free z (u64 (free_pages z - required_pages)) else z in
              let s := with_zone (with_md s m) ty (zn_with_lock z (spin_unlock (zn_lock z))) in
              Some (if irq then with_irq s true else s, addr)
        end
  end.

(** ** Regions *)

Fixpoint floor_order_loop (fuel : nat) (order bytes : Z) : Z :=
  match fuel with
  | O => order
  | S n =>
      if (order + 1 <? MAX_ORDER) && (u64 (Z.shiftl 1 (order + 1)) <=? bytes)
      then floor_order_loop n (order + 1) bytes else order
  end.

(** At most [ORDER_COUNT] steps: each raises the order by one. *)
Definition floor_order_for_size (bytes : Z) : Z :=
  floor_order_loop (Z.to_nat ORDER_COUNT) MIN_ORDER bytes.

(** [__builtin_ctzll], for a non-zero argument. *)
Fixpoint pos_ctz (p : positive) : Z :=
  match p with xO q => 1 + pos_ctz q | _ => 0 end.
Definition ctzll (x : Z) : Z := match x with Zpos p => pos_ctz p | _ => 0 end.

(** The loop of [add_memory_region]. Every turn adds at least one page, so
    the number of pages of the region bounds the turns. *)
Fixpoint add_region_loop (fuel : nat) (m : meta) (z : zone_t) (current end_ : Z)
  : option (meta * zone_t) :=
  match fuel with
  | O => None
  | S n =>
      if current <? end_ then
        let remaining := u64 (end_ - current) in
        let order_by_size := floor_order_for_size remaining in
        let order_by_align := if current =? 0 then MAX_ORDER - 1
                              else MIN (ctzll current) (MAX_ORDER - 1) in
        let order := MIN order_by_size order_by_align in
        let order := if order <? MIN_ORDER then MIN_ORDER else order in
        '(m, z) ← buddy_free_zone_locked m z current order;
        let z := zn_with_managed z (u64 (managed_pages z + order_to_pages order)) in
        add_region_loop n m z (u64 (current + order_to_bytes order)) end_
      else Some (m, z)
  end.

Definition add_memory_region (s : memsys) (start end_ : Z) (ty : zone_type) : option memsys :=
  match get_zone s ty with
  | None => Some s
  | Some z =>
      if start >=? end_ then Some s
      else
        let start := PADDING_UP start PAGE_SIZE in
        let end_ := PADDING_DOWN end_ PAGE_SIZE in
        if start >=? end_ then Some s
        else
          let start := if start <? zone_phys_start z then zone_phys_start z else start in
          let end_ := if end_ >? zone_phys_end z then zone_phys_end z else end_ in
          if start >=? end_ then Some s
          else
            l ← spin_lock (zn_lock z);
            '(m, z) ← add_region_loop (S (Z.to_nat ((end_ - start) / PAGE_SIZE + 1))) (ms_md s)
                        (zn_with_lock z l) start end_;
            Some (with_zone (with_md s m) ty (zn_with_lock z (spin_unlock (zn_lock z))))
  end.

(** ** Frames *)

(** [if (zones[ty] && zone_has_memory(zones[ty])) addr = buddy_alloc_zone(...)] *)
Definition try_zone (s : memsys) (ty : zone_type) (count : Z) : option (memsys * Z) :=
  if zone_has_memory (get_zone s ty) then buddy_alloc_zone s ty count else Some (s, 0).

(** The zones in the order of preference, up to the first that serves the
    request. *)
Fixpoint try_zones (s : memsys) (tys : list zone_type) (count : Z) : option (memsys * Z) :=
  match tys with
  | [] => Some (s, 0)
  | ty :: tys =>
      '(s, addr) ← try_zone s ty count;
      if negb (addr =? 0) then Some (s, addr) else try_zones s tys count
  end.

(** The code behind the label [out]: mark the frames and count a reference
    to each. *)
Definition claim_frames (s : memsys) (addr required_pages : Z) : option memsys :=
  let page_index := addr / PAGE_SIZE in
  b ← bitmap_set_range (ms_using s) page_index (u64 (page_index + required_pages)) true;
  let s := with_using s b in
  pm ← maps_of (ms_ref s);
  pm ← for_range 0 required_pages
         (fun offset pm => page_ref pm (get_page_ref (u64 (addr + offset * PAGE_SIZE)))) pm;
  Some (with_ref s (with_maps (ms_ref s) pm)).

Definition alloc_frames_from (tys : list zone_type) (s : memsys) (count : Z) : option (memsys * Z) :=
  if count =? 0 then Some (s, 0)
  else
    r ← count_to_pages count;
    match r with
    | None => Some (s, 0)
    | Some required_pages =>
        '(s, addr) ← try_zones s tys count;
        if addr =? 0 then Some (s, 0)
        else s ← claim_frames s addr required_pages; Some (s, addr)
    end.

Definition alloc_frames : memsys -> Z -> option (memsys * Z) :=
  alloc_frames_from [ZONE_NORMAL; ZONE_DMA32; ZONE_DMA].
Definition alloc_frames_dma32 : memsys -> Z -> option (memsys * Z) :=
  alloc_frames_from [ZONE_DMA32; ZONE_DMA].

(** The counting loop of [claim_last_page_refs] over the offsets from
    [offset] on; the flag is false when a page was not released, and then the
    pages released before it get their reference back. *)
Fixpoint claim_loop (n : nat) (offset : Z) (pm : list Z) (addr : Z) : option (bool * list Z) :=
  match n with
  | O => Some (true, pm)
  | S n' =>
      '(ok, pm) ← page_try_release_last pm (get_page_ref (u64 (addr + offset * PAGE_SIZE)));
      if ok : bool then claim_loop n' (offset + 1) pm addr
      else
        pm ← for_range 0 offset
               (fun rollback pm => page_ref pm (get_page_ref (u64 (addr + rollback * PAGE_SIZE)))) pm;
        Some (false, pm)
  end.

Definition claim_last_page_refs (pm : list Z) (addr pages : Z) : option (bool * list Z) :=
  claim_loop (Z.to_nat pages) 0 pm addr.

Fixpoint unref_check (n : nat) (offset : Z) (pm : list Z) (addr : Z) : option bool :=
  match n with
  | O => Some true
  | S n' =>
      r ← page_refcount_read pm (get_page_ref (u64 (addr + offset * PAGE_SIZE)));
      if negb (r =? 0) then Some false else unref_check n' (offset + 1) pm addr
  end.

Definition pages_are_unreferenced (pm : list Z) (addr pages : Z) : option bool :=
  unref_check (Z.to_nat pages) 0 pm addr.

(** Both bitmaps mark each of the [n] frames from [index] on. *)
Fixpoint frames_marked (n : nat) (index : Z) (used usable : Bitmap) : option bool :=
  match n with
  | O => Some true
  | S n' =>
      u ← bitmap_get used index;
      if negb u then Some false
      else
        v ← bitmap_get usable index;
        if negb v then Some false else frames_marked n' (index + 1) used usable
  end.

(** The critical section of [free_frames_common], from [spin_lock] to
    [spin_unlock]. *)
Definition free_frames_locked (s : memsys) (type : zone_type) (z : zone_t)
    (addr required_order required_pages : Z) (refs_already_released : bool) : option memsys :=
  let start_page_index := addr / PAGE_SIZE in
  l ← spin_lock (zn_lock z);
  let z := zn_with_lock z l in
  let unlocked := with_zone s type (zn_with_lock z (spin_unlock (zn_lock z))) in
  marked ← frames_marked (Z.to_nat required_pages) start_page_index
             (ms_using s) (rc_usable (ms_ref s));
  if negb marked then Some unlocked
  else
    pm ← maps_of (ms_ref s);
    '(ok, pm) ←
      (if refs_already_released
       then ok ← pages_are_unreferenced pm addr required_pages; Some (ok, pm)
       else claim_last_page_refs pm addr required_pages);
    if negb ok then Some (with_ref unlocked (with_maps (ms_ref s) pm))
    else
      let s := with_ref s (with_maps (ms_ref s) pm) in
      b ← bitmap_set_range (ms_using s) start_page_index
            (u64 (start_page_index + required_pages)) false;
      '(m, z) ← buddy_free_zone_locked (ms_md s) z addr required_order;
      Some (with_zone (with_md (with_using s b) m) type (zn_with_lock z (spin_unlock (zn_lock z)))).

Definition free_frames_common (s : memsys) (addr count : Z) (refs_already_released : bool)
  : option memsys :=
  if (addr =? 0) || (count =? 0) then Some s
  else if negb (Z.land addr (PAGE_SIZE - 1) =? 0) then Some s
  else if addr >? rc_memory_size (ms_ref s) then Some s
  else
    r ← count_to_order count;
    match r with
    | None => Some s
    | Some (required_order, required_pages) =>
        let type := phys_to_zone_type addr in
        match get_zone s type with
        | None => Some s
        | Some z =>
            let zone_start := zone_phys_start z in
            let zone_end := zone_phys_end z in
            let free_end := u64 (addr + required_pages * PAGE_SIZE) in
            if (free_end <? addr) || (addr <? zone_start) || (free_end >? zone_end) then Some s
            else
              let start_page_index := addr / PAGE_SIZE in
              let last := u64 (start_page_index + required_pages) in
              if (last <? start_page_index) || (last >? bm_length (ms_using s))
                 || (last >? bm_length (rc_usable (ms_ref s))) then Some s
              else
                let irq := ms_irq s in
                s ← free_frames_locked (with_irq s false) type z addr required_order
                      required_pages refs_already_released;
                Some (if irq then with_irq s true else s)
        end
    end.

Definition free_frames (s : memsys) (addr count : Z) : option memsys :=
  free_frames_common s addr count false.
Definition free_frame (s : memsys) (addr : Z) : option memsys := free_frames_common s addr 1 false.
Definition free_frames_released (s : memsys) (addr count : Z) : option memsys :=
  free_frames_common s addr count true.
Definition free_frames_dma32 (s : memsys) (addr count : Z) : option memsys := free_frames s addr count.

(** [address_release] of [page_ref.c]: drop one reference, and free the frame
    when it was the last. *)
Definition address_release (s : memsys) (addr : Z) : option memsys :=
  managed ← address_is_managed (ms_ref s) addr;
  if negb managed then Some s
  else
    pm ← maps_of (ms_ref s);
    '(refs, pm) ← page_unref pm (get_page_ref addr);
    let s := with_ref s (with_maps (ms_ref s) pm) in
    if (refs >? 0) || (refs <? 0) then Some s else free_frames_released s addr 1.
