(* ===== verification/BuddyInv.v ===== *)
(** * Correctness of the buddy allocator

    The free pages of a zone as a duplicate-free list, its invariant, and
    what allocation and freeing do to it. *)

From stdpp Require Import gmap.
From S2P Require Import Prelude Bitmap PageRef PageList Buddy.

(** ** Blocks and their pages *)

(** A block is its order and its physical address. *)
Abbreviation block := (Z * Z)%type.

(** The page frame numbers a block covers. *)
Definition pages_of (b : block) : list Z := seqZ (b.2 / PAGE_SIZE) (2 ^ (b.1 - MIN_ORDER)).
Definition frees (L : list block) : list Z := L ≫= pages_of.

Definition zone_wf (z : zone_t) : Prop :=
  0 <= zone_start_pfn z /\ zone_start_pfn z <= zone_end_pfn z /\ zone_end_pfn z * PAGE_SIZE < two64.

(** A block the zone may hold: aligned to its size, inside the zone, and not
    at address 0, which [page_list_pop] uses for "none". *)
Record block_in (first last : Z) (b : block) : Prop := {
  bo_order : MIN_ORDER <= b.1 < MAX_ORDER;
  bo_align : (2 ^ b.1 | b.2);
  bo_start : first * PAGE_SIZE <= b.2;
  bo_end : b.2 + 2 ^ b.1 <= last * PAGE_SIZE;
  bo_nonzero : 0 < b.2;
}.
Definition block_ok (z : zone_t) : block -> Prop := block_in (zone_start_pfn z) (zone_end_pfn z).

(** No two free blocks are buddies of each other: freeing merges fully. *)
Definition coalesced (L : list block) : Prop :=
  forall o a, (o, a) ∈ L -> o < MAX_ORDER - 1 -> (o, Z.lxor a (2 ^ o)) ∉ L.

(** Blocks a zone may have on its lists together. *)
Definition family (z : zone_t) (L : list block) : Prop :=
  Forall (block_ok z) L /\ NoDup (frees L) /\ coalesced L.

(** The free blocks of a zone, over all orders. *)
Definition blks (B : tag -> list Z) (ty : zone_type) : list block :=
  seqZ MIN_ORDER ORDER_COUNT ≫= fun o => (o,.) <$> B (ty, order_to_index o).

(** The invariant of a zone whose free blocks are [L]. *)
Record zinv (z : zone_t) (L : list block) : Prop := {
  zi_wf : zone_wf z;
  zi_blocks : Forall (block_ok z) L;
  zi_disjoint : NoDup (frees L);
  zi_free_pages : free_pages z = zlen (frees L);
  zi_coalesced : coalesced L;
}.

(** ** Orders and alignment *)

Lemma order_to_bytes_pow o : 0 <= o < 64 -> order_to_bytes o = 2 ^ o.
Proof.
  intros. unfold order_to_bytes. rewrite Z.shiftl_1_l. apply u64_id.
  change two64 with (2 ^ 64). split; [apply Z.pow_nonneg; lia|]. apply Z.pow_lt_mono_r; lia.
Qed.

Lemma order_to_pages_pow o : MIN_ORDER <= o < MAX_ORDER -> order_to_pages o = 2 ^ (o - MIN_ORDER).
Proof.
  unfold MIN_ORDER, MAX_ORDER. intros. unfold order_to_pages. rewrite Z.shiftl_1_l. apply u64_id.
  change two64 with (2 ^ 64). split; [apply Z.pow_nonneg; lia|]. apply Z.pow_lt_mono_r; unfold MIN_ORDER; lia.
Qed.

Lemma pow2_pos o : 0 <= o -> 0 < 2 ^ o.
Proof. intros. by apply Z.pow_pos_nonneg. Qed.

Lemma pow2_pages o : MIN_ORDER <= o -> 2 ^ o = 2 ^ (o - MIN_ORDER) * PAGE_SIZE.
Proof.
  unfold MIN_ORDER, PAGE_SIZE. intros. change 4096 with (2 ^ 12). rewrite <- Z.pow_add_r by lia. f_equal. lia.
Qed.

(** A multiple of [2^o] has its buddy one block below or above. *)
Lemma lxor_buddy a o :
  0 <= o -> (2 ^ o | a) ->
  Z.lxor a (2 ^ o) = if Z.odd (a / 2 ^ o) then a - 2 ^ o else a + 2 ^ o.
Proof.
  intros Ho [k ->]. assert (0 < 2 ^ o) by by apply pow2_pos. rewrite Z.div_mul by lia.
  rewrite <- (Z.mul_1_l (2 ^ o)) at 2. rewrite <- !Z.shiftl_mul_pow2, <- Z.shiftl_lxor by lia.
  rewrite !Z.shiftl_mul_pow2 by lia. assert (Z.lxor k 1 = if Z.odd k then k - 1 else k + 1) as ->.
  { destruct (Z.odd k) eqn:E.
    - assert (Z.lxor (k - 1) 1 = k) as Hk.
      { rewrite <- Z.add_nocarry_lxor; [lia|]. change 1 with (Z.ones 1) at 2. rewrite Z.land_ones by lia.
        rewrite Z.pow_1_r, Zmod_odd, Z.odd_sub, E. done. }
      rewrite <- Hk at 1. by rewrite Z.lxor_assoc, Z.lxor_nilpotent, Z.lxor_0_r.
    - rewrite <- Z.add_nocarry_lxor; [done|]. change 1 with (Z.ones 1). rewrite Z.land_ones by lia.
      by rewrite Z.pow_1_r, Zmod_odd, E. }
  destruct (Z.odd k); lia.
Qed.

Lemma buddy_involutive a o : Z.lxor (Z.lxor a (2 ^ o)) (2 ^ o) = a.
Proof. by rewrite Z.lxor_assoc, Z.lxor_nilpotent, Z.lxor_0_r. Qed.

Lemma divide_pow2_le o o' a : 0 <= o <= o' -> (2 ^ o' | a) -> (2 ^ o | a).
Proof.
  intros ? H. etransitivity; [|exact H]. exists (2 ^ (o' - o)). rewrite <- Z.pow_add_r by lia. f_equal. lia.
Qed.

(** The lower of a block and its buddy is aligned to the doubled size. *)
Lemma buddy_merge a o :
  0 <= o -> (2 ^ o | a) -> let b := Z.lxor a (2 ^ o) in let lo := if b <? a then b else a in
  (2 ^ (o + 1) | lo) /\ (lo = a /\ b = a + 2 ^ o \/ lo = b /\ a = b + 2 ^ o).
Proof.
  intros Ho Ha b lo. pose proof (lxor_buddy a o Ho Ha) as Eb. fold b in Eb.
  assert (0 < 2 ^ o) by by apply pow2_pos. destruct Ha as [k ->]. rewrite Z.div_mul in Eb by lia.
  unfold lo. rewrite Z.pow_add_r, Z.pow_1_r by lia. destruct (Z.odd k) eqn:E.
  - destruct (Z.ltb_spec b (k * 2 ^ o)); [|lia]. split; [|right; lia]. rewrite Eb.
    apply Z.odd_spec in E as [j ->]. exists j. lia.
  - destruct (Z.ltb_spec b (k * 2 ^ o)); [lia|]. split; [|left; lia].
    assert (Z.even k = true) as Ek by (rewrite <- Z.negb_odd; by rewrite E). apply Z.even_spec in Ek as [j ->].
    exists j. lia.
Qed.

Lemma zone_block_valid_spec z a o :
  zone_wf z -> 0 <= a < two64 ->
  zone_block_valid z a o = true <->
  MIN_ORDER <= o < MAX_ORDER /\ (2 ^ o | a) /\ zone_start_pfn z * PAGE_SIZE <= a /\
  a + 2 ^ o <= zone_end_pfn z * PAGE_SIZE.
Proof.
  intros (H0 & Hse & He) Ha. unfold zone_block_valid, zone_phys_start, zone_phys_end, order_valid.
  unfold PAGE_SIZE in *. rewrite !(u64_id (_ * _)) by lia.
  destruct ((o >=? MIN_ORDER) && (o <? MAX_ORDER)) eqn:Eo; cbn [negb]; unfold MIN_ORDER, MAX_ORDER in *;
    [|split; [done|intros (? & _); bools; lia]].
  bools. rewrite order_to_bytes_pow by lia. assert (0 < 2 ^ o) by (apply pow2_pos; lia).
  assert (2 ^ o <= 2 ^ 30) by (apply Z.pow_le_mono_r; lia). change (2 ^ 30) with 1073741824 in *.
  replace (2 ^ o - 1) with (Z.ones o) by (rewrite Z.ones_equiv; lia). rewrite Z.land_ones by lia.
  assert (a mod 2 ^ o = 0 <-> (2 ^ o | a)) as Hdiv by (apply Z.mod_divide; lia).
  destruct (Z.ltb_spec (a + 2 ^ o) two64).
  - rewrite u64_id by lia. replace (a + 2 ^ o <? a) with false by lia.
    destruct (Z.eqb_spec (a mod 2 ^ o) 0) as [E|E]; cbn [negb]; [|naive_solver].
    case_if; bools; split; intros; try done; [lia|]. split_and!; try lia. by apply Hdiv.
  - assert (u64 (a + 2 ^ o) = a + 2 ^ o - two64) as ->.
    { unfold u64. symmetry. apply Z.mod_unique with 1; lia. }
    replace (a + 2 ^ o - two64 <? a) with true by lia. split; [done|]. lia.
Qed.

(** ** Page lists *)

Lemma elem_pages_of p o a :
  p ∈ pages_of (o, a) <-> a / PAGE_SIZE <= p < a / PAGE_SIZE + 2 ^ (o - MIN_ORDER).
Proof. unfold pages_of; simpl. apply elem_of_seqZ. Qed.

Lemma zlen_pages_of o a : MIN_ORDER <= o -> zlen (pages_of (o, a)) = 2 ^ (o - MIN_ORDER).
Proof.
  intros. unfold pages_of, zlen; simpl. rewrite length_seqZ.
  pose proof (Z.pow_nonneg 2 (o - MIN_ORDER)). lia.
Qed.

(** A block is its two halves, in order. *)
Lemma pages_of_halves o a :
  MIN_ORDER <= o -> pages_of (o + 1, a) = pages_of (o, a) ++ pages_of (o, a + 2 ^ o).
Proof.
  intros Ho. unfold pages_of; simpl. rewrite (pow2_pages o Ho).
  replace (o + 1 - MIN_ORDER) with ((o - MIN_ORDER) + 1) by lia.
  assert (0 < 2 ^ (o - MIN_ORDER)) by (apply pow2_pos; lia).
  rewrite Z.pow_add_r, Z.pow_1_r by lia.
  rewrite (Z.div_add a) by done.
  replace (2 ^ (o - MIN_ORDER) * 2) with (2 ^ (o - MIN_ORDER) + 2 ^ (o - MIN_ORDER)) by lia.
  apply seqZ_app; lia.
Qed.

Lemma frees_cons b L : frees (b :: L) = pages_of b ++ frees L.
Proof. done. Qed.

#[export] Instance frees_proper : Proper ((≡ₚ) ==> (≡ₚ)) frees.
Proof. intros L1 L2 H. unfold frees. by rewrite H. Qed.

#[export] Instance zlen_proper {A} : Proper ((≡ₚ) ==> (=)) (@zlen A).
Proof. intros l1 l2 H. unfold zlen. by rewrite H. Qed.

Lemma elem_frees p L : p ∈ frees L <-> exists b, b ∈ L /\ p ∈ pages_of b.
Proof. unfold frees. rewrite list_elem_of_bind. naive_solver. Qed.

(** A block of a disjoint family shares no page with the rest, so a block
    that starts inside it is not in the rest. *)
Lemma frees_sep b L b' :
  NoDup (pages_of b ++ frees L) -> MIN_ORDER <= b'.1 -> b'.2 / PAGE_SIZE ∈ pages_of b -> b' ∉ L.
Proof.
  intros (_ & Hd & _)%NoDup_app Ho Hp Hin. apply (Hd _ Hp). apply elem_frees. exists b'. split; [done|].
  destruct b' as [o a]. apply elem_pages_of; simpl in *.
  assert (0 < 2 ^ (o - MIN_ORDER)) by (apply pow2_pos; lia). lia.
Qed.

(** ** The blocks of a zone as one list *)

Section Blks.
Context (B : tag -> list Z) (ty : zone_type).

Lemma bind_upd os o x blk :
  NoDup os -> o ∈ os -> B (ty, order_to_index o) ≡ₚ x :: blk ->
  (os ≫= fun o => (o,.) <$> B (ty, order_to_index o)) ≡ₚ
  (o, x) :: (os ≫= fun o' => (o',.) <$> fupd B (ty, order_to_index o) blk (ty, order_to_index o')).
Proof.
  assert (forall o' os, o' ∉ os -> (os ≫= fun o => (o,.) <$> B (ty, order_to_index o)) =
    (os ≫= fun o => (o,.) <$> fupd B (ty, order_to_index o') blk (ty, order_to_index o))) as Hne.
  { intros o' os'. induction os' as [|o1 os' IH]; [done|]. intros [? ?]%not_elem_of_cons. simpl. f_equal.
    - rewrite fupd_ne; [done|]. unfold order_to_index. intros [=]. lia.
    - by apply IH. }
  induction os as [|o1 os IH]; [by intros _ ?%elem_of_nil|].
  intros [Hn Hnd]%NoDup_cons Ho Hx. cbn [mbind list_bind]. destruct (decide (o1 = o)) as [->|Hd].
  - rewrite fupd_eq, Hx, fmap_cons. simpl. constructor. by rewrite (Hne o os Hn).
  - apply elem_of_cons in Ho as [?|Ho]; [done|]. rewrite fupd_ne.
    + rewrite (IH Hnd Ho Hx). solve_Permutation.
    + unfold order_to_index. intros [=]. lia.
Qed.

Lemma elem_orders o : o ∈ seqZ MIN_ORDER ORDER_COUNT <-> MIN_ORDER <= o < MAX_ORDER.
Proof. rewrite elem_of_seqZ. unfold ORDER_COUNT. lia. Qed.

Lemma blks_remove o x blk :
  MIN_ORDER <= o < MAX_ORDER -> B (ty, order_to_index o) ≡ₚ x :: blk ->
  blks B ty ≡ₚ (o, x) :: blks (fupd B (ty, order_to_index o) blk) ty.
Proof.
  intros Ho Hx. apply bind_upd; [apply NoDup_seqZ|by apply elem_orders|done].
Qed.

Lemma elem_blks o a : (o, a) ∈ blks B ty <-> MIN_ORDER <= o < MAX_ORDER /\ a ∈ B (ty, order_to_index o).
Proof.
  unfold blks. rewrite list_elem_of_bind. split.
  - intros (o' & (a' & [= <- <-] & ?)%list_elem_of_fmap & ?%elem_orders). done.
  - intros [? ?]. exists o. rewrite elem_orders, list_elem_of_fmap. eauto.
Qed.

End Blks.

Lemma blks_ext B B' ty :
  (forall i, B (ty, i) = B' (ty, i)) -> blks B ty = blks B' ty.
Proof. intros E. unfold blks. apply list_bind_ext; [|done]. intros o. by rewrite E. Qed.

Lemma blks_add B ty o x :
  MIN_ORDER <= o < MAX_ORDER ->
  blks (fupd B (ty, order_to_index o) (x :: B (ty, order_to_index o))) ty ≡ₚ (o, x) :: blks B ty.
Proof.
  intros Ho. rewrite (blks_remove _ ty o x (B (ty, order_to_index o)) Ho) by by rewrite fupd_eq.
  constructor. erewrite blks_ext; [done|]. intros i. unfold fupd. case_decide as E; [|done]. by rewrite E.
Qed.

(** The free pages lie in the zone, so their number fits its size. *)
Lemma frees_in_zone z L p :
  Forall (block_ok z) L -> p ∈ frees L -> zone_start_pfn z <= p < zone_end_pfn z.
Proof.
  intros HF ([o a] & Hb & Hp)%elem_frees. rewrite Forall_forall in HF. destruct (HF _ Hb) as [Ho Ha Hs He _].
  apply elem_pages_of in Hp. simpl in *. rewrite (pow2_pages o) in He by lia.
  unfold PAGE_SIZE in *. assert (zone_start_pfn z <= a / 4096) by (apply Z.div_le_lower_bound; lia).
  assert (a / 4096 * 4096 <= a) by (pose proof (Z.mul_div_le a 4096); lia). nia.
Qed.

Lemma frees_bound z L :
  zone_wf z -> Forall (block_ok z) L -> NoDup (frees L) -> zlen (frees L) <= zone_end_pfn z - zone_start_pfn z.
Proof.
  intros (? & ? & ?) HF Hn.
  assert (frees L ⊆+ seqZ (zone_start_pfn z) (zone_end_pfn z - zone_start_pfn z)) as Hsub.
  { apply NoDup_submseteq; [done|]. intros p Hp. apply elem_of_seqZ.
    pose proof (frees_in_zone z L p HF Hp). lia. }
  apply submseteq_length in Hsub. rewrite length_seqZ in Hsub. unfold zlen. lia.
Qed.

(** ** How many blocks a list can have *)

Lemma family_perm z L L' : L ≡ₚ L' -> family z L -> family z L'.
Proof.
  intros HL (HF & Hn & Hc). split_and!; [by rewrite <- HL|by rewrite <- HL|].
  intros o a. rewrite <- HL. apply Hc.
Qed.

#[export] Instance family_proper z : Proper ((≡ₚ) ==> iff) (family z).
Proof. intros L L' HL. split; by apply family_perm. Qed.

(** Of two buddies at most one is on a list, so the blocks of an order are
    told apart by the frame number of the pair; blocks of the largest order
    by their own. *)
Definition pair_shift (order : Z) : Z := Z.min (order - MIN_ORDER + 1) (MAX_ORDER - 1 - MIN_ORDER).
Definition max_blocks (first last order : Z) : Z :=
  last / 2 ^ pair_shift order - first / 2 ^ pair_shift order + 1.

(** The share of the metadata pool that such a list needs. *)
Definition page_share (first last i : Z) : Z :=
  1 + max_blocks first last (i + MIN_ORDER) / PAGE_LIST_ENTRY_CAPACITY.

Definition shares_ok (C : tag -> Z) (z : zone_t) : Prop :=
  forall i, 0 <= i < ORDER_COUNT -> page_share (zone_start_pfn z) (zone_end_pfn z) i <= C (zn_type z, i).

Lemma frees_nodup L : Forall (fun b => MIN_ORDER <= b.1) L -> NoDup (frees L) -> NoDup L.
Proof.
  induction 1 as [|[o a] L Ho HF IH]; [constructor|]. rewrite frees_cons. intros Hnd. constructor.
  - eapply frees_sep; [exact Hnd|done|]. apply elem_pages_of. simpl in *.
    assert (0 < 2 ^ (o - MIN_ORDER)) by (apply pow2_pos; lia). lia.
  - apply IH. by apply NoDup_app in Hnd as (_ & _ & ?).
Qed.

(** The frame number of the pair tells two blocks of an order apart. *)
Lemma pair_inj z L o x y :
  family z L -> (o, x) ∈ L -> (o, y) ∈ L ->
  x / PAGE_SIZE / 2 ^ pair_shift o = y / PAGE_SIZE / 2 ^ pair_shift o -> x = y.
Proof.
  intros (HF & _ & Hc) Hx Hy E. rewrite Forall_forall in HF.
  destruct (HF _ Hx) as [Ho Hax _ _ Hpx], (HF _ Hy) as [_ Hay _ _ Hpy]; simpl in *.
  assert (0 < 2 ^ o) by (apply pow2_pos; olia). unfold pair_shift in E.
  assert (forall k, 0 <= k -> forall w, w / PAGE_SIZE / 2 ^ k = w / 2 ^ (12 + k)) as Hdd.
  { intros k Hk w. unfold PAGE_SIZE. change 4096 with (2 ^ 12).
    rewrite Z.pow_add_r, Z.div_div by (try apply pow2_pos; try apply Z.pow_nonzero; lia). done. }
  rewrite !Hdd in E by olia. destruct (decide (o = MAX_ORDER - 1)) as [->|Hne].
  - change (12 + _) with (MAX_ORDER - 1) in E. destruct Hax as [i ->], Hay as [j ->].
    rewrite !Z.div_mul in E by lia. by subst.
  - replace (12 + _) with (o + 1) in E by olia. rewrite Z.pow_add_r, Z.pow_1_r in E by olia.
    destruct (decide (x = y)) as [|Hxy]; [done|]. exfalso. apply (Hc o x Hx); [olia|].
    rewrite lxor_buddy by (try done; olia). destruct Hax as [i ->], Hay as [j ->]. rewrite Z.div_mul by lia.
    rewrite <- !Z.div_div, !Z.div_mul in E by lia.
    assert (j = if Z.odd i then i - 1 else i + 1) as ->.
    { pose proof (Z.div2_odd i). pose proof (Z.div2_odd j). rewrite !Z.div2_div in *.
      assert (i <> j) by congruence. destruct (Z.odd i), (Z.odd j); simpl in *; lia. }
    destruct (Z.odd i); [replace (i * 2 ^ o - 2 ^ o) with ((i - 1) * 2 ^ o) by lia|
      replace (i * 2 ^ o + 2 ^ o) with ((i + 1) * 2 ^ o) by lia]; done.
Qed.

Lemma blks_order_nodup B ty o : MIN_ORDER <= o < MAX_ORDER -> NoDup (blks B ty) -> NoDup (B (ty, order_to_index o)).
Proof.
  intros Ho Hnd. apply elem_orders, list_elem_of_split in Ho as (l1 & l2 & E). unfold blks in Hnd.
  rewrite E, bind_app in Hnd. cbn [mbind list_bind] in Hnd. apply NoDup_app in Hnd as (_ & _ & Hnd).
  apply NoDup_app in Hnd as (Hnd & _). by eapply NoDup_fmap_1.
Qed.

Lemma order_count z B o :
  zone_wf z -> family z (blks B (zn_type z)) -> MIN_ORDER <= o < MAX_ORDER ->
  zlen (B (zn_type z, order_to_index o)) <= max_blocks (zone_start_pfn z) (zone_end_pfn z) o.
Proof.
  intros (Hw0 & Hw1 & _) Hfam Ho. pose proof Hfam as (HF & Hnd & _). set (xs := B _).
  set (k := pair_shift o). assert (0 <= k) by (unfold k, pair_shift; olia). assert (0 < 2 ^ k) by by apply pow2_pos.
  set (f := fun x => x / PAGE_SIZE / 2 ^ k).
  assert (forall x, x ∈ xs -> (o, x) ∈ blks B (zn_type z)) as Hin by (intros x ?; by apply elem_blks).
  assert (NoDup (f <$> xs)) as Hndf.
  { apply NoDup_fmap_2_strong; [|apply blks_order_nodup; [done|]].
    - intros x y Hx Hy E. by eapply pair_inj; eauto.
    - apply frees_nodup; [|done]. eapply Forall_impl; [exact HF|]. intros b [? _ _ _ _]. lia. }
  assert (f <$> xs ⊆+ seqZ (zone_start_pfn z / 2 ^ k) (max_blocks (zone_start_pfn z) (zone_end_pfn z) o)) as Hsub.
  { apply NoDup_submseteq; [done|]. intros v (x & -> & Hx)%list_elem_of_fmap. apply elem_of_seqZ.
    rewrite Forall_forall in HF. destruct (HF _ (Hin _ Hx)) as [_ _ Hs He _]; simpl in *.
    assert (0 < 2 ^ o) by (apply pow2_pos; olia). unfold max_blocks. fold k. unfold f, PAGE_SIZE in *.
    assert (zone_start_pfn z <= x / 4096) by (apply Z.div_le_lower_bound; lia).
    assert (x / 4096 <= zone_end_pfn z) by (apply Z.div_le_upper_bound; lia).
    assert (zone_start_pfn z / 2 ^ k <= x / 4096 / 2 ^ k) by (by apply Z.div_le_mono).
    assert (x / 4096 / 2 ^ k <= zone_end_pfn z / 2 ^ k) by (by apply Z.div_le_mono). lia. }
  apply submseteq_length in Hsub. rewrite length_fmap, length_seqZ in Hsub.
  assert (zone_start_pfn z / 2 ^ k <= zone_end_pfn z / 2 ^ k) by (by apply Z.div_le_mono).
  unfold max_blocks in *. fold k in Hsub |- *. unfold zlen. lia.
Qed.

(** A part of a family is one. *)
Lemma family_app z L1 L2 : family z (L1 ++ L2) -> family z L2.
Proof.
  intros (HF & Hn & Hc). apply Forall_app in HF as [_ HF]. unfold frees in Hn. rewrite bind_app in Hn.
  apply NoDup_app in Hn as (_ & _ & Hn). split_and!; try done.
  intros o a Hin Ho Hb. apply (Hc o a); [apply elem_of_app; by right|done|apply elem_of_app; by right].
Qed.

(** ** Pushing a block *)

(** The zone's share of the pool is enough for a block that fits the others. *)
Lemma push_block_spec m hd B C z o x :
  bags m hd B C -> heads_ok hd z -> shares_ok C z -> zone_wf z ->
  family z ((o, x) :: blks B (zn_type z)) ->
  exists m' fa', page_list_push m z o x = Some (m', zn_with_area z fa') /\ zlen fa' = ORDER_COUNT /\
    bags m' (zone_heads hd (zn_type z) fa')
      (fupd B (zn_type z, order_to_index o) (x :: B (zn_type z, order_to_index o))) C.
Proof.
  intros Hb Hh Hs Hw Hfam. assert (MIN_ORDER <= o < MAX_ORDER) as Ho.
  { destruct Hfam as (HF & _). apply Forall_cons in HF as [[? _ _ _ _] _]. done. }
  apply push_spec; try done. rewrite <- blks_add in Hfam by done.
  pose proof (order_count z _ o Hw Hfam Ho) as Hcnt. rewrite fupd_eq in Hcnt.
  specialize (Hs (order_to_index o) (order_index o Ho)). unfold page_share in Hs.
  replace (order_to_index o + MIN_ORDER) with o in Hs by (unfold order_to_index; lia).
  unfold zlen in *. simpl length in Hcnt. rewrite capacity_510 in *.
  pose proof (Z.mul_succ_div_gt (max_blocks (zone_start_pfn z) (zone_end_pfn z) o) 510). lia.
Qed.

(** ** Allocation *)

Lemma zone_heads_twice hd ty fa fa' t : zone_heads (zone_heads hd ty fa) ty fa' t = zone_heads hd ty fa' t.
Proof. unfold zone_heads. by case_decide. Qed.

Lemma heads_ok_upd hd z fa :
  zlen fa = ORDER_COUNT -> heads_ok (zone_heads hd (zn_type z) fa) (zn_with_area z fa).
Proof. intros Hl. split; [done|]. intros i. unfold zone_heads; simpl. by rewrite decide_True. Qed.

Lemma alloc_find_spec hd B C z : forall k m o,
  bags m hd B C -> heads_ok hd z -> MIN_ORDER <= o -> o + Z.of_nat k = MAX_ORDER ->
  (forall o x, MIN_ORDER <= o < MAX_ORDER -> x ∈ B (zn_type z, order_to_index o) -> x <> 0) ->
  exists m' a o', alloc_find k m z o = Some (m', a, o') /\
    (a = 0 /\ (forall o'', o <= o'' < MAX_ORDER -> B (zn_type z, order_to_index o'') = []) /\ bags m' hd B C \/
     a <> 0 /\ o <= o' < MAX_ORDER /\ exists rest, B (zn_type z, order_to_index o') ≡ₚ a :: rest /\
       bags m' hd (fupd B (zn_type z, order_to_index o') rest) C).
Proof.
  induction k as [|k IH]; intros m o Hb Hh Ho Hk Hnz; cbn [alloc_find].
  { exists m, 0, o. split; [done|]. left. split_and!; try done. lia. }
  destruct (pop_spec m hd B C z o Hb Hh) as (m' & r & -> & Hr); [lia|]. cbn [mbind option_bind].
  destruct Hr as [(-> & He & Hb')|(rest & Hp & Hb')].
  - simpl. destruct (IH m' (o + 1)) as (m'' & a & o' & -> & Hres); try done; [lia|lia|].
    exists m'', a, o'. split; [done|]. destruct Hres as [(? & Hall & ?)|(? & ? & ?)]; [left|right].
    + split_and!; try done. intros o'' ?. destruct (decide (o'' = o)) as [->|]; [done|]. apply Hall. lia.
    + split_and!; try done; lia.
  - assert (r <> 0) as Hr0 by (apply (Hnz o); [lia|]; rewrite Hp; by left).
    replace (r =? 0) with false by lia. simpl. exists m', r, o. split; [done|]. right.
    split_and!; [done|lia|lia|]. eauto.
Qed.

(** The upper halves handed back while a block at [a] is split from order
    [target + k] down to [target]. *)
Definition halves (a target k : Z) : list block := (fun o => (o, a + 2 ^ o)) <$> seqZ target k.

Lemma halves_succ a target k :
  0 <= k -> halves a target (k + 1) = halves a target k ++ [(target + k, a + 2 ^ (target + k))].
Proof.
  intros. unfold halves. rewrite seqZ_app by lia. by rewrite fmap_app.
Qed.

Lemma halves_pages a target k : MIN_ORDER <= target -> 0 <= k ->
  pages_of (target + k, a) ≡ₚ pages_of (target, a) ++ frees (halves a target k).
Proof.
  intros Ht. apply (natlike_ind (fun k => pages_of (target + k, a) ≡ₚ pages_of (target, a) ++ frees (halves a target k))).
  - rewrite Z.add_0_r. unfold halves; simpl. by rewrite app_nil_r.
  - intros j Hj IH. unfold Z.succ. rewrite Z.add_assoc, pages_of_halves, halves_succ by lia.
    unfold frees in *. rewrite bind_app, IH. simpl. rewrite app_nil_r. by rewrite app_assoc.
Qed.

Lemma alloc_split_spec z a target C : forall k m hd B fa0,
  bags m hd B C -> heads_ok hd (zn_with_area z fa0) -> shares_ok C z -> zone_wf z ->
  MIN_ORDER <= target -> target + Z.of_nat k < MAX_ORDER -> 0 <= a -> a + 2 ^ (target + Z.of_nat k) < two64 ->
  family z (halves a target (Z.of_nat k) ++ blks B (zn_type z)) ->
  exists m' fa' B', alloc_split k m (zn_with_area z fa0) a (target + Z.of_nat k) = Some (m', zn_with_area z fa') /\
    zlen fa' = ORDER_COUNT /\ bags m' (zone_heads hd (zn_type z) fa') B' C /\
    (forall t, t.1 <> zn_type z -> B' t = B t) /\
    blks B' (zn_type z) ≡ₚ halves a target (Z.of_nat k) ++ blks B (zn_type z).
Proof.
  induction k as [|k IH]; intros m hd B fa0 Hb Hh Hs Hw Ht Hk Ha Hend Hfam.
  { exists m, fa0, B. split; [done|]. split_and!; try done; [by destruct Hh|].
    eapply bags_ext; [| | |exact Hb]; [|done|done]. apply (zone_heads_same hd (zn_with_area z fa0) Hh). }
  cbn [alloc_split]. replace (target + Z.of_nat (S k) - 1) with (target + Z.of_nat k) by lia.
  rewrite order_to_bytes_pow by (olia).
  assert (0 < 2 ^ (target + Z.of_nat k)) by (apply pow2_pos; olia).
  assert (2 ^ (target + Z.of_nat k) <= 2 ^ (target + Z.of_nat (S k)))
    by (apply Z.pow_le_mono_r; olia).
  rewrite u64_id by lia.
  rewrite Nat2Z.inj_succ, <- Z.add_1_r, halves_succ in Hfam by lia.
  assert (family z (halves a target (Z.of_nat k) ++ (target + Z.of_nat k, a + 2 ^ (target + Z.of_nat k)) :: blks B (zn_type z)))
    as Hfam1 by (by rewrite <- app_assoc in Hfam).
  destruct (push_block_spec m hd B C (zn_with_area z fa0) (target + Z.of_nat k) (a + 2 ^ (target + Z.of_nat k)))
    as (m1 & fa1 & -> & Hl1 & Hb1); try done.
  { by apply family_app in Hfam1. }
  cbn [mbind option_bind].
  change (zn_with_area (zn_with_area z fa0) fa1) with (zn_with_area z fa1) in *.
  change (zn_type (zn_with_area z fa0)) with (zn_type z) in *.
  edestruct (IH m1 _ _ fa1 Hb1) as (m2 & fa2 & B2 & -> & Hl2 & Hb2 & Ho & HL); try done; [|lia|lia| |].
  { exact (heads_ok_upd hd z fa1 Hl1). }
  { rewrite blks_add by lia. done. }
  exists m2, fa2, B2. split_and!; try done.
  - eapply bags_ext; [| | |exact Hb2]; [|done|done]. intros t. by rewrite zone_heads_twice.
  - intros t Hne. rewrite Ho by done. apply fupd_ne. intros ->. by apply Hne.
  - rewrite HL, blks_add by lia. rewrite Nat2Z.inj_succ, <- Z.add_1_r, halves_succ by lia. solve_Permutation.
Qed.

(** Splitting keeps the free lists fully merged: the buddy of a half handed
    back is the part that stays out of the lists. *)
Lemma halves_coalesced L Lrest src target a k :
  L ≡ₚ (src, a) :: Lrest -> NoDup (frees L) -> coalesced L -> MIN_ORDER <= target -> 0 <= k ->
  src = target + k -> (2 ^ src | a) -> coalesced (halves a target k ++ Lrest).
Proof.
  intros HL Hnd Hc Ht Hk -> Ha. rewrite HL, frees_cons in Hnd.
  assert (forall o, MIN_ORDER <= o -> (o, a) ∉ Lrest) as Hout.
  { intros o Ho. eapply frees_sep; [exact Hnd|done|]. apply elem_pages_of. simpl.
    assert (0 < 2 ^ (target + k - MIN_ORDER)) by (apply pow2_pos; lia). lia. }
  assert (forall o x, (o, x) ∈ halves a target k -> x = a + 2 ^ o /\ Z.lxor x (2 ^ o) = a /\ MIN_ORDER <= o) as Hhalf.
  { intros o x (o' & [= <- ->] & Hin%elem_of_seqZ)%list_elem_of_fmap.
    assert (0 <= o) by (olia). assert (0 < 2 ^ o) by by apply pow2_pos.
    split_and!; [done| |lia]. assert (2 ^ (o + 1) | a) as [j ->] by (apply (divide_pow2_le _ (target + k)); [lia|done]).
    rewrite Z.pow_add_r, Z.pow_1_r by lia. rewrite lxor_buddy by (try done; exists (2 * j + 1); lia).
    replace (j * (2 ^ o * 2) + 2 ^ o) with ((2 * j + 1) * 2 ^ o) by lia. rewrite Z.div_mul by lia.
    rewrite Z.odd_add, Z.odd_mul. simpl. lia. }
  intros o x Hin Ho Hbin. apply elem_of_app in Hin as [Hin|Hin], Hbin as [Hbin|Hbin].
  - destruct (Hhalf _ _ Hin) as (-> & E & ?), (Hhalf _ _ Hbin) as (E' & _ & ?). rewrite E in E'.
    assert (0 < 2 ^ o) by (apply pow2_pos; olia). lia.
  - destruct (Hhalf _ _ Hin) as (-> & E & ?). rewrite E in Hbin. by eapply Hout.
  - destruct (Hhalf _ _ Hbin) as (E' & E & ?). rewrite buddy_involutive in E. subst x. by eapply Hout.
  - eapply (Hc o x); [|done|]; rewrite HL; by right.
Qed.

(** Splitting the block [(src, a)] of a family: what stays on the lists is a
    family, and the block handed out takes exactly its own pages away. *)
Lemma split_family z L Lr src target a :
  family z L -> L ≡ₚ (src, a) :: Lr -> MIN_ORDER <= target <= src ->
  family z (halves a target (src - target) ++ Lr) /\ block_ok z (target, a) /\
  frees L ≡ₚ pages_of (target, a) ++ frees (halves a target (src - target) ++ Lr).
Proof.
  intros (HF & Hnd & Hco) HL Ht. rewrite Forall_forall in HF.
  assert (block_ok z (src, a)) as [Ho Hal Hs He Hpos] by (apply HF; rewrite HL; by left). simpl in *.
  assert (0 < 2 ^ target <= 2 ^ src) by (split; [apply pow2_pos|apply Z.pow_le_mono_r]; olia).
  assert (frees L ≡ₚ pages_of (target, a) ++ frees (halves a target (src - target) ++ Lr)) as Hfr.
  { rewrite HL, frees_cons. replace src with (target + (src - target)) at 1 by lia.
    rewrite halves_pages by lia. unfold frees. rewrite bind_app. by rewrite app_assoc. }
  split; [|split; [|done]].
  - split_and!.
    + apply Forall_app. split; apply Forall_forall; intros b.
      * intros (o & -> & Hin%elem_of_seqZ)%list_elem_of_fmap.
        assert (0 < 2 ^ o /\ 2 ^ (o + 1) <= 2 ^ src) as [? Hle]
          by (split; [apply pow2_pos|apply Z.pow_le_mono_r]; olia).
        rewrite Z.pow_add_r, Z.pow_1_r in Hle by (olia).
        constructor; simpl; [lia| |lia|lia|lia].
        apply Z.divide_add_r; [|done]. apply (divide_pow2_le _ src); [olia|done].
      * intros Hbin. apply HF. rewrite HL. by right.
    + rewrite Hfr in Hnd. by apply NoDup_app in Hnd as (_ & _ & ?).
    + apply (halves_coalesced L Lr src target a); try done; lia.
  - constructor; simpl; try done; try lia. apply (divide_pow2_le _ src); [olia|done].
Qed.

(** What a call on zone [z] leaves: a new head array, bags for its lists,
    the other zones' bags. *)
Definition zone_step (m : meta) (hd : tag -> option Z) (B : tag -> list Z) (C : tag -> Z) (z : zone_t)
    (m' : meta) (fa' : list Z) (B' : tag -> list Z) : Prop :=
  zlen fa' = ORDER_COUNT /\ bags m' (zone_heads hd (zn_type z) fa') B' C /\
  forall t, t.1 <> zn_type z -> B' t = B t.

Lemma alloc_order_spec m hd B C z target :
  bags m hd B C -> heads_ok hd z -> shares_ok C z -> zone_wf z -> family z (blks B (zn_type z)) ->
  MIN_ORDER <= target < MAX_ORDER ->
  exists m' fa' B' a, buddy_alloc_order_locked m z target = Some (m', zn_with_area z fa', a) /\
    zone_step m hd B C z m' fa' B' /\
    (a = 0 /\ blks B' (zn_type z) = blks B (zn_type z) /\ (forall o x, (o, x) ∈ blks B (zn_type z) -> o < target) \/
     block_ok z (target, a) /\
     frees (blks B (zn_type z)) ≡ₚ pages_of (target, a) ++ frees (blks B' (zn_type z)) /\
     family z (blks B' (zn_type z))).
Proof.
  intros Hb Hh Hsh Hw Hfam Ht. pose proof Hw as (Hw0 & Hw1 & Hw2). set (ty := zn_type z) in *.
  pose proof Hfam as (HF & _). rewrite Forall_forall in HF. unfold buddy_alloc_order_locked.
  destruct (alloc_find_spec hd B C z (Z.to_nat (MAX_ORDER - target)) m target) as (m1 & a & src & -> & Hres);
    try done; [lia|lia| |].
  { intros o x Ho Hx. assert (block_ok z (o, x)) as [_ _ _ _ ?] by by apply HF, elem_blks. simpl in *. lia. }
  cbn [mbind option_bind]. destruct Hres as [(-> & Hnone & Hb1)|(Ha & Hsrc & rest & HB & Hb1)].
  - exists m1, (free_area z), B, 0. split; [by destruct z|]. split.
    { split_and!; [by destruct Hh| |done]. eapply bags_ext; [| | |exact Hb1]; [|done|done].
      by apply zone_heads_same. }
    left. split_and!; try done. intros o x [Ho Hx]%elem_blks. destruct (decide (target <= o)); [|lia].
    rewrite Hnone in Hx by lia. by apply elem_of_nil in Hx.
  - replace (a =? 0) with false by lia.
    pose proof (blks_remove B ty src a rest ltac:(lia) HB) as HL.
    destruct (split_family z _ _ src target a Hfam HL ltac:(lia)) as (Hfam' & Hok & Hfr).
    destruct (HF (src, a)) as [_ _ Hs He Hpos]; [rewrite HL; by left|]. simpl in *.
    destruct (alloc_split_spec z a target C (Z.to_nat (src - target)) m1 hd _ (free_area z) Hb1)
      as (m2 & fa2 & B2 & E & Hl2 & Hb2 & Hoth & HL2); try done; try lia.
    { replace (target + Z.of_nat (Z.to_nat (src - target))) with src by lia. lia. }
    { by rewrite Z2Nat.id by lia. }
    replace (target + Z.of_nat (Z.to_nat (src - target))) with src in E by lia.
    replace (zn_with_area z (free_area z)) with z in E by by destruct z. rewrite E. cbn [mbind option_bind].
    rewrite Z2Nat.id in HL2 by lia. fold ty in HL2.
    exists m2, fa2, B2, a. split; [done|]. split; [|right; by rewrite HL2].
    split_and!; [done|done|]. intros t Hne. rewrite Hoth by done. apply fupd_ne. intros ->. by apply Hne.
Qed.

(** ** Freeing *)

Lemma coalesced_sub L L' : (forall b, b ∈ L' -> b ∈ L) -> coalesced L -> coalesced L'.
Proof. intros Hs Hc o a Hin Ho Hb. by eapply (Hc o a); eauto. Qed.

(** A block and its buddy make a block of the next order. *)
Lemma merge_ok z o a :
  block_ok z (o, a) -> block_ok z (o, Z.lxor a (2 ^ o)) -> o < MAX_ORDER - 1 ->
  let lo := if Z.lxor a (2 ^ o) <? a then Z.lxor a (2 ^ o) else a in
  block_ok z (o + 1, lo) /\
  pages_of (o + 1, lo) ≡ₚ pages_of (o, a) ++ pages_of (o, Z.lxor a (2 ^ o)).
Proof.
  intros [Ho Ha Hs He Hp] [_ Hb Hsb Heb Hpb] Hlt lo. simpl in *.
  destruct (buddy_merge a o) as [Hal Hcase]; [olia|done|]. fold lo in Hal, Hcase.
  split.
  - constructor; simpl; [olia|done|lia| |lia]. rewrite Z.pow_add_r, Z.pow_1_r by olia.
    destruct Hcase as [[-> E]|[-> E]]; lia.
  - rewrite pages_of_halves by lia. destruct Hcase as [[-> ->]|[-> E]]; [done|].
    rewrite <- E. apply Permutation_app_comm.
Qed.

Lemma block_ok_valid z o a : zone_wf z -> block_ok z (o, a) -> zone_block_valid z a o = true.
Proof.
  intros Hw [Ho Ha Hs He Hp]. pose proof Hw as (_ & _ & ?). simpl in *.
  assert (0 < 2 ^ o) by (apply pow2_pos; olia). apply zone_block_valid_spec; [done|lia|done].
Qed.

Lemma free_merge_spec hd C z : forall k m B a o,
  bags m hd B C -> heads_ok hd z -> zone_wf z ->
  Forall (block_ok z) (blks B (zn_type z)) -> coalesced (blks B (zn_type z)) ->
  block_ok z (o, a) -> NoDup (pages_of (o, a) ++ frees (blks B (zn_type z))) ->
  o + Z.of_nat k = MAX_ORDER - 1 ->
  exists m' a' o' B', free_merge k m z a o = Some (m', a', o') /\ bags m' hd B' C /\
    (forall t, t.1 <> zn_type z -> B' t = B t) /\ block_ok z (o', a') /\
    pages_of (o', a') ++ frees (blks B' (zn_type z)) ≡ₚ pages_of (o, a) ++ frees (blks B (zn_type z)) /\
    Forall (block_ok z) (blks B' (zn_type z)) /\ coalesced (blks B' (zn_type z)) /\
    (o' < MAX_ORDER - 1 -> (o', Z.lxor a' (2 ^ o')) ∉ blks B' (zn_type z)).
Proof.
  induction k as [|k IH]; intros m B a o Hb Hh Hw HF Hc Hok Hnd Hk; cbn [free_merge].
  { exists m, a, o, B. split_and!; try done. lia. }
  pose proof (bo_order _ _ _ Hok) as Ho; simpl in Ho. rewrite order_to_bytes_pow by olia.
  set (ty := zn_type z) in *. set (bud := Z.lxor a (2 ^ o)).
  destruct (zone_block_valid z bud o) eqn:Ev; cbn [negb].
  2:{ exists m, a, o, B. split_and!; try done. intros _ Hin. rewrite Forall_forall in HF.
      apply HF, block_ok_valid in Hin; [|done]. fold bud in Hin. congruence. }
  destruct (take_spec m hd B C z o bud Hb Hh Ho) as (m1 & taken & -> & Ht). cbn [mbind option_bind].
  destruct taken; cbn [negb].
  2:{ destruct Ht as [Hn Hb1]. exists m1, a, o, B. split_and!; try done. intros _ Hin. apply Hn.
      by apply elem_blks in Hin as [_ ?]. }
  destruct Ht as (blk & HB & Hb1). pose proof (blks_remove B ty o bud blk Ho HB) as HL.
  set (B1 := fupd B _ blk) in *.
  assert (block_ok z (o, bud)) as Hokb by (rewrite Forall_forall in HF; apply HF; rewrite HL; by left).
  destruct (merge_ok z o a Hok Hokb) as [Hok' Hpg]; [lia|]. fold bud in Hok', Hpg.
  set (lo := if bud <? a then bud else a) in *.
  assert (pages_of (o + 1, lo) ++ frees (blks B1 ty) ≡ₚ pages_of (o, a) ++ frees (blks B ty)) as Hperm.
  { rewrite Hpg, HL, frees_cons. by rewrite app_assoc. }
  destruct (IH m1 B1 lo (o + 1)) as (m2 & a' & o' & B' & E & Hb2 & Hoth & Hok2 & Hp2 & HF2 & Hc2 & Hlast); try done.
  { rewrite HL in HF. by apply Forall_cons in HF as [_ ?]. }
  { eapply coalesced_sub; [|exact Hc]. intros b ?. rewrite HL. by right. }
  { by rewrite Hperm. } { lia. }
  exists m2, a', o', B'. split_and!; try done; [|by rewrite Hp2].
  intros t Hne. rewrite Hoth by done. apply fupd_ne. intros ->. by apply Hne.
Qed.

(** Adding the merged block keeps the lists fully merged. *)
Lemma coalesced_cons L o a :
  0 <= o -> (2 ^ o | a) -> coalesced L -> (o < MAX_ORDER - 1 -> (o, Z.lxor a (2 ^ o)) ∉ L) ->
  coalesced ((o, a) :: L).
Proof.
  intros Ho Ha Hc Hlast o2 a2. rewrite !elem_of_cons. intros [[= -> ->]|Hin] Hlt [E|Hbin].
  - injection E as E. assert (0 < 2 ^ o) by (by apply pow2_pos).
    pose proof (lxor_buddy a o Ho Ha) as E'. rewrite E in E'. destruct (Z.odd _); lia.
  - exact (Hlast Hlt Hbin).
  - injection E as -> E. apply (Hlast Hlt). by rewrite <- E, buddy_involutive.
  - exact (Hc _ _ Hin Hlt Hbin).
Qed.

Lemma free_locked_spec m hd B C z a o :
  bags m hd B C -> heads_ok hd z -> shares_ok C z -> zinv z (blks B (zn_type z)) -> block_ok z (o, a) ->
  NoDup (pages_of (o, a) ++ frees (blks B (zn_type z))) ->
  exists m' fa' B' z', buddy_free_zone_locked m z a o = Some (m', z') /\
    z' = zn_with_free (zn_with_area z fa') (free_pages z + 2 ^ (o - MIN_ORDER)) /\
    zone_step m hd B C z m' fa' B' /\ zinv z' (blks B' (zn_type z)) /\
    frees (blks B' (zn_type z)) ≡ₚ pages_of (o, a) ++ frees (blks B (zn_type z)).
Proof.
  intros Hb Hh Hsh [Hw HF Hn Hfp Hc] Hok Hnd. pose proof (bo_order _ _ _ Hok) as Ho; simpl in Ho.
  unfold buddy_free_zone_locked.
  destruct (free_merge_spec hd C z (Z.to_nat (MAX_ORDER - 1 - o)) m B a o)
    as (m1 & a' & o' & B1 & -> & Hb1 & Hoth & Hok1 & Hp1 & HF1 & Hc1 & Hlast); try done; [olia|].
  cbn [mbind option_bind]. pose proof (bo_order _ _ _ Hok1) as Ho1; simpl in Ho1.
  assert (family z ((o', a') :: blks B1 (zn_type z))) as (HF2 & Hnd2 & Hc2).
  { split_and!; [by apply Forall_cons|by rewrite frees_cons, Hp1|].
    apply coalesced_cons; try done; [olia|apply (bo_align _ _ _ Hok1)]. }
  destruct (push_block_spec m1 hd B1 C z o' a') as (m2 & fa & -> & Hl & Hb2); try done. cbn [mbind option_bind].
  set (B2 := fupd B1 _ _) in *.
  assert (blks B2 (zn_type z) ≡ₚ (o', a') :: blks B1 (zn_type z)) as HL by (apply blks_add; done).
  assert (frees (blks B2 (zn_type z)) ≡ₚ pages_of (o, a) ++ frees (blks B (zn_type z))) as Hfr
    by by rewrite HL, frees_cons.
  assert (Forall (block_ok z) (blks B2 (zn_type z))) as HF3 by by rewrite HL.
  assert (zlen (frees (blks B2 (zn_type z))) = 2 ^ (o - MIN_ORDER) + free_pages z) as Hlen.
  { rewrite Hfr, Hfp. unfold zlen at 1. rewrite length_app, Nat2Z.inj_add. fold (zlen (pages_of (o, a))).
    rewrite zlen_pages_of by lia. done. }
  pose proof (frees_bound z _ Hw HF3) as Hbnd. rewrite Hfr in Hbnd. specialize (Hbnd Hnd). rewrite <- Hfr, Hlen in Hbnd.
  pose proof Hw as (? & ? & ?). assert (0 < 2 ^ (o - MIN_ORDER)) by (apply pow2_pos; lia).
  pose proof (zlen_nonneg (frees (blks B (zn_type z)))).
  simpl. rewrite order_to_pages_pow, u64_id by (unfold PAGE_SIZE in *; lia).
  eexists m2, fa, B2, _. split; [done|]. split; [done|]. split; [|split; [|done]].
  - split_and!; try done. intros t Hne. unfold B2. rewrite fupd_ne; [by apply Hoth|]. intros ->. by apply Hne.
  - constructor; try done; simpl; [by rewrite Hfr|lia|]. eapply coalesced_sub; [|exact Hc2].
    intros b. by rewrite HL.
Qed.
