(* ===== verification/BuddySys.v ===== *)
(** * The frame allocator as a whole

    The invariant that ties zones, metadata, the bitmap of handed-out frames
    and the page counters together, and its preservation by [alloc_frames],
    [free_frames] and the calls built on them. *)

From stdpp Require Import gmap.
From S2P Require Import Prelude Bitmap PageRef PageList Buddy BuddyInv.

(** ** Request sizes *)

Lemma shiftl1_pow j : 0 <= j -> Z.shiftl (2 ^ j) 1 = 2 ^ (j + 1).
Proof. intros. rewrite Z.shiftl_mul_pow2, <- Z.pow_add_r by lia. done. Qed.

Lemma round_up_loop_spec count : forall fuel j,
  1 <= count < two64 -> 0 <= j <= 63 -> 65 <= j + Z.of_nat fuel -> (j = 0 \/ 2 ^ (j - 1) < count) ->
  exists r, round_up_loop fuel (2 ^ j) count = Some r /\
    match r with
    | None => 2 ^ 63 < count
    | Some p => exists k, p = 2 ^ k /\ 0 <= k <= 63 /\ count <= p /\ (k = 0 \/ 2 ^ (k - 1) < count)
    end.
Proof.
  induction fuel as [|fuel IH]; intros j Hc Hj Hf Hlow; [lia|]. cbn [round_up_loop].
  assert (2 ^ j <= 2 ^ 63) by (apply Z.pow_le_mono_r; lia). change (2 ^ 63) with two63 in *.
  case_if; [|eexists; split; [done|]; exists j; split_and!; try done; lia].
  change (Z.shiftr SIZE_MAX 1) with (two63 - 1). case_if.
  - eexists; split; [done|]. simpl. lia.
  - assert (j < 63). { destruct (decide (j = 63)) as [->|]; [|lia]. change (2 ^ 63) with two63 in *. lia. }
    rewrite shiftl1_pow by lia. assert (2 ^ (j + 1) <= 2 ^ 63) by (apply Z.pow_le_mono_r; lia).
    change (2 ^ 63) with two63 in *. assert (0 < 2 ^ (j + 1)) by (apply pow2_pos; lia).
    rewrite u64_id by lia. apply IH; try lia. right. replace (j + 1 - 1) with j by lia. lia.
Qed.

Lemma log_loop_spec : forall fuel k o,
  0 <= k -> k < Z.of_nat fuel -> log_loop fuel (2 ^ k) o = Some (o + k).
Proof.
  induction fuel as [|fuel IH]; intros k o Hk Hf; [lia|]. cbn [log_loop].
  destruct (decide (k = 0)) as [->|]; [simpl; f_equal; lia|].
  assert (2 ^ 1 <= 2 ^ k) by (apply Z.pow_le_mono_r; lia). change (2 ^ 1) with 2 in *. case_if; [|lia].
  rewrite Z.shiftr_div_pow2 by lia. rewrite <- Z.pow_sub_r by lia. rewrite IH by lia. f_equal. lia.
Qed.

(** [count_to_order] rounds a request up to the least power of two of pages,
    and refuses exactly the requests above the largest block. *)
Lemma count_to_order_spec count :
  1 <= count < two64 ->
  exists r, count_to_order count = Some r /\
    match r with
    | None => 2 ^ 18 < count
    | Some (o, p) => MIN_ORDER <= o < MAX_ORDER /\ p = 2 ^ (o - MIN_ORDER) /\ count <= p /\
        (p = 1 \/ p < 2 * count)
    end.
Proof.
  intros Hc. unfold count_to_order. replace (count =? 0) with false by lia.
  destruct (round_up_loop_spec count 65 0) as (r & Hr & Hs); [done|lia|lia|by left|].
  change (2 ^ 0) with 1 in Hr. rewrite Hr. cbn [mbind option_bind].
  rewrite order_to_pages_pow by olia. change (2 ^ (MAX_ORDER - 1 - MIN_ORDER)) with (2 ^ 18).
  destruct r as [p|]; [|eexists; split; [done|]; simpl; change (2 ^ 63) with two63 in Hs; change (2 ^ 18) with 262144; lia].
  destruct Hs as (k & -> & Hk & Hle & Hmin). case_if.
  - eexists; split; [done|]. assert (18 < k) by (apply (Z.pow_lt_mono_r_iff 2); lia).
    assert (2 ^ 18 <= 2 ^ (k - 1)) by (apply Z.pow_le_mono_r; lia). simpl. destruct Hmin; lia.
  - assert (k <= 18) by (apply (Z.pow_le_mono_r_iff 2); lia).
    rewrite log_loop_spec by lia. cbn [mbind option_bind].
    replace (order_valid (MIN_ORDER + k)) with true by (unfold order_valid; olia). cbn [negb].
    eexists; split; [done|]. simpl. split_and!; [olia|olia|f_equal; lia|done|].
    destruct Hmin as [->|Hmin]; [by left|]. destruct (decide (k = 0)) as [->|]; [by left|right].
    replace k with (k - 1 + 1) at 1 by lia. rewrite Z.pow_add_r, Z.pow_1_r by lia. lia.
Qed.

(** ** The invariant *)

(** The heads of the free lists of all zones. *)
Definition heads (s : memsys) : tag -> option Z :=
  fun t => z ← ms_zones s t.1; zget (free_area z) t.2.

Record zone_good (ty : zone_type) (z : zone_t) (L : list block) : Prop := {
  zg_type : zn_type z = ty;
  zg_area : zlen (free_area z) = ORDER_COUNT;
  zg_lock : zn_lock z = false;
  zg_inv : zinv z L;
  zg_range : forall p, zone_start_pfn z <= p < zone_end_pfn z -> phys_to_zone_type (p * PAGE_SIZE) = ty;
}.

(** [B] are the free blocks of every list, [pm] the page counters, [C] the
    lists' shares of the metadata pool, which cover every way to fill the
    zones. Frames on a free list are not marked in the bitmap and not
    referenced. *)
Record mem_ok (s : memsys) (B : tag -> list Z) (pm : list Z) (C : tag -> Z) : Prop := {
  mo_bags : bags (ms_md s) (heads s) B C;
  mo_zone : forall ty z, ms_zones s ty = Some z -> zone_good ty z (blks B ty);
  mo_shares : forall ty z, ms_zones s ty = Some z -> shares_ok C z;
  mo_using : bitmap_wf (ms_using s) /\ bm_lock (ms_using s) = false;
  mo_maps : page_maps (ms_ref s) = Some pm;
  mo_cover : forall ty z, ms_zones s ty = Some z ->
    zone_end_pfn z <= bm_length (ms_using s) /\ zone_end_pfn z <= zlen pm;
  mo_free : forall ty z p, ms_zones s ty = Some z -> p ∈ frees (blks B ty) ->
    bit (ms_using s) p = false /\ zget pm p = Some 0;
}.

Lemma mem_ok_heads s B pm C ty z : mem_ok s B pm C -> ms_zones s ty = Some z -> heads_ok (heads s) z.
Proof.
  intros H Hz. destruct (mo_zone _ _ _ _ H _ _ Hz) as [<- Hl _ _ _]. split; [done|].
  intros i. unfold heads; simpl. by rewrite Hz.
Qed.

(** Reads of a state with one zone replaced. *)
Lemma zones_with_zone s ty z ty' :
  ms_zones (with_zone s ty z) ty' = if decide (ty' = ty) then Some z else ms_zones s ty'.
Proof. done. Qed.

Lemma heads_with_zone s ty z z' fa t :
  ms_zones s ty = Some z -> free_area z' = fa -> heads (with_zone s ty z') t = zone_heads (heads s) ty fa t.
Proof. intros Hz Hf. unfold heads, zone_heads; simpl. case_decide; simpl; [by rewrite Hf|done]. Qed.

Lemma bags_heads m hd hd' B C : (forall t, hd' t = hd t) -> bags m hd B C -> bags m hd' B C.
Proof. intros E. by apply bags_ext. Qed.

Lemma blks_other B B' ty ty' : (forall t, t.1 <> ty -> B' t = B t) -> ty' <> ty -> blks B' ty' = blks B ty'.
Proof. intros E Hne. apply blks_ext. intros i. by apply E. Qed.

(** ** One zone changes *)

Lemma mem_ok_irq s B pm C b : mem_ok s B pm C -> mem_ok (with_irq s b) B pm C.
Proof. intros []. by constructor. Qed.

Lemma zinv_ext z z' L :
  zone_start_pfn z' = zone_start_pfn z -> zone_end_pfn z' = zone_end_pfn z -> free_pages z' = free_pages z ->
  zinv z L -> zinv z' L.
Proof.
  intros E1 E2 E3 []. constructor; unfold zone_wf, block_ok in *; by rewrite ?E1, ?E2, ?E3.
Qed.

(** Replacing zone [ty] by one with the same range. *)
Lemma mem_ok_zone s B pm C ty z m' z' B' :
  mem_ok s B pm C -> ms_zones s ty = Some z ->
  zone_start_pfn z' = zone_start_pfn z -> zone_end_pfn z' = zone_end_pfn z -> zn_type z' = ty ->
  zn_lock z' = false -> zinv z' (blks B' ty) ->
  zlen (free_area z') = ORDER_COUNT -> bags m' (zone_heads (heads s) ty (free_area z')) B' C ->
  (forall t, t.1 <> ty -> B' t = B t) ->
  (forall p, p ∈ frees (blks B' ty) -> bit (ms_using s) p = false /\ zget pm p = Some 0) ->
  mem_ok (with_zone (with_md s m') ty z') B' pm C.
Proof.
  intros [Hb Hz Hsh Hu Hm Hc Hf] Ez E1 E2 E3 E4 Hi Hl Hb' Ho Hfr.
  assert (forall ty' z'', ms_zones (with_zone (with_md s m') ty z') ty' = Some z'' ->
    ty' = ty /\ z'' = z' \/ ty' <> ty /\ ms_zones s ty' = Some z'') as Hcase.
  { intros ty' z''. rewrite zones_with_zone. case_decide as E; [intros [= <-]; left; done|]. intros ?. by right. }
  constructor; try done.
  - eapply bags_heads; [|exact Hb']. intros t. by apply (heads_with_zone (with_md s m') ty z).
  - intros ty' z'' [[-> ->]|[Hne Hz'']]%Hcase.
    + destruct (Hz ty z Ez). constructor; try done. intros p. rewrite E1, E2. auto.
    + rewrite (blks_other B B' ty ty' Ho Hne). by apply Hz.
  - intros ty' z'' [[-> ->]|[Hne Hz'']]%Hcase; [|by eapply Hsh].
    intros i Hidx. rewrite E1, E2, E3. specialize (Hsh ty z Ez i Hidx). by rewrite (zg_type _ _ _ (Hz ty z Ez)) in Hsh.
  - intros ty' z'' [[-> ->]|[Hne Hz'']]%Hcase; [rewrite E2|]; by eapply Hc.
  - intros ty' z'' p [[-> ->]|[Hne Hz'']]%Hcase; [apply Hfr|].
    rewrite (blks_other B B' ty ty' Ho Hne). by eapply Hf.
Qed.

(** The interrupt flag is put back as it was. *)
Lemma restore_irq s b : ms_irq s = b -> forall s', ms_irq s' = false ->
  ms_irq (if b then with_irq s' true else s') = ms_irq s.
Proof. intros <- s' E. destruct (ms_irq s); [done|]. by rewrite E. Qed.

(** A block of order at least [o] has at least [2^(o-12)] pages, so too few
    free pages means no such block. *)
Lemma no_large_block z L o :
  zinv z L -> free_pages z < 2 ^ (o - MIN_ORDER) -> forall o' x, (o', x) ∈ L -> o' < o.
Proof.
  intros [_ HF _ Hfp _] Hlt o' x Hin. destruct (decide (o <= o')); [|lia]. exfalso.
  rewrite Forall_forall in HF. pose proof (bo_order _ _ _ (HF _ Hin)) as Ho; simpl in Ho.
  apply elem_of_Permutation in Hin as [L' HL]. rewrite Hfp, HL, frees_cons in Hlt.
  unfold zlen in Hlt. rewrite length_app, Nat2Z.inj_add in Hlt. fold (zlen (pages_of (o', x))) in Hlt.
  rewrite zlen_pages_of in Hlt by lia.
  assert (2 ^ (o - MIN_ORDER) <= 2 ^ (o' - MIN_ORDER)) by (apply Z.pow_le_mono_r; lia). lia.
Qed.

Definition zone_range (z : zone_t) : Z * Z := (zone_start_pfn z, zone_end_pfn z).

(** Nothing is handed out: the free blocks are as before, and here is why. *)
Definition cannot_serve (s : memsys) (B : tag -> list Z) (ty : zone_type) (count : Z) : Prop :=
  ms_zones s ty = None \/ 2 ^ 18 < count \/
  exists o p, count_to_order count = Some (Some (o, p)) /\ forall o' x, (o', x) ∈ blks B ty -> o' < o.
Definition alloc_failed (s : memsys) (B B' : tag -> list Z) (ty : zone_type) (count : Z) : Prop :=
  blks B' ty = blks B ty /\ cannot_serve s B ty count.

(** A block is handed out: it was free, it is not any more, nothing else
    changed hands. *)
Definition alloc_done (s : memsys) (B B' : tag -> list Z) (ty : zone_type) (count a : Z) : Prop :=
  exists z o p, ms_zones s ty = Some z /\ count_to_order count = Some (Some (o, p)) /\ block_ok z (o, a) /\
    frees (blks B ty) ≡ₚ pages_of (o, a) ++ frees (blks B' ty).

(** Releasing the zone's lock changes nothing else. *)
Lemma relock_zone_ok s B pm C ty z :
  mem_ok s B pm C -> ms_zones s ty = Some z -> mem_ok (with_zone (with_md s (ms_md s)) ty (zn_with_lock z false)) B pm C.
Proof.
  intros H Ez. destruct (mo_zone _ _ _ _ H _ _ Ez) as [Hty Hfa Hlk Hzi Hrange]. eapply mem_ok_zone; try done.
  - by apply (zinv_ext z).
  - eapply bags_ext; [| | |exact (mo_bags _ _ _ _ H)]; [|done|done].
    rewrite <- Hty. exact (zone_heads_same _ z (mem_ok_heads _ _ _ _ _ _ H Ez)).
  - intros q. by eapply (mo_free _ _ _ _ H).
Qed.

(** The zone after a block of order [o] was handed out. *)
Lemma zinv_take z z' L L' o a :
  zinv z L -> MIN_ORDER <= o -> frees L ≡ₚ pages_of (o, a) ++ frees L' -> Forall (block_ok z) L' -> coalesced L' ->
  zone_start_pfn z' = zone_start_pfn z -> zone_end_pfn z' = zone_end_pfn z ->
  free_pages z' = u64 (free_pages z - 2 ^ (o - MIN_ORDER)) -> zinv z' L'.
Proof.
  intros [Hw HF Hnd Hfp Hco] Ho Hfr HF' Hco' Es Ee Efp.
  assert (NoDup (pages_of (o, a) ++ frees L')) as (_ & _ & Hnd')%NoDup_app by by rewrite <- Hfr.
  constructor; unfold zone_wf, block_ok in *; rewrite ?Es, ?Ee; try done. rewrite Efp, Hfp, Hfr. unfold zlen. rewrite length_app, Nat2Z.inj_add.
  fold (zlen (pages_of (o, a))). rewrite zlen_pages_of by lia.
  replace (2 ^ (o - MIN_ORDER) + Z.of_nat (length (frees L')) - 2 ^ (o - MIN_ORDER)) with (zlen (frees L')) by (unfold zlen; lia).
  pose proof (frees_bound z _ Hw HF' Hnd'). destruct Hw as (? & ? & ?).
  pose proof (zlen_nonneg (frees L')). unfold PAGE_SIZE in *. by rewrite u64_id by lia.
Qed.

Lemma alloc_zone_spec s B pm C ty count :
  mem_ok s B pm C -> 1 <= count < two64 ->
  exists s' a B', buddy_alloc_zone s ty count = Some (s', a) /\ mem_ok s' B' pm C /\
    ms_using s' = ms_using s /\ ms_ref s' = ms_ref s /\ ms_irq s' = ms_irq s /\
    (forall ty', option_map zone_range (ms_zones s' ty') = option_map zone_range (ms_zones s ty')) /\
    (forall t, t.1 <> ty -> B' t = B t) /\
    (if a =? 0 then alloc_failed s B B' ty count else alloc_done s B B' ty count a).
Proof.
  intros H Hc. unfold buddy_alloc_zone, get_zone.
  destruct (ms_zones s ty) as [z|] eqn:Ez.
  2:{ exists s, 0, B. split_and!; try done.
      simpl. split; [done|]. by left. }
  replace (count =? 0) with false by lia.
  destruct (count_to_order_spec count Hc) as (r & Er & Hr). rewrite Er. cbn [mbind option_bind].
  destruct r as [[o p]|].
  2:{ exists s, 0, B. split_and!; try done.
      simpl. split; [done|]. by right; left. }
  destruct Hr as (Ho & -> & _ & _). destruct (mo_zone _ _ _ _ H _ _ Ez) as [Hty Hfa Hlk Hzi Hrange].
  rewrite Hlk. cbn [spin_lock mbind option_bind].
  assert (forall ty' z', zone_range z' = zone_range z ->
    option_map zone_range (if decide (ty' = ty) then Some z' else ms_zones s ty') = option_map zone_range (ms_zones s ty')) as Hends.
  { intros ty' z' E. case_decide as E'; [|done]. subst ty'. rewrite Ez. simpl. by rewrite E. }
  case_if.
  - eexists _, 0, B. split; [done|]. split_and!; try done.
    + pose proof (relock_zone_ok s B pm C ty z H Ez) as Hm.
      apply (mem_ok_irq _ _ _ _ (ms_irq s)) in Hm. by destruct (ms_irq s).
    + by destruct (ms_irq s). + by destruct (ms_irq s). + by destruct (ms_irq s).
    + intros ty'. destruct (ms_irq s); by apply Hends.
    + simpl. split; [done|]. right; right. exists o, (2 ^ (o - MIN_ORDER)). split; [done|].
      apply (no_large_block z); [done|]. simpl in *. lia.
  - change (ms_md (with_irq s false)) with (ms_md s).
    destruct (alloc_order_spec (ms_md s) (heads s) B C (zn_with_lock z true) o) as (m' & fa & B' & a & -> & (Hl & Hb & Hoth) & Hres).
    { apply H. } { apply (mem_ok_heads _ _ _ _ _ _ H Ez). }
    { exact (mo_shares _ _ _ _ H _ _ Ez). } { apply Hzi. } { simpl. rewrite Hty. split_and!; apply Hzi. } { done. }
    cbn [mbind option_bind zn_type zn_with_lock] in *. rewrite Hty in *.
    set (z1 := zn_with_area (zn_with_lock z true) fa).
    set (z2 := if negb (a =? 0) then zn_with_free z1 (u64 (free_pages z1 - 2 ^ (o - MIN_ORDER))) else z1).
    set (z' := zn_with_lock z2 (spin_unlock (zn_lock z2))).
    assert (zone_start_pfn z' = zone_start_pfn z /\ zone_end_pfn z' = zone_end_pfn z /\ zn_type z' = ty /\
      free_area z' = fa) as (Es & Ee & Et & Ef) by (unfold z', z2; destruct (a =? 0); done).
    eexists _, a, B'. split; [done|].
    assert (mem_ok (with_zone (with_md s m') ty z') B' pm C /\
      if a =? 0 then alloc_failed s B B' ty count else alloc_done s B B' ty count a) as [Hm Ha].
    { pose proof Hzi as [Hw HF Hnd Hfp Hco]. destruct Hres as [(-> & HL & Hno)|(Hok & Hfr & HF' & _ & Hco')].
      - split; [|split; [done|right; right; eauto]]. eapply mem_ok_zone; try done.
        + rewrite HL. apply (zinv_ext z); [done..|by constructor].
        + intros q. rewrite HL. by eapply (mo_free _ _ _ _ H).
      - assert (0 < a) by apply (bo_nonzero _ _ _ Hok). replace (a =? 0) with false in * by lia.
        split; [|exists z, o, (2 ^ (o - MIN_ORDER)); done].
        eapply mem_ok_zone; try done; [|by rewrite Ef|by rewrite Ef|].
        + assert (free_pages z' = u64 (free_pages z - 2 ^ (o - MIN_ORDER))) as Efp
            by (unfold z', z2; by replace (a =? 0) with false by lia).
          apply (zinv_take z z' (blks B ty) _ o a); try done; lia.
        + intros q Hq. eapply (mo_free _ _ _ _ H); [done|]. rewrite Hfr. apply elem_of_app. by right. }
    apply (mem_ok_irq _ _ _ _ (ms_irq s)) in Hm.
    split_and!; try done; [by destruct (ms_irq s)..|].
    intros ty'. destruct (ms_irq s); apply Hends; unfold zone_range; congruence.
Qed.

(** ** Trying the zones in turn *)

(** Zone [ty] is the first of [tys] that can serve the request. *)
Definition first_serving (s : memsys) (B : tag -> list Z) (tys : list zone_type) (ty : zone_type) (count : Z) : Prop :=
  exists l1 l2, tys = l1 ++ ty :: l2 /\ forall ty', ty' ∈ l1 -> cannot_serve s B ty' count.

Definition same_ranges (s s' : memsys) : Prop :=
  forall ty, option_map zone_range (ms_zones s' ty) = option_map zone_range (ms_zones s ty).

Lemma same_ranges_zone s s' ty z' :
  same_ranges s s' -> ms_zones s' ty = Some z' ->
  exists z, ms_zones s ty = Some z /\ zone_start_pfn z' = zone_start_pfn z /\ zone_end_pfn z' = zone_end_pfn z.
Proof.
  intros E Hz. specialize (E ty). rewrite Hz in E. destruct (ms_zones s ty) as [z|]; simpl in E; [|done].
  injection E as E1 E2. eauto.
Qed.

Lemma same_ranges_none s s' ty : same_ranges s s' -> ms_zones s' ty = None -> ms_zones s ty = None.
Proof. intros E Hz. specialize (E ty). rewrite Hz in E. by destruct (ms_zones s ty). Qed.

(** What the allocation calls leave alone. *)
Definition same_rest (s s' : memsys) : Prop :=
  ms_using s' = ms_using s /\ ms_ref s' = ms_ref s /\ ms_irq s' = ms_irq s /\ same_ranges s s'.

Lemma same_rest_refl s : same_rest s s.
Proof. by split_and!. Qed.
Lemma same_rest_trans s1 s2 s3 : same_rest s1 s2 -> same_rest s2 s3 -> same_rest s1 s3.
Proof.
  intros (?&?&?&Hr1) (?&?&?&Hr2). split; [|split; [|split]]; [congruence..|].
  intros ty. by rewrite Hr2, Hr1.
Qed.

Lemma try_zone_spec s B pm C ty count :
  mem_ok s B pm C -> 1 <= count < two64 ->
  exists s' a B', try_zone s ty count = Some (s', a) /\ mem_ok s' B' pm C /\
    same_rest s s' /\ (forall t, t.1 <> ty -> B' t = B t) /\
    (if a =? 0 then alloc_failed s B B' ty count else alloc_done s B B' ty count a).
Proof.
  intros H Hc. unfold try_zone. destruct (zone_has_memory (get_zone s ty)) eqn:E.
  - destruct (alloc_zone_spec s B pm C ty count H Hc) as (s' & a & B' & ? & ? & ? & ? & ? & ? & ? & ?).
    exists s', a, B'. by split_and!.
  - exists s, 0, B. split_and!; try done. split; [done|].
    unfold get_zone, zone_has_memory, cannot_serve in *. destruct (ms_zones s ty) as [z|] eqn:Ez; [|by left]. right.
    destruct (count_to_order_spec count Hc) as (r & Er & Hr). destruct r as [[o p]|]; [right|by left].
    exists o, p. split; [done|]. apply (no_large_block z).
    + by apply (mo_zone _ _ _ _ H).
    + destruct Hr as (Ho & -> & _). assert (0 < 2 ^ (o - MIN_ORDER)) by (apply pow2_pos; lia). lia.
Qed.

Lemma try_zones_spec count : forall tys s B pm C,
  mem_ok s B pm C -> 1 <= count < two64 ->
  exists s' a B', try_zones s tys count = Some (s', a) /\ mem_ok s' B' pm C /\
    same_rest s s' /\
    (if a =? 0 then (forall ty, blks B' ty = blks B ty) /\ forall ty, ty ∈ tys -> cannot_serve s B ty count
     else exists ty, first_serving s B tys ty count /\ alloc_done s B B' ty count a /\ forall ty', ty' <> ty -> blks B' ty' = blks B ty').
Proof.
  induction tys as [|ty tys IH]; intros s B pm C H Hc; cbn [try_zones].
  { exists s, 0, B. split_and!; try done. split; [done|]. by intros ty ?%elem_of_nil. }
  destruct (try_zone_spec s B pm C ty count H Hc) as (s1 & a & B1 & -> & H1 & Hr1 & Ho1 & Hres).
  cbn [mbind option_bind]. destruct (Z.eqb_spec a 0) as [->|Ha]; cbn [negb].
  - destruct Hres as [HL Hcs].
    assert (forall ty', blks B1 ty' = blks B ty') as HL1.
    { intros ty'. destruct (decide (ty' = ty)) as [->|]; [done|]. by eapply blks_other. }
    destruct (IH s1 B1 pm C) as (s2 & a & B2 & -> & H2 & Hr2 & Hres2); try done.
    exists s2, a, B2. split; [done|].
    split; [done|]. split; [by eapply same_rest_trans|].
    destruct Hr1 as (_ & _ & _ & Hrg).
    assert (forall ty', cannot_serve s1 B1 ty' count -> cannot_serve s B ty' count) as Hback.
    { intros ty' [Hz|[?|(o & p & ? & Hb)]]; [left; by eapply same_ranges_none|by right; left|].
      right; right. exists o, p. split; [done|]. by rewrite <- HL1. }
    case_if.
    + destruct Hres2 as [HL2 Hall]. split; [intros; by rewrite HL2|].
      intros ty' [->|Hin]%elem_of_cons; [done|]. by apply Hback, Hall.
    + destruct Hres2 as (ty' & (l1 & l2 & -> & Hbefore) & (z & o & p & Hz & Eo & Hok & Hfr) & Hoth). exists ty'.
      split.
      { exists (ty :: l1), l2. split; [done|]. intros ty'' [->|?]%elem_of_cons; [done|]. by apply Hback, Hbefore. }
      split; [|intros; by rewrite Hoth].
      destruct (same_ranges_zone _ _ _ _ Hrg Hz) as (z0 & Hz0 & E1 & E2). exists z0, o, p.
      split_and!; try done; [unfold block_ok in *; by rewrite <- E1, <- E2|by rewrite <- HL1].
  - exists s1, a, B1. split; [done|]. split; [done|]. split; [done|].
    replace (a =? 0) with false by lia. exists ty. split; [exists [], tys; split; [done|]; by intros ? ?%elem_of_nil|]. split; [done|].
    intros ty' Hne. by eapply blks_other.
Qed.

(** ** Marking and counting the frames of a block *)

(** The frames of a block lie in its zone. *)
Lemma block_frames z o a :
  zone_wf z -> block_ok z (o, a) ->
  zone_start_pfn z <= a / PAGE_SIZE /\ a / PAGE_SIZE + 2 ^ (o - MIN_ORDER) <= zone_end_pfn z /\
  a = a / PAGE_SIZE * PAGE_SIZE /\ 0 < 2 ^ (o - MIN_ORDER).
Proof.
  intros Hw [Ho Ha Hs He _]; simpl in *. assert (0 < 2 ^ (o - MIN_ORDER)) by (apply pow2_pos; lia).
  rewrite (pow2_pages o) in * by lia. destruct Ha as [k ->]. unfold PAGE_SIZE in *.
  rewrite Z.mul_assoc, Z.div_mul by done. split_and!; lia.
Qed.

(** [page_ref] or a reset over the frames [first .. first+i). *)
Lemma count_loop (pm : list Z) (f first cnt v : Z) (body : Z -> list Z -> option (list Z)) :
  0 <= first -> first + cnt <= zlen pm -> 0 <= cnt ->
  (forall q, first <= q < first + cnt -> zget pm q = Some f) ->
  (forall i pm', 0 <= i < cnt -> zget pm' (first + i) = Some f ->
     body i pm' = Some (<[Z.to_nat (first + i) := v]> pm')) ->
  exists pm', for_range 0 cnt body pm = Some pm' /\ zlen pm' = zlen pm /\
    forall q, zget pm' q = if within first (first + cnt) q then Some v else zget pm q.
Proof.
  intros H0 Hl Hc Hf Hbody.
  apply (for_range_inv (fun i (pm' : list Z) => zlen pm' = zlen pm /\
    forall q, zget pm' q = if within first (first + i) q then Some v else zget pm q)); [lia| |].
  - split; [done|]. intros q. unfold within. case_if; [bools; lia|done].
  - intros i pm' Hi (Hl' & Hq). assert (zget pm' (first + i) = Some f) as Hg.
    { rewrite Hq. unfold within. case_if; [bools; lia|]. apply Hf. lia. }
    rewrite (Hbody i pm' Hi Hg). eexists; split; [done|].
    pose proof (zset_ok _ _ v (zget_range _ _ _ Hg)) as Es. split; [by rewrite (zset_len _ _ _ _ Es)|].
    intros q. rewrite (zset_get _ _ q _ _ Es), Hq. unfold within. case_decide as E.
    + subst q. replace ((first <=? first + i) && (first + i <? first + (i + 1))) with true by lia. done.
    + replace (q <? first + (i + 1)) with (q <? first + i) by lia. done.
Qed.

Lemma within_pages q o a : within (a / PAGE_SIZE) (a / PAGE_SIZE + 2 ^ (o - MIN_ORDER)) q = true <-> q ∈ pages_of (o, a).
Proof. rewrite elem_pages_of. unfold within. rewrite andb_true_iff. lia. Qed.

(** The address of a frame of the block, as the loops compute it. *)
Lemma frame_index z o a i :
  zone_wf z -> block_ok z (o, a) -> 0 <= i < 2 ^ (o - MIN_ORDER) ->
  u64 (a + i * PAGE_SIZE) / PAGE_SIZE = a / PAGE_SIZE + i.
Proof.
  intros Hw Hok Hi. destruct (block_frames z o a Hw Hok) as (Hs & He & Ea & _).
  destruct Hw as (? & ? & ?). unfold PAGE_SIZE in *. rewrite u64_id by lia. rewrite Ea at 1.
  rewrite <- Z.mul_add_distr_r, Z.div_mul by done. done.
Qed.

Definition marked (s s' : memsys) (pm pm' : list Z) (o a : Z) (v : bool) (cnt : Z) : Prop :=
  bm_length (ms_using s') = bm_length (ms_using s) /\
  (forall q, 0 <= q < bm_length (ms_using s) ->
     bit (ms_using s') q = if within (a / PAGE_SIZE) (a / PAGE_SIZE + 2 ^ (o - MIN_ORDER)) q then v else bit (ms_using s) q) /\
  (forall q, zget pm' q = if within (a / PAGE_SIZE) (a / PAGE_SIZE + 2 ^ (o - MIN_ORDER)) q then Some cnt else zget pm q).

Lemma with_maps_id c pm : page_maps c = Some pm -> with_maps c pm = c.
Proof. destruct c. simpl. by intros ->. Qed.

Lemma claim_frames_spec s B pm C ty z o a :
  mem_ok s B pm C -> ms_zones s ty = Some z -> block_ok z (o, a) ->
  (forall q, q ∈ pages_of (o, a) -> zget pm q = Some 0) ->
  (forall ty' z', ms_zones s ty' = Some z' -> forall q, q ∈ frees (blks B ty') -> q ∉ pages_of (o, a)) ->
  exists s' pm', claim_frames s a (2 ^ (o - MIN_ORDER)) = Some s' /\ mem_ok s' B pm' C /\
    ms_irq s' = ms_irq s /\ ms_zones s' = ms_zones s /\ ms_ref s' = with_maps (ms_ref s) pm' /\
    marked s s' pm pm' o a true 1.
Proof.
  intros H Hz Hok Hzero Hdisj. destruct (mo_zone _ _ _ _ H _ _ Hz) as [_ _ _ [Hw _ _ _ _] _].
  destruct (mo_cover _ _ _ _ H _ _ Hz) as [Hcu Hcp]. destruct (mo_using _ _ _ _ H) as [Hwf Hlk].
  destruct (block_frames z o a Hw Hok) as (Hs & He & Ea & Hp). pose proof Hw as (Hw0 & _ & Hw2).
  set (k := a / PAGE_SIZE) in *. set (c := 2 ^ (o - MIN_ORDER)) in *.
  unfold claim_frames. fold k. rewrite u64_id by (unfold PAGE_SIZE in *; lia).
  destruct (bitmap_set_range_spec (ms_using s) k (k + c) true Hwf Hlk) as (b' & -> & Hwf' & Hsf & Hup); [lia|lia|].
  cbn [mbind option_bind]. unfold maps_of. cbn [ms_ref with_using]. rewrite (mo_maps _ _ _ _ H). cbn [mbind option_bind].
  destruct (count_loop pm 0 k c 1 (fun offset pm => page_ref pm (get_page_ref (u64 (a + offset * PAGE_SIZE)))))
    as (pm' & -> & Hl & Hq); try lia.
  { intros q Hq. apply Hzero, elem_pages_of. done. }
  { intros i pm1 Hi Hg. unfold get_page_ref. rewrite (frame_index z o a i Hw Hok Hi). fold k. by rewrite (page_ref_spec _ _ 0 Hg). }
  cbn [mbind option_bind]. eexists _, pm'. split; [done|]. destruct Hsf as (Hl1 & Hl2 & _).
  split; [|do 3 (split; [done|]); by split_and!].
  constructor; simpl; try done; try apply H.
  - by rewrite Hl1.
  - intros ty' z' Hz'. rewrite Hl2, Hl. by eapply (mo_cover _ _ _ _ H).
  - intros ty' z' q Hz' Hin. destruct (mo_free _ _ _ _ H ty' z' q Hz' Hin) as [Hb Hg].
    assert (within k (k + c) q = false) as Hn.
    { destruct (within k (k + c) q) eqn:E; [|done]. apply within_pages in E. by destruct (Hdisj _ _ Hz' _ Hin). }
    destruct (mo_zone _ _ _ _ H _ _ Hz') as [_ _ _ [Hw' HF' _ _ _] _].
    pose proof (frees_in_zone z' _ q HF' Hin). destruct (mo_cover _ _ _ _ H _ _ Hz') as [? _]. destruct Hw' as (? & _).
    rewrite Hup, Hq, Hn by lia. done.
Qed.

(** Free blocks of different zones share no frame. *)
Lemma zones_disjoint s B pm C ty ty' z z' q :
  mem_ok s B pm C -> ms_zones s ty = Some z -> ms_zones s ty' = Some z' ->
  zone_start_pfn z <= q < zone_end_pfn z -> zone_start_pfn z' <= q < zone_end_pfn z' -> ty = ty'.
Proof.
  intros H Hz Hz' Hq Hq'. destruct (mo_zone _ _ _ _ H _ _ Hz), (mo_zone _ _ _ _ H _ _ Hz').
  rewrite <- (zg_range0 q Hq). by apply zg_range1.
Qed.

Lemma alloc_frames_from_spec tys s B pm C count :
  mem_ok s B pm C -> 1 <= count < two64 ->
  exists s' a B' pm', alloc_frames_from tys s count = Some (s', a) /\
    mem_ok s' B' pm' C /\ ms_irq s' = ms_irq s /\ ms_ref s' = with_maps (ms_ref s) pm' /\ same_ranges s s' /\
    (if a =? 0
     then (forall ty, blks B' ty = blks B ty) /\ ms_using s' = ms_using s /\ pm' = pm /\
       forall ty, ty ∈ tys -> cannot_serve s B ty count
     else exists ty z o p, first_serving s B tys ty count /\ ms_zones s ty = Some z /\ count_to_order count = Some (Some (o, p)) /\
       block_ok z (o, a) /\ frees (blks B ty) ≡ₚ pages_of (o, a) ++ frees (blks B' ty) /\
       (forall ty', ty' <> ty -> blks B' ty' = blks B ty') /\ marked s s' pm pm' o a true 1).
Proof.
  intros H Hc. pose proof (with_maps_id _ _ (mo_maps _ _ _ _ H)) as Hid. unfold alloc_frames_from. replace (count =? 0) with false by lia. unfold count_to_pages.
  destruct (count_to_order_spec count Hc) as (r & Er & Hr). rewrite Er. cbn [mbind option_bind].
  destruct r as [[o p]|]; cbn [option_map snd].
  2:{ exists s, 0, B, pm. rewrite Hid. simpl. split_and!; try done. intros. by right; left. }
  destruct (try_zones_spec count tys s B pm C H Hc) as (s1 & a & B1 & -> & H1 & (Eu & Ef & Ei & Hrg) & Hres).
  cbn [mbind option_bind]. destruct (Z.eqb_spec a 0) as [->|Ha].
  { destruct Hres as [HL Hall]. exists s1, 0, B1, pm. rewrite Hid. split_and!; done. }
  destruct Hres as (ty & Hin & (z & o' & p' & Hz & Eo & Hok & Hfr) & Hoth).
  assert (o' = o /\ p' = p) as [-> ->] by (rewrite Er in Eo; injection Eo as <- <-; done).
  destruct (ms_zones s1 ty) as [z1|] eqn:Ez1; [|by rewrite (same_ranges_none _ _ _ Hrg Ez1) in Hz].
  destruct (same_ranges_zone _ _ _ _ Hrg Ez1) as (z0 & Hz0 & E1 & E2). rewrite Hz in Hz0. injection Hz0 as <-.
  assert (block_ok z1 (o, a)) as Hok1 by (unfold block_ok in *; by rewrite E1, E2).
  destruct Hr as (Ho & -> & _). destruct (mo_zone _ _ _ _ H _ _ Hz) as [_ _ _ [Hw HF Hnd _ _] _].
  destruct (claim_frames_spec s1 B1 pm _ ty z1 o a H1 Ez1 Hok1) as (s2 & pm2 & -> & H2 & Ei2 & Ez2 & Er2 & Hm).
  { intros q Hq. eapply (mo_free _ _ _ _ H ty z q Hz). rewrite Hfr. apply elem_of_app. by left. }
  { intros ty' z' Hz' q Hq Hqa. destruct (decide (ty' = ty)) as [->|Hne].
    - rewrite Hfr in Hnd. apply NoDup_app in Hnd as (_ & Hd & _). by apply (Hd q).
    - apply Hne. destruct (mo_zone _ _ _ _ H1 _ _ Hz') as [_ _ _ [_ HF' _ _ _] _].
      eapply (zones_disjoint s1 B1 pm _ ty' ty z' z1 q H1 Hz' Ez1); [by eapply frees_in_zone|].
      apply elem_pages_of in Hqa. destruct (block_frames z o a Hw Hok) as (? & ? & _). rewrite E1, E2. lia. }
  cbn [mbind option_bind]. exists s2, a, B1, pm2. split; [done|]. split; [done|]. split; [congruence|].
  split; [congruence|]. split; [intros ty'; by rewrite Ez2|]. replace (a =? 0) with false by lia. exists ty, z, o, (2 ^ (o - MIN_ORDER)). split_and!; try done.
  unfold marked in *. by rewrite Eu in Hm.
Qed.
