(* ===== verification/BuddyFree.v ===== *)
(** * Giving frames back

    [free_frames_common] and the calls built on it: the checks a block must
    pass, the all-or-nothing release of its page counts, and the return of
    the block to its zone. *)

From stdpp Require Import gmap.
From S2P Require Import Prelude Bitmap PageRef PageList Buddy BuddyInv BuddySys.

(** ** The checks *)

(** Every frame of a range satisfies a test. *)
Definition all_from (f : Z -> bool) (first : Z) (n : nat) : bool :=
  forallb f (seqZ first (Z.of_nat n)).

Lemma all_from_S f first n : all_from f first (S n) = f first && all_from f (first + 1) n.
Proof.
  unfold all_from. rewrite seqZ_cons by lia. simpl. do 3 f_equal; lia.
Qed.

Lemma all_from_true f first n :
  all_from f first n = true <-> forall q, first <= q < first + Z.of_nat n -> f q = true.
Proof.
  unfold all_from. rewrite forallb_forall. split; intros H q Hq; apply H.
  - apply list_elem_of_In, elem_of_seqZ. lia.
  - apply list_elem_of_In, elem_of_seqZ in Hq. lia.
Qed.

Lemma frames_marked_spec used usable : forall n index,
  bitmap_wf used -> bitmap_wf usable -> 0 <= index ->
  index + Z.of_nat n <= bm_length used -> index + Z.of_nat n <= bm_length usable ->
  frames_marked n index used usable = Some (all_from (fun q => bit used q && bit usable q) index n).
Proof.
  induction n as [|n IH]; intros index Hu Hv H0 H1 H2; [done|]. cbn [frames_marked].
  rewrite all_from_S, !bitmap_get_spec by (try done; lia). cbn [mbind option_bind].
  destruct (bit used index); [|done]. cbn [negb andb]. destruct (bit usable index); [|done].
  cbn [negb andb]. apply IH; try done; lia.
Qed.

Definition count_is (pm : list Z) (v q : Z) : bool := bool_decide (zget pm q = Some v).

Lemma count_is_get pm v q r : zget pm q = Some r -> count_is pm v q = (r =? v).
Proof.
  intros E. unfold count_is. rewrite E. destruct (Z.eqb_spec r v) as [->|]; [by rewrite bool_decide_eq_true_2|].
  apply bool_decide_eq_false_2. congruence.
Qed.

Section Block.
Context (z : zone_t) (o a : Z) (Hw : zone_wf z) (Hok : block_ok z (o, a)).

Lemma frame_ref i :
  0 <= i < 2 ^ (o - MIN_ORDER) -> get_page_ref (u64 (a + i * PAGE_SIZE)) = Some (a / PAGE_SIZE + i).
Proof. intros. unfold get_page_ref. by rewrite (frame_index z o a i Hw Hok). Qed.

Lemma unref_check_spec pm : forall n offset,
  0 <= offset -> offset + Z.of_nat n <= 2 ^ (o - MIN_ORDER) -> zone_end_pfn z <= zlen pm ->
  unref_check n offset pm a = Some (all_from (count_is pm 0) (a / PAGE_SIZE + offset) n).
Proof.
  induction n as [|n IH]; intros offset H0 H1 H2; [done|]. cbn [unref_check].
  rewrite all_from_S. rewrite frame_ref by lia.
  destruct (block_frames z o a Hw Hok) as (? & ? & _). pose proof Hw as (? & _).
  destruct (zget_ok pm (a / PAGE_SIZE + offset)) as [r Hr]; [lia|]. cbn [page_refcount_read]. rewrite Hr.
  cbn [mbind option_bind]. rewrite (count_is_get _ _ _ _ Hr). destruct (r =? 0); cbn [negb andb]; [|done].
  rewrite IH by lia. by rewrite Z.add_assoc.
Qed.

(** Undoing the releases of the first [k] frames. *)
Lemma rollback_spec pm k :
  0 <= k <= 2 ^ (o - MIN_ORDER) -> zone_end_pfn z <= zlen pm ->
  (forall q, a / PAGE_SIZE <= q < a / PAGE_SIZE + k -> zget pm q = Some 0) ->
  exists pm', for_range 0 k
      (fun rollback pm => page_ref pm (get_page_ref (u64 (a + rollback * PAGE_SIZE)))) pm = Some pm' /\
    zlen pm' = zlen pm /\
    forall q, zget pm' q = if within (a / PAGE_SIZE) (a / PAGE_SIZE + k) q then Some 1 else zget pm q.
Proof.
  intros Hk Hl Hz. destruct (block_frames z o a Hw Hok) as (? & ? & _). pose proof Hw as (? & _).
  apply (count_loop pm 0); try lia; [done|]. intros i pm1 Hi Hg. rewrite frame_ref by lia.
  by rewrite (page_ref_spec _ _ 0 Hg).
Qed.

(** All counters drop from one to zero, or none changes. *)
Lemma claim_loop_spec pm0 : forall n offset pm,
  zone_end_pfn z <= zlen pm0 -> zlen pm = zlen pm0 ->
  0 <= offset -> offset + Z.of_nat n = 2 ^ (o - MIN_ORDER) ->
  (forall q, within (a / PAGE_SIZE) (a / PAGE_SIZE + offset) q = true -> zget pm0 q = Some 1) ->
  (forall q, zget pm q = if within (a / PAGE_SIZE) (a / PAGE_SIZE + offset) q then Some 0 else zget pm0 q) ->
  exists pm', claim_loop n offset pm a = Some (all_from (count_is pm0 1) (a / PAGE_SIZE + offset) n, pm') /\
    zlen pm' = zlen pm0 /\
    forall q, zget pm' q =
      if all_from (count_is pm0 1) (a / PAGE_SIZE + offset) n && within (a / PAGE_SIZE) (a / PAGE_SIZE + 2 ^ (o - MIN_ORDER)) q
      then Some 0 else zget pm0 q.
Proof.
  induction n as [|n IH]; intros offset pm Hl Hlp H0 H1 Hone Hq; cbn [claim_loop].
  { exists pm. split; [done|]. split; [done|]. intros q. rewrite Hq. replace (2 ^ (o - MIN_ORDER)) with offset by lia. done. }
  rewrite all_from_S. rewrite frame_ref by lia.
  destruct (block_frames z o a Hw Hok) as (? & ? & _). pose proof Hw as (? & _).
  destruct (zget_ok pm (a / PAGE_SIZE + offset)) as [r Hr]; [lia|].
  assert (zget pm0 (a / PAGE_SIZE + offset) = Some r) as Hr0.
  { rewrite Hq in Hr. unfold within in Hr. case_if_in Hr; [bools; lia|done]. }
  rewrite (page_try_release_last_spec _ _ r Hr). rewrite (count_is_get _ _ _ _ Hr0).
  destruct (Z.eqb_spec r 1) as [->|Hne]; cbn [mbind option_bind andb].
  - pose proof (zset_ok _ _ 0 (zget_range _ _ _ Hr)) as Es.
    replace (a / PAGE_SIZE + offset + 1) with (a / PAGE_SIZE + (offset + 1)) by lia.
    apply IH; try done; try lia; [by rewrite (zset_len _ _ _ _ Es)| |].
    + intros q Hin. destruct (decide (q = a / PAGE_SIZE + offset)) as [->|]; [done|]. apply Hone.
      unfold within in *. bools. apply andb_true_iff. lia.
    + intros q. rewrite (zset_get _ _ q _ _ Es). case_decide as E.
      * subst q. unfold within. case_if; [done|bools; lia].
      * rewrite Hq. unfold within. replace (q <? a / PAGE_SIZE + (offset + 1)) with (q <? a / PAGE_SIZE + offset) by lia. done.
  - destruct (rollback_spec pm offset) as (pm' & -> & Hl' & Hq'); [lia|lia| |].
    { intros q Hin. rewrite Hq. unfold within. case_if; [done|bools; lia]. }
    cbn [mbind option_bind]. exists pm'. split; [done|]. split; [congruence|]. intros q.
    rewrite Hq', Hq. specialize (Hone q). destruct (within _ _ q); [by rewrite Hone|done].
Qed.

End Block.

(** ** The critical section *)

(** All frames of the block are handed out and usable, with [v] references
    each. *)
Definition frames_held (s : memsys) (pm : list Z) (o a v : Z) : bool :=
  let n := Z.to_nat (2 ^ (o - MIN_ORDER)) in
  all_from (fun q => bit (ms_using s) q && bit (rc_usable (ms_ref s)) q) (a / PAGE_SIZE) n &&
  all_from (count_is pm v) (a / PAGE_SIZE) n.

(** The usable-frame bitmap covers the zone. *)
Definition usable_ok (s : memsys) (z : zone_t) : Prop :=
  bitmap_wf (rc_usable (ms_ref s)) /\ zone_end_pfn z <= bm_length (rc_usable (ms_ref s)).

(** Changing marks and counters of frames on no free list. *)
Lemma mem_ok_marks s B pm C b' pm' :
  mem_ok s B pm C -> bitmap_wf b' -> bm_lock b' = false -> bm_length b' = bm_length (ms_using s) ->
  zlen pm' = zlen pm ->
  (forall ty z q, ms_zones s ty = Some z -> q ∈ frees (blks B ty) -> bit b' q = false /\ zget pm' q = Some 0) ->
  mem_ok (with_using (with_ref s (with_maps (ms_ref s) pm')) b') B pm' C.
Proof.
  intros [Hb Hz Hsh Hu Hm Hc Hf] Hw Hl Hlen Hlp Hq. constructor; try done.
  intros ty z Ez. rewrite Hlp. simpl. rewrite Hlen. by eapply Hc.
Qed.

Lemma same_ranges_with s ty z z' m :
  ms_zones s ty = Some z -> zone_range z' = zone_range z -> same_ranges s (with_zone (with_md s m) ty z').
Proof. intros Ez E ty'. simpl. case_decide as Et; [|done]. subst ty'. rewrite Ez. simpl. by rewrite E. Qed.

(** Taking and dropping the lock of a zone changes nothing. *)
Lemma mem_ok_unlocked s B pm C ty z :
  mem_ok s B pm C -> ms_zones s ty = Some z ->
  mem_ok (with_zone s ty (zn_with_lock (zn_with_lock z true) false)) B pm C.
Proof.
  intros H Ez. destruct (mo_zone _ _ _ _ H _ _ Ez) as [Hty Hfa Hlk Hzi Hrange].
  change (with_zone s ty) with (with_zone (with_md s (ms_md s)) ty). eapply mem_ok_zone; try done.
  - by apply (zinv_ext z).
  - eapply bags_ext; [| | |exact (mo_bags _ _ _ _ H)]; [|done|done].
    rewrite <- Hty. exact (zone_heads_same _ z (mem_ok_heads _ _ _ _ _ _ H Ez)).
  - intros q. by eapply (mo_free _ _ _ _ H).
Qed.

Section Free.
Context (s : memsys) (B : tag -> list Z) (pm : list Z) (C : tag -> Z) (ty : zone_type) (z : zone_t) (o a : Z).
Context (Hm : mem_ok s B pm C) (Ez : ms_zones s ty = Some z) (Hok : block_ok z (o, a)).
Context (Hus : usable_ok s z).

(** What a call leaves: the block is back, or nothing has changed. *)
Definition freed (s' : memsys) (B' : tag -> list Z) (pm' : list Z) : Prop :=
  frees (blks B' ty) ≡ₚ pages_of (o, a) ++ frees (blks B ty) /\
  (forall ty', ty' <> ty -> blks B' ty' = blks B ty') /\ marked s s' pm pm' o a false 0.
Definition untouched (s' : memsys) (B' : tag -> list Z) (pm' : list Z) : Prop :=
  (forall ty', blks B' ty' = blks B ty') /\ ms_using s' = ms_using s /\ pm' = pm.

(** Frames that are marked are on no free list. *)
Lemma held_disjoint v : frames_held s pm o a v = true -> 
  forall ty' z' q, ms_zones s ty' = Some z' -> q ∈ frees (blks B ty') -> q ∉ pages_of (o, a).
Proof.
  intros [Hh _]%andb_true_iff ty' z' q Ez' Hq Hin. destruct (mo_free _ _ _ _ Hm _ _ _ Ez' Hq) as [Hb _].
  apply elem_pages_of in Hin. rewrite all_from_true in Hh. specialize (Hh q). 
  rewrite Hb in Hh. discriminate Hh. lia.
Qed.

(** The end of the critical section, once the counters are at zero. *)
Lemma release_spec v pm' :
  frames_held s pm o a v = true -> zlen pm' = zlen pm ->
  (forall q, zget pm' q = if within (a / PAGE_SIZE) (a / PAGE_SIZE + 2 ^ (o - MIN_ORDER)) q then Some 0 else zget pm q) ->
  exists s' B',
    (let s := with_ref s (with_maps (ms_ref s) pm') in
     b ← bitmap_set_range (ms_using s) (a / PAGE_SIZE) (u64 (a / PAGE_SIZE + 2 ^ (o - MIN_ORDER))) false;
     '(m, z) ← buddy_free_zone_locked (ms_md s) (zn_with_lock z true) a o;
     Some (with_zone (with_md (with_using s b) m) ty (zn_with_lock z (spin_unlock (zn_lock z))))) = Some s' /\
    mem_ok s' B' pm' C /\ ms_irq s' = ms_irq s /\ ms_ref s' = with_maps (ms_ref s) pm' /\
    same_ranges s s' /\ freed s' B' pm'.
Proof.
  intros Hh Hl Hq. pose proof (held_disjoint v Hh) as Hdis.
  destruct (mo_zone _ _ _ _ Hm _ _ Ez) as [Hty Hfa Hlk Hzi Hrange]. pose proof (zi_wf _ _ Hzi) as Hw.
  destruct (block_frames z o a Hw Hok) as (Hs & He & Ea & Hp). pose proof Hw as (Hw0 & _ & Hw2).
  destruct (mo_cover _ _ _ _ Hm _ _ Ez) as [Hcu Hcp]. destruct (mo_using _ _ _ _ Hm) as [Hwf Hlku].
  cbn zeta. cbn [ms_using ms_md with_ref]. rewrite u64_id by (unfold PAGE_SIZE in *; lia).
  destruct (bitmap_set_range_spec (ms_using s) (a / PAGE_SIZE) (a / PAGE_SIZE + 2 ^ (o - MIN_ORDER)) false Hwf Hlku)
    as (b' & -> & Hwf' & (Hl1 & Hl2 & _) & Hup); [lia|lia|]. cbn [mbind option_bind].
  assert (forall q, within (a / PAGE_SIZE) (a / PAGE_SIZE + 2 ^ (o - MIN_ORDER)) q = false \/ q ∈ pages_of (o, a)) as Hcase.
  { intros q. destruct (within _ _ q) eqn:E; [right; by apply within_pages|by left]. }
  assert (mem_ok (with_using (with_ref s (with_maps (ms_ref s) pm')) b') B pm' C) as Hm1.
  { apply (mem_ok_marks s B pm C b' pm' Hm); try done; [congruence|].
    intros ty' z' q Ez' Hin. pose proof (Hdis _ _ _ Ez' Hin) as Hnin.
    destruct (Hcase q) as [Hout|]; [|done]. destruct (mo_free _ _ _ _ Hm _ _ _ Ez' Hin) as [Hb Hg].
    destruct (mo_zone _ _ _ _ Hm _ _ Ez') as [_ _ _ Hzi' _]. pose proof (frees_in_zone z' _ q (zi_blocks _ _ Hzi') Hin).
    destruct (mo_cover _ _ _ _ Hm _ _ Ez') as [? _]. destruct (zi_wf _ _ Hzi') as (? & _).
    rewrite Hup, Hq, Hout by lia. done. }
  destruct (free_locked_spec (ms_md s) (heads s) B C (zn_with_lock z true) a o) as
    (m' & fa & B' & z' & -> & -> & (Hlf & Hb' & Hoth) & Hzi' & Hfr); try done.
  { apply Hm. } { apply (mem_ok_heads _ _ _ _ _ _ Hm Ez). } { exact (mo_shares _ _ _ _ Hm _ _ Ez). } { simpl. rewrite Hty. by apply (zinv_ext z). }
  { simpl. rewrite Hty. apply NoDup_app. split; [apply NoDup_seqZ|]. split; [|apply Hzi].
    intros q Hin Hin'. by apply (Hdis _ _ _ Ez Hin'). }
  cbn [mbind option_bind zn_type zn_with_lock] in *. rewrite Hty in *. eexists _, B'. split; [done|]. split_and!; try done.
  - eapply (mem_ok_zone _ _ _ _ ty z _ _ _ Hm1); try done.
    + by eapply zinv_ext; [| | |exact Hzi'].
    + intros q. rewrite Hfr. intros [Hin|Hin]%elem_of_app.
      * assert (within (a / PAGE_SIZE) (a / PAGE_SIZE + 2 ^ (o - MIN_ORDER)) q = true) as Hwi by by apply within_pages.
        apply elem_pages_of in Hin. cbn [ms_using with_using]. rewrite Hq, Hup, Hwi by lia. done.
      * by apply (mo_free _ _ _ _ Hm1 ty z q Ez).
  - by apply (same_ranges_with s ty z _ m' Ez).
  - split_and!; [done| |by split_and!]. intros ty' Hne. by eapply blks_other.
Qed.

Lemma free_locked_frames_spec rel :
  exists s' B' pm', free_frames_locked s ty z a o (2 ^ (o - MIN_ORDER)) rel = Some s' /\
    mem_ok s' B' pm' C /\ ms_irq s' = ms_irq s /\ ms_ref s' = with_maps (ms_ref s) pm' /\ same_ranges s s' /\
    if frames_held s pm o a (if rel then 0 else 1) then freed s' B' pm' else untouched s' B' pm'.
Proof.
  destruct (mo_zone _ _ _ _ Hm _ _ Ez) as [Hty Hfa Hlk Hzi Hrange]. pose proof (zi_wf _ _ Hzi) as Hw.
  destruct (block_frames z o a Hw Hok) as (Hs & He & _ & Hp). pose proof Hw as (Hw0 & _ & _).
  destruct (mo_cover _ _ _ _ Hm _ _ Ez) as [Hcu Hcp]. destruct Hus as [Huw Hul].
  pose proof (mem_ok_unlocked _ _ _ _ _ _ Hm Ez) as Hsame.
  pose proof (with_maps_id _ _ (mo_maps _ _ _ _ Hm)) as Hid.
  assert (same_ranges s (with_zone s ty (zn_with_lock (zn_with_lock z true) false))) as Hrg
    by (by apply (same_ranges_with s ty z _ (ms_md s) Ez)).
  unfold free_frames_locked. rewrite Hlk. cbn [spin_lock mbind option_bind].
  rewrite frames_marked_spec by (try done; try apply (mo_using _ _ _ _ Hm); lia). cbn [mbind option_bind].
  unfold frames_held. case_if; bools; rewrite E; cbn [andb].
  { eexists _, B, pm. split; [done|]. by split_and!. }
  unfold maps_of. rewrite (mo_maps _ _ _ _ Hm). cbn [mbind option_bind].
  assert (exists pm', (if rel then ok ← pages_are_unreferenced pm a (2 ^ (o - MIN_ORDER)); Some (ok, pm)
      else claim_last_page_refs pm a (2 ^ (o - MIN_ORDER))) =
    Some (all_from (count_is pm (if rel then 0 else 1)) (a / PAGE_SIZE) (Z.to_nat (2 ^ (o - MIN_ORDER))), pm') /\
    zlen pm' = zlen pm /\ forall q, zget pm' q =
      if all_from (count_is pm (if rel then 0 else 1)) (a / PAGE_SIZE) (Z.to_nat (2 ^ (o - MIN_ORDER))) &&
        within (a / PAGE_SIZE) (a / PAGE_SIZE + 2 ^ (o - MIN_ORDER)) q then Some 0 else zget pm q)
    as (pm' & -> & Hl & Hq).
  { destruct rel.
    - exists pm. unfold pages_are_unreferenced. rewrite (unref_check_spec z o a Hw Hok) by lia.
      cbn [mbind option_bind]. rewrite Z.add_0_r. split; [done|]. split; [done|]. intros q. case_if; [|done].
      apply andb_true_iff in E0 as [Hall Hwi]. rewrite all_from_true in Hall. unfold within in Hwi. bools.
      apply (bool_decide_eq_true (zget pm q = Some 0)), Hall. lia.
    - destruct (claim_loop_spec z o a Hw Hok pm (Z.to_nat (2 ^ (o - MIN_ORDER))) 0 pm) as (pm' & Hc & Hl & Hq);
        try done; try lia.
      + intros q Hwi. unfold within in Hwi. bools. lia.
      + intros q. unfold within. case_if; [bools; lia|done].
      + rewrite Z.add_0_r in *. exists pm'. unfold claim_last_page_refs. by rewrite Hc. }
  cbn [mbind option_bind]. case_if; bools; rewrite E0 in *.
  - assert (pm' = pm) as -> by (apply zget_ext; intros q; by rewrite Hq).
    rewrite Hid. eexists _, B, pm. split; [done|]. by split_and!.
  - destruct (release_spec (if rel then 0 else 1) pm') as (s' & B' & E' & ? & ? & ? & ? & ?); try done.
    { unfold frames_held. by rewrite E, E0. }
    exists s', B', pm'. by split_and!.
Qed.

End Free.

(** ** The calls *)

Lemma land_pages a : 0 <= a -> Z.land a (PAGE_SIZE - 1) = a mod PAGE_SIZE.
Proof. intros. change (PAGE_SIZE - 1) with (Z.ones 12). by rewrite Z.land_ones. Qed.

(** Giving back the block [(o, a)] with a request of [count] pages of that
    order: the frames must be handed out, usable, and referenced once (or, on
    the released path, no more); then they are back in the zone, unmarked and
    unreferenced. Otherwise nothing changes. *)
Lemma free_common_spec s B pm C ty z o p a count rel :
  mem_ok s B pm C -> ms_zones s ty = Some z -> block_ok z (o, a) -> usable_ok s z ->
  1 <= count < two64 -> count_to_order count = Some (Some (o, p)) -> a <= rc_memory_size (ms_ref s) ->
  exists s' B' pm', free_frames_common s a count rel = Some s' /\
    mem_ok s' B' pm' C /\ ms_irq s' = ms_irq s /\ ms_ref s' = with_maps (ms_ref s) pm' /\ same_ranges s s' /\
    if frames_held s pm o a (if rel then 0 else 1) then freed s B pm ty o a s' B' pm' else untouched s B pm s' B' pm'.
Proof.
  intros Hm Ez Hok [Huw Hul] Hc Hord Hmem. destruct (mo_zone _ _ _ _ Hm _ _ Ez) as [Hty Hfa Hlk Hzi Hrange].
  pose proof (zi_wf _ _ Hzi) as Hw. destruct (block_frames z o a Hw Hok) as (Hs & He & Ea & Hp).
  pose proof Hw as (Hw0 & _ & Hw2). destruct (mo_cover _ _ _ _ Hm _ _ Ez) as [Hcu Hcp].
  destruct (count_to_order_spec count Hc) as (r & Er & Hr). rewrite Hord in Er. injection Er as <-.
  destruct Hr as (Ho & -> & _). pose proof (bo_nonzero _ _ _ Hok) as Hnz; simpl in Hnz.
  unfold free_frames_common. replace (a =? 0) with false by lia. replace (count =? 0) with false by lia. cbn [orb].
  assert (a mod PAGE_SIZE = 0) as Hal by (rewrite Ea; by apply Z.mod_mul).
  rewrite land_pages, Hal by lia. cbn [negb Z.eqb].
  replace (a >? rc_memory_size (ms_ref s)) with false by lia. rewrite Hord. cbn [mbind option_bind].
  assert (phys_to_zone_type a = ty) as ->. { rewrite Ea. apply Hrange. lia. }
  unfold get_zone. rewrite Ez. unfold zone_phys_start, zone_phys_end.
  assert (a + 2 ^ (o - MIN_ORDER) * PAGE_SIZE <= zone_end_pfn z * PAGE_SIZE) by (unfold PAGE_SIZE in *; lia).
  assert (zone_start_pfn z * PAGE_SIZE <= a) by (unfold PAGE_SIZE in *; lia).
  rewrite !u64_id by (unfold PAGE_SIZE in *; lia).
  case_if; [unfold PAGE_SIZE in *; lia|]. case_if; [lia|].
  assert (mem_ok (with_irq s false) B pm C) as Hm' by by apply mem_ok_irq.
  destruct (free_locked_frames_spec (with_irq s false) B pm C ty z o a Hm' Ez Hok (conj Huw Hul) rel)
    as (s' & B' & pm' & -> & H' & Hi & Hr & Hrg & Hres). cbn [mbind option_bind].
  change (frames_held (with_irq s false)) with (frames_held s) in Hres.
  exists (if ms_irq s then with_irq s' true else s'), B', pm'. split; [done|].
  destruct (ms_irq s).
  - split; [by apply mem_ok_irq|]. do 3 (split; [done|]). destruct (frames_held _ _ _ _ _); exact Hres.
  - do 4 (split; [done|]). destruct (frames_held _ _ _ _ _); exact Hres.
Qed.
