(* ===== verification/Frame.v ===== *)
(** * Frame allocator start-up ([src/src/mem/frame.c])

    The boot-time allocator ([alloc_frames_early], [early_alloc]) over the
    bitmap of usable frames, the initialisation of the page counters and of
    the buddy zones on top of it, and [init_frame], which builds the bitmap
    from the boot loader's memory map and hands the usable frames to the
    buddy allocator. *)

From stdpp Require Import gmap.
From S2P Require Import Prelude Bitmap PageRef PageList Buddy.

(** ** State *)

(** [boot_memory_map_entry_t]; the only type the file tells apart is
    BOOT_MMAP_USABLE. *)
Record region := mkRegion { rg_base : Z; rg_length : Z; rg_usable : bool }.

(** The static variables of [frame.c] on top of the allocator's state, which
    holds [usable_regions] and [memory_size]. *)
Record frame_sys := mkFrame {
  fr_mem : memsys;
  early_last_alloc_pos : Z;
  frame_op_lock : spin_t;
  physical_memory_offset : Z;
  nr_zones : Z;
}.

Definition fr_with_mem (f : frame_sys) (s : memsys) : frame_sys :=
  mkFrame s (early_last_alloc_pos f) (frame_op_lock f) (physical_memory_offset f) (nr_zones f).
Definition fr_with_lock (f : frame_sys) (l : spin_t) : frame_sys :=
  mkFrame (fr_mem f) (early_last_alloc_pos f) l (physical_memory_offset f) (nr_zones f).
Definition fr_with_pos (f : frame_sys) (p : Z) : frame_sys :=
  mkFrame (fr_mem f) p (frame_op_lock f) (physical_memory_offset f) (nr_zones f).
Definition fr_with_nr (f : frame_sys) (n : Z) : frame_sys :=
  mkFrame (fr_mem f) (early_last_alloc_pos f) (frame_op_lock f) (physical_memory_offset f) n.

Definition usable_regions (f : frame_sys) : Bitmap := rc_usable (ms_ref (fr_mem f)).
Definition memory_size (f : frame_sys) : Z := rc_memory_size (ms_ref (fr_mem f)).

Definition fr_with_usable (f : frame_sys) (b : Bitmap) : frame_sys :=
  let c := ms_ref (fr_mem f) in
  fr_with_mem f (with_ref (fr_mem f) (mkRefCtx (page_maps c) (rc_memory_size c) b)).
Definition fr_with_size (f : frame_sys) (n : Z) : frame_sys :=
  let c := ms_ref (fr_mem f) in
  fr_with_mem f (with_ref (fr_mem f) (mkRefCtx (page_maps c) n (rc_usable c))).

(** ** Sizes *)

(** The downward loop of [get_memory_size] from entry [i]; it has no lower
    bound, so without a usable entry it leaves the array. *)
Fixpoint last_usable (n : nat) (map : list region) : option Z :=
  match n with
  | O => None
  | S i =>
      r ← zget map (Z.of_nat i);
      if rg_usable r then Some (u64 (rg_base r + rg_length r)) else last_usable i map
  end.

Definition get_memory_size (map : list region) : option Z := last_usable (length map) map.

(** A [const char *] into a string is what is left of the string; the empty
    list points at the terminator. *)
Fixpoint parse_digits (p : list Z) (value : Z) : Z * list Z :=
  match p with
  | c :: p' => if isdigit c then parse_digits p' (u64 (u64 (value * 10) + (c - 48))) else (value, p)
  | [] => (value, [])
  end.

Definition mem_parse_size (s : option (list Z)) : Z :=
  match s with
  | None => SIZE_MAX
  | Some s =>
      let '(value, p) := parse_digits s 0 in
      match p with
      | [] => value
      | c :: p' =>
          let suffix := if (c >=? 97) && (c <=? 122) then c - 32 else c in
          let finish value := match p' with [] => value | _ => SIZE_MAX end in
          if suffix =? 75 then finish (u64 (value * Z.shiftl 1 10))
          else if suffix =? 77 then finish (u64 (value * Z.shiftl 1 20))
          else if suffix =? 71 then finish (u64 (value * Z.shiftl 1 30))
          else value
      end
  end.

(** ** Addresses *)

Definition phys_to_virt (offset phys : Z) : Z := if phys =? 0 then 0 else u64 (phys + offset).
Definition virt_to_phys (offset virt : Z) : Z := if virt =? 0 then 0 else u64 (virt - offset).
Definition DRIVER_AREA_MEM : Z := 0xffffb00000000000.
Definition driver_phys_to_virt (phys : Z) : Z := if phys =? 0 then 0 else u64 (phys + DRIVER_AREA_MEM).
Definition driver_virt_to_phys (virt : Z) : Z := if virt =? 0 then 0 else u64 (virt - DRIVER_AREA_MEM).

(** ** The boot-time allocator *)

Definition alloc_frames_early (f : frame_sys) (count : Z) : option (Z * frame_sys) :=
  if count =? 0 then Some (SIZE_MAX, f)
  else
    l ← spin_lock (frame_op_lock f);
    let f := fr_with_lock f l in
    '(frame_index, b) ← bitmap_find_range_from (usable_regions f) count true (early_last_alloc_pos f);
    let f := fr_with_usable f b in
    if (frame_index =? SIZE_MAX) || (u64 (frame_index + count) >? bm_length b)
    then Some (SIZE_MAX, fr_with_lock f (spin_unlock (frame_op_lock f)))
    else
      b ← bitmap_set_range b frame_index (u64 (frame_index + count)) false;
      let f := fr_with_pos (fr_with_usable f b) (u64 (frame_index + count)) in
      Some (u64 (frame_index * PAGE_SIZE), fr_with_lock f (spin_unlock (frame_op_lock f))).

(** [early_alloc] returns the virtual address of zeroed memory, 0 for NULL;
    clearing a block at physical address 0 would write through NULL. *)
Definition early_alloc (f : frame_sys) (size : Z) : option (Z * frame_sys) :=
  if size =? 0 then Some (0, f)
  else
    let aligned_size := Z.land (u64 (size + PAGE_SIZE - 1)) (u64 (Z.lnot (PAGE_SIZE - 1))) in
    '(phys, f) ← alloc_frames_early f (aligned_size / PAGE_SIZE);
    if phys =? SIZE_MAX then Some (0, f)
    else
      let ptr := phys_to_virt (physical_memory_offset f) phys in
      if ptr =? 0 then None else Some (ptr, f).

(** [sizeof(page_t)]: one [int]. [early_alloc] already zeroed the array. *)
Definition page_ref_init (f : frame_sys) : option frame_sys :=
  let page_maps_size := u64 (memory_size f / PAGE_SIZE * 4) in
  '(p, f) ← early_alloc f page_maps_size;
  if p =? 0 then None (* the assertion fails *)
  else
    let c := ms_ref (fr_mem f) in
    Some (fr_with_mem f (with_ref (fr_mem f)
            (mkRefCtx (Some (replicate (Z.to_nat (page_maps_size / 4)) 0)) (rc_memory_size c) (rc_usable c)))).

(** ** Zones *)

Definition sizeof_zone_t : Z := 208.

(** The loop of [init_zone] that gives every order a head page. *)
Fixpoint init_heads (n : nat) (m : meta) : option (list Z * meta) :=
  match n with
  | O => Some ([], m)
  | S n =>
      '(head_phys, m) ← metadata_page_alloc m;
      '(rest, m) ← init_heads n m;
      Some (head_phys :: rest, m)
  end.

Definition init_zone (m : meta) (type : zone_type) (start_pfn end_pfn : Z) : option (zone_t * meta) :=
  '(fa, m) ← init_heads (Z.to_nat ORDER_COUNT) m;
  Some (mkZone fa SPIN_INIT start_pfn end_pfn 0 0 type, m).

Definition create_zone (f : frame_sys) (type : zone_type) (start_pfn end_pfn : Z) : option frame_sys :=
  let s := fr_mem f in
  if end_pfn <=? start_pfn then
    Some (fr_with_mem f (mkMem (ms_md s) (fun ty => if decide (ty = type) then None else ms_zones s ty)
                           (ms_using s) (ms_ref s) (ms_irq s)))
  else
    '(zone, f) ← early_alloc f sizeof_zone_t;
    if zone =? 0 then None
    else
      let s := fr_mem f in
      '(z, m) ← init_zone (ms_md s) type start_pfn end_pfn;
      Some (fr_with_nr (fr_with_mem f (with_zone (with_md s m) type z)) (nr_zones f + 1)).

(** [__MAX_NR_ZONES] *)
Definition MAX_NR_ZONES : Z := 3.

Definition buddy_init (f : frame_sys) : option frame_sys :=
  let s := fr_mem f in
  let f := fr_with_nr f 0 in
  let total_frames := memory_size f / PAGE_SIZE in
  let head_pages := ORDER_COUNT * MAX_NR_ZONES in
  let pool_pages := u64 (u64 (total_frames + PAGE_LIST_ENTRY_CAPACITY - 1) / PAGE_LIST_ENTRY_CAPACITY) in
  let pool_pages := u64 (pool_pages + (head_pages + 16)) in
  '(pool_virt, f) ← early_alloc f (u64 (pool_pages * PAGE_SIZE));
  if pool_virt =? 0 then None
  else
    let s := fr_mem f in
    let m := mkMeta ∅ (virt_to_phys (physical_memory_offset f) pool_virt) pool_pages 0 0 SPIN_INIT in
    let f := fr_with_mem f (mkMem m (fun _ => None) (ms_using s) (ms_ref s) (ms_irq s)) in
    let max_pfn := memory_size f / PAGE_SIZE in
    let dma32_end_pfn := MIN max_pfn (ZONE_DMA32_END / PAGE_SIZE) in
    let dma_end_pfn := MIN max_pfn (ZONE_DMA_END / PAGE_SIZE) in
    f ← create_zone f ZONE_DMA 0 dma_end_pfn;
    f ← create_zone f ZONE_DMA32 dma_end_pfn dma32_end_pfn;
    f ← create_zone f ZONE_NORMAL dma32_end_pfn max_pfn;
    let bitmap_bytes := u64 (max_pfn + 7) / 8 in
    let bitmap_bytes := if bitmap_bytes =? 0 then 1 else bitmap_bytes in
    '(bitmap_buffer, f) ← early_alloc f bitmap_bytes;
    if bitmap_buffer =? 0 then None
    else
      b ← bitmap_init (replicate (Z.to_nat bitmap_bytes) 0) bitmap_bytes;
      Some (fr_with_mem f (with_using (fr_mem f) b)).

(** ** Handing regions to the zones *)

Definition get_zone_boundary (type : zone_type) : Z :=
  match type with
  | ZONE_DMA => ZONE_DMA_END
  | ZONE_DMA32 => ZONE_DMA32_END
  | ZONE_NORMAL => SIZE_MAX
  end.

(** The two inner [while] loops of [process_memory_region]: advance by pages
    while the frame's usability is [want]. *)
Fixpoint skip_frames (fuel : nat) (usable : Bitmap) (want : bool) (current zone_end : Z) : option Z :=
  match fuel with
  | O => None
  | S n =>
      if current <? zone_end then
        v ← bitmap_get usable (current / PAGE_SIZE);
        if Bool.eqb v want then skip_frames n usable want (u64 (current + PAGE_SIZE)) zone_end
        else Some current
      else Some current
  end.

(** The loop over one zone. Every turn moves on by at least one page, so the
    number of pages up to [zone_end] is enough fuel. *)
Fixpoint zone_loop (fuel : nat) (s : memsys) (type : zone_type) (current zone_end : Z) : option memsys :=
  match fuel with
  | O => None
  | S n =>
      if current <? zone_end then
        let steps := S (Z.to_nat ((zone_end - current) / PAGE_SIZE + 1)) in
        usable_start ← skip_frames steps (rc_usable (ms_ref s)) false current zone_end;
        if usable_start >=? zone_end then Some s
        else
          usable_end ← skip_frames steps (rc_usable (ms_ref s)) true usable_start zone_end;
          s ← (if usable_end >? usable_start then add_memory_region s usable_start usable_end type
               else Some s);
          zone_loop n s type usable_end zone_end
      else Some s
  end.

(** The outer loop: at most one turn per zone type. *)
Fixpoint region_loop (fuel : nat) (s : memsys) (current end_ : Z) : option memsys :=
  match fuel with
  | O => None
  | S n =>
      if current <? end_ then
        let type := phys_to_zone_type current in
        let zone_end := MIN (get_zone_boundary type) end_ in
        s ← zone_loop (S (Z.to_nat ((zone_end - current) / PAGE_SIZE + 1))) s type current zone_end;
        region_loop n s zone_end end_
      else Some s
  end.

Definition process_memory_region (s : memsys) (start end_ : Z) : option memsys :=
  let start := PADDING_UP start PAGE_SIZE in
  let end_ := PADDING_DOWN end_ PAGE_SIZE in
  if start >=? end_ then Some s else region_loop 4 s start end_.

(** ** [init_frame] *)

(** The first loop: the base of the first usable region, from 1 MiB on,
    that can hold the bitmap; 0 if there is none. *)
Fixpoint find_bitmap_region (map : list region) (size_aligned : Z) : Z :=
  match map with
  | [] => 0
  | r :: map =>
      if rg_base r <? 0x100000 then find_bitmap_region map size_aligned
      else if rg_usable r && (rg_length r >=? size_aligned) then rg_base r
      else find_bitmap_region map size_aligned
  end.

(** The second loop: mark the frames of the usable regions. *)
Fixpoint mark_regions (map : list region) (b : Bitmap) : option Bitmap :=
  match map with
  | [] => Some b
  | r :: map =>
      if rg_base r <? 0x100000 then mark_regions map b
      else
        b ← (if rg_usable r then
               let start_frame := rg_base r / PAGE_SIZE in
               let end_frame := u64 (rg_base r + rg_length r) / PAGE_SIZE in
               if end_frame >? start_frame then bitmap_set_range b start_frame end_frame true
               else Some b
             else Some b);
        mark_regions map b
  end.

(** The last loop: give the usable regions to the buddy allocator, leaving
    out the bitmap. *)
Fixpoint add_regions (map : list region) (s : memsys) (bitmap_address bitmap_size : Z) : option memsys :=
  match map with
  | [] => Some s
  | r :: map =>
      s ← (if (rg_base r <? 0x100000) || negb (rg_usable r) then Some s
           else
             let addr := rg_base r in
             let region_end := u64 (rg_base r + rg_length r) in
             if (addr <=? bitmap_address) && (bitmap_address <? region_end) then
               let bitmap_end := PADDING_UP (u64 (bitmap_address + bitmap_size)) PAGE_SIZE in
               s ← (if addr <? bitmap_address then process_memory_region s addr bitmap_address else Some s);
               if bitmap_end <? region_end then process_memory_region s bitmap_end region_end else Some s
             else process_memory_region s addr region_end);
      add_regions map s bitmap_address bitmap_size
  end.

(** ["default"] *)
Definition default_str : list Z := [100; 101; 102; 97; 117; 108; 116].

(** [mem_str] is the value of the boot parameter [mem], [None] when it is not
    given. [strcmp] against a constant is list equality here. *)
Definition choose_memory_size (map : list region) (mem_str : option (list Z)) : option Z :=
  match mem_str with
  | None => get_memory_size map
  | Some str =>
      if decide (str = default_str) then get_memory_size map
      else
        let n := mem_parse_size (Some str) in
        if n =? SIZE_MAX then get_memory_size map else Some (PADDING_DOWN n PAGE_SIZE)
  end.

Definition init_frame (f : frame_sys) (hhdm : Z) (map : list region) (mem_str : option (list Z))
  : option frame_sys :=
  let f := mkFrame (fr_mem f) (early_last_alloc_pos f) (frame_op_lock f) hhdm (nr_zones f) in
  size ← choose_memory_size map mem_str;
  let f := fr_with_size f size in
  let total_frames := size / PAGE_SIZE in
  let bitmap_size := u64 (total_frames + 7) / 8 in
  let bitmap_size_aligned := PADDING_UP bitmap_size PAGE_SIZE in
  let bitmap_address := find_bitmap_region map bitmap_size_aligned in
  (* bitmap_init clears the buffer, which is NULL when no region was found *)
  if (bitmap_address =? 0) && negb (bitmap_size =? 0) then None
  else
    b ← bitmap_init (replicate (Z.to_nat bitmap_size) 0) bitmap_size;
    b ← mark_regions map b;
    b ← bitmap_set_range b 0 (0x100000 / PAGE_SIZE) false;
    let first := bitmap_address / PAGE_SIZE in
    let last := PADDING_UP (u64 (bitmap_address + bitmap_size)) PAGE_SIZE / PAGE_SIZE in
    b ← bitmap_set_range b first last false;
    f ← page_ref_init (fr_with_usable f b);
    f ← buddy_init f;
    s ← add_regions map (fr_mem f) bitmap_address bitmap_size;
    Some (fr_with_mem f s).
