(* ===== verification/FrameInv.v ===== *)
(** * Building zones and filling them

    A new zone has empty free lists ([init_zone]); [buddy_init] builds the
    zones over a pool of metadata pages that it takes from the boot-time
    allocator, and leaves a state that satisfies the invariant;
    [add_memory_region] fills a zone: the frames of the region become free, and
    nothing else changes. *)

From stdpp Require Import gmap.
From S2P Require Import Prelude Bitmap PageRef PageList Buddy BuddyInv BuddySys Frame.

(** ** New lists *)

(** A page nobody owns becomes the head of a new, empty list. *)
Lemma fresh_spec m hd own ls lf t q :
  reps m hd own ls lf -> own !! q = None ->
  0 < q < metadata_pool_phys m + metadata_pool_used m * PAGE_SIZE ->
  md_pages m !! q = Some zero_page ->
  reps m (fupd hd t (Some q)) (<[q := Some t]> own) (fupd ls t [(q, zero_page)]) lf.
Proof.
  intros [Rc Rf Ro Rp Rl] Hq Hlim Hp.
  assert (forall tg h' l, owned_chain m own tg h' l -> owned_chain m (<[q := Some t]> own) tg h' l) as Hfr.
  { intros tg h' l Hc. eapply owned_chain_frame; [done| |exact Hc]. intros r Hr. apply lookup_insert_ne.
    pose proof (owned_chain_key _ _ _ _ _ _ Hc Hr). congruence. }
  constructor; try done.
  - intros t' h'. unfold fupd. case_decide as E.
    + subst t'. intros [= <-]. split; [|done]. constructor.
      * simpl. split_and!; try done. lia.
      * apply NoDup_singleton.
      * apply Forall_singleton. simpl. rewrite lookup_insert_eq. auto with kern.
    + intros Ht'. destruct (Rc t' h' Ht') as [Hc ?]. split; [|done]. by apply Hfr.
  - by apply Hfr.
  - intros r tg. destruct (decide (r = q)) as [->|]; [done|]. rewrite lookup_insert_ne by done. apply Ro.
Qed.

(** A new list of one page takes it from the share of the list. *)
Lemma room_new m m' hd ls lf lf' C t q l :
  t ∈ all_tags -> hd t = None -> 1 <= C t -> zlen l = 1 ->
  (forall t, held hd ls t <= C t) -> sum_tags (fun t => C t - held hd ls t) <= avail m lf ->
  0 < avail m lf /\
  (avail m' lf' = avail m lf - 1 ->
   (forall t', held (fupd hd t (Some q)) (fupd ls t l) t' <= C t') /\
   sum_tags (fun t' => C t' - held (fupd hd t (Some q)) (fupd ls t l) t') <= avail m' lf').
Proof.
  intros Ht Hn HC Hl Hh Ha.
  assert (held hd ls t = 0) as E by (unfold held; by rewrite Hn).
  assert (C t - held hd ls t <= sum_tags (fun t => C t - held hd ls t)).
  { apply (sum_tags_ge (fun t => C t - held hd ls t) t Ht). intros t'. specialize (Hh t'). lia. }
  split; [lia|]. intros Ea.
  assert (held (fupd hd t (Some q)) (fupd ls t l) t = 1) as E' by (unfold held; by rewrite !fupd_eq).
  assert (forall t', t' <> t -> held (fupd hd t (Some q)) (fupd ls t l) t' = held hd ls t') as Hoth.
  { intros t' Hne. unfold held. by rewrite !fupd_ne. }
  split.
  - intros t'. destruct (decide (t' = t)) as [->|]; [lia|]. by rewrite Hoth.
  - rewrite (sum_tags_upd (fun t => C t - held hd ls t) _ t Ht); [lia|]. intros t' Hne. by rewrite Hoth.
Qed.

(** The lists of zone [ty] from index [i] on are those of [g]. *)
Definition from_index {A} (ty : zone_type) (i : Z) (f g : tag -> A) : tag -> A :=
  fun t => if decide (t.1 = ty /\ i <= t.2) then g t else f t.

Lemma init_heads_spec ty C : forall k m hd B i,
  bags m hd B C -> 0 <= i -> i + Z.of_nat k <= ORDER_COUNT -> (forall j, i <= j -> hd (ty, j) = None) ->
  (forall j, 0 <= j < ORDER_COUNT -> 1 <= C (ty, j)) ->
  exists fa m', init_heads k m = Some (fa, m') /\ zlen fa = Z.of_nat k /\
    bags m' (from_index ty i hd (fun t => zget fa (t.2 - i))) (from_index ty i B (fun _ => [])) C.
Proof.
  induction k as [|k IH]; intros m hd B i Hb Hi Hk Hnone HC; cbn [init_heads].
  { exists [], m. split; [done|]. split; [done|]. eapply bags_ext; [| | |exact Hb]; [| |done].
    - intros [ty' j]. unfold from_index; simpl. case_decide as E; [|done]. destruct E as [-> ?].
      rewrite Hnone by done. by apply zget_none; unfold zlen; simpl; lia.
    - intros [ty' j] Hs. unfold from_index; simpl. case_decide as E; [|done]. destruct E as [-> ?].
      rewrite Hnone in Hs by done. by destruct Hs. }
  destruct Hb as (own & ls & lf & R & HB & Hh & Ha).
  assert ((ty, i) ∈ all_tags) as Htag by (apply elem_all_tags; lia).
  destruct (alloc_spec m hd own ls lf R) as (q & m1 & own1 & lf1 & -> & R1 & Hq & Hlim & Hpg & Ea).
  { by apply (room_new m m hd ls lf lf C (ty, i) 0 [(0, zero_page)] Htag (Hnone i ltac:(lia)) (HC i ltac:(lia))). }
  cbn [mbind option_bind]. pose proof (fresh_spec m1 hd own1 ls lf1 (ty, i) q R1 Hq Hlim Hpg) as R2.
  destruct (room_new m m1 hd ls lf lf1 C (ty, i) q [(q, zero_page)] Htag (Hnone i ltac:(lia)) (HC i ltac:(lia)) eq_refl Hh Ha)
    as [_ Hroom].
  destruct (IH m1 (fupd hd (ty, i) (Some q)) (fupd B (ty, i) []) (i + 1)) as (fa & m' & -> & Hl & Hb); try lia.
  { eexists _, _, _. split; [exact R2|]. split; [|by apply Hroom].
    intros t. unfold fupd. case_decide; [done|]. apply HB. }
  { intros j Hj. unfold fupd. rewrite decide_False by (intros [= ?]; lia). apply Hnone. lia. }
  { done. }
  cbn [mbind option_bind]. exists (q :: fa), m'. split; [done|].
  split; [unfold zlen in *; simpl; lia|]. eapply bags_ext; [| | |exact Hb]; [| |done]; intros [ty' j].
  - unfold from_index, fupd; simpl. destruct (decide (ty' = ty)) as [->|].
    + destruct (decide (i = j)) as [->|].
      * rewrite decide_True, decide_False, decide_True by (done || lia). by rewrite Z.sub_diag.
      * rewrite (decide_False (P := (ty, j) = (ty, i))) by congruence. destruct (decide (i < j)).
        -- rewrite !decide_True by (split; [done|lia]). rewrite zget_cons_S by lia. f_equal. lia.
        -- by rewrite !decide_False by (intros [_ ?]; lia).
    + by rewrite !decide_False by naive_solver.
  - intros _. unfold from_index, fupd; simpl. destruct (decide (ty' = ty)) as [->|].
    + destruct (decide (i <= j)); [rewrite decide_True by done|rewrite decide_False by (intros [_ ?]; lia)].
      * case_decide as E1; [done|]. case_decide as E2; [done|]. destruct E1. split; [done|].
        assert (j <> i) by congruence. lia.
      * by rewrite !decide_False by (first [intros [_ ?]; lia|intros [= ->]; lia]).
    + by rewrite !decide_False by naive_solver.
Qed.

(** ** Zones at start-up *)

Lemma bags_init phys pages C :
  0 < phys -> 0 <= pages -> phys + pages * PAGE_SIZE < two64 -> (forall t, 0 <= C t) -> sum_tags C <= pages ->
  bags (mkMeta ∅ phys pages 0 0 SPIN_INIT) (fun _ => None) (fun _ => []) C.
Proof.
  intros Hp Hn Hend HC Hs. exists ∅, (fun _ => []), []. split_and!.
  - constructor; simpl; try done. by repeat constructor.
  - intros t [? [=]].
  - intros t. apply HC.
  - unfold avail, zlen; simpl. erewrite sum_tags_ext; [|intros t; apply Z.sub_0_r]. lia.
Qed.

(** Zones and lists before any memory is handed to them. *)
Record boot_ok (s : memsys) (C : tag -> Z) : Prop := {
  bk_bags : bags (ms_md s) (heads s) (fun _ => []) C;
  bk_zone : forall ty z, ms_zones s ty = Some z -> zone_good ty z [];
  bk_shares : forall ty z, ms_zones s ty = Some z -> shares_ok C z;
}.

Lemma blks_nil ty : blks (fun _ => []) ty = [].
Proof. unfold blks. induction (seqZ _ _) as [|o os IH]; [done|]. exact IH. Qed.

Lemma zinv_nil z : zone_wf z -> free_pages z = 0 -> zinv z [].
Proof. intros. constructor; try done; [constructor|]. by intros o a ?%elem_of_nil. Qed.

Definition zone_span (ty : zone_type) (first last : Z) : Prop :=
  0 <= first < last /\ last * PAGE_SIZE < two64 /\
  forall p, first <= p < last -> phys_to_zone_type (p * PAGE_SIZE) = ty.

(** [init_zone] with a share of the pool for each list. *)
Lemma init_zone_spec s C ty first last :
  boot_ok s C -> ms_zones s ty = None -> zone_span ty first last ->
  (forall i, 0 <= i < ORDER_COUNT -> page_share first last i <= C (ty, i)) ->
  exists z m', init_zone (ms_md s) ty first last = Some (z, m') /\
    zone_start_pfn z = first /\ zone_end_pfn z = last /\ boot_ok (with_zone (with_md s m') ty z) C.
Proof.
  intros [Hb Hz Hs] Hnone (Hf & Hl & Hty) Hsh.
  assert (forall i, 0 <= i < ORDER_COUNT -> 1 <= page_share first last i) as Hpos.
  { intros i Hi. unfold page_share, max_blocks. rewrite capacity_510.
    set (k := pair_shift (i + MIN_ORDER)). assert (0 < 2 ^ k) by (apply pow2_pos; unfold k, pair_shift; olia).
    assert (first / 2 ^ k <= last / 2 ^ k) by (apply Z.div_le_mono; lia).
    assert (0 <= (last / 2 ^ k - first / 2 ^ k + 1) / 510) by (apply Z.div_pos; lia). lia. }
  unfold init_zone.
  destruct (init_heads_spec ty C (Z.to_nat ORDER_COUNT) (ms_md s) (heads s) (fun _ => []) 0 Hb) as (fa & m' & -> & Hlen & Hb').
  { done. } { olia. } { intros j _. unfold heads; simpl. by rewrite Hnone. }
  { intros i Hi. specialize (Hsh i Hi). specialize (Hpos i Hi). lia. }
  cbn [mbind option_bind]. eexists _, m'. split; [done|]. split; [done|]. split; [done|].
  assert (zlen fa = ORDER_COUNT) as Hlen' by olia.
  constructor.
  - eapply bags_ext; [| | |exact Hb']; [| |done]; intros [ty' j].
    + unfold heads, from_index; simpl. destruct (decide (ty' = ty)) as [->|Hne]; simpl.
      * destruct (decide (0 <= j)); [rewrite decide_True by done; by rewrite Z.sub_0_r|].
        rewrite decide_False by (intros [_ ?]; lia). rewrite Hnone. simpl. apply zget_none. lia.
      * by rewrite decide_False by (by intros [? _]).
    + intros _. unfold from_index. by case_decide.
  - intros ty' z'. rewrite zones_with_zone. case_decide as E; [|by apply Hz]. intros [= <-]. subst ty'.
    constructor; try done. apply zinv_nil; [|done]. unfold zone_wf; simpl. lia.
  - intros ty' z'. rewrite zones_with_zone. case_decide as E; [|by apply Hs]. intros [= <-]. subst ty'.
    exact Hsh.
Qed.

(** Once the bitmap of handed-out frames and the counters are there, the
    invariant of the allocator holds, with nothing free. *)
Lemma boot_mem_ok s C pm :
  boot_ok s C -> bitmap_wf (ms_using s) -> bm_lock (ms_using s) = false -> page_maps (ms_ref s) = Some pm ->
  (forall ty z, ms_zones s ty = Some z -> zone_end_pfn z <= bm_length (ms_using s) /\ zone_end_pfn z <= zlen pm) ->
  mem_ok s (fun _ => []) pm C.
Proof.
  intros [Hb Hz Hs] Hw Hl Hp Hc. constructor; try done.
  intros ty z p _. rewrite blks_nil. by intros ?%elem_of_nil.
Qed.

(** ** The pool is large enough *)

(** The boundaries of the zones of a memory of [n] frames; [buddy_init_spec]
    shows that [buddy_init] builds these zones. *)
Definition zone_first (n : Z) (ty : zone_type) : Z :=
  match ty with
  | ZONE_DMA => 0
  | ZONE_DMA32 => MIN n (ZONE_DMA_END / PAGE_SIZE)
  | ZONE_NORMAL => MIN n (ZONE_DMA32_END / PAGE_SIZE)
  end.
Definition zone_last (n : Z) (ty : zone_type) : Z :=
  match ty with
  | ZONE_DMA => MIN n (ZONE_DMA_END / PAGE_SIZE)
  | ZONE_DMA32 => MIN n (ZONE_DMA32_END / PAGE_SIZE)
  | ZONE_NORMAL => n
  end.
Definition boot_share (n : Z) (t : tag) : Z := page_share (zone_first n t.1) (zone_last n t.1) t.2.

(** The size of the pool; [pool_size] shows that the computation of
    [buddy_init], in 64 bits, gives this number. *)
Definition pool_pages (n : Z) : Z :=
  (n + PAGE_LIST_ENTRY_CAPACITY - 1) / PAGE_LIST_ENTRY_CAPACITY + (ORDER_COUNT * MAX_NR_ZONES + 16).

Lemma sum_add (f g : Z -> Z) l :
  foldr (fun i acc => (f i + g i) + acc) 0 l =
  foldr (fun i acc => f i + acc) 0 l + foldr (fun i acc => g i + acc) 0 l.
Proof. induction l as [|i l IH]; simpl; lia. Qed.

(** The sum over the lists, zone by zone. *)
Lemma sum_tags_zones f :
  sum_tags f = foldr (fun i acc => (f (ZONE_DMA, i) + f (ZONE_DMA32, i) + f (ZONE_NORMAL, i)) + acc) 0
                 (seqZ 0 ORDER_COUNT).
Proof.
  unfold sum_tags, all_tags. cbn [mbind list_bind]. rewrite app_nil_r, !foldr_app.
  assert (forall ty l acc, foldr (fun t acc => f t + acc) acc ((ty,.) <$> l) =
    foldr (fun i acc => f (ty, i) + acc) 0 l + acc) as H.
  { intros ty l acc. induction l as [|i l IH]; [done|]. rewrite fmap_cons. cbn [foldr]. rewrite IH. lia. }
  rewrite !H. rewrite (sum_add (fun i => f (ZONE_DMA, i) + f (ZONE_DMA32, i))), sum_add. lia.
Qed.

(** The three lists of an order together: the zones lie end to end. *)
Lemma order_share n i :
  0 <= n -> 0 <= i < ORDER_COUNT ->
  boot_share n (ZONE_DMA, i) + boot_share n (ZONE_DMA32, i) + boot_share n (ZONE_NORMAL, i) <=
  3 + (n / 2 ^ pair_shift (i + MIN_ORDER) + 3) / PAGE_LIST_ENTRY_CAPACITY.
Proof.
  intros Hn Hi. unfold boot_share, page_share, max_blocks; cbn [fst snd zone_first zone_last].
  set (d := 2 ^ pair_shift (i + MIN_ORDER)). assert (0 < d) by (apply pow2_pos; unfold pair_shift; olia).
  rewrite !MIN_min, capacity_510. set (a := Z.min n (ZONE_DMA_END / PAGE_SIZE)).
  set (b := Z.min n (ZONE_DMA32_END / PAGE_SIZE)).
  assert (a <= b) as Hab by (apply Z.min_le_compat_l; by vm_compute). assert (b <= n) as Hbn by lia.
  assert (0 <= a) as Ha by (apply Z.min_glb; [lia|by vm_compute]).
  rewrite Z.div_0_l by lia. pose proof (Z.div_le_mono _ _ d ltac:(lia) Hab). pose proof (Z.div_le_mono _ _ d ltac:(lia) Hbn).
  pose proof (Z.div_pos a d Ha ltac:(lia)). revert H0 H1 H2. generalize (a / d) (b / d) (n / d). intros z1 z2 z3 H1 H2 H3. clear - H1 H2 H3. Z.to_euclidean_division_equations. lia.
Qed.

(** A pool of that size covers the shares of all lists: however the zones
    fragment, there is a metadata page for every block. *)
Lemma pool_covers n : 0 <= n -> sum_tags (boot_share n) <= pool_pages n.
Proof.
  intros Hn. rewrite sum_tags_zones.
  assert (forall l, (forall i, i ∈ l -> 0 <= i < ORDER_COUNT) ->
    foldr (fun i acc => (boot_share n (ZONE_DMA, i) + boot_share n (ZONE_DMA32, i) + boot_share n (ZONE_NORMAL, i)) + acc) 0 l <=
    foldr (fun i acc => (3 + (n / 2 ^ pair_shift (i + MIN_ORDER) + 3) / PAGE_LIST_ENTRY_CAPACITY) + acc) 0 l) as Hle.
  { induction l as [|i l IH]; intros Hl; cbn [foldr]; [done|].
    pose proof (order_share n i Hn (Hl i ltac:(by left))).
    assert (forall j, j ∈ l -> 0 <= j < ORDER_COUNT) as Hl' by (intros j ?; apply Hl; by right).
    specialize (IH Hl'). lia. }
  etransitivity; [apply Hle; intros i ?%elem_of_seqZ; lia|]. clear Hle.
  unfold pool_pages. rewrite capacity_510. change (ORDER_COUNT * MAX_NR_ZONES + 16) with 73.
  change (seqZ 0 ORDER_COUNT) with [0; 1; 2; 3; 4; 5; 6; 7; 8; 9; 10; 11; 12; 13; 14; 15; 16; 17; 18].
  cbn [foldr]. repeat match goal with
  | |- context [2 ^ ?e] => let v := eval vm_compute in (2 ^ e) in change (2 ^ e) with v
  end. Z.to_euclidean_division_equations. lia.
Qed.

(** ** The boot-time allocator *)

Lemma page_round x : 0 <= x < two64 -> Z.land x (u64 (Z.lnot (PAGE_SIZE - 1))) / PAGE_SIZE = x / PAGE_SIZE.
Proof.
  intros Hx. change (u64 (Z.lnot (PAGE_SIZE - 1))) with (Z.shiftl (Z.ones 52) 12).
  change PAGE_SIZE with (2 ^ 12). rewrite <- !Z.shiftr_div_pow2, Z.shiftr_land by lia.
  rewrite Z.shiftr_shiftl_l by lia. change (12 - 12) with 0. rewrite Z.shiftl_0_r, Z.land_ones by lia.
  apply Z.mod_small. rewrite Z.shiftr_div_pow2 by lia. change two64 with (2 ^ 52 * 2 ^ 12) in Hx.
  split; [apply Z.div_pos|apply Z.div_lt_upper_bound]; lia.
Qed.

(** The pages [early_alloc] takes for [size] bytes. *)
Definition early_pages (size : Z) : Z := (size + PAGE_SIZE - 1) / PAGE_SIZE.

(** What the boot-time allocator relies on: the map of usable frames covers
    memory that the direct map reaches, and frame 0 is not usable. *)
Record early_ok (f : frame_sys) : Prop := {
  eo_wf : bitmap_wf (usable_regions f);
  eo_lock : bm_lock (usable_regions f) = false /\ frame_op_lock f = false;
  eo_zero : bit (usable_regions f) 0 = false;
  eo_pos : 0 <= early_last_alloc_pos f <= bm_length (usable_regions f);
  eo_map : 0 <= physical_memory_offset f /\
    physical_memory_offset f + bm_length (usable_regions f) * PAGE_SIZE < two64;
}.

(** [k] usable frames in a row, from [s] on, where the next search looks. *)
Definition early_room (f : frame_sys) (s k : Z) : Prop :=
  8 * (early_last_alloc_pos f / 8) <= s /\ s + k <= bm_length (usable_regions f) /\ run (usable_regions f) true s k.

(** What an early allocation leaves alone: all but the search position and
    the map of usable frames, of which it only clears bits. *)
Record early_same (f f' : frame_sys) : Prop := {
  es_mem : fr_mem f' = with_ref (fr_mem f)
    (mkRefCtx (page_maps (ms_ref (fr_mem f))) (memory_size f) (usable_regions f'));
  es_off : physical_memory_offset f' = physical_memory_offset f;
  es_nr : nr_zones f' = nr_zones f;
  es_usable : forall q, bit (usable_regions f') q = true -> bit (usable_regions f) q = true;
}.

Lemma bit_in b q : bitmap_wf b -> bit b q = true -> 0 <= q < bm_length b.
Proof.
  intros (-> & _) Hb. unfold bit in Hb. destruct (zget (bm_buffer b) (q / 8)) eqn:E; [|done].
  apply zget_range in E. pose proof (Z.div_mod q 8). pose proof (Z.mod_pos_bound q 8). lia.
Qed.

Lemma early_room_le f s k k' : k' <= k -> early_room f s k -> early_room f s k'.
Proof. intros Hk (? & ? & Hr). split_and!; [done|lia|]. intros i Hi. apply Hr. lia. Qed.

(** An early allocation takes usable frames in a row and leaves all but
    seven of the others of the run it was promised. *)
Lemma early_alloc_spec f s k size :
  early_ok f -> early_room f s k -> 0 < size -> size + PAGE_SIZE < two64 -> early_pages size + 7 <= k ->
  exists v r f' s', early_alloc f size = Some (v, f') /\ v <> 0 /\
    virt_to_phys (physical_memory_offset f') v = r * PAGE_SIZE /\ 0 < r /\ r + early_pages size <= bm_length (usable_regions f) /\
    run (usable_regions f) true r (early_pages size) /\ run (usable_regions f') false r (early_pages size) /\
    early_ok f' /\ early_same f f' /\ bm_length (usable_regions f') = bm_length (usable_regions f) /\
    early_room f' s' (k - early_pages size - 7).
Proof.
  intros [Hwf [Hl1 Hl2] Hz Hpos [Hoff Hmap]] (Hs & Hlen & Hrun) H0 Hsz Hk.
  assert (0 < early_pages size) as Hn by (apply Z.div_str_pos; unfold PAGE_SIZE; lia).
  unfold early_alloc. replace (size =? 0) with false by lia.
  rewrite u64_id by (unfold PAGE_SIZE in *; lia). rewrite page_round by (unfold PAGE_SIZE in *; lia).
  fold (early_pages size). set (n := early_pages size) in *. clearbody n.
  unfold alloc_frames_early. replace (n =? 0) with false by lia. rewrite Hl2; cbn [spin_lock mbind option_bind].
  change (usable_regions (fr_with_lock f true)) with (usable_regions f).
  change (early_last_alloc_pos (fr_with_lock f true)) with (early_last_alloc_pos f).
  destruct (bitmap_find_range_from_first (usable_regions f) n (early_last_alloc_pos f) s) as (r & -> & Hr1 & Hr2 & Hr3);
    try done; [lia|intros i Hi; apply Hrun; lia|]. cbn [mbind option_bind].
  pose proof Hwf as (_ & Hmax & _).
  assert (0 < r) as Hr0.
  { pose proof (Z.mul_div_le (early_last_alloc_pos f) 8 ltac:(lia)). pose proof (Z.div_pos (early_last_alloc_pos f) 8).
    destruct (decide (r = 0)) as [->|]; [|lia]. rewrite Hr3 in Hz by lia. done. }
  assert (r + n <= bm_length (usable_regions f)) as Hrn by lia.
  rewrite !(u64_id (r + n)) by lia.
  replace (r =? SIZE_MAX) with false by lia. replace (r + n >? bm_length (usable_regions f)) with false by lia. cbn [orb].
  destruct (bitmap_set_range_spec (usable_regions f) r (r + n) false) as (b & -> & Hbwf & (Hb1 & Hb2 & _) & Hup); try done; [lia|lia|].
  cbn [mbind option_bind]. set (f' := fr_with_lock _ _).
  assert (usable_regions f' = b) as Eb by done. assert (early_last_alloc_pos f' = r + n) as Ep by done.
  assert (PAGE_SIZE * r + PAGE_SIZE <= bm_length (usable_regions f) * PAGE_SIZE) as Hpr by (unfold PAGE_SIZE; lia).
  rewrite (u64_id (r * PAGE_SIZE)) by (unfold PAGE_SIZE in *; lia).
  replace (r * PAGE_SIZE =? SIZE_MAX) with false by (unfold PAGE_SIZE in *; lia).
  change (physical_memory_offset f') with (physical_memory_offset f).
  unfold phys_to_virt. replace (r * PAGE_SIZE =? 0) with false by (unfold PAGE_SIZE; lia).
  rewrite (u64_id (r * PAGE_SIZE + physical_memory_offset f)) by (unfold PAGE_SIZE in *; lia).
  set (v := r * PAGE_SIZE + physical_memory_offset f). assert (v <> 0) as Hv by (unfold v, PAGE_SIZE in *; lia).
  replace (v =? 0) with false by lia.
  assert (forall q, bit b q = true -> bit (usable_regions f) q = true) as Hsub.
  { intros q Hq. pose proof (bit_in _ _ Hbwf Hq). rewrite Hup in Hq by lia. by destruct (within r (r + n) q). }
  assert (run b false r n) as Hclr.
  { intros i Hi. rewrite Hup by lia. unfold within. by replace ((r <=? i) && (i <? r + n)) with true by lia. }
  exists v, r, f', (Z.max s (r + n)). rewrite Eb. split; [done|]. split; [done|]. split.
  { unfold virt_to_phys. change (physical_memory_offset f') with (physical_memory_offset f). replace (v =? 0) with false by lia.
    unfold v. rewrite u64_id; unfold PAGE_SIZE in *; lia. }
  do 4 (split; [done|]). split; [|split; [done|split; [done|]]].
  - constructor; rewrite ?Eb, ?Ep; try done; [split; [congruence|done]| |lia|].
    + destruct (bit b 0) eqn:E; [|done]. by rewrite Hsub in Hz.
    + rewrite Hb2. done.
  - unfold early_room. rewrite Eb, Ep. pose proof (Z.mul_div_le (r + n) 8 ltac:(lia)).
    split_and!; [lia|lia|]. intros i Hi. rewrite Hup by lia.
    replace (within r (r + n) i) with false by (unfold within; lia). apply Hrun. lia.
Qed.

(** ** [buddy_init] *)

(** What building the zones leaves alone. *)
Record boot_kept (f f' : frame_sys) : Prop := {
  kp_using : ms_using (fr_mem f') = ms_using (fr_mem f);
  kp_maps : page_maps (ms_ref (fr_mem f')) = page_maps (ms_ref (fr_mem f));
  kp_size : memory_size f' = memory_size f;
  kp_off : physical_memory_offset f' = physical_memory_offset f;
  kp_len : bm_length (usable_regions f') = bm_length (usable_regions f);
  kp_usable : forall q, bit (usable_regions f') q = true -> bit (usable_regions f) q = true;
}.

Lemma early_kept f f' :
  early_same f f' -> bm_length (usable_regions f') = bm_length (usable_regions f) -> boot_kept f f'.
Proof. intros [Em Eo _ Eu] El. unfold memory_size. constructor; try done; unfold memory_size; by rewrite Em. Qed.

Lemma boot_kept_trans f g h : boot_kept f g -> boot_kept g h -> boot_kept f h.
Proof. intros [] []. constructor; try congruence. auto. Qed.

(** The pool itself: its place and size. *)
Definition md_pool_same (m m' : meta) : Prop :=
  metadata_pool_phys m' = metadata_pool_phys m /\ metadata_pool_pages m' = metadata_pool_pages m.

Lemma page_alloc_pool m q m' : metadata_page_alloc m = Some (q, m') -> md_pool_same m m'.
Proof.
  unfold metadata_page_alloc. destruct (spin_lock (metadata_lock m)); [|done]. cbn [mbind option_bind].
  destruct (negb _); [destruct (page_list_read m _); [|done]|destruct (metadata_pool_used m <? _); [|done]];
    cbn [mbind option_bind]; (case_if; [done|]); by intros [= <- <-].
Qed.

Lemma init_heads_pool k : forall m fa m', init_heads k m = Some (fa, m') -> md_pool_same m m'.
Proof.
  induction k as [|k IH]; intros m fa m'; cbn [init_heads]; [by intros [= <- <-]|].
  destruct (metadata_page_alloc m) as [[q m1]|] eqn:E1; [|done]. cbn [mbind option_bind].
  destruct (init_heads k m1) as [[fa1 m2]|] eqn:E2; [|done]. cbn [mbind option_bind]. intros [= <- <-].
  destruct (page_alloc_pool _ _ _ E1), (IH _ _ _ E2). split; congruence.
Qed.

Lemma init_zone_pool m ty first last z m' : init_zone m ty first last = Some (z, m') -> md_pool_same m m'.
Proof.
  unfold init_zone. destruct (init_heads _ m) as [[fa m1]|] eqn:E; [|done]. cbn [mbind option_bind].
  intros [= <- <-]. by eapply init_heads_pool.
Qed.

Lemma boot_ok_ext s s' C :
  ms_md s' = ms_md s -> (forall ty, ms_zones s' ty = ms_zones s ty) -> boot_ok s C -> boot_ok s' C.
Proof.
  intros Em Ez [Hb Hz Hs]. constructor; [|intros ty z; rewrite Ez; apply Hz|intros ty z; rewrite Ez; apply Hs].
  rewrite Em. eapply bags_ext; [| | |exact Hb]; [|intros; reflexivity|done]. intros t. unfold heads. by rewrite Ez.
Qed.

(** A zone is there exactly when its range is not empty. *)
Definition zone_there (s : memsys) (ty : zone_type) (first last : Z) : Prop :=
  match ms_zones s ty with
  | Some z => first < last /\ zone_start_pfn z = first /\ zone_end_pfn z = last
  | None => last <= first
  end.

(** The zones of [s'] are those of [s] but for [ty]. *)
Definition other_zones (s s' : memsys) (ty : zone_type) : Prop :=
  forall ty', ty' <> ty -> ms_zones s' ty' = ms_zones s ty'.

Lemma create_zone_spec f s k C ty first last :
  early_ok f -> early_room f s k -> 8 <= k -> boot_ok (fr_mem f) C -> ms_zones (fr_mem f) ty = None ->
  (first < last -> zone_span ty first last) ->
  (forall i, 0 <= i < ORDER_COUNT -> page_share first last i <= C (ty, i)) ->
  exists f' s', create_zone f ty first last = Some f' /\ early_ok f' /\ early_room f' s' (k - 8) /\
    boot_kept f f' /\ boot_ok (fr_mem f') C /\ other_zones (fr_mem f) (fr_mem f') ty /\
    zone_there (fr_mem f') ty first last /\ md_pool_same (ms_md (fr_mem f)) (ms_md (fr_mem f')).
Proof.
  intros He Hr Hk Hb Hn Hspan Hsh. unfold create_zone. destruct (Z.leb_spec last first) as [Hle|Hlt].
  { eexists _, s. split; [done|].
    split; [by destruct He|]. split; [apply (early_room_le f s k); [lia|done]|].
    split; [by constructor|]. split.
    { apply (boot_ok_ext (fr_mem f)); [done| |exact Hb]. intros ty'. cbn. case_decide; congruence. }
    split; [intros ty' Hne; cbn; by rewrite decide_False|]. split; [|done].
    unfold zone_there; cbn. by rewrite decide_True. }
  destruct (early_alloc_spec f s k sizeof_zone_t) as (v & r & f1 & s1 & -> & Hv & _ & _ & _ & _ & _ & He1 & Hs1 & Hl1 & Hr1); try done.
  cbn [mbind option_bind]. change (early_pages sizeof_zone_t) with 1 in *. replace (v =? 0) with false by lia.
  pose proof (es_mem _ _ Hs1) as Em.
  assert (boot_ok (fr_mem f1) C) as Hb1 by (rewrite Em; by apply (boot_ok_ext (fr_mem f))).
  destruct (init_zone_spec (fr_mem f1) C ty first last Hb1) as (z & m & E & Ez1 & Ez2 & Hb2); try done; [by rewrite Em|by apply Hspan|].
  rewrite E; cbn [mbind option_bind]. eexists _, s1. split; [done|]. split; [by destruct He1|].
  replace (k - 8) with (k - 1 - 7) by lia. split; [exact Hr1|].
  split; [by destruct (early_kept _ _ Hs1 Hl1)|]. split; [exact Hb2|]. split.
  { intros ty' Hne. cbn. rewrite decide_False by done. by rewrite Em. }
  split; [unfold zone_there; cbn; by rewrite decide_True|]. cbn.
  pose proof (init_zone_pool _ _ _ _ _ _ E) as Hp. by rewrite Em in Hp.
Qed.

(** The frames the boot-time allocator must still have in a row for the pool,
    the zones and the bitmap; each of the five requests may skip seven. *)
Definition boot_frames (n : Z) : Z := pool_pages n + early_pages (Z.max 1 ((n + 7) / 8)) + 3 + 5 * 7.

Lemma zone_spans n ty : 0 <= n -> n * PAGE_SIZE < two64 -> zone_first n ty < zone_last n ty ->
  zone_span ty (zone_first n ty) (zone_last n ty).
Proof.
  intros Hn Hw. unfold zone_span, zone_first, zone_last, phys_to_zone_type. rewrite !MIN_min.
  change (ZONE_DMA_END / PAGE_SIZE) with 4096. change (ZONE_DMA32_END / PAGE_SIZE) with 1048576.
  change ZONE_DMA_END with 16777216. change ZONE_DMA32_END with 4294967296. unfold PAGE_SIZE in *.
  destruct ty; intros Hlt; (split_and!; [lia|lia|lia|]); intros p Hp; repeat case_if; bools; done || lia.
Qed.

Lemma early_pages_mul p : 0 <= p -> early_pages (p * PAGE_SIZE) = p.
Proof. intros. unfold early_pages. symmetry. apply Z.div_unique with (PAGE_SIZE - 1); unfold PAGE_SIZE; lia. Qed.

Lemma boot_share_nonneg n t : 0 <= n -> 0 <= boot_share n t.
Proof.
  intros Hn. destruct t as [ty i]. unfold boot_share, page_share, max_blocks; cbn [fst snd]. rewrite capacity_510.
  set (d := 2 ^ _). assert (0 <= d) by (by apply Z.pow_nonneg). destruct (decide (d = 0)) as [->|]; [by rewrite !Z.div_0_r|].
  assert (zone_first n ty <= zone_last n ty) as Hle.
  { destruct ty; cbn; rewrite ?MIN_min; change (ZONE_DMA_END / PAGE_SIZE) with 4096; change (ZONE_DMA32_END / PAGE_SIZE) with 1048576; lia. }
  apply (Z.div_le_mono _ _ d ltac:(lia)) in Hle.
  pose proof (Z.div_pos (zone_last n ty / d - zone_first n ty / d + 1) 510). lia.
Qed.

(** The three zones, one after the other. *)
Lemma create_zones_spec f s k n :
  early_ok f -> early_room f s (24 + k) -> 0 <= k -> 0 <= n -> n * PAGE_SIZE < two64 ->
  boot_ok (fr_mem f) (boot_share n) -> (forall ty, ms_zones (fr_mem f) ty = None) ->
  exists f1 f2 f3 s', create_zone f ZONE_DMA (zone_first n ZONE_DMA) (zone_last n ZONE_DMA) = Some f1 /\
    create_zone f1 ZONE_DMA32 (zone_first n ZONE_DMA32) (zone_last n ZONE_DMA32) = Some f2 /\
    create_zone f2 ZONE_NORMAL (zone_first n ZONE_NORMAL) (zone_last n ZONE_NORMAL) = Some f3 /\
    early_ok f3 /\ early_room f3 s' k /\ boot_kept f f3 /\ boot_ok (fr_mem f3) (boot_share n) /\
    (forall ty, zone_there (fr_mem f3) ty (zone_first n ty) (zone_last n ty)) /\
    md_pool_same (ms_md (fr_mem f)) (ms_md (fr_mem f3)).
Proof.
  intros He Hr Hk Hn Hw Hb Hnone.
  destruct (create_zone_spec f s (24 + k) _ ZONE_DMA _ _ He Hr ltac:(lia) Hb (Hnone _) (zone_spans n ZONE_DMA Hn Hw))
    as (f1 & s1 & E1 & He1 & Hr1 & K1 & Hb1 & O1 & Z1 & P1); [done|].
  destruct (create_zone_spec f1 s1 (24 + k - 8) _ ZONE_DMA32 _ _ He1 Hr1 ltac:(lia) Hb1 ltac:(by rewrite O1) (zone_spans n ZONE_DMA32 Hn Hw))
    as (f2 & s2 & E2 & He2 & Hr2 & K2 & Hb2 & O2 & Z2 & P2); [done|].
  destruct (create_zone_spec f2 s2 (24 + k - 8 - 8) _ ZONE_NORMAL _ _ He2 Hr2 ltac:(lia) Hb2 ltac:(by rewrite O2, O1) (zone_spans n ZONE_NORMAL Hn Hw))
    as (f3 & s3 & E3 & He3 & Hr3 & K3 & Hb3 & O3 & Z3 & P3); [done|].
  exists f1, f2, f3, s3. replace (24 + k - 8 - 8 - 8) with k in Hr3 by lia. do 5 (split; [done|]).
  split; [eauto using boot_kept_trans|]. split; [done|]. split.
  - intros [| |]; unfold zone_there in *; [by rewrite O3, O2|by rewrite O3|done].
  - destruct P1, P2, P3. split; congruence.
Qed.

Lemma bitmap_init_spec k :
  0 <= k -> k * 8 < two64 ->
  bitmap_init (replicate (Z.to_nat k) 0) k = Some (mkBitmap false (replicate (Z.to_nat k) 0) (k * 8) 1).
Proof.
  intros Hk Hw. unfold bitmap_init. rewrite zlen_replicate. rewrite Z2Nat.id by done. rewrite Z.leb_refl.
  rewrite drop_ge by (by rewrite length_replicate). by rewrite app_nil_r, u64_id by lia.
Qed.

Lemma bit_replicate_0 l k n q : bit (mkBitmap l (replicate k 0) n 1) q = false.
Proof.
  unfold bit; cbn [bm_buffer]. destruct (zget (replicate k 0) (q / 8)) as [y|] eqn:E; [|done].
  apply zget_elem, elem_of_replicate in E as [-> _]. apply Z.testbit_0_l.
Qed.

(** The sizes [buddy_init] computes do not wrap. *)
Lemma pool_size n :
  0 <= n < 2 ^ 40 ->
  0 < pool_pages n < 2 ^ 41 /\
  u64 (u64 (u64 (n + PAGE_LIST_ENTRY_CAPACITY - 1) / PAGE_LIST_ENTRY_CAPACITY) + (ORDER_COUNT * MAX_NR_ZONES + 16)) = pool_pages n.
Proof.
  intros Hn. unfold pool_pages. rewrite capacity_510. change (ORDER_COUNT * MAX_NR_ZONES + 16) with 73.
  pose proof (Z.div_pos (n + 510 - 1) 510). assert ((n + 510 - 1) / 510 <= n + 510 - 1) by (apply Z.div_le_upper_bound; lia).
  rewrite (u64_id (n + 510 - 1)), (u64_id ((n + 510 - 1) / 510)), u64_id by lia. lia.
Qed.

Lemma bitmap_bytes_size n :
  0 <= n < 2 ^ 40 -> let bytes := Z.max 1 ((n + 7) / 8) in
  (if u64 (n + 7) / 8 =? 0 then 1 else u64 (n + 7) / 8) = bytes /\ 1 <= bytes < 2 ^ 40 /\ n <= bytes * 8.
Proof.
  intros Hn bytes. rewrite u64_id by lia. unfold bytes. pose proof (Z.div_pos (n + 7) 8).
  split; [case_if; lia|]. clear -Hn. Z.to_euclidean_division_equations. lia.
Qed.

(** The last part of [buddy_init]: the bitmap of handed-out frames. *)
Lemma boot_finish g s bb n pm :
  early_ok g -> early_room g s (early_pages bb + 7) -> boot_ok (fr_mem g) (boot_share n) ->
  (forall ty, zone_there (fr_mem g) ty (zone_first n ty) (zone_last n ty)) ->
  1 <= bb < 2 ^ 40 -> n <= bb * 8 -> page_maps (ms_ref (fr_mem g)) = Some pm -> n <= zlen pm ->
  exists v g' b, early_alloc g bb = Some (v, g') /\ v <> 0 /\ bitmap_init (replicate (Z.to_nat bb) 0) bb = Some b /\
    boot_kept g g' /\ ms_md (fr_mem g') = ms_md (fr_mem g) /\
    mem_ok (with_using (fr_mem g') b) (fun _ => []) pm (boot_share n) /\
    (forall ty, zone_there (with_using (fr_mem g') b) ty (zone_first n ty) (zone_last n ty)) /\
    forall q, bit b q = false.
Proof.
  intros He Hr Hb Hz Hbb Hcov Hpm Hn.
  destruct (early_alloc_spec g s (early_pages bb + 7) bb He Hr)
    as (v & r & g' & s' & -> & Hv & _ & _ & _ & _ & _ & _ & Hs & Hl & _); try (unfold PAGE_SIZE; lia).
  pose proof (early_kept _ _ Hs Hl) as K. pose proof (es_mem _ _ Hs) as Em.
  eexists v, g', _. split; [done|]. split; [done|]. split; [by apply bitmap_init_spec; lia|]. split; [done|].
  split; [by rewrite Em|]. split; [|split; [|intros q; apply bit_replicate_0]].
  - apply boot_mem_ok; [rewrite Em; by apply (boot_ok_ext (fr_mem g))| |done|cbn; by rewrite (kp_maps _ _ K)|].
    + unfold bitmap_wf; cbn [ms_using with_using bm_length bm_buffer]. rewrite zlen_replicate.
      split_and!; [lia|lia|]. by apply Forall_replicate.
    + intros ty z Ez. specialize (Hz ty). unfold zone_there in Hz. cbn in Ez. rewrite Em in Ez; cbn in Ez. rewrite Ez in Hz.
      destruct Hz as (_ & _ & ->). assert (zone_last n ty <= n) by (destruct ty; cbn; rewrite ?MIN_min; lia). cbn. lia.
  - intros ty. specialize (Hz ty). unfold zone_there in *. cbn. by rewrite Em.
Qed.

(** [buddy_init], given the frames for its tables: the pool is sized for every
    way the zones can fragment, the zones that are not empty are built with
    empty free lists, and the invariant of the allocator holds. *)
Lemma buddy_init_spec f s pm :
  let n := memory_size f / PAGE_SIZE in
  early_ok f -> early_room f s (boot_frames n) -> 0 <= memory_size f < 2 ^ 52 ->
  page_maps (ms_ref (fr_mem f)) = Some pm -> n <= zlen pm ->
  exists f' r, buddy_init f = Some f' /\ mem_ok (fr_mem f') (fun _ => []) pm (boot_share n) /\
    sum_tags (boot_share n) <= metadata_pool_pages (ms_md (fr_mem f')) /\
    metadata_pool_phys (ms_md (fr_mem f')) = r * PAGE_SIZE /\
    (forall q, r <= q < r + metadata_pool_pages (ms_md (fr_mem f')) ->
       bit (usable_regions f) q = true /\ bit (usable_regions f') q = false) /\
    (forall ty, zone_there (fr_mem f') ty (zone_first n ty) (zone_last n ty)) /\
    (forall q, bit (ms_using (fr_mem f')) q = false) /\
    (forall q, bit (usable_regions f') q = true -> bit (usable_regions f) q = true).
Proof.
  intros n He Hr Hm Hpm Hn.
  assert (0 <= n < 2 ^ 40) as Hn' by (unfold n, PAGE_SIZE; split; [apply Z.div_pos|apply Z.div_lt_upper_bound]; lia).
  destruct (pool_size n Hn') as [Hpp Ep]. destruct (bitmap_bytes_size n Hn') as (Eb & Hbb & Hcov).
  unfold buddy_init. change (memory_size (fr_with_nr f 0)) with (memory_size f). fold n. rewrite Ep.
  rewrite (u64_id (pool_pages n * PAGE_SIZE)) by (unfold PAGE_SIZE; lia).
  set (bb := Z.max 1 ((n + 7) / 8)) in *. set (k := early_pages bb + 7).
  assert (boot_frames n = pool_pages n + 7 + (24 + k)) as Ek by (unfold k, boot_frames; fold bb; lia).
  assert (7 <= k) as Hk by (unfold k, early_pages; pose proof (Z.div_pos (bb + PAGE_SIZE - 1) PAGE_SIZE); unfold PAGE_SIZE in *; lia).
  rewrite Ek in Hr.
  destruct (early_alloc_spec (fr_with_nr f 0) s _ (pool_pages n * PAGE_SIZE) ltac:(by destruct He) Hr)
    as (v & r & f1 & s1 & -> & Hv & Er & Hr0 & Hrb & Hrun & Hclr & He1 & Hs1 & Hl1 & Hr1);
    [unfold PAGE_SIZE; lia|unfold PAGE_SIZE; lia|rewrite early_pages_mul by lia; lia|].
  rewrite early_pages_mul in * by lia. cbn [mbind option_bind]. replace (v =? 0) with false by lia. rewrite Er.
  replace (pool_pages n + 7 + (24 + k) - pool_pages n - 7) with (24 + k) in Hr1 by lia.
  pose proof (early_kept _ _ Hs1 Hl1) as K1. destruct (eo_map _ He1) as [Ho1 Ho2]. rewrite Hl1 in Ho2.
  set (f2 := fr_with_mem f1 _). change (memory_size f2) with (memory_size f1). rewrite (kp_size _ _ K1).
  change (memory_size (fr_with_nr f 0)) with (memory_size f). fold n.
  assert (boot_ok (fr_mem f2) (boot_share n)) as Hb2.
  { constructor; [|done|done]. apply bags_init; [unfold PAGE_SIZE; lia|lia|unfold PAGE_SIZE in *; lia| |by apply pool_covers; lia].
    intros t. apply boot_share_nonneg. lia. }
  destruct (create_zones_spec f2 s1 k n)
    as (g1 & g2 & g3 & s2 & E1 & E2 & E3 & He3 & Hr3 & K3 & Hb3 & Hz3 & P1 & P2); try done; try (unfold PAGE_SIZE; lia); [by destruct He1|].
  cbn [zone_first zone_last] in E1, E2, E3. rewrite E1; cbn [mbind option_bind]. rewrite E2; cbn [mbind option_bind].
  rewrite E3; cbn [mbind option_bind]. rewrite Eb.
  destruct (boot_finish g3 s2 bb n pm) as (v' & g4 & b & -> & Hv' & -> & K4 & Emd & Hm4 & Hz4 & Hb4); try done;
    [rewrite (kp_maps _ _ K3); change (page_maps (ms_ref (fr_mem f2))) with (page_maps (ms_ref (fr_mem f1))); by rewrite (kp_maps _ _ K1)|].
  cbn [mbind option_bind]. replace (v' =? 0) with false by lia. eexists _, r. split; [done|]. split; [exact Hm4|].
  cbn [fr_mem fr_with_mem with_using ms_md ms_using]. rewrite Emd, P1, P2. cbn [ms_md fr_mem f2 fr_with_mem metadata_pool_pages metadata_pool_phys].
  change (usable_regions (fr_with_mem g4 (with_using (fr_mem g4) b))) with (usable_regions g4).
  assert (forall q, bit (usable_regions g4) q = true -> bit (usable_regions f1) q = true) as Hsub
    by (intros q ?%(kp_usable _ _ K4)%(kp_usable _ _ K3); done).
  split; [by apply pool_covers; lia|]. split; [done|]. split.
  { intros q Hq. split; [by apply Hrun|]. destruct (bit (usable_regions g4) q) eqn:E; [|done].
    apply Hsub in E. rewrite Hclr in E by lia. done. }
  split; [exact Hz4|]. split; [exact Hb4|]. intros q ?%Hsub%(kp_usable _ _ K1). done.
Qed.

(** ** Filling a zone *)

Lemma floor_order_loop_spec bytes : forall fuel o,
  MIN_ORDER <= o < MAX_ORDER -> 2 ^ o <= bytes ->
  MIN_ORDER <= floor_order_loop fuel o bytes < MAX_ORDER /\ 2 ^ floor_order_loop fuel o bytes <= bytes.
Proof.
  induction fuel as [|fuel IH]; intros o Ho Hb; cbn [floor_order_loop]; [done|].
  case_if; [|done]. bools. apply IH; [lia|]. rewrite Z.shiftl_1_l in *.
  assert (2 ^ (o + 1) < 2 ^ 64) by (apply Z.pow_lt_mono_r; olia).
  assert (0 < 2 ^ (o + 1)) by (apply pow2_pos; olia). change (2 ^ 64) with two64 in *. rewrite u64_id in * by lia. lia.
Qed.

Lemma ctzll_spec x : 0 < x -> 0 <= ctzll x /\ (2 ^ ctzll x | x).
Proof.
  intros Hx. destruct x as [|p|p]; try lia. simpl. induction p as [p IH|p IH|]; simpl pos_ctz.
  - split; [lia|]. apply Z.divide_1_l.
  - destruct IH as [H0 [k Hk]]; [lia|]. split; [lia|]. exists k. rewrite Z.pow_add_r by lia. lia.
  - split; [lia|]. apply Z.divide_1_l.
Qed.

Lemma ctzll_ge x k : 0 < x -> 0 <= k -> (2 ^ k | x) -> k <= ctzll x.
Proof.
  intros Hx Hk. destruct x as [|p|p]; try lia. simpl. revert k Hk. induction p as [p IH|p IH|]; intros k Hk [j Hj]; simpl pos_ctz.
  - destruct (decide (k = 0)) as [->|]; [lia|]. replace k with (k - 1 + 1) in Hj by lia.
    rewrite Z.pow_add_r in Hj by lia. lia.
  - destruct (decide (k = 0)) as [->|]; [assert (0 <= pos_ctz p) by (by apply (ctzll_spec (Z.pos p))); lia|].
    assert (k - 1 <= pos_ctz p); [|lia]. apply IH; [lia|lia|]. exists j.
    replace k with (k - 1 + 1) in Hj by lia. rewrite Z.pow_add_r in Hj by lia. lia.
  - destruct (decide (k = 0)) as [->|]; [lia|]. replace k with (k - 1 + 1) in Hj by lia.
    rewrite Z.pow_add_r in Hj by lia. lia.
Qed.

(** The order the region loop picks at [current]. *)
Definition region_order (current end_ : Z) : Z :=
  let by_size := floor_order_for_size (u64 (end_ - current)) in
  let by_align := if current =? 0 then MAX_ORDER - 1 else MIN (ctzll current) (MAX_ORDER - 1) in
  let order := MIN by_size by_align in
  if order <? MIN_ORDER then MIN_ORDER else order.

Lemma region_order_spec current end_ :
  0 < current -> current + PAGE_SIZE <= end_ -> end_ < two64 -> (PAGE_SIZE | current) ->
  let o := region_order current end_ in
  MIN_ORDER <= o < MAX_ORDER /\ (2 ^ o | current) /\ current + 2 ^ o <= end_.
Proof.
  intros Hc He Hw Ha o. unfold o, region_order. rewrite u64_id by (unfold PAGE_SIZE in *; lia).
  destruct (floor_order_loop_spec (end_ - current) (Z.to_nat ORDER_COUNT) MIN_ORDER) as [Hf1 Hf2]; [olia| |].
  { unfold PAGE_SIZE in *. change (2 ^ MIN_ORDER) with 4096. lia. }
  fold (floor_order_for_size (end_ - current)) in *. set (f := floor_order_for_size (end_ - current)) in *.
  replace (current =? 0) with false by lia. destruct (ctzll_spec current Hc) as [Hz0 Hz].
  assert (MIN_ORDER <= ctzll current) by (by apply ctzll_ge). rewrite !MIN_min.
  replace (Z.min f (Z.min (ctzll current) (MAX_ORDER - 1)) <? MIN_ORDER) with false by olia.
  set (g := Z.min f _). assert (MIN_ORDER <= g <= f) by (unfold g; olia). split_and!; [olia|olia| |].
  - apply (divide_pow2_le _ (ctzll current)); [unfold g; olia|done].
  - assert (2 ^ g <= 2 ^ f) by (apply Z.pow_le_mono_r; olia). lia.
Qed.

(** [n] frames from frame [p] on. *)
Definition frame_run (p n : Z) : list Z := seqZ p n.

Lemma run_split current end_ o :
  (PAGE_SIZE | current) -> (PAGE_SIZE | end_) -> 0 <= current -> MIN_ORDER <= o -> current + 2 ^ o <= end_ ->
  frame_run (current / PAGE_SIZE) ((end_ - current) / PAGE_SIZE) =
  pages_of (o, current) ++ frame_run ((current + 2 ^ o) / PAGE_SIZE) ((end_ - (current + 2 ^ o)) / PAGE_SIZE) /\
  (PAGE_SIZE | current + 2 ^ o).
Proof.
  intros [i ->] [j ->] H0 Ho He. rewrite (pow2_pages o Ho) in *. assert (0 < 2 ^ (o - MIN_ORDER)) by (apply pow2_pos; lia).
  set (k := 2 ^ (o - MIN_ORDER)) in *. unfold frame_run, pages_of; cbn [fst snd]. fold k.
  replace (j * PAGE_SIZE - i * PAGE_SIZE) with ((j - i) * PAGE_SIZE) by lia.
  replace (i * PAGE_SIZE + k * PAGE_SIZE) with ((i + k) * PAGE_SIZE) by lia.
  replace (j * PAGE_SIZE - (i + k) * PAGE_SIZE) with ((j - i - k) * PAGE_SIZE) by lia.
  rewrite !Z.div_mul by done. split; [|by exists (i + k)].
  replace (j - i) with (k + (j - i - k)) at 1 by lia. apply seqZ_app; unfold PAGE_SIZE in *; lia.
Qed.

(** What filling leaves of the zone record. *)
Definition same_zone (z z' : zone_t) : Prop :=
  zone_start_pfn z' = zone_start_pfn z /\ zone_end_pfn z' = zone_end_pfn z /\ zn_type z' = zn_type z /\
  zn_lock z' = zn_lock z.

Lemma add_region_loop_spec C : forall fuel m hd B z current end_,
  bags m hd B C -> heads_ok hd z -> shares_ok C z -> zinv z (blks B (zn_type z)) ->
  (PAGE_SIZE | current) -> (PAGE_SIZE | end_) -> 0 < current <= end_ ->
  zone_start_pfn z * PAGE_SIZE <= current -> end_ <= zone_end_pfn z * PAGE_SIZE ->
  (end_ - current) / PAGE_SIZE < Z.of_nat fuel ->
  NoDup (frame_run (current / PAGE_SIZE) ((end_ - current) / PAGE_SIZE) ++ frees (blks B (zn_type z))) ->
  exists m' z' B', add_region_loop fuel m z current end_ = Some (m', z') /\ same_zone z z' /\
    zone_step m hd B C z m' (free_area z') B' /\ zinv z' (blks B' (zn_type z)) /\
    frees (blks B' (zn_type z)) ≡ₚ
      frame_run (current / PAGE_SIZE) ((end_ - current) / PAGE_SIZE) ++ frees (blks B (zn_type z)).
Proof.
  induction fuel as [|fuel IH]; intros m hd B z cur end_ Hb Hh Hsh Hzi Hac Hae Hc Hs He Hf Hnd.
  { pose proof (Z.div_pos (end_ - cur) PAGE_SIZE). unfold PAGE_SIZE in *. lia. }
  cbn [add_region_loop]. pose proof (zi_wf _ _ Hzi) as (Hw0 & Hw1 & Hw2). case_if.
  2:{ exists m, z, B. split; [done|]. split; [done|]. assert (end_ = cur) as -> by lia.
      rewrite Z.sub_diag. split; [|by split].
      split_and!; [by destruct Hh| |done]. eapply bags_ext; [| | |exact Hb]; [|done|done]. by apply zone_heads_same. }
  assert (cur + PAGE_SIZE <= end_) as Hstep.
  { destruct Hac as [i ->], Hae as [j ->]. unfold PAGE_SIZE in *. lia. }
  pose proof (region_order_spec cur end_ ltac:(lia) Hstep ltac:(lia) Hac) as (Ho & Hal & Hend).
  change (if _ <? MIN_ORDER then _ else _) with (region_order cur end_). set (o := region_order cur end_) in *.
  assert (0 < 2 ^ o) by (apply pow2_pos; olia).
  destruct (run_split cur end_ o Hac Hae ltac:(lia) ltac:(lia) Hend) as [Erun Hac'].
  rewrite Erun, <- app_assoc in Hnd.
  assert (block_ok z (o, cur)) as Hok by (constructor; simpl; first [done|lia]).
  assert (NoDup (pages_of (o, cur) ++ frees (blks B (zn_type z)))) as Hnd1.
  { apply NoDup_app in Hnd as (H1 & H2 & H3). apply NoDup_app in H3 as (_ & _ & H3). apply NoDup_app.
    split_and!; try done. intros p Hp Hq. apply (H2 p Hp). apply elem_of_app. by right. }
  destruct (free_locked_spec m hd B C z cur o Hb Hh Hsh Hzi Hok Hnd1)
    as (m1 & fa1 & B1 & z1 & -> & -> & (Hl1 & Hb1 & Ho1) & Hzi1 & Hfr1). cbn [mbind option_bind].
  rewrite order_to_bytes_pow by olia. rewrite (u64_id (cur + 2 ^ o)) by lia.
  set (z2 := zn_with_managed _ _).
  assert (zinv z2 (blks B1 (zn_type z2))) as Hzi2 by (by apply (zinv_ext _ z2) in Hzi1).
  destruct (IH m1 (zone_heads hd (zn_type z) fa1) B1 z2 (cur + 2 ^ o) end_)
    as (m' & z' & B' & -> & (E1 & E2 & E3 & E4) & (Hl & Hb' & Ho') & Hzi' & Hfr'); try done; try lia.
  { by apply (heads_ok_upd hd z fa1). } { simpl. lia. }
  { simpl. assert ((end_ - (cur + 2 ^ o)) / PAGE_SIZE < (end_ - cur) / PAGE_SIZE); [|lia].
    apply (f_equal (@length Z)) in Erun. unfold frame_run in Erun. rewrite length_app, !length_seqZ in Erun.
    assert (length (pages_of (o, cur)) <> 0%nat).
    { pose proof (zlen_pages_of o cur ltac:(lia)) as El. unfold zlen in El.
      assert (0 < 2 ^ (o - MIN_ORDER)) by (apply pow2_pos; lia). lia. }
    pose proof (Z.div_pos (end_ - (cur + 2 ^ o)) PAGE_SIZE). pose proof (Z.div_pos (end_ - cur) PAGE_SIZE).
    unfold PAGE_SIZE in *. lia. }
  { change (zn_type z2) with (zn_type z). rewrite Hfr1. rewrite app_assoc, (Permutation_app_comm (frame_run _ _)), <- app_assoc. done. }
  change (zn_type z2) with (zn_type z) in *.
  exists m', z', B'. split; [done|]. split; [done|]. split.
  - split_and!; [done| |intros t Hne; by rewrite Ho', Ho1].
    eapply bags_ext; [| | |exact Hb']; [|done|done]. intros t. by rewrite zone_heads_twice.
  - split; [done|]. rewrite Hfr', Hfr1, Erun. solve_Permutation.
Qed.

Lemma run_empty p n : n <= 0 -> frame_run p n = [].
Proof. intros. unfold frame_run, seqZ. by replace (Z.to_nat n) with 0%nat by lia. Qed.

(** The part of a region that [add_memory_region] gives to zone [z]: whole
    pages inside the zone. *)
Definition region_lo (z : zone_t) (start : Z) : Z :=
  Z.max (PADDING_UP start PAGE_SIZE) (zone_start_pfn z * PAGE_SIZE).
Definition region_hi (z : zone_t) (end_ : Z) : Z :=
  Z.min (PADDING_DOWN end_ PAGE_SIZE) (zone_end_pfn z * PAGE_SIZE).
Definition region_frames (z : zone_t) (start end_ : Z) : list Z :=
  frame_run (region_lo z start / PAGE_SIZE) ((region_hi z end_ - region_lo z start) / PAGE_SIZE).

Lemma region_aligned z start end_ :
  (PAGE_SIZE | region_lo z start) /\ (PAGE_SIZE | region_hi z end_).
Proof.
  assert (forall k, (PAGE_SIZE | k * PAGE_SIZE)) as Hk by (intros k; by exists k).
  unfold region_lo, region_hi, PADDING_UP, PADDING_DOWN.
  split; [destruct (Z.max_spec (u64 (start + PAGE_SIZE - 1) / PAGE_SIZE * PAGE_SIZE) (zone_start_pfn z * PAGE_SIZE)) as [[_ ->]|[_ ->]]|
    destruct (Z.min_spec (end_ / PAGE_SIZE * PAGE_SIZE) (zone_end_pfn z * PAGE_SIZE)) as [[_ ->]|[_ ->]]]; apply Hk.
Qed.

Lemma region_none z start end_ : region_lo z start >= region_hi z end_ -> region_frames z start end_ = [].
Proof.
  intros H. apply run_empty. pose proof (Z.div_le_mono (region_hi z end_ - region_lo z start) 0 PAGE_SIZE).
  unfold PAGE_SIZE in *. rewrite Z.div_0_l in * by lia. lia.
Qed.

(** The frames of the region become free; the rest of the state stays. *)
Lemma add_region_spec s B pm C ty z start end_ :
  mem_ok s B pm C -> ms_zones s ty = Some z -> 0 < start -> start + PAGE_SIZE < two64 -> 0 <= end_ < two64 ->
  (forall p, p ∈ region_frames z start end_ ->
     (p ∉ frees (blks B ty)) /\ bit (ms_using s) p = false /\ zget pm p = Some 0) ->
  exists s' B', add_memory_region s start end_ ty = Some s' /\ mem_ok s' B' pm C /\ same_rest s s' /\
    frees (blks B' ty) ≡ₚ region_frames z start end_ ++ frees (blks B ty) /\
    (forall ty', ty' <> ty -> blks B' ty' = blks B ty').
Proof.
  intros H Ez Hs Hs' He Hfree. destruct (mo_zone _ _ _ _ H _ _ Ez) as [Hty Hfa Hlk Hzi Hrange].
  pose proof (zi_wf _ _ Hzi) as (Hw0 & Hw1 & Hw2). unfold add_memory_region, get_zone. rewrite Ez.
  destruct (PADDING_UP_spec start PAGE_SIZE) as [Hpu _]; [lia|done|unfold PAGE_SIZE in *; lia|].
  destruct (PADDING_DOWN_le end_ PAGE_SIZE) as [Hpd0 Hpd1]; [lia|done|].
  assert (region_lo z start >= region_hi z end_ -> exists s' B', Some s = Some s' /\ mem_ok s' B' pm C /\ same_rest s s' /\
    frees (blks B' ty) ≡ₚ region_frames z start end_ ++ frees (blks B ty) /\
    (forall ty', ty' <> ty -> blks B' ty' = blks B ty')) as Hnop.
  { intros Hge. exists s, B. rewrite region_none by done. split_and!; try done. }
  case_if; [apply Hnop; unfold region_lo, region_hi; lia|].
  case_if; [apply Hnop; unfold region_lo, region_hi; lia|].
  unfold zone_phys_start, zone_phys_end. rewrite !u64_id by (unfold PAGE_SIZE in *; lia).
  assert ((if PADDING_UP start PAGE_SIZE <? zone_start_pfn z * PAGE_SIZE then zone_start_pfn z * PAGE_SIZE
    else PADDING_UP start PAGE_SIZE) = region_lo z start) as -> by (unfold region_lo; case_if; lia).
  assert ((if PADDING_DOWN end_ PAGE_SIZE >? zone_end_pfn z * PAGE_SIZE then zone_end_pfn z * PAGE_SIZE
    else PADDING_DOWN end_ PAGE_SIZE) = region_hi z end_) as -> by (unfold region_hi; case_if; lia).
  destruct (region_aligned z start end_) as [Hal Hah].
  case_if; [apply Hnop; lia|]. set (lo := region_lo z start) in *. set (hi := region_hi z end_) in *.
  rewrite Hlk. cbn [spin_lock mbind option_bind].
  assert (NoDup (region_frames z start end_ ++ frees (blks B ty))) as Hnd.
  { apply NoDup_app. split_and!; [apply NoDup_seqZ| |apply Hzi]. intros p Hp. by apply Hfree. }
  destruct (add_region_loop_spec C (S (Z.to_nat ((hi - lo) / PAGE_SIZE + 1))) (ms_md s) (heads s) B (zn_with_lock z true) lo hi)
    as (m' & z' & B' & -> & (F1 & F2 & F3 & F4) & (Hl & Hb' & Ho') & Hzi' & Hfr); try done.
  { apply H. } { apply (mem_ok_heads _ _ _ _ _ _ H Ez). } { exact (mo_shares _ _ _ _ H _ _ Ez). }
  { simpl. rewrite Hty. by apply (zinv_ext z). } { unfold lo, region_lo in *. lia. }
  { unfold lo, region_lo; simpl. lia. } { unfold hi, region_hi; simpl. lia. }
  { pose proof (Z.div_pos (hi - lo) PAGE_SIZE). unfold PAGE_SIZE in *. lia. }
  { simpl. by rewrite Hty. }
  cbn [mbind option_bind zn_type zn_with_lock zone_start_pfn zone_end_pfn] in *. rewrite Hty in *.
  eexists _, B'. split; [done|]. split_and!; try done.
  - eapply (mem_ok_zone _ _ _ _ ty z _ _ _ H); try done; [by eapply zinv_ext; [| | |exact Hzi']|].
    intros p. rewrite Hfr. intros [Hp|Hp]%elem_of_app; [by apply Hfree|by apply (mo_free _ _ _ _ H ty z p Ez)].
  - split_and!; try done. intros ty'. simpl. case_decide as Et; [subst ty'|done]. rewrite Ez. simpl. unfold zone_range. simpl. by rewrite F1, F2.
  - intros ty' Hne. by eapply blks_other.
Qed.
