(* ===== verification/FrameProps.v ===== *)
(** * Properties of the frame allocator

    The statements about [buddy.c], [page_ref.c] and [frame.c] that the rest
    of the kernel relies on, over the invariant [mem_ok] of BuddySys, with a
    concrete machine on which their hypotheses hold. *)

From stdpp Require Import gmap.
From S2P Require Import Prelude Bitmap PageRef PageList Buddy BuddyInv BuddySys BuddyFree Frame FrameInv.

(** A state whose free frames are all usable memory. *)
Definition all_usable (s : memsys) (B : tag -> list Z) : Prop :=
  forall ty z, ms_zones s ty = Some z -> usable_ok s z /\ zone_end_pfn z * PAGE_SIZE <= rc_memory_size (ms_ref s) /\
    forall q, q ∈ frees (blks B ty) -> bit (rc_usable (ms_ref s)) q = true.

(** ** A concrete machine

    20 MiB of memory, of which one zone (4096 to 5120) is built, with the
    frames 4096 to 4351 given to it. *)

Definition ex_frames : Z := 5120.

Definition ex_counts : list Z := replicate (Z.to_nat ex_frames) 0.

Definition ex_boot : memsys :=
  mkMem (mkMeta ∅ 0x200000 (pool_pages ex_frames) 0 0 SPIN_INIT) (fun _ => None)
    (mkBitmap false (replicate 640 0) ex_frames 1)
    (mkRefCtx (Some ex_counts) (ex_frames * PAGE_SIZE) (mkBitmap false (replicate 640 255) ex_frames 1))
    true.

Definition ex_sys : option memsys :=
  '(z, m) ← init_zone (ms_md ex_boot) ZONE_DMA32 4096 ex_frames;
  add_memory_region (with_zone (with_md ex_boot m) ZONE_DMA32 z) 0x1000000 0x1100000 ZONE_DMA32.

Lemma ex_boot_ok : boot_ok ex_boot (boot_share ex_frames).
Proof.
  constructor; [|done|done]. apply bags_init; [done|by vm_compute|by vm_compute| |apply pool_covers; by vm_compute].
  intros t. by apply boot_share_nonneg.
Qed.

Lemma bitmap_wf_replicate n y :
  0 <= y < 256 -> Z.of_nat n < two32 -> bitmap_wf (mkBitmap false (replicate n y) (8 * Z.of_nat n) 1).
Proof.
  intros Hy Hn. unfold bitmap_wf; cbn [bm_length bm_buffer]. rewrite zlen_replicate.
  split_and!; [lia|lia|]. by apply Forall_replicate.
Qed.

(** The machine satisfies the invariant; its zone has free frames. *)
Lemma ex_sys_ok :
  exists s z B pm, ex_sys = Some s /\ mem_ok s B pm (boot_share ex_frames) /\
    ms_zones s ZONE_DMA32 = Some z /\ zone_start_pfn z = 4096 /\ zone_end_pfn z = ex_frames /\ usable_ok s z /\
    rc_memory_size (ms_ref s) = ex_frames * PAGE_SIZE /\ frees (blks B ZONE_DMA32) ≡ₚ seqZ 4096 256 /\
    all_usable s B.
Proof.
  unfold ex_sys.
  destruct (init_zone_spec ex_boot (boot_share ex_frames) ZONE_DMA32 4096 ex_frames ex_boot_ok eq_refl)
    as (z & m & -> & Es & Ee & Hb).
  { split; [unfold ex_frames; lia|]. split; [unfold ex_frames, PAGE_SIZE; lia|]. intros p Hp. unfold phys_to_zone_type, ex_frames, PAGE_SIZE in *.
    change ZONE_DMA_END with 16777216. change ZONE_DMA32_END with 4294967296.
    case_if; [lia|]. case_if; [done|lia]. }
  { intros i _. done. }
  cbn [mbind option_bind]. set (s0 := with_zone (with_md ex_boot m) ZONE_DMA32 z) in *.
  assert (mem_ok s0 (fun _ => []) ex_counts (boot_share ex_frames)) as Hm.
  { apply boot_mem_ok; try done.
    - apply (bitmap_wf_replicate 640 0); lia.
    - intros ty z'. unfold s0. rewrite zones_with_zone. case_decide; [|done]. intros [= <-].
      unfold ex_counts. rewrite Ee, zlen_replicate. done. }
  assert (ms_zones s0 ZONE_DMA32 = Some z) as Ez by done.
  assert (region_frames z 0x1000000 0x1100000 = seqZ 4096 256) as Er.
  { unfold region_frames, region_lo, region_hi. rewrite Es, Ee. by vm_compute. }
  destruct (add_region_spec s0 _ _ _ ZONE_DMA32 z 0x1000000 0x1100000 Hm Ez) as (s & B & E & Hok & (Eu & Erf & _ & Hrg) & Hfr & _); try done.
  { intros p Hp. rewrite Er in Hp. apply elem_of_seqZ in Hp. rewrite blks_nil. split_and!; [by apply not_elem_of_nil| |].
    - unfold bit. change (bm_buffer (ms_using s0)) with (replicate 640 0). rewrite zget_replicate; [by rewrite Z.bits_0|]. 
      split; [apply Z.div_pos; lia|apply Z.div_lt_upper_bound; lia].
    - apply zget_replicate. unfold ex_frames. lia. }
  destruct (ms_zones s ZONE_DMA32) as [z'|] eqn:Ez'; [|by rewrite (same_ranges_none _ _ _ Hrg Ez') in Ez].
  destruct (same_ranges_zone _ _ _ _ Hrg Ez') as (z0 & Hz0 & E1 & E2). rewrite Ez in Hz0. injection Hz0 as <-.
  exists s, z', B, ex_counts. rewrite Er, blks_nil, app_nil_r in Hfr.
  assert (ms_ref s = ms_ref ex_boot) as Er' by done.
  assert (usable_ok s z') as Hu.
  { split; rewrite Er'; [apply (bitmap_wf_replicate 640 255); lia|]. rewrite E2, Ee. done. }
  do 3 (split; [done|]). split; [congruence|]. split; [congruence|]. split; [done|]. split; [by rewrite Er'|].
  split; [done|]. intros ty z1 Hz1. destruct (decide (ty = ZONE_DMA32)) as [->|Hne].
  - rewrite Ez' in Hz1. injection Hz1 as <-. split; [done|]. rewrite Er', E2, Ee. split; [done|].
    intros q Hq. rewrite Hfr in Hq. apply elem_of_seqZ in Hq. unfold bit.
    change (bm_buffer (rc_usable (ms_ref ex_boot))) with (replicate 640 255).
    rewrite zget_replicate by (split; [apply Z.div_pos; lia|apply Z.div_lt_upper_bound; lia]).
    change 255 with (Z.ones 8). apply Z.ones_spec_low, Z.mod_pos_bound. lia.
  - destruct (same_ranges_zone _ _ _ _ Hrg Hz1) as (z2 & Hz2 & _). by destruct ty.
Qed.

(** ** Allocation and release *)

(** C1: For every request of 1 to 2^64-1 frames, in every state that satisfies
    the invariant, [alloc_frames] returns (it never runs out of metadata pages
    and leaves no lock held) and keeps the invariant. Address 0 means that no
    zone has a block of the needed order, and then nothing has changed.
    Otherwise the result is a block aligned to its size in the first zone, in
    the order NORMAL, DMA32, DMA, that can serve the request: its frames were
    free and no others leave the free lists, they are now marked in the bitmap
    and referenced once, and no other frame's mark or count changes. *)
Theorem alloc_frames_correct s B pm C count :
  mem_ok s B pm C -> 1 <= count < two64 ->
  exists s' a B' pm', alloc_frames s count = Some (s', a) /\ mem_ok s' B' pm' C /\ ms_irq s' = ms_irq s /\
    (if a =? 0
     then (forall ty, blks B' ty = blks B ty) /\ ms_using s' = ms_using s /\ pm' = pm /\
       forall ty, cannot_serve s B ty count
     else exists ty z o p, first_serving s B [ZONE_NORMAL; ZONE_DMA32; ZONE_DMA] ty count /\
       ms_zones s ty = Some z /\ count_to_order count = Some (Some (o, p)) /\ block_ok z (o, a) /\
       frees (blks B ty) ≡ₚ pages_of (o, a) ++ frees (blks B' ty) /\
       (forall ty', ty' <> ty -> blks B' ty' = blks B ty') /\ marked s s' pm pm' o a true 1).
Proof.
  intros H Hc. destruct (alloc_frames_from_spec [ZONE_NORMAL; ZONE_DMA32; ZONE_DMA] s B pm C count H Hc)
    as (s' & a & B' & pm' & E & H' & Hi & _ & _ & Hres).
  exists s', a, B', pm'. split; [exact E|]. split; [done|]. split; [done|]. case_if; [|exact Hres].
  destruct Hres as (? & ? & ? & Hall). split_and!; try done. intros ty. apply Hall. destruct ty; set_solver.
Qed.

Lemma alloc_frames_correct_witness :
  exists s B pm C s' a, ex_sys = Some s /\ mem_ok s B pm C /\ alloc_frames s 3 = Some (s', a) /\ a <> 0.
Proof.
  destruct ex_sys_ok as (s & z & B & pm & E & H & _).
  destruct (alloc_frames_correct s B pm (boot_share ex_frames) 3 H ltac:(lia)) as (s' & a & B' & pm' & E' & H' & _ & _).
  exists s, B, pm, (boot_share ex_frames), s', a. split; [done|]. split; [done|]. split; [done|].
  vm_compute in E. injection E as <-. vm_compute in E'. injection E' as _ <-. discriminate.
Defined.

(** C2: For every block of a zone and every request size of that block's
    order, [free_frames] returns and keeps the invariant. If all frames of the
    block are marked as handed out, are usable, and have exactly one reference,
    they go back to the zone (merged with every free buddy, by the invariant),
    lose their marks and drop to zero references, and nothing else changes.
    If any frame fails one of the tests, nothing at all changes: references
    released before the failure was found are given back. *)
Theorem free_frames_correct s B pm C ty z o p a count :
  mem_ok s B pm C -> ms_zones s ty = Some z -> block_ok z (o, a) -> usable_ok s z ->
  1 <= count < two64 -> count_to_order count = Some (Some (o, p)) -> a <= rc_memory_size (ms_ref s) ->
  exists s' B' pm', free_frames s a count = Some s' /\ mem_ok s' B' pm' C /\ ms_irq s' = ms_irq s /\
    if frames_held s pm o a 1 then freed s B pm ty o a s' B' pm' else untouched s B pm s' B' pm'.
Proof.
  intros H Hz Hok Hu Hc Ho Ha.
  destruct (free_common_spec s B pm C ty z o p a count false H Hz Hok Hu Hc Ho Ha) as (s' & B' & pm' & E & H' & Hi & _ & _ & Hres).
  by exists s', B', pm'.
Qed.

Lemma ex_block z o k :
  zone_start_pfn z = 4096 -> zone_end_pfn z = ex_frames -> MIN_ORDER <= o <= 20 -> 0 <= k -> (k + 1) * 2 ^ o <= 2 ^ 20 ->
  block_ok z (o, 0x1000000 + k * 2 ^ o).
Proof.
  intros Es Ee Ho Hk Hend. assert (0 < 2 ^ o) by (apply pow2_pos; olia).
  constructor; rewrite ?Es, ?Ee; unfold ex_frames, PAGE_SIZE; cbn [fst snd]; [olia| |lia|lia|lia].
  exists (2 ^ (24 - o) + k). change 0x1000000 with (2 ^ 24).
  rewrite Z.mul_add_distr_r, <- Z.pow_add_r by olia. do 2 f_equal. lia.
Qed.

Lemma free_frames_correct_witness :
  exists s B pm s', ex_sys = Some s /\ mem_ok s B pm (boot_share ex_frames) /\
    free_frames s 0x1002000 2 = Some s' /\ ms_irq s' = true.
Proof.
  destruct ex_sys_ok as (s & z & B & pm & E & H & Hz & Es & Ee & Hu & Em & _).
  destruct (free_frames_correct s B pm (boot_share ex_frames) ZONE_DMA32 z 13 2 0x1002000 2 H Hz)
    as (s' & B' & pm' & E' & _ & Hi & _).
  - change 0x1002000 with (0x1000000 + 1 * 2 ^ 13). apply (ex_block z 13 1 Es Ee); [olia|lia|by vm_compute].
  - exact Hu.
  - lia.
  - vm_compute. reflexivity.
  - rewrite Em. vm_compute. discriminate.
  - exists s, B, pm, s'. split; [exact E|]. split; [exact H|]. split; [exact E'|]. rewrite Hi. clear - E.
    vm_compute in E. injection E as <-. reflexivity.
Defined.

Lemma marked_held s s' pm pm' z o a :
  zone_wf z -> block_ok z (o, a) -> zone_end_pfn z <= bm_length (ms_using s) -> marked s s' pm pm' o a true 1 ->
  (forall q, q ∈ pages_of (o, a) -> bit (rc_usable (ms_ref s')) q = true) -> frames_held s' pm' o a 1 = true.
Proof.
  intros Hw Hok Hl (_ & Hb & Hc) Hu. destruct (block_frames z o a Hw Hok) as (Hs & He & _ & Hp). destruct Hw as (? & _).
  apply andb_true_iff. rewrite !all_from_true, Z2Nat.id by lia. split; intros q Hq.
  - rewrite Hb by lia. assert (within (a / PAGE_SIZE) (a / PAGE_SIZE + 2 ^ (o - MIN_ORDER)) q = true) as ->
      by (unfold within; lia). rewrite Hu by by apply elem_pages_of. done.
  - apply bool_decide_eq_true. rewrite Hc.
    by assert (within (a / PAGE_SIZE) (a / PAGE_SIZE + 2 ^ (o - MIN_ORDER)) q = true) as -> by (unfold within; lia).
Qed.

(** C3: Giving back what [alloc_frames] handed out restores the allocator:
    every zone has the same free frames as before, and every frame the same
    mark and the same count. *)
Theorem alloc_free_round_trip s B pm C count s1 a :
  mem_ok s B pm C -> all_usable s B -> 1 <= count < two64 ->
  alloc_frames s count = Some (s1, a) -> a <> 0 ->
  exists s2 B2 pm2, free_frames s1 a count = Some s2 /\ mem_ok s2 B2 pm2 C /\
    (forall ty, frees (blks B2 ty) ≡ₚ frees (blks B ty)) /\
    (forall q, 0 <= q < bm_length (ms_using s) -> bit (ms_using s2) q = bit (ms_using s) q) /\
    (forall q, zget pm2 q = zget pm q).
Proof.
  intros H Hall Hc E Ha.
  destruct (alloc_frames_from_spec [ZONE_NORMAL; ZONE_DMA32; ZONE_DMA] s B pm C count H Hc)
    as (s1' & a' & B1 & pm1 & E' & H1 & _ & Er & Hrg & Hres).
  unfold alloc_frames in E. rewrite E in E'. injection E' as <- <-. replace (a =? 0) with false in Hres by lia.
  destruct Hres as (ty & z & o & p & _ & Hz & Ho & Hok & Hfr & Hoth & Hmk).
  destruct (Hall ty z Hz) as ([Huw Hul] & Hmem & Hus). destruct (mo_zone _ _ _ _ H _ _ Hz) as [_ _ _ Hzi _].
  pose proof (zi_wf _ _ Hzi) as Hw. destruct (mo_cover _ _ _ _ H _ _ Hz) as [Hcu _].
  destruct (ms_zones s1 ty) as [z1|] eqn:Ez1; [|by rewrite (same_ranges_none _ _ _ Hrg Ez1) in Hz].
  destruct (same_ranges_zone _ _ _ _ Hrg Ez1) as (z0 & Hz0 & E1 & E2). rewrite Hz in Hz0. injection Hz0 as <-.
  assert (block_ok z1 (o, a)) as Hok1 by (unfold block_ok in *; by rewrite E1, E2).
  assert (forall q, q ∈ pages_of (o, a) -> q ∈ frees (blks B ty)) as Hsub.
  { intros q Hq. rewrite Hfr. apply elem_of_app. by left. }
  destruct (free_common_spec s1 B1 pm1 C ty z1 o p a count false H1 Ez1 Hok1) as (s2 & B2 & pm2 & E3 & H2 & _ & _ & _ & Hres); try done.
  { unfold usable_ok. by rewrite Er, E2. }
  { rewrite Er. simpl. destruct Hok as [Ho' _ _ He _]; simpl in Ho', He. assert (0 < 2 ^ o) by (apply pow2_pos; olia). lia. }
  rewrite (marked_held s s1 pm pm1 z o a Hw Hok Hcu Hmk) in Hres.
  2:{ intros q Hq. rewrite Er. simpl. by apply Hus, Hsub. }
  destruct Hres as (Hfr2 & Hoth2 & (_ & Hb2 & Hc2)). destruct Hmk as (El & Hb1 & Hc1).
  exists s2, B2, pm2. split; [done|]. split; [done|]. split; [|split].
  - intros ty'. destruct (decide (ty' = ty)) as [->|Hne]; [by rewrite Hfr2, Hfr|]. by rewrite Hoth2, Hoth.
  - intros q Hq. rewrite Hb2 by lia.
    destruct (within (a / PAGE_SIZE) (a / PAGE_SIZE + 2 ^ (o - MIN_ORDER)) q) eqn:Ewi; [|by rewrite Hb1, Ewi].
    apply within_pages, Hsub in Ewi. symmetry. by apply (mo_free _ _ _ _ H ty z q).
  - intros q. rewrite Hc2, Hc1. case_if; [|done]. apply within_pages, Hsub in E0.
    symmetry. by apply (mo_free _ _ _ _ H ty z q).
Qed.

Lemma alloc_free_round_trip_witness :
  exists s B pm s1 a s2, ex_sys = Some s /\ mem_ok s B pm (boot_share ex_frames) /\
    alloc_frames s 5 = Some (s1, a) /\ a <> 0 /\ free_frames s1 a 5 = Some s2.
Proof.
  destruct ex_sys_ok as (s & z & B & pm & E & H & _ & _ & _ & _ & _ & _ & Hall).
  destruct (alloc_frames s 5) as [[s1 a]|] eqn:E1.
  - assert (a <> 0) as Ha.
    { clear - E E1. vm_compute in E. injection E as <-. vm_compute in E1. injection E1 as _ <-. discriminate. }
    destruct (alloc_free_round_trip s B pm (boot_share ex_frames) 5 s1 a H Hall ltac:(lia) E1 Ha) as (s2 & B2 & pm2 & E2 & _).
    exists s, B, pm, s1, a, s2. split; [exact E|]. split; [exact H|]. split; [exact E1|]. split; [exact Ha|exact E2].
  - exfalso. clear - E E1. vm_compute in E. injection E as <-. vm_compute in E1. discriminate.
Defined.

(** A second release of the same block is ignored: after a successful
    [free_frames], repeating the call leaves every free list, mark and count
    as it is. *)
Theorem free_frames_twice s B pm C ty z o p a count :
  mem_ok s B pm C -> ms_zones s ty = Some z -> block_ok z (o, a) -> usable_ok s z ->
  1 <= count < two64 -> count_to_order count = Some (Some (o, p)) -> a <= rc_memory_size (ms_ref s) ->
  frames_held s pm o a 1 = true ->
  exists s1 B1 pm1 s2 B2, free_frames s a count = Some s1 /\ mem_ok s1 B1 pm1 C /\
    frees (blks B1 ty) ≡ₚ pages_of (o, a) ++ frees (blks B ty) /\
    free_frames s1 a count = Some s2 /\ mem_ok s2 B2 pm1 C /\
    (forall ty, blks B2 ty = blks B1 ty) /\ ms_using s2 = ms_using s1.
Proof.
  intros H Hz Hok [Huw Hul] Hc Ho Ha Hheld.
  destruct (free_common_spec s B pm C ty z o p a count false H Hz Hok (conj Huw Hul) Hc Ho Ha)
    as (s1 & B1 & pm1 & E1 & H1 & _ & Er & Hrg & Hres). simpl in Hres. rewrite Hheld in Hres.
  destruct Hres as (Hfr & _ & (El & Hb & Hcnt)).
  destruct (ms_zones s1 ty) as [z1|] eqn:Ez1; [|by rewrite (same_ranges_none _ _ _ Hrg Ez1) in Hz].
  destruct (same_ranges_zone _ _ _ _ Hrg Ez1) as (z0 & Hz0 & F1 & F2). rewrite Hz in Hz0. injection Hz0 as <-.
  destruct (mo_zone _ _ _ _ H _ _ Hz) as [_ _ _ Hzi _]. pose proof (zi_wf _ _ Hzi) as Hw.
  destruct (block_frames z o a Hw Hok) as (Hs & He & _ & Hp). destruct Hw as (? & _).
  destruct (mo_cover _ _ _ _ H _ _ Hz) as [Hcu _].
  destruct (free_common_spec s1 B1 pm1 C ty z1 o p a count false H1 Ez1) as (s2 & B2 & pm2 & E2 & H2 & _ & _ & _ & Hres); try done.
  { unfold block_ok in *. by rewrite F1, F2. } { unfold usable_ok. by rewrite Er, F2. } { by rewrite Er. }
  assert (frames_held s1 pm1 o a 1 = false) as Hno.
  { apply not_true_iff_false. intros [Hf _]%andb_true_iff. rewrite all_from_true, Z2Nat.id in Hf by lia.
    specialize (Hf (a / PAGE_SIZE)). rewrite Hb in Hf by lia. unfold within in Hf.
    replace ((a / PAGE_SIZE <=? a / PAGE_SIZE) && (a / PAGE_SIZE <? a / PAGE_SIZE + 2 ^ (o - MIN_ORDER))) with true in Hf by lia.
    simpl in Hf. discriminate Hf. lia. }
  simpl in Hres. rewrite Hno in Hres. destruct Hres as (HL & Hu & ->). by exists s1, B1, pm1, s2, B2.
Qed.

(** The concrete machine after a request for two frames. *)
Definition ex_held_sys : option (memsys * Z) := s ← ex_sys; alloc_frames s 2.

Lemma ex_held :
  exists s z B pm, ex_held_sys = Some (s, 0x1000000) /\ mem_ok s B pm (boot_share ex_frames) /\
    ms_zones s ZONE_DMA32 = Some z /\ zone_start_pfn z = 4096 /\ zone_end_pfn z = ex_frames /\ usable_ok s z /\
    rc_memory_size (ms_ref s) = ex_frames * PAGE_SIZE /\ frames_held s pm 13 0x1000000 1 = true.
Proof.
  destruct ex_sys_ok as (s & z & B & pm & E & H & Hz & Es & Ee & Hu & Em & _ & Hall).
  unfold ex_held_sys. rewrite E. cbn [mbind option_bind]. change alloc_frames with (alloc_frames_from [ZONE_NORMAL; ZONE_DMA32; ZONE_DMA]).
  destruct (alloc_frames_from_spec [ZONE_NORMAL; ZONE_DMA32; ZONE_DMA] s B pm _ 2 H ltac:(lia))
    as (s1 & a & B1 & pm1 & E1 & H1 & _ & Er & Hrg & Hres).
  assert (a = 0x1000000) as ->.
  { clear - E E1. vm_compute in E. injection E as <-. vm_compute in E1. by injection E1 as _ <-. }
  simpl in Hres. destruct Hres as (ty & z1 & o & p & _ & Hz1 & Ho & Hok & Hfr & _ & Hmk).
  assert (o = 13) as -> by (clear - Ho; vm_compute in Ho; by injection Ho as <- _).
  destruct (Hall ty z1 Hz1) as (_ & _ & Hus). destruct (mo_zone _ _ _ _ H _ _ Hz1) as [_ _ _ Hzi Hrange].
  assert (ty = ZONE_DMA32) as ->.
  { destruct (block_frames z1 _ _ (zi_wf _ _ Hzi) Hok) as (? & ? & Ea & ?). rewrite <- (Hrange (0x1000000 / PAGE_SIZE)); [done|lia]. }
  rewrite Hz in Hz1. injection Hz1 as <-.
  destruct (ms_zones s1 ZONE_DMA32) as [z2|] eqn:Ez2; [|by rewrite (same_ranges_none _ _ _ Hrg Ez2) in Hz].
  destruct (same_ranges_zone _ _ _ _ Hrg Ez2) as (z0 & Hz0 & F1 & F2). rewrite Hz in Hz0. injection Hz0 as <-.
  exists s1, z2, B1, pm1. split; [done|]. split; [done|]. split; [done|]. split; [congruence|]. split; [congruence|].
  split; [unfold usable_ok in *; by rewrite Er, F2|]. split; [by rewrite Er|].
  apply (marked_held s s1 pm pm1 z); [apply Hzi|exact Hok|apply (mo_cover _ _ _ _ H _ _ Hz)|exact Hmk|].
  intros q Hq. rewrite Er. simpl. apply Hus. rewrite Hfr. apply elem_of_app. by left.
Qed.

Lemma free_frames_twice_witness :
  exists s B pm s1 s2, ex_held_sys = Some (s, 0x1000000) /\ mem_ok s B pm (boot_share ex_frames) /\
    free_frames s 0x1000000 2 = Some s1 /\ free_frames s1 0x1000000 2 = Some s2.
Proof.
  destruct ex_held as (s & z & B & pm & E & H & Hz & Es & Ee & Hu & Em & Hheld).
  destruct (free_frames_twice s B pm (boot_share ex_frames) ZONE_DMA32 z 13 2 0x1000000 2 H Hz)
    as (s1 & B1 & pm1 & s2 & B2 & E1 & _ & _ & E2 & _).
  - change 0x1000000 with (0x1000000 + 0 * 2 ^ 13). apply (ex_block z 13 0 Es Ee); [olia|lia|by vm_compute].
  - exact Hu.
  - lia.
  - vm_compute. reflexivity.
  - rewrite Em. vm_compute. discriminate.
  - exact Hheld.
  - exists s, B, pm, s1, s2. split; [exact E|]. split; [exact H|]. split; [exact E1|exact E2].
Defined.

(** ** References *)

(** Changing the count of one handed-out frame. *)
Lemma mem_ok_count s B pm C i r :
  mem_ok s B pm C -> 0 <= i < zlen pm -> bit (ms_using s) i = true ->
  mem_ok (with_ref s (with_maps (ms_ref s) (<[Z.to_nat i := r]> pm))) B (<[Z.to_nat i := r]> pm) C.
Proof.
  intros H Hi Hb. pose proof (zset_ok pm i r Hi) as Es. destruct (mo_using _ _ _ _ H) as [Hw Hl].
  apply (mem_ok_marks s B pm C (ms_using s) _ H); try done; [by apply (zset_len _ _ _ _ Es)|].
  intros ty z q Hz Hq. destruct (mo_free _ _ _ _ H ty z q Hz Hq) as [Hbq Hcq]. split; [done|].
  rewrite (zset_get _ _ q _ _ Es). case_decide; [congruence|done].
Qed.

(** [address_release] on a handed-out frame of usable memory: with more
    than one reference the count goes down by one and the frame stays with its
    other owners; the last reference gives the frame back to its zone, unmarked
    and with count zero; a count that is not positive is left alone. *)
Theorem address_release_correct s B pm C ty z a r :
  mem_ok s B pm C -> ms_zones s ty = Some z -> usable_ok s z -> block_ok z (MIN_ORDER, a) ->
  a < rc_memory_size (ms_ref s) -> bit (rc_usable (ms_ref s)) (a / PAGE_SIZE) = true ->
  bit (ms_using s) (a / PAGE_SIZE) = true -> zget pm (a / PAGE_SIZE) = Some r ->
  exists s' B' pm', address_release s a = Some s' /\ mem_ok s' B' pm' C /\
    (if r =? 1
     then frees (blks B' ty) ≡ₚ a / PAGE_SIZE :: frees (blks B ty) /\ bit (ms_using s') (a / PAGE_SIZE) = false
     else (forall ty, blks B' ty = blks B ty) /\ ms_using s' = ms_using s) /\
    (forall q, zget pm' q = if decide (q = a / PAGE_SIZE) then Some (if r >? 0 then r - 1 else r) else zget pm q).
Proof.
  intros H Hz [Huw Hul] Hok Hmem Hus Hbit Hr. destruct (mo_zone _ _ _ _ H _ _ Hz) as [_ _ _ Hzi _].
  pose proof (zi_wf _ _ Hzi) as Hw. destruct (block_frames z MIN_ORDER a Hw Hok) as (Hs & He & _ & _).
  change (2 ^ (MIN_ORDER - MIN_ORDER)) with 1 in He. pose proof Hw as (Hw0 & _).
  destruct (mo_cover _ _ _ _ H _ _ Hz) as [Hcu Hcp].
  unfold address_release, address_is_managed. rewrite (mo_maps _ _ _ _ H).
  replace (a >=? rc_memory_size (ms_ref s)) with false by lia.
  replace (a / PAGE_SIZE >=? bm_length (rc_usable (ms_ref s))) with false by lia.
  rewrite bitmap_get_spec, Hus by (try done; lia). cbn [mbind option_bind negb]. unfold maps_of.
  rewrite (mo_maps _ _ _ _ H). cbn [mbind option_bind]. unfold get_page_ref. rewrite (page_unref_spec _ _ r Hr).
  set (i := a / PAGE_SIZE) in *. assert (0 <= i < zlen pm) as Hi by lia.
  destruct (Z.gtb_spec r 0) as [Hpos|Hneg]; cbn [mbind option_bind].
  2:{ replace (r =? 1) with false by lia. simpl. exists s, B, pm. rewrite (with_maps_id _ _ (mo_maps _ _ _ _ H)).
      assert (with_ref s (ms_ref s) = s) as -> by by destruct s. split_and!; try done.
      intros q. case_decide; [by subst|done]. }
  pose proof (zset_ok pm i (r - 1) Hi) as Eset. pose proof (mem_ok_count s B pm C i (r - 1) H Hi Hbit) as H1.
  set (pm1 := <[Z.to_nat i := r - 1]> pm) in *. set (s1 := with_ref s (with_maps (ms_ref s) pm1)) in *.
  assert (forall q, zget pm1 q = if decide (q = i) then Some (r - 1) else zget pm q) as Hg1.
  { intros q. rewrite (zset_get _ _ q _ _ Eset). repeat case_decide; congruence. }
  destruct (Z.eqb_spec r 1) as [->|Hne].
  2:{ replace ((r - 1 >? 0) || (r - 1 <? 0)) with true by lia. exists s1, B, pm1. split_and!; done. }
  simpl. unfold free_frames_released.
  destruct (free_common_spec s1 B pm1 C ty z MIN_ORDER 1 a 1 true H1 Hz Hok) as (s' & B' & pm' & -> & H' & _ & _ & _ & Hres); try done.
  { simpl. lia. }
  assert (frames_held s1 pm1 MIN_ORDER a 0 = true) as Hheld.
  { apply andb_true_iff. change (Z.to_nat (2 ^ (MIN_ORDER - MIN_ORDER))) with 1%nat. fold i.
    rewrite !all_from_true. split; intros q Hq; (assert (q = i) as -> by lia).
    - simpl. by rewrite Hbit, Hus.
    - apply bool_decide_eq_true. rewrite Hg1. by rewrite decide_True. }
  rewrite Hheld in Hres. destruct Hres as (Hfr & _ & (_ & Hb & Hcnt)).
  exists s', B', pm'. split; [done|]. split; [done|]. split; [split; [done|]|].
  - fold i in Hb. rewrite Hb by (simpl; lia). unfold within. by replace ((i <=? i) && _) with true by lia.
  - intros q. rewrite Hcnt, Hg1. fold i. change (2 ^ (MIN_ORDER - MIN_ORDER)) with 1. unfold within.
    case_decide; case_if; try done; bools; lia.
Qed.

Lemma address_release_correct_witness :
  exists s B pm s', ex_held_sys = Some (s, 0x1000000) /\ mem_ok s B pm (boot_share ex_frames) /\
    address_release s 0x1001000 = Some s' /\ bit (ms_using s') 4097 = false.
Proof.
  destruct ex_held as (s & z & B & pm & E & H & Hz & Es & Ee & Hu & Em & Hheld).
  apply andb_true_iff in Hheld as [Hb Hc]. rewrite all_from_true in Hb. rewrite all_from_true in Hc.
  specialize (Hb 4097 ltac:(vm_compute; split; [discriminate|reflexivity])).
  specialize (Hc 4097 ltac:(vm_compute; split; [discriminate|reflexivity])).
  apply andb_true_iff in Hb as [Hb1 Hb2]. apply bool_decide_eq_true in Hc.
  destruct (address_release_correct s B pm (boot_share ex_frames) ZONE_DMA32 z 0x1001000 1 H Hz Hu)
    as (s' & B' & pm' & E' & _ & [_ Hbit] & _).
  - change 0x1001000 with (0x1000000 + 1 * 2 ^ MIN_ORDER). apply (ex_block z MIN_ORDER 1 Es Ee); [olia|lia|by vm_compute].
  - rewrite Em. vm_compute. reflexivity.
  - exact Hb2.
  - exact Hb1.
  - exact Hc.
  - exists s, B, pm, s'. split; [exact E|]. split; [exact H|]. split; [exact E'|exact Hbit].
Defined.

(** Whatever other CPUs do to the counters between the steps of
    [page_try_ref]'s loop, a reference is only taken from a positive count: if
    the loop reports success, its last step found some [c > 0] in the counter
    and stored [c + 1] there and nothing else; if it reports failure it wrote
    nothing in its last step, and the count it saw there was not positive. So a
    page whose count has reached zero is never revived. *)
Theorem page_try_ref_no_revival fuel env pm i refs ok pm' :
  try_ref_loop fuel env pm i refs = Some (ok, pm') ->
  (ok = false /\ refs <= 0 /\ pm' = pm) \/
  exists n pm0 c, zget (env n pm0) i = Some c /\
    (if ok : bool then 0 < c /\ pm' = <[Z.to_nat i := i32 (c + 1)]> (env n pm0)
     else c <= 0 /\ pm' = env n pm0).
Proof.
  revert pm refs. induction fuel as [|fuel IH]; intros pm refs; cbn [try_ref_loop]; [done|].
  destruct (Z.gtb_spec refs 0) as [Hpos|Hneg]; [|intros [= <- <-]; by left].
  destruct (zget (env fuel pm) i) as [c|] eqn:Hg; [|unfold cas; by rewrite Hg].
  destruct (cas_spec (env fuel pm) i refs (i32 (refs + 1)) (zget_range _ _ _ Hg)) as (cur & Hcur & ->).
  rewrite Hg in Hcur. injection Hcur as <-. destruct (Z.eqb_spec c refs) as [->|Hne]; cbn [mbind option_bind].
  - intros [= <- <-]. right. by exists fuel, pm, refs.
  - intros Hloop. right. destruct (IH _ _ Hloop) as [(-> & Hle & ->)|Hr]; [|exact Hr]. by exists fuel, pm, c.
Qed.

(** Another CPU takes two references before the first compare-and-swap. *)
Definition ex_env (n : nat) (pm : list Z) : list Z := if decide (n = 1%nat) then [3; 0] else pm.

Lemma page_try_ref_no_revival_witness :
  try_ref_loop 2 ex_env [1; 0] 0 1 = Some (true, [4; 0]) /\
  exists n pm0 c, zget (ex_env n pm0) 0 = Some c /\ 0 < c.
Proof.
  assert (try_ref_loop 2 ex_env [1; 0] 0 1 = Some (true, [4; 0])) as E by (vm_compute; reflexivity).
  split; [exact E|]. destruct (page_try_ref_no_revival 2 ex_env [1; 0] 0 1 true [4; 0] E)
    as [(Hf & _)|(n & pm0 & c & Hg & Hc & _)]; [discriminate Hf|]. exists n, pm0, c. split; [exact Hg|exact Hc].
Defined.

(** ** Sizes *)

(** [count_to_order] refuses exactly the requests above 2^18 frames (the
    largest block) and otherwise gives the least power of two of frames that
    is large enough, with its order. *)
Theorem count_to_order_least count :
  1 <= count < two64 ->
  (2 ^ 18 < count /\ count_to_order count = Some None) \/
  exists o p, count_to_order count = Some (Some (o, p)) /\ MIN_ORDER <= o < MAX_ORDER /\ p = 2 ^ (o - MIN_ORDER) /\
    count <= p /\ forall k, 0 <= k -> count <= 2 ^ k -> p <= 2 ^ k.
Proof.
  intros Hc. destruct (count_to_order_spec count Hc) as (r & E & Hr). destruct r as [[o p]|]; [right|by left].
  destruct Hr as (Ho & -> & Hle & Hmin). exists o, (2 ^ (o - MIN_ORDER)). split_and!; try done; try lia.
  intros k Hk Hck. apply Z.pow_le_mono_r; [done|]. destruct (decide (o - MIN_ORDER <= k)) as [|Hlt]; [done|]. exfalso.
  assert (2 ^ (k + 1) <= 2 ^ (o - MIN_ORDER)) by (apply Z.pow_le_mono_r; lia).
  assert (0 < 2 ^ k) by (by apply pow2_pos). rewrite Z.pow_add_r, Z.pow_1_r in * by lia. lia.
Qed.

Lemma count_to_order_least_witness : 1 <= 5 < two64 /\ exists o p, count_to_order 5 = Some (Some (o, p)) /\ p = 8.
Proof.
  split; [lia|]. destruct (count_to_order_least 5 ltac:(lia)) as [[Hf _]|(o & p & E & _)].
  - vm_compute in Hf. discriminate Hf.
  - exists o, p. split; [exact E|]. vm_compute in E. injection E as _ <-. reflexivity.
Defined.

(** C4: [buddy_init] starts the allocator with a metadata pool that is never
    too small. For a memory below 2^52 bytes whose frames have counters, with
    the boot-time allocator's map in order and the frames it needs for the
    tables in a row ([boot_frames]), [buddy_init] returns; the state satisfies
    the invariant of [alloc_frames] and [free_frames] with nothing free and no
    frame marked, and a zone exists exactly when its range is not empty. The
    pool's pages are frames that were usable and no longer are, and their
    number covers the sum of the lists' shares, where the share of a list is
    enough for every set of free blocks its zone can have at once: a pushed
    block never finds the pool used up. *)
Theorem buddy_init_correct f s pm :
  let n := memory_size f / PAGE_SIZE in
  early_ok f -> early_room f s (boot_frames n) -> 0 <= memory_size f < 2 ^ 52 ->
  page_maps (ms_ref (fr_mem f)) = Some pm -> n <= zlen pm ->
  exists f' r, buddy_init f = Some f' /\
    let m := ms_md (fr_mem f') in
    mem_ok (fr_mem f') (fun _ => []) pm (boot_share n) /\
    (forall ty, zone_there (fr_mem f') ty (zone_first n ty) (zone_last n ty)) /\
    (forall q, bit (ms_using (fr_mem f')) q = false) /\
    (forall q, bit (usable_regions f') q = true -> bit (usable_regions f) q = true) /\
    metadata_pool_phys m = r * PAGE_SIZE /\
    (forall q, r <= q < r + metadata_pool_pages m ->
       bit (usable_regions f) q = true /\ bit (usable_regions f') q = false) /\
    sum_tags (boot_share n) <= metadata_pool_pages m /\
    forall ty z B o, ms_zones (fr_mem f') ty = Some z -> family z (blks B ty) -> MIN_ORDER <= o < MAX_ORDER ->
      zlen (B (ty, order_to_index o)) <= PAGE_LIST_ENTRY_CAPACITY * boot_share n (ty, order_to_index o).
Proof.
  intros n He Hr Hm Hpm Hn.
  destruct (buddy_init_spec f s pm He Hr Hm Hpm Hn) as (f' & r & E & Hok & Hsum & Hphys & Hpool & Hz & Hu & Hsub).
  exists f', r. split; [done|]. cbn zeta. do 7 (split; [done|]). intros ty z B o Ez Hfam Ho.
  destruct (mo_zone _ _ _ _ Hok ty z Ez) as [Ety _ _ Hzi _]. specialize (Hz ty). unfold zone_there in Hz. rewrite Ez in Hz.
  destruct Hz as (_ & Es & Ee). fold n in Es, Ee. rewrite <- Ety in Hfam |- *.
  pose proof (order_count z B o (zi_wf _ _ Hzi) Hfam Ho) as Hcnt. unfold boot_share, page_share; cbn [fst snd].
  rewrite Ety, <- Es, <- Ee. replace (order_to_index o + MIN_ORDER) with o by (unfold order_to_index; lia).
  rewrite Ety in Hcnt. rewrite capacity_510. pose proof (Z.mul_succ_div_gt (max_blocks (zone_start_pfn z) (zone_end_pfn z) o) 510). lia.
Qed.

(** A machine of 20 MiB before [buddy_init]: all frames but the first eight
    are usable. *)
Definition ex_frame_sys : frame_sys :=
  mkFrame (mkMem (mkMeta ∅ 0 0 0 0 SPIN_INIT) (fun _ => None) (mkBitmap false [] 0 1)
             (mkRefCtx (Some ex_counts) (ex_frames * PAGE_SIZE) (mkBitmap false (0 :: replicate 639 255) ex_frames 1)) true)
    0 false 0xffff800000000000 0.

Lemma buddy_init_correct_witness :
  early_ok ex_frame_sys /\ early_room ex_frame_sys 8 (boot_frames ex_frames) /\
  exists f', buddy_init ex_frame_sys = Some f' /\ metadata_pool_pages (ms_md (fr_mem f')) = 84 /\
    mem_ok (fr_mem f') (fun _ => []) ex_counts (boot_share ex_frames).
Proof.
  assert (early_ok ex_frame_sys) as He.
  { constructor; try (by vm_compute). split_and!; [by vm_compute|by vm_compute|]. apply Forall_cons. split; [lia|].
    by apply Forall_replicate. }
  assert (early_room ex_frame_sys 8 (boot_frames ex_frames)) as Hr.
  { split_and!; [by vm_compute|by vm_compute|]. intros i Hi. change (boot_frames ex_frames) with 123 in Hi.
    unfold bit; cbn [usable_regions ex_frame_sys fr_mem ms_ref rc_usable bm_buffer].
    assert (1 <= i / 8 < 20) by (Z.to_euclidean_division_equations; lia). rewrite zget_cons_S by lia.
    rewrite zget_replicate by lia. change 255 with (Z.ones 8). apply Z.ones_spec_low, Z.mod_pos_bound. lia. }
  split; [exact He|]. split; [exact Hr|].
  destruct (buddy_init_correct ex_frame_sys 8 ex_counts He Hr) as (f' & r & E & Hok & _);
    [by vm_compute|done|by vm_compute|].
  exists f'. split; [exact E|]. split; [|exact Hok]. vm_compute in E. injection E as <-. reflexivity.
Defined.

(** ** Lists and regions *)

(** The three operations on a free list act on it as on a bag of block
    addresses, for any number of metadata pages in the chain: a push adds one
    occurrence, a pop removes some block (or finds the bag empty), a take
    removes the wanted block exactly when it is there. The lists of the other
    orders and zones keep their blocks, and a push can only need a new page
    that the list's share of the pool covers. *)
Theorem page_lists_are_bags m hd B C z order b :
  let t := (zn_type z, order_to_index order) in
  bags m hd B C -> heads_ok hd z -> MIN_ORDER <= order < MAX_ORDER ->
  (zlen (B t) < PAGE_LIST_ENTRY_CAPACITY * C t ->
   exists m' fa', page_list_push m z order b = Some (m', zn_with_area z fa') /\
     bags m' (zone_heads hd (zn_type z) fa') (fupd B t (b :: B t)) C) /\
  (exists m' r, page_list_pop m z order = Some (m', r) /\
     (r = 0 /\ B t = [] /\ bags m' hd B C \/ exists blk, B t ≡ₚ r :: blk /\ bags m' hd (fupd B t blk) C)) /\
  (exists m' r, page_list_take m z order b = Some (m', r) /\
     (if r : bool then exists blk, B t ≡ₚ b :: blk /\ bags m' hd (fupd B t blk) C
      else (b ∉ B t) /\ bags m' hd B C)).
Proof.
  intros t Hb Hh Ho. split_and!; [|by apply pop_spec|by apply take_spec].
  intros Hroom. destruct (push_spec m hd B C z order b Hb Hh Ho Hroom) as (m' & fa' & E & _ & Hb'). eauto.
Qed.

Lemma page_lists_are_bags_witness :
  exists s z B pm m' r, ex_sys = Some s /\ bags (ms_md s) (heads s) B (boot_share ex_frames) /\
    mem_ok s B pm (boot_share ex_frames) /\ ms_zones s ZONE_DMA32 = Some z /\
    page_list_take (ms_md s) z 20 0x1000000 = Some (m', r) /\ r = true.
Proof.
  destruct ex_sys_ok as (s & z & B & pm & E & H & Hz & _).
  destruct (page_lists_are_bags (ms_md s) (heads s) B (boot_share ex_frames) z 20 0x1000000
    (mo_bags _ _ _ _ H) (mem_ok_heads _ _ _ _ _ _ H Hz) ltac:(olia)) as (_ & _ & (m' & r & E' & _)).
  exists s, z, B, pm, m', r. split; [exact E|]. split; [exact (mo_bags _ _ _ _ H)|]. split; [exact H|]. split; [exact Hz|].
  split; [exact E'|]. clear - E Hz E'. vm_compute in E. injection E as <-. vm_compute in Hz. injection Hz as <-.
  vm_compute in E'. injection E' as _ <-. reflexivity.
Defined.

(** [add_memory_region] hands exactly the whole frames of the region that
    lie in the zone to its free lists, whatever the region's size and
    alignment, and changes nothing else; the zone stays fully merged. The
    frames must be new to the allocator and lie above address 0. *)
Theorem add_memory_region_correct s B pm C ty z start end_ :
  mem_ok s B pm C -> ms_zones s ty = Some z -> 0 < start -> start + PAGE_SIZE < two64 -> 0 <= end_ < two64 ->
  (forall p, p ∈ region_frames z start end_ ->
     (p ∉ frees (blks B ty)) /\ bit (ms_using s) p = false /\ zget pm p = Some 0) ->
  exists s' B', add_memory_region s start end_ ty = Some s' /\ mem_ok s' B' pm C /\ same_rest s s' /\
    frees (blks B' ty) ≡ₚ region_frames z start end_ ++ frees (blks B ty) /\
    (forall ty', ty' <> ty -> blks B' ty' = blks B ty').
Proof. apply add_region_spec. Qed.

Lemma add_memory_region_correct_witness :
  exists s s' B', ex_sys = Some s /\ add_memory_region s 0x1100800 0x1103800 ZONE_DMA32 = Some s' /\
    frees (blks B' ZONE_DMA32) ≡ₚ [4353; 4354] ++ seqZ 4096 256.
Proof.
  destruct ex_sys_ok as (s & z & B & pm & E & H & Hz & Es & Ee & _ & _ & Hfr & _).
  assert (region_frames z 0x1100800 0x1103800 = [4353; 4354]) as Er.
  { unfold region_frames, region_lo, region_hi. rewrite Es, Ee. vm_compute. reflexivity. }
  assert (bm_buffer (ms_using s) = replicate 640 0) as Eu.
  { clear - E. vm_compute in E. injection E as <-. vm_compute. reflexivity. }
  assert (pm = ex_counts) as Epm.
  { pose proof (mo_maps _ _ _ _ H) as Hm. assert (page_maps (ms_ref s) = Some ex_counts) as Hc.
    { clear - E. vm_compute in E. injection E as <-. vm_compute. reflexivity. }
    rewrite Hc in Hm. injection Hm as <-. reflexivity. }
  destruct (add_memory_region_correct s B pm (boot_share ex_frames) ZONE_DMA32 z 0x1100800 0x1103800 H Hz)
    as (s' & B' & E' & _ & _ & Hfr' & _).
  - lia.
  - unfold PAGE_SIZE. lia.
  - lia.
  - intros p Hp. rewrite Er in Hp. split.
    + rewrite Hfr. rewrite elem_of_seqZ. repeat (apply elem_of_cons in Hp as [->|Hp]; [lia|]). apply elem_of_nil in Hp. destruct Hp.
    + unfold bit. rewrite Eu, Epm. repeat (apply elem_of_cons in Hp as [->|Hp]; [vm_compute; split; reflexivity|]).
      apply elem_of_nil in Hp. destruct Hp.
  - exists s, s', B'. split; [exact E|]. split; [exact E'|]. rewrite Hfr', Er, Hfr. reflexivity.
Defined.

(** ** Start-up *)

(** The kernel's variables before [init_frame]. *)
Definition frame_zero : frame_sys :=
  mkFrame (mkMem (mkMeta ∅ 0 0 0 0 false) (fun _ => None) (mkBitmap false [] 0 0)
             (mkRefCtx None 0 (mkBitmap false [] 0 0)) true) 0 false 0 0.

(** A memory map with 17 MiB of usable memory above 1 MiB. *)
Definition ex_map : list region :=
  [mkRegion 0 0x9f000 true; mkRegion 0x9f000 0x61000 false; mkRegion 0x100000 0xf00000 true;
   mkRegion 0x1000000 0x200000 true].

(** With the boot parameter [mem=16M] on a machine that has usable memory
    above 16 MiB, [init_frame] writes outside the bitmap it has just sized:
    the bitmap is sized by the parameter, but every usable region of the map
    is marked in it, and [bitmap_set_range] does not clip its end to the
    bitmap's length. Without the parameter the same machine starts up. *)
Theorem init_frame_mem_limit_overrun :
  init_frame frame_zero 0xffff800000000000 ex_map (Some [49; 54; 77]) = None /\
  is_Some (init_frame frame_zero 0xffff800000000000 ex_map None).
Proof. split; vm_compute; eauto. Qed.
