(* ===== verification/KMem.v ===== *)
(** * Byte-addressed memory

    The memory the routines of [src/src/util/krlibc.c] work on: a finite map
    from addresses to bytes. An access to an address outside the map faults.
    32- and 64-bit accesses are little-endian. *)

From stdpp Require Import gmap.
From S2P Require Import Prelude.

Abbreviation mem := (gmap Z Z).

Definition load8 (m : mem) (a : Z) : option Z := m !! a.

Definition store8 (m : mem) (a v : Z) : option mem :=
  _ ← m !! a; Some (<[a := u8 v]> m).

(** [n] bytes from [a] on as a little-endian number, and the converse. *)
Fixpoint load_le (n : nat) (m : mem) (a : Z) : option Z :=
  match n with
  | O => Some 0
  | S n => b ← load8 m a; w ← load_le n m (a + 1); Some (b + 256 * w)
  end.

Fixpoint store_le (n : nat) (m : mem) (a v : Z) : option mem :=
  match n with
  | O => Some m
  | S n => m ← store8 m a v; store_le n m (a + 1) (v / 256)
  end.

Definition load32 : mem -> Z -> option Z := load_le 4.
Definition store32 : mem -> Z -> Z -> option mem := store_le 4.
Definition load64 : mem -> Z -> option Z := load_le 8.
Definition store64 : mem -> Z -> Z -> option mem := store_le 8.

(** ** Mapped ranges *)

(** The [n] bytes from [a] on exist. *)
Definition mapped (m : mem) (a n : Z) : Prop := forall x, a <= x < a + n -> is_Some (m !! x).

(** The map holds bytes. *)
Definition bytes_ok (m : mem) : Prop := forall x b, m !! x = Some b -> 0 <= b < 256.

(** [m'] is [m] with new contents [f] at the addresses that satisfy [P]. *)
Definition patched (m m' : mem) (P : Z -> bool) (f : Z -> option Z) : Prop :=
  forall x, m' !! x = if P x then f x else m !! x.

Lemma mapped_sub m a n a' n' : mapped m a n -> a <= a' -> a' + n' <= a + n -> mapped m a' n'.
Proof. intros H Ha Hn x Hx. apply H. lia. Qed.

Lemma mapped_patched m m' P f a n :
  patched m m' P f -> (forall x, P x = true -> is_Some (f x)) -> mapped m a n -> mapped m' a n.
Proof. intros Hp Hf Hm x Hx. rewrite Hp. case_if; auto. Qed.

Lemma patched_refl m P f : (forall x, P x = false) -> patched m m P f.
Proof. intros H x. by rewrite H. Qed.

Lemma patched_ext m m' P Q f g :
  (forall x, P x = Q x) -> (forall x, Q x = true -> f x = g x) -> patched m m' P f -> patched m m' Q g.
Proof. intros E Ef H x. rewrite H, E. specialize (Ef x). destruct (Q x); auto. Qed.

Lemma patched_trans m1 m2 m3 P Q f :
  patched m1 m2 P f -> patched m2 m3 Q f -> patched m1 m3 (fun x => P x || Q x) f.
Proof. intros H1 H2 x. rewrite H2, H1. by destruct (P x), (Q x). Qed.

(** ** Single accesses *)

Lemma load8_ok m a n x : mapped m a n -> a <= x < a + n -> exists b, load8 m x = Some b.
Proof. intros H Hx. by apply H. Qed.

Lemma store8_ok m a v :
  is_Some (m !! a) -> exists m', store8 m a v = Some m' /\ patched m m' (fun x => x =? a) (fun _ => Some (u8 v)).
Proof.
  intros [b Hb]. unfold store8. rewrite Hb. cbn [mbind option_bind]. eexists; split; [done|]. intros x.
  destruct (Z.eqb_spec x a) as [->|]; [by rewrite lookup_insert_eq|by rewrite lookup_insert_ne].
Qed.

(** Byte [i] of a number. *)
Definition byte_of (v i : Z) : Z := v / 256 ^ i mod 256.

Lemma byte_of_0 v : byte_of v 0 = u8 v.
Proof. unfold byte_of. by rewrite Z.pow_0_r, Z.div_1_r. Qed.

Lemma byte_of_S v i : 0 <= i -> byte_of v (i + 1) = byte_of (v / 256) i.
Proof.
  intros. unfold byte_of. rewrite Z.pow_add_r, Z.pow_1_r, Z.mul_comm by lia.
  assert (0 < 256 ^ i) by (apply Z.pow_pos_nonneg; lia). rewrite Z.div_div by lia. done.
Qed.

Lemma store_le_ok n : forall m a v,
  mapped m a (Z.of_nat n) ->
  exists m', store_le n m a v = Some m' /\
    patched m m' (fun x => (a <=? x) && (x <? a + Z.of_nat n)) (fun x => Some (byte_of v (x - a))).
Proof.
  induction n as [|n IH]; intros m a v Hm; cbn [store_le].
  { exists m. split; [done|]. apply patched_refl. intros x. rewrite Z.add_0_r. lia. }
  destruct (store8_ok m a v) as (m1 & -> & H1); [apply Hm; lia|]. cbn [mbind option_bind].
  destruct (IH m1 (a + 1) (v / 256)) as (m2 & -> & H2).
  { eapply mapped_patched; [exact H1|done|]. eapply mapped_sub; [exact Hm|lia|lia]. }
  exists m2. split; [done|]. intros x. rewrite H2, H1. rewrite Nat2Z.inj_succ. unfold Z.succ. pose proof (Nat2Z.is_nonneg n).
  destruct ((a + 1 <=? x) && (x <? a + 1 + Z.of_nat n)) eqn:E1, ((a <=? x) && (x <? a + (Z.of_nat n + 1))) eqn:E2;
    bools; try lia.
  - rewrite <- byte_of_S by lia. do 2 f_equal. lia.
  - assert (x = a) as -> by lia. by rewrite Z.eqb_refl, Z.sub_diag, byte_of_0.
  - by replace (x =? a) with false by lia.
Qed.

Lemma load_le_ok n : forall m a, mapped m a (Z.of_nat n) -> exists w, load_le n m a = Some w.
Proof.
  induction n as [|n IH]; intros m a Hm; cbn [load_le]; [eauto|].
  destruct (Hm a) as [b Hb]; [lia|]. unfold load8. rewrite Hb. cbn [mbind option_bind].
  destruct (IH m (a + 1)) as [w ->]; [eapply mapped_sub; [exact Hm|lia|lia]|]. cbn [mbind option_bind]. eauto.
Qed.

Lemma load_le_bytes n : forall m a w,
  bytes_ok m -> load_le n m a = Some w ->
  0 <= w < 256 ^ Z.of_nat n /\ forall i, 0 <= i < Z.of_nat n -> m !! (a + i) = Some (byte_of w i).
Proof.
  induction n as [|n IH]; intros m a w Hb; cbn [load_le].
  { intros [= <-]. split; [lia|]. intros i Hi. lia. }
  unfold load8. destruct (m !! a) as [b|] eqn:Ha; cbn [mbind option_bind]; [|done].
  destruct (load_le n m (a + 1)) as [w'|] eqn:Hw; cbn [mbind option_bind]; [|done]. intros [= <-].
  destruct (IH _ _ _ Hb Hw) as [Hw' Hi]. pose proof (Hb _ _ Ha) as Hbb.
  assert ((b + 256 * w') / 256 = w') as Hd by (rewrite Z.mul_comm, Z.div_add, Z.div_small by lia; lia).
  split; [rewrite Nat2Z.inj_succ, Z.pow_succ_r by lia; lia|]. intros i Hr.
  destruct (decide (i = 0)) as [->|].
  - rewrite Z.add_0_r, byte_of_0, Ha. unfold u8. by rewrite Z.mul_comm, Z.mod_add, Z.mod_small by lia.
  - replace i with (i - 1 + 1) by lia. rewrite byte_of_S, Hd by lia. rewrite <- Hi by lia. f_equal. lia.
Qed.

Lemma bytes_ok_patched m m' P f :
  patched m m' P f -> (forall x b, P x = true -> f x = Some b -> 0 <= b < 256) -> bytes_ok m -> bytes_ok m'.
Proof. intros Hp Hf Hm x b. rewrite Hp. case_if; eauto. Qed.

Lemma byte_of_bound v i : 0 <= byte_of v i < 256.
Proof. apply Z.mod_pos_bound. lia. Qed.

#[export] Hint Resolve byte_of_bound : kern.

(** Or-ing a low part and a shifted part adds them. *)
Lemma lor_shift_add a b k : 0 <= k -> 0 <= a < 2 ^ k -> Z.lor a (b * 2 ^ k) = a + b * 2 ^ k.
Proof.
  intros Hk Ha. assert (Z.land a (b * 2 ^ k) = 0) as E.
  { apply Z.bits_inj'. intros i Hi. rewrite Z.land_spec, Z.bits_0. destruct (decide (i < k)).
    - rewrite Z.mul_pow2_bits_low by lia. apply andb_false_r.
    - rewrite <- (Z.mod_small a (2 ^ k)) by lia. rewrite Z.mod_pow2_bits_high by lia. done. }
  rewrite <- Z.lxor_lor, <- Z.add_nocarry_lxor by done. done.
Qed.

Lemma land_m4 x : Z.land x (-4) = x / 4 * 4.
Proof.
  change (-4) with (Z.lnot (Z.ones 2)). rewrite <- Z.ldiff_land, Z.ldiff_ones_r by lia.
  by rewrite Z.shiftl_mul_pow2, Z.shiftr_div_pow2 by lia.
Qed.

Lemma land_3 x : Z.land x 3 = x mod 4.
Proof. change 3 with (Z.ones 2). by rewrite Z.land_ones by lia. Qed.

Lemma land_4_cases x : Z.land x 4 = 0 \/ Z.land x 4 = 4.
Proof.
  change 4 with (2 ^ 2). destruct (Z.testbit x 2) eqn:E; [right|left].
  - apply Z.bits_inj'. intros i Hi. rewrite Z.land_spec, Z.pow2_bits_eqb by lia.
    destruct (Z.eqb_spec 2 i) as [<-|]; [by rewrite E|apply andb_false_r].
  - apply Z.bits_inj'. intros i Hi. rewrite Z.land_spec, Z.pow2_bits_eqb, Z.bits_0 by lia.
    destruct (Z.eqb_spec 2 i) as [<-|]; [by rewrite E|apply andb_false_r].
Qed.
