(* ===== verification/KMemset.v ===== *)
(** * [memset] ([src/src/util/krlibc.c])

    The portable routine, used where the architecture brings none of its own.
    It stores the ends of the range byte by byte, then word by word from both
    sides, and the middle in 32-byte steps; the stores overlap. The theorem
    says that together they fill exactly the range. *)

From stdpp Require Import gmap.
From S2P Require Import Prelude KMem.

(** The 32-byte loop. Every turn lowers [n] by 32, so [n / 32 + 1] turns are
    enough. *)
Fixpoint memset_loop (fuel : nat) (m : mem) (s n c64 : Z) : option mem :=
  match fuel with
  | O => None
  | S fuel =>
      if n >=? 32 then
        m ← store64 m (s + 0) c64;
        m ← store64 m (s + 8) c64;
        m ← store64 m (s + 16) c64;
        m ← store64 m (s + 24) c64;
        memset_loop fuel m (s + 32) (n - 32) c64
      else Some m
  end.

(** The memory after [memset(dest, c, n)], which returns [dest]. *)
Definition memset (m : mem) (dest c n : Z) : option mem :=
  let s := dest in
  if n =? 0 then Some m
  else
    m ← store8 m s c;
    m ← store8 m (s + n - 1) c;
    if n <=? 2 then Some m
    else
      m ← store8 m (s + 1) c;
      m ← store8 m (s + 2) c;
      m ← store8 m (s + n - 2) c;
      m ← store8 m (s + n - 3) c;
      if n <=? 6 then Some m
      else
        m ← store8 m (s + 3) c;
        m ← store8 m (s + n - 4) c;
        if n <=? 8 then Some m
        else
          let k := Z.land (- s) 3 in
          let s := s + k in
          let n := Z.land (n - k) (-4) in
          let c32 := u32 ((two32 - 1) / 255 * u8 c) in
          m ← store32 m (s + 0) c32;
          m ← store32 m (s + n - 4) c32;
          if n <=? 8 then Some m
          else
            m ← store32 m (s + 4) c32;
            m ← store32 m (s + 8) c32;
            m ← store32 m (s + n - 12) c32;
            m ← store32 m (s + n - 8) c32;
            if n <=? 24 then Some m
            else
              m ← store32 m (s + 12) c32;
              m ← store32 m (s + 16) c32;
              m ← store32 m (s + 20) c32;
              m ← store32 m (s + 24) c32;
              m ← store32 m (s + n - 28) c32;
              m ← store32 m (s + n - 24) c32;
              m ← store32 m (s + n - 20) c32;
              m ← store32 m (s + n - 16) c32;
              let k := 24 + Z.land s 4 in
              let s := s + k in
              let n := n - k in
              let c64 := Z.lor c32 (u64 (Z.shiftl c32 32)) in
              memset_loop (S (Z.to_nat (n / 32))) m s n c64.

(** ** Words of equal bytes *)

Section Fill.
Context (c : Z) (m : mem) (d n : Z) (Hmap : mapped m d n).

Definition c32 : Z := u32 ((two32 - 1) / 255 * u8 c).
Definition c64 : Z := Z.lor c32 (u64 (Z.shiftl c32 32)).

Lemma c32_val : c32 = u8 c * 0x01010101.
Proof.
  unfold c32. change ((two32 - 1) / 255) with 16843009. pose proof (u8_bound c). unfold u32. rewrite Z.mod_small by lia. lia.
Qed.

Lemma c64_val : c64 = u8 c * 0x0101010101010101.
Proof.
  unfold c64. rewrite Z.shiftl_mul_pow2 by lia. pose proof (u8_bound c). rewrite u64_id by (rewrite c32_val; lia).
  rewrite lor_shift_add by (rewrite ?c32_val; lia). rewrite c32_val. lia.
Qed.

(** Each byte of the words is the fill byte. *)
Lemma c64_byte i : 0 <= i < 8 -> byte_of c64 i = u8 c.
Proof.
  intros Hi. pose proof (u8_bound c). rewrite c64_val. unfold byte_of.
  assert (i = 0 \/ i = 1 \/ i = 2 \/ i = 3 \/ i = 4 \/ i = 5 \/ i = 6 \/ i = 7) as Hcase by lia.
  destruct Hcase as [->|[->|[->|[->|[->|[->|[->| ->]]]]]]];
    Z.to_euclidean_division_equations; lia.
Qed.

Lemma c32_byte i : 0 <= i < 4 -> byte_of c32 i = u8 c.
Proof.
  intros Hi. pose proof (u8_bound c). rewrite c32_val. unfold byte_of.
  assert (i = 0 \/ i = 1 \/ i = 2 \/ i = 3) as Hcase by lia.
  destruct Hcase as [->|[->|[->| ->]]]; Z.to_euclidean_division_equations; lia.
Qed.

(** The bytes selected by [P] are filled, the others as in [m]. *)
Definition filled (m' : mem) (P : Z -> bool) : Prop := patched m m' P (fun _ => Some (u8 c)).

Lemma filled_mapped m' P a k : filled m' P -> d <= a -> a + k <= d + n -> mapped m' a k.
Proof.
  intros H Ha Hk. eapply mapped_patched; [exact H|done|]. by eapply mapped_sub.
Qed.

Lemma filled_ext m' P Q : filled m' P -> (forall x, P x = Q x) -> filled m' Q.
Proof. intros H E x. rewrite <- E. apply H. Qed.

Lemma fill8 m' P a :
  filled m' P -> d <= a -> a + 1 <= d + n ->
  exists m'', store8 m' a c = Some m'' /\ filled m'' (fun x => P x || ((a <=? x) && (x <? a + 1))).
Proof.
  intros H Ha Hn. destruct (store8_ok m' a c) as (m'' & -> & H').
  { apply (filled_mapped m' P a 1 H Ha Hn). lia. }
  exists m''. split; [done|]. eapply patched_trans; [exact H|]. intros x. rewrite H'.
  destruct (Z.eqb_spec x a), ((a <=? x) && (x <? a + 1)) eqn:E; try done; lia.
Qed.

Lemma fill_word k w m' P a :
  (forall i, 0 <= i < Z.of_nat k -> byte_of w i = u8 c) ->
  filled m' P -> d <= a -> a + Z.of_nat k <= d + n ->
  exists m'', store_le k m' a w = Some m'' /\ filled m'' (fun x => P x || ((a <=? x) && (x <? a + Z.of_nat k))).
Proof.
  intros Hw H Ha Hn. destruct (store_le_ok k m' a w) as (m'' & -> & H'); [by eapply filled_mapped|].
  exists m''. split; [done|]. eapply patched_trans; [exact H|]. eapply patched_ext; [done| |exact H'].
  intros x Hx. cbn beta in *. rewrite Hw; [done|]. bools. lia.
Qed.

Definition fill32 := fill_word 4 c32.
Definition fill64 := fill_word 8 c64.

End Fill.

(** One store of the routine, with its bounds. *)
Ltac fill_step H :=
  match goal with
  | |- context [store8 ?m1 ?a ?c] =>
      let m2 := fresh "m" in let H2 := fresh "H" in
      destruct (fill8 c _ _ _ ltac:(eassumption) m1 _ a H) as (m2 & -> & H2); [lia|lia|];
      cbn [mbind option_bind]; clear H; rename H2 into H
  | |- context [store32 ?m1 ?a _] =>
      let m2 := fresh "m" in let H2 := fresh "H" in let E := fresh "E" in
      destruct (fill_word _ _ _ _ ltac:(eassumption) 4 _ m1 _ a (c32_byte _) H) as (m2 & E & H2); [lia|lia|];
      change (store_le 4) with store32 in E; rewrite E; clear E;
      cbn [mbind option_bind]; clear H; rename H2 into H
  end.

(** Prefix up to [p] and suffix from [q] on. *)
Definition ends (d n p q x : Z) : bool := (d <=? x) && (x <? p) || (q <=? x) && (x <? d + n).

Lemma memset_loop_spec c m d n q : forall fuel m1 s r p,
  mapped m d n -> filled c m m1 (ends d n p q) -> d <= s <= p -> p <= s + 4 -> p <= d + n -> s + r <= d + n -> 0 <= r -> r mod 4 = 0 ->
  d <= q <= s + r - 28 -> r / 32 < Z.of_nat fuel ->
  exists m', memset_loop fuel m1 s r (c64 c) = Some m' /\ filled c m m' (fun x => (d <=? x) && (x <? d + n)).
Proof.
  induction fuel as [|fuel IH]; intros m1 s r p Hmap H Hs Hp Hpn Hr Hr0 Hmod Hq Hf; [pose proof (Z.div_pos r 32); lia|].
  cbn [memset_loop]. destruct (Z.geb_spec r 32) as [Hge|Hlt].
  2:{ exists m1. split; [done|]. eapply filled_ext; [exact H|]. intros x. unfold ends.
      assert (r <= 28) by (Z.to_euclidean_division_equations; lia). lia. }
  do 4 (match goal with |- context [store64 ?m0 ?a _] =>
    let m2 := fresh "m" in let H2 := fresh "H" in
    destruct (fill_word c m d n Hmap 8 (c64 c) m0 _ a (c64_byte c) H) as (m2 & E & H2); [lia|lia|];
    change (store_le 8) with store64 in E; rewrite E; clear E; cbn [mbind option_bind]; clear H; rename H2 into H end).
  apply (IH _ (s + 32) (r - 32) (s + 32)); try done; try lia.
  - eapply filled_ext; [exact H|]. intros x. unfold ends; cbv beta; change (Z.of_nat 8) with 8; lia.
  - rewrite <- Hmod. replace (r - 32) with (r + (-8) * 4) by lia. by rewrite Z.mod_add.
  - replace (r - 32) with (r + (-1) * 32) by lia. rewrite Z.div_add by lia. lia.
Qed.

Ltac filled_done H :=
  eexists; split; [done|]; eapply filled_ext; [exact H|]; intros x; unfold ends; cbv beta; change (Z.of_nat 8) with 8; change (Z.of_nat 4) with 4; lia.

Lemma memset_spec m d c n :
  0 <= n -> mapped m d n -> exists m', memset m d c n = Some m' /\ filled c m m' (fun x => (d <=? x) && (x <? d + n)).
Proof.
  intros Hn Hmap. unfold memset. destruct (Z.eqb_spec n 0) as [->|Hn0].
  { exists m. split; [done|]. apply patched_refl. intros x. rewrite Z.add_0_r. lia. }
  assert (filled c m m (fun _ => false)) as H by by apply patched_refl.
  do 2 fill_step H. case_if; [filled_done H|].
  do 4 fill_step H. case_if; [filled_done H|].
  do 2 fill_step H. case_if; [filled_done H|].
  apply (filled_ext _ _ _ _ (ends d n (d + 4) (d + n - 4))) in H; [|intros x; unfold ends; lia].
  rewrite land_3, land_m4. set (k := - d mod 4). assert (0 <= k < 4) as Hk by (apply Z.mod_pos_bound; lia).
  set (t := (n - k) / 4). assert (n - k - 3 <= t * 4 <= n - k) as Ht by (unfold t; Z.to_euclidean_division_equations; lia).
  fold (c32 c). clearbody k t.
  do 2 fill_step H. case_if; [filled_done H|].
  apply (filled_ext _ _ _ _ (ends d n (d + k + 4) (d + k + t * 4 - 4))) in H; [|intros x; unfold ends; cbv beta; change (Z.of_nat 8) with 8; change (Z.of_nat 4) with 4; lia].
  do 4 fill_step H. case_if; [filled_done H|].
  apply (filled_ext _ _ _ _ (ends d n (d + k + 12) (d + k + t * 4 - 12))) in H; [|intros x; unfold ends; cbv beta; change (Z.of_nat 8) with 8; change (Z.of_nat 4) with 4; lia].
  do 4 fill_step H.
  apply (filled_ext _ _ _ _ (ends d n (d + k + 28) (d + k + t * 4 - 12))) in H; [|intros x; unfold ends; cbv beta; change (Z.of_nat 8) with 8; change (Z.of_nat 4) with 4; lia].
  do 4 fill_step H.
  apply (filled_ext _ _ _ _ (ends d n (d + k + 28) (d + k + t * 4 - 28))) in H; [|intros x; unfold ends; cbv beta; change (Z.of_nat 8) with 8; change (Z.of_nat 4) with 4; lia].
  destruct (land_4_cases (d + k)) as [E4|E4]; rewrite E4; fold (c64 c).
  all: apply (memset_loop_spec c m d n (d + k + t * 4 - 28) _ _ _ _ (d + k + 28)); try done; try lia.
  all: try (Z.to_euclidean_division_equations; lia).
Qed.
