(* ===== verification/KMemcpy.v ===== *)
(** * [memcpy] and [memmove] ([src/src/util/krlibc.c])

    The portable routines. [memcpy] aligns the source, copies words when the
    destination is aligned too, and otherwise builds each destination word
    from two source words by shifts; [memmove] copies forwards or backwards,
    by 8-byte words when both pointers agree modulo 8. The machine is
    little-endian, so LS is [>>] and RS is [<<]. *)

From stdpp Require Import gmap.
From S2P Require Import Prelude KMem.

(** ** [memcpy] *)

(** [*d = *s] on bytes and on 32-bit words. *)
Definition copy8 (m : mem) (d s : Z) : option mem := b ← load8 m s; store8 m d b.
Definition copy32 (m : mem) (d s : Z) : option mem := w ← load32 m s; store32 m d w.

(** [k] times [*d++ = *s++]. *)
Fixpoint copy_bytes (k : nat) (m : mem) (d s : Z) : option mem :=
  match k with
  | O => Some m
  | S k => m ← copy8 m d s; copy_bytes k m (d + 1) (s + 1)
  end.

(** [for (; (uintptr_t)s % 4 && n; n--) *d++ = *s++;]: at most three turns. *)
Fixpoint align_loop (fuel : nat) (m : mem) (d s n : Z) : option (mem * Z * Z * Z) :=
  match fuel with
  | O => None
  | S fuel =>
      if negb (s mod 4 =? 0) && negb (n =? 0) then
        m ← copy8 m d s; align_loop fuel m (d + 1) (s + 1) (n - 1)
      else Some (m, d, s, n)
  end.

(** The 16-byte loop for an aligned destination. *)
Fixpoint copy16_loop (fuel : nat) (m : mem) (d s n : Z) : option (mem * Z * Z * Z) :=
  match fuel with
  | O => None
  | S fuel =>
      if n >=? 16 then
        m ← copy32 m (d + 0) (s + 0);
        m ← copy32 m (d + 4) (s + 4);
        m ← copy32 m (d + 8) (s + 8);
        m ← copy32 m (d + 12) (s + 12);
        copy16_loop fuel m (d + 16) (s + 16) (n - 16)
      else Some (m, d, s, n)
  end.

(** [if (n & k)] followed by [k] byte copies. *)
Definition tail_bytes (k : nat) (n : Z) (st : mem * Z * Z) : option (mem * Z * Z) :=
  let '(m, d, s) := st in
  if negb (Z.land n (Z.of_nat k) =? 0) then
    m ← copy_bytes k m d s; Some (m, d + Z.of_nat k, s + Z.of_nat k)
  else Some (m, d, s).

(** The branch for an aligned destination. *)
Definition memcpy_aligned (m : mem) (d s n : Z) : option mem :=
  '(m, d, s, n) ← copy16_loop (S (Z.to_nat (n / 16))) m d s n;
  '(m, d, s) ←
    (if negb (Z.land n 8 =? 0) then
       m ← copy32 m (d + 0) (s + 0); m ← copy32 m (d + 4) (s + 4); Some (m, d + 8, s + 8)
     else Some (m, d, s));
  '(m, d, s) ←
    (if negb (Z.land n 4 =? 0) then m ← copy32 m (d + 0) (s + 0); Some (m, d + 4, s + 4)
     else Some (m, d, s));
  '(m, d, s) ← tail_bytes 2 n (m, d, s);
  '(m, _, _) ← tail_bytes 1 n (m, d, s);
  Some m.

(** [(w LS sh) | (x RS (32 - sh))] on [uint32_t]. *)
Definition shift_word (w x sh : Z) : Z := Z.lor (Z.shiftr w sh) (u32 (Z.shiftl x (32 - sh))).

(** The loop of the case [d % 4 == off] of the switch, for a destination
    [off] bytes past a word boundary: [w] is the last word read. *)
Fixpoint shift_loop (fuel : nat) (m : mem) (d s n w off : Z) : option (mem * Z * Z * Z) :=
  let sh := 32 - 8 * off in
  match fuel with
  | O => None
  | S fuel =>
      if n >=? 16 + off then
        x ← load32 m (s + off);
        m ← store32 m (d + 0) (shift_word w x sh);
        w ← load32 m (s + off + 4);
        m ← store32 m (d + 4) (shift_word x w sh);
        x ← load32 m (s + off + 8);
        m ← store32 m (d + 8) (shift_word w x sh);
        w ← load32 m (s + off + 12);
        m ← store32 m (d + 12) (shift_word x w sh);
        shift_loop fuel m (d + 16) (s + 16) (n - 16) w off
      else Some (m, d, s, n)
  end.

(** The case [off] of the switch: read a word, copy bytes up to the next word
    boundary of the destination, then the loop. *)
Definition shift_case (m : mem) (d s n off : Z) : option (mem * Z * Z * Z) :=
  w ← load32 m s;
  m ← copy_bytes (Z.to_nat (4 - off)) m d s;
  let d := d + (4 - off) in
  let s := s + (4 - off) in
  let n := n - (4 - off) in
  shift_loop (S (Z.to_nat (n / 16))) m d s n w off.

(** The memory after [memcpy(dest, src, n)], which returns [dest]. *)
Definition memcpy (m : mem) (dest src n : Z) : option mem :=
  '(m, d, s, n) ← align_loop 4 m dest src n;
  if d mod 4 =? 0 then memcpy_aligned m d s n
  else
    '(m, d, s, n) ← (if n >=? 32 then shift_case m d s n (d mod 4) else Some (m, d, s, n));
    '(m, d, s) ← tail_bytes 16 n (m, d, s);
    '(m, d, s) ← tail_bytes 8 n (m, d, s);
    '(m, d, s) ← tail_bytes 4 n (m, d, s);
    '(m, d, s) ← tail_bytes 2 n (m, d, s);
    '(m, _, _) ← tail_bytes 1 n (m, d, s);
    Some m.

(** ** [memmove] *)

Definition copy64 (m : mem) (d s : Z) : option mem := w ← load64 m s; store64 m d w.

(** [while ((uintptr_t)d % WS) { if (!n--) return dest; *d++ = *s++; }]; the
    flag is true when the routine returns here. *)
Fixpoint move_align (fuel : nat) (m : mem) (d s n : Z) : option (bool * mem * Z * Z * Z) :=
  match fuel with
  | O => None
  | S fuel =>
      if negb (d mod 8 =? 0) then
        if n =? 0 then Some (true, m, d, s, n)
        else m ← copy8 m d s; move_align fuel m (d + 1) (s + 1) (n - 1)
      else Some (false, m, d, s, n)
  end.

Fixpoint move_words (fuel : nat) (m : mem) (d s n : Z) : option (mem * Z * Z * Z) :=
  match fuel with
  | O => None
  | S fuel =>
      if n >=? 8 then m ← copy64 m d s; move_words fuel m (d + 8) (s + 8) (n - 8)
      else Some (m, d, s, n)
  end.

(** The loops of the backward copy, which count [n] down. *)
Fixpoint back_align (fuel : nat) (m : mem) (d s n : Z) : option (bool * mem * Z) :=
  match fuel with
  | O => None
  | S fuel =>
      if negb ((d + n) mod 8 =? 0) then
        if n =? 0 then Some (true, m, n)
        else m ← copy8 m (d + (n - 1)) (s + (n - 1)); back_align fuel m d s (n - 1)
      else Some (false, m, n)
  end.

Fixpoint back_words (fuel : nat) (m : mem) (d s n : Z) : option (mem * Z) :=
  match fuel with
  | O => None
  | S fuel =>
      if n >=? 8 then m ← copy64 m (d + (n - 8)) (s + (n - 8)); back_words fuel m d s (n - 8)
      else Some (m, n)
  end.

Fixpoint back_bytes (n : nat) (m : mem) (d s : Z) : option mem :=
  match n with
  | O => Some m
  | S n => m ← copy8 m (d + Z.of_nat n) (s + Z.of_nat n); back_bytes n m d s
  end.

(** The memory after [memmove(dest, src, n)], which returns [dest]. *)
Definition memmove (m : mem) (dest src n : Z) : option mem :=
  let d := dest in
  let s := src in
  if d =? s then Some m
  else if (s + n <=? d) || (d + n <=? s) then memcpy m d s n
  else if d <? s then
    if s mod 8 =? d mod 8 then
      '(returned, m, d, s, n) ← move_align 9 m d s n;
      if returned : bool then Some m
      else
        '(m, d, s, n) ← move_words (S (Z.to_nat (n / 8))) m d s n;
        copy_bytes (Z.to_nat n) m d s
    else copy_bytes (Z.to_nat n) m d s
  else
    if s mod 8 =? d mod 8 then
      '(returned, m, n) ← back_align 9 m d s n;
      if returned : bool then Some m
      else
        '(m, n) ← back_words (S (Z.to_nat (n / 8))) m d s n;
        back_bytes (Z.to_nat n) m d s
    else back_bytes (Z.to_nat n) m d s.

(** ** Words from two words *)

Lemma shift_word_val w x off :
  1 <= off <= 3 -> 0 <= w < two32 -> 0 <= x < two32 ->
  shift_word w x (32 - 8 * off) = w / 2 ^ (32 - 8 * off) + (x * 2 ^ (8 * off)) mod two32.
Proof.
  intros Ho Hw Hx. unfold shift_word. rewrite Z.shiftr_div_pow2 by lia. replace (32 - (32 - 8 * off)) with (8 * off) by lia.
  rewrite Z.shiftl_mul_pow2 by lia. unfold u32. change two32 with (2 ^ 32).
  replace 32 with (32 - 8 * off + 8 * off) at 2 4 by lia. rewrite Z.pow_add_r by lia.
  assert (0 < 2 ^ (32 - 8 * off)) by (apply Z.pow_pos_nonneg; lia).
  assert (0 < 2 ^ (8 * off)) by (apply Z.pow_pos_nonneg; lia).
  rewrite Z.mul_mod_distr_r by lia. apply lor_shift_add; [lia|]. split; [apply Z.div_pos; lia|].
  apply Z.div_lt_upper_bound; [lia|]. rewrite <- Z.pow_add_r by lia.
  match goal with |- _ < 2 ^ ?e => replace e with 32 by lia end. change (2 ^ 32) with two32. lia.
Qed.

(** The combined word has the last [off] bytes of [w] and then the first
    bytes of [x]. *)
Lemma shift_word_byte w x off t :
  1 <= off <= 3 -> 0 <= w < two32 -> 0 <= x < two32 -> 0 <= t < 4 ->
  byte_of (shift_word w x (32 - 8 * off)) t = if t <? off then byte_of w (t + (4 - off)) else byte_of x (t - off).
Proof.
  intros Ho Hw Hx Ht. rewrite shift_word_val by done. unfold byte_of.
  assert (off = 1 \/ off = 2 \/ off = 3) as Hoff by lia. assert (t = 0 \/ t = 1 \/ t = 2 \/ t = 3) as Htt by lia.
  destruct Hoff as [->|[->| ->]], Htt as [->|[->|[->| ->]]]; cbn [Z.ltb Z.compare];
    repeat match goal with
    | |- context [2 ^ ?e] => let v := eval vm_compute in (2 ^ e) in change (2 ^ e) with v
    | |- context [256 ^ ?e] => let v := eval vm_compute in (256 ^ e) in change (256 ^ e) with v
    end; cbn; Z.to_euclidean_division_equations; lia.
Qed.

(** ** Progress of a copy *)

Section Copy.
Context (m0 : mem) (d0 s0 n0 : Z).
Context (Hb : bytes_ok m0) (Hd : mapped m0 d0 n0) (Hs : mapped m0 s0 n0).
(* the ranges are disjoint, or the destination starts below the source *)
Context (Hsep : s0 + n0 <= d0 \/ d0 <= s0).

(** The first [i] bytes are in place. *)
Definition copied (m : mem) (i : Z) : Prop :=
  patched m0 m (fun x => (d0 <=? x) && (x <? d0 + i)) (fun x => m0 !! (s0 + (x - d0))).

Lemma copied_0 : copied m0 0.
Proof. apply patched_refl. intros x. rewrite Z.add_0_r. lia. Qed.

Lemma copied_src m i j : copied m i -> 0 <= i <= n0 -> i <= j < n0 -> m !! (s0 + j) = m0 !! (s0 + j).
Proof. intros H Hi Hj. rewrite H. case_if; [bools; lia|done]. Qed.

Lemma copied_mapped m i a k : copied m i -> 0 <= i <= n0 -> mapped m0 a k -> mapped m a k.
Proof.
  intros H Hi Ha. eapply mapped_patched; [exact H| |exact Ha]. intros x Hx. cbn beta in *. bools. apply Hs. lia.
Qed.

Lemma copied_bytes m i : copied m i -> bytes_ok m.
Proof. intros H. eapply bytes_ok_patched; [exact H| |exact Hb]. intros x b _ Hx. exact (Hb _ _ Hx). Qed.

(** Storing the next [k] source bytes. *)
Lemma copied_store k m i v :
  copied m i -> 0 <= i -> i + Z.of_nat k <= n0 ->
  (forall t, 0 <= t < Z.of_nat k -> m0 !! (s0 + (i + t)) = Some (byte_of v t)) ->
  exists m', store_le k m (d0 + i) v = Some m' /\ copied m' (i + Z.of_nat k).
Proof.
  intros H Hi Hk Hv. destruct (store_le_ok k m (d0 + i) v) as (m' & -> & H').
  { eapply copied_mapped; [exact H|lia|]. eapply mapped_sub; [exact Hd|lia|lia]. }
  exists m'. split; [done|]. intros x. rewrite H', H.
  destruct ((d0 + i <=? x) && (x <? d0 + i + Z.of_nat k)) eqn:E1, ((d0 <=? x) && (x <? d0 + (i + Z.of_nat k))) eqn:E2;
    bools; try lia.
  - rewrite <- Hv by lia. f_equal. lia.
  - by replace ((d0 <=? x) && (x <? d0 + i)) with true by lia.
  - by replace ((d0 <=? x) && (x <? d0 + i)) with false by lia.
Qed.

(** Reading the source. *)
Lemma copied_load k m i j :
  copied m i -> 0 <= i <= n0 -> i <= j -> j + Z.of_nat k <= n0 ->
  exists w, load_le k m (s0 + j) = Some w /\ 0 <= w < 256 ^ Z.of_nat k /\
    forall t, 0 <= t < Z.of_nat k -> m0 !! (s0 + (j + t)) = Some (byte_of w t).
Proof.
  intros H Hi Hj Hk. destruct (load_le_ok k m (s0 + j)) as [w Hw].
  { eapply copied_mapped; [exact H|lia|]. eapply mapped_sub; [exact Hs|lia|lia]. }
  destruct (load_le_bytes _ _ _ _ (copied_bytes _ _ H) Hw) as [Hr Hbytes].
  exists w. split; [done|]. split; [done|]. intros t Ht. rewrite <- Hbytes by done.
  rewrite <- Z.add_assoc. symmetry. apply (copied_src m i); [done|lia|lia].
Qed.

Lemma copied_copy32 m i a b :
  copied m i -> 0 <= i -> i + 4 <= n0 -> a = d0 + i -> b = s0 + i ->
  exists m', copy32 m a b = Some m' /\ copied m' (i + 4).
Proof.
  intros H Hi Hn -> ->. unfold copy32, load32, store32.
  destruct (copied_load 4 m i i H) as (w & -> & _ & Hw); [lia..|]. cbn [mbind option_bind].
  by apply (copied_store 4).
Qed.

Lemma copied_copy8 m i a b :
  copied m i -> 0 <= i -> i + 1 <= n0 -> a = d0 + i -> b = s0 + i ->
  exists m', copy8 m a b = Some m' /\ copied m' (i + 1).
Proof.
  intros H Hi Hn -> ->. unfold copy8. destruct (copied_load 1 m i i H) as (w & Hl & _ & Hw); [lia..|].
  cbn [load_le] in Hl. destruct (load8 m (s0 + i)) as [v|] eqn:E; [|done]. cbn [mbind option_bind] in *.
  injection Hl as <-. destruct (copied_store 1 m i v H) as (m' & Hst & H'); [lia|lia| |].
  { intros t Ht. rewrite Hw by done. assert (t = 0) as -> by lia. do 2 f_equal. lia. }
  exists m'. split; [|done]. cbn [store_le] in Hst. by destruct (store8 m (d0 + i) v).
Qed.

Lemma copied_copy_bytes k : forall m i a b,
  copied m i -> 0 <= i -> i + Z.of_nat k <= n0 -> a = d0 + i -> b = s0 + i ->
  exists m', copy_bytes k m a b = Some m' /\ copied m' (i + Z.of_nat k).
Proof.
  induction k as [|k IH]; intros m i a b H Hi Hn Ha Hbb; cbn [copy_bytes].
  { exists m. split; [done|]. by rewrite Z.add_0_r. }
  destruct (copied_copy8 m i a b H) as (m1 & -> & H1); try lia. cbn [mbind option_bind].
  destruct (IH m1 (i + 1) (a + 1) (b + 1) H1) as (m2 & -> & H2); try lia.
  exists m2. split; [done|]. by replace (i + Z.of_nat (S k)) with (i + 1 + Z.of_nat k) by lia.
Qed.

Lemma align_loop_spec : forall fuel m i,
  copied m i -> 0 <= i <= n0 -> (- (s0 + i)) mod 4 < Z.of_nat fuel ->
  exists m' i', align_loop fuel m (d0 + i) (s0 + i) (n0 - i) = Some (m', d0 + i', s0 + i', n0 - i') /\
    copied m' i' /\ 0 <= i' <= n0 /\ (n0 - i' = 0 \/ (s0 + i') mod 4 = 0).
Proof.
  induction fuel as [|fuel IH]; intros m i H Hi Hf; [pose proof (Z.mod_pos_bound (- (s0 + i)) 4); lia|].
  cbn [align_loop]. destruct (Z.eqb_spec ((s0 + i) mod 4) 0) as [E|E]; cbn [negb andb].
  { exists m, i. split_and!; try done; try lia. }
  destruct (Z.eqb_spec (n0 - i) 0) as [E'|E']; cbn [negb]; [exists m, i; split_and!; try done; try lia|].
  destruct (copied_copy8 m i (d0 + i) (s0 + i) H) as (m1 & -> & H1); try lia. cbn [mbind option_bind].
  replace (d0 + i + 1) with (d0 + (i + 1)) by lia. replace (s0 + i + 1) with (s0 + (i + 1)) by lia.
  replace (n0 - i - 1) with (n0 - (i + 1)) by lia. apply IH; [done|lia|].
  clear - Hf E. Z.to_euclidean_division_equations; lia.
Qed.

Lemma copy16_loop_spec : forall fuel m i,
  copied m i -> 0 <= i <= n0 -> (n0 - i) / 16 < Z.of_nat fuel ->
  exists m' i', copy16_loop fuel m (d0 + i) (s0 + i) (n0 - i) = Some (m', d0 + i', s0 + i', n0 - i') /\
    copied m' i' /\ 0 <= i' <= n0 /\ n0 - i' < 16.
Proof.
  induction fuel as [|fuel IH]; intros m i H Hi Hf; [pose proof (Z.div_pos (n0 - i) 16); lia|].
  cbn [copy16_loop]. destruct (Z.geb_spec (n0 - i) 16) as [Hge|]; [|exists m, i; split_and!; try done; lia].
  destruct (copied_copy32 m i (d0 + i + 0) (s0 + i + 0) H) as (m1 & -> & H1); try lia. cbn [mbind option_bind].
  destruct (copied_copy32 m1 (i + 4) (d0 + i + 4) (s0 + i + 4) H1) as (m2 & -> & H2); try lia. cbn [mbind option_bind].
  destruct (copied_copy32 m2 (i + 4 + 4) (d0 + i + 8) (s0 + i + 8) H2) as (m3 & -> & H3); try lia. cbn [mbind option_bind].
  destruct (copied_copy32 m3 (i + 4 + 4 + 4) (d0 + i + 12) (s0 + i + 12) H3) as (m4 & -> & H4); try lia. cbn [mbind option_bind].
  replace (d0 + i + 16) with (d0 + (i + 16)) by lia. replace (s0 + i + 16) with (s0 + (i + 16)) by lia.
  replace (n0 - i - 16) with (n0 - (i + 16)) by lia. apply IH; [by replace (i + 16) with (i + 4 + 4 + 4 + 4) by lia|lia|].
  replace (n0 - (i + 16)) with (n0 - i + (-1) * 16) by lia. rewrite Z.div_add by lia. lia.
Qed.

(** The bits of a small number, as the tails test them. *)
Definition tails (n : Z) : Prop :=
  (Z.land n 16 = 0 \/ Z.land n 16 = 16) /\ (Z.land n 8 = 0 \/ Z.land n 8 = 8) /\ (Z.land n 4 = 0 \/ Z.land n 4 = 4) /\
  (Z.land n 2 = 0 \/ Z.land n 2 = 2) /\ (Z.land n 1 = 0 \/ Z.land n 1 = 1) /\
  Z.land n 16 + Z.land n 8 + Z.land n 4 + Z.land n 2 + Z.land n 1 = n.

Lemma tails_ok n : 0 <= n < 32 -> tails n /\ (n < 16 -> Z.land n 16 = 0).
Proof.
  intros Hn. assert (Forall (fun n => tails n /\ (n < 16 -> Z.land n 16 = 0)) (seqZ 0 32)) as HF.
  { change (seqZ 0 32) with (Z.of_nat <$> seq 0 32). unfold tails. cbn [seq fmap list_fmap Z.of_nat Pos.of_succ_nat Pos.succ].
    repeat (apply Forall_cons; split; [split; [split_and!; (by left) || (by right) || done|intros; first [done|lia]]|]).
    apply Forall_nil. done. }
  rewrite Forall_forall in HF. apply HF, elem_of_seqZ. lia.
Qed.

Lemma tail_bytes_spec k n m i :
  Z.land n (Z.of_nat k) = 0 \/ Z.land n (Z.of_nat k) = Z.of_nat k ->
  copied m i -> 0 <= i -> i + Z.land n (Z.of_nat k) <= n0 ->
  let i' := i + Z.land n (Z.of_nat k) in
  exists m', tail_bytes k n (m, d0 + i, s0 + i) = Some (m', d0 + i', s0 + i') /\ copied m' i'.
Proof.
  intros Hc H Hi Hn i'. unfold i', tail_bytes. destruct (Z.eqb_spec (Z.land n (Z.of_nat k)) 0) as [E|E]; cbn [negb].
  { rewrite E, Z.add_0_r. eauto. }
  destruct Hc as [|Hc]; [done|]. rewrite Hc in *.
  destruct (copied_copy_bytes k m i (d0 + i) (s0 + i) H) as (m' & -> & H'); try lia. cbn [mbind option_bind].
  exists m'. split; [by rewrite !Z.add_assoc|done].
Qed.

Lemma memcpy_aligned_spec m i :
  copied m i -> 0 <= i <= n0 ->
  exists m', memcpy_aligned m (d0 + i) (s0 + i) (n0 - i) = Some m' /\ copied m' n0.
Proof.
  intros H Hi. unfold memcpy_aligned.
  destruct (copy16_loop_spec (S (Z.to_nat ((n0 - i) / 16))) m i H Hi) as (m1 & j & -> & H1 & Hj & Hr).
  { pose proof (Z.div_pos (n0 - i) 16). lia. }
  cbn [mbind option_bind]. remember (n0 - j) as n eqn:En.
  destruct (tails_ok n) as [(_ & T8 & T4 & T2 & T1 & Hsum) H16]; [lia|]. specialize (H16 Hr).
  assert (exists m2, (if negb (Z.land n 8 =? 0) then
       m ← copy32 m1 (d0 + j + 0) (s0 + j + 0); m ← copy32 m (d0 + j + 4) (s0 + j + 4); Some (m, d0 + j + 8, s0 + j + 8)
     else Some (m1, d0 + j, s0 + j)) = Some (m2, d0 + (j + Z.land n 8), s0 + (j + Z.land n 8)) /\ copied m2 (j + Z.land n 8))
    as (m2 & -> & H2).
  { destruct T8 as [E|E]; rewrite E in *; cbn [Z.eqb negb]; [exists m1; by rewrite Z.add_0_r|].
    destruct (copied_copy32 m1 j (d0 + j + 0) (s0 + j + 0) H1) as (m2 & -> & H2); try lia. cbn [mbind option_bind].
    destruct (copied_copy32 m2 (j + 4) (d0 + j + 4) (s0 + j + 4) H2) as (m3 & -> & H3); try lia. cbn [mbind option_bind].
    exists m3. split; [by rewrite !Z.add_assoc|]. by replace (j + 8) with (j + 4 + 4) by lia. }
  cbn [mbind option_bind]. remember (j + Z.land n 8) as j2 eqn:Ej2.
  assert (exists m3, (if negb (Z.land n 4 =? 0) then m ← copy32 m2 (d0 + j2 + 0) (s0 + j2 + 0); Some (m, d0 + j2 + 4, s0 + j2 + 4)
     else Some (m2, d0 + j2, s0 + j2)) = Some (m3, d0 + (j2 + Z.land n 4), s0 + (j2 + Z.land n 4)) /\ copied m3 (j2 + Z.land n 4))
    as (m3 & -> & H3).
  { destruct T4 as [E|E]; rewrite E in *; cbn [Z.eqb negb]; [exists m2; by rewrite Z.add_0_r|].
    destruct (copied_copy32 m2 j2 (d0 + j2 + 0) (s0 + j2 + 0) H2) as (m3 & -> & H3); try lia. cbn [mbind option_bind].
    exists m3. split; [by rewrite !Z.add_assoc|done]. }
  cbn [mbind option_bind].
  destruct (tail_bytes_spec 2 n m3 (j2 + Z.land n 4) T2 H3) as (m4 & -> & H4); [lia|change (Z.of_nat 2) with 2; lia|]. cbn [mbind option_bind].
  destruct (tail_bytes_spec 1 n m4 _ T1 H4) as (m5 & -> & H5);
    [change (Z.of_nat 2) with 2; lia|change (Z.of_nat 2) with 2; change (Z.of_nat 1) with 1; lia|]. cbn [mbind option_bind].
  exists m5. split; [done|]. change (Z.of_nat 2) with 2 in H5. change (Z.of_nat 1) with 1 in H5.
  by replace (j2 + Z.land n 4 + Z.land n 2 + Z.land n 1) with n0 in H5 by lia.
Qed.

(** [w] is the source word that ends [off] bytes after offset [i]. *)
Definition word_at (w i off : Z) : Prop :=
  0 <= w < two32 /\ forall t, 0 <= t < 4 -> m0 !! (s0 + (i + off - 4 + t)) = Some (byte_of w t).

(** One word of the shifting loop: read the next word, store the combined
    one. *)
Lemma shift_step m i off w a b :
  copied m i -> 0 <= i -> i + off + 4 <= n0 -> 1 <= off <= 3 -> word_at w i off -> a = d0 + i -> b = s0 + (i + off) ->
  exists x m', load32 m b = Some x /\ store32 m a (shift_word w x (32 - 8 * off)) = Some m' /\
    copied m' (i + 4) /\ word_at x (i + 4) off.
Proof.
  intros H Hi Hn Ho [Hw Hwb] -> ->. unfold load32, store32.
  destruct (copied_load 4 m i (i + off) H) as (x & -> & Hx & Hxb); [lia..|]. exists x.
  destruct (copied_store 4 m i (shift_word w x (32 - 8 * off)) H) as (m' & -> & H'); [lia|lia| |].
  { intros t Ht. rewrite shift_word_byte by (done || lia). destruct (Z.ltb_spec t off).
    - rewrite <- Hwb by lia. f_equal. lia.
    - rewrite <- Hxb by lia. f_equal. lia. }
  exists m'. do 3 (split; [done|]). split; [done|]. intros t Ht. rewrite <- Hxb by done. f_equal. lia.
Qed.

Lemma shift_loop_spec off : 1 <= off <= 3 -> forall fuel m i w,
  copied m i -> 0 <= i <= n0 -> word_at w i off -> (n0 - i) / 16 < Z.of_nat fuel ->
  exists m' i', shift_loop fuel m (d0 + i) (s0 + i) (n0 - i) w off = Some (m', d0 + i', s0 + i', n0 - i') /\
    copied m' i' /\ 0 <= i' <= n0 /\ n0 - i' < 16 + off.
Proof.
  intros Ho. induction fuel as [|fuel IH]; intros m i w H Hi Hw Hf; [pose proof (Z.div_pos (n0 - i) 16); lia|].
  cbn [shift_loop]. destruct (Z.geb_spec (n0 - i) (16 + off)) as [Hge|]; [|exists m, i; split_and!; try done; lia].
  destruct (shift_step m i off w (d0 + i + 0) (s0 + i + off) H) as (x1 & m1 & -> & E1 & H1 & Hw1); try (done || lia).
  cbn [mbind option_bind]. rewrite E1. cbn [mbind option_bind].
  destruct (shift_step m1 (i + 4) off x1 (d0 + i + 4) (s0 + i + off + 4) H1) as (x2 & m2 & -> & E2 & H2 & Hw2); try (done || lia).
  cbn [mbind option_bind]. rewrite E2. cbn [mbind option_bind].
  destruct (shift_step m2 (i + 4 + 4) off x2 (d0 + i + 8) (s0 + i + off + 8) H2) as (x3 & m3 & -> & E3 & H3 & Hw3); try (done || lia).
  cbn [mbind option_bind]. rewrite E3. cbn [mbind option_bind].
  destruct (shift_step m3 (i + 4 + 4 + 4) off x3 (d0 + i + 12) (s0 + i + off + 12) H3) as (x4 & m4 & -> & E4 & H4 & Hw4); try (done || lia).
  cbn [mbind option_bind]. rewrite E4. cbn [mbind option_bind].
  replace (d0 + i + 16) with (d0 + (i + 16)) by lia. replace (s0 + i + 16) with (s0 + (i + 16)) by lia.
  replace (n0 - i - 16) with (n0 - (i + 16)) by lia. replace (i + 4 + 4 + 4 + 4) with (i + 16) in H4, Hw4 by lia.
  apply IH; [done|lia|done|]. replace (n0 - (i + 16)) with (n0 - i + (-1) * 16) by lia. rewrite Z.div_add by lia. lia.
Qed.

Lemma shift_case_spec m i off :
  1 <= off <= 3 -> copied m i -> 0 <= i -> i + 32 <= n0 ->
  exists m' i', shift_case m (d0 + i) (s0 + i) (n0 - i) off = Some (m', d0 + i', s0 + i', n0 - i') /\
    copied m' i' /\ 0 <= i' <= n0 /\ n0 - i' < 16 + off.
Proof.
  intros Ho H Hi Hn. unfold shift_case, load32.
  destruct (copied_load 4 m i i H) as (w & -> & Hw & Hwb); [lia..|]. cbn [mbind option_bind].
  destruct (copied_copy_bytes (Z.to_nat (4 - off)) m i (d0 + i) (s0 + i) H) as (m1 & -> & H1); [lia..|done|done|].
  cbn [mbind option_bind]. rewrite Z2Nat.id in H1 by lia.
  replace (d0 + i + (4 - off)) with (d0 + (i + (4 - off))) by lia.
  replace (s0 + i + (4 - off)) with (s0 + (i + (4 - off))) by lia.
  replace (n0 - i - (4 - off)) with (n0 - (i + (4 - off))) by lia.
  apply shift_loop_spec; [done|done|lia| |].
  - split; [done|]. intros t Ht. rewrite <- Hwb by done. f_equal. lia.
  - pose proof (Z.div_pos (n0 - (i + (4 - off))) 16). lia.
Qed.

Lemma memcpy_spec : 0 <= n0 -> exists m', memcpy m0 d0 s0 n0 = Some m' /\ copied m' n0.
Proof.
  intros Hn0. unfold memcpy.
  destruct (align_loop_spec 4 m0 0 copied_0) as (m1 & i & E & H1 & Hi & _); [lia| |].
  { pose proof (Z.mod_pos_bound (- (s0 + 0)) 4). lia. }
  rewrite !Z.add_0_r, Z.sub_0_r in E. rewrite E. clear E. cbn [mbind option_bind].
  destruct (Z.eqb_spec ((d0 + i) mod 4) 0) as [|Hmis]; [by apply memcpy_aligned_spec|].
  pose proof (Z.mod_pos_bound (d0 + i) 4 ltac:(lia)) as Hoff.
  assert (exists m2 j, (if n0 - i >=? 32 then shift_case m1 (d0 + i) (s0 + i) (n0 - i) ((d0 + i) mod 4)
    else Some (m1, d0 + i, s0 + i, n0 - i)) = Some (m2, d0 + j, s0 + j, n0 - j) /\ copied m2 j /\ 0 <= j <= n0 /\ n0 - j < 32)
    as (m2 & j & -> & H2 & Hj & Hr).
  { destruct (Z.geb_spec (n0 - i) 32); [|exists m1, i; split_and!; try done; lia].
    destruct (shift_case_spec m1 i ((d0 + i) mod 4)) as (m2 & j & -> & H2 & Hj & Hr); [lia|done|lia|lia|].
    exists m2, j. split_and!; try done; lia. }
  cbn [mbind option_bind]. remember (n0 - j) as n eqn:En.
  destruct (tails_ok n) as [(T16 & T8 & T4 & T2 & T1 & Hsum) _]; [lia|].
  destruct (tail_bytes_spec 16 n m2 j T16 H2) as (m3 & -> & H3); [lia|change (Z.of_nat 16) with 16; lia|]. cbn [mbind option_bind].
  change (Z.of_nat 16) with 16 in *.
  destruct (tail_bytes_spec 8 n m3 _ T8 H3) as (m4 & -> & H4); [lia|change (Z.of_nat 8) with 8; lia|]. cbn [mbind option_bind].
  change (Z.of_nat 8) with 8 in *.
  destruct (tail_bytes_spec 4 n m4 _ T4 H4) as (m5 & -> & H5); [lia|change (Z.of_nat 4) with 4; lia|]. cbn [mbind option_bind].
  change (Z.of_nat 4) with 4 in *.
  destruct (tail_bytes_spec 2 n m5 _ T2 H5) as (m6 & -> & H6); [lia|change (Z.of_nat 2) with 2; lia|]. cbn [mbind option_bind].
  change (Z.of_nat 2) with 2 in *.
  destruct (tail_bytes_spec 1 n m6 _ T1 H6) as (m7 & -> & H7); [lia|change (Z.of_nat 1) with 1; lia|]. cbn [mbind option_bind].
  change (Z.of_nat 1) with 1 in *. exists m7. split; [done|].
  by replace (j + Z.land n 16 + Z.land n 8 + Z.land n 4 + Z.land n 2 + Z.land n 1) with n0 in H7 by lia.
Qed.

Lemma copied_copy64 m i :
  copied m i -> 0 <= i -> i + 8 <= n0 -> exists m', copy64 m (d0 + i) (s0 + i) = Some m' /\ copied m' (i + 8).
Proof.
  intros H Hi Hn. unfold copy64, load64, store64.
  destruct (copied_load 8 m i i H) as (w & -> & _ & Hw); [lia..|]. cbn [mbind option_bind].
  by apply (copied_store 8).
Qed.

Lemma move_align_spec : forall fuel m i,
  copied m i -> 0 <= i <= n0 -> (- (d0 + i)) mod 8 < Z.of_nat fuel ->
  exists r m' i', move_align fuel m (d0 + i) (s0 + i) (n0 - i) = Some (r, m', d0 + i', s0 + i', n0 - i') /\
    copied m' i' /\ 0 <= i' <= n0 /\ (r = true -> i' = n0).
Proof.
  induction fuel as [|fuel IH]; intros m i H Hi Hf; [pose proof (Z.mod_pos_bound (- (d0 + i)) 8); lia|].
  cbn [move_align]. destruct (Z.eqb_spec ((d0 + i) mod 8) 0) as [E|E]; cbn [negb].
  { exists false, m, i. split_and!; try done; lia. }
  destruct (Z.eqb_spec (n0 - i) 0) as [E'|E']; [exists true, m, i; split_and!; try done; lia|].
  destruct (copied_copy8 m i (d0 + i) (s0 + i) H) as (m1 & -> & H1); try lia. cbn [mbind option_bind].
  replace (d0 + i + 1) with (d0 + (i + 1)) by lia. replace (s0 + i + 1) with (s0 + (i + 1)) by lia.
  replace (n0 - i - 1) with (n0 - (i + 1)) by lia. apply IH; [done|lia|].
  clear - Hf E. Z.to_euclidean_division_equations; lia.
Qed.

Lemma move_words_spec : forall fuel m i,
  copied m i -> 0 <= i <= n0 -> (n0 - i) / 8 < Z.of_nat fuel ->
  exists m' i', move_words fuel m (d0 + i) (s0 + i) (n0 - i) = Some (m', d0 + i', s0 + i', n0 - i') /\
    copied m' i' /\ 0 <= i' <= n0.
Proof.
  induction fuel as [|fuel IH]; intros m i H Hi Hf; [pose proof (Z.div_pos (n0 - i) 8); lia|].
  cbn [move_words]. destruct (Z.geb_spec (n0 - i) 8) as [Hge|]; [|exists m, i; split_and!; try done; lia].
  destruct (copied_copy64 m i H) as (m1 & -> & H1); try lia. cbn [mbind option_bind].
  replace (d0 + i + 8) with (d0 + (i + 8)) by lia. replace (s0 + i + 8) with (s0 + (i + 8)) by lia.
  replace (n0 - i - 8) with (n0 - (i + 8)) by lia. apply IH; [done|lia|].
  replace (n0 - (i + 8)) with (n0 - i + (-1) * 8) by lia. rewrite Z.div_add by lia. lia.
Qed.

(** The rest of a forward copy, byte by byte. *)
Lemma rest_bytes_spec m i :
  copied m i -> 0 <= i <= n0 -> exists m', copy_bytes (Z.to_nat (n0 - i)) m (d0 + i) (s0 + i) = Some m' /\ copied m' n0.
Proof.
  intros H Hi. destruct (copied_copy_bytes (Z.to_nat (n0 - i)) m i (d0 + i) (s0 + i) H) as (m' & -> & H'); try lia.
  exists m'. split; [done|]. by replace (i + Z.of_nat (Z.to_nat (n0 - i))) with n0 in H' by lia.
Qed.

End Copy.

(** ** Progress of a backward copy *)

Section Back.
Context (m0 : mem) (d0 s0 n0 : Z).
Context (Hb : bytes_ok m0) (Hd : mapped m0 d0 n0) (Hs : mapped m0 s0 n0) (Hlt : s0 <= d0).

(** The bytes from offset [i] on are in place. *)
Definition moved (m : mem) (i : Z) : Prop :=
  patched m0 m (fun x => (d0 + i <=? x) && (x <? d0 + n0)) (fun x => m0 !! (s0 + (x - d0))).

Lemma moved_mapped m i a k : moved m i -> 0 <= i <= n0 -> mapped m0 a k -> mapped m a k.
Proof.
  intros H Hi Ha. eapply mapped_patched; [exact H| |exact Ha]. intros x Hx. cbn beta in *. bools. apply Hs. lia.
Qed.

(** Copying the [k] bytes below offset [i]. *)
Lemma moved_word k m i :
  moved m i -> Z.of_nat k <= i <= n0 ->
  exists w m', load_le k m (s0 + (i - Z.of_nat k)) = Some w /\
    store_le k m (d0 + (i - Z.of_nat k)) w = Some m' /\ moved m' (i - Z.of_nat k).
Proof.
  intros H Hi. set (j := i - Z.of_nat k) in *. assert (0 <= j) by (unfold j; lia).
  destruct (load_le_ok k m (s0 + j)) as [w Hw].
  { eapply moved_mapped; [exact H|lia|]. eapply mapped_sub; [exact Hs|lia|unfold j; lia]. }
  assert (bytes_ok m) as Hbm by (eapply bytes_ok_patched; [exact H| |exact Hb]; intros x b _ Hx; exact (Hb _ _ Hx)).
  destruct (load_le_bytes _ _ _ _ Hbm Hw) as [_ Hbytes].
  destruct (store_le_ok k m (d0 + j) w) as (m' & Hst & H').
  { eapply moved_mapped; [exact H|lia|]. eapply mapped_sub; [exact Hd|lia|unfold j; lia]. }
  exists w, m'. split; [done|]. split; [done|]. intros x. rewrite H', H.
  destruct ((d0 + j <=? x) && (x <? d0 + j + Z.of_nat k)) eqn:E1, ((d0 + j <=? x) && (x <? d0 + n0)) eqn:E2;
    bools; unfold j in *; try lia.
  - fold j in Hbytes. rewrite <- Hbytes by (unfold j; lia). rewrite H. unfold j.
    match goal with |- context [if ?b then _ else _] => replace b with false by lia end. f_equal. lia.
  - by replace ((d0 + i <=? x) && (x <? d0 + n0)) with true by lia.
  - by replace ((d0 + i <=? x) && (x <? d0 + n0)) with false by lia.
Qed.

Lemma moved_copy8 m i :
  moved m i -> 1 <= i <= n0 -> exists m', copy8 m (d0 + (i - 1)) (s0 + (i - 1)) = Some m' /\ moved m' (i - 1).
Proof.
  intros H Hi. destruct (moved_word 1 m i H) as (w & m' & Hl & Hst & H'); [lia|]. change (Z.of_nat 1) with 1 in *.
  exists m'. split; [|done]. unfold copy8. cbn [load_le] in Hl. destruct (load8 m (s0 + (i - 1))) as [b|]; [|done].
  cbn [mbind option_bind] in *. injection Hl as <-. cbn [store_le] in Hst. replace (b + 256 * 0) with b in Hst by lia.
  by destruct (store8 m (d0 + (i - 1)) b).
Qed.

Lemma back_align_spec : forall fuel m i,
  moved m i -> 0 <= i <= n0 -> (d0 + i) mod 8 < Z.of_nat fuel ->
  exists r m' i', back_align fuel m d0 s0 i = Some (r, m', i') /\ moved m' i' /\ 0 <= i' <= n0 /\ (r = true -> i' = 0).
Proof.
  induction fuel as [|fuel IH]; intros m i H Hi Hf; [pose proof (Z.mod_pos_bound (d0 + i) 8); lia|].
  cbn [back_align]. destruct (Z.eqb_spec ((d0 + i) mod 8) 0) as [E|E]; cbn [negb].
  { exists false, m, i. split_and!; try done; lia. }
  destruct (Z.eqb_spec i 0) as [->|E']; [exists true, m, 0; split_and!; try done; lia|].
  destruct (moved_copy8 m i H) as (m1 & -> & H1); [lia|]. cbn [mbind option_bind]. apply IH; [done|lia|].
  clear - Hf E. Z.to_euclidean_division_equations; lia.
Qed.

Lemma back_words_spec : forall fuel m i,
  moved m i -> 0 <= i <= n0 -> i / 8 < Z.of_nat fuel ->
  exists m' i', back_words fuel m d0 s0 i = Some (m', i') /\ moved m' i' /\ 0 <= i' <= n0.
Proof.
  induction fuel as [|fuel IH]; intros m i H Hi Hf; [pose proof (Z.div_pos i 8); lia|].
  cbn [back_words]. destruct (Z.geb_spec i 8) as [Hge|]; [|exists m, i; split_and!; try done; lia].
  destruct (moved_word 8 m i H) as (w & m' & Hl & Hst & H'); [lia|]. change (Z.of_nat 8) with 8 in *.
  unfold copy64, load64, store64. rewrite Hl. cbn [mbind option_bind]. rewrite Hst. cbn [mbind option_bind].
  apply IH; [done|lia|]. replace (i - 8) with (i + (-1) * 8) by lia. rewrite Z.div_add by lia. lia.
Qed.

Lemma back_bytes_spec : forall n m,
  moved m (Z.of_nat n) -> Z.of_nat n <= n0 -> exists m', back_bytes n m d0 s0 = Some m' /\ moved m' 0.
Proof.
  induction n as [|n IH]; intros m H Hn; cbn [back_bytes]; [eauto|].
  destruct (moved_copy8 m (Z.of_nat (S n)) H) as (m1 & E & H1); [lia|].
  replace (Z.of_nat (S n) - 1) with (Z.of_nat n) in * by lia. rewrite E. cbn [mbind option_bind]. apply IH; [done|lia].
Qed.

End Back.

(** ** The whole routine *)

Lemma memmove_spec m d s n :
  bytes_ok m -> 0 <= n -> mapped m d n -> mapped m s n ->
  exists m', memmove m d s n = Some m' /\ copied m d s m' n.
Proof.
  intros Hb Hn Hd Hs. unfold memmove. destruct (Z.eqb_spec d s) as [->|Hne].
  { exists m. split; [done|]. intros x. case_if; [|done]. f_equal. lia. }
  case_if; [bools; apply memcpy_spec; try done; lia|]. bools. destruct (Z.ltb_spec d s) as [Hlt|Hge].
  - assert (s + n <= d \/ d <= s) as Hsep by lia. pose proof (copied_0 m d s) as Hc0.
    case_if.
    + destruct (move_align_spec m d s n Hb Hd Hs Hsep 9 m 0 Hc0) as (r & m1 & i & E1 & H1 & Hi & Hr); [lia| |].
      { pose proof (Z.mod_pos_bound (- (d + 0)) 8). lia. }
      rewrite !Z.add_0_r, Z.sub_0_r in E1. rewrite E1. cbn [mbind option_bind].
      destruct r; [rewrite (Hr eq_refl) in H1; eauto|].
      destruct (move_words_spec m d s n Hb Hd Hs Hsep (S (Z.to_nat ((n - i) / 8))) m1 i H1 Hi) as (m2 & j & -> & H2 & Hj).
      { pose proof (Z.div_pos (n - i) 8). lia. }
      cbn [mbind option_bind]. by apply (rest_bytes_spec m d s n).
    + pose proof (rest_bytes_spec m d s n Hb Hd Hs Hsep m 0 Hc0 ltac:(lia)) as Hr.
      by rewrite !Z.add_0_r, Z.sub_0_r in Hr.
  - assert (s <= d) as Hle by lia.
    assert (moved m d s n m n) as Hc0 by (apply patched_refl; intros x; lia).
    assert (forall m', moved m d s n m' 0 -> copied m d s m' n) as Hfin.
    { intros m' Hm' x. rewrite Hm'. by rewrite Z.add_0_r. }
    case_if.
    + destruct (back_align_spec m d s n Hb Hd Hs Hle 9 m n Hc0) as (r & m1 & i & -> & H1 & Hi & Hr); [lia| |].
      { pose proof (Z.mod_pos_bound (d + n) 8). lia. }
      cbn [mbind option_bind]. destruct r; [rewrite (Hr eq_refl) in H1; eauto|].
      destruct (back_words_spec m d s n Hb Hd Hs Hle (S (Z.to_nat (i / 8))) m1 i H1 Hi) as (m2 & j & -> & H2 & Hj).
      { pose proof (Z.div_pos i 8). lia. }
      cbn [mbind option_bind].
      destruct (back_bytes_spec m d s n Hb Hd Hs Hle (Z.to_nat j) m2) as (m3 & -> & H3); [by rewrite Z2Nat.id by lia|lia|]. eauto.
    + destruct (back_bytes_spec m d s n Hb Hd Hs Hle (Z.to_nat n) m) as (m3 & -> & H3); [by rewrite Z2Nat.id by lia|lia|]. eauto.
Qed.
