(* ===== verification/KString.v ===== *)
(** * Strings ([src/src/util/krlibc.c])

    The string routines over byte-addressed memory. [strlen] and [memchr]
    look for a zero byte eight bytes at a time with the HASZERO trick. *)

From stdpp Require Import gmap.
From S2P Require Import Prelude KMem.

(** ** A zero byte in a word *)

Definition ONES : Z := (two64 - 1) / 255.
Definition HIGHS : Z := u64 (ONES * (255 / 2 + 1)).

(** [((x) - ONES & ~(x) & HIGHS)] on [size_t] *)
Definition HASZERO (x : Z) : Z := Z.land (Z.land (u64 (x - ONES)) (u64 (Z.lnot x))) HIGHS.

Section HasZero.

Lemma testbit_split x y i :
  0 <= x < 256 -> 0 <= i -> Z.testbit (x + 256 * y) i = if i <? 8 then Z.testbit x i else Z.testbit y (i - 8).
Proof.
  intros Hx Hi. rewrite Z.mul_comm. change 256 with (2 ^ 8). rewrite <- lor_shift_add by lia. rewrite Z.lor_spec.
  destruct (Z.ltb_spec i 8).
  - rewrite Z.mul_pow2_bits_low by lia. apply orb_false_r.
  - rewrite Z.mul_pow2_bits by lia. rewrite (testbit_byte_high x i) by lia. done.
Qed.

Lemma land_byte x y : 0 <= x < 256 -> 0 <= Z.land x y < 256.
Proof.
  intros Hx. replace (Z.land x y) with (Z.land x y mod 2 ^ 8); [apply Z.mod_pos_bound; lia|].
  rewrite <- Z.land_ones by lia. rewrite <- Z.land_assoc, (Z.land_comm y), Z.land_assoc, Z.land_ones by lia.
  by rewrite Z.mod_small by lia.
Qed.

Lemma land_split x y x' y' :
  0 <= x < 256 -> 0 <= x' < 256 -> Z.land (x + 256 * y) (x' + 256 * y') = Z.land x x' + 256 * Z.land y y'.
Proof.
  intros Hx Hx'. pose proof (land_byte x x' Hx) as Hl.
  apply Z.bits_inj'. intros i Hi. rewrite Z.land_spec, !testbit_split by done.
  case_if; by rewrite Z.land_spec.
Qed.

(** The test for words of [k] bytes. *)
Fixpoint ones (k : nat) : Z := match k with O => 0 | S k => 1 + 256 * ones k end.

Definition hz (k : nat) (w : Z) : Z :=
  Z.land (Z.land ((w - ones k) mod 256 ^ Z.of_nat k) ((-1 - w) mod 256 ^ Z.of_nat k)) (128 * ones k).

Lemma mod_split b w k : 0 <= b < 256 -> (b + 256 * w) mod 256 ^ Z.of_nat (S k) = b + 256 * (w mod 256 ^ Z.of_nat k).
Proof.
  intros Hb. rewrite Nat2Z.inj_succ, Z.pow_succ_r by lia. assert (0 < 256 ^ Z.of_nat k) by (apply Z.pow_pos_nonneg; lia).
  rewrite Z.rem_mul_r by lia. rewrite (Z.mul_comm 256 w), Z.mod_add, Z.mod_small, Z.div_add, Z.div_small by lia. done.
Qed.

Lemma low_byte b : 1 <= b < 256 -> Z.land (Z.land (b - 1) (255 - b)) 128 = 0.
Proof.
  intros Hb. assert (forallb (fun b => Z.land (Z.land (b - 1) (255 - b)) 128 =? 0) (seqZ 1 255) = true) as H by by vm_compute.
  rewrite forallb_forall in H. apply Z.eqb_eq, H, list_elem_of_In, elem_of_seqZ. lia.
Qed.

Lemma hz_step k b w :
  0 <= b < 256 -> hz (S k) (b + 256 * w) = 0 <-> b <> 0 /\ hz k w = 0.
Proof.
  intros Hb. unfold hz. cbn [ones].
  replace (-1 - (b + 256 * w)) with ((255 - b) + 256 * (-1 - w)) by lia. rewrite (mod_split (255 - b)) by lia.
  replace (128 * (1 + 256 * ones k)) with (128 + 256 * (128 * ones k)) by lia.
  destruct (decide (b = 0)) as [->|Hne].
  - replace (0 + 256 * w - (1 + 256 * ones k)) with (255 + 256 * (w - ones k - 1)) by lia. rewrite mod_split by lia.
    rewrite !land_split by (try lia; by vm_compute). change (Z.land (Z.land 255 (255 - 0)) 128) with 128.
    split; [|by intros []]. lia.
  - replace (b + 256 * w - (1 + 256 * ones k)) with ((b - 1) + 256 * (w - ones k)) by lia. rewrite mod_split by lia.
    rewrite (land_split (b - 1)) by lia. rewrite land_split by (try apply land_byte; lia).
    rewrite low_byte by lia. split; [intros; split; [done|lia]|]. intros [_ ->]. done.
Qed.

Lemma hz_bytes k : forall w,
  0 <= w < 256 ^ Z.of_nat k -> hz k w = 0 <-> forall i, 0 <= i < Z.of_nat k -> byte_of w i <> 0.
Proof.
  induction k as [|k IH]; intros w Hw.
  { split; [intros _ i Hi; lia|]. intros _. apply Z.land_0_r. }
  rewrite Nat2Z.inj_succ, Z.pow_succ_r in Hw by lia. rewrite (Z.div_mod w 256) at 1 by lia. rewrite Z.add_comm.
  pose proof (Z.mod_pos_bound w 256 ltac:(lia)) as Hb. rewrite hz_step by done.
  rewrite IH by (split; [apply Z.div_pos|apply Z.div_lt_upper_bound]; lia). split.
  - intros [Hne H] i Hi. destruct (decide (i = 0)) as [->|]; [by rewrite byte_of_0|].
    replace i with (i - 1 + 1) by lia. rewrite byte_of_S by lia. apply H. lia.
  - intros H. split; [rewrite <- (byte_of_0 w) at 1; apply H; lia|].
    intros i Hi. rewrite <- byte_of_S by lia. apply H. lia.
Qed.

(** [HASZERO] is zero exactly when no byte of the word is. *)
Lemma haszero_spec w : 0 <= w < two64 -> HASZERO w = 0 <-> forall i, 0 <= i < 8 -> byte_of w i <> 0.
Proof.
  intros Hw. rewrite <- (hz_bytes 8 w Hw). unfold hz, HASZERO, u64.
  replace (Z.lnot w) with (-1 - w) by (unfold Z.lnot; lia). done.
Qed.

Lemma byte_of_lxor a b i : 0 <= i -> byte_of (Z.lxor a b) i = Z.lxor (byte_of a i) (byte_of b i).
Proof.
  intros Hi. unfold byte_of. replace (256 ^ i) with (2 ^ (8 * i)) by (rewrite Z.pow_mul_r by lia; done).
  rewrite <- !Z.shiftr_div_pow2 by lia. change 256 with (2 ^ 8). apply Z.bits_inj'. intros j Hj.
  rewrite Z.lxor_spec. destruct (decide (j < 8)).
  - rewrite !Z.mod_pow2_bits_low, !Z.shiftr_spec by lia. apply Z.lxor_spec.
  - by rewrite !Z.mod_pow2_bits_high by lia.
Qed.

Lemma lxor_bound a b : 0 <= a < two64 -> 0 <= b < two64 -> 0 <= Z.lxor a b < two64.
Proof.
  intros Ha Hb. change two64 with (2 ^ 64) in *.
  assert (Z.lxor a b = Z.lxor a b mod 2 ^ 64) as ->; [|by apply Z.mod_pos_bound].
  apply Z.bits_inj'. intros j Hj. destruct (decide (j < 64)); [by rewrite Z.mod_pow2_bits_low by lia|].
  rewrite Z.mod_pow2_bits_high, Z.lxor_spec by lia. rewrite <- (Z.mod_small a (2 ^ 64)), <- (Z.mod_small b (2 ^ 64)) by lia.
  by rewrite !Z.mod_pow2_bits_high by lia.
Qed.

End HasZero.

(** ** [memchr], [strnlen], [strlen] *)

(** The first loop of [memchr], up to the next aligned address. *)
Fixpoint chr_align (fuel : nat) (m : mem) (s c n : Z) : option (Z * Z) :=
  match fuel with
  | O => None
  | S fuel =>
      if negb (Z.land s 7 =? 0) && negb (n =? 0) then
        b ← load8 m s;
        if negb (b =? c) then chr_align fuel m (s + 1) c (n - 1) else Some (s, n)
      else Some (s, n)
  end.

Fixpoint chr_words (fuel : nat) (m : mem) (w k n : Z) : option (Z * Z) :=
  match fuel with
  | O => None
  | S fuel =>
      if n >=? 8 then
        x ← load64 m w;
        if HASZERO (Z.lxor x k) =? 0 then chr_words fuel m (w + 8) k (n - 8) else Some (w, n)
      else Some (w, n)
  end.

Fixpoint chr_bytes (fuel : nat) (m : mem) (s c n : Z) : option (Z * Z) :=
  match fuel with
  | O => None
  | S fuel =>
      if negb (n =? 0) then
        b ← load8 m s;
        if negb (b =? c) then chr_bytes fuel m (s + 1) c (n - 1) else Some (s, n)
      else Some (s, n)
  end.

(** The address found, or 0 for NULL. *)
Definition memchr (m : mem) (src c n : Z) : option Z :=
  let c := u8 c in
  '(s, n) ← chr_align 9 m src c n;
  '(s, n) ←
    (if negb (n =? 0) then
       b ← load8 m s;
       if negb (b =? c) then
         let k := u64 (ONES * c) in
         '(w, n) ← chr_words (S (Z.to_nat (n / 8))) m s k n;
         chr_bytes (S (Z.to_nat n)) m w c n
       else Some (s, n)
     else Some (s, n));
  Some (if negb (n =? 0) then s else 0).

Definition strnlen (m : mem) (s n : Z) : option Z :=
  p ← memchr m s 0 n; Some (if negb (p =? 0) then p - s else n).

(** The loops of [strlen]; each turn reads new addresses, so the size of the
    memory bounds the turns. *)
Fixpoint len_align (fuel : nat) (m : mem) (s : Z) : option (Z * bool) :=
  match fuel with
  | O => None
  | S fuel =>
      if negb (s mod 8 =? 0) then
        b ← load8 m s; if b =? 0 then Some (s, true) else len_align fuel m (s + 1)
      else Some (s, false)
  end.

Fixpoint len_words (fuel : nat) (m : mem) (w : Z) : option Z :=
  match fuel with
  | O => None
  | S fuel => x ← load64 m w; if HASZERO x =? 0 then len_words fuel m (w + 8) else Some w
  end.

Fixpoint len_bytes (fuel : nat) (m : mem) (s : Z) : option Z :=
  match fuel with
  | O => None
  | S fuel => b ← load8 m s; if negb (b =? 0) then len_bytes fuel m (s + 1) else Some s
  end.

Definition strlen (m : mem) (s : Z) : option Z :=
  let a := s in
  '(s, returned) ← len_align 9 m s;
  if returned : bool then Some (s - a)
  else
    w ← len_words (S (size m)) m s;
    s ← len_bytes (S (size m)) m w;
    Some (s - a).

(** ** Specification *)

(** A string of [l] at [p], with its terminator. *)
Definition cstring (m : mem) (p : Z) (l : list Z) : Prop :=
  Forall (fun b => 0 < b < 256) l /\ (forall i b, zget l i = Some b -> m !! (p + i) = Some b) /\
  m !! (p + zlen l) = Some 0.

Lemma cstring_mapped m p l : cstring m p l -> mapped m p (zlen l + 1).
Proof.
  intros (_ & Hl & H0) x Hx. destruct (decide (x = p + zlen l)) as [->|]; [by rewrite H0|].
  destruct (zget_ok l (x - p)) as [b Hb]; [lia|]. specialize (Hl _ _ Hb).
  replace (p + (x - p)) with x in Hl by lia. by rewrite Hl.
Qed.

Lemma cstring_byte m p l i : cstring m p l -> 0 <= i < zlen l -> exists b, m !! (p + i) = Some b /\ b <> 0.
Proof.
  intros (HF & Hl & _) Hi. destruct (zget_ok l i Hi) as [b Hb]. exists b. split; [by apply Hl|].
  pose proof (Forall_zget _ _ _ _ HF Hb). simpl in *. lia.
Qed.

(** Distinct mapped addresses are no more than the memory has. *)
Lemma mapped_size m a n : 0 <= n -> mapped m a n -> n <= Z.of_nat (size m).
Proof.
  intros Hn Hm. rewrite <- (size_dom (D := gset Z)).
  assert (list_to_set (C := gset Z) (seqZ a n) ⊆ dom m) as Hsub.
  { intros x. rewrite elem_of_list_to_set, elem_of_seqZ, elem_of_dom. apply Hm. }
  apply subseteq_size in Hsub. rewrite size_list_to_set in Hsub by apply NoDup_seqZ.
  rewrite length_seqZ in Hsub. lia.
Qed.

(** The eight bytes of a word read from memory. *)
Lemma load64_bytes m a x :
  bytes_ok m -> load64 m a = Some x -> 0 <= x < two64 /\ forall t, 0 <= t < 8 -> m !! (a + t) = Some (byte_of x t).
Proof. intros Hb Hx. exact (load_le_bytes 8 m a x Hb Hx). Qed.

Section Strlen.
Context (m : mem) (p : Z) (l : list Z) (Hb : bytes_ok m) (Hl : cstring m p l).
(* the aligned words that the string reaches are mapped *)
Context (Hw : forall a, a mod 8 = 0 -> p <= a <= p + zlen l -> mapped m a 8).

Lemma str_byte i : 0 <= i <= zlen l -> exists b, m !! (p + i) = Some b /\ (b = 0 <-> i = zlen l).
Proof.
  intros Hi. destruct (decide (i = zlen l)) as [->|].
  - exists 0. split; [apply Hl|done].
  - destruct (cstring_byte m p l i Hl) as (b & E & Hne); [lia|]. exists b. split; [done|lia].
Qed.

Lemma len_align_spec : forall fuel i,
  0 <= i <= zlen l -> (- (p + i)) mod 8 < Z.of_nat fuel ->
  exists j r, len_align fuel m (p + i) = Some (p + j, r) /\ 0 <= j <= zlen l /\
    if r : bool then j = zlen l else (p + j) mod 8 = 0.
Proof.
  induction fuel as [|fuel IH]; intros i Hi Hf; [pose proof (Z.mod_pos_bound (- (p + i)) 8); lia|].
  cbn [len_align]. destruct (Z.eqb_spec ((p + i) mod 8) 0) as [E|E]; cbn [negb]; [exists i, false; done|].
  destruct (str_byte i Hi) as (b & Eb & Hz). unfold load8. rewrite Eb. cbn [mbind option_bind].
  destruct (Z.eqb_spec b 0) as [Hb0|Hb0]; [exists i, true; split; [done|]; split; [lia|tauto]|].
  rewrite <- Z.add_assoc. apply IH; [lia|]. clear - Hf E. Z.to_euclidean_division_equations; lia.
Qed.

Lemma len_words_spec : forall fuel j,
  0 <= j <= zlen l -> (p + j) mod 8 = 0 -> (zlen l - j) / 8 < Z.of_nat fuel ->
  exists k, len_words fuel m (p + j) = Some (p + k) /\ 0 <= k <= zlen l.
Proof.
  induction fuel as [|fuel IH]; intros j Hj Hal Hf; [pose proof (Z.div_pos (zlen l - j) 8); lia|].
  cbn [len_words]. destruct (load_le_ok 8 m (p + j)) as [x Hx]; [apply Hw; [done|lia]|].
  change (load_le 8) with load64 in Hx. rewrite Hx. cbn [mbind option_bind].
  destruct (load64_bytes m _ _ Hb Hx) as [Hxr Hbytes].
  destruct (Z.eqb_spec (HASZERO x) 0) as [E|E]; [|by exists j].
  rewrite haszero_spec in E by done.
  assert (j + 8 <= zlen l) as Hnext.
  { destruct (decide (j + 8 <= zlen l)) as [|Hn]; [done|]. exfalso. apply (E (zlen l - j)); [lia|].
    assert (m !! (p + j + (zlen l - j)) = Some 0) as H1 by (destruct Hl as (_ & _ & H1); rewrite <- H1; f_equal; lia).
    rewrite Hbytes in H1 by lia. by injection H1. }
  rewrite <- Z.add_assoc. apply IH; [lia| |].
  - rewrite Z.add_assoc. replace 8 with (1 * 8) at 1 by lia. by rewrite Z.mod_add by lia.
  - replace (zlen l - (j + 8)) with (zlen l - j + (-1) * 8) by lia. rewrite Z.div_add by lia. lia.
Qed.

Lemma len_bytes_spec : forall fuel j,
  0 <= j <= zlen l -> zlen l - j < Z.of_nat fuel -> len_bytes fuel m (p + j) = Some (p + zlen l).
Proof.
  induction fuel as [|fuel IH]; intros j Hj Hf; [lia|]. cbn [len_bytes].
  destruct (str_byte j Hj) as (b & Eb & Hz). unfold load8. rewrite Eb. cbn [mbind option_bind].
  destruct (Z.eqb_spec b 0) as [Hb0|Hb0]; cbn [negb]; [do 2 f_equal; tauto|].
  rewrite <- Z.add_assoc. apply IH; lia.
Qed.

Lemma strlen_spec : strlen m p = Some (zlen l).
Proof.
  unfold strlen. pose proof (zlen_nonneg l). pose proof (mapped_size m p (zlen l + 1) ltac:(lia) (cstring_mapped _ _ _ Hl)).
  destruct (len_align_spec 9 0) as (j & r & E & Hj & Hr); [lia|pose proof (Z.mod_pos_bound (- (p + 0)) 8); lia|].
  rewrite Z.add_0_r in E. rewrite E. cbn [mbind option_bind].
  destruct r; [f_equal; lia|].
  destruct (len_words_spec (S (size m)) j Hj Hr) as (k & -> & Hk).
  { assert ((zlen l - j) / 8 <= zlen l - j) by (apply Z.div_le_upper_bound; lia). lia. }
  cbn [mbind option_bind]. rewrite len_bytes_spec by lia. cbn [mbind option_bind]. f_equal. lia.
Qed.

End Strlen.

(** ** Searching a byte *)

Section Memchr.
Context (m : mem) (src c n : Z) (Hb : bytes_ok m) (Hm : mapped m src n) (Hc : 0 <= c < 256) (Hn : 0 <= n).

(** No byte before offset [i] is [c]. *)
Definition clean (i : Z) : Prop := 0 <= i <= n /\ forall t, 0 <= t < i -> m !! (src + t) <> Some c.

(** The state of the loops after [i] bytes; [stop]: the byte there is [c]. *)
Definition chr_at (i : Z) (r : option (Z * Z)) : Prop := r = Some (src + i, n - i) /\ clean i.

Lemma clean_S i b : clean i -> i < n -> m !! (src + i) = Some b -> b <> c -> clean (i + 1).
Proof.
  intros [Hi Ht] Hlt Hbyte Hne. split; [lia|]. intros t Htt.
  destruct (decide (t = i)) as [->|]; [congruence|]. apply Ht. lia.
Qed.

Lemma chr_byte i : 0 <= i < n -> exists b, load8 m (src + i) = Some b.
Proof. intros Hi. apply Hm. lia. Qed.

Lemma chr_align_spec : forall fuel i,
  clean i -> (- (src + i)) mod 8 < Z.of_nat fuel ->
  exists j, chr_at j (chr_align fuel m (src + i) c (n - i)).
Proof.
  induction fuel as [|fuel IH]; intros i Hi Hf; [pose proof (Z.mod_pos_bound (- (src + i)) 8); lia|].
  cbn [chr_align]. change 7 with (Z.ones 3). rewrite Z.land_ones by lia. change (2 ^ 3) with 8.
  destruct (Z.eqb_spec ((src + i) mod 8) 0) as [E|E]; cbn [negb andb]; [by exists i|].
  destruct (Z.eqb_spec (n - i) 0) as [E'|E']; cbn [negb]; [by exists i|].
  destruct (chr_byte i) as [b Hbyte]; [destruct Hi; lia|]. rewrite Hbyte. cbn [mbind option_bind].
  destruct (Z.eqb_spec b c) as [->|Hne]; cbn [negb]; [by exists i|].
  replace (src + i + 1) with (src + (i + 1)) by lia. replace (n - i - 1) with (n - (i + 1)) by lia.
  apply IH; [eapply clean_S; eauto; destruct Hi; lia|]. clear - Hf E. Z.to_euclidean_division_equations; lia.
Qed.

(** A word without a byte [c]. *)
Lemma xor_word x i :
  load64 m (src + i) = Some x -> i + 8 <= n -> HASZERO (Z.lxor x (u64 (ONES * c))) = 0 -> clean i -> clean (i + 8).
Proof.
  intros Hx Hle Hz [Hi Ht]. destruct (load64_bytes m _ _ Hb Hx) as [Hr Hbytes].
  assert (u64 (ONES * c) = c * 0x0101010101010101) as Ek by (change ONES with 0x0101010101010101; rewrite u64_id; lia).
  assert (forall t, 0 <= t < 8 -> byte_of (u64 (ONES * c)) t = c) as Hk.
  { intros t Htt. rewrite Ek. unfold byte_of.
    assert (t = 0 \/ t = 1 \/ t = 2 \/ t = 3 \/ t = 4 \/ t = 5 \/ t = 6 \/ t = 7) as Hcase by lia.
    destruct Hcase as [->|[->|[->|[->|[->|[->|[->| ->]]]]]]]; Z.to_euclidean_division_equations; lia. }
  rewrite haszero_spec in Hz.
  2:{ apply lxor_bound; [done|]. rewrite Ek. lia. }
  split; [lia|]. intros t Htt. destruct (decide (t < i)) as [|Hge]; [by apply Ht; lia|].
  replace (src + t) with (src + i + (t - i)) by lia. rewrite Hbytes by lia. intros [= E].
  apply (Hz (t - i)); [lia|]. rewrite byte_of_lxor, Hk, E by lia. apply Z.lxor_nilpotent.
Qed.

Lemma chr_words_spec : forall fuel i,
  clean i -> (n - i) / 8 < Z.of_nat fuel ->
  exists j, chr_at j (chr_words fuel m (src + i) (u64 (ONES * c)) (n - i)).
Proof.
  induction fuel as [|fuel IH]; intros i Hi Hf; [destruct Hi; pose proof (Z.div_pos (n - i) 8); lia|].
  cbn [chr_words]. destruct (Z.geb_spec (n - i) 8) as [Hge|Hlt]; [|by exists i].
  destruct (load_le_ok 8 m (src + i)) as [x Hx]; [destruct Hi; eapply mapped_sub; [exact Hm|lia|lia]|].
  change (load_le 8) with load64 in Hx. rewrite Hx. cbn [mbind option_bind].
  destruct (Z.eqb_spec (HASZERO (Z.lxor x (u64 (ONES * c)))) 0) as [E|E]; [|by exists i].
  replace (src + i + 8) with (src + (i + 8)) by lia. replace (n - i - 8) with (n - (i + 8)) by lia.
  apply IH; [eapply xor_word; eauto; lia|].
  replace (n - (i + 8)) with (n - i + (-1) * 8) by lia. rewrite Z.div_add by lia. lia.
Qed.

(** Where the search stops: at the end or at the byte [c]. *)
Definition stops (i : Z) : Prop := i = n \/ m !! (src + i) = Some c.

Lemma chr_bytes_spec : forall fuel i,
  clean i -> n - i < Z.of_nat fuel ->
  exists j, chr_at j (chr_bytes fuel m (src + i) c (n - i)) /\ stops j.
Proof.
  induction fuel as [|fuel IH]; intros i Hi Hf; [destruct Hi; lia|]. cbn [chr_bytes].
  destruct (Z.eqb_spec (n - i) 0) as [E'|E']; cbn [negb]; [exists i; split; [done|left; lia]|].
  destruct (chr_byte i) as [b Hbyte]; [destruct Hi; lia|]. rewrite Hbyte. cbn [mbind option_bind].
  destruct (Z.eqb_spec b c) as [->|Hne]; cbn [negb]; [exists i; split; [done|by right]|].
  replace (src + i + 1) with (src + (i + 1)) by lia. replace (n - i - 1) with (n - (i + 1)) by lia.
  apply IH; [eapply clean_S; eauto; destruct Hi; lia|lia].
Qed.

End Memchr.

(** [memchr] finds the first [c] of the range, reading nothing outside it. *)
Lemma memchr_spec m src c n :
  bytes_ok m -> mapped m src n -> 0 <= n ->
  exists i, clean m src (u8 c) n i /\ stops m src (u8 c) n i /\
    memchr m src c n = Some (if i <? n then src + i else 0).
Proof.
  intros Hb Hm Hn. pose proof (u8_bound c) as Hc. unfold memchr.
  destruct (chr_align_spec m src (u8 c) n Hm 9 0) as (i & Ei & Hi).
  { split; [lia|]. intros t Ht. lia. }
  { pose proof (Z.mod_pos_bound (- (src + 0)) 8); lia. }
  rewrite Z.add_0_r, Z.sub_0_r in Ei. rewrite Ei. cbn [mbind option_bind]. pose proof Hi as [Hin _].
  assert (forall j, 0 <= j <= n -> (if negb (n - j =? 0) then src + j else 0) = if j <? n then src + j else 0) as Hout.
  { intros j Hj. destruct (Z.eqb_spec (n - j) 0), (Z.ltb_spec j n); cbn [negb]; lia. }
  destruct (Z.eqb_spec (n - i) 0) as [E|E]; cbn [negb mbind option_bind].
  { exists i. split_and!; [done|left; lia|]. f_equal. rewrite <- Hout by done. by rewrite E. }
  destruct (chr_byte m src n Hm i) as [b Hbyte]; [lia|]. rewrite Hbyte. cbn [mbind option_bind].
  destruct (Z.eqb_spec b (u8 c)) as [->|Hne]; cbn [negb mbind option_bind].
  { exists i. split_and!; [done|by right|]. f_equal. by apply Hout. }
  destruct (chr_words_spec m src (u8 c) n Hb Hm Hc (S (Z.to_nat ((n - i) / 8))) i Hi) as (j & -> & Hj).
  { pose proof (Z.div_pos (n - i) 8). lia. }
  cbn [mbind option_bind]. pose proof Hj as [Hjn _].
  destruct (chr_bytes_spec m src (u8 c) n Hm (S (Z.to_nat (n - j))) j Hj) as (k & (-> & Hk) & Hs); [lia|].
  cbn [mbind option_bind]. exists k. split_and!; [done|done|]. f_equal. apply Hout. apply Hk.
Qed.

Lemma strnlen_spec m src n :
  bytes_ok m -> mapped m src n -> 0 <= n -> 0 < src ->
  exists i, clean m src 0 n i /\ stops m src 0 n i /\ strnlen m src n = Some i.
Proof.
  intros Hb Hm Hn Hs. unfold strnlen. destruct (memchr_spec m src 0 n Hb Hm Hn) as (i & Hi & Hst & ->).
  change (u8 0) with 0 in *. exists i. split_and!; [done|done|]. cbn [mbind option_bind]. f_equal. pose proof Hi as [Hr _].
  destruct (Z.ltb_spec i n); [replace (src + i =? 0) with false by lia|]; simpl; [lia|lia].
Qed.
