(* ===== verification/KStr.v ===== *)
(** * Byte-wise string routines ([src/src/util/krlibc.c])

    Comparing, searching, copying and splitting C strings. Every loop walks
    over consecutive addresses, so a walk that does not stop faults after at
    most as many turns as the memory has bytes; [S (size m)] turns are enough. *)

From stdpp Require Import gmap.
From S2P Require Import Prelude KMem KString.

(** Plain [char] is signed on x86 and LoongArch and unsigned on ARM and
    RISC-V; [char_val] is the value of a [char] object that holds byte [b]. *)
Class CharAbi : Type := char_signed : bool.

Definition char_val `{CharAbi} (b : Z) : Z := if char_signed && (128 <=? b) then b - 256 else b.

Lemma char_val_inj `{CharAbi} a b :
  0 <= a < 256 -> 0 <= b < 256 -> char_val a = char_val b -> a = b.
Proof. unfold char_val. destruct char_signed; simpl; [|done]. repeat case_if; lia. Qed.

Lemma char_val_0 `{CharAbi} b : 0 <= b < 256 -> char_val b = 0 <-> b = 0.
Proof. unfold char_val. destruct char_signed; simpl; [|done]. case_if; lia. Qed.

(** ** Comparison *)

Section Compare.
Context `{CharAbi}.

(** The counter of [while (size-- > 0)] is the recursion. *)
Fixpoint memcmp (size : nat) (m : mem) (a b : Z) : option Z :=
  match size with
  | O => Some 0
  | S size =>
      x ← load8 m a; y ← load8 m b;
      if negb (char_val x =? char_val y) then Some (if char_val x >? char_val y then 1 else -1)
      else memcmp size m (a + 1) (b + 1)
  end.

Fixpoint strncmp (n : nat) (m : mem) (p1 p2 : Z) : option Z :=
  match n with
  | O => Some 0
  | S n =>
      x ← load8 m p1; y ← load8 m p2;
      if negb (x =? y) then Some (x - y)
      else if x =? 0 then Some 0
      else strncmp n m (p1 + 1) (p2 + 1)
  end.

(** The loop of [strcmp]: where it stops, and [is_equal]. *)
Fixpoint cmp_loop (fuel : nat) (m : mem) (s1 s2 : Z) : option (Z * Z * bool) :=
  match fuel with
  | O => None
  | S fuel =>
      x ← load8 m s1;
      if negb (x =? 0) then
        y ← load8 m s2;
        if negb (y =? 0) then
          if negb (x =? y) then Some (s1, s2, false) else cmp_loop fuel m (s1 + 1) (s2 + 1)
        else Some (s1, s2, true)
      else Some (s1, s2, true)
  end.

Definition strcmp (m : mem) (s1 s2 : Z) : option Z :=
  '(s1, s2, is_equal) ← cmp_loop (S (size m)) m s1 s2;
  x ← load8 m s1; y ← load8 m s2;
  if is_equal : bool then
    if negb (x =? 0) then Some 1
    else if negb (y =? 0) then Some (-1)
    else Some 0
  else Some (char_val x - char_val y).

End Compare.

(** ** Search *)

Section Find.
Context `{CharAbi}.

Fixpoint chr_loop (fuel : nat) (m : mem) (s c : Z) : option Z :=
  match fuel with
  | O => None
  | S fuel =>
      b ← load8 m s;
      if negb (b =? 0) then
        if b =? u8 c then Some s else chr_loop fuel m (s + 1) c
      else Some (if b =? u8 c then s else 0)
  end.

(** The address, or 0 for NULL. [*s == (char)c] compares the low bytes. *)
Definition strchr (m : mem) (s c : Z) : option Z := chr_loop (S (size m)) m s c.

Fixpoint rchr_loop (fuel : nat) (m : mem) (s c last : Z) : option (Z * Z) :=
  match fuel with
  | O => None
  | S fuel =>
      b ← load8 m s;
      if negb (b =? 0) then rchr_loop fuel m (s + 1) c (if b =? u8 c then s else last)
      else Some (s, last)
  end.

Definition strrchr (m : mem) (s c : Z) : option Z :=
  '(s, last) ← rchr_loop (S (size m)) m s c 0; Some (if c =? 0 then s else last).

(** The test compares the [char] with the [int], and its increment has moved
    [s] on when the loop is left. *)
Fixpoint chrnul_loop (fuel : nat) (m : mem) (s c : Z) : option Z :=
  match fuel with
  | O => None
  | S fuel =>
      b ← load8 m s;
      if negb (b =? 0) then
        if char_val b =? c then Some (s + 1) else chrnul_loop fuel m (s + 1) c
      else Some s
  end.

Definition strchrnul (m : mem) (s c : Z) : option Z := chrnul_loop (S (size m)) m s c.

End Find.

(** ** Copying *)

(** Copies up to and including the terminator. *)
Fixpoint cat_loop (fuel : nat) (m : mem) (dest src : Z) : option mem :=
  match fuel with
  | O => None
  | S fuel =>
      b ← load8 m src; m ← store8 m dest b;
      if negb (b =? 0) then cat_loop fuel m (dest + 1) (src + 1) else Some m
  end.

(** The memory after the call, which returns [dest]. *)
Definition strcat (m : mem) (dest src : Z) : option mem :=
  d ← len_bytes (S (size m)) m dest; cat_loop (S (size m)) m d src.

Fixpoint cpy_loop (fuel : nat) (m : mem) (dest src : Z) : option (mem * Z) :=
  match fuel with
  | O => None
  | S fuel =>
      b ← load8 m src; m ← store8 m dest b;
      let dest := dest + 1 in let src := src + 1 in
      b ← load8 m src;
      if negb (b =? 0) then cpy_loop fuel m dest src else Some (m, dest)
  end.

(** The memory and the returned address, that of the terminator written. *)
Definition strcpy (m : mem) (dest src : Z) : option (mem * Z) :=
  '(m, dest) ← cpy_loop (S (size m)) m dest src;
  m ← store8 m dest 0;
  Some (m, dest).

(** The two loops of [strncpy]; [n - i] turns are left. *)
Fixpoint ncpy_copy (rest : nat) (m : mem) (dest src i : Z) : option (mem * Z * nat) :=
  match rest with
  | O => Some (m, i, O)
  | S rest' =>
      b ← load8 m (src + i);
      if negb (b =? 0) then m ← store8 m (dest + i) b; ncpy_copy rest' m dest src (i + 1)
      else Some (m, i, rest)
  end.

Fixpoint ncpy_pad (rest : nat) (m : mem) (dest i : Z) : option mem :=
  match rest with
  | O => Some m
  | S rest => m ← store8 m (dest + i) 0; ncpy_pad rest m dest (i + 1)
  end.

Definition strncpy (m : mem) (dest src n : Z) : option mem :=
  '(m, i, rest) ← ncpy_copy (Z.to_nat n) m dest src 0; ncpy_pad rest m dest i.

(** ** [strtok] *)

(** [while] the byte at [p] is not the terminator and [strchr] finds it among
    the delimiters ([want]), or does not find it. *)
Fixpoint tok_skip (fuel : nat) (m : mem) (delim p : Z) (want : bool) : option Z :=
  match fuel with
  | O => None
  | S fuel =>
      b ← load8 m p;
      if negb (b =? 0) then
        d ← strchr m delim b;
        if Bool.eqb (negb (d =? 0)) want then tok_skip fuel m delim (p + 1) want else Some p
      else Some p
  end.

(** [last] is the static variable; the result is the memory, the new [last]
    and the token, 0 for NULL. *)
Definition strtok (m : mem) (last str delim : Z) : option (mem * Z * Z) :=
  if (str =? 0) && (last =? 0) then Some (m, last, 0)
  else
    let last := if negb (str =? 0) then str else last in
    start ← tok_skip (S (size m)) m delim last true;
    b ← load8 m start;
    if b =? 0 then Some (m, 0, 0)
    else
      fin ← tok_skip (S (size m)) m delim start false;
      b ← load8 m fin;
      if negb (b =? 0) then m ← store8 m fin 0; Some (m, fin + 1, start)
      else Some (m, 0, start).

(** ** Strings in memory *)

Lemma cstring_nil m p : cstring m p [] <-> m !! p = Some 0.
Proof.
  unfold cstring. change (zlen (@nil Z)) with 0. rewrite Z.add_0_r. split; [by intros (_ & _ & ?)|].
  intros H0. split_and!; [constructor| |done]. intros i b E%zget_range. change (zlen (@nil Z)) with 0 in E. lia.
Qed.

Lemma cstring_cons m p b l : cstring m p (b :: l) <-> 0 < b < 256 /\ m !! p = Some b /\ cstring m (p + 1) l.
Proof.
  unfold cstring. rewrite zlen_cons. replace (p + 1 + zlen l) with (p + (1 + zlen l)) by lia. split.
  - intros (HF & Hl & H0). apply Forall_cons in HF as [Hb HF]. split_and!; try done; try lia.
    + rewrite <- (Hl 0 b) by done. f_equal. lia.
    + intros i c E. rewrite <- (Hl (i + 1) c); [f_equal; lia|]. apply zget_range in E as Hr.
      rewrite zget_cons_S by lia. rewrite <- E. f_equal. lia.
  - intros (Hb & Hp & HF & Hl & H0). split_and!; try done; [by constructor|].
    intros i c E. apply zget_range in E as Hr. destruct (decide (i = 0)) as [->|].
    + injection E as <-. by rewrite Z.add_0_r.
    + rewrite zget_cons_S in E by lia. rewrite <- (Hl _ _ E). f_equal. lia.
Qed.

(** The terminator's position is within the bound on the turns. *)
Lemma cstring_fuel m p l : cstring m p l -> (length l < S (size m))%nat.
Proof.
  intros H. pose proof (mapped_size m p (zlen l + 1) ltac:(pose proof (zlen_nonneg l); lia) (cstring_mapped _ _ _ H)).
  unfold zlen in *. lia.
Qed.

(** The string only depends on its own bytes. *)
Lemma cstring_frame m m' p l :
  cstring m p l -> (forall x, p <= x <= p + zlen l -> m' !! x = m !! x) -> cstring m' p l.
Proof.
  intros (HF & Hl & H0) E. pose proof (zlen_nonneg l). split_and!; [done| |rewrite E by lia; done].
  intros i b Hb. apply zget_range in Hb as Hr. rewrite E by lia. by apply Hl.
Qed.

(** A suffix of a string. *)
Lemma cstring_app m p k l : cstring m p (k ++ l) -> cstring m (p + zlen k) l.
Proof.
  revert p. induction k as [|b k IH]; intros p; simpl.
  - change (zlen (@nil Z)) with 0. by rewrite Z.add_0_r.
  - rewrite cstring_cons, zlen_cons, Z.add_assoc. intros (_ & _ & H). by apply IH.
Qed.

Lemma cstring_chars m p l : cstring m p l -> Forall (fun b => 0 < b < 256) l.
Proof. by intros [? _]. Qed.

(** ** Comparison: theorems *)

Section CompareSpec.
Context `{CharAbi}.

(** The result of [strcmp] on two lists of characters. *)
Fixpoint str_diff (l1 l2 : list Z) : Z :=
  match l1, l2 with
  | [], [] => 0
  | _ :: _, [] => 1
  | [], _ :: _ => -1
  | x :: l1, y :: l2 => if x =? y then str_diff l1 l2 else char_val x - char_val y
  end.

Lemma str_diff_zero l1 l2 :
  Forall (fun b => 0 < b < 256) l1 -> Forall (fun b => 0 < b < 256) l2 -> str_diff l1 l2 = 0 <-> l1 = l2.
Proof.
  intros H1. revert l2. induction H1 as [|x l1 Hx _ IH]; intros l2 H2; destruct H2 as [|y l2 Hy H2]; simpl; try done.
  destruct (Z.eqb_spec x y) as [->|Hne].
  - rewrite IH by done. split; [by intros ->|by intros [= ->]].
  - split; [|by intros [= ]]. intros E. exfalso. apply Hne, char_val_inj; lia.
Qed.

Lemma cmp_loop_spec m : forall l1 l2 fuel p q,
  cstring m p l1 -> cstring m q l2 -> (length l1 < fuel)%nat ->
  exists s1 s2 e x y, cmp_loop fuel m p q = Some (s1, s2, e) /\ m !! s1 = Some x /\ m !! s2 = Some y /\
    (if e : bool then if negb (x =? 0) then 1 else if negb (y =? 0) then -1 else 0
     else char_val x - char_val y) = str_diff l1 l2.
Proof.
  induction l1 as [|x l1 IH]; intros l2 [|fuel] p q H1 H2 Hf; simpl in Hf; try lia; cbn [cmp_loop]; unfold load8.
  - apply cstring_nil in H1. rewrite H1. cbn [mbind option_bind Z.eqb negb].
    destruct l2 as [|y l2].
    + apply cstring_nil in H2. exists p, q, true, 0, 0. done.
    + apply cstring_cons in H2 as (Hy & H2 & _). exists p, q, true, 0, y. split_and!; try done.
      destruct (Z.eqb_spec y 0); [lia|done].
  - apply cstring_cons in H1 as (Hx & H1 & H1'). rewrite H1. cbn [mbind option_bind].
    destruct (Z.eqb_spec x 0); [lia|]. cbn [negb]. destruct l2 as [|y l2].
    + apply cstring_nil in H2. rewrite H2. cbn [mbind option_bind Z.eqb negb].
      exists p, q, true, x, 0. split_and!; try done. destruct (Z.eqb_spec x 0); [lia|done].
    + apply cstring_cons in H2 as (Hy & H2 & H2'). rewrite H2. cbn [mbind option_bind].
      destruct (Z.eqb_spec y 0); [lia|]. cbn [negb str_diff]. destruct (Z.eqb_spec x y) as [->|Hne]; cbn [negb].
      * apply IH; [done|done|lia].
      * exists p, q, false, x, y. done.
Qed.

Lemma strcmp_spec m p q l1 l2 :
  cstring m p l1 -> cstring m q l2 -> strcmp m p q = Some (str_diff l1 l2).
Proof.
  intros H1 H2. unfold strcmp.
  destruct (cmp_loop_spec m l1 l2 (S (size m)) p q H1 H2) as (s1 & s2 & e & x & y & -> & E1 & E2 & <-).
  { eapply cstring_fuel, H1. }
  cbn [mbind option_bind]. unfold load8. rewrite E1, E2. cbn [mbind option_bind]. destruct e; [|done]. by repeat case_if.
Qed.

(** The result of [strncmp]: the difference of the first characters, as
    unsigned bytes, in which the first [n] differ. *)
Fixpoint strn_diff (n : nat) (l1 l2 : list Z) : Z :=
  match n with
  | O => 0
  | S n =>
      match l1, l2 with
      | [], [] => 0
      | x :: _, [] => x
      | [], y :: _ => - y
      | x :: l1, y :: l2 => if x =? y then strn_diff n l1 l2 else x - y
      end
  end.

Lemma strncmp_spec m : forall n l1 l2 p q,
  cstring m p l1 -> cstring m q l2 -> strncmp n m p q = Some (strn_diff n l1 l2).
Proof.
  induction n as [|n IH]; intros l1 l2 p q H1 H2; [done|]. cbn [strncmp strn_diff]. unfold load8.
  destruct l1 as [|x l1]; [apply cstring_nil in H1|apply cstring_cons in H1 as (Hx & H1 & H1')]; rewrite H1;
    (destruct l2 as [|y l2]; [apply cstring_nil in H2|apply cstring_cons in H2 as (Hy & H2 & H2')]); rewrite H2;
    cbn [mbind option_bind]; try done.
  - destruct (Z.eqb_spec 0 y); [lia|done].
  - destruct (Z.eqb_spec x 0); [lia|]. cbn [negb]. f_equal. lia.
  - destruct (Z.eqb_spec x y) as [->|]; cbn [negb]; [|done]. destruct (Z.eqb_spec y 0); [lia|]. by apply IH.
Qed.

Lemma strn_diff_zero n : forall l1 l2,
  Forall (fun b => 0 < b < 256) l1 -> Forall (fun b => 0 < b < 256) l2 ->
  strn_diff n l1 l2 = 0 <-> take n l1 = take n l2.
Proof.
  induction n as [|n IH]; intros l1 l2 H1 H2; [done|].
  destruct H1 as [|x l1 Hx H1], H2 as [|y l2 Hy H2]; simpl; try done; try (split; [lia|done]).
  destruct (Z.eqb_spec x y) as [->|].
  - rewrite IH by done. split; [by intros ->|by intros [= ->]].
  - split; [lia|congruence].
Qed.

(** [memcmp] decides equality of the ranges. *)
Lemma memcmp_spec m : bytes_ok m -> forall n a b,
  mapped m a (Z.of_nat n) -> mapped m b (Z.of_nat n) ->
  exists r, memcmp n m a b = Some r /\ (r = 0 <-> forall i, 0 <= i < Z.of_nat n -> m !! (a + i) = m !! (b + i)).
Proof.
  intros Hb. induction n as [|n IH]; intros a b Ha Hbm; cbn [memcmp].
  { exists 0. split; [done|]. split; [intros _ i Hi; lia|done]. }
  destruct (Ha a) as [x Ex]; [lia|]. destruct (Hbm b) as [y Ey]; [lia|].
  unfold load8. rewrite Ex, Ey. cbn [mbind option_bind]. pose proof (Hb _ _ Ex). pose proof (Hb _ _ Ey).
  destruct (Z.eqb_spec (char_val x) (char_val y)) as [E|E]; cbn [negb].
  - apply char_val_inj in E; [subst y|lia|lia].
    destruct (IH (a + 1) (b + 1)) as (r & -> & Hr); [eapply mapped_sub; [exact Ha|lia|lia]|eapply mapped_sub; [exact Hbm|lia|lia]|].
    exists r. split; [done|]. rewrite Hr. split.
    + intros Hi i Hlt. destruct (decide (i = 0)) as [->|]; [rewrite !Z.add_0_r; congruence|].
      specialize (Hi (i - 1) ltac:(lia)). replace (a + i) with (a + 1 + (i - 1)) by lia.
      by replace (b + i) with (b + 1 + (i - 1)) by lia.
    + intros Hi i Hlt. specialize (Hi (i + 1) ltac:(lia)). rewrite <- !Z.add_assoc, !(Z.add_comm 1). done.
  - eexists. split; [done|]. split.
    + case_if; lia.
    + intros Hi. specialize (Hi 0 ltac:(lia)). rewrite !Z.add_0_r, Ex, Ey in Hi. by injection Hi as ->.
Qed.

End CompareSpec.
