(* ===== verification/KStrSpec.v ===== *)
(** * Searching, copying and splitting strings

    Theorems about the routines of [KStr]: each against a function on the
    list of characters. *)

From stdpp Require Import gmap.
From S2P Require Import Prelude KMem KString KStr.

(** ** Search *)

Fixpoint index_of (c : Z) (l : list Z) : option Z :=
  match l with
  | [] => None
  | x :: l => if x =? c then Some 0 else i ← index_of c l; Some (1 + i)
  end.

Fixpoint last_of (c : Z) (l : list Z) : option Z :=
  match l with
  | [] => None
  | x :: l => match last_of c l with Some i => Some (1 + i) | None => if x =? c then Some 0 else None end
  end.

Lemma index_of_spec c l :
  match index_of c l with
  | Some i => zget l i = Some c /\ forall j, 0 <= j < i -> zget l j <> Some c
  | None => c ∉ l
  end.
Proof.
  induction l as [|x l IH]; simpl; [apply not_elem_of_nil|]. destruct (Z.eqb_spec x c) as [->|Hne].
  - split; [done|]. intros j Hj. lia.
  - destruct (index_of c l) as [i|]; cbn [mbind option_bind].
    + destruct IH as [Hi Hj]. apply zget_range in Hi as Hr. split.
      * rewrite zget_cons_S by lia. by replace (1 + i - 1) with i by lia.
      * intros j Hlt. destruct (decide (j = 0)) as [->|]; [rewrite zget_cons_0; congruence|].
        rewrite zget_cons_S by lia. apply Hj. lia.
    + apply not_elem_of_cons. split; [congruence|done].
Qed.

Lemma last_of_spec c l :
  match last_of c l with
  | Some i => zget l i = Some c /\ forall j, i < j -> zget l j <> Some c
  | None => c ∉ l
  end.
Proof.
  induction l as [|x l IH]; simpl; [apply not_elem_of_nil|]. destruct (last_of c l) as [i|].
  - destruct IH as [Hi Hj]. apply zget_range in Hi as Hr. split.
    + rewrite zget_cons_S by lia. by replace (1 + i - 1) with i by lia.
    + intros j Hlt. rewrite zget_cons_S by lia. apply Hj. lia.
  - destruct (Z.eqb_spec x c) as [->|].
    + split; [done|]. intros j Hj. rewrite zget_cons_S by lia. by intros ?%zget_elem.
    + apply not_elem_of_cons. split; [congruence|done].
Qed.

(** The address at an offset, or NULL. *)
Definition at_offset (p : Z) (o : option Z) : Z := match o with Some i => p + i | None => 0 end.

Lemma chr_loop_spec m c : forall l fuel p,
  cstring m p l -> (length l < fuel)%nat ->
  chr_loop fuel m p c = Some (if u8 c =? 0 then p + zlen l else at_offset p (index_of (u8 c) l)).
Proof.
  induction l as [|x l IH]; intros [|fuel] p Hl Hf; simpl in Hf; try lia; cbn [chr_loop index_of]; unfold load8.
  - apply cstring_nil in Hl. rewrite Hl. cbn [mbind option_bind Z.eqb negb]. change (zlen (@nil Z)) with 0.
    rewrite Z.add_0_r. rewrite Z.eqb_sym. done.
  - apply cstring_cons in Hl as (Hx & Hp & Hl). rewrite Hp. cbn [mbind option_bind].
    destruct (Z.eqb_spec x 0); [lia|]. cbn [negb]. destruct (Z.eqb_spec x (u8 c)) as [<-|Hne].
    + destruct (Z.eqb_spec x 0); [lia|]. simpl. f_equal. lia.
    + rewrite (IH fuel (p + 1) Hl) by lia. rewrite zlen_cons. f_equal. case_if; [lia|].
      destruct (index_of (u8 c) l); simpl; lia.
Qed.

Lemma strchr_spec m p l c :
  cstring m p l -> strchr m p c = Some (if u8 c =? 0 then p + zlen l else at_offset p (index_of (u8 c) l)).
Proof. intros Hl. apply chr_loop_spec; [done|]. by eapply cstring_fuel. Qed.

Lemma rchr_loop_spec m c : forall l fuel p last,
  cstring m p l -> (length l < fuel)%nat ->
  rchr_loop fuel m p c last =
    Some (p + zlen l, match last_of (u8 c) l with Some i => p + i | None => last end).
Proof.
  induction l as [|x l IH]; intros [|fuel] p last Hl Hf; simpl in Hf; try lia; cbn [rchr_loop last_of]; unfold load8.
  - apply cstring_nil in Hl. rewrite Hl. cbn [mbind option_bind Z.eqb negb]. change (zlen (@nil Z)) with 0.
    by rewrite Z.add_0_r.
  - apply cstring_cons in Hl as (Hx & Hp & Hl). rewrite Hp. cbn [mbind option_bind].
    destruct (Z.eqb_spec x 0); [lia|]. cbn [negb]. rewrite (IH fuel (p + 1) _ Hl) by lia. rewrite zlen_cons.
    f_equal. f_equal; [lia|]. destruct (last_of (u8 c) l); [lia|]. case_if; [lia|done].
Qed.

Lemma strrchr_spec m p l c :
  cstring m p l -> strrchr m p c = Some (if c =? 0 then p + zlen l else at_offset p (last_of (u8 c) l)).
Proof. intros Hl. unfold strrchr. rewrite (rchr_loop_spec m c l) by (eauto using cstring_fuel). done. Qed.

Lemma chrnul_loop_spec `{CharAbi} m c : forall l fuel p,
  cstring m p l -> (length l < fuel)%nat ->
  chrnul_loop fuel m p c = Some (match index_of c (char_val <$> l) with Some i => p + i + 1 | None => p + zlen l end).
Proof.
  induction l as [|x l IH]; intros [|fuel] p Hl Hf; simpl in Hf; try lia; cbn [chrnul_loop index_of fmap list_fmap]; unfold load8.
  - apply cstring_nil in Hl. rewrite Hl. cbn [mbind option_bind Z.eqb negb]. change (zlen (@nil Z)) with 0.
    by rewrite Z.add_0_r.
  - apply cstring_cons in Hl as (Hx & Hp & Hl). rewrite Hp. cbn [mbind option_bind].
    destruct (Z.eqb_spec x 0); [lia|]. cbn [negb]. case_if; [f_equal; lia|].
    rewrite (IH fuel (p + 1) Hl) by lia. rewrite zlen_cons. f_equal.
    destruct (index_of c (char_val <$> l)); cbn [mbind option_bind]; lia.
Qed.

Lemma strchrnul_spec `{CharAbi} m p l c :
  cstring m p l ->
  strchrnul m p c = Some (match index_of c (char_val <$> l) with Some i => p + i + 1 | None => p + zlen l end).
Proof. intros Hl. apply chrnul_loop_spec; [done|]. by eapply cstring_fuel. Qed.

(** ** Copying *)

(** [m'] is [m] with the bytes [bs] written from [a] on. *)
Definition written (m m' : mem) (a : Z) (bs : list Z) : Prop :=
  patched m m' (fun x => (a <=? x) && (x <? a + zlen bs)) (fun x => zget bs (x - a)).

Lemma written_nil m a : written m m a [].
Proof. apply patched_refl. intros x. change (zlen (@nil Z)) with 0. lia. Qed.

Lemma written_cons m m1 m' a b bs :
  patched m m1 (fun x => x =? a) (fun _ => Some b) -> written m1 m' (a + 1) bs -> written m m' a (b :: bs).
Proof.
  intros H1 H2 x. rewrite H2, H1, zlen_cons. pose proof (zlen_nonneg bs).
  destruct (Z.eqb_spec x a) as [->|].
  - replace (a + 1 <=? a) with false by lia. cbn [andb]. replace (a <=? a) with true by lia.
    replace (a <? a + (1 + zlen bs)) with true by lia. cbn [andb]. by rewrite Z.sub_diag.
  - destruct ((a + 1 <=? x) && (x <? a + 1 + zlen bs)) eqn:E1, ((a <=? x) && (x <? a + (1 + zlen bs))) eqn:E2; try lia; [|done].
    rewrite zget_cons_S by lia. f_equal. lia.
Qed.

Lemma written_app m m1 m' a k l :
  written m m1 a k -> written m1 m' (a + zlen k) l -> written m m' a (k ++ l).
Proof.
  intros H1 H2 x. rewrite H2, H1, zlen_app. pose proof (zlen_nonneg k). pose proof (zlen_nonneg l).
  destruct ((a + zlen k <=? x) && (x <? a + zlen k + zlen l)) eqn:E1,
    ((a <=? x) && (x <? a + zlen k)) eqn:E2, ((a <=? x) && (x <? a + (zlen k + zlen l))) eqn:E3; try lia; try done.
  - rewrite zget_app_r by lia. f_equal. lia.
  - by rewrite zget_app_l by lia.
Qed.

Lemma written_byte m m' a bs i : written m m' a bs -> 0 <= i < zlen bs -> m' !! (a + i) = zget bs i.
Proof.
  intros H Hi. rewrite H. replace (a <=? a + i) with true by lia. replace (a + i <? a + zlen bs) with true by lia.
  cbn [andb]. f_equal. lia.
Qed.

Lemma written_frame m m' a bs x : written m m' a bs -> x < a \/ a + zlen bs <= x -> m' !! x = m !! x.
Proof. intros H Hx. rewrite H. case_if; [lia|done]. Qed.

Lemma written_cstring m m' a l :
  Forall (fun b => 0 < b < 256) l -> written m m' a (l ++ [0]) -> cstring m' a l.
Proof.
  intros HF H. assert (zlen (l ++ [0]) = zlen l + 1) as E by apply zlen_app. pose proof (zlen_nonneg l). split_and!; [done| |].
  - intros i b Hb. apply zget_range in Hb as Hr. rewrite (written_byte _ _ _ _ _ H) by lia. by rewrite zget_app_l by lia.
  - rewrite (written_byte _ _ _ _ _ H) by lia. rewrite zget_app_r by lia. by rewrite Z.sub_diag.
Qed.

Lemma written_mapped m m' a bs b n : written m m' a bs -> mapped m b n -> mapped m' b n.
Proof.
  intros H. eapply mapped_patched; [exact H|]. intros x Hx. cbv beta in Hx. apply zget_ok. lia.
Qed.

(** The two ranges of [n] bytes have no byte in common. *)
Definition apart (a b n : Z) : Prop := a + n <= b \/ b + n <= a.

Lemma cat_loop_spec : forall l fuel m d s,
  cstring m s l -> mapped m d (zlen l + 1) -> apart d s (zlen l + 1) -> (length l < fuel)%nat ->
  exists m', cat_loop fuel m d s = Some m' /\ written m m' d (l ++ [0]).
Proof.
  induction l as [|b l IH]; intros [|fuel] m d s Hl Hm Ha Hf; simpl in Hf; try lia; cbn [cat_loop]; unfold load8.
  - apply cstring_nil in Hl. rewrite Hl. cbn [mbind option_bind].
    destruct (store8_ok m d 0) as (m1 & -> & H1); [apply Hm; unfold zlen; simpl; lia|]. cbn [mbind option_bind Z.eqb negb].
    exists m1. split; [done|]. eapply written_cons; [exact H1|]. apply written_nil.
  - apply cstring_cons in Hl as (Hb & Hs & Hl). rewrite Hs. cbn [mbind option_bind]. rewrite zlen_cons in *.
    pose proof (zlen_nonneg l). destruct (store8_ok m d b) as (m1 & -> & H1); [apply Hm; lia|]. cbn [mbind option_bind].
    rewrite u8_id in H1 by lia. destruct (Z.eqb_spec b 0); [lia|]. cbn [negb].
    destruct (IH fuel m1 (d + 1) (s + 1)) as (m' & -> & H'); [| | |lia|].
    + eapply cstring_frame; [exact Hl|]. intros x Hx. rewrite H1. destruct (Z.eqb_spec x d); [|done].
      unfold apart in Ha. lia.
    + eapply mapped_patched; [exact H1|done|]. eapply mapped_sub; [exact Hm|lia|lia].
    + unfold apart in *. lia.
    + exists m'. split; [done|]. by eapply written_cons.
Qed.

Lemma len_bytes_cstring m : forall l fuel p,
  cstring m p l -> (length l < fuel)%nat -> len_bytes fuel m p = Some (p + zlen l).
Proof.
  intros l fuel p Hl Hf. rewrite <- (Z.add_0_r p) at 1. apply len_bytes_spec; [done| |].
  - pose proof (zlen_nonneg l). lia.
  - unfold zlen. lia.
Qed.

(** [strcat] appends, for a destination that has the room. *)
Lemma strcat_spec m d s l1 l2 :
  cstring m d l1 -> cstring m s l2 -> mapped m d (zlen l1 + zlen l2 + 1) ->
  d + zlen l1 + zlen l2 + 1 <= s \/ s + zlen l2 + 1 <= d ->
  exists m', strcat m d s = Some m' /\ written m m' (d + zlen l1) (l2 ++ [0]) /\ cstring m' d (l1 ++ l2).
Proof.
  intros H1 H2 Hm Ha. unfold strcat. rewrite (len_bytes_cstring m l1) by eauto using cstring_fuel. cbn [mbind option_bind].
  pose proof (zlen_nonneg l1). pose proof (zlen_nonneg l2).
  destruct (cat_loop_spec l2 (S (size m)) m (d + zlen l1) s H2) as (m' & -> & Hw).
  { eapply mapped_sub; [exact Hm|lia|lia]. }
  { unfold apart. lia. }
  { by eapply cstring_fuel. }
  exists m'. split_and!; [done|done|]. pose proof (cstring_chars _ _ _ H1) as F1. pose proof (cstring_chars _ _ _ H2) as F2.
  apply (written_cstring m); [by apply Forall_app|]. rewrite <- app_assoc. eapply written_app; [|exact Hw].
  intros x. case_if; [|done]. destruct (zget_ok l1 (x - d)) as [b Hb]; [lia|].
  rewrite Hb. destruct H1 as (_ & H1 & _). rewrite <- (H1 _ _ Hb). f_equal. lia.
Qed.

(** The do-while loop of [strcpy] always copies the first byte, and stops at
    the terminator of what follows it. *)
Lemma cpy_loop_spec : forall l fuel m d s b,
  m !! s = Some b -> 0 <= b < 256 -> cstring m (s + 1) l -> mapped m d (zlen l + 2) -> apart d s (zlen l + 2) ->
  (length l < fuel)%nat ->
  exists m', cpy_loop fuel m d s = Some (m', d + 1 + zlen l) /\ written m m' d (b :: l).
Proof.
  induction l as [|c l IH]; intros [|fuel] m d s b Hb Hr Hl Hm Ha Hf; simpl in Hf; try lia; cbn [cpy_loop]; unfold load8;
    rewrite Hb; cbn [mbind option_bind]; (destruct (store8_ok m d b) as (m1 & -> & H1); [apply Hm; unfold zlen; lia|]);
    cbn [mbind option_bind]; rewrite u8_id in H1 by lia; unfold apart in Ha.
  - apply cstring_nil in Hl. rewrite (H1 (s + 1)). destruct (Z.eqb_spec (s + 1) d); [unfold zlen in Ha; simpl in Ha; lia|].
    rewrite Hl. cbn [mbind option_bind Z.eqb negb]. exists m1. split; [f_equal; f_equal; unfold zlen; simpl; lia|].
    eapply written_cons; [exact H1|]. apply written_nil.
  - apply cstring_cons in Hl as (Hc & Hs & Hl). rewrite zlen_cons in *. pose proof (zlen_nonneg l).
    rewrite (H1 (s + 1)). destruct (Z.eqb_spec (s + 1) d); [lia|]. rewrite Hs. cbn [mbind option_bind].
    destruct (Z.eqb_spec c 0); [lia|]. cbn [negb].
    destruct (IH fuel m1 (d + 1) (s + 1) c) as (m' & -> & H'); try lia.
    + rewrite (H1 (s + 1)). by destruct (Z.eqb_spec (s + 1) d); [lia|].
    + eapply cstring_frame; [exact Hl|]. intros x Hx. rewrite H1. destruct (Z.eqb_spec x d); [lia|done].
    + eapply mapped_patched; [exact H1|done|]. eapply mapped_sub; [exact Hm|lia|lia].
    + unfold apart. lia.
    + exists m'. split; [f_equal; f_equal; lia|]. by eapply written_cons.
Qed.

(** What [strcpy] writes: the first byte, whatever it is, then the string
    that starts after it. *)
Lemma strcpy_spec m d s b l :
  m !! s = Some b -> 0 <= b < 256 -> cstring m (s + 1) l -> mapped m d (zlen l + 2) -> apart d s (zlen l + 2) ->
  exists m', strcpy m d s = Some (m', d + 1 + zlen l) /\ written m m' d (b :: l ++ [0]).
Proof.
  intros Hb Hr Hl Hm Ha. unfold strcpy. pose proof (zlen_nonneg l).
  destruct (cpy_loop_spec l (S (size m)) m d s b) as (m1 & -> & H1); try done; [by eapply cstring_fuel|].
  cbn [mbind option_bind]. destruct (store8_ok m1 (d + 1 + zlen l) 0) as (m2 & -> & H2).
  { eapply (written_mapped _ _ _ _ d); [exact H1|exact Hm|]. lia. }
  cbn [mbind option_bind]. exists m2. split; [done|]. change (b :: l ++ [0]) with ((b :: l) ++ [0]).
  eapply written_app; [exact H1|]. rewrite zlen_cons, Z.add_assoc. eapply written_cons; [exact H2|]. apply written_nil.
Qed.

(** [strncpy] copies at most [n] characters and pads with zeros; when the
    source is longer no terminator is written. *)
Lemma ncpy_copy_spec : forall l rest m d s i,
  cstring m (s + i) l -> mapped m (d + i) (Z.of_nat rest) ->
  d + i + Z.of_nat rest <= s + i \/ s + i + zlen l + 1 <= d + i ->
  exists m', ncpy_copy rest m d s i =
      Some (m', i + zlen (take rest l), (rest - length l)%nat) /\ written m m' (d + i) (take rest l).
Proof.
  induction l as [|b l IH]; intros [|rest] m d s i Hl Hm Ha; cbn [ncpy_copy take]; unfold load8.
  - exists m. split; [f_equal; f_equal; f_equal; unfold zlen; simpl; lia|apply written_nil].
  - apply cstring_nil in Hl. rewrite Hl. cbn [mbind option_bind Z.eqb negb]. exists m.
    split; [f_equal; f_equal; f_equal; unfold zlen; simpl; lia|apply written_nil].
  - exists m. split; [f_equal; f_equal; f_equal; unfold zlen; simpl; lia|apply written_nil].
  - apply cstring_cons in Hl as (Hb & Hs & Hl). rewrite Hs. cbn [mbind option_bind]. rewrite !zlen_cons in *.
    pose proof (zlen_nonneg l). destruct (Z.eqb_spec b 0); [lia|]. cbn [negb].
    destruct (store8_ok m (d + i) b) as (m1 & -> & H1); [apply Hm; lia|]. cbn [mbind option_bind].
    rewrite u8_id in H1 by lia. destruct (IH rest m1 d s (i + 1)) as (m' & -> & H').
    + rewrite Z.add_assoc. eapply cstring_frame; [exact Hl|]. intros x Hx. rewrite H1.
      destruct (Z.eqb_spec x (d + i)); [lia|done].
    + eapply mapped_patched; [exact H1|done|]. eapply mapped_sub; [exact Hm|lia|lia].
    + lia.
    + exists m'. split; [f_equal; f_equal; f_equal; lia|]. eapply written_cons; [exact H1|].
      by replace (d + i + 1) with (d + (i + 1)) by lia.
Qed.

Lemma ncpy_pad_spec : forall rest m d i,
  mapped m (d + i) (Z.of_nat rest) ->
  exists m', ncpy_pad rest m d i = Some m' /\ written m m' (d + i) (replicate rest 0).
Proof.
  induction rest as [|rest IH]; intros m d i Hm; cbn [ncpy_pad]; [exists m; split; [done|apply written_nil]|].
  destruct (store8_ok m (d + i) 0) as (m1 & -> & H1); [apply Hm; lia|]. cbn [mbind option_bind].
  destruct (IH m1 d (i + 1)) as (m' & -> & H').
  - eapply mapped_patched; [exact H1|done|]. eapply mapped_sub; [exact Hm|lia|lia].
  - exists m'. split; [done|]. eapply written_cons; [exact H1|]. by replace (d + i + 1) with (d + (i + 1)) by lia.
Qed.

Lemma strncpy_spec m d s l n :
  0 <= n -> cstring m s l -> mapped m d n -> d + n <= s \/ s + zlen l + 1 <= d ->
  exists m', strncpy m d s n = Some m' /\
    written m m' d (take (Z.to_nat n) l ++ replicate (Z.to_nat n - length l) 0).
Proof.
  intros Hn Hl Hm Ha. unfold strncpy. destruct (ncpy_copy_spec l (Z.to_nat n) m d s 0) as (m1 & -> & H1).
  - by rewrite Z.add_0_r.
  - rewrite Z.add_0_r. by rewrite Z2Nat.id by lia.
  - lia.
  - cbn [mbind option_bind]. rewrite Z.add_0_r in H1.
    destruct (ncpy_pad_spec (Z.to_nat n - length l) m1 d (0 + zlen (take (Z.to_nat n) l))) as (m' & -> & H').
    + eapply written_mapped; [exact H1|]. assert (zlen (take (Z.to_nat n) l) = Z.min n (zlen l)) as ->.
      { unfold zlen. rewrite length_take. lia. }
      eapply mapped_sub; [exact Hm|unfold zlen; lia|unfold zlen; lia].
    + exists m'. split; [done|]. eapply written_app; [exact H1|]. by replace (d + zlen (take (Z.to_nat n) l)) with (d + (0 + zlen (take (Z.to_nat n) l))) by lia.
Qed.

(** ** Splitting into tokens *)

Section Tokens.
Context (f : Z -> bool).

Fixpoint drop_while (g : Z -> bool) (l : list Z) : list Z :=
  match l with [] => [] | x :: l' => if g x then drop_while g l' else l end.

Fixpoint take_while (g : Z -> bool) (l : list Z) : list Z :=
  match l with [] => [] | x :: l' => if g x then x :: take_while g l' else [] end.

(** The maximal runs of characters that are no delimiters: the pieces between
    delimiters, without the empty ones. [cur] is the current piece, reversed. *)
Fixpoint pieces (cur l : list Z) : list (list Z) :=
  match l with
  | [] => [rev cur]
  | x :: l => if f x then rev cur :: pieces [] l else pieces (x :: cur) l
  end.

Definition tokens (l : list Z) : list (list Z) :=
  filter (fun t => t <> []) (pieces [] l).

Lemma take_drop_while g l : take_while g l ++ drop_while g l = l.
Proof. induction l as [|x l IH]; simpl; [done|]. case_if; simpl; congruence. Qed.

Lemma drop_while_head g l x r : drop_while g l = x :: r -> g x = false.
Proof.
  induction l as [|y l IH]; simpl; [done|]. case_if; [done|]. by intros [= -> ->].
Qed.

Lemma pieces_run l : forall cur,
  pieces cur l = match drop_while (fun x => negb (f x)) l with
                 | [] => [rev cur ++ l]
                 | _ :: r => (rev cur ++ take_while (fun x => negb (f x)) l) :: pieces [] r
                 end.
Proof.
  induction l as [|x l IH]; intros cur; simpl; [by rewrite app_nil_r|]. destruct (f x); simpl; [by rewrite app_nil_r|].
  rewrite IH. simpl. destruct (drop_while _ l); by rewrite <- app_assoc.
Qed.

(** One token at a time, the way [strtok] goes. *)
Lemma tokens_step l :
  tokens l =
    match drop_while f l with
    | [] => []
    | y :: k => take_while (fun x => negb (f x)) (y :: k) ::
                  match drop_while (fun x => negb (f x)) (y :: k) with [] => [] | _ :: r => tokens r end
    end.
Proof.
  induction l as [|x l IH]; [done|]. cbn [drop_while]. destruct (f x) eqn:Ex.
  - etrans; [|exact IH]. unfold tokens. cbn [pieces]. rewrite Ex. apply filter_cons_False. tauto.
  - unfold tokens. cbn [pieces drop_while take_while]. rewrite Ex, pieces_run. cbn [rev app negb].
    pose proof (take_drop_while (fun x => negb (f x)) l) as Et.
    destruct (drop_while (fun x => negb (f x)) l) as [|y r]; rewrite filter_cons_True by done; [|done].
    rewrite app_nil_r in Et. by rewrite Et.
Qed.

End Tokens.

Section StrtokSpec.
Context (ds : list Z).

Definition is_delim (b : Z) : bool := bool_decide (b ∈ ds).

(** [strchr(delim, *p)] tells the delimiters. *)
Lemma strchr_delim m delim b :
  cstring m delim ds -> 0 < delim -> 0 < b < 256 -> exists d, strchr m delim b = Some d /\ negb (d =? 0) = is_delim b.
Proof.
  intros Hd Hp Hb. rewrite (strchr_spec _ _ _ _ Hd), u8_id by lia. destruct (Z.eqb_spec b 0); [lia|].
  eexists; split; [done|]. unfold is_delim. pose proof (index_of_spec b ds) as H. destruct (index_of b ds) as [i|]; simpl.
  - destruct H as [Hi _]. rewrite bool_decide_eq_true_2 by (by eapply zget_elem). apply zget_range in Hi. lia.
  - by rewrite bool_decide_eq_false_2.
Qed.

Lemma tok_skip_spec m delim want : cstring m delim ds -> 0 < delim -> forall l fuel p,
  cstring m p l -> (length l < fuel)%nat ->
  tok_skip fuel m delim p want = Some (p + (zlen l - zlen (drop_while (fun b => Bool.eqb (is_delim b) want) l))).
Proof.
  intros Hd Hp. induction l as [|b l IH]; intros [|fuel] p Hl Hf; simpl in Hf; try lia; cbn [tok_skip drop_while]; unfold load8.
  - apply cstring_nil in Hl. rewrite Hl. cbn [mbind option_bind Z.eqb negb]. f_equal. lia.
  - apply cstring_cons in Hl as (Hb & Hs & Hl). rewrite Hs. cbn [mbind option_bind].
    destruct (Z.eqb_spec b 0); [lia|]. cbn [negb]. destruct (strchr_delim m delim b) as (d & -> & Ed); [done..|].
    cbn [mbind option_bind]. rewrite Ed. case_if; [|f_equal; lia]. rewrite (IH fuel (p + 1) Hl) by lia. rewrite zlen_cons. f_equal. lia.
Qed.

Lemma drop_while_ext g h l : (forall x, g x = h x) -> drop_while g l = drop_while h l.
Proof. intros E. induction l as [|x l IH]; simpl; [done|]. rewrite E. by case_if. Qed.

(** A string is cut in two by a zero byte. *)
Lemma cstring_cut m p k b r :
  cstring m p (k ++ b :: r) ->
  cstring (<[p + zlen k := 0]> m) p k /\ cstring (<[p + zlen k := 0]> m) (p + zlen k + 1) r.
Proof.
  intros H. pose proof (cstring_app _ _ _ _ H) as Hr. apply cstring_cons in Hr as (_ & _ & Hr).
  pose proof (cstring_chars _ _ _ H) as HF. apply Forall_app in HF as [HF _]. split.
  - split_and!; [done| |by rewrite lookup_insert_eq]. intros i c E. apply zget_range in E as Hi.
    rewrite lookup_insert_ne by lia. destruct H as (_ & H & _). apply H. by rewrite zget_app_l by lia.
  - eapply cstring_frame; [exact Hr|]. intros x Hx. rewrite lookup_insert_ne by lia. done.
Qed.

(** One call: the next token and the position behind it. *)
Lemma strtok_step m last str delim l p :
  cstring m delim ds -> 0 < delim -> 0 < p -> p = (if negb (str =? 0) then str else last) -> cstring m p l ->
  let l' := drop_while is_delim l in
  let start := p + (zlen l - zlen l') in
  let tok := take_while (fun b => negb (is_delim b)) l' in
  strtok m last str delim =
    match l' with
    | [] => Some (m, 0, 0)
    | _ => match drop_while (fun b => negb (is_delim b)) l' with
           | [] => Some (m, 0, start)
           | _ => Some (<[start + zlen tok := 0]> m, start + zlen tok + 1, start)
           end
    end.
Proof.
  intros Hd Hdp Hp Ep Hl l' start tok. unfold strtok.
  assert ((str =? 0) && (last =? 0) = false) as -> by (destruct (str =? 0) eqn:?, (last =? 0) eqn:?; simpl in Ep; try done; lia).
  rewrite <- Ep. rewrite (tok_skip_spec m delim true Hd Hdp l) by eauto using cstring_fuel. cbn [mbind option_bind].
  rewrite (drop_while_ext _ is_delim) by (intros x; by destruct (is_delim x)). fold l' start.
  assert (cstring m start l') as Hs.
  { pose proof (take_drop_while is_delim l) as E. rewrite <- E in Hl. apply cstring_app in Hl. unfold start.
    apply (f_equal zlen) in E. rewrite zlen_app in E. fold l' in E, Hl.
    by replace (zlen l - zlen l') with (zlen (take_while is_delim l)) by lia. }
  destruct l' as [|b r] eqn:El'; unfold load8.
  { apply cstring_nil in Hs. rewrite Hs. done. }
  pose proof Hs as (Hb & Hsb & _)%cstring_cons. rewrite Hsb. cbn [mbind option_bind]. destruct (Z.eqb_spec b 0); [lia|].
  rewrite (tok_skip_spec m delim false Hd Hdp (b :: r) (S (size m)) start) by eauto using cstring_fuel. cbn [mbind option_bind].
  rewrite (drop_while_ext _ (fun b => negb (is_delim b))) by (intros x; by destruct (is_delim x)).
  pose proof (take_drop_while (fun b => negb (is_delim b)) (b :: r)) as E. fold tok in E.
  pose proof (f_equal zlen E) as Ez. rewrite zlen_app in Ez.
  replace (zlen (b :: r) - zlen (drop_while (fun b => negb (is_delim b)) (b :: r))) with (zlen tok) by lia.
  rewrite <- E in Hs. apply cstring_app in Hs. destruct (drop_while _ (b :: r)) as [|c r'].
  - apply cstring_nil in Hs. rewrite Hs. done.
  - apply cstring_cons in Hs as (Hc & Hsc & _). rewrite Hsc. cbn [mbind option_bind].
    destruct (Z.eqb_spec c 0); [lia|]. cbn [negb]. unfold store8. rewrite Hsc. done.
Qed.

End StrtokSpec.

(** ** All tokens of a string *)

(** The client's loop: [strtok(str, delim)], then [strtok(NULL, delim)] until
    it returns NULL. *)
Fixpoint strtok_all (fuel : nat) (m : mem) (last str delim : Z) : option (mem * list Z) :=
  match fuel with
  | O => None
  | S fuel =>
      '(m, last, t) ← strtok m last str delim;
      if t =? 0 then Some (m, [])
      else '(m, ts) ← strtok_all fuel m last 0 delim; Some (m, t :: ts)
  end.

Lemma cstring_split m p k l : cstring m p (k ++ l) -> l = [] -> cstring m p k.
Proof. intros H ->. by rewrite app_nil_r in H. Qed.

Lemma strtok_all_spec ds delim : 0 < delim -> forall fuel m last str p l,
  cstring m delim ds -> 0 < p -> p = (if negb (str =? 0) then str else last) -> cstring m p l ->
  delim + zlen ds + 1 <= p \/ p + zlen l + 1 <= delim -> (length l < fuel)%nat ->
  exists m' ts, strtok_all fuel m last str delim = Some (m', ts) /\
    Forall2 (cstring m') ts (tokens (is_delim ds) l) /\
    forall x, x < p \/ p + zlen l <= x -> m' !! x = m !! x.
Proof.
  intros Hdp. induction fuel as [|fuel IH]; intros m last str p l Hd Hp Ep Hl Ha Hf; [lia|]. cbn [strtok_all].
  rewrite (strtok_step ds m last str delim l p Hd Hdp Hp Ep Hl). rewrite tokens_step.
  pose proof (take_drop_while (is_delim ds) l) as E1. pose proof Hl as Hs. rewrite <- E1 in Hs. apply cstring_app in Hs.
  pose proof (f_equal zlen E1) as Z1. rewrite zlen_app in Z1.
  replace (zlen l - zlen (drop_while (is_delim ds) l)) with (zlen (take_while (is_delim ds) l)) by lia.
  set (start := p + zlen (take_while (is_delim ds) l)) in *. pose proof (zlen_nonneg (take_while (is_delim ds) l)).
  destruct (drop_while (is_delim ds) l) as [|b r]; [by exists m, []|].
  pose proof (take_drop_while (fun b => negb (is_delim ds b)) (b :: r)) as E2.
  pose proof (f_equal zlen E2) as Z2. rewrite zlen_app in Z2. rewrite <- E2 in Hs.
  set (tok := take_while (fun b => negb (is_delim ds b)) (b :: r)) in *. pose proof (zlen_nonneg tok).
  destruct (drop_while (fun b => negb (is_delim ds b)) (b :: r)) as [|c r'] eqn:Er'; cbn [mbind option_bind];
    replace (start =? 0) with false by lia.
  - assert (exists f', fuel = S f') as [f' ->].
    { destruct fuel; [|by eexists]. unfold zlen in Z1. simpl in Z1. lia. }
    cbn [strtok_all]. unfold strtok. cbn. exists m, [start]. split; [done|]. split; [|done].
    constructor; [|constructor]. eapply cstring_split; eauto.
  - destruct (cstring_cut m start tok c r' Hs) as [Ht Hr]. rewrite !zlen_cons in *. pose proof (zlen_nonneg r').
    destruct (IH (<[start + zlen tok := 0]> m) (start + zlen tok + 1) 0 (start + zlen tok + 1) r')
      as (m' & ts & -> & HF & Hx); [|lia|done|done|lia|clear - Z1 Z2 Hf; unfold zlen in *; lia|].
    + eapply cstring_frame; [exact Hd|]. intros x Hx. rewrite lookup_insert_ne by lia. done.
    + cbn [mbind option_bind]. exists m', (start :: ts). split_and!; [done| |].
      * constructor; [|done]. eapply cstring_frame; [exact Ht|]. intros x Hxx. apply Hx. lia.
      * intros x Hxx. rewrite Hx by lia. rewrite lookup_insert_ne by lia. done.
Qed.
