(* ===== verification/KNum.v ===== *)
(** * Numbers in strings ([src/src/util/krlibc.c]): [strtol], [strtoul], [atoi]

    Character constants are written as their codes. *)

From stdpp Require Import gmap.
From S2P Require Import Prelude KMem KString KStr.

Definition isspace (c : Z) : bool :=
  (c =? 32) || (c =? 9) || (c =? 10) || (c =? 13) || (c =? 12) || (c =? 11).

Definition isxdigit (c : Z) : bool :=
  (48 <=? c) && (c <=? 57) || (97 <=? c) && (c <=? 102) || (65 <=? c) && (c <=? 70).

Definition TOLOWER (x : Z) : Z := Z.lor x 32.

Definition LONG_MAX : Z := two63 - 1.
Definition LONG_MIN : Z := - LONG_MAX - 1.

Section Num.
Context `{CharAbi}.

(** [*s] as a [char]. *)
Definition loadc (m : mem) (s : Z) : option Z := b ← load8 m s; Some (char_val b).

(** [do c = *s++; while (isspace((unsigned char)c));] *)
Fixpoint skip_space (fuel : nat) (m : mem) (s : Z) : option (Z * Z) :=
  match fuel with
  | O => None
  | S fuel =>
      c ← loadc m s;
      if isspace (u8 c) then skip_space fuel m (s + 1) else Some (c, s + 1)
  end.

(** The value of a digit in the widest base, if [c] is one. *)
Definition digit_of (c : Z) : option Z :=
  if (48 <=? c) && (c <=? 57) then Some (c - 48)
  else if (65 <=? c) && (c <=? 90) then Some (c - 55)
  else if (97 <=? c) && (c <=? 122) then Some (c - 87)
  else None.

(** The conversion loop; [any] is unsigned, so [any < 0] never holds. *)
Fixpoint tol_loop (fuel : nat) (m : mem) (s c base cutoff cutlim acc any : Z) : option (Z * Z * Z) :=
  match fuel with
  | O => None
  | S fuel =>
      match digit_of c with
      | None => Some (s, acc, any)
      | Some d =>
          if d >=? base then Some (s, acc, any)
          else
            let '(acc, any) :=
              if (any <? 0) || (acc >? cutoff) || (acc =? cutoff) && (d >? cutlim) then (acc, u64 (-1))
              else (u64 (u64 (acc * base) + d), 1) in
            c ← loadc m s; tol_loop fuel m (s + 1) c base cutoff cutlim acc any
      end
  end.

(** The number returned and the address stored through [endptr]. *)
Definition strtol (m : mem) (str base : Z) : option (Z * Z) :=
  '(c, s) ← skip_space (S (size m)) m str;
  '(neg, c, s) ←
    (if c =? 45 then c ← loadc m s; Some (true, c, s + 1)
     else if c =? 43 then c ← loadc m s; Some (false, c, s + 1)
     else Some (false, c, s));
  '(c, s, base) ←
    (if ((base =? 0) || (base =? 16)) && (c =? 48) then
       x ← loadc m s;
       if (x =? 120) || (x =? 88) then
         d ← loadc m (s + 1);
         if isxdigit d then Some (d, s + 2, 16) else Some (c, s, base)
       else Some (c, s, base)
     else Some (c, s, base));
  let base := if base =? 0 then (if c =? 48 then 8 else 10) else base in
  '(s, acc, any) ←
    (if (base <? 2) || (base >? 36) then Some (s, 0, 0)
     else
       let cutoff := if neg : bool then u64 (u64 (- (LONG_MIN + LONG_MAX)) + LONG_MAX) else LONG_MAX in
       let cutlim := cutoff mod base in
       let cutoff := cutoff / base in
       tol_loop (S (size m)) m s c base cutoff cutlim 0 0);
  let acc := if any =? 0 then acc else if neg : bool then u64 (- acc) else acc in
  Some (i64 acc, if negb (any =? 0) then s - 1 else str).

(** The loop of [strtoul]; [value] is the digit's value. *)
Fixpoint toul_loop (fuel : nat) (m : mem) (cp base result : Z) : option (Z * Z) :=
  match fuel with
  | O => None
  | S fuel =>
      c ← loadc m cp;
      if isxdigit c then
        let value := u64 (if isdigit c then c - 48 else TOLOWER c - 97 + 10) in
        if value <? u64 base then toul_loop fuel m (cp + 1) base (u64 (u64 (result * base) + value))
        else Some (cp, result)
      else Some (cp, result)
  end.

(** The number and the address stored through [endp]. *)
Definition strtoul (m : mem) (cp base : Z) : option (Z * Z) :=
  '(cp, base) ←
    (if base =? 0 then
       c ← loadc m cp;
       if c =? 48 then
         let cp := cp + 1 in
         c ← loadc m cp;
         if TOLOWER c =? 120 then
           d ← loadc m (cp + 1);
           if isxdigit d then Some (cp + 1, 16) else Some (cp, 8)
         else Some (cp, 8)
       else Some (cp, 10)
     else if base =? 16 then
       c ← loadc m cp;
       if c =? 48 then
         x ← loadc m (cp + 1);
         if TOLOWER x =? 120 then Some (cp + 2, base) else Some (cp, base)
       else Some (cp, base)
     else Some (cp, base));
  '(cp, result) ← toul_loop (S (size m)) m cp base 0;
  Some (result, cp).

(** The loops of [atoi]: the first runs on as long as the character is no
    white space. A signed overflow is undefined: [None]. *)
Fixpoint atoi_skip (fuel : nat) (m : mem) (p : Z) : option Z :=
  match fuel with
  | O => None
  | S fuel => c ← loadc m p; if negb (isspace c) then atoi_skip fuel m (p + 1) else Some p
  end.

Definition in_int (x : Z) : option Z := if (- two31 <=? x) && (x <? two31) then Some x else None.

Fixpoint atoi_digits (fuel : nat) (m : mem) (p ret : Z) : option Z :=
  match fuel with
  | O => None
  | S fuel =>
      c ← loadc m p;
      if (48 <=? c) && (c <=? 57) then
        t ← in_int (ret * 10); t ← in_int (t + c); t ← in_int (t - 48);
        atoi_digits fuel m (p + 1) t
      else Some ret
  end.

Definition atoi (m : mem) (pstr : Z) : option Z :=
  if pstr =? 0 then Some 0
  else
    p ← atoi_skip (S (size m)) m pstr;
    c ← loadc m p;
    let sign := if c =? 45 then -1 else 1 in
    let p := if (c =? 45) || (c =? 43) then p + 1 else p in
    r ← atoi_digits (S (size m)) m p 0;
    in_int (sign * r).

End Num.
