(* ===== verification/KNumSpec.v ===== *)
(** * Numbers in strings: theorems

    [strtol] and [strtoul] against the value of a list of digits, and what
    [atoi] returns. *)

From stdpp Require Import gmap.
From S2P Require Import Prelude KMem KString KStr KStrSpec KNum.

(** The digits [vs] that the characters [ds] stand for in [base]. *)
Definition digits (base : Z) (ds vs : list Z) : Prop :=
  Forall2 (fun b v => digit_of b = Some v /\ v < base) ds vs.

(** The number they denote, after the digits read so far gave [acc]. *)
Definition value (base acc : Z) (vs : list Z) : Z := foldl (fun a v => a * base + v) acc vs.

(** The first character, the terminator included. *)
Definition head0 (l : list Z) : Z := match l with [] => 0 | b :: _ => b end.

(** The character is no digit of [base]. *)
Definition no_digit (base b : Z) : Prop := match digit_of b with Some d => base <= d | None => True end.

Lemma digit_of_range b v : digit_of b = Some v -> 48 <= b <= 122 /\ 0 <= v < 36.
Proof. unfold digit_of. repeat case_if; intros [= <-]; lia. Qed.

Lemma value_mono base vs : forall acc, 2 <= base -> 0 <= acc -> Forall (fun v => 0 <= v) vs -> acc <= value base acc vs.
Proof.
  induction vs as [|v vs IH]; intros acc Hb Ha HF; [done|]. apply Forall_cons in HF as [Hv HF]. unfold value in *. cbn [foldl].
  specialize (IH (acc * base + v) Hb ltac:(nia) HF). nia.
Qed.

Lemma digits_nonneg base ds vs : digits base ds vs -> Forall (fun v => 0 <= v) vs.
Proof. induction 1 as [|b v ds vs [Hv _] _ IH]; constructor; [|done]. apply digit_of_range in Hv. lia. Qed.

Lemma cstring_head m p l : cstring m p l -> m !! p = Some (head0 l).
Proof. destruct l; [by intros ?%cstring_nil|by intros (_ & ? & _)%cstring_cons]. Qed.

Section NumSpec.
Context `{CharAbi} (m : mem).

Lemma char_val_ascii b : 0 <= b < 128 -> char_val b = b.
Proof. intros. unfold char_val. destruct (Z.leb_spec 128 b); [lia|]. by rewrite andb_false_r. Qed.

Lemma char_val_high b : 0 <= b < 256 -> char_val b = b \/ 128 <= b /\ char_val b < 0.
Proof. intros. unfold char_val. case_if; [|tauto]. bools. lia. Qed.

Lemma u8_char_val b : 0 <= b < 256 -> u8 (char_val b) = b.
Proof.
  intros. unfold char_val, u8. case_if; [|by apply Z.mod_small].
  replace (b - 256) with (b + (-1) * 256) by lia. rewrite Z.mod_add by lia. by apply Z.mod_small.
Qed.

Lemma digit_of_char b : 0 <= b < 256 -> digit_of (char_val b) = digit_of b.
Proof.
  intros Hb. destruct (char_val_high b Hb) as [->|[Hh Hn]]; [done|]. unfold digit_of. repeat case_if; bools; try lia; done.
Qed.

Lemma head0_range l : Forall (fun b => 0 < b < 256) l -> 0 <= head0 l < 256.
Proof. destruct 1; simpl; lia. Qed.

Lemma loadc_head p l : cstring m p l -> loadc m p = Some (char_val (head0 l)).
Proof. intros Hl. unfold loadc, load8. by rewrite (cstring_head m p l Hl). Qed.

(** ** [strtol] *)

(** Within the limit the guard against overflow never fires. *)
Lemma cutoff_ok limit base acc d :
  2 <= base -> 0 <= acc -> 0 <= d < base -> acc * base + d <= limit ->
  (acc >? limit / base) || (acc =? limit / base) && (d >? limit mod base) = false.
Proof.
  intros Hb Ha Hd Hl. pose proof (Z.div_mod limit base ltac:(lia)) as E. pose proof (Z.mod_pos_bound limit base ltac:(lia)).
  assert (acc <= limit / base) by (apply Z.div_le_lower_bound; lia).
  destruct (Z.eqb_spec acc (limit / base)) as [->|]; simpl; [nia|lia].
Qed.

Lemma tol_loop_spec base limit : 2 <= base -> limit < two64 -> forall ds vs rest fuel p acc any,
  digits base ds vs -> cstring m p (ds ++ rest) -> no_digit base (head0 rest) ->
  0 <= acc -> value base acc vs <= limit -> 0 <= any -> (length ds < fuel)%nat ->
  tol_loop fuel m (p + 1) (char_val (head0 (ds ++ rest))) base (limit / base) (limit mod base) acc any =
    Some (p + zlen ds + 1, value base acc vs, if decide (ds = []) then any else 1).
Proof.
  intros Hb Hlim. induction ds as [|b ds IH]; intros vs rest [|fuel] p acc any Hd Hl Hs Ha Hv Hany Hf; simpl in Hf; try lia;
    rewrite ?app_nil_l, <- ?app_comm_cons in *; cbn [tol_loop head0]; inversion Hd as [|? v ? vs' [Hbv Hvb] Hd']; subst.
  - pose proof (head0_range rest (cstring_chars _ _ _ Hl)) as Hr. rewrite digit_of_char by done. unfold no_digit in Hs.
    change (zlen (@nil Z)) with 0. rewrite Z.add_0_r. destruct (digit_of (head0 rest)) as [d|]; [|done].
    by replace (d >=? base) with true by lia.
  - pose proof (digit_of_range _ _ Hbv) as [Hbr Hvr]. rewrite digit_of_char, Hbv by lia.
    replace (v >=? base) with false by lia. replace (any <? 0) with false by lia. cbn [orb].
    pose proof (digits_nonneg _ _ _ Hd') as Hnn. unfold value in Hv. cbn [foldl] in Hv. fold (value base (acc * base + v) vs') in Hv.
    pose proof (value_mono base vs' (acc * base + v) Hb ltac:(nia) Hnn).
    rewrite cutoff_ok by lia. cbv iota beta. rewrite u64_id, u64_id by (try rewrite u64_id; nia).
    apply cstring_cons in Hl as (_ & _ & Hl). rewrite (loadc_head _ _ Hl). cbn [mbind option_bind].
    rewrite (IH vs' rest fuel (p + 1) (acc * base + v) 1) by (try done; try lia; nia). rewrite zlen_cons.
    f_equal. f_equal; [|by repeat case_decide]. f_equal. lia.
Qed.

Lemma skip_space_spec : forall sp l fuel p,
  Forall (fun b => isspace b = true) sp -> cstring m p (sp ++ l) -> isspace (head0 l) = false -> (length sp < fuel)%nat ->
  skip_space fuel m p = Some (char_val (head0 l), p + zlen sp + 1).
Proof.
  induction sp as [|b sp IH]; intros l [|fuel] p Hsp Hl Hn Hf; simpl in Hf; try lia; rewrite ?app_nil_l, <- ?app_comm_cons in *; cbn [skip_space] in *.
  - pose proof (head0_range l (cstring_chars _ _ _ Hl)) as Hr. rewrite (loadc_head _ _ Hl). cbn [mbind option_bind].
    rewrite u8_char_val, Hn by done. change (zlen (@nil Z)) with 0. do 2 f_equal. lia.
  - apply Forall_cons in Hsp as [Hb Hsp]. rewrite (loadc_head _ _ Hl). cbn [mbind option_bind head0].
    apply cstring_cons in Hl as (Hbr & _ & Hl). rewrite u8_char_val, Hb by lia.
    rewrite (IH l fuel (p + 1)) by (done || lia). rewrite zlen_cons. do 2 f_equal. lia.
Qed.

Lemma digit_no_space b v : digit_of b = Some v -> isspace b = false /\ b <> 43 /\ b <> 45.
Proof. intros Hd. apply digit_of_range in Hd as [Hb _]. unfold isspace. lia. Qed.

(** The optional sign. *)
Inductive sign : list Z -> bool -> Prop :=
  | sign_none : sign [] false
  | sign_plus : sign [43] false
  | sign_minus : sign [45] true.

Lemma neg_limit : u64 (u64 (- (LONG_MIN + LONG_MAX)) + LONG_MAX) = two63.
Proof. by vm_compute. Qed.

(** The limit of the magnitude: one more for negative numbers. *)
Definition magnitude (neg : bool) : Z := if neg then two63 else LONG_MAX.

Lemma strtol_spec p sp sg neg ds vs rest base :
  Forall (fun b => isspace b = true) sp -> sign sg neg -> ds <> [] -> digits base ds vs -> no_digit base (head0 rest) ->
  2 <= base <= 36 -> (base = 16 -> head0 ds <> 48) -> cstring m p (sp ++ sg ++ ds ++ rest) ->
  value base 0 vs <= magnitude neg ->
  strtol m p base = Some (if neg then - value base 0 vs else value base 0 vs, p + zlen (sp ++ sg ++ ds)).
Proof.
  intros Hsp Hsg Hne Hd Hs Hb Hx Hl Hv. unfold strtol.
  pose proof (cstring_fuel _ _ _ Hl) as Hf. rewrite !length_app in Hf.
  assert (exists b ds', ds = b :: ds') as (b & ds' & Eds) by (destruct ds; [done|eauto]).
  assert (exists v, digit_of b = Some v /\ v < base) as (v & Hbv & Hvb).
  { subst ds. inversion Hd; subst. eauto. }
  destruct (digit_no_space b v Hbv) as (Hbs & Hb43 & Hb45). destruct (digit_of_range b v Hbv) as [Hbr Hvr].
  rewrite (skip_space_spec sp (sg ++ ds ++ rest)); [|done|done| |lia].
  2:{ destruct Hsg; subst ds; done. }
  cbn [mbind option_bind]. pose proof Hl as Hl2. apply cstring_app in Hl2.
  assert (cstring m (p + zlen sp + zlen sg) (ds ++ rest)) as Hl3 by (by apply cstring_app).
  set (q := p + zlen sp + zlen sg) in *.
  assert (head0 (ds ++ rest) = b) as Eh by (by subst ds). 
  assert ((let c := char_val (head0 (sg ++ ds ++ rest)) in let s := p + zlen sp + 1 in
    (if c =? 45 then c ← loadc m s; Some (true, c, s + 1)
     else if c =? 43 then c ← loadc m s; Some (false, c, s + 1)
     else Some (false, c, s))) = Some (neg, b, q + 1)) as E.
  { unfold q in *. destruct Hsg; cbn [app head0 zlen length] in *.
    - rewrite Eh, char_val_ascii by lia. replace (b =? 45) with false by lia. replace (b =? 43) with false by lia.
      do 2 f_equal. unfold zlen; simpl; lia.
    - change (zlen [43]) with 1 in *. rewrite char_val_ascii by lia. cbn [Z.eqb Pos.eqb]. rewrite (loadc_head _ _ Hl3), Eh, char_val_ascii by lia. done.
    - change (zlen [45]) with 1 in *. rewrite char_val_ascii by lia. cbn [Z.eqb Pos.eqb]. rewrite (loadc_head _ _ Hl3), Eh, char_val_ascii by lia. done. }
  cbv zeta in E. rewrite E. clear E. cbn [mbind option_bind].
  replace (((base =? 0) || (base =? 16)) && (b =? 48)) with false.
  2:{ subst ds. simpl in Hx. destruct (Z.eqb_spec base 16), (Z.eqb_spec b 48), (Z.eqb_spec base 0); try done; tauto || lia. }
  cbn [mbind option_bind]. replace (base =? 0) with false by lia.
  replace ((base <? 2) || (base >? 36)) with false by lia. rewrite neg_limit.
  change (if neg then two63 else LONG_MAX) with (magnitude neg).
  replace b with (char_val (head0 (ds ++ rest))) by (by rewrite Eh, char_val_ascii by lia).
  assert (0 <= value base 0 vs) by (apply value_mono; [lia|lia|by eapply digits_nonneg]).
  rewrite (tol_loop_spec base (magnitude neg) ltac:(lia) ltac:(by destruct neg) ds vs rest) by (try done; lia).
  rewrite decide_False by done. cbn [mbind option_bind Z.eqb negb].
  rewrite !zlen_app. unfold magnitude in Hv. f_equal. f_equal; [|unfold q; lia].
  destruct neg; [|apply i64_id; unfold LONG_MAX in Hv; lia].
  unfold i64, u64. rewrite <- Z.add_mod_idemp_l by lia. rewrite Z.mod_mod, Z.add_mod_idemp_l by lia.
  rewrite Z.mod_small by lia. lia.
Qed.

(** ** [strtoul] *)

(** The digits of the bases up to 16 are the hexadecimal ones. *)
Lemma xdigit_value b : 0 <= b < 256 ->
  if isxdigit b then
    digit_of b = Some (if isdigit b then b - 48 else TOLOWER b - 97 + 10) /\
    0 <= (if isdigit b then b - 48 else TOLOWER b - 97 + 10) < 16
  else match digit_of b with Some d => 16 <= d | None => True end.
Proof.
  intros Hb.
  assert (forallb (fun b => if isxdigit b then
      let v := if isdigit b then b - 48 else TOLOWER b - 97 + 10 in bool_decide (digit_of b = Some v /\ 0 <= v < 16)
    else match digit_of b with Some d => 16 <=? d | None => true end) (seqZ 0 256) = true) as H0 by by vm_compute.
  rewrite forallb_forall in H0. specialize (H0 b ltac:(apply list_elem_of_In, elem_of_seqZ; lia)). cbv beta zeta in H0.
  destruct (isxdigit b); [by apply bool_decide_eq_true in H0|]. destruct (digit_of b); [by apply Z.leb_le|done].
Qed.

Lemma isxdigit_char b : 0 <= b < 256 -> isxdigit (char_val b) = isxdigit b.
Proof.
  intros Hb. destruct (char_val_high b Hb) as [->|[Hh Hn]]; [done|]. unfold isxdigit. lia.
Qed.

Lemma value_mod base vs : forall acc, 0 <= base -> value base (u64 acc) vs mod two64 = value base acc vs mod two64.
Proof.
  induction vs as [|v vs IH]; intros acc Hb; [unfold value; simpl; by rewrite <- (Z.mod_mod acc) by lia|].
  unfold value in *. cbn [foldl]. rewrite <- (IH (u64 acc * base + v)), <- (IH (acc * base + v)) by done.
  do 2 f_equal. unfold u64. rewrite <- (Z.add_mod_idemp_l (acc mod _ * base)), Z.mul_mod_idemp_l, Z.add_mod_idemp_l by lia. done.
Qed.

Lemma toul_loop_spec base : 2 <= base <= 16 -> forall ds vs rest fuel p acc,
  digits base ds vs -> cstring m p (ds ++ rest) -> no_digit base (head0 rest) -> 0 <= acc < two64 -> (length ds < fuel)%nat ->
  toul_loop fuel m p base acc = Some (p + zlen ds, value base acc vs mod two64).
Proof.
  intros Hb. induction ds as [|b ds IH]; intros vs rest [|fuel] p acc Hd Hl Hs Ha Hf; simpl in Hf; try lia;
    rewrite ?app_nil_l, <- ?app_comm_cons in *; cbn [toul_loop]; rewrite (loadc_head _ _ Hl); cbn [mbind option_bind head0];
    inversion Hd as [|? v ? vs' [Hbv Hvb] Hd']; subst.
  - pose proof (head0_range rest (cstring_chars _ _ _ Hl)) as Hr. rewrite isxdigit_char by done.
    change (zlen (@nil Z)) with 0. rewrite Z.add_0_r. unfold value. cbn [foldl]. rewrite (Z.mod_small acc) by lia.
    pose proof (xdigit_value _ Hr) as Hx. unfold no_digit in Hs. destruct (isxdigit (head0 rest)) eqn:Ex; [|done].
    assert (char_val (head0 rest) = head0 rest) as ->.
    { destruct (char_val_high _ Hr) as [|[? ?]]; [done|]. unfold isxdigit in Ex. lia. }
    destruct Hx as [Hd1 Hd2]. rewrite Hd1 in Hs. rewrite u64_id, (u64_id base) by lia.
    case_if; [lia|done].
  - pose proof (digit_of_range _ _ Hbv) as [Hbr Hvr]. rewrite char_val_ascii by lia.
    pose proof (xdigit_value b ltac:(lia)) as Hx. destruct (isxdigit b) eqn:Ex; [|rewrite Hbv in Hx; lia].
    destruct Hx as [Hd1 Hd2]. rewrite Hbv in Hd1. injection Hd1 as <-. rewrite (u64_id v), (u64_id base) by lia.
    replace (v <? base) with true by lia. apply cstring_cons in Hl as (_ & _ & Hl).
    rewrite (IH vs' rest fuel (p + 1)) by (done || lia || apply u64_bound). rewrite zlen_cons. f_equal. f_equal; [lia|].
    rewrite value_mod by lia. unfold value. cbn [foldl]. fold (value base (acc * base + v) vs').
    fold (value base (u64 (acc * base) + v) vs'). rewrite <- value_mod, <- (value_mod _ _ (acc * base + v)) by lia.
    do 2 f_equal. unfold u64. by rewrite Z.add_mod_idemp_l by lia.
Qed.

(** [strtoul] reduces modulo 2^64 without any notice. *)
Lemma strtoul_spec p ds vs rest base :
  digits base ds vs -> no_digit base (head0 rest) -> 2 <= base <= 16 -> (base = 16 -> head0 (ds ++ rest) <> 48) ->
  cstring m p (ds ++ rest) ->
  strtoul m p base = Some (value base 0 vs mod two64, p + zlen ds).
Proof.
  intros Hd Hs Hb Hx Hl. unfold strtoul. pose proof (cstring_fuel _ _ _ Hl) as Hf. rewrite length_app in Hf.
  pose proof (head0_range _ (cstring_chars _ _ _ Hl)) as Hr.
  replace (base =? 0) with false by lia. rewrite (loadc_head _ _ Hl). cbn [mbind option_bind].
  assert (forall A (x y : A), (if base =? 16 then if char_val (head0 (ds ++ rest)) =? 48 then x else y else y) = y) as E.
  { intros A x y. destruct (Z.eqb_spec base 16); [|done]. destruct (char_val_high _ Hr) as [->|?];
      case_if; try done; lia. }
  rewrite E. cbn [mbind option_bind]. rewrite (toul_loop_spec base Hb ds vs rest) by (done || lia). done.
Qed.

(** ** [atoi] *)

(** The first loop stops only at white space, which is no digit and no sign. *)
Lemma atoi_skip_stop : forall fuel p q,
  atoi_skip fuel m p = Some q -> exists c, loadc m q = Some c /\ isspace c = true.
Proof.
  induction fuel as [|fuel IH]; intros p q; cbn [atoi_skip]; [done|].
  destruct (loadc m p) as [c|] eqn:Ec; cbn [mbind option_bind]; [|done].
  destruct (isspace c) eqn:Es; cbn [negb]; [|apply IH]. intros [= <-]. eauto.
Qed.

Lemma atoi_zero p r : atoi m p = Some r -> r = 0.
Proof.
  unfold atoi. destruct (Z.eqb_spec p 0); [by intros [= <-]|].
  destruct (atoi_skip _ m p) as [q|] eqn:Eq; cbn [mbind option_bind]; [|done].
  destruct (atoi_skip_stop _ _ _ Eq) as (c & Hc & Hs). rewrite Hc. cbn [mbind option_bind].
  assert (c <> 45 /\ c <> 43 /\ (c < 48)) as (H1 & H2 & H3) by (unfold isspace in Hs; lia).
  replace (c =? 45) with false by lia. replace (c =? 43) with false by lia. cbn [orb atoi_digits].
  rewrite Hc. cbn [mbind option_bind]. replace (48 <=? c) with false by lia. cbn [andb mbind option_bind].
  intros E. by injection E as <-.
Qed.

(** A string without white space is left behind. *)
Lemma atoi_skip_past : forall l fuel p,
  cstring m p l -> Forall (fun b => isspace (char_val b) = false) l -> m !! (p + zlen l + 1) = None ->
  atoi_skip fuel m p = None.
Proof.
  induction l as [|b l IH]; intros [|fuel] p Hl Hs Hn; cbn [atoi_skip]; try done; rewrite (loadc_head _ _ Hl); cbn [mbind option_bind head0].
  - change (zlen (@nil Z)) with 0 in Hn. rewrite Z.add_0_r in Hn. rewrite char_val_ascii by lia. cbn.
    destruct fuel; [done|]. cbn [atoi_skip]. unfold loadc, load8. by rewrite Hn.
  - apply Forall_cons in Hs as [Hb Hs]. rewrite Hb. cbn [negb]. apply cstring_cons in Hl as (_ & _ & Hl).
    apply IH; [done..|]. rewrite <- Hn, zlen_cons. f_equal. lia.
Qed.

End NumSpec.
