(* ===== verification/KHeap.v ===== *)
(** * Heap strings ([src/src/util/krlibc.c])

    The string routines that allocate: [strdup], [strndup], [get_parent_path]
    and [normalize_path]. On x86-64 [malloc] and [free] come from a library
    that is not part of the repository, so they are an interface here: the
    operations in [Allocator], what the routines rely on in [AllocatorLaws]. *)

From stdpp Require Import gmap.
From S2P Require Import Prelude KMem KString KStr KStrSpec.

(** ** The allocator's interface *)

Class Allocator : Type := {
  heap : Type;
  hmem : heap -> mem;              (* the bytes that can be accessed *)
  hset : heap -> mem -> heap;      (* the same heap with other contents *)
  owns : heap -> Z -> Z -> Prop;   (* a live block and its size *)
  usable : Z -> Z;                 (* the bytes a block of this size has *)
  malloc : heap -> Z -> heap * Z;  (* 0 for NULL *)
  free : heap -> Z -> heap;
}.

Class AllocatorLaws (A : Allocator) : Prop := {
  hmem_hset : forall h m, hmem (hset h m) = m;
  owns_hset : forall h m p n, owns h p n -> owns (hset h m) p n;
  usable_le : forall n, 0 <= n -> n <= usable n;
  usable_words : forall n, usable n mod 8 = 0;
  malloc_null : forall h n h', malloc h n = (h', 0) -> h' = h;
  malloc_block : forall h n h' p, malloc h n = (h', p) -> p <> 0 ->
    0 < p /\ p mod 8 = 0 /\ owns h' p n /\
    (forall x, p <= x < p + usable n -> hmem h !! x = None /\ exists b, 0 <= b < 256 /\ hmem h' !! x = Some b) /\
    (forall x, x < p \/ p + usable n <= x -> hmem h' !! x = hmem h !! x) /\
    (forall q k, owns h q k -> owns h' q k);
  free_block : forall h p n, owns h p n ->
    (forall x, x < p \/ p + usable n <= x -> hmem (free h p) !! x = hmem h !! x) /\
    (forall q k, q <> p -> owns h q k -> owns (free h p) q k);
}.

(** A block that was just handed out: where it lies, and that it is new. *)
Record fresh_block `{Allocator} (m m' : mem) (p n : Z) : Prop := {
  fb_pos : 0 < p;
  fb_align : p mod 8 = 0;
  fb_size : n <= usable n;
  fb_new : forall x, p <= x < p + usable n -> m !! x = None;
  fb_mapped : mapped m' p (usable n);
  fb_bytes : bytes_ok m -> bytes_ok m';
  fb_old : forall x, is_Some (m !! x) -> m' !! x = m !! x;
}.

Lemma malloc_fresh `{AllocatorLaws} h n h' p :
  0 <= n -> malloc h n = (h', p) -> p <> 0 -> fresh_block (hmem h) (hmem h') p n.
Proof.
  intros Hn E Hp. destruct (malloc_block h n h' p E Hp) as (H1 & H2 & _ & Hin & Hout & _).
  split; [done|done|by apply usable_le|apply Hin| | |].
  - intros x Hx. destruct (Hin x Hx) as (_ & b & _ & ->). done.
  - intros Hb x b Hx. destruct (decide (p <= x < p + usable n)) as [Hi|Hi].
    + destruct (Hin x Hi) as (_ & c & Hc & E'). rewrite E' in Hx. by injection Hx as <-.
    + rewrite Hout in Hx by lia. by eapply Hb.
  - intros x [b Hx]. destruct (decide (p <= x < p + usable n)) as [Hi|Hi].
    + destruct (Hin x Hi) as [E' _]. congruence.
    + apply Hout. lia.
Qed.

(** A string that [strlen] may read: the aligned words it reaches exist. *)
Definition rstring (m : mem) (p : Z) (l : list Z) : Prop :=
  cstring m p l /\ forall a, a mod 8 = 0 -> p <= a <= p + zlen l -> mapped m a 8.

(** Any string inside a block is one. *)
Lemma block_words p u a : p mod 8 = 0 -> u mod 8 = 0 -> a mod 8 = 0 -> p <= a < p + u -> a + 8 <= p + u.
Proof.
  intros Hp Hu Ha Hr. pose proof (Z.div_mod p 8). pose proof (Z.div_mod u 8). pose proof (Z.div_mod a 8). lia.
Qed.

Lemma block_rstring `{AllocatorLaws} m p n q l :
  p mod 8 = 0 -> mapped m p (usable n) -> p <= q -> q + zlen l < p + usable n -> cstring m q l -> rstring m q l.
Proof.
  intros Hp Hm Hq Hl Hs. split; [done|]. intros a Ha Hr.
  assert (a + 8 <= p + usable n) by (apply block_words; [done|apply usable_words|done|lia]).
  eapply mapped_sub; [exact Hm|lia|lia].
Qed.

(** ** [strdup], [strndup] *)

Section Dup.
Context `{Allocator}.

(** NULL for NULL. The result of [malloc] is used without a test. *)
Definition strdup (h : heap) (str : Z) : option (heap * Z) :=
  if str =? 0 then Some (h, 0)
  else
    fin ← len_bytes (S (size (hmem h))) (hmem h) str;
    let len := fin - str in
    let '(h, ret) := malloc h (len + 1) in
    m ← cat_loop (S (size (hmem h))) (hmem h) ret str;
    Some (hset h m, ret).

Fixpoint ndup_loop (k : nat) (m : mem) (new_str s i : Z) : option mem :=
  match k with
  | O => Some m
  | S k => b ← load8 m (s + i); m ← store8 m (new_str + i) b; ndup_loop k m new_str s (i + 1)
  end.

Definition strndup (h : heap) (s n : Z) : option (heap * Z) :=
  if s =? 0 then Some (h, 0)
  else
    len ← strlen (hmem h) s;
    let actual_len := if n <? len then n else len in
    let '(h, new_str) := malloc h (actual_len + 1) in
    if new_str =? 0 then Some (h, 0)
    else
      m ← ndup_loop (Z.to_nat actual_len) (hmem h) new_str s 0;
      m ← store8 m (new_str + actual_len) 0;
      Some (hset h m, new_str).

End Dup.

(** ** Paths *)

Section Path.
Context `{CharAbi} `{Allocator}.
(* the addresses of the literals "/", ".", ".." *)
Context (slash dot dotdot : Z).

(** The directory part of a path. *)
Definition get_parent_path (h : heap) (path : Z) : option (heap * Z) :=
  empty ← (if path =? 0 then Some true else b ← load8 (hmem h) path; Some (b =? 0));
  if empty : bool then strdup h dot
  else
    '(h, copy) ← strdup h path;
    if copy =? 0 then Some (h, 0)
    else
      last_slash ← strrchr (hmem h) copy 47;
      if negb (last_slash =? 0) && negb (last_slash =? copy) then
        m ← store8 (hmem h) last_slash 0; Some (hset h m, copy)
      else if last_slash =? copy then
        m ← store8 (hmem h) (copy + 1) 0; Some (hset h m, copy)
      else strdup (free h copy) dot.

(** The body of the loop of [normalize_path] for one token. *)
Definition norm_token (m : mem) (result token : Z) : option mem :=
  c ← strcmp m token dot;
  if c =? 0 then Some m
  else
    c ← strcmp m token dotdot;
    if c =? 0 then
      last_slash ← strrchr m result 47;
      if negb (last_slash =? result) then store8 m last_slash 0 else store8 m (result + 1) 0
    else
      n ← strlen m result;
      b ← load8 m (result + n - 1);
      m ← (if negb (b =? 47) then strcat m result slash else Some m);
      strcat m result token.

(** [while (token)]: the memory and the static variable of [strtok]. *)
Fixpoint norm_loop (fuel : nat) (m : mem) (last token result : Z) : option (mem * Z) :=
  match fuel with
  | O => None
  | S fuel =>
      if token =? 0 then Some (m, last)
      else
        m ← norm_token m result token;
        '(m, last, token) ← strtok m last 0 slash;
        norm_loop fuel m last token result
  end.

(** The heap, the static variable and the path returned, 0 for NULL. *)
Definition normalize_path (h : heap) (last path : Z) : option (heap * Z * Z) :=
  if path =? 0 then Some (h, last, 0)
  else
    len ← strlen (hmem h) path;
    let '(h, result) := malloc h (len + 1) in
    if result =? 0 then Some (h, last, 0)
    else
      '(h, dup) ← strdup h path;
      if dup =? 0 then Some (free h result, last, 0)
      else
        '(m, _) ← strcpy (hmem h) result slash;
        c ← strcmp m path slash;
        if c =? 0 then Some (free (hset h m) dup, last, result)
        else
          b ← load8 m dup;
          let start := if b =? 47 then dup + 1 else dup in
          '(m, last, token) ← strtok m last start slash;
          '(m, last) ← norm_loop (S (size m)) m last token result;
          Some (free (hset h m) dup, last, result).

End Path.

(** ** Duplicates *)

Section DupSpec.
Context `{AllocatorLaws}.

Lemma fresh_cstring m m' p n q l : fresh_block m m' p n -> cstring m q l -> cstring m' q l.
Proof.
  intros Hf Hl. eapply cstring_frame; [exact Hl|]. intros x Hx. apply (fb_old _ _ _ _ Hf).
  apply (cstring_mapped _ _ _ Hl). lia.
Qed.

(** What was mapped before lies outside the new block. *)
Lemma fresh_apart m m' p n q k :
  fresh_block m m' p n -> mapped m q k -> 0 < k -> 0 < n -> q + k <= p \/ p + usable n <= q.
Proof.
  intros Hf Hm Hk Hn. pose proof (fb_size _ _ _ _ Hf).
  destruct (decide (q + k <= p)); [by left|]. destruct (decide (p + usable n <= q)); [by right|]. exfalso.
  set (x := Z.max p q). destruct (Hm x) as [b Hb]; [lia|].
  pose proof (fb_new _ _ _ _ Hf x). rewrite Hb in *. assert (Some b = None) by (apply H1; lia). done.
Qed.

Lemma strdup_spec h str l :
  0 < str -> cstring (hmem h) str l -> forall h' ret, malloc h (zlen l + 1) = (h', ret) -> ret <> 0 ->
  exists m', strdup h str = Some (hset h' m', ret) /\ written (hmem h') m' ret (l ++ [0]) /\ cstring m' ret l /\
    fresh_block (hmem h) (hmem h') ret (zlen l + 1).
Proof.
  intros Hs Hl h' ret Em Hret. unfold strdup. replace (str =? 0) with false by lia. pose proof (zlen_nonneg l).
  rewrite (len_bytes_cstring _ l) by eauto using cstring_fuel. cbn [mbind option_bind].
  replace (str + zlen l - str) with (zlen l) by lia. rewrite Em.
  assert (fresh_block (hmem h) (hmem h') ret (zlen l + 1)) as Hf by (apply malloc_fresh; [lia|done|done]).
  destruct (cat_loop_spec l (S (size (hmem h'))) (hmem h') ret str) as (m' & -> & Hw).
  - by eapply fresh_cstring.
  - eapply mapped_sub; [exact (fb_mapped _ _ _ _ Hf)|lia|]. pose proof (fb_size _ _ _ _ Hf). lia.
  - pose proof (fresh_apart _ _ _ _ _ _ Hf (cstring_mapped _ _ _ Hl)). pose proof (fb_size _ _ _ _ Hf). unfold apart. lia.
  - eapply cstring_fuel, fresh_cstring; eauto.
  - exists m'. cbn [mbind option_bind]. split_and!; [done|done| |done].
    eapply written_cstring; [|exact Hw]. by eapply cstring_chars.
Qed.

(** Out of memory, the copy starts at address 0. *)
Lemma strdup_oom h str l :
  0 < str -> cstring (hmem h) str l -> forall h', malloc h (zlen l + 1) = (h', 0) -> hmem h !! 0 = None -> strdup h str = None.
Proof.
  intros Hs Hl h' Em H0'. unfold strdup. replace (str =? 0) with false by lia.
  rewrite (len_bytes_cstring _ l) by eauto using cstring_fuel. cbn [mbind option_bind].
  replace (str + zlen l - str) with (zlen l) by lia. rewrite Em. pose proof (malloc_null _ _ _ Em) as ->.
  cbn [cat_loop]. unfold load8, store8. rewrite H0'.
  assert (is_Some (hmem h !! str)) as [b ->] by (apply (cstring_mapped _ _ _ Hl); pose proof (zlen_nonneg l); lia). done.
Qed.

End DupSpec.
