(* ===== verification/KPath.v ===== *)
(** * Path normalisation

    [normalize_path] of [KHeap] against a stack of path components. *)

From stdpp Require Import gmap.
From S2P Require Import Prelude KMem KString KStr KStrSpec KHeap.

(** ** The abstract operation *)

(** One component: "." is dropped, ".." removes the last one. *)
Definition norm_step (st : list (list Z)) (t : list Z) : list (list Z) :=
  if bool_decide (t = [46]) then st
  else if bool_decide (t = [46; 46]) then removelast st
  else st ++ [t].

Definition norm (st ts : list (list Z)) : list (list Z) := foldl norm_step st ts.

(** Each component behind a slash. *)
Definition slashed (st : list (list Z)) : list Z := concat ((fun t => 47 :: t) <$> st).

Definition render (st : list (list Z)) : list Z := match st with [] => [47] | _ => slashed st end.

(** A component: not empty and without a slash. *)
Definition comp (t : list Z) : Prop := t <> [] /\ 47 ∉ t.

Lemma slashed_app st t : slashed (st ++ [t]) = slashed st ++ 47 :: t.
Proof. unfold slashed. rewrite fmap_app, concat_app. simpl. by rewrite app_nil_r. Qed.

Lemma render_app st t : render (st ++ [t]) = slashed st ++ 47 :: t.
Proof. destruct st as [|u st]; [exact (slashed_app [] t)|exact (slashed_app (u :: st) t)]. Qed.

Lemma removelast_snoc {A} (l : list A) x : removelast (l ++ [x]) = l.
Proof. rewrite removelast_app by done. simpl. apply app_nil_r. Qed.

Lemma norm_step_comp st t : Forall comp st -> comp t -> Forall comp (norm_step st t).
Proof.
  intros Hst Ht. unfold norm_step. repeat case_if; [done| |by apply Forall_app; split; [|constructor]].
  destruct (list_snoc st) as [->|(k & x & ->)]; [done|]. rewrite removelast_snoc. by apply Forall_app in Hst as [? _].
Qed.

(** ** Lengths *)

Definition weight (ts : list (list Z)) : Z := zlen (slashed ts).

Lemma weight_cons t ts : weight (t :: ts) = 1 + zlen t + weight ts.
Proof.
  unfold weight. change (slashed (t :: ts)) with ((47 :: t) ++ slashed ts). rewrite zlen_app, zlen_cons. lia.
Qed.

Lemma weight_app ts t : weight (ts ++ [t]) = weight ts + 1 + zlen t.
Proof. unfold weight. rewrite slashed_app, zlen_app, zlen_cons. lia. Qed.

Lemma weight_step st t : weight (norm_step st t) <= weight st + 1 + zlen t.
Proof.
  pose proof (zlen_nonneg t). unfold norm_step. repeat case_if; [lia| |rewrite weight_app; lia].
  destruct (list_snoc st) as [->|(k & x & ->)]; [cbn [removelast]; lia|]. rewrite removelast_snoc, weight_app. pose proof (zlen_nonneg x). lia.
Qed.

(** The components of a string with their slashes are no longer than the
    string behind one slash. *)
Lemma tokens_weight f : forall n l, (length l < n)%nat -> weight (tokens f l) <= 1 + zlen l.
Proof.
  induction n as [|n IH]; intros l Hn; [lia|]. rewrite tokens_step. pose proof (zlen_nonneg l).
  pose proof (f_equal zlen (take_drop_while f l)) as E1. rewrite zlen_app in E1. pose proof (zlen_nonneg (take_while f l)).
  destruct (drop_while f l) as [|b r]; [unfold weight; simpl; change (zlen (slashed [])) with 0; lia|].
  pose proof (f_equal zlen (take_drop_while (fun x => negb (f x)) (b :: r))) as E2. rewrite zlen_app in E2.
  rewrite weight_cons. pose proof (zlen_nonneg (take_while (fun x => negb (f x)) (b :: r))).
  destruct (drop_while _ (b :: r)) as [|c r'].
  - change (weight []) with 0. change (zlen (@nil Z)) with 0 in E2. lia.
  - rewrite (zlen_cons c) in E2. specialize (IH r'). unfold zlen in *. lia.
Qed.

Lemma take_while_forall g l : Forall (fun x => g x = true) (take_while g l).
Proof. induction l as [|x l IH]; simpl; [constructor|]. case_if; constructor; done. Qed.

Lemma tokens_comp f : (f 47 = true) -> forall n l, (length l < n)%nat -> Forall comp (tokens f l).
Proof.
  intros Hf. induction n as [|n IH]; intros l Hn; [lia|]. rewrite tokens_step.
  pose proof (f_equal zlen (take_drop_while f l)) as E1. rewrite zlen_app in E1. pose proof (zlen_nonneg (take_while f l)).
  destruct (drop_while f l) as [|b r] eqn:Ed; [constructor|]. apply drop_while_head in Ed.
  pose proof (f_equal zlen (take_drop_while (fun x => negb (f x)) (b :: r))) as E2. rewrite zlen_app in E2.
  pose proof (zlen_nonneg (take_while (fun x => negb (f x)) (b :: r))). constructor.
  - split; [simpl; by rewrite Ed|]. intros Hin.
    pose proof (take_while_forall (fun x => negb (f x)) (b :: r)) as HF. rewrite Forall_forall in HF.
    specialize (HF _ Hin). simpl in HF. by rewrite Hf in HF.
  - destruct (drop_while (fun x => negb (f x)) (b :: r)) as [|c r']; [constructor|].
    apply IH. rewrite (zlen_cons c) in E2. unfold zlen in *. lia.
Qed.

Lemma weight_length ts : Forall comp ts -> 2 * zlen ts <= weight ts.
Proof.
  induction 1 as [|t ts [Ht _] _ IH]; [done|]. rewrite weight_cons, zlen_cons.
  destruct t as [|b t]; [done|]. rewrite zlen_cons. pose proof (zlen_nonneg t). lia.
Qed.

Lemma weight_norm ts : forall st, weight (norm st ts) <= weight st + weight ts.
Proof.
  induction ts as [|t ts IH]; intros st; [change (weight []) with 0; simpl; lia|]. rewrite weight_cons.
  pose proof (IH (norm_step st t)). pose proof (weight_step st t). unfold norm in *. cbn [foldl]. lia.
Qed.

Lemma render_norm n ts : 1 < n -> weight ts < n -> zlen (render (norm [] ts)) < n.
Proof.
  intros Hn Hw. pose proof (weight_norm ts []) as H. change (weight []) with 0 in H. unfold weight, render in *.
  destruct (norm [] ts); [change (zlen [47]) with 1|]; lia.
Qed.

(** The last slash. *)
Lemma last_of_none c l : c ∉ l -> last_of c l = None.
Proof.
  intros Hn. pose proof (last_of_spec c l) as H. destruct (last_of c l); [|done]. destruct H as [H _].
  by apply zget_elem in H.
Qed.

Lemma last_of_app c k t : c ∉ t -> last_of c (k ++ c :: t) = Some (zlen k).
Proof.
  intros Ht. induction k as [|x k IH]; simpl.
  - by rewrite last_of_none, Z.eqb_refl.
  - rewrite IH, zlen_cons. done.
Qed.

(** ** One token *)

Section NormToken.
Context `{CharAbi} `{AllocatorLaws}.
Context (slash dot dotdot result N : Z).
(* the block of the result *)
Context (Hpos : 0 < result) (Halign : result mod 8 = 0) (HN : N <= usable N).

(** A string outside the block. *)
Definition away (p : Z) (l : list Z) : Prop := p + zlen l + 1 <= result \/ result + usable N <= p.

(** The memory the loop works on: the literals and the result. *)
Record norm_mem (m : mem) (st : list (list Z)) : Prop := {
  nm_bytes : bytes_ok m;
  nm_slash : cstring m slash [47] /\ away slash [47];
  nm_dot : cstring m dot [46] /\ away dot [46];
  nm_dotdot : cstring m dotdot [46; 46] /\ away dotdot [46; 46];
  nm_block : mapped m result (usable N);
  nm_result : cstring m result (render st);
  nm_comp : Forall comp st;
}.

Definition same_outside (m m' : mem) : Prop := forall x, x < result \/ result + usable N <= x -> m' !! x = m !! x.

Lemma away_frame m m' p l : same_outside m m' -> away p l -> cstring m p l -> cstring m' p l.
Proof. intros Hs Ha Hl. eapply cstring_frame; [exact Hl|]. intros x Hx. apply Hs. unfold away in Ha. lia. Qed.

(** A step that only writes bytes into the block keeps the rest. *)
Lemma norm_mem_step m m' st st' :
  norm_mem m st -> same_outside m m' -> bytes_ok m' -> mapped m' result (usable N) -> cstring m' result (render st') ->
  Forall comp st' -> norm_mem m' st'.
Proof. intros [? [] [] [] ? ? ?] Hs Hb Hm Hr Hc. split; eauto using away_frame. Qed.

Lemma store_inside m a v m' :
  patched m m' (fun x => x =? a) (fun _ => Some (u8 v)) -> result <= a < result + usable N ->
  bytes_ok m -> mapped m result (usable N) -> same_outside m m' /\ bytes_ok m' /\ mapped m' result (usable N).
Proof.
  intros Hp Ha Hb Hm. split_and!.
  - intros x Hx. rewrite Hp. replace (x =? a) with false by lia. done.
  - eapply bytes_ok_patched; [exact Hp| |done]. intros x b _ [= <-]. apply u8_bound.
  - eapply mapped_patched; [exact Hp|done|done].
Qed.

Lemma written_inside m m' a bs :
  written m m' a bs -> result <= a -> a + zlen bs <= result + usable N -> Forall (fun b => 0 <= b < 256) bs ->
  bytes_ok m -> mapped m result (usable N) -> same_outside m m' /\ bytes_ok m' /\ mapped m' result (usable N).
Proof.
  intros Hw Ha Hl HF Hb Hm. split_and!.
  - intros x Hx. eapply written_frame; [exact Hw|]. lia.
  - eapply bytes_ok_patched; [exact Hw| |done]. intros x b _ Hx. by eapply Forall_zget in Hx; [|exact HF].
  - by eapply written_mapped.
Qed.

Lemma chars_bytes l : Forall (fun b => 0 < b < 256) l -> Forall (fun b => 0 <= b < 256) (l ++ [0]).
Proof. intros HF. apply Forall_app. split; [|repeat constructor; lia]. eapply Forall_impl; [exact HF|]. simpl. lia. Qed.

(** [strcat] to the result. *)
Lemma cat_result m l p t :
  bytes_ok m -> mapped m result (usable N) -> cstring m result l -> cstring m p t -> away p t ->
  zlen l + zlen t < N ->
  exists m', strcat m result p = Some m' /\ same_outside m m' /\ bytes_ok m' /\ mapped m' result (usable N) /\
    cstring m' result (l ++ t).
Proof.
  intros Hb Hm Hl Ht Ha Hlen. pose proof (zlen_nonneg l). pose proof (zlen_nonneg t). unfold away in Ha.
  destruct (strcat_spec m result p l t) as (m' & -> & Hw & Hs); [done|done|eapply mapped_sub; [exact Hm|lia|lia]|lia|].
  destruct (written_inside m m' (result + zlen l) (t ++ [0])) as (? & ? & ?); try done.
  - lia.
  - rewrite zlen_app. change (zlen [0]) with 1. lia.
  - apply chars_bytes. by eapply cstring_chars.
  - by exists m'.
Qed.

(** ".." *)
Lemma norm_up m st :
  norm_mem m st -> weight st < N -> 1 < N ->
  exists m', (last_slash ← strrchr m result 47;
              if negb (last_slash =? result) then store8 m last_slash 0 else store8 m (result + 1) 0) = Some m' /\
    same_outside m m' /\ norm_mem m' (removelast st).
Proof.
  intros Hm Hw HN1. pose proof (nm_result _ _ Hm) as Hr. pose proof (nm_bytes _ _ Hm) as Hby. pose proof (nm_block _ _ Hm) as Hbl.
  rewrite (strrchr_spec _ _ _ _ Hr). change (u8 47) with 47. cbn [Z.eqb mbind option_bind].
  destruct (list_snoc st) as [->|(k & t & ->)].
  - cbn [render removelast last_of at_offset Z.eqb Pos.eqb]. rewrite Z.add_0_r, Z.eqb_refl. cbn [negb].
    apply cstring_cons in Hr as (_ & H47 & Hz0%cstring_nil). destruct (store8_ok m (result + 1) 0) as (m' & -> & Hp); [by rewrite Hz0|].
    destruct (store_inside m _ _ m' Hp ltac:(lia) Hby Hbl) as (Hs & Hb' & Hm'). exists m'. split_and!; [done|done|].
    eapply norm_mem_step; eauto using Forall_nil. apply cstring_cons. rewrite cstring_nil, !Hp.
    replace (result =? result + 1) with false by lia. by rewrite Z.eqb_refl.
  - rewrite removelast_snoc, render_app. rewrite render_app in Hr. rewrite weight_app in Hw. unfold weight in Hw.
    pose proof (nm_comp _ _ Hm) as Hc. apply Forall_app in Hc as [Hk Ht]. apply Forall_singleton in Ht as [Hne H47].
    rewrite (last_of_app 47 _ _ H47). cbn [at_offset]. pose proof (zlen_nonneg (slashed k)). pose proof (zlen_nonneg t).
    pose proof (cstring_app _ _ _ _ Hr) as Hsl. apply cstring_cons in Hsl as (_ & Hsl & _).
    destruct k as [|t0 k].
    + change (slashed []) with (@nil Z) in *. change (zlen (@nil Z)) with 0. rewrite Z.add_0_r, Z.eqb_refl. cbn [negb].
      destruct t as [|c t]; [done|]. simpl in Hr. apply cstring_cons in Hr as (_ & H47' & Hr). apply cstring_cons in Hr as (_ & Hc1 & _).
      destruct (store8_ok m (result + 1) 0) as (m' & -> & Hp); [by rewrite Hc1|].
      destruct (store_inside m _ _ m' Hp ltac:(lia) Hby Hbl) as (Hs & Hb' & Hm'). exists m'. split_and!; [done|done|].
      eapply norm_mem_step; eauto. apply cstring_cons. rewrite cstring_nil, !Hp.
      replace (result =? result + 1) with false by lia. by rewrite Z.eqb_refl.
    + assert (0 < zlen (slashed (t0 :: k))) by (pose proof (weight_cons t0 k) as Ew; unfold weight in Ew; pose proof (zlen_nonneg t0); pose proof (zlen_nonneg (slashed k)); lia).
      replace (result + zlen (slashed (t0 :: k)) =? result) with false by lia. cbn [negb].
      destruct (cstring_cut _ _ _ _ _ Hr) as [Hcut _]. unfold store8. rewrite Hsl. cbn [mbind option_bind].
      eexists. split; [done|]. destruct (store_inside m (result + zlen (slashed (t0 :: k))) 0 (<[result + zlen (slashed (t0 :: k)) := 0]> m)) as (Hs & Hb' & Hm');
        [|lia|done|done|split; [done|eapply norm_mem_step; eauto]].
      intros x. destruct (Z.eqb_spec x (result + zlen (slashed (t0 :: k)))) as [->|]; [by rewrite lookup_insert_eq|by rewrite lookup_insert_ne].
Qed.

(** The last character of a rendered path is a slash only for the root. *)
Lemma render_last k t : comp t -> exists b, zget (render (k ++ [t])) (zlen (render (k ++ [t])) - 1) = Some b /\ b <> 47.
Proof.
  intros [Hne H47]. destruct (list_snoc t) as [->|(t' & b & ->)]; [done|]. exists b. rewrite render_app.
  replace (slashed k ++ 47 :: t' ++ [b]) with ((slashed k ++ 47 :: t') ++ [b]) by (by rewrite <- app_assoc).
  rewrite zlen_app, zget_app_r by (change (zlen [b]) with 1; lia). change (zlen [b]) with 1. split.
  - replace (zlen (slashed k ++ 47 :: t') + 1 - 1 - zlen (slashed k ++ 47 :: t')) with 0 by lia. done.
  - intros ->. apply H47. apply elem_of_app. right. by apply list_elem_of_singleton.
Qed.

(** A component is appended. *)
Lemma norm_down m st token t :
  norm_mem m st -> cstring m token t -> away token t -> comp t -> weight st + 1 + zlen t < N -> 1 < N ->
  exists m', (n ← strlen m result; b ← load8 m (result + n - 1);
              m ← (if negb (b =? 47) then strcat m result slash else Some m);
              strcat m result token) = Some m' /\
    same_outside m m' /\ norm_mem m' (st ++ [t]).
Proof.
  intros Hm Ht Ha Hc Hw HN1. pose proof (nm_result _ _ Hm) as Hr. pose proof (nm_bytes _ _ Hm) as Hby. pose proof (nm_block _ _ Hm) as Hbl.
  assert (Forall comp (st ++ [t])) as Hcc by (apply Forall_app; split; [apply (nm_comp _ _ Hm)|by constructor]).
  pose proof (zlen_nonneg t).
  assert (zlen (render st) < N) as Hlen.
  { unfold render. destruct st; [change (zlen [47]) with 1; lia|]. unfold weight in Hw. lia. }
  destruct (block_rstring m result N result (render st)) as [_ Hwords]; [done|done|lia|lia|done|].
  rewrite (strlen_spec m result (render st) Hby Hr Hwords). cbn [mbind option_bind].
  destruct (list_snoc st) as [->|(k & t0 & ->)].
  - cbn [render] in *. change (zlen [47]) with 1. replace (result + 1 - 1) with result by lia.
    pose proof Hr as (_ & H47 & _)%cstring_cons. unfold load8. rewrite H47. cbn [mbind option_bind Z.eqb Pos.eqb negb].
    change (weight []) with 0 in Hw.
    destruct (cat_result m [47] token t Hby Hbl Hr Ht Ha) as (m' & -> & Hs & Hb' & Hm' & Hr'); [change (zlen [47]) with 1; lia|].
    exists m'. split_and!; [done|done|]. eapply norm_mem_step; eauto. cbn [app render]. unfold slashed. simpl. rewrite app_nil_r. exact Hr'.
  - destruct (render_last k t0) as (b & Hb & Hb47).
    { pose proof (nm_comp _ _ Hm) as Hk. apply Forall_app in Hk as [_ Hk]. by inversion Hk. }
    pose proof Hr as (_ & Hg & _). pose proof (Hg _ _ Hb) as Hlb. rewrite Z.add_sub_assoc in Hlb. unfold load8. rewrite Hlb.
    cbn [mbind option_bind]. replace (b =? 47) with false by lia. cbn [negb]. destruct (nm_slash _ _ Hm) as [Hsl Hsa].
    rewrite render_app in Hr, Hlen. rewrite <- slashed_app in Hr, Hlen. unfold weight in Hw.
    destruct (cat_result m _ slash [47] Hby Hbl Hr Hsl Hsa) as (m1 & -> & Hs1 & Hb1 & Hm1 & Hr1); [change (zlen [47]) with 1; lia|].
    cbn [mbind option_bind].
    destruct (cat_result m1 _ token t Hb1 Hm1 Hr1 (away_frame _ _ _ _ Hs1 Ha Ht) Ha) as (m2 & -> & Hs2 & Hb2 & Hm2 & Hr2).
    { rewrite zlen_app. change (zlen [47]) with 1. lia. }
    exists m2. assert (same_outside m m2) by (intros x Hx; rewrite Hs2, Hs1 by done; done).
    split_and!; [done|done|]. eapply norm_mem_step; eauto. rewrite render_app. by rewrite <- app_assoc in Hr2.
Qed.

Lemma norm_token_spec m st token t :
  norm_mem m st -> cstring m token t -> away token t -> comp t -> weight st + 1 + zlen t < N -> 1 < N ->
  exists m', norm_token slash dot dotdot m result token = Some m' /\ same_outside m m' /\ norm_mem m' (norm_step st t).
Proof.
  intros Hm Ht Ha Hc Hw HN1. unfold norm_token, norm_step. destruct (nm_dot _ _ Hm) as [Hd _]. destruct (nm_dotdot _ _ Hm) as [Hdd _].
  pose proof (cstring_chars _ _ _ Ht) as Ft. pose proof (zlen_nonneg t).
  rewrite (strcmp_spec _ _ _ _ _ Ht Hd), (strcmp_spec _ _ _ _ _ Ht Hdd). cbn [mbind option_bind].
  pose proof (str_diff_zero t [46] Ft (cstring_chars _ _ _ Hd)) as E1.
  pose proof (str_diff_zero t [46; 46] Ft (cstring_chars _ _ _ Hdd)) as E2.
  destruct (Z.eqb_spec (str_diff t [46]) 0) as [Hz|Hz].
  { rewrite bool_decide_eq_true_2 by tauto. by exists m. }
  rewrite bool_decide_eq_false_2 by tauto. destruct (Z.eqb_spec (str_diff t [46; 46]) 0) as [Hz2|Hz2].
  - rewrite bool_decide_eq_true_2 by tauto. apply norm_up; [done|lia|done].
  - rewrite bool_decide_eq_false_2 by tauto. by apply norm_down.
Qed.

End NormToken.

(** ** The tokens of the copy *)

(** After a call of [strtok] on a string that ends at [hi]: the current token
    and the tokens that are left. *)
Inductive tok_state (f : Z -> bool) (m : mem) (lo hi : Z) : Z -> Z -> list (list Z) -> Prop :=
  | ts_end last : tok_state f m lo hi last 0 []
  | ts_last token t :
      lo <= token -> token + zlen t <= hi -> cstring m token t -> tok_state f m lo hi 0 token [t]
  | ts_more last token t l :
      lo <= token -> token + zlen t < last -> last + zlen l <= hi -> cstring m token t -> cstring m last l ->
      tok_state f m lo hi last token (t :: tokens f l).

Lemma tok_state_frame f m m' lo hi last token ts :
  (forall x, lo <= x <= hi -> m' !! x = m !! x) -> 0 < lo -> tok_state f m lo hi last token ts -> tok_state f m' lo hi last token ts.
Proof.
  intros Hs Hlo Ht. destruct Ht as [last|token t H1 H2 H3|last token t l H1 H2 H3 H4 H5].
  - constructor.
  - constructor; [done|done|]. eapply cstring_frame; [exact H3|]. intros x Hx. apply Hs. lia.
  - pose proof (zlen_nonneg t). pose proof (zlen_nonneg l).
    constructor; [done..| |]; (eapply cstring_frame; [eassumption|]); intros x Hx; apply Hs; lia.
Qed.

Lemma strtok_next ds delim m last str p l :
  0 < delim -> cstring m delim ds -> 0 < p -> p = (if negb (str =? 0) then str else last) -> cstring m p l ->
  exists m' last' token, strtok m last str delim = Some (m', last', token) /\
    tok_state (is_delim ds) m' p (p + zlen l) last' token (tokens (is_delim ds) l) /\
    (bytes_ok m -> bytes_ok m') /\ (forall x, is_Some (m !! x) -> is_Some (m' !! x)) /\
    forall x, x < p \/ p + zlen l <= x -> m' !! x = m !! x.
Proof.
  intros Hdp Hd Hp Ep Hl. rewrite (strtok_step ds m last str delim l p Hd Hdp Hp Ep Hl), tokens_step.
  pose proof (take_drop_while (is_delim ds) l) as E1. pose proof Hl as Hs. rewrite <- E1 in Hs. apply cstring_app in Hs.
  pose proof (f_equal zlen E1) as Z1. rewrite zlen_app in Z1.
  replace (zlen l - zlen (drop_while (is_delim ds) l)) with (zlen (take_while (is_delim ds) l)) by lia.
  set (start := p + zlen (take_while (is_delim ds) l)) in *. pose proof (zlen_nonneg (take_while (is_delim ds) l)).
  destruct (drop_while (is_delim ds) l) as [|b r]; [exists m, 0, 0; split_and!; try done; constructor|].
  pose proof (take_drop_while (fun b => negb (is_delim ds b)) (b :: r)) as E2.
  pose proof (f_equal zlen E2) as Z2. rewrite zlen_app in Z2. rewrite <- E2 in Hs.
  set (tok := take_while (fun b => negb (is_delim ds b)) (b :: r)) in *. pose proof (zlen_nonneg tok).
  destruct (drop_while (fun b => negb (is_delim ds b)) (b :: r)) as [|c r'] eqn:Er'.
  - change (zlen (@nil Z)) with 0 in Z2. exists m, 0, start. split_and!; try done. constructor; [lia|lia|by eapply cstring_split].
  - destruct (cstring_cut m start tok c r' Hs) as [Ht Hr]. rewrite (zlen_cons c) in Z2. pose proof (zlen_nonneg r').
    eexists _, _, _. split; [reflexivity|]. split; [constructor; try done; lia|]. split_and!.
    + intros Hb x v. destruct (decide (x = start + zlen tok)) as [->|]; [rewrite lookup_insert_eq; intros [= <-]; lia|].
      rewrite lookup_insert_ne by done. apply Hb.
    + intros x Hx. destruct (decide (x = start + zlen tok)) as [->|]; [by rewrite lookup_insert_eq|by rewrite lookup_insert_ne].
    + intros x Hx. rewrite lookup_insert_ne by lia. done.
Qed.

Section NormLoop.
Context `{CharAbi} `{AllocatorLaws}.
Context (slash dot dotdot result N lo hi : Z).
Context (Hpos : 0 < result) (Halign : result mod 8 = 0) (HN : N <= usable N) (HN1 : 1 < N).
Context (Hlo : 0 < lo) (Hslash : 0 < slash).

(** A string is clear of the copy. *)
Definition clear (p : Z) (l : list Z) : Prop := p + zlen l + 1 <= lo \/ hi < p.

Context (Hcopy : result + usable N <= lo \/ hi < result).
Context (Hsl : clear slash [47]) (Hdot : clear dot [46]) (Hdd : clear dotdot [46; 46]).

(** [strtok] only changes the copy. *)
Lemma norm_mem_tok m m' st :
  norm_mem slash dot dotdot result N m st -> (bytes_ok m -> bytes_ok m') -> (forall x, is_Some (m !! x) -> is_Some (m' !! x)) ->
  (forall x, x < lo \/ hi < x -> m' !! x = m !! x) -> hi + 1 <= result \/ result + zlen (render st) < lo ->
  norm_mem slash dot dotdot result N m' st.
Proof.
  intros [Hb [H1 H1'] [H2 H2'] [H3 H3'] Hbl Hr Hc] Hb' Hi Hs Hcl. unfold clear in *.
  split; try (split; [|done]); try (by eapply Hb'); try done.
  all: try (eapply cstring_frame; [eassumption|]; intros x Hx; apply Hs; lia).
  intros x Hx. apply Hi, Hbl, Hx.
Qed.

Lemma norm_loop_spec : forall ts fuel m st last token,
  norm_mem slash dot dotdot result N m st -> tok_state (is_delim [47]) m lo hi last token ts ->
  Forall comp ts -> weight st + weight ts < N -> (length ts < fuel)%nat ->
  exists m' last', norm_loop slash dot dotdot fuel m last token result = Some (m', last') /\
    norm_mem slash dot dotdot result N m' (norm st ts) /\
    forall x, (x < lo \/ hi < x) -> (x < result \/ result + usable N <= x) -> m' !! x = m !! x.
Proof.
  induction ts as [|t ts IH]; intros [|fuel] m st last token Hm Ht Hc Hw Hf; simpl in Hf; try lia; cbn [norm_loop].
  { inversion Ht; subst. by exists m, last. }
  apply Forall_cons in Hc as [Hct Hc]. rewrite weight_cons in Hw. pose proof (zlen_nonneg (slashed ts)) as Hwts. fold (weight ts) in Hwts.
  assert (cstring m token t /\ lo <= token /\ token + zlen t <= hi) as (Htok & Hl1 & Hl2).
  { inversion Ht; subst; split_and!; try done. pose proof (zlen_nonneg l). lia. }
  replace (token =? 0) with false by lia. pose proof (zlen_nonneg t).
  destruct (norm_token_spec slash dot dotdot result N Halign HN m st token t) as (m1 & -> & Hs1 & Hm1);
    [done|done|unfold away; lia|done|lia|done|]. cbn [mbind option_bind].
  assert (tok_state (is_delim [47]) m1 lo hi last token (t :: ts)) as Ht1.
  { eapply tok_state_frame; [|done|exact Ht]. intros x Hx. apply Hs1. lia. }
  pose proof (weight_step st t) as Hwst.
  assert (exists m2 last2 token2, strtok m1 last 0 slash = Some (m2, last2, token2) /\
      tok_state (is_delim [47]) m2 lo hi last2 token2 ts /\ (bytes_ok m1 -> bytes_ok m2) /\
      (forall x, is_Some (m1 !! x) -> is_Some (m2 !! x)) /\ (forall x, x < lo \/ hi < x -> m2 !! x = m1 !! x))
    as (m2 & last2 & token2 & -> & Ht2 & Hb2 & Hi2 & Hs2).
  { inversion Ht1; subst; [exists m1, 0, 0; split_and!; try done; constructor|].
    pose proof Hm1 as [_ [Hslm _] _ _ _ _ _].
    match goal with H : cstring m1 last ?l0 |- _ => destruct (strtok_next [47] slash m1 last 0 last l0) as (m2 & last2 & token2 & -> & Ht2 & Hb2 & Hi2 & Hs2); try done; [lia|]; pose proof (zlen_nonneg l0) end.
    exists m2, last2, token2. split_and!; try done; [|intros x Hx; apply Hs2; lia].
    destruct Ht2; constructor; try done; lia. }
  cbn [mbind option_bind].
  destruct (IH fuel m2 (norm_step st t) last2 token2) as (m' & last' & -> & Hm' & Hs'); [|done|done|lia|lia|].
  - eapply norm_mem_tok; [exact Hm1|done|done|done|].
    assert (zlen (render (norm_step st t)) < usable N).
    { revert Hwst. unfold render, weight in *. destruct (norm_step st t); [change (zlen [47]) with 1|]; lia. }
    lia.
  - exists m', last'. split_and!; [done|done|]. intros x Hx1 Hx2. rewrite Hs', Hs2, Hs1 by done. done.
Qed.

End NormLoop.

(** ** The whole routine *)

Section Normalize.
Context `{CharAbi} `{AllocatorLaws}.
Context (slash dot dotdot : Z).

(** The literals are strings somewhere in memory. *)
Record literals (m : mem) : Prop := {
  lit_slash : 0 < slash /\ cstring m slash [47];
  lit_dot : cstring m dot [46];
  lit_dotdot : cstring m dotdot [46; 46];
}.

(** A string that was there before a block was allocated lies beside it. *)
Lemma fresh_away m m' p n q l :
  fresh_block m m' p n -> 0 < n -> cstring m q l -> q + zlen l + 1 <= p \/ p + usable n <= q.
Proof.
  intros Hf Hn Hl. pose proof (zlen_nonneg l).
  pose proof (fresh_apart m m' p n q (zlen l + 1) Hf (cstring_mapped _ _ _ Hl)). lia.
Qed.

(** The buffers after the two allocations and [strcpy(result, "/")]. *)
Record ready (m0 m : mem) (result dup : Z) (l : list Z) : Prop := {
  rd_norm : norm_mem slash dot dotdot result (zlen l + 1) m [];
  rd_pos : 0 < result /\ result mod 8 = 0 /\ zlen l + 1 <= usable (zlen l + 1);
  rd_dup : 0 < dup /\ cstring m dup l /\ (dup + usable (zlen l + 1) <= result \/ result + usable (zlen l + 1) <= dup);
  rd_lits : forall q k, cstring m0 q k -> cstring m q k /\ (q + zlen k + 1 <= dup \/ dup + usable (zlen l + 1) <= q);
  rd_old : forall x, is_Some (m0 !! x) -> m !! x = m0 !! x;
}.

Lemma ready_spec h path l h1 result h2 dup :
  0 < path -> l <> [] -> bytes_ok (hmem h) -> cstring (hmem h) path l -> literals (hmem h) ->
  malloc h (zlen l + 1) = (h1, result) -> result <> 0 -> malloc h1 (zlen l + 1) = (h2, dup) -> dup <> 0 ->
  exists m m', strdup h1 path = Some (hset h2 m, dup) /\ strcpy m result slash = Some (m', result + 1) /\
    ready (hmem h) m' result dup l.
Proof.
  intros Hp Hne Hb Hl [[Hs0 Hs] Hd Hdd] E1 Hr E2 Hdup. pose proof (zlen_nonneg l).
  assert (1 < zlen l + 1) as HN1 by (destruct l; [done|rewrite zlen_cons; pose proof (zlen_nonneg l); lia]).
  assert (fresh_block (hmem h) (hmem h1) result (zlen l + 1)) as F1 by (apply malloc_fresh; [lia|done|done]).
  destruct (strdup_spec h1 path l Hp (fresh_cstring _ _ _ _ _ _ F1 Hl) h2 dup E2 Hdup) as (m & Ed & Hw & Hdl & F2).
  set (N := zlen l + 1) in *. pose proof F1 as [P1 A1 S1 N1 M1 B1 O1]. pose proof F2 as [P2 A2 S2 N2 M2 B2 O2].
  assert (zlen (l ++ [0]) = N) as EN by apply zlen_app.
  assert (forall x, is_Some (hmem h1 !! x) -> m !! x = hmem h1 !! x) as Om.
  { intros x Hx. rewrite (written_frame _ _ _ _ _ Hw), O2; [done|done|]. destruct (decide (dup <= x < dup + usable N)) as [Hi|]; [|lia].
    specialize (N2 x Hi). rewrite N2 in Hx. by destruct Hx. }
  assert (result + usable N <= dup \/ dup + usable N <= result) as Hrd.
  { pose proof (fresh_apart _ _ _ _ result (usable N) F2 M1). lia. }
  assert (forall q k, cstring (hmem h) q k -> cstring m q k /\ (q + zlen k + 1 <= result \/ result + usable N <= q) /\
      (q + zlen k + 1 <= dup \/ dup + usable N <= q)) as Hold.
  { intros q k Hk. pose proof (fresh_cstring _ _ _ _ _ _ F1 Hk) as Hk1. split_and!.
    - eapply cstring_frame; [exact Hk1|]. intros x Hx. apply Om, (cstring_mapped _ _ _ Hk1). lia.
    - apply (fresh_away _ _ _ _ _ _ F1); [lia|done].
    - apply (fresh_away _ _ _ _ _ _ F2); [lia|done]. }
  assert (mapped m result (usable N)) as Mr by (intros x Hx; rewrite Om by (by apply M1); by apply M1).
  assert (bytes_ok m) as Bm.
  { eapply bytes_ok_patched; [exact Hw| |apply B2, B1, Hb]. intros x v _ Hv. refine (Forall_zget (fun b => 0 <= b < 256) _ _ _ _ Hv).
    apply chars_bytes. by eapply cstring_chars. }
  destruct (Hold _ _ Hs) as (Hsm & Hsr & _).
  pose proof Hsm as (_ & Hs47 & Hsn)%cstring_cons.
  destruct (strcpy_spec m result slash 47 []) as (m' & Ec & Hw'); [done|lia|done|eapply mapped_sub; [exact Mr|lia|change (zlen (@nil Z)) with 0; lia]| |].
  { unfold apart. change (zlen (@nil Z)) with 0. change (zlen [47]) with 1 in Hsr. lia. }
  exists m, m'. rewrite Ec. change (zlen (@nil Z)) with 0. rewrite Z.add_0_r. split_and!; [done|done|].
  assert (forall x, x < result \/ result + usable N <= x -> m' !! x = m !! x) as Ho.
  { intros x Hx. eapply written_frame; [exact Hw'|]. change (zlen (47 :: [] ++ [0])) with 2. lia. }
  assert (forall q k, cstring m q k -> q + zlen k + 1 <= result \/ result + usable N <= q -> cstring m' q k) as Hk'.
  { intros q k Hk Hq. eapply cstring_frame; [exact Hk|]. intros x Hx. apply Ho. lia. }
  split.
  - destruct (Hold _ _ Hd) as (Hdm & Hdr & _), (Hold _ _ Hdd) as (Hddm & Hddr & _). split; try (split; [by apply Hk'|done]).
    + eapply bytes_ok_patched; [exact Hw'| |done]. intros x v _ Hv. refine (Forall_zget (fun b => 0 <= b < 256) _ _ _ _ Hv). repeat constructor; lia.
    + by eapply written_mapped.
    + eapply (written_cstring m); [repeat constructor; lia|exact Hw'].
    + constructor.
  - by split_and!.
  - split_and!; [done| |fold N; lia]. apply Hk'; [done|]. rewrite zlen_app in EN. change (zlen [0]) with 1 in EN. lia.
  - intros q k Hk. destruct (Hold _ _ Hk) as (Hq1 & Hq2 & Hq3). split; [by apply Hk'|done].
  - intros x Hx. rewrite Ho, Om, O1; try done; [by rewrite O1|].
    destruct (decide (result <= x < result + usable N)) as [Hi|]; [|lia]. rewrite (N1 x Hi) in Hx. by destruct Hx.
Qed.

(** An absolute path: the result is the stack of its components. *)
Lemma normalize_abs h last path l h1 result h2 dup :
  bytes_ok (hmem h) -> 0 < path -> rstring (hmem h) path (47 :: l) -> literals (hmem h) ->
  malloc h (zlen (47 :: l) + 1) = (h1, result) -> result <> 0 ->
  malloc h1 (zlen (47 :: l) + 1) = (h2, dup) -> dup <> 0 ->
  exists h' last', normalize_path slash dot dotdot h last path = Some (h', last', result) /\
    cstring (hmem h') result (render (norm [] (tokens (is_delim [47]) l))) /\
    forall x, is_Some (hmem h !! x) -> hmem h' !! x = hmem h !! x.
Proof.
  intros Hb Hp [Hl Hwords] Hlit E1 Hr E2 Hd. unfold normalize_path. replace (path =? 0) with false by lia.
  rewrite (strlen_spec _ _ _ Hb Hl Hwords). cbn [mbind option_bind]. rewrite E1. replace (result =? 0) with false by lia.
  destruct (ready_spec h path (47 :: l) h1 result h2 dup) as (m & m' & -> & Ec & Hrd); try done.
  cbn [mbind option_bind]. replace (dup =? 0) with false by lia. rewrite hmem_hset, Ec. cbn [mbind option_bind].
  set (N := zlen (47 :: l) + 1) in *. assert (N = zlen l + 2) as EN by (unfold N; rewrite zlen_cons; lia). pose proof (zlen_nonneg l).
  destruct Hrd as [Hn (Hr0 & Hra & HN) (Hd0 & Hdup & Hsep) Hlits Hold]. pose proof Hlit as [[Hs0 Hs] Hdt Hddt].
  destruct (Hlits _ _ Hl) as [Hl' _]. destruct (Hlits _ _ Hs) as [Hs' Hsd].
  destruct (Hlits _ _ Hdt) as [_ Hdotd], (Hlits _ _ Hddt) as [_ Hdotdotd]. fold N in HN, Hsep, Hsd, Hdotd, Hdotdotd.
  assert (owns h2 dup N) as Hown by (by destruct (malloc_block h1 N h2 dup E2 Hd) as (_ & _ & ? & _)).
  assert (forall m3 x, x < dup \/ dup + usable N <= x -> hmem (free (hset (hset h2 m) m3) dup) !! x = m3 !! x) as Hfree.
  { intros m3 x Hx. rewrite <- (hmem_hset (hset h2 m) m3) at 2. eapply free_block; [|done]. by apply owns_hset, owns_hset. }
  assert (forall x, is_Some (hmem h !! x) -> (x < result \/ result + usable N <= x) /\ (x < dup \/ dup + usable N <= x)) as Hout.
  { intros x Hx. destruct (malloc_block h N h1 result E1 Hr) as (_ & _ & _ & Hin & Ho & _).
    destruct (malloc_block h1 N h2 dup E2 Hd) as (_ & _ & _ & Hin2 & _ & _). destruct Hx as [v Hv].
    assert (~ (result <= x < result + usable N)) as Hx1 by (intros Hi; destruct (Hin x Hi); congruence).
    split; [lia|]. assert (~ (dup <= x < dup + usable N)) by (intros Hi; destruct (Hin2 x Hi) as [E _]; rewrite Ho in E by lia; congruence).
    lia. }
  rewrite (strcmp_spec _ _ _ _ _ Hl' Hs'). cbn [mbind option_bind].
  pose proof (str_diff_zero (47 :: l) [47] (cstring_chars _ _ _ Hl) (cstring_chars _ _ _ Hs)) as Hz.
  destruct (Z.eqb_spec (str_diff (47 :: l) [47]) 0) as [E|E].
  { assert (l = []) as -> by (apply Hz in E; congruence). eexists _, _. split; [done|]. split.
    - eapply cstring_frame; [apply Hn|]. intros x Hx. apply Hfree. change (zlen (render (norm [] _))) with 1 in Hx. lia.
    - intros x Hx. rewrite Hfree by (apply Hout, Hx). by apply Hold. }
  unfold load8. pose proof Hdup as (_ & Hd47 & Hrest)%cstring_cons. rewrite Hd47. cbn [mbind option_bind Z.eqb Pos.eqb].
  destruct (strtok_next [47] slash m' last (dup + 1) (dup + 1) l) as (m3 & last3 & token & -> & Hts & Hb3 & Hi3 & Ho3);
    [done|done|lia|by replace (dup + 1 =? 0) with false by lia|done|]. cbn [mbind option_bind].
  assert (is_delim [47] 47 = true) as Hdel by by vm_compute.
  pose proof (tokens_weight (is_delim [47]) (S (length l)) l ltac:(lia)) as Hw.
  destruct (norm_loop_spec slash dot dotdot result N (dup + 1) (dup + 1 + zlen l)) with (ts := tokens (is_delim [47]) l)
    (fuel := S (size m3)) (m := m3) (st := @nil (list Z)) (last := last3) (token := token) as (m4 & last4 & -> & Hn4 & Ho4).
  all: try done; try lia; try (unfold clear; lia).
  - eapply (norm_mem_tok slash dot dotdot result N (dup + 1) (dup + 1 + zlen l)); try done; try (unfold clear; lia).
    + intros x Hx. apply Ho3. lia.
    + change (zlen (render [])) with 1. lia.
  - by apply (tokens_comp _ Hdel (S (length l)) l); lia.
  - change (weight []) with 0. lia.
  - pose proof (weight_length _ (tokens_comp _ Hdel (S (length l)) l ltac:(lia))) as Hwl.
    assert (zlen (47 :: l) + 1 <= Z.of_nat (size m3)) as Hsz.
    { apply (mapped_size m3 dup); [lia|]. intros x Hx. apply Hi3, (cstring_mapped _ _ _ Hdup), Hx. }
    rewrite zlen_cons in Hsz. unfold zlen in *. lia.
  - cbn [mbind option_bind]. eexists _, _. split; [done|]. split.
    + eapply cstring_frame; [apply Hn4|]. intros x Hx. apply Hfree.
      assert (zlen (render (norm [] (tokens (is_delim [47]) l))) < N) by (apply render_norm; lia). lia.
    + intros x Hx. destruct (Hout x Hx) as [Hx1 Hx2]. rewrite Hfree by done. rewrite Ho4 by (done || lia).
      rewrite Ho3 by lia. by apply Hold.
Qed.

End Normalize.
