(* ===== verification/KProps.v ===== *)
(** * Properties of the C library

    What the kernel may rely on, and where [krlibc.c] departs from what its
    callers expect, with a concrete allocator and concrete memories. *)

From stdpp Require Import gmap.
From S2P Require Import Prelude KMem KMemset KMemcpy KString KStr KStrSpec KNum KNumSpec KHeap KPath.

(** ** Concrete memories *)

(** [m] with the bytes [l] from [a] on. *)
Definition put (a : Z) (l : list Z) (m : mem) : mem := foldr (fun '(x, b) m => <[x := b]> m) m (zip (seqZ a (zlen l)) l).

Definition mapped_b (m : mem) (a n : Z) : bool := forallb (fun x => bool_decide (is_Some (m !! x))) (seqZ a n).

Lemma mapped_b_ok m a n : mapped_b m a n = true -> mapped m a n.
Proof.
  unfold mapped_b. rewrite forallb_forall. intros H x Hx. specialize (H x). rewrite bool_decide_eq_true in H.
  apply H, list_elem_of_In, elem_of_seqZ. lia.
Qed.

Definition bytes_b (m : mem) : bool := forallb (fun '(_, b) => (0 <=? b) && (b <? 256)) (map_to_list m).

Lemma bytes_b_ok m : bytes_b m = true -> bytes_ok m.
Proof.
  unfold bytes_b. rewrite forallb_forall. intros H x b Hx. apply elem_of_map_to_list in Hx.
  specialize (H (x, b) ltac:(by apply list_elem_of_In)). simpl in H. lia.
Qed.

Ltac mapped_now := apply mapped_b_ok; vm_compute; reflexivity.
Ltac bytes_now := apply bytes_b_ok; vm_compute; reflexivity.
Ltac cstring_now :=
  repeat (apply cstring_cons; split; [lia|split; [vm_compute; reflexivity|]]); apply cstring_nil; vm_compute; reflexivity.

(** ** An allocator

    Blocks are placed above everything that exists, so a block is new
    whatever the heap holds. *)

Module Bump.

Record bump := mkBump { b_mem : mem; b_blocks : gmap Z Z }.

Definition top (m : gmap Z Z) : Z := foldr (fun '(a, _) t => Z.max (a + 1) t) 0 (map_to_list m).

Definition pad (n : Z) : Z := Z.max 0 (n + 7) / 8 * 8.

Definition place (h : bump) : Z := (Z.max 1 (Z.max (top (b_mem h)) (top (b_blocks h))) + 7) / 8 * 8.

Fixpoint fill (k : nat) (a : Z) (m : mem) : mem :=
  match k with O => m | S k => <[a := 0]> (fill k (a + 1) m) end.

Fixpoint clear_range (k : nat) (a : Z) (m : mem) : mem :=
  match k with O => m | S k => delete a (clear_range k (a + 1) m) end.

#[export] Instance bump_allocator : Allocator := {|
  heap := bump;
  hmem := b_mem;
  hset := fun h m => mkBump m (b_blocks h);
  owns := fun h p n => b_blocks h !! p = Some n;
  usable := pad;
  malloc := fun h n =>
    (mkBump (fill (Z.to_nat (pad n)) (place h) (b_mem h)) (<[place h := n]> (b_blocks h)), place h);
  free := fun h p =>
    match b_blocks h !! p with
    | Some n => mkBump (clear_range (Z.to_nat (pad n)) p (b_mem h)) (delete p (b_blocks h))
    | None => h
    end;
|}.

Lemma top_above m a v : m !! a = Some v -> a < top m.
Proof.
  intros Ha. apply elem_of_map_to_list in Ha. unfold top. induction (map_to_list m) as [|[b w] l IH]; [by apply not_elem_of_nil in Ha|].
  cbn [foldr]. apply elem_of_cons in Ha as [[= -> ->]|Ha]; [lia|]. specialize (IH Ha). lia.
Qed.

Lemma place_above h a v : b_mem h !! a = Some v \/ b_blocks h !! a = Some v -> a < place h.
Proof.
  intros Ha. assert (a < Z.max (top (b_mem h)) (top (b_blocks h))) by (destruct Ha as [Ha|Ha]; apply top_above in Ha; lia).
  unfold place. set (M := Z.max 1 _) in *. assert (a < M) by lia.
  pose proof (Z.div_mod (M + 7) 8 ltac:(lia)). pose proof (Z.mod_pos_bound (M + 7) 8 ltac:(lia)). lia.
Qed.

Lemma top_nonneg m : 0 <= top m.
Proof. unfold top. induction (map_to_list m) as [|[b w] l IH]; cbn [foldr]; lia. Qed.

Lemma place_pos h : 0 < place h.
Proof.
  unfold place. set (M := Z.max 1 _). assert (1 <= M) by lia.
  pose proof (Z.div_mod (M + 7) 8 ltac:(lia)). pose proof (Z.mod_pos_bound (M + 7) 8 ltac:(lia)). lia.
Qed.

Lemma fill_lookup k : forall a m x,
  fill k a m !! x = if (a <=? x) && (x <? a + Z.of_nat k) then Some 0 else m !! x.
Proof.
  induction k as [|k IH]; intros a m x; cbn [fill].
  { change (Z.of_nat 0) with 0. case_if; [lia|done]. }
  rewrite Nat2Z.inj_succ. pose proof (Nat2Z.is_nonneg k). specialize (IH (a + 1) m x).
  revert IH. generalize dependent (Z.of_nat k). intros z Hz IH. unfold Z.succ. destruct (decide (x = a)) as [->|].
  - rewrite lookup_insert_eq. case_if; [done|lia].
  - rewrite lookup_insert_ne, IH by done. repeat case_if; try lia; done.
Qed.

Lemma clear_lookup k : forall a m x, x < a \/ a + Z.of_nat k <= x -> clear_range k a m !! x = m !! x.
Proof.
  induction k as [|k IH]; intros a m x Hx; cbn [clear_range]; [done|].
  rewrite Nat2Z.inj_succ in Hx. pose proof (Nat2Z.is_nonneg k). rewrite lookup_delete_ne by lia. apply IH. lia.
Qed.

Lemma pad_nonneg n : 0 <= pad n.
Proof. unfold pad. pose proof (Z.div_pos (Z.max 0 (n + 7)) 8). lia. Qed.

#[export] Instance bump_laws : AllocatorLaws bump_allocator.
Proof.
  split; cbn -[fill clear_range pad place].
  - done.
  - done.
  - intros n Hn. unfold pad. pose proof (Z.div_mod (Z.max 0 (n + 7)) 8 ltac:(lia)). pose proof (Z.mod_pos_bound (Z.max 0 (n + 7)) 8 ltac:(lia)). lia.
  - intros n. unfold pad. apply Z.mod_mul. lia.
  - intros h n h' [= _ E]. pose proof (place_pos h). lia.
  - intros h n h' p [= <- <-] _. pose proof (pad_nonneg n). split_and!.
    + apply place_pos.
    + unfold place. apply Z.mod_mul. lia.
    + apply lookup_insert_eq.
    + intros x Hx. split.
      * destruct (b_mem h !! x) as [v|] eqn:E; [|done]. pose proof (place_above h x v (or_introl E)). lia.
      * exists 0. split; [lia|]. cbn [b_mem]. rewrite fill_lookup, Z2Nat.id by done. case_if; [done|lia].
    + intros x Hx. cbn [b_mem]. rewrite fill_lookup, Z2Nat.id by done. case_if; [lia|done].
    + intros q k Hq. cbn [b_blocks]. rewrite lookup_insert_ne; [done|]. pose proof (place_above h q k (or_intror Hq)). lia.
  - intros h p n Hp. rewrite Hp. cbn [b_mem b_blocks]. pose proof (pad_nonneg n). split.
    + intros x Hx. apply clear_lookup. lia.
    + intros q k Hq E. by rewrite lookup_delete_ne.
Qed.

End Bump.

(** ** Blocks of memory *)

(** A memory of 96 bytes, 1, 2, ... from address 1001 on. *)
Definition ex_mem : mem := put 1001 (seqZ 1 96) ∅.

(** [memset] on a mapped range of any length and alignment terminates
    without touching anything else and leaves every byte of the range, and no
    other, equal to the low byte of [c]: the overlapping head, tail and word
    stores together are the byte loop. *)
Theorem memset_correct m d c n :
  0 <= n -> mapped m d n ->
  exists m', memset m d c n = Some m' /\
    patched m m' (fun x => (d <=? x) && (x <? d + n)) (fun _ => Some (u8 c)).
Proof. apply memset_spec. Qed.

Lemma memset_correct_witness :
  exists m', memset ex_mem 1003 0x1ff 75 = Some m' /\
    patched ex_mem m' (fun x => (1003 <=? x) && (x <? 1003 + 75)) (fun _ => Some (u8 0x1ff)).
Proof. apply (memset_correct ex_mem 1003 0x1ff 75); [lia|mapped_now]. Defined.

(** C40: [memcpy] between ranges that do not overlap (or with the destination
    below the source) copies exactly the [n] bytes, for every alignment of the
    two pointers: the shift-and-merge loops rebuild the source bytes. *)
Theorem memcpy_correct m d s n :
  bytes_ok m -> mapped m d n -> mapped m s n -> s + n <= d \/ d <= s -> 0 <= n ->
  exists m', memcpy m d s n = Some m' /\
    patched m m' (fun x => (d <=? x) && (x <? d + n)) (fun x => m !! (s + (x - d))).
Proof. intros Hb Hd Hs Ha Hn. by apply memcpy_spec. Qed.

Lemma memcpy_correct_witness :
  exists m', memcpy ex_mem 1001 1054 43 = Some m' /\
    patched ex_mem m' (fun x => (1001 <=? x) && (x <? 1001 + 43)) (fun x => ex_mem !! (1054 + (x - 1001))).
Proof. apply (memcpy_correct ex_mem 1001 1054 43); [bytes_now|mapped_now|mapped_now|right; lia|lia]. Defined.

(** [memmove] copies the bytes the source had before the call, for
    any overlap of the two ranges. *)
Theorem memmove_correct m d s n :
  bytes_ok m -> mapped m d n -> mapped m s n -> 0 <= n ->
  exists m', memmove m d s n = Some m' /\
    patched m m' (fun x => (d <=? x) && (x <? d + n)) (fun x => m !! (s + (x - d))).
Proof. intros Hb Hd Hs Hn. by apply memmove_spec. Qed.

Lemma memmove_correct_witness :
  exists m', memmove ex_mem 1013 1005 50 = Some m' /\
    patched ex_mem m' (fun x => (1013 <=? x) && (x <? 1013 + 50)) (fun x => ex_mem !! (1005 + (x - 1013))).
Proof. apply (memmove_correct ex_mem 1013 1005 50); [bytes_now|mapped_now|mapped_now|lia]. Defined.

(** [memchr] reads nothing outside the [n] bytes and returns the address
    of the first byte equal to the low byte of [c], NULL when there is none:
    the word-wise search agrees with the byte-wise one. *)
Theorem memchr_correct m src c n :
  bytes_ok m -> mapped m src n -> 0 <= n ->
  exists i, 0 <= i <= n /\ (forall t, 0 <= t < i -> m !! (src + t) <> Some (u8 c)) /\
    (i = n \/ m !! (src + i) = Some (u8 c)) /\
    memchr m src c n = Some (if i <? n then src + i else 0).
Proof.
  intros Hb Hm Hn. destruct (memchr_spec m src c n Hb Hm Hn) as (i & [Hi Hc] & Hs & E). exists i. split_and!; done || lia.
Qed.

Lemma memchr_correct_witness :
  exists i, 0 <= i <= 90 /\ (forall t, 0 <= t < i -> ex_mem !! (1003 + t) <> Some (u8 77)) /\
    (i = 90 \/ ex_mem !! (1003 + i) = Some (u8 77)) /\
    memchr ex_mem 1003 77 90 = Some (if i <? 90 then 1003 + i else 0).
Proof. apply (memchr_correct ex_mem 1003 77 90); [bytes_now|mapped_now|lia]. Defined.

(** ** Strings *)

(** Strings "abc", "abd", "", then "xyz" and room to write. *)
Definition ex_str : mem :=
  put 1001 [97; 98; 99; 0] (put 1011 [97; 98; 100; 0] (put 1021 [0; 120; 121; 122; 0] (put 1030 (replicate 40 7) (put 1000 (replicate 80 1) ∅)))).

(** [strlen] returns the number of characters before the terminator,
    where the aligned words that the string reaches are mapped; the word loop
    never passes the terminator. *)
Theorem strlen_correct m p l :
  bytes_ok m -> cstring m p l -> (forall a, a mod 8 = 0 -> p <= a <= p + zlen l -> mapped m a 8) ->
  strlen m p = Some (zlen l).
Proof. apply strlen_spec. Qed.

Lemma strlen_correct_witness : strlen ex_str 1011 = Some (zlen [97; 98; 100]).
Proof.
  apply (strlen_correct ex_str 1011 [97; 98; 100]); [bytes_now|cstring_now|].
  intros a Ha Hr. change (zlen [97; 98; 100]) with 3 in Hr. apply (mapped_sub ex_str 1000 80); [mapped_now|lia|lia].
Defined.

(** [strcmp] returns 0 exactly for equal strings, and [strncmp] exactly
    when the first [n] characters agree. *)
Theorem string_comparison `{CharAbi} m p q l1 l2 n :
  cstring m p l1 -> cstring m q l2 ->
  exists r r', strcmp m p q = Some r /\ (r = 0 <-> l1 = l2) /\
    strncmp n m p q = Some r' /\ (r' = 0 <-> take n l1 = take n l2).
Proof.
  intros H1 H2. pose proof (cstring_chars _ _ _ H1). pose proof (cstring_chars _ _ _ H2).
  exists (str_diff l1 l2), (strn_diff n l1 l2). split_and!; [by apply strcmp_spec|by apply str_diff_zero|by apply strncmp_spec|by apply strn_diff_zero].
Qed.

Lemma string_comparison_witness :
  exists r r', @strcmp true ex_str 1001 1011 = Some r /\ (r = 0 <-> [97; 98; 99] = [97; 98; 100]) /\
    strncmp 2 ex_str 1001 1011 = Some r' /\ (r' = 0 <-> take 2 [97; 98; 99] = take 2 [97; 98; 100]).
Proof. apply (@string_comparison true ex_str 1001 1011 [97; 98; 99] [97; 98; 100] 2); cstring_now. Defined.

(** [strcpy] writes the first byte of the source, then the string that
    starts behind it, and returns the address of the terminator it wrote. For
    a string of at least one character that is the string; for the empty
    string it copies the terminator and whatever follows it, up to the next
    zero byte. *)
Theorem strcpy_first_byte m d s b l :
  m !! s = Some b -> 0 <= b < 256 -> cstring m (s + 1) l -> mapped m d (zlen l + 2) ->
  d + (zlen l + 2) <= s \/ s + (zlen l + 2) <= d ->
  exists m', strcpy m d s = Some (m', d + 1 + zlen l) /\ written m m' d (b :: l ++ [0]).
Proof. intros Hb Hr Hl Hm Ha. by apply strcpy_spec. Qed.

Lemma strcpy_first_byte_witness :
  cstring ex_str 1021 [] /\
  exists m', strcpy ex_str 1030 1021 = Some (m', 1030 + 1 + zlen [120; 121; 122]) /\
    written ex_str m' 1030 (0 :: [120; 121; 122] ++ [0]).
Proof.
  split; [cstring_now|].
  apply (strcpy_first_byte ex_str 1030 1021 0 [120; 121; 122]); [vm_compute; reflexivity|lia|cstring_now|mapped_now|right; vm_compute; discriminate].
Defined.

(** [strcat] appends the source to the destination, and [strncpy] writes
    exactly [n] bytes: the first [n] characters, padded with zeros. *)
Theorem string_copy m d s l1 l2 n :
  cstring m d l1 -> cstring m s l2 -> 0 <= n -> mapped m d (zlen l1 + zlen l2 + 1) -> mapped m d n ->
  d + zlen l1 + zlen l2 + 1 <= s \/ s + zlen l2 + 1 <= d -> d + n <= s \/ s + zlen l2 + 1 <= d ->
  (exists m', strcat m d s = Some m' /\ cstring m' d (l1 ++ l2) /\
     forall x, x < d \/ d + zlen l1 + zlen l2 < x -> m' !! x = m !! x) /\
  (exists m', strncpy m d s n = Some m' /\
     written m m' d (take (Z.to_nat n) l2 ++ replicate (Z.to_nat n - length l2) 0)).
Proof.
  intros H1 H2 Hn Hm1 Hm2 Ha1 Ha2. split; [|by apply strncpy_spec].
  destruct (strcat_spec m d s l1 l2 H1 H2 Hm1 Ha1) as (m' & E & Hw & Hc). exists m'. split_and!; [done|done|].
  intros x Hx. pose proof (zlen_nonneg l1). eapply written_frame; [exact Hw|]. rewrite zlen_app. change (zlen [0]) with 1. lia.
Qed.

Lemma string_copy_witness :
  (exists m', strcat ex_str 1011 1001 = Some m' /\ cstring m' 1011 ([97; 98; 100] ++ [97; 98; 99]) /\
     forall x, x < 1011 \/ 1011 + zlen [97; 98; 100] + zlen [97; 98; 99] < x -> m' !! x = ex_str !! x) /\
  (exists m', strncpy ex_str 1011 1001 5 = Some m' /\
     written ex_str m' 1011 (take (Z.to_nat 5) [97; 98; 99] ++ replicate (Z.to_nat 5 - length [97; 98; 99]) 0)).
Proof.
  apply (string_copy ex_str 1011 1001 [97; 98; 100] [97; 98; 99] 5);
    [cstring_now|cstring_now|lia|mapped_now|mapped_now|right; vm_compute; discriminate|right; vm_compute; discriminate].
Defined.

(** "/usr//lib/" and the delimiter "/". *)
Definition ex_tok : mem := put 1001 [47; 117; 115; 114; 47; 47; 108; 105; 98; 47; 0] (put 1051 [47; 0] ∅).

(** Calling [strtok] until it returns NULL yields the non-empty pieces of
    the string between delimiters, in order, each a terminated string, and
    writes only inside the string. *)
Theorem strtok_tokens m last p l delim ds :
  0 < delim -> cstring m delim ds -> 0 < p -> cstring m p l ->
  delim + zlen ds + 1 <= p \/ p + zlen l + 1 <= delim ->
  exists m' ts, strtok_all (S (length l)) m last p delim = Some (m', ts) /\
    Forall2 (cstring m') ts (tokens (is_delim ds) l) /\
    forall x, x < p \/ p + zlen l <= x -> m' !! x = m !! x.
Proof.
  intros Hd Hds Hp Hl Ha. apply (strtok_all_spec ds delim Hd); try done; [|lia]. by replace (p =? 0) with false by lia.
Qed.

Lemma strtok_tokens_witness :
  tokens (is_delim [47]) [47; 117; 115; 114; 47; 47; 108; 105; 98; 47] = [[117; 115; 114]; [108; 105; 98]] /\
  exists m' ts, strtok_all 11 ex_tok 0 1001 1051 = Some (m', ts) /\
    Forall2 (cstring m') ts (tokens (is_delim [47]) [47; 117; 115; 114; 47; 47; 108; 105; 98; 47]) /\
    forall x, x < 1001 \/ 1001 + zlen [47; 117; 115; 114; 47; 47; 108; 105; 98; 47] <= x -> m' !! x = ex_tok !! x.
Proof.
  split; [vm_compute; reflexivity|].
  apply (strtok_tokens ex_tok 0 1001 [47; 117; 115; 114; 47; 47; 108; 105; 98; 47] 1051 [47]);
    [lia|cstring_now|lia|cstring_now|right; vm_compute; discriminate].
Defined.

(** ** Numbers *)

(** "  -1f4 " *)
Definition ex_num : mem := put 1001 [32; 32; 45; 49; 102; 52; 32; 0] ∅.

(** [strtol] skips white space, takes an optional sign and the longest run
    of digits of the base, returns their value when it fits a [long] (the
    overflow guard never fires before that), and stores the address behind the
    last digit. Stated for bases 2 to 36 without a "0x" prefix. *)
Theorem strtol_correct `{CharAbi} m p sp sg neg ds vs rest base :
  Forall (fun b => isspace b = true) sp -> sign sg neg -> ds <> [] -> digits base ds vs -> no_digit base (head0 rest) ->
  2 <= base <= 36 -> (base = 16 -> head0 ds <> 48) -> cstring m p (sp ++ sg ++ ds ++ rest) ->
  value base 0 vs <= magnitude neg ->
  strtol m p base = Some (if neg then - value base 0 vs else value base 0 vs, p + zlen (sp ++ sg ++ ds)).
Proof. intros. by eapply strtol_spec. Qed.

Lemma strtol_correct_witness :
  @strtol true ex_num 1001 16 = Some (- value 16 0 [1; 15; 4], 1001 + zlen ([32; 32] ++ [45] ++ [49; 102; 52])).
Proof.
  apply (@strtol_correct true ex_num 1001 [32; 32] [45] true [49; 102; 52] [1; 15; 4] [32] 16);
    [repeat constructor|constructor|discriminate| |exact I|lia|discriminate|cstring_now|vm_compute; discriminate].
  unfold digits. repeat (constructor; [split; [reflexivity|lia]|]). constructor.
Defined.

(** "9223372036854775809": 2^63 + 1. *)
Definition ex_big : mem := put 1001 [57; 50; 50; 51; 51; 55; 50; 48; 51; 54; 56; 53; 52; 55; 55; 53; 56; 48; 57; 0] ∅.

(** Out of range, [strtol] neither saturates nor reports: [any] is
    unsigned, so the overflow mark has no effect, the digit that does not fit
    is skipped, and the number returned for "9223372036854775809" is
    922337203685477580. *)
Theorem strtol_overflow_drops_digit :
  @strtol true ex_big 1001 10 = Some (922337203685477580, 1020) /\
  value 10 0 [9; 2; 2; 3; 3; 7; 2; 0; 3; 6; 8; 5; 4; 7; 7; 5; 8; 0; 9] = LONG_MAX + 2.
Proof. split; vm_compute; reflexivity. Qed.

(** [strtoul] in the bases 2 to 16 (without a "0x" prefix) returns the
    value of the longest run of digits modulo 2^64 and the address behind it. *)
Theorem strtoul_correct `{CharAbi} m p ds vs rest base :
  digits base ds vs -> no_digit base (head0 rest) -> 2 <= base <= 16 -> (base = 16 -> head0 (ds ++ rest) <> 48) ->
  cstring m p (ds ++ rest) ->
  strtoul m p base = Some (value base 0 vs mod two64, p + zlen ds).
Proof. apply strtoul_spec. Qed.

Lemma strtoul_correct_witness :
  @strtoul false ex_num 1004 16 = Some (value 16 0 [1; 15; 4] mod two64, 1004 + zlen [49; 102; 52]).
Proof.
  apply (@strtoul_correct false ex_num 1004 [49; 102; 52] [1; 15; 4] [32] 16);
    [|exact I|lia|intros _; discriminate|cstring_now].
  unfold digits. repeat (constructor; [split; [reflexivity|lia]|]). constructor.
Defined.

(** Whenever [atoi] returns, it returns 0: its first loop runs over
    everything that is not white space and stops at white space, which is
    neither a sign nor a digit. On a string without white space it reads past
    the terminator, and faults when nothing is mapped there. *)
Theorem atoi_never_converts `{CharAbi} m p :
  (forall r, atoi m p = Some r -> r = 0) /\
  (forall l, p <> 0 -> cstring m p l -> Forall (fun b => isspace (char_val b) = false) l ->
     m !! (p + zlen l + 1) = None -> atoi m p = None).
Proof.
  split; [apply atoi_zero|]. intros l Hp Hl Hs Hn. unfold atoi. replace (p =? 0) with false by lia.
  by rewrite (atoi_skip_past m l).
Qed.

Lemma atoi_never_converts_witness :
  @atoi true ex_big 1001 = None /\ @atoi true ex_num 1001 = Some 0.
Proof.
  destruct (@atoi_never_converts true ex_big 1001) as [_ H]. split; [|vm_compute; reflexivity].
  apply (H [57; 50; 50; 51; 51; 55; 50; 48; 51; 54; 56; 53; 52; 55; 55; 53; 56; 48; 57]);
    [lia|cstring_now|repeat constructor|vm_compute; reflexivity].
Defined.

(** ** Paths *)

(** "/usr/./lib/../bin//", the literals, and nothing else. *)
Definition ex_path_str : list Z := [117; 115; 114; 47; 46; 47; 108; 105; 98; 47; 46; 46; 47; 98; 105; 110; 47; 47].

Definition ex_path : Bump.bump :=
  Bump.mkBump (put 1000 (47 :: ex_path_str ++ [0]) (put 1019 (replicate 13 0) (put 2000 [47; 0] (put 2008 [46; 0] (put 2016 [46; 46; 0] ∅))))) ∅.

Definition ex_h1 : Bump.bump * Z := malloc (Allocator := Bump.bump_allocator) ex_path 20.
Definition ex_h2 : Bump.bump * Z := malloc (Allocator := Bump.bump_allocator) (fst ex_h1) 20.

(** For an absolute path, when the two allocations succeed,
    [normalize_path] returns the path made of the components of its argument
    with "." dropped and ".." removing the component before it ("/" when none
    is left); it stays inside its two buffers, frees the copy, and leaves every
    byte that existed before unchanged. *)
Theorem normalize_path_correct `{CharAbi} `{AllocatorLaws} slash dot dotdot h last path l h1 result h2 dup :
  bytes_ok (hmem h) -> 0 < path -> rstring (hmem h) path (47 :: l) -> literals slash dot dotdot (hmem h) ->
  malloc h (zlen (47 :: l) + 1) = (h1, result) -> result <> 0 ->
  malloc h1 (zlen (47 :: l) + 1) = (h2, dup) -> dup <> 0 ->
  exists h' last', normalize_path slash dot dotdot h last path = Some (h', last', result) /\
    cstring (hmem h') result (render (norm [] (tokens (is_delim [47]) l))) /\
    forall x, is_Some (hmem h !! x) -> hmem h' !! x = hmem h !! x.
Proof. apply normalize_abs. Qed.

Lemma normalize_path_correct_witness :
  render (norm [] (tokens (is_delim [47]) ex_path_str)) = [47; 117; 115; 114; 47; 98; 105; 110] /\
  exists h' last', @normalize_path true Bump.bump_allocator 2000 2008 2016 ex_path 0 1000 = Some (h', last', snd ex_h1) /\
    cstring (Bump.b_mem h') (snd ex_h1) (render (norm [] (tokens (is_delim [47]) ex_path_str))) /\
    forall x, is_Some (Bump.b_mem ex_path !! x) -> Bump.b_mem h' !! x = Bump.b_mem ex_path !! x.
Proof.
  split; [vm_compute; reflexivity|].
  apply (@normalize_path_correct true _ Bump.bump_laws 2000 2008 2016 ex_path 0 1000 ex_path_str (fst ex_h1) (snd ex_h1) (fst ex_h2) (snd ex_h2)).
  - apply bytes_b_ok. vm_compute. reflexivity.
  - lia.
  - split; [cstring_now|]. intros a Ha Hr. apply (mapped_sub _ 1000 32); [mapped_now| |]; change (zlen (47 :: ex_path_str)) with 19 in Hr; [lia|].
    destruct (decide (a < 1025)); [lia|]. change 1000 with (125 * 8) in *. lia.
  - split; [split; [lia|cstring_now]|cstring_now|cstring_now].
  - symmetry. apply surjective_pairing.
  - vm_compute. discriminate.
  - symmetry. apply surjective_pairing.
  - vm_compute. discriminate.
Defined.

(** "abcdefg", seven characters without a leading slash. *)
Definition ex_rel : Bump.bump :=
  Bump.mkBump (put 1000 [97; 98; 99; 100; 101; 102; 103; 0] (put 2000 [47; 0] (put 2008 [46; 0] (put 2016 [46; 46; 0] ∅)))) ∅.

(** For a relative path the buffer of [strlen(path) + 1] bytes is one byte
    too small, because a slash is put in front: on "abcdefg" the eighth
    character fills the block of [malloc(8)] and the terminator is written
    into the block behind it, so that the string returned has no terminator
    once that block is freed. *)
Theorem normalize_path_relative_overflow :
  exists h' r, @normalize_path true Bump.bump_allocator 2000 2008 2016 ex_rel 0 1000 = Some (h', 0, r) /\
    Bump.b_blocks h' = {[ r := 8 ]} /\
    (fun i => Bump.b_mem h' !! (r + i)) <$> seqZ 0 9 =
      [Some 47; Some 97; Some 98; Some 99; Some 100; Some 101; Some 102; Some 103; None].
Proof. eexists _, _. split; [vm_compute; reflexivity|]. split; vm_compute; reflexivity. Qed.

(** [strdup] returns NULL for NULL and a copy of the string in a new block
    otherwise; when [malloc] fails it does not return NULL but writes through
    the null pointer, which faults where address 0 is not mapped. *)
Theorem strdup_correct `{AllocatorLaws} h str l :
  strdup h 0 = Some (h, 0) /\
  (0 < str -> cstring (hmem h) str l -> forall h' ret, malloc h (zlen l + 1) = (h', ret) ->
    (ret <> 0 -> exists m', strdup h str = Some (hset h' m', ret) /\ cstring m' ret l /\ cstring m' str l) /\
    (ret = 0 -> hmem h !! 0 = None -> strdup h str = None)).
Proof.
  split; [done|]. intros Hs Hl h' ret E. split.
  - intros Hr. destruct (strdup_spec h str l Hs Hl h' ret E Hr) as (m' & Es & Hw & Hc & Hf). exists m'. split_and!; [done|done|].
    pose proof (zlen_nonneg l). eapply cstring_frame; [eapply fresh_cstring; eauto|]. intros x Hx. eapply written_frame; [exact Hw|].
    pose proof (fresh_away _ _ _ _ _ _ Hf ltac:(lia) Hl) as Ha. pose proof (fb_size _ _ _ _ Hf).
    rewrite zlen_app. change (zlen [0]) with 1. lia.
  - intros -> H0'. by apply (strdup_oom h str l Hs Hl h').
Qed.

Lemma strdup_correct_witness :
  exists m', @strdup Bump.bump_allocator ex_rel 1000 = Some (hset (Allocator := Bump.bump_allocator) (fst (malloc (Allocator := Bump.bump_allocator) ex_rel 8)) m', snd (malloc (Allocator := Bump.bump_allocator) ex_rel 8)) /\
    cstring m' (snd (malloc (Allocator := Bump.bump_allocator) ex_rel 8)) [97; 98; 99; 100; 101; 102; 103] /\
    cstring m' 1000 [97; 98; 99; 100; 101; 102; 103].
Proof.
  destruct (@strdup_correct _ Bump.bump_laws ex_rel 1000 [97; 98; 99; 100; 101; 102; 103]) as [_ H].
  apply H; [lia|cstring_now|symmetry; apply surjective_pairing|vm_compute; discriminate].
Defined.
