(* ===== verification/Fresh.v ===== *)
(** * Fresh addresses

    An address above all keys of a heap: the simplest allocator that meets
    what the components ask of [malloc]. *)

From stdpp Require Import gmap.
From S2P Require Import Prelude.

Definition top_key {A} (m : gmap Z A) : Z := foldr Z.max 0 (map_to_list m).*1.

Lemma top_key_nonneg {A} (m : gmap Z A) : 0 <= top_key m.
Proof. unfold top_key. induction (map_to_list m).*1; simpl; lia. Qed.

Lemma top_key_max {A} (m : gmap Z A) k : is_Some (m !! k) -> k <= top_key m.
Proof.
  unfold top_key. intros [v Hv%elem_of_map_to_list]. induction (map_to_list m) as [|[a x] l IH]; [by apply not_elem_of_nil in Hv|].
  cbn [fmap list_fmap foldr fst]. apply elem_of_cons in Hv as [[= <- <-]|Hv]; [lia|]. specialize (IH Hv). lia.
Qed.

Lemma top_key_fresh {A} (m : gmap Z A) k : top_key m < k -> m !! k = None.
Proof. intros Hk. destruct (m !! k) eqn:E; [|done]. assert (is_Some (m !! k)) as H%top_key_max by eauto. lia. Qed.
