(* ===== verification/Vma.v ===== *)
(** * Virtual memory areas ([src/src/mem/vma.c])

    The areas of an address space: a doubly linked list of heap nodes, kept
    sorted by address. The heap holds the nodes and the strings they own;
    reading a node that is not allocated, or freeing one twice, is [None]. *)

From stdpp Require Import gmap.
From S2P Require Import Prelude.

Inductive vma_type_t := VMA_TYPE_ANON | VMA_TYPE_FILE | VMA_TYPE_SHM.

#[export] Instance vma_type_eq : EqDecision vma_type_t.
Proof. solve_decision. Defined.

(** The fields of a [vma_t] other than the links. *)
Record area := mkArea {
  vm_start : Z;
  vm_end : Z;
  vm_flags : Z;
  vm_type : vma_type_t;
  vm_fd : Z;
  vm_offset : Z;
  shm_id : Z;
  vm_name : Z;
}.

Record vma_t := mkVma { v_area : area; vm_next : Z; vm_prev : Z }.

Record vma_manager_t := mkMgr { vma_list : Z; vm_total : Z; vm_used : Z }.

(** The nodes, and the strings [strdup] made, by address. *)
Record vheap := mkHeap { h_vma : gmap Z vma_t; h_name : gmap Z (list Z) }.

Definition set_links (v : vma_t) (nx pv : Z) : vma_t := mkVma (v_area v) nx pv.
Definition set_next (v : vma_t) (nx : Z) : vma_t := mkVma (v_area v) nx (vm_prev v).
Definition set_prev (v : vma_t) (pv : Z) : vma_t := mkVma (v_area v) (vm_next v) pv.
Definition set_start (x : area) (a : Z) : area :=
  mkArea a (vm_end x) (vm_flags x) (vm_type x) (vm_fd x) (vm_offset x) (shm_id x) (vm_name x).
Definition set_end (x : area) (a : Z) : area :=
  mkArea (vm_start x) a (vm_flags x) (vm_type x) (vm_fd x) (vm_offset x) (shm_id x) (vm_name x).
Definition set_offset (x : area) (o : Z) : area :=
  mkArea (vm_start x) (vm_end x) (vm_flags x) (vm_type x) (vm_fd x) o (shm_id x) (vm_name x).
Definition set_name (x : area) (n : Z) : area :=
  mkArea (vm_start x) (vm_end x) (vm_flags x) (vm_type x) (vm_fd x) (vm_offset x) (shm_id x) n.

Definition with_list (g : vma_manager_t) (p : Z) : vma_manager_t := mkMgr p (vm_total g) (vm_used g).
Definition with_used (g : vma_manager_t) (u : Z) : vma_manager_t := mkMgr (vma_list g) (vm_total g) u.

Definition is_file (x : area) : bool := bool_decide (vm_type x = VMA_TYPE_FILE).

Definition read (h : vheap) (p : Z) : option vma_t := h_vma h !! p.
Definition put_vma (h : vheap) (p : Z) (v : vma_t) : vheap := mkHeap (<[p := v]> (h_vma h)) (h_name h).

(** [p->field = ...]: the node must exist. *)
Definition modify (h : vheap) (p : Z) (f : vma_t -> vma_t) : option vheap :=
  v ← read h p; Some (put_vma h p (f v)).

(** [free] of a node and of a string; the latter accepts NULL. *)
Definition free_node (h : vheap) (p : Z) : option vheap :=
  _ ← read h p; Some (mkHeap (delete p (h_vma h)) (h_name h)).
Definition free_name (h : vheap) (q : Z) : option vheap :=
  if q =? 0 then Some h
  else _ ← h_name h !! q; Some (mkHeap (h_vma h) (delete q (h_name h))).

Definition sizeof_vma : Z := 72.

Section Vma.
(* the address [malloc] returns for a heap and a size, 0 for NULL *)
Context (malloc : vheap -> Z -> Z).

(** The heap and the node, 0 for NULL. *)
Definition vma_alloc (h : vheap) : vheap * Z :=
  let p := malloc h sizeof_vma in
  if p =? 0 then (h, 0)
  else (put_vma h p (mkVma (mkArea 0 0 0 VMA_TYPE_ANON (-1) 0 (-1) 0) 0 0), p).

Definition vma_free (h : vheap) (p : Z) : option vheap :=
  if p =? 0 then Some h
  else
    v ← read h p;
    h ← (if negb (vm_name (v_area v) =? 0) then free_name h (vm_name (v_area v)) else Some h);
    free_node h p.

(** [strdup] of a name: NULL for NULL; it writes through the result of
    [malloc] without a test. *)
Definition dup_name (h : vheap) (q : Z) : option (vheap * Z) :=
  if q =? 0 then Some (h, 0)
  else
    s ← h_name h !! q;
    let p := malloc h (zlen s + 1) in
    if p =? 0 then None else Some (mkHeap (h_vma h) (<[p := s]> (h_name h)), p).

(** Walks along [vm_next]; a list has no more nodes than the heap. *)
Fixpoint find_loop (fuel : nat) (h : vheap) (p : Z) (test : area -> bool) : option Z :=
  match fuel with
  | O => None
  | S fuel =>
      if p =? 0 then Some 0
      else v ← read h p; if test (v_area v) then Some p else find_loop fuel h (vm_next v) test
  end.

Definition vma_find (h : vheap) (g : vma_manager_t) (addr : Z) : option Z :=
  find_loop (S (size (h_vma h))) h (vma_list g) (fun x => (addr >=? vm_start x) && (addr <? vm_end x)).

Definition vma_find_intersection (h : vheap) (g : vma_manager_t) (start fin : Z) : option Z :=
  find_loop (S (size (h_vma h))) h (vma_list g)
    (fun x => negb ((fin <=? vm_start x) || (start >=? vm_end x))).

(** The loop of [vma_insert] that finds the place: [vma] and [prev]. *)
Fixpoint insert_seek (fuel : nat) (h : vheap) (p prev start : Z) : option (Z * Z) :=
  match fuel with
  | O => None
  | S fuel =>
      if p =? 0 then Some (p, prev)
      else
        v ← read h p;
        if vm_start (v_area v) <? start then insert_seek fuel h (vm_next v) p start else Some (p, prev)
  end.

(** [if (prev) prev->vm_next = q1; else mgr->vma_list = q1;
    if (vma) vma->vm_prev = q2;] *)
Definition relink (h : vheap) (g : vma_manager_t) (prev vma q1 q2 : Z) : option (vheap * vma_manager_t) :=
  '(h, g) ←
    (if negb (prev =? 0) then h ← modify h prev (fun v => set_next v q1); Some (h, g)
     else Some (h, with_list g q1));
  h ← (if negb (vma =? 0) then modify h vma (fun v => set_prev v q2) else Some h);
  Some (h, g).

Definition vma_insert (h : vheap) (g : vma_manager_t) (new_vma : Z) : option (vheap * vma_manager_t * Z) :=
  if new_vma =? 0 then Some (h, g, -1)
  else
    n ← read h new_vma;
    let x := v_area n in
    hit ← vma_find_intersection h g (vm_start x) (vm_end x);
    if negb (hit =? 0) then Some (h, g, -1)
    else
      '(vma, prev) ← insert_seek (S (size (h_vma h))) h (vma_list g) 0 (vm_start x);
      h ← modify h new_vma (fun v => set_links v vma prev);
      '(h, g) ← relink h g prev vma new_vma new_vma;
      Some (h, with_used g (u64 (vm_used g + (vm_end x - vm_start x))), 0).

(** Takes the node out of the list; the links of the node itself stay. *)
Definition unlink_vma (h : vheap) (g : vma_manager_t) (p : Z) : option (vheap * vma_manager_t) :=
  v ← read h p;
  '(h, g) ← relink h g (vm_prev v) (vm_next v) (vm_next v) (vm_prev v);
  Some (h, with_used g (u64 (vm_used g - (vm_end (v_area v) - vm_start (v_area v))))).

Definition vma_remove (h : vheap) (g : vma_manager_t) (p : Z) : option (vheap * vma_manager_t * Z) :=
  if p =? 0 then Some (h, g, -1)
  else '(h, g) ← unlink_vma h g p; Some (h, g, 0).

Definition vma_split (h : vheap) (p addr : Z) : option (vheap * Z) :=
  if p =? 0 then Some (h, -1)
  else
    v ← read h p;
    let x := v_area v in
    if (addr <=? vm_start x) || (addr >=? vm_end x) then Some (h, -1)
    else
      let '(h, new_vma) := vma_alloc h in
      if new_vma =? 0 then Some (h, -1)
      else
        '(h, name) ← dup_name h (vm_name x);
        let y := set_start (set_name x name) addr in
        let y := if is_file x then set_offset y (i64 (vm_offset y + (addr - vm_start x))) else y in
        let h := put_vma h new_vma (mkVma y (vm_next v) p) in
        h ← modify h p (fun v => mkVma (set_end (v_area v) addr) new_vma (vm_prev v));
        h ← (if negb (vm_next v =? 0) then modify h (vm_next v) (fun w => set_prev w new_vma) else Some h);
        Some (h, 0).

Definition vma_merge (h : vheap) (p1 p2 : Z) : option (vheap * Z) :=
  if (p1 =? 0) || (p2 =? 0) then Some (h, -1)
  else
    v1 ← read h p1; v2 ← read h p2;
    let x1 := v_area v1 in let x2 := v_area v2 in
    if negb (vm_end x1 =? vm_start x2) then Some (h, -1)
    else if negb (vm_flags x1 =? vm_flags x2) || negb (bool_decide (vm_type x1 = vm_type x2))
            || negb (vm_fd x1 =? vm_fd x2) then Some (h, -1)
    else
      h ← modify h p1 (fun v => mkVma (set_end (v_area v) (vm_end x2)) (vm_next v2) (vm_prev v));
      h ← free_name h (vm_name x2);
      h ← (if negb (vm_next v2 =? 0) then modify h (vm_next v2) (fun w => set_prev w p1) else Some h);
      h ← vma_free h p2;
      Some (h, 0).

(** The body of the loop of [vma_unmap_range] for the node [p]. *)
Definition unmap_node (h : vheap) (g : vma_manager_t) (p start fin : Z) : option (vheap * vma_manager_t) :=
  v ← read h p;
  let x := v_area v in
  if (vm_start x >=? start) && (vm_end x <=? fin) then
    '(h, g, _) ← vma_remove h g p;
    h ← vma_free h p;
    Some (h, g)
  else if negb ((vm_end x <=? start) || (vm_start x >=? fin)) then
    if (vm_start x <? start) && (vm_end x >? fin) then
      '(h, _) ← vma_split h p fin;
      '(h, _) ← vma_split h p start;
      v ← read h p;
      let middle := vm_next v in
      '(h, g, _) ← vma_remove h g middle;
      h ← vma_free h middle;
      Some (h, g)
    else if vm_start x <? start then
      let g := with_used g (u64 (vm_used g - (vm_end x - start))) in
      h ← modify h p (fun v => mkVma (set_end (v_area v) start) (vm_next v) (vm_prev v));
      Some (h, g)
    else if vm_end x >? fin then
      let g := with_used g (u64 (vm_used g - (fin - vm_start x))) in
      h ← modify h p (fun v =>
        let y := v_area v in
        let y := if is_file y then set_offset y (i64 (vm_offset y + (fin - vm_start y))) else y in
        mkVma (set_start y fin) (vm_next v) (vm_prev v));
      Some (h, g)
    else Some (h, g)
  else Some (h, g).

(** [while (vma)]; [next] is read before the body. *)
Fixpoint unmap_loop (fuel : nat) (h : vheap) (g : vma_manager_t) (p start fin : Z) : option (vheap * vma_manager_t) :=
  match fuel with
  | O => None
  | S fuel =>
      if p =? 0 then Some (h, g)
      else
        v ← read h p;
        let next := vm_next v in
        '(h, g) ← unmap_node h g p start fin;
        unmap_loop fuel h g next start fin
  end.

Definition vma_unmap_range (h : vheap) (g : vma_manager_t) (start fin : Z) : option (vheap * vma_manager_t * Z) :=
  '(h, g) ← unmap_loop (S (size (h_vma h))) h g (vma_list g) start fin; Some (h, g, 0).

Fixpoint cleanup_loop (fuel : nat) (h : vheap) (g : vma_manager_t) (p : Z) : option (vheap * vma_manager_t) :=
  match fuel with
  | O => None
  | S fuel =>
      if p =? 0 then Some (h, g)
      else
        v ← read h p;
        let next := vm_next v in
        '(h, g) ← unlink_vma h g p;
        h ← vma_free h p;
        cleanup_loop fuel h g next
  end.

(** For a manager that is not NULL. *)
Definition vma_manager_exit_cleanup (h : vheap) (g : vma_manager_t) : option (vheap * vma_manager_t) :=
  '(h, _) ← cleanup_loop (S (size (h_vma h))) h g (vma_list g); Some (h, mkMgr 0 0 0).

(** The loop of [vma_manager_clone] over the source list [p]. *)
Fixpoint clone_loop (fuel : nat) (h : vheap) (dst : vma_manager_t) (p : Z) : option (vheap * vma_manager_t * bool) :=
  match fuel with
  | O => None
  | S fuel =>
      if p =? 0 then Some (h, dst, true)
      else
        let '(h, new_vma) := vma_alloc h in
        if new_vma =? 0 then
          '(h, dst) ← vma_manager_exit_cleanup h dst; Some (h, dst, false)
        else
          v ← read h p;
          let x := v_area v in
          h ← modify h new_vma (fun n =>
            mkVma (mkArea (vm_start x) (vm_end x) (vm_flags x) (vm_type x) (vm_fd x) (vm_offset x) (shm_id x) (vm_name (v_area n)))
              (vm_next n) (vm_prev n));
          '(h, name) ← dup_name h (vm_name x);
          h ← modify h new_vma (fun n => mkVma (set_name (v_area n) name) (vm_next n) (vm_prev n));
          '(h, dst, r) ← vma_insert h dst new_vma;
          if negb (r =? 0) then
            h ← vma_free h new_vma;
            '(h, dst) ← vma_manager_exit_cleanup h dst;
            Some (h, dst, false)
          else clone_loop fuel h dst (vm_next v)
  end.

(** For managers that are not NULL: the target and whether it worked. *)
Definition vma_manager_clone (h : vheap) (src : vma_manager_t) : option (vheap * vma_manager_t * bool) :=
  clone_loop (S (size (h_vma h))) h (mkMgr 0 (vm_total src) 0) (vma_list src).

End Vma.
