(* ===== verification/VmaList.v ===== *)
(** * Lists of areas

    The doubly linked list of [Vma] as a list of addresses and areas: its
    segments, the two link updates every operation is made of, and the search
    loops. *)

From stdpp Require Import gmap.
From S2P Require Import Prelude Vma.

Implicit Types (L : list (Z * area)) (m : gmap Z vma_t).

(** The first and the last address, or what is there instead. *)
Definition haddr L (nx : Z) : Z := match L with [] => nx | (a, _) :: _ => a end.

Fixpoint laddr (pv : Z) L : Z := match L with [] => pv | (a, _) :: L => laddr a L end.

(** A segment of the list between the nodes [pv] and [nx]. *)
Fixpoint vseg m (pv : Z) L (nx : Z) : Prop :=
  match L with
  | [] => True
  | (a, x) :: L => a <> 0 /\ m !! a = Some (mkVma x (haddr L nx) pv) /\ vseg m a L nx
  end.

Lemma haddr_app L1 L2 nx : haddr (L1 ++ L2) nx = haddr L1 (haddr L2 nx).
Proof. by destruct L1 as [|[a x] L1]. Qed.

Lemma laddr_app pv L1 L2 : laddr pv (L1 ++ L2) = laddr (laddr pv L1) L2.
Proof. revert pv. induction L1 as [|[a x] L1 IH]; intros pv; simpl; auto. Qed.

Lemma vseg_app m pv L1 L2 nx : vseg m pv (L1 ++ L2) nx <-> vseg m pv L1 (haddr L2 nx) /\ vseg m (laddr pv L1) L2 nx.
Proof.
  revert pv. induction L1 as [|[a x] L1 IH]; intros pv; simpl; [tauto|]. rewrite IH, haddr_app. tauto.
Qed.

Lemma vseg_frame m m' pv L nx :
  (forall a, a ∈ L.*1 -> m' !! a = m !! a) -> vseg m pv L nx -> vseg m' pv L nx.
Proof.
  revert pv. induction L as [|[a x] L IH]; intros pv E; simpl in *; [done|]. intros (Ha & Hm & Hs). split_and!; [done| |].
  - rewrite E; [done|]. by apply elem_of_cons; left.
  - apply IH; [|done]. intros b Hb. apply E. by apply elem_of_cons; right.
Qed.

Lemma vseg_nonzero m pv L nx a : vseg m pv L nx -> a ∈ L.*1 -> a <> 0.
Proof.
  revert pv. induction L as [|[b x] L IH]; intros pv; simpl; [intros _ H; by apply not_elem_of_nil in H|].
  intros (Hb & _ & Hs) [->|Ha]%elem_of_cons; eauto.
Qed.

Lemma vseg_lookup m pv L nx a x : vseg m pv L nx -> (a, x) ∈ L -> exists n p, m !! a = Some (mkVma x n p).
Proof.
  revert pv. induction L as [|[b y] L IH]; intros pv; simpl; [intros _ H; by apply not_elem_of_nil in H|].
  intros (Hb & Hm & Hs) [[= -> ->]|Ha]%elem_of_cons; eauto.
Qed.

Lemma laddr_in pv L : laddr pv L = pv \/ laddr pv L ∈ L.*1.
Proof.
  revert pv. induction L as [|[a x] L IH]; intros pv; simpl; [by left|]. right.
  destruct (IH a) as [->|Hi]; apply elem_of_cons; tauto.
Qed.

Lemma vseg_dom m pv L nx a : vseg m pv L nx -> a ∈ L.*1 -> is_Some (m !! a).
Proof.
  intros Hs Ha. apply list_elem_of_fmap in Ha as ([b x] & -> & Hx).
  destruct (vseg_lookup _ _ _ _ _ _ Hs Hx) as (n & p & E). eauto.
Qed.

(** The length of a list is within the bound on the turns. *)
Lemma vseg_size m pv L nx : vseg m pv L nx -> NoDup (L.*1) -> (length L <= size m)%nat.
Proof.
  intros Hs Hn. rewrite <- (size_dom (D := gset Z)), <- (length_fmap fst L).
  rewrite <- (size_list_to_set (C := gset Z)) by done. apply subseteq_size. intros a.
  rewrite elem_of_list_to_set, elem_of_dom. by apply (vseg_dom m pv L nx).
Qed.

(** ** Link updates *)

Definition same_except (h h' : vheap) (S : list Z) : Prop :=
  h_name h' = h_name h /\ (forall a, a ∉ S -> h_vma h' !! a = h_vma h !! a) /\
  (forall a, is_Some (h_vma h' !! a) <-> is_Some (h_vma h !! a)).

Lemma same_except_trans h1 h2 h3 S T : same_except h1 h2 S -> same_except h2 h3 T -> same_except h1 h3 (S ++ T).
Proof.
  intros (N1 & E1 & D1) (N2 & E2 & D2). split_and!; [congruence| |].
  - intros a [Ha Hb]%not_elem_of_app. by rewrite E2, E1.
  - intros a. by rewrite D2, D1.
Qed.

Lemma modify_ok h a v f :
  h_vma h !! a = Some v ->
  exists h', modify h a f = Some h' /\ h_vma h' = <[a := f v]> (h_vma h) /\ same_except h h' [a].
Proof.
  intros E. unfold modify, read. rewrite E. cbn [mbind option_bind]. eexists. split; [done|]. split; [done|].
  split_and!; [done| |]; cbn [put_vma h_vma].
  - intros b Hb. rewrite lookup_insert_ne; [done|]. intros ->. apply Hb. by apply elem_of_cons; left.
  - intros b. destruct (decide (b = a)) as [->|]; [rewrite lookup_insert_eq, E; split; by eexists|by rewrite lookup_insert_ne].
Qed.

(** [prev->vm_next = q] for the last node of a segment. *)
Lemma set_next_spec h pv L nx q :
  vseg (h_vma h) pv L nx -> NoDup (L.*1) -> L <> [] ->
  exists h', modify h (laddr pv L) (fun v => set_next v q) = Some h' /\ vseg (h_vma h') pv L q /\ same_except h h' [laddr pv L].
Proof.
  intros Hs Hn Hne. destruct (list_snoc L) as [->|(K & [a x] & ->)]; [done|].
  rewrite laddr_app. cbn [laddr]. apply vseg_app in Hs as [HK Ha]. cbn [vseg haddr] in Ha, HK. destruct Ha as (Ha0 & Hm & _).
  destruct (modify_ok h a _ (fun v => set_next v q) Hm) as (h' & E & Em & Hse). exists h'. split_and!; [done| |done].
  apply vseg_app. rewrite fmap_app in Hn. apply NoDup_app in Hn as (_ & Hd & _). cbn [vseg haddr]. split_and!; [|done| |done].
  - eapply vseg_frame; [|exact HK]. intros b Hb. apply Hse. intros ->%list_elem_of_singleton. apply (Hd a); [done|].
    by apply list_elem_of_singleton.
  - rewrite Em. apply lookup_insert_eq.
Qed.

(** [next->vm_prev = q] for the first node of a segment. *)
Lemma set_prev_spec h pv L nx q :
  vseg (h_vma h) pv L nx -> NoDup (L.*1) -> L <> [] ->
  exists h', modify h (haddr L nx) (fun v => set_prev v q) = Some h' /\ vseg (h_vma h') q L nx /\ same_except h h' [haddr L nx].
Proof.
  intros Hs Hn Hne. destruct L as [|[a x] L]; [done|]. cbn [vseg haddr] in *. destruct Hs as (Ha0 & Hm & HL).
  destruct (modify_ok h a _ (fun v => set_prev v q) Hm) as (h' & E & Em & Hse). exists h'. cbn [fmap list_fmap] in Hn.
  apply NoDup_cons in Hn as [Hna Hn]. split_and!; [done|done| | |done].
  - rewrite Em. apply lookup_insert_eq.
  - eapply vseg_frame; [|exact HL]. intros b Hb. apply Hse. by intros ->%list_elem_of_singleton.
Qed.

(** Both updates, around the place between two segments. *)
Lemma relink_spec h g L1 L2 n1 p2 q1 q2 :
  vseg (h_vma h) 0 L1 n1 -> vseg (h_vma h) p2 L2 0 -> NoDup (L1.*1 ++ L2.*1) ->
  exists h', relink h g (laddr 0 L1) (haddr L2 0) q1 q2 =
      Some (h', if decide (L1 = []) then with_list g q1 else g) /\
    vseg (h_vma h') 0 L1 q1 /\ vseg (h_vma h') q2 L2 0 /\ same_except h h' (L1.*1 ++ L2.*1).
Proof.
  intros H1 H2 [N1 [Hd N2]]%NoDup_app. unfold relink.
  assert (exists h1, (if negb (laddr 0 L1 =? 0) then h ← modify h (laddr 0 L1) (fun v => set_next v q1); Some (h, g)
                      else Some (h, with_list g q1)) = Some (h1, if decide (L1 = []) then with_list g q1 else g) /\
      vseg (h_vma h1) 0 L1 q1 /\ vseg (h_vma h1) p2 L2 0 /\ same_except h h1 (L1.*1)) as (h1 & -> & S1 & S2 & E1).
  { destruct (decide (L1 = [])) as [->|Hne]; [exists h; by split_and!|].
    destruct (set_next_spec h 0 L1 n1 q1 H1 N1 Hne) as (h1 & E & S1 & Hse).
    assert (laddr 0 L1 ∈ L1.*1) as Hin by (destruct L1 as [|[a x] L1]; [done|]; simpl; destruct (laddr_in a L1) as [->|?]; apply elem_of_cons; tauto).
    pose proof (vseg_nonzero _ _ _ _ _ H1 Hin) as Hnz.
    rewrite (proj2 (Z.eqb_neq _ _) Hnz). cbn [negb]. rewrite E. cbn [mbind option_bind].
    exists h1. split_and!; [done|done| |].
    - eapply vseg_frame; [|exact H2]. intros b Hb. apply Hse. intros ->%list_elem_of_singleton. by eapply Hd.
    - destruct Hse as (? & Hs & ?). split_and!; [done| |done]. intros b Hb. apply Hs. intros ->%list_elem_of_singleton. done. }
  cbn [mbind option_bind].
  destruct (decide (L2 = [])) as [->|Hne].
  - cbn [haddr Z.eqb negb mbind option_bind]. exists h1. rewrite app_nil_r. by split_and!.
  - destruct (set_prev_spec h1 p2 L2 0 q2 S2 N2 Hne) as (h2 & E & S3 & Hse).
    assert (haddr L2 0 ∈ L2.*1) as Hin by (destruct L2 as [|[a x] L2]; [done|]; simpl; by apply elem_of_cons; left).
    pose proof (vseg_nonzero _ _ _ _ _ H2 Hin) as Hnz.
    rewrite (proj2 (Z.eqb_neq _ _) Hnz). cbn [negb]. rewrite E. cbn [mbind option_bind]. exists h2. split_and!; [done| |done|].
    + eapply vseg_frame; [|exact S1]. intros b Hb. apply Hse. intros ->%list_elem_of_singleton. by eapply Hd.
    + destruct (same_except_trans _ _ _ _ _ E1 Hse) as (? & Hs & ?). split_and!; [done| |done].
      intros b [Hb Hb2]%not_elem_of_app. apply Hs. apply not_elem_of_app. split; [done|]. by intros ->%list_elem_of_singleton.
Qed.

(** ** Searching *)

Fixpoint find_area (test : area -> bool) L : Z :=
  match L with [] => 0 | (a, x) :: L => if test x then a else find_area test L end.

Lemma find_loop_spec h test : forall L pv fuel,
  vseg (h_vma h) pv L 0 -> (length L < fuel)%nat -> find_loop fuel h (haddr L 0) test = Some (find_area test L).
Proof.
  induction L as [|[a x] L IH]; intros pv [|fuel] Hs Hf; simpl in Hf; try lia; cbn [find_loop find_area haddr]; [done|].
  destruct Hs as (Ha & Hm & Hs). rewrite (proj2 (Z.eqb_neq _ _) Ha). unfold read. rewrite Hm. cbn [mbind option_bind v_area vm_next].
  case_if; [done|]. eapply IH; [exact Hs|lia].
Qed.

Lemma find_area_zero m pv L nx test :
  vseg m pv L nx -> find_area test L = 0 <-> Forall (fun x => test x = false) L.*2.
Proof.
  revert pv. induction L as [|[a x] L IH]; intros pv Hs; simpl; [by split|]. destruct Hs as (Ha & _ & Hs).
  destruct (test x) eqn:E.
  - split; [done|]. intros HF. apply Forall_cons in HF as [HF _]. congruence.
  - rewrite (IH _ Hs). rewrite Forall_cons. tauto.
Qed.

(** The place of an area that starts at [start]. *)
Lemma insert_seek_spec h start : forall L pv fuel,
  vseg (h_vma h) pv L 0 -> (length L < fuel)%nat ->
  exists L1 L2, L = L1 ++ L2 /\ insert_seek fuel h (haddr L 0) pv start = Some (haddr L2 0, laddr pv L1) /\
    Forall (fun x => vm_start x < start) L1.*2 /\ match L2 with [] => True | (_, y) :: _ => start <= vm_start y end.
Proof.
  induction L as [|[a x] L IH]; intros pv [|fuel] Hs Hf; simpl in Hf; try lia; cbn [insert_seek haddr].
  { exists [], []. done. }
  destruct Hs as (Ha & Hm & Hs). rewrite (proj2 (Z.eqb_neq _ _) Ha). unfold read. rewrite Hm. cbn [mbind option_bind v_area vm_next].
  destruct (Z.ltb_spec (vm_start x) start).
  - destruct (IH a fuel Hs) as (L1 & L2 & -> & E & H1 & H2); [lia|]. exists ((a, x) :: L1), L2.
    split_and!; [done|done| |done]. simpl. by constructor.
  - exists [], ((a, x) :: L). by split_and!.
Qed.
