(* ===== verification/VmaSpec.v ===== *)
(** * The area manager

    The invariant of an address space and what every operation of [Vma] does
    to the list of its areas. *)

From stdpp Require Import gmap sorting.
From S2P Require Import Prelude Vma VmaList.

Implicit Types (L K : list (Z * area)).

(** The strings the areas own. *)
Definition names_of L : list Z := filter (fun q => q <> 0) (vm_name <$> L.*2).

(** The bytes the areas span. *)
Definition total L : Z := foldr (fun x s => vm_end x - vm_start x + s) 0 L.*2.

Definition before (x y : area) : Prop := vm_end x <= vm_start y.
Definition range_ok (x : area) : Prop := 0 <= vm_start x < vm_end x /\ vm_end x < two64.

(** Areas in increasing order, without overlap. *)
Definition tidy L : Prop := Forall range_ok L.*2 /\ StronglySorted before L.*2.

Record vm_ok (h : vheap) (g : vma_manager_t) (L : list (Z * area)) : Prop := {
  ok_head : vma_list g = haddr L 0;
  ok_seg : vseg (h_vma h) 0 L 0;
  ok_nodup : NoDup L.*1;
  ok_names : forall q, q ∈ names_of L -> is_Some (h_name h !! q);
  ok_own : NoDup (names_of L);
  ok_tidy : tidy L;
  ok_used : vm_used g = total L;
}.

(** ** Lists *)

Lemma names_app L K : names_of (L ++ K) = names_of L ++ names_of K.
Proof. unfold names_of. by rewrite !fmap_app, filter_app. Qed.

Lemma names_cons a x L : names_of ((a, x) :: L) = (if bool_decide (vm_name x <> 0) then [vm_name x] else []) ++ names_of L.
Proof.
  unfold names_of. cbn [fmap list_fmap fst snd]. destruct (decide (vm_name x <> 0)) as [H|H].
  - by rewrite filter_cons_True, bool_decide_eq_true_2.
  - by rewrite filter_cons_False, bool_decide_eq_false_2.
Qed.

Lemma names_nonzero L q : q ∈ names_of L -> q <> 0.
Proof. unfold names_of. by intros [? _]%list_elem_of_filter. Qed.

Lemma names_elem L a x : (a, x) ∈ L -> vm_name x <> 0 -> vm_name x ∈ names_of L.
Proof.
  intros Hx Hn. unfold names_of. apply list_elem_of_filter. split; [done|].
  apply list_elem_of_fmap. exists x. split; [done|]. apply list_elem_of_fmap. by exists (a, x).
Qed.

Lemma total_app L K : total (L ++ K) = total L + total K.
Proof. unfold total. rewrite fmap_app, foldr_app. induction (L.*2) as [|x l IH]; simpl; lia. Qed.

Lemma total_cons a x L : total ((a, x) :: L) = vm_end x - vm_start x + total L.
Proof. done. Qed.

Lemma total_nonneg L : Forall range_ok L.*2 -> 0 <= total L.
Proof.
  unfold total. induction 1 as [|x l [Hx _] _ IH]; simpl; lia.
Qed.

(** Disjoint areas below 2^64 span less than 2^64 bytes. *)
Lemma total_bound L lo :
  tidy L -> Forall (fun x => lo <= vm_start x) L.*2 -> 0 <= lo < two64 -> total L < two64 - lo \/ total L = 0.
Proof.
  intros [Hr Hs]. unfold total. revert lo. induction Hs as [|x l Hl IH Hx]; intros lo Hlo Hb; simpl; [by right|].
  apply Forall_cons in Hr as [[Hx1 Hx2] Hr]. apply Forall_cons in Hlo as [Hlx _].
  destruct (IH Hr (vm_end x)) as [Ht|Ht]; [|lia|left; lia|left; lia].
  eapply Forall_impl; [exact Hx|]. intros y Hy. exact Hy.
Qed.

Lemma tidy_total L : tidy L -> 0 <= total L < two64.
Proof.
  intros Ht. pose proof Ht as [Hr Hs]. split; [by apply total_nonneg|].
  destruct (total_bound L 0 Ht) as [H|H]; try lia. eapply Forall_impl; [exact Hr|]. intros x [Hx _]. lia.
Qed.

Lemma sorted_app_inv (l k : list area) :
  StronglySorted before (l ++ k) <-> StronglySorted before l /\ StronglySorted before k /\ forall x y, x ∈ l -> y ∈ k -> before x y.
Proof.
  induction l as [|a l IH]; simpl.
  - split; [intros H; split_and!; [constructor|done|by intros x y ?%not_elem_of_nil]|by intros (_ & H & _)].
  - split.
    + intros H. inversion H as [|? ? H1 H2]; subst. apply IH in H1 as (H1 & H3 & H4).
      apply Forall_app in H2 as [H2 H5]. split_and!; [by constructor|done|].
      intros x y [->|Hx]%elem_of_cons Hy; [|by apply H4]. rewrite Forall_forall in H5. by apply H5.
    + intros (H1 & H2 & H3). inversion H1 as [|? ? H4 H5]; subst. constructor.
      * apply IH. split_and!; [done|done|]. intros x y Hx. apply H3. by apply elem_of_cons; right.
      * apply Forall_app. split; [done|]. apply Forall_forall. intros y Hy. apply H3; [by apply elem_of_cons; left|done].
Qed.

Lemma tidy_app L K : tidy (L ++ K) <-> tidy L /\ tidy K /\ forall x y, x ∈ L.*2 -> y ∈ K.*2 -> before x y.
Proof. unfold tidy. rewrite fmap_app, Forall_app, sorted_app_inv. tauto. Qed.

Lemma tidy_cons a x L : tidy ((a, x) :: L) <-> range_ok x /\ tidy L /\ Forall (before x) L.*2.
Proof.
  unfold tidy. cbn [fmap list_fmap fst snd]. split.
  - intros [Hr Hs]. apply Forall_cons in Hr as [? ?]. inversion Hs; subst. tauto.
  - intros (Hx & [Hr Hs] & HF). split; by constructor.
Qed.

(** ** Heaps that keep a list *)

(** The operation left the nodes of [L] and its strings alone. *)
Lemma vm_ok_frame h h' g L :
  vm_ok h g L -> (forall a, a ∈ L.*1 -> h_vma h' !! a = h_vma h !! a) ->
  (forall q, q ∈ names_of L -> h_name h' !! q = h_name h !! q) -> vm_ok h' g L.
Proof.
  intros [H1 H2 H3 H4 H5 H6 H7] Ha Hn. split; try done; [by eapply vseg_frame|]. intros q Hq. rewrite Hn by done. by apply H4.
Qed.

Lemma vm_ok_fuel h g L : vm_ok h g L -> (length L < S (size (h_vma h)))%nat.
Proof. intros H. pose proof (vseg_size _ _ _ _ (ok_seg _ _ _ H) (ok_nodup _ _ _ H)). lia. Qed.

(** ** [vma_find] *)

Lemma vma_find_spec h g L addr :
  vm_ok h g L -> vma_find h g addr = Some (find_area (fun x => (addr >=? vm_start x) && (addr <? vm_end x)) L).
Proof. intros H. unfold vma_find. rewrite (ok_head _ _ _ H). eapply find_loop_spec; [apply H|by eapply vm_ok_fuel]. Qed.

Lemma vma_find_intersection_spec h g L s e :
  vm_ok h g L ->
  exists r, vma_find_intersection h g s e = Some r /\
    (r = 0 <-> Forall (fun x => e <= vm_start x \/ vm_end x <= s) L.*2).
Proof.
  intros H. unfold vma_find_intersection. rewrite (ok_head _ _ _ H).
  erewrite find_loop_spec; [|apply H|by eapply vm_ok_fuel]. eexists. split; [done|].
  rewrite (find_area_zero _ _ _ _ _ (ok_seg _ _ _ H)). apply Forall_iff. intros x. lia.
Qed.

(** ** [vma_insert] *)

(** A node outside the list, ready to be inserted. *)
Record loose (h : vheap) L (a : Z) (x : area) : Prop := {
  lo_nonzero : a <> 0;
  lo_node : exists n p, h_vma h !! a = Some (mkVma x n p);
  lo_new : a ∉ L.*1;
  lo_name : vm_name x <> 0 -> is_Some (h_name h !! vm_name x) /\ vm_name x ∉ names_of L;
  lo_range : range_ok x;
}.

Lemma insert_tidy L1 L2 a x :
  tidy (L1 ++ L2) -> range_ok x -> Forall (fun y => vm_end x <= vm_start y \/ vm_end y <= vm_start x) (L1 ++ L2).*2 ->
  Forall (fun y => vm_start y < vm_start x) L1.*2 -> match L2 with [] => True | (_, y) :: _ => vm_start x <= vm_start y end ->
  tidy (L1 ++ (a, x) :: L2).
Proof.
  intros (T1 & T2 & T12)%tidy_app [Hx1 Hx2] HF H1 H2. rewrite fmap_app in HF. apply Forall_app in HF as [F1 F2].
  pose proof T1 as [R1 _]. pose proof T2 as [R2 S2].
  assert (Forall (before x) L2.*2) as B2.
  { destruct L2 as [|[b y] L2]; [constructor|]. cbn [fmap list_fmap fst snd] in *.
    assert (vm_end x <= vm_start y) as Hxy.
    { cbv iota beta in H2. apply Forall_cons in F2 as [[?|?] _]; [done|]. apply Forall_cons in R2 as [[? ?] _]. lia. }
    constructor; [done|]. inversion S2 as [|? ? ? Hy]; subst. apply Forall_cons in R2 as [[Hy1 _] _].
    eapply Forall_impl; [exact Hy|]. intros z Hz. unfold before in *. simpl in *. lia. }
  apply tidy_app. split_and!; [done|by apply tidy_cons|].
  intros y z Hy [->|Hz]%elem_of_cons; [|by apply T12].
  rewrite Forall_forall in F1, H1, R1. pose proof (F1 _ Hy). pose proof (H1 _ Hy). destruct (R1 _ Hy). unfold before. simpl in *. lia.
Qed.

Lemma vma_insert_spec h g L a x :
  vm_ok h g L -> loose h L a x ->
  if bool_decide (Forall (fun y => vm_end x <= vm_start y \/ vm_end y <= vm_start x) L.*2)
  then exists h' g' L1 L2, vma_insert h g a = Some (h', g', 0) /\ L = L1 ++ L2 /\
         vm_ok h' g' (L1 ++ (a, x) :: L2) /\ vm_total g' = vm_total g /\ same_except h h' (a :: L.*1)
  else vma_insert h g a = Some (h, g, -1).
Proof.
  intros H [Ha (n & p & Hm) Hnew Hname Hr].
  destruct (vma_find_intersection_spec h g L (vm_start x) (vm_end x) H) as (r & Er & Hi).
  case_bool_decide as HF; unfold vma_insert; rewrite (proj2 (Z.eqb_neq _ _) Ha); unfold read at 1; rewrite Hm;
    cbn [mbind option_bind v_area]; rewrite Er; cbn [mbind option_bind].
  2:{ assert (r <> 0) as Hr0 by tauto. by rewrite (proj2 (Z.eqb_neq _ _) Hr0). }
  assert (r = 0) as -> by tauto. cbn [Z.eqb negb]. rewrite (ok_head _ _ _ H).
  destruct (insert_seek_spec h (vm_start x) L 0 (S (size (h_vma h)))) as (L1 & L2 & -> & -> & H1 & H2);
    [apply H|by eapply vm_ok_fuel|]. cbn [mbind option_bind].
  destruct H as [Hh Hs Hn Hnm Ho Ht Hu]. pose proof Hs as Hs'. apply vseg_app in Hs as [S1 S2]. rewrite fmap_app in Hn, Hnew.
  destruct (modify_ok h a _ (fun v => set_links v (haddr L2 0) (laddr 0 L1)) Hm) as (h1 & -> & E1 & Hse1). cbn [mbind option_bind].
  apply not_elem_of_app in Hnew as [N1 N2].
  destruct (relink_spec h1 g L1 L2 (haddr L2 0) (laddr 0 L1) a a) as (h2 & -> & S3 & S4 & Hse2).
  { eapply vseg_frame; [|exact S1]. intros b Hb. apply Hse1. intros ->%list_elem_of_singleton. done. }
  { eapply vseg_frame; [|exact S2]. intros b Hb. apply Hse1. intros ->%list_elem_of_singleton. done. }
  { done. }
  cbn [mbind option_bind].
  eexists h2, _, L1, L2. split; [done|]. split; [done|]. pose proof (insert_tidy L1 L2 a x Ht Hr HF H1 H2) as Ht'.
  split_and!.
  - split.
    + rewrite haddr_app. cbn [haddr]. destruct (decide (L1 = [])) as [->|Hne]; cbn [with_used with_list vma_list]; [done|].
      rewrite Hh, haddr_app. by destruct L1 as [|[b y] L1].
    + apply vseg_app. cbn [vseg haddr]. split_and!; [done|done| |].
      * destruct Hse2 as (_ & Hf & _). rewrite Hf, E1, lookup_insert_eq by (by apply not_elem_of_app). done.
      * done.
    + rewrite fmap_app. cbn [fmap list_fmap fst snd]. apply NoDup_app in Hn as (? & Hd & ?). apply NoDup_app. split_and!; [done| |].
      * intros b Hb [->|Hb2]%elem_of_cons; [done|]. by eapply Hd.
      * by apply NoDup_cons.
    + intros q. destruct Hse1 as (E1n & _), Hse2 as (E2n & _). rewrite E2n, E1n, names_app, names_cons. rewrite names_app in Hnm.
      rewrite !elem_of_app. intros [Hq|[Hq|Hq]]; [apply Hnm, elem_of_app; tauto| |apply Hnm, elem_of_app; tauto].
      case_bool_decide; [|by apply not_elem_of_nil in Hq]. apply list_elem_of_singleton in Hq as ->. by apply Hname.
    + rewrite names_app, names_cons. rewrite names_app in Ho. case_bool_decide as Hnz; [|done].
      destruct (Hname Hnz) as [_ Hni]. rewrite names_app in Hni. apply not_elem_of_app in Hni as [Hn1 Hn2].
      apply NoDup_app in Ho as (? & Hd & ?). apply NoDup_app. split_and!; [done| |].
      * intros b Hb [->|Hb2]%elem_of_cons; [done|]. by eapply Hd.
      * by apply NoDup_cons.
    + done.
    + destruct (decide (L1 = [])); cbn [with_used with_list vm_used]; rewrite Hu, !total_app, total_cons; apply tidy_total in Ht';
        rewrite total_app, total_cons in Ht'; rewrite u64_id; lia.
  - by destruct (decide (L1 = [])).
  - destruct (same_except_trans _ _ _ _ _ Hse1 Hse2) as (? & Hf & ?). split_and!; [done| |done].
    intros b Hb. apply Hf. rewrite fmap_app in Hb. done.
Qed.

(** ** Taking an area out *)

Lemma nodup_mid (l k : list Z) a : NoDup (l ++ a :: k) <-> (a ∉ l) /\ (a ∉ k) /\ NoDup (l ++ k).
Proof.
  rewrite <- (Permutation_middle l k a). rewrite NoDup_cons, not_elem_of_app. tauto.
Qed.

Lemma fmap_mid {B} (f : Z * area -> B) L1 a x L2 : f <$> (L1 ++ (a, x) :: L2) = (f <$> L1) ++ (f (a, x) :: (f <$> L2)).
Proof. by rewrite fmap_app. Qed.

Lemma tidy_remove L1 a x L2 : tidy (L1 ++ (a, x) :: L2) -> tidy (L1 ++ L2).
Proof.
  rewrite !tidy_app, tidy_cons. intros (T1 & (_ & T2 & _) & T12). split_and!; [done|done|].
  intros y z Hy Hz. apply T12; [done|]. by apply elem_of_cons; right.
Qed.

Lemma unlink_spec h g L1 a x L2 :
  vm_ok h g (L1 ++ (a, x) :: L2) ->
  exists h' g', unlink_vma h g a = Some (h', g') /\ vm_ok h' g' (L1 ++ L2) /\ vm_total g' = vm_total g /\
    h_vma h' !! a = h_vma h !! a /\ same_except h h' (L1.*1 ++ L2.*1).
Proof.
  intros [Hh Hs Hn Hnm Ho Ht Hu]. apply vseg_app in Hs as [S1 S2]. cbn [vseg haddr] in S1, S2. destruct S2 as (Ha & Hm & S2).
  rewrite fmap_mid in Hn. apply nodup_mid in Hn as (N1 & N2 & Hn). cbn [fst] in N1, N2.
  unfold unlink_vma, read. rewrite Hm. cbn [mbind option_bind vm_prev vm_next v_area].
  destruct (relink_spec h g L1 L2 a a (haddr L2 0) (laddr 0 L1) S1 S2 Hn) as (h' & -> & S3 & S4 & Hse).
  cbn [mbind option_bind]. eexists h', _. split; [done|]. pose proof (tidy_remove _ _ _ _ Ht) as Ht'. split_and!; [split|..].
  - rewrite haddr_app. destruct (decide (L1 = [])) as [->|Hne]; cbn [with_used with_list vma_list]; [done|].
    rewrite Hh, haddr_app. by destruct L1 as [|[b y] L1].
  - by apply vseg_app.
  - by rewrite fmap_app.
  - intros q Hq. destruct Hse as (-> & _). apply Hnm. rewrite names_app, names_cons. rewrite names_app in Hq.
    apply elem_of_app in Hq as [?|?]; rewrite !elem_of_app; tauto.
  - rewrite names_app, names_cons in Ho. rewrite names_app. case_bool_decide; [|done]. by apply nodup_mid in Ho as (_ & _ & ?).
  - done.
  - rewrite total_app, total_cons in Hu. apply tidy_total in Ht'. rewrite total_app in *.
    destruct (decide (L1 = [])); cbn [with_used with_list vm_used]; rewrite Hu, u64_id; lia.
  - by destruct (decide (L1 = [])).
  - destruct Hse as (_ & Hf & _). rewrite Hf by (by apply not_elem_of_app). done.
  - done.
Qed.

(** The heap without a node and its string. *)
Definition freed_area (h h' : vheap) (a : Z) (x : area) : Prop :=
  h_vma h' = delete a (h_vma h) /\
  h_name h' = if bool_decide (vm_name x = 0) then h_name h else delete (vm_name x) (h_name h).

Lemma vma_free_spec h a x n p :
  h_vma h !! a = Some (mkVma x n p) -> a <> 0 -> (vm_name x <> 0 -> is_Some (h_name h !! vm_name x)) ->
  exists h', vma_free h a = Some h' /\ freed_area h h' a x.
Proof.
  intros Hm Ha Hn. unfold vma_free. rewrite (proj2 (Z.eqb_neq _ _) Ha). unfold read. rewrite Hm. cbn [mbind option_bind v_area].
  unfold free_name, free_node, read, freed_area. destruct (Z.eqb_spec (vm_name x) 0) as [E|E]; cbn [negb mbind option_bind].
  - rewrite Hm. cbn [mbind option_bind]. eexists. split; [done|]. by rewrite bool_decide_eq_true_2.
  - destruct (Hn E) as [s Hs]. rewrite Hs. cbn [mbind option_bind h_vma h_name]. rewrite Hm. cbn [mbind option_bind].
    eexists. split; [done|]. by rewrite bool_decide_eq_false_2.
Qed.

(** ** Contents of an area

    What an area describes: its fields, with the name's characters in place of
    the pointer. *)

Definition aview (h : vheap) (x : area) : area * option (list Z) :=
  (set_name x 0, if vm_name x =? 0 then None else h_name h !! vm_name x).

Definition views (h : vheap) L : list (area * option (list Z)) := aview h <$> L.*2.

Lemma views_app h L K : views h (L ++ K) = views h L ++ views h K.
Proof. unfold views. by rewrite !fmap_app. Qed.

Lemma views_cons h a x L : views h ((a, x) :: L) = aview h x :: views h L.
Proof. done. Qed.

Lemma views_frame h h' L : (forall q, q ∈ names_of L -> h_name h' !! q = h_name h !! q) -> views h' L = views h L.
Proof.
  intros E. unfold views. apply list_fmap_ext. intros i x Hi. unfold aview. f_equal.
  destruct (Z.eqb_spec (vm_name x) 0) as [|Hne]; [done|]. apply E.
  apply list_elem_of_lookup_2 in Hi. apply list_elem_of_fmap in Hi as ([a y] & -> & Hy). by eapply names_elem.
Qed.

(** Unlinking and freeing a node of the list: the others stay, the node and
    its string are gone, and nothing else changes. *)
Lemma unlink_free_spec h g L1 a x L2 :
  vm_ok h g (L1 ++ (a, x) :: L2) ->
  exists h1 h' g', unlink_vma h g a = Some (h1, g') /\ vma_free h1 a = Some h' /\
    vm_ok h' g' (L1 ++ L2) /\ views h' (L1 ++ L2) = views h (L1 ++ L2) /\
    (forall b, b ∉ (L1 ++ L2).*1 -> h_vma h' !! b = if bool_decide (b = a) then None else h_vma h !! b) /\
    (forall q, h_name h' !! q = if bool_decide (q <> 0 /\ q = vm_name x) then None else h_name h !! q).
Proof.
  intros H. assert (a <> 0) as Ha.
  { eapply vseg_nonzero; [apply H|]. rewrite fmap_mid. by apply elem_of_app; right; apply elem_of_cons; left. }
  destruct (unlink_spec h g L1 a x L2 H) as (h1 & g1 & E & H1 & Ht & Ea & Hse).
  assert (exists n p, h_vma h !! a = Some (mkVma x n p)) as (n & p & Hm).
  { eapply vseg_lookup; [apply H|]. apply elem_of_app; right; by apply elem_of_cons; left. }
  assert (vm_name x <> 0 -> is_Some (h_name h !! vm_name x) /\ vm_name x ∉ names_of (L1 ++ L2)) as Hnx.
  { intros Hne. pose proof (ok_own _ _ _ H) as Ho. rewrite names_app, names_cons, bool_decide_eq_true_2 in Ho by done.
    apply nodup_mid in Ho as (Hn1 & Hn2 & _). rewrite names_app. split; [|by apply not_elem_of_app].
    apply (ok_names _ _ _ H). eapply names_elem; [|done]. apply elem_of_app; right; by apply elem_of_cons; left. }
  pose proof Hse as (En & Hf & _).
  destruct (vma_free_spec h1 a x n p) as (h2 & Ef & F1 & F2); [by rewrite Ea|done|rewrite En; intros; by apply Hnx|].
  rewrite En in F2.
  assert (forall q, h_name h2 !! q = if bool_decide (q <> 0 /\ q = vm_name x) then None else h_name h !! q) as Hq.
  { intros q. rewrite F2. destruct (decide (vm_name x = 0)) as [Hz|Hz], (decide (q <> 0 /\ q = vm_name x)) as [Hc|Hc].
    - destruct Hc; congruence.
    - by rewrite (bool_decide_eq_true_2 _ Hz), (bool_decide_eq_false_2 _ Hc).
    - rewrite (bool_decide_eq_false_2 _ Hz), (bool_decide_eq_true_2 _ Hc). destruct Hc as [_ ->]. apply lookup_delete_eq.
    - rewrite (bool_decide_eq_false_2 _ Hz), (bool_decide_eq_false_2 _ Hc). apply lookup_delete_ne. intros <-. tauto. }
  assert (forall q, q ∈ names_of (L1 ++ L2) -> h_name h2 !! q = h_name h !! q) as Hq'.
  { intros q Hin. rewrite Hq, bool_decide_eq_false_2; [done|]. intros [Hz ->]. by apply (Hnx Hz). }
  exists h1, h2, g1. split_and!; [done|done| |by apply views_frame| |done].
  - eapply vm_ok_frame; [exact H1| |intros q Hin; by rewrite En, Hq'].
    intros b Hb. rewrite F1. apply lookup_delete_ne. intros <-.
    pose proof (ok_nodup _ _ _ H) as Hn. rewrite fmap_mid in Hn. apply nodup_mid in Hn as (N1 & N2 & _).
    rewrite fmap_app in Hb. by apply elem_of_app in Hb as [?|?].
  - clear F2 Hq. intros b Hb. rewrite F1. case_bool_decide as Hba; [subst; apply lookup_delete_eq|].
    rewrite lookup_delete_ne by congruence. rewrite fmap_app in Hb. by apply Hf.
Qed.

(** [vma_remove] and [vma_free] of a node of the list. *)
Lemma remove_free_spec h g L1 a x L2 :
  vm_ok h g (L1 ++ (a, x) :: L2) ->
  exists h' g', ('(h, g, _) ← vma_remove h g a; h ← vma_free h a; Some (h, g)) = Some (h', g') /\
    vm_ok h' g' (L1 ++ L2) /\ views h' (L1 ++ L2) = views h (L1 ++ L2).
Proof.
  intros H. destruct (unlink_free_spec h g L1 a x L2 H) as (h1 & h' & g' & E1 & E2 & H' & V & _).
  assert (a <> 0) as Ha.
  { eapply vseg_nonzero; [apply H|]. rewrite fmap_mid. by apply elem_of_app; right; apply elem_of_cons; left. }
  exists h', g'. unfold vma_remove. rewrite (proj2 (Z.eqb_neq _ _) Ha), E1. cbn [mbind option_bind]. rewrite E2. by split_and!.
Qed.

(** ** [vma_manager_exit_cleanup] *)

Lemma cleanup_loop_spec : forall L fuel h g,
  vm_ok h g L -> (length L < fuel)%nat ->
  exists h' g', cleanup_loop fuel h g (haddr L 0) = Some (h', g') /\
    (forall b, h_vma h' !! b = if bool_decide (b ∈ L.*1) then None else h_vma h !! b) /\
    (forall q, h_name h' !! q = if bool_decide (q ∈ names_of L) then None else h_name h !! q).
Proof.
  induction L as [|[a x] L IH]; intros [|fuel] h g H Hf; simpl in Hf; try lia; cbn [cleanup_loop haddr].
  { exists h, g. split_and!; [done| |]; intros b; rewrite bool_decide_eq_false_2; try done; apply not_elem_of_nil. }
  pose proof (ok_seg _ _ _ H) as (Ha & Hm & _). rewrite (proj2 (Z.eqb_neq _ _) Ha).
  change (read h a) with (h_vma h !! a). rewrite Hm. cbn [mbind option_bind vm_next].
  destruct (unlink_free_spec h g [] a x L H) as (h1 & h2 & g2 & -> & E2 & H2 & _ & Hb2 & Hq2).
  cbn [mbind option_bind app] in *. rewrite E2. cbn [mbind option_bind].
  destruct (IH fuel h2 g2 H2 ltac:(lia)) as (h' & g' & -> & Hb & Hq). exists h', g'. split_and!; [done| |].
  - intros b. rewrite Hb. cbn [fmap list_fmap fst]. destruct (decide (b ∈ L.*1)) as [Hi|Hi].
    { by rewrite !bool_decide_eq_true_2 by (done || by apply elem_of_cons; right). }
    rewrite (bool_decide_eq_false_2 _ Hi), Hb2 by done. destruct (decide (b = a)) as [->|Hne].
    { by rewrite !bool_decide_eq_true_2 by (done || by apply elem_of_cons; left). }
    by rewrite !bool_decide_eq_false_2 by (rewrite ?elem_of_cons; tauto).
  - intros q. rewrite Hq, Hq2. destruct (decide (q ∈ names_of L)) as [Hi|Hi].
    { by rewrite !bool_decide_eq_true_2 by (rewrite ?names_cons, ?elem_of_app; tauto). }
    rewrite (bool_decide_eq_false_2 _ Hi). apply (f_equal (fun b : bool => if b then None else h_name h !! q)), bool_decide_ext.
    rewrite names_cons, elem_of_app. case_bool_decide as Hx; [rewrite list_elem_of_singleton|rewrite elem_of_nil]; split; try tauto.
    + intros [->|?]; tauto.
    + intros [Hz ->]. tauto.
Qed.

Lemma cleanup_spec h g L :
  vm_ok h g L ->
  exists h', vma_manager_exit_cleanup h g = Some (h', mkMgr 0 0 0) /\
    (forall b, h_vma h' !! b = if bool_decide (b ∈ L.*1) then None else h_vma h !! b) /\
    (forall q, h_name h' !! q = if bool_decide (q ∈ names_of L) then None else h_name h !! q).
Proof.
  intros H. unfold vma_manager_exit_cleanup. rewrite (ok_head _ _ _ H).
  destruct (cleanup_loop_spec L (S (size (h_vma h))) h g H (vm_ok_fuel _ _ _ H)) as (h' & g' & -> & Hb & Hq).
  by exists h'.
Qed.

(** ** Changing an area in place *)

Lemma vseg_set m L1 a x L2 y :
  vseg m 0 (L1 ++ (a, x) :: L2) 0 -> NoDup (L1 ++ (a, x) :: L2).*1 ->
  vseg (<[a := mkVma y (haddr L2 0) (laddr 0 L1)]> m) 0 (L1 ++ (a, y) :: L2) 0.
Proof.
  intros Hs Hn. rewrite fmap_mid in Hn. apply nodup_mid in Hn as (N1 & N2 & _). cbn [fst] in *.
  apply vseg_app in Hs as [S1 S2]. apply vseg_app. cbn [vseg haddr] in *. destruct S2 as (Ha & Hm & S2). split_and!.
  - eapply vseg_frame; [|exact S1]. intros b Hb. apply lookup_insert_ne. by intros ->.
  - done.
  - apply lookup_insert_eq.
  - eapply vseg_frame; [|exact S2]. intros b Hb. apply lookup_insert_ne. by intros ->.
Qed.

(** An area shrinks to a part of itself, with the same name. *)
Lemma shrink_spec h g L1 a x L2 f :
  vm_ok h g (L1 ++ (a, x) :: L2) -> vm_name (f x) = vm_name x -> range_ok (f x) ->
  vm_start x <= vm_start (f x) -> vm_end (f x) <= vm_end x ->
  let lost := vm_end x - vm_start x - (vm_end (f x) - vm_start (f x)) in
  exists h', modify h a (fun v => mkVma (f (v_area v)) (vm_next v) (vm_prev v)) = Some h' /\
    vm_ok h' (with_used g (u64 (vm_used g - lost))) (L1 ++ (a, f x) :: L2) /\ h_name h' = h_name h /\
    h_vma h' !! a = Some (mkVma (f x) (haddr L2 0) (laddr 0 L1)).
Proof.
  intros [Hh Hs Hn Hnm Ho Ht Hu] Hname Hr Hst Hen lost. pose proof Hs as Hs'. apply vseg_app in Hs' as [_ S2]. cbn [vseg] in S2.
  destruct S2 as (Ha & Hm & _). unfold modify, read. rewrite Hm. cbn [mbind option_bind v_area vm_next vm_prev].
  eexists. split; [done|]. cbn [put_vma h_vma h_name]. split_and!; [split|done|by rewrite lookup_insert_eq].
  - cbn [with_used vma_list]. rewrite Hh, !haddr_app. done.
  - by eapply vseg_set.
  - by rewrite fmap_mid in *.
  - rewrite names_app, names_cons in *. by rewrite Hname.
  - rewrite names_app, names_cons in *. by rewrite Hname.
  - apply tidy_app in Ht as (T1 & T2 & T12). apply tidy_cons in T2 as (_ & T2 & B2). apply tidy_app. split_and!; [done| |].
    + apply tidy_cons. split_and!; [done|done|]. eapply Forall_impl; [exact B2|]. unfold before. intros; lia.
    + cbn [fmap list_fmap snd] in *. intros y z Hy [->|Hz]%elem_of_cons.
      * assert (before y x) by (apply T12; [done|by apply elem_of_cons; left]). unfold before in *. lia.
      * apply T12; [done|by apply elem_of_cons; right].
  - cbn [with_used vm_used]. pose proof (tidy_total _ Ht) as Hb. rewrite Hu. rewrite total_app, total_cons in *. unfold lost.
    destruct Hr as [Hr1 Hr2]. apply tidy_app in Ht as (T1 & T2 & _). apply tidy_cons in T2 as (_ & T2 & _).
    apply tidy_total in T1, T2. rewrite total_app, total_cons, u64_id; lia.
Qed.
