(* ===== verification/VmaUnmap.v ===== *)
(** * Splitting and unmapping areas

    [vma_split] and [vma_unmap_range] on the list of areas, and what
    unmapping means for an address. *)

From stdpp Require Import gmap sorting.
From S2P Require Import Prelude Vma VmaList VmaSpec.

Implicit Types (L K : list (Z * area)).

(** ** The abstract operation *)

(** The part of an area from [e] on: a file area keeps its file position. *)
Definition right_part (x : area) (e : Z) : area :=
  set_start (if is_file x then set_offset x (i64 (vm_offset x + (e - vm_start x))) else x) e.

(** What is left of an area when [s, e) is unmapped. *)
Definition cut (s e : Z) (v : area * option (list Z)) : list (area * option (list Z)) :=
  let '(x, nm) := v in
  if (vm_start x >=? s) && (vm_end x <=? e) then []
  else if (vm_end x <=? s) || (vm_start x >=? e) then [(x, nm)]
  else if (vm_start x <? s) && (vm_end x >? e) then [(set_end x s, nm); (right_part x e, nm)]
  else if vm_start x <? s then [(set_end x s, nm)]
  else [(right_part x e, nm)].

(** What backs an address: the attributes of its area, and for a file area
    the position in the file. *)
Record backing := mkBacking { b_flags : Z; b_type : vma_type_t; b_fd : Z; b_shm : Z; b_name : option (list Z); b_pos : option Z }.

Definition backing_of (v : area * option (list Z)) (a : Z) : backing :=
  let '(x, nm) := v in
  mkBacking (vm_flags x) (vm_type x) (vm_fd x) (shm_id x) nm
    (if is_file x then Some (i64 (vm_offset x + (a - vm_start x))) else None).

Fixpoint lookup_addr (V : list (area * option (list Z))) (a : Z) : option backing :=
  match V with
  | [] => None
  | v :: V => if (vm_start (fst v) <=? a) && (a <? vm_end (fst v)) then Some (backing_of v a) else lookup_addr V a
  end.

Lemma lookup_addr_app V W a :
  lookup_addr (V ++ W) a = match lookup_addr V a with Some b => Some b | None => lookup_addr W a end.
Proof. induction V as [|v V IH]; simpl; [done|]. by case_if. Qed.

Lemma i64_add x y : i64 (i64 x + y) = i64 (x + y).
Proof.
  unfold i64. f_equal.
  replace ((x + two63) mod two64 - two63 + y + two63) with ((x + two63) mod two64 + y) by lia.
  rewrite Z.add_mod_idemp_l by lia. f_equal. lia.
Qed.

Lemma backing_right x e nm a : backing_of (right_part x e, nm) a = backing_of (x, nm) a.
Proof.
  unfold right_part, backing_of, is_file. destruct (bool_decide (vm_type x = VMA_TYPE_FILE)) eqn:E; simpl; rewrite E; [|done].
  do 2 f_equal. rewrite i64_add. f_equal. lia.
Qed.

Lemma cut_lookup s e v a :
  s < e ->
  lookup_addr (cut s e v) a =
    if (vm_start (fst v) <=? a) && (a <? vm_end (fst v)) && negb ((s <=? a) && (a <? e)) then Some (backing_of v a) else None.
Proof.
  intros Hse. destruct v as [x nm]. cbn [fst]. unfold cut.
  assert (forall b, vm_start (right_part x b) = b /\ vm_end (right_part x b) = vm_end x) as Hrp.
  { intros b. unfold right_part. by case_if. }
  destruct (Hrp e) as [R1 R2].
  repeat case_if; cbn [lookup_addr fst set_end vm_start vm_end]; rewrite ?R1, ?R2, ?backing_right; repeat case_if; try done; bools; lia.
Qed.

(** Unmapping removes exactly the addresses of the range. *)
Lemma unmap_lookup s e V a :
  s < e -> lookup_addr (V ≫= cut s e) a = if (s <=? a) && (a <? e) then None else lookup_addr V a.
Proof.
  intros Hse. induction V as [|v V IH]; cbn [mbind list_bind lookup_addr]; [by case_if|].
  change (list_bind _ _ (cut s e) V) with (V ≫= cut s e).
  rewrite lookup_addr_app, cut_lookup, IH by done.
  destruct ((vm_start v.1 <=? a) && (a <? vm_end v.1)), ((s <=? a) && (a <? e)); done.
Qed.

(** ** [vma_split] *)

Section Alloc.
Context (malloc : vheap -> Z -> Z).

(** An address [malloc] returns is not in use. *)
Definition malloc_fresh : Prop :=
  forall h n, malloc h n <> 0 -> h_vma h !! malloc h n = None /\ h_name h !! malloc h n = None.

(** No allocation fails. *)
Definition malloc_total : Prop := forall h n, malloc h n <> 0.

Context (Hfresh : malloc_fresh) (Htotal : malloc_total).

Lemma vma_alloc_spec h :
  exists h' p, vma_alloc malloc h = (h', p) /\ p <> 0 /\ h_vma h !! p = None /\ h_name h' = h_name h /\
    h_vma h' = <[p := mkVma (mkArea 0 0 0 VMA_TYPE_ANON (-1) 0 (-1) 0) 0 0]> (h_vma h).
Proof.
  unfold vma_alloc. pose proof (Htotal h sizeof_vma) as Hp. rewrite (proj2 (Z.eqb_neq _ _) Hp).
  eexists _, _. split; [done|]. split_and!; [done| |done|done]. by apply Hfresh.
Qed.

(** The copy of a name that is alive. *)
Lemma dup_name_spec h q :
  (q <> 0 -> is_Some (h_name h !! q)) ->
  exists h' q', dup_name malloc h q = Some (h', q') /\ h_vma h' = h_vma h /\ (q' = 0 <-> q = 0) /\
    (q <> 0 -> h_name h !! q' = None /\ h_name h' !! q' = h_name h !! q) /\
    (forall r, is_Some (h_name h !! r) -> h_name h' !! r = h_name h !! r).
Proof.
  intros Hq. unfold dup_name. destruct (Z.eqb_spec q 0) as [->|Hne]; [exists h, 0; by split_and!|].
  destruct (Hq Hne) as [s Hs]. rewrite Hs. cbn [mbind option_bind]. pose proof (Htotal h (zlen s + 1)) as Hp.
  rewrite (proj2 (Z.eqb_neq _ _) Hp). destruct (Hfresh _ _ Hp) as [_ Hf]. eexists _, _. split; [done|]. split_and!; try done.
  - cbn [h_name]. by rewrite lookup_insert_eq.
  - intros r [t Hr]. cbn [h_name]. apply lookup_insert_ne. intros <-. congruence.
Qed.

Lemma tidy_split L1 a b x y z L2 :
  tidy (L1 ++ (a, x) :: L2) -> vm_start y = vm_start x -> vm_end y = vm_start z -> vm_end z = vm_end x ->
  vm_start x < vm_end y < vm_end x -> tidy (L1 ++ (a, y) :: (b, z) :: L2).
Proof.
  intros (T1 & T2 & T12)%tidy_app E1 E2 E3 Hlt. apply tidy_cons in T2 as ([Hx1 Hx2] & T2 & B).
  apply tidy_app. split_and!; [done| |].
  - rewrite !tidy_cons. unfold range_ok. cbn [fmap list_fmap snd]. split_and!; try done; try lia.
    + eapply Forall_impl; [exact B|]. unfold before. intros; lia.
    + constructor; [unfold before; lia|]. eapply Forall_impl; [exact B|]. unfold before. intros w Hw. simpl in Hw. lia.
  - cbn [fmap list_fmap snd] in *. intros w v Hw. assert (before w x) as Hwx by (apply T12; [done|by apply elem_of_cons; left]).
    unfold before in *. intros [->|[->|Hv]%elem_of_cons]%elem_of_cons; [lia|lia|].
    apply T12; [done|by apply elem_of_cons; right].
Qed.

(** The node after the new one points back to it. *)
Lemma fix_prev h a L2 b :
  vseg (h_vma h) a L2 0 -> NoDup L2.*1 ->
  exists h', (if negb (haddr L2 0 =? 0) then modify h (haddr L2 0) (fun w => set_prev w b) else Some h) = Some h' /\
    vseg (h_vma h') b L2 0 /\ same_except h h' L2.*1.
Proof.
  intros S2 Hn2. destruct (decide (L2 = [])) as [->|Hne]; [by exists h|].
  destruct (set_prev_spec h a L2 0 b S2 Hn2 Hne) as (h4 & E & S4 & Hse).
  assert (haddr L2 0 ∈ L2.*1) as Hin by (destruct L2 as [|[c w] L2']; [done|]; simpl; by apply elem_of_cons; left).
  pose proof (vseg_nonzero _ _ _ _ _ S2 Hin) as Hnz. rewrite (proj2 (Z.eqb_neq _ _) Hnz). cbn [negb].
  exists h4. split_and!; [done|done|]. destruct Hse as (? & Hf & ?). split_and!; [done| |done].
  intros c Hc. apply Hf. by intros ->%list_elem_of_singleton.
Qed.

(** The strings of the list after a split: those there were, and a fresh copy
    for the new node. *)
Lemma split_names h h2 g L1 a x L2 b y q addr :
  vm_ok h g (L1 ++ (a, x) :: L2) -> vm_name y = q -> (q = 0 <-> vm_name x = 0) ->
  (vm_name x <> 0 -> h_name h !! q = None /\ h_name h2 !! q = h_name h !! vm_name x) ->
  (forall r, is_Some (h_name h !! r) -> h_name h2 !! r = h_name h !! r) ->
  (forall r, r ∈ names_of (L1 ++ (a, set_end x addr) :: (b, y) :: L2) -> is_Some (h_name h2 !! r)) /\
  NoDup (names_of (L1 ++ (a, set_end x addr) :: (b, y) :: L2)).
Proof.
  intros H Y3 Hq0 Hq Hkeep. pose proof (ok_names _ _ _ H) as Hnm. pose proof (ok_own _ _ _ H) as Ho.
  rewrite names_app, names_cons in Hnm, Ho. rewrite names_app, !names_cons, Y3. cbn [set_end vm_name].
  assert (forall r, is_Some (h_name h !! r) -> is_Some (h_name h2 !! r)) as Hk by (intros r Hr2; by rewrite Hkeep).
  destruct (decide (vm_name x = 0)) as [Hz|Hz].
  { rewrite !bool_decide_eq_false_2 in * by tauto. cbn [app] in *. split; [|done]. intros r Hr. by apply Hk, Hnm. }
  rewrite !bool_decide_eq_true_2 in * by tauto. cbn [app] in *. destruct (Hq Hz) as [Hqn Hqv].
  assert (q ∉ names_of L1 ++ vm_name x :: names_of L2) as Hnew by (intros Hi; apply Hnm in Hi; rewrite Hqn in Hi; by destruct Hi).
  assert (names_of L1 ++ vm_name x :: q :: names_of L2 ≡ₚ q :: names_of L1 ++ vm_name x :: names_of L2) as Hp.
  { rewrite (Permutation_swap q (vm_name x)). by rewrite <- Permutation_middle. }
  split.
  - intros r. rewrite Hp. intros [->|Hr]%elem_of_cons; [|by apply Hk, Hnm]. rewrite Hqv. apply Hnm.
    apply elem_of_app. right. by apply elem_of_cons; left.
  - rewrite Hp. by apply NoDup_cons.
Qed.

Lemma vma_split_spec h g L1 a x L2 addr :
  vm_ok h g (L1 ++ (a, x) :: L2) -> vm_start x < addr < vm_end x ->
  exists h' b y, vma_split malloc h a addr = Some (h', 0) /\
    vm_ok h' g (L1 ++ (a, set_end x addr) :: (b, y) :: L2) /\
    aview h' y = (right_part (set_name x 0) addr, snd (aview h x)) /\
    (forall q, is_Some (h_name h !! q) -> h_name h' !! q = h_name h !! q).
Proof.
  intros H Hlt. pose proof H as [Hh Hs Hn Hnm Ho Ht Hu]. pose proof Hs as Hs'. apply vseg_app in Hs' as [S1 S2]. cbn [vseg haddr] in S1, S2.
  destruct S2 as (Ha & Hm & S2). unfold vma_split. rewrite (proj2 (Z.eqb_neq _ _) Ha). unfold read. rewrite Hm.
  cbn [mbind option_bind v_area vm_next]. replace ((addr <=? vm_start x) || (addr >=? vm_end x)) with false by lia.
  destruct (vma_alloc_spec h) as (h1 & b & -> & Hb & Hbf & En1 & Ev1). rewrite (proj2 (Z.eqb_neq _ _) Hb).
  assert (vm_name x <> 0 -> is_Some (h_name h1 !! vm_name x)) as Hnx.
  { intros Hne. rewrite En1. apply Hnm. eapply names_elem; [|done]. apply elem_of_app; right; by apply elem_of_cons; left. }
  destruct (dup_name_spec h1 (vm_name x) Hnx) as (h2 & q & -> & Ev2 & Hq0 & Hq & Hkeep). cbn [mbind option_bind].
  rewrite En1 in Hq, Hkeep.
  set (y := if is_file x then set_offset (set_start (set_name x q) addr) (i64 (vm_offset (set_start (set_name x q) addr) + (addr - vm_start x)))
            else set_start (set_name x q) addr).
  assert (vm_start y = addr /\ vm_end y = vm_end x /\ vm_name y = q) as (Y1 & Y2 & Y3) by (unfold y; by case_if).
  assert (a <> b) as Hab by (intros ->; congruence).
  assert (h_vma (put_vma h2 b (mkVma y (haddr L2 0) a)) !! a = Some (mkVma x (haddr L2 0) (laddr 0 L1))) as Hm3.
  { cbn [put_vma h_vma]. rewrite lookup_insert_ne by done. rewrite Ev2, Ev1, lookup_insert_ne by done. done. }
  destruct (modify_ok _ a _ (fun v => mkVma (set_end (v_area v) addr) b (vm_prev v)) Hm3) as (h3 & -> & Ev3 & Hse3).
  cbn [mbind option_bind].
  assert (forall c, c <> a -> c <> b -> h_vma h3 !! c = h_vma h !! c) as Hold.
  { intros c Hca Hcb. rewrite Ev3, lookup_insert_ne by done. cbn [put_vma h_vma]. rewrite lookup_insert_ne by done.
    rewrite Ev2, Ev1, lookup_insert_ne by done. done. }
  rewrite fmap_mid in Hn. apply nodup_mid in Hn as (N1 & N2 & Hn). cbn [fst] in N1, N2.
  assert ((b ∉ L1.*1) /\ (b ∉ L2.*1)) as [B1 B2].
  { split; intros Hi; [eapply vseg_dom in Hi; [|exact S1]|eapply vseg_dom in Hi; [|exact S2]]; rewrite Hbf in Hi; by destruct Hi. }
  assert (vseg (h_vma h3) 0 L1 a) as S1'.
  { eapply vseg_frame; [|exact S1]. intros c Hc. apply Hold; by intros ->. }
  assert (vseg (h_vma h3) a L2 0) as S2'.
  { eapply vseg_frame; [|exact S2]. intros c Hc. apply Hold; by intros ->. }
  assert (NoDup L2.*1) as Hn2 by (by apply NoDup_app in Hn as (_ & _ & ?)).
  destruct (fix_prev h3 a L2 b S2' Hn2) as (h4 & -> & S4 & Hse4).
  cbn [mbind option_bind]. exists h4, b, y. split; [done|].
  assert (h_name h4 = h_name h2) as En4 by (destruct Hse4 as (-> & _), Hse3 as (-> & _); done).
  destruct Hse4 as (_ & Hf4 & _).
  pose proof (split_names h h2 g L1 a x L2 b y q addr H Y3 Hq0 Hq Hkeep) as Hnames. split_and!; [split|..].
  - rewrite Hh, !haddr_app. done.
  - apply vseg_app. cbn [vseg haddr]. split_and!; try done.
    + eapply vseg_frame; [|exact S1']. intros c Hc. apply Hf4. intros Hc2. apply NoDup_app in Hn as (_ & Hd & _). by eapply Hd.
    + rewrite Hf4, Ev3, lookup_insert_eq by done. done.
    + rewrite Hf4, Ev3, lookup_insert_ne by done. cbn [put_vma h_vma]. by rewrite lookup_insert_eq.
  - rewrite fmap_mid. cbn [fmap list_fmap fst]. apply nodup_mid. rewrite not_elem_of_cons. split_and!; [done|done|done|].
    apply nodup_mid. by split_and!.
  - rewrite En4. apply Hnames.
  - apply Hnames.
  - apply (tidy_split _ _ _ x); [done|done|by rewrite Y1|done|done].
  - rewrite Hu, !total_app, !total_cons, Y1, Y2. cbn [set_end vm_start vm_end]. lia.
  - unfold aview. rewrite Y3, En4. unfold right_part. f_equal.
    + unfold y, is_file. cbn [set_name vm_type]. by case_if.
    + cbn [snd]. destruct (Z.eqb_spec (vm_name x) 0) as [Hz|Hz].
      * rewrite (proj2 Hq0 Hz). done.
      * destruct (Z.eqb_spec q 0); [tauto|]. by apply Hq.
  - intros r Hr. rewrite En4. by apply Hkeep.
Qed.

(** ** [vma_unmap_range] *)

Lemma views_keep h h' g L :
  vm_ok h g L -> (forall q, is_Some (h_name h !! q) -> h_name h' !! q = h_name h !! q) -> views h' L = views h L.
Proof. intros H Hk. apply views_frame. intros q Hq. apply Hk. by apply (ok_names _ _ _ H). Qed.

Lemma aview_name h h' x : (vm_name x <> 0 -> h_name h' !! vm_name x = h_name h !! vm_name x) -> aview h' x = aview h x.
Proof. intros E. unfold aview. f_equal. destruct (Z.eqb_spec (vm_name x) 0); auto. Qed.

(** The middle of an area is cut out with two splits and one removal. *)
Lemma unmap_middle h g L1 a x L2 s e :
  vm_ok h g (L1 ++ (a, x) :: L2) -> s < e -> vm_start x < s -> e < vm_end x ->
  exists h' g' b y,
    ('(h, _) ← vma_split malloc h a e; '(h, _) ← vma_split malloc h a s; v ← read h a;
     let middle := vm_next v in '(h, g, _) ← vma_remove h g middle; h ← vma_free h middle; Some (h, g)) = Some (h', g') /\
    vm_ok h' g' (L1 ++ (a, set_end x s) :: (b, y) :: L2) /\
    views h' (L1 ++ (a, set_end x s) :: (b, y) :: L2) =
      views h L1 ++ (set_end (set_name x 0) s, snd (aview h x)) :: (right_part (set_name x 0) e, snd (aview h x)) :: views h L2.
Proof.
  intros H Hse Hs He.
  destruct (vma_split_spec h g L1 a x L2 e H ltac:(lia)) as (h1 & b & y & -> & H1 & Vy & K1). cbn [mbind option_bind].
  destruct (vma_split_spec h1 g L1 a (set_end x e) ((b, y) :: L2) s H1) as (h2 & c & z & -> & H2 & _ & K2); [simpl; lia|].
  cbn [mbind option_bind]. change (set_end (set_end x e) s) with (set_end x s) in H2.
  pose proof (ok_seg _ _ _ H2) as S2. apply vseg_app in S2 as [_ S2]. cbn [vseg haddr] in S2. destruct S2 as (_ & Hm & _).
  unfold read. rewrite Hm. cbn [mbind option_bind vm_next]. cbv zeta.
  replace (L1 ++ (a, set_end x s) :: (c, z) :: (b, y) :: L2) with ((L1 ++ [(a, set_end x s)]) ++ (c, z) :: (b, y) :: L2) in H2
    by (by rewrite <- app_assoc).
  destruct (remove_free_spec h2 g _ c z _ H2) as (h3 & g3 & E3 & H3 & V3).
  replace ((L1 ++ [(a, set_end x s)]) ++ (b, y) :: L2) with (L1 ++ (a, set_end x s) :: (b, y) :: L2) in H3, V3
    by (by rewrite <- app_assoc).
  rewrite E3. exists h3, g3, b, y. split_and!; [done|done|]. rewrite V3.
  assert (forall q, is_Some (h_name h !! q) -> h_name h2 !! q = h_name h !! q) as K.
  { intros q Hq. rewrite K2, K1; [done|done|]. by rewrite K1. }
  rewrite views_app, !views_cons. pose proof (ok_names _ _ _ H) as Hnm. rewrite names_app, names_cons in Hnm.
  assert (views h2 L1 = views h L1) as -> by (apply views_frame; intros q Hq; apply K, Hnm; rewrite !elem_of_app; tauto).
  assert (views h2 L2 = views h L2) as -> by (apply views_frame; intros q Hq; apply K, Hnm; rewrite !elem_of_app; tauto).
  assert (aview h2 y = aview h1 y) as ->.
  { apply aview_name. intros Hne. apply K2, (ok_names _ _ _ H1). eapply (names_elem _ b); [|done].
    rewrite elem_of_app, !elem_of_cons. tauto. }
  rewrite Vy. do 2 f_equal. unfold aview. cbn [set_end vm_name snd]. f_equal.
  destruct (Z.eqb_spec (vm_name x) 0) as [|Hne]; [done|]. apply K, Hnm. rewrite bool_decide_eq_true_2, !elem_of_app, list_elem_of_singleton by done. tauto.
Qed.

(** A piece of an area that keeps its name. *)
Lemma unmap_shrink h g L1 a x L2 f lost :
  vm_ok h g (L1 ++ (a, x) :: L2) -> vm_name (f x) = vm_name x -> range_ok (f x) ->
  vm_start x <= vm_start (f x) -> vm_end (f x) <= vm_end x ->
  lost = vm_end x - vm_start x - (vm_end (f x) - vm_start (f x)) ->
  exists h' g', (let g := with_used g (u64 (vm_used g - lost)) in
      h ← modify h a (fun v => mkVma (f (v_area v)) (vm_next v) (vm_prev v)); Some (h, g)) = Some (h', g') /\
    vm_ok h' g' (L1 ++ [(a, f x)] ++ L2) /\
    views h' (L1 ++ [(a, f x)] ++ L2) = views h L1 ++ [(set_name (f x) 0, snd (aview h x))] ++ views h L2.
Proof.
  intros H Hn Hr H1 H2 ->. destruct (shrink_spec h g L1 a x L2 f H Hn Hr H1 H2) as (h' & -> & H' & En & _).
  cbv zeta. cbn [mbind option_bind]. eexists h', _. split_and!; [done|done|].
  unfold views. rewrite !fmap_app. cbn [fmap list_fmap snd]. unfold aview. rewrite En, Hn. done.
Qed.

Lemma unmap_node_spec h g L1 a x L2 s e :
  vm_ok h g (L1 ++ (a, x) :: L2) -> s < e ->
  exists h' g' P, unmap_node malloc h g a s e = Some (h', g') /\ vm_ok h' g' (L1 ++ P ++ L2) /\
    views h' (L1 ++ P ++ L2) = views h L1 ++ cut s e (aview h x) ++ views h L2.
Proof.
  intros H Hse. pose proof (ok_tidy _ _ _ H) as Ht. apply tidy_app in Ht as (_ & Ht & _). apply tidy_cons in Ht as ([Hr1 Hr2] & _ & _).
  assert (h_vma h !! a = Some (mkVma x (haddr L2 0) (laddr 0 L1))) as Hm.
  { pose proof (ok_seg _ _ _ H) as Hs. apply vseg_app in Hs as [_ Hs]. by destruct Hs as (_ & ? & _). }
  unfold unmap_node. change (read h a) with (h_vma h !! a). rewrite Hm. cbn [mbind option_bind v_area]. unfold aview at 1.
  cbn [cut set_name vm_start vm_end]. destruct ((vm_start x >=? s) && (vm_end x <=? e)) eqn:E1.
  { destruct (remove_free_spec h g L1 a x L2 H) as (h' & g' & E & H' & V). exists h', g', []. split_and!; [done|done|].
    cbn [app]. by rewrite V, views_app. }
  destruct ((vm_end x <=? s) || (vm_start x >=? e)) eqn:E2; cbn [negb].
  { exists h, g, [(a, x)]. split_and!; [done|done|]. unfold views. by rewrite !fmap_app. }
  destruct ((vm_start x <? s) && (vm_end x >? e)) eqn:E3.
  { bools. destruct (unmap_middle h g L1 a x L2 s e H Hse ltac:(lia) ltac:(lia)) as (h' & g' & b & y & E & H' & V).
    exists h', g', [(a, set_end x s); (b, y)]. by split_and!. }
  destruct (Z.ltb_spec (vm_start x) s) as [E4|E4].
  - apply (unmap_shrink h g L1 a x L2 (fun y => set_end y s)) with (lost := vm_end x - s) in H as (h' & g' & E & H' & V);
      try done; unfold range_ok; cbn [set_end vm_start vm_end]; bools; try lia.
    exists h', g', [(a, set_end x s)]. by split_and!.
  - destruct (Z.gtb_spec (vm_end x) e) as [E5|E5]; [|bools; lia].
    apply (unmap_shrink h g L1 a x L2 (fun y => right_part y e)) with (lost := e - vm_start x) in H as (h' & g' & E & H' & V).
    + exists h', g', [(a, right_part x e)]. split_and!; [done|done|]. rewrite V. do 3 f_equal. unfold right_part, is_file.
      cbn [set_name vm_type]. by case_if.
    + unfold right_part. by case_if.
    + unfold right_part, range_ok. case_if; cbn; bools; lia.
    + unfold right_part. case_if; cbn; lia.
    + unfold right_part. case_if; cbn; lia.
    + unfold right_part. case_if; cbn; lia.
Qed.

Lemma unmap_loop_spec s e : s < e -> forall L2 fuel h g L1,
  vm_ok h g (L1 ++ L2) -> (length L2 < fuel)%nat ->
  exists h' g' L', unmap_loop malloc fuel h g (haddr L2 0) s e = Some (h', g') /\ vm_ok h' g' L' /\
    views h' L' = views h L1 ++ (views h L2 ≫= cut s e).
Proof.
  intros Hse. induction L2 as [|[a x] L2 IH]; intros [|fuel] h g L1 H Hf; simpl in Hf; try lia; cbn [unmap_loop haddr].
  { exists h, g, (L1 ++ []). split_and!; [done|done|]. by rewrite !app_nil_r. }
  pose proof (ok_seg _ _ _ H) as Hs. apply vseg_app in Hs as [_ Hs]. cbn [vseg] in Hs. destruct Hs as (Ha & Hm & _).
  rewrite (proj2 (Z.eqb_neq _ _) Ha). unfold read. rewrite Hm. cbn [mbind option_bind vm_next].
  destruct (unmap_node_spec h g L1 a x L2 s e H Hse) as (h1 & g1 & P & -> & H1 & V1). cbn [mbind option_bind].
  rewrite app_assoc in H1, V1. destruct (IH fuel h1 g1 (L1 ++ P) H1 ltac:(lia)) as (h2 & g2 & L' & -> & H2 & V2).
  exists h2, g2, L'. split_and!; [done|done|]. rewrite V2. rewrite views_app in V1.
  assert (length (views h1 L2) = length (views h L2)) as El by (unfold views; by rewrite !length_fmap).
  rewrite (app_assoc (views h L1)) in V1. apply app_inj_2 in V1 as [-> ->]; [|done]. by rewrite <- app_assoc.
Qed.

End Alloc.

(** * Copying an address space

    [vma_manager_clone]: the copy lists equal areas, in nodes and strings of
    its own. *)

Implicit Types (S D : list (Z * area)).

(** Two lists share no node and no string. *)
Definition separate S D : Prop := (forall a, a ∈ S.*1 -> a ∉ D.*1) /\ (forall q, q ∈ names_of S -> q ∉ names_of D).

Section Clone.
Context (malloc : vheap -> Z -> Z).
Context (Hfresh : malloc_fresh malloc) (Htotal : malloc_total malloc).

(** The copy of one area: a fresh node with the fields of [x] and a string of
    its own. *)
Lemma clone_node_spec h x (gs gd : vma_manager_t) S D :
  vm_ok h gs S -> vm_ok h gd D -> (vm_name x <> 0 -> is_Some (h_name h !! vm_name x)) -> range_ok x ->
  exists h1 p h2 h3 q h4,
    vma_alloc malloc h = (h1, p) /\ p <> 0 /\
    modify h1 p (fun n =>
      mkVma (mkArea (vm_start x) (vm_end x) (vm_flags x) (vm_type x) (vm_fd x) (vm_offset x) (shm_id x) (vm_name (v_area n)))
        (vm_next n) (vm_prev n)) = Some h2 /\
    dup_name malloc h2 (vm_name x) = Some (h3, q) /\
    modify h3 p (fun n => mkVma (set_name (v_area n) q) (vm_next n) (vm_prev n)) = Some h4 /\
    (forall a, is_Some (h_vma h !! a) -> h_vma h1 !! a = h_vma h !! a) /\
    (forall a, is_Some (h_vma h !! a) -> h_vma h4 !! a = h_vma h !! a) /\
    (forall r, is_Some (h_name h !! r) -> h_name h4 !! r = h_name h !! r) /\
    loose h4 D p (set_name x q) /\ (p ∉ S.*1) /\ (q <> 0 -> q ∉ names_of S) /\ aview h4 (set_name x q) = aview h x.
Proof.
  intros HS HD Hn Hr. destruct (vma_alloc_spec malloc Hfresh Htotal h) as (h1 & p & E1 & Hp & Hpf & En1 & Ev1).
  assert (h_vma h1 !! p = Some (mkVma (mkArea 0 0 0 VMA_TYPE_ANON (-1) 0 (-1) 0) 0 0)) as Hm1 by (by rewrite Ev1, lookup_insert_eq).
  destruct (modify_ok h1 p _ (fun n =>
      mkVma (mkArea (vm_start x) (vm_end x) (vm_flags x) (vm_type x) (vm_fd x) (vm_offset x) (shm_id x) (vm_name (v_area n)))
        (vm_next n) (vm_prev n)) Hm1) as (h2 & E2 & Ev2 & (En2 & _)).
  destruct (dup_name_spec malloc Hfresh Htotal h2 (vm_name x)) as (h3 & q & E3 & Ev3 & Hq0 & Hq & Hkeep); [by rewrite En2, En1|].
  rewrite En2, En1 in Hq, Hkeep. assert (h_vma h3 !! p = h_vma h2 !! p) as Hm3 by (by rewrite Ev3).
  rewrite Ev2, lookup_insert_eq in Hm3.
  destruct (modify_ok h3 p _ (fun n => mkVma (set_name (v_area n) q) (vm_next n) (vm_prev n)) Hm3) as (h4 & E4 & Ev4 & (En4 & _)).
  exists h1, p, h2, h3, q, h4. split_and!; try done.
  - intros a [v Ha]. rewrite Ev1. apply lookup_insert_ne. intros <-. congruence.
  - intros a [v Ha]. assert (p <> a) by (intros <-; congruence). rewrite Ev4, lookup_insert_ne, Ev3, Ev2, lookup_insert_ne, Ev1, lookup_insert_ne by done. done.
  - intros r Hr'. rewrite En4. by apply Hkeep.
  - split; [done| | | |done].
    + eexists _, _. rewrite Ev4, lookup_insert_eq. done.
    + intros Hi. eapply vseg_dom in Hi; [|apply HD]. rewrite Hpf in Hi. by destruct Hi.
    + cbn [set_name vm_name]. intros Hz. assert (vm_name x <> 0) as Hxz by tauto. destruct (Hq Hxz) as [Hqn Hqv]. split.
      * rewrite En4, Hqv. by apply Hn.
      * intros Hi. apply (ok_names _ _ _ HD) in Hi. rewrite Hqn in Hi. by destruct Hi.
  - intros Hi. eapply vseg_dom in Hi; [|apply HS]. rewrite Hpf in Hi. by destruct Hi.
  - intros Hz Hi. destruct Hq as [Hqn _]; [tauto|]. apply (ok_names _ _ _ HS) in Hi. rewrite Hqn in Hi. by destruct Hi.
  - unfold aview. cbn [set_name vm_name]. f_equal. rewrite En4. destruct (Z.eqb_spec q 0), (Z.eqb_spec (vm_name x) 0); tauto.
Qed.

(** Areas that all lie before the new one: it goes to the end. *)
Lemma insert_last L1 L2 a x : tidy (L1 ++ (a, x) :: L2) -> Forall (fun y => before y x) (L1 ++ L2).*2 -> L2 = [].
Proof.
  intros (_ & ([Rx _] & T2 & B)%tidy_cons & _)%tidy_app HF. destruct L2 as [|[b y] L2]; [done|]. exfalso.
  rewrite fmap_app in HF. apply Forall_app in HF as [_ HF]. cbn [fmap list_fmap snd] in *. apply Forall_cons in HF as [HF _].
  apply Forall_cons in B as [B _]. apply tidy_cons in T2 as ([? _] & _ & _). unfold before in *. lia.
Qed.

Lemma views_fields h h' L K : views h L = views h' K -> Forall2 (fun x y => vm_start x = vm_start y /\ vm_end x = vm_end y) L.*2 K.*2.
Proof.
  unfold views. generalize L.*2, K.*2. intros l. induction l as [|x l IH]; intros [|y k] E; [constructor|done|done|].
  assert (aview h x = aview h' y /\ aview h <$> l = aview h' <$> k) as [E1 E2] by (split; [exact (f_equal (fun l => default (aview h x) (head l)) E)|exact (f_equal tail E)]).
  constructor; [|by apply IH]. split; [exact (f_equal (fun v => vm_start (fst v)) E1)|exact (f_equal (fun v => vm_end (fst v)) E1)].
Qed.

Lemma clone_loop_spec gs S : forall S2 fuel h gd S1 D,
  S = S1 ++ S2 -> vm_ok h gs S -> vm_ok h gd D -> separate S D -> views h D = views h S1 -> (length S2 < fuel)%nat ->
  exists h' gd' D', clone_loop malloc fuel h gd (haddr S2 0) = Some (h', gd', true) /\
    vm_ok h' gs S /\ vm_ok h' gd' D' /\ separate S D' /\ views h' D' = views h' S /\ views h' S = views h S /\
    vm_total gd' = vm_total gd.
Proof.
  induction S2 as [|[a x] S2 IH]; intros [|fuel] h gd S1 D ES HS HD Hsep HV Hf; simpl in Hf; try lia; cbn [clone_loop haddr].
  { exists h, gd, D. rewrite app_nil_r in ES. subst S1. by split_and!. }
  assert ((a, x) ∈ S) as Hin by (rewrite ES; apply elem_of_app; right; by apply elem_of_cons; left).
  pose proof (ok_seg _ _ _ HS) as Hseg. rewrite ES in Hseg. apply vseg_app in Hseg as [_ Hseg]. destruct Hseg as (Ha & Hm & _).
  rewrite (proj2 (Z.eqb_neq _ _) Ha).
  pose proof (ok_tidy _ _ _ HS) as Ht. rewrite ES in Ht. apply tidy_app in Ht as (_ & Ht2 & Ht12). apply tidy_cons in Ht2 as (Hrx & _ & _).
  destruct (clone_node_spec h x gs gd S D HS HD) as (h1 & p & h2 & h3 & q & h4 & -> & Hp & E2 & E3 & E4 & K1 & Kv & Kn & Hlo & HpS & HqS & Vx);
    [intros Hz; apply (ok_names _ _ _ HS); by eapply names_elem|done|].
  rewrite (proj2 (Z.eqb_neq _ _) Hp). change (read h1 a) with (h_vma h1 !! a). rewrite K1 by (by rewrite Hm). rewrite Hm.
  cbn [mbind option_bind v_area vm_next]. rewrite E2. cbn [mbind option_bind]. rewrite E3. cbn [mbind option_bind]. rewrite E4. cbn [mbind option_bind].
  assert (forall g L, vm_ok h g L -> vm_ok h4 g L) as Hkeep.
  { intros g L HL. eapply vm_ok_frame; [exact HL| |].
    - intros b Hb. apply Kv. by eapply vseg_dom; [apply HL|].
    - intros r Hr. apply Kn. by apply (ok_names _ _ _ HL). }
  assert (forall g L, vm_ok h g L -> views h4 L = views h L) as HVk by (intros g L HL; eapply views_keep; eauto).
  pose proof (vma_insert_spec h4 gd D p (set_name x q) (Hkeep _ _ HD) Hlo) as Hins.
  assert (Forall (fun y => before y x) D.*2) as HB.
  { pose proof (views_fields _ _ _ _ HV) as HF. apply Forall_forall. intros y Hy.
    apply list_elem_of_lookup in Hy as [i Hi]. eapply Forall2_lookup_l in HF as (z & Hz & _ & Ez); [|exact Hi].
    unfold before. rewrite Ez. apply Ht12; [by eapply list_elem_of_lookup_2|]. cbn [fmap list_fmap]. by apply elem_of_cons; left. }
  rewrite bool_decide_eq_true_2 in Hins.
  2:{ eapply Forall_impl; [exact HB|]. intros y Hy. right. exact Hy. }
  destruct Hins as (h5 & gd5 & L1 & L2 & -> & ED & HD5 & Htot & Hse). cbn [mbind option_bind Z.eqb negb].
  assert (L2 = []) as ->.
  { eapply insert_last; [apply HD5|]. rewrite <- ED. exact HB. }
  rewrite app_nil_r in ED. subst L1. destruct Hse as (En5 & Hf5 & _). pose proof Hsep as [Sep1 Sep2].
  assert (vm_ok h5 gs S) as HS5.
  { eapply vm_ok_frame; [apply Hkeep, HS| |by intros; rewrite En5]. intros b Hb. apply Hf5.
    intros [->|?]%elem_of_cons; [done|]. by eapply Sep1. }
  assert (forall L, views h5 L = views h4 L) as V5 by (intros L; apply views_frame; intros; by rewrite En5).
  destruct (IH fuel h5 gd5 (S1 ++ [(a, x)]) (D ++ [(p, set_name x q)])) as (h' & gd' & D' & -> & R1 & R2 & R3 & R4 & R5 & R6);
    [by rewrite <- app_assoc|done|done| | |lia|].
  - split.
    + intros b Hb. rewrite fmap_app, elem_of_app. intros [?|?%list_elem_of_singleton]; [by eapply Sep1|subst; done].
    + intros r Hr. rewrite names_app, names_cons, elem_of_app. intros [?|Hi]; [by eapply Sep2|]. cbn [set_name vm_name] in Hi.
      case_bool_decide; rewrite app_nil_r in Hi; [|by apply not_elem_of_nil in Hi]. apply list_elem_of_singleton in Hi as ->. by apply HqS.
  - rewrite !views_app, !V5. f_equal.
    + rewrite (HVk gd D HD), HV. symmetry. apply views_frame. intros r Hr. apply Kn, (ok_names _ _ _ HS). rewrite ES, names_app. by apply elem_of_app; left.
    + unfold views. cbn [fmap list_fmap snd]. f_equal. rewrite Vx. symmetry. apply aview_name. intros Hz. apply Kn, (ok_names _ _ _ HS). by eapply names_elem.
  - exists h', gd', D'. split_and!; try done; [|congruence]. rewrite R5, V5. by eapply HVk.
Qed.

Lemma clone_spec h gs S :
  vm_ok h gs S ->
  exists h' gd D, vma_manager_clone malloc h gs = Some (h', gd, true) /\ vm_ok h' gs S /\ vm_ok h' gd D /\ separate S D /\
    views h' D = views h S /\ views h' S = views h S /\ vm_total gd = vm_total gs.
Proof.
  intros HS. unfold vma_manager_clone. rewrite (ok_head _ _ _ HS).
  destruct (clone_loop_spec gs S S (Datatypes.S (size (h_vma h))) h (mkMgr 0 (vm_total gs) 0) [] []) as (h' & gd & D & E & R1 & R2 & R3 & R4 & R5 & R6);
    [done|done| | |done|by eapply vm_ok_fuel|].
  - split; try done; [constructor|by intros q ?%not_elem_of_nil|constructor|split; constructor].
  - split; intros ? _; apply not_elem_of_nil.
  - exists h', gd, D. split_and!; try done. congruence.
Qed.

End Clone.
