(* ===== verification/VmaProps.v ===== *)
(** * What the areas of an address space promise

    The operations of [vma.c] against the list of areas they represent and
    against the map from addresses to what backs them. *)

From stdpp Require Import gmap sorting.
From S2P Require Import Prelude Fresh Vma VmaList VmaSpec VmaUnmap.

Implicit Types (L : list (Z * area)).

(** ** Two allocators *)

(** One above every address in use. *)
Definition malloc_top (h : vheap) (_ : Z) : Z :=
  1 + Z.max (top_key (h_vma h)) (top_key (h_name h)).

(** One that always fails. *)
Definition malloc_none (_ : vheap) (_ : Z) : Z := 0.

Lemma malloc_top_fresh : malloc_fresh malloc_top.
Proof. intros h n _. split; apply top_key_fresh; unfold malloc_top; lia. Qed.

Lemma malloc_top_total : malloc_total malloc_top.
Proof. intros h n. unfold malloc_top. pose proof (top_key_nonneg (h_vma h)). lia. Qed.

(** ** A space with two areas: a file mapped at [4096, 16384) and named, and
    anonymous memory at [20480, 24576) *)

Definition ex_file (name : Z) : area := mkArea 4096 16384 3 VMA_TYPE_FILE 5 8192 (-1) name.
Definition ex_anon : area := mkArea 20480 24576 1 VMA_TYPE_ANON (-1) 0 (-1) 0.
Definition ex_list : list (Z * area) := [(100, ex_file 900); (200, ex_anon)].
Definition ex_heap : vheap :=
  mkHeap (<[100 := mkVma (ex_file 900) 200 0]> (<[200 := mkVma ex_anon 0 100]> (<[300 := mkVma (mkArea 16384 20480 1 VMA_TYPE_ANON (-1) 0 (-1) 0) 0 0]> ∅)))
    (<[900 := [108; 105; 98]]> ∅).
Definition ex_mgr : vma_manager_t := mkMgr 100 65536 16384.

Lemma ex_ok : vm_ok ex_heap ex_mgr ex_list.
Proof.
  split.
  - done.
  - simpl. split_and!; try done.
  - vm_compute. repeat constructor; set_solver.
  - intros q Hq. change (q ∈ [900]) in Hq. apply list_elem_of_singleton in Hq as ->. by eexists.
  - vm_compute. repeat constructor; set_solver.
  - split; repeat constructor; vm_compute; try done; intros; discriminate.
  - done.
Qed.

Lemma ex_loose : loose ex_heap ex_list 300 (mkArea 16384 20480 1 VMA_TYPE_ANON (-1) 0 (-1) 0).
Proof.
  split; [done|by eexists _, _| |done|].
  - change (300 ∉ [100; 200]). set_solver.
  - split; vm_compute; split; congruence.
Qed.

(** ** Insertion *)

(** The area of the list that holds the address, if any. *)
Definition holds (addr : Z) (x : area) : bool := (addr >=? vm_start x) && (addr <? vm_end x).

Lemma find_area_mid f L1 a x L2 :
  (f x = true -> Forall (fun y => f y = false) L1.*2) ->
  find_area f (L1 ++ (a, x) :: L2) = if f x then a else find_area f (L1 ++ L2).
Proof.
  induction L1 as [|[b y] L1 IH]; intros H; cbn [app find_area]; [done|].
  destruct (f x) eqn:E.
  - specialize (H eq_refl). cbn [fmap list_fmap snd] in H. apply Forall_cons in H as [-> H]. rewrite IH by done. done.
  - rewrite IH by done. done.
Qed.

(** C31: [vma_insert] keeps the list of areas sorted, disjoint and well linked:
    a new area that overlaps one of the list is refused with -1 and nothing
    changes; any other is linked in at its place, the byte count grows by its
    size, and [vma_find] gives the new node for its addresses and its earlier
    answer for all others. *)
Theorem vma_insert_correct h g L p x :
  vm_ok h g L -> loose h L p x ->
  (forall y, y ∈ L.*2 -> vm_end x <= vm_start y \/ vm_end y <= vm_start x) /\
    (exists h' g' L1 L2, vma_insert h g p = Some (h', g', 0) /\ L = L1 ++ L2 /\ vm_ok h' g' (L1 ++ (p, x) :: L2) /\
       views h' (L1 ++ (p, x) :: L2) = views h L1 ++ aview h x :: views h L2 /\
       vm_used g' = vm_used g + (vm_end x - vm_start x) /\
       forall addr, vma_find h' g' addr = if holds addr x then Some p else vma_find h g addr) \/
  (exists y, y ∈ L.*2 /\ vm_start y < vm_end x /\ vm_start x < vm_end y) /\ vma_insert h g p = Some (h, g, -1).
Proof.
  intros H Hlo. pose proof (vma_insert_spec h g L p x H Hlo) as Hins.
  destruct (decide (Forall (fun y => vm_end x <= vm_start y \/ vm_end y <= vm_start x) L.*2)) as [HF|HF].
  - left. rewrite bool_decide_eq_true_2 in Hins by done. destruct Hins as (h' & g' & L1 & L2 & E & -> & H' & _ & En & _).
    split; [by apply Forall_forall|]. exists h', g', L1, L2. split_and!; [done|done|done| | |].
    + transitivity (views h (L1 ++ (p, x) :: L2)); [apply views_frame; intros; by rewrite En|]. by rewrite views_app.
    + rewrite (ok_used _ _ _ H'), (ok_used _ _ _ H), !total_app, total_cons. lia.
    + intros addr. rewrite (vma_find_spec _ _ _ addr H), (vma_find_spec _ _ _ addr H').
      rewrite find_area_mid; [unfold holds; by case_if|]. intros Hx. rewrite fmap_app in HF. apply Forall_app in HF as [HF _].
      eapply Forall_impl; [exact HF|]. intros y Hy. cbv beta in *. lia.
  - right. rewrite bool_decide_eq_false_2 in Hins by done. split; [|done].
    apply not_Forall_Exists, Exists_exists in HF; [|apply _]. destruct HF as (y & Hy & Hn). exists y. cbn in Hn. split; [done|]. lia.
Qed.

Lemma vma_insert_correct_witness :
  exists h' g' L1 L2, vma_insert ex_heap ex_mgr 300 = Some (h', g', 0) /\ ex_list = L1 ++ L2 /\
    vm_ok h' g' (L1 ++ (300, mkArea 16384 20480 1 VMA_TYPE_ANON (-1) 0 (-1) 0) :: L2).
Proof.
  destruct (vma_insert_correct ex_heap ex_mgr ex_list 300 _ ex_ok ex_loose) as
    [[_ (h' & g' & L1 & L2 & E & EL & H & _)]|[_ E]]; [by exists h', g', L1, L2|]. vm_compute in E. discriminate E.
Defined.

(** ** Unmapping *)

(** C30: [vma_unmap_range] refines the removal of a range of addresses: while
    allocations succeed it returns 0 with a well-formed list whose map from
    addresses to what backs them (protection, file, position in the file,
    shared memory, name) is the old one without [start, end). *)
Theorem vma_unmap_range_correct malloc (Hfresh : malloc_fresh malloc) (Htotal : malloc_total malloc) h g L s e :
  vm_ok h g L -> s < e ->
  exists h' g' L', vma_unmap_range malloc h g s e = Some (h', g', 0) /\ vm_ok h' g' L' /\
    forall a, lookup_addr (views h' L') a = if (s <=? a) && (a <? e) then None else lookup_addr (views h L) a.
Proof.
  intros H Hse. unfold vma_unmap_range. rewrite (ok_head _ _ _ H).
  destruct (unmap_loop_spec malloc Hfresh Htotal s e Hse L (S (size (h_vma h))) h g [] H (vm_ok_fuel _ _ _ H))
    as (h' & g' & L' & -> & H' & V). cbn [mbind option_bind]. exists h', g', L'. split_and!; [done|done|].
  intros a. rewrite V. cbn [views app]. by apply unmap_lookup.
Qed.

Lemma vma_unmap_range_correct_witness :
  exists h' g' L', vma_unmap_range malloc_top ex_heap ex_mgr 8192 12288 = Some (h', g', 0) /\ vm_ok h' g' L' /\
    lookup_addr (views h' L') 8192 = None /\
    lookup_addr (views h' L') 12300 = Some (mkBacking 3 VMA_TYPE_FILE 5 (-1) (Some [108; 105; 98]) (Some 16396)).
Proof.
  destruct (vma_unmap_range_correct malloc_top malloc_top_fresh malloc_top_total ex_heap ex_mgr ex_list 8192 12288 ex_ok
    ltac:(reflexivity)) as (h' & g' & L' & E & H & V).
  exists h', g', L'. split_and!; [exact E|exact H|by rewrite V|by rewrite V].
Defined.

(** The loop passes over areas below the range. *)
Lemma unmap_skip malloc h g s e M : forall fuel pv nx,
  vseg (h_vma h) pv M nx -> Forall (fun x => range_ok x /\ vm_end x <= s) M.*2 -> s < e ->
  unmap_loop malloc (length M + fuel) h g (haddr M nx) s e = unmap_loop malloc fuel h g nx s e.
Proof.
  induction M as [|[p x] M IH]; intros fuel pv nx Hseg HF Hse; [done|]. cbn [vseg haddr] in *. destruct Hseg as (Hp & Hm & Hseg).
  simpl in HF. apply Forall_cons in HF as [[Hx He] HF]. unfold range_ok in Hx. cbn [length Nat.add unmap_loop].
  rewrite (proj2 (Z.eqb_neq _ _) Hp). unfold unmap_node. change (read h p) with (h_vma h !! p). rewrite Hm. cbn [mbind option_bind v_area vm_next].
  replace ((vm_start x >=? s) && (vm_end x <=? e)) with false by lia.
  replace ((vm_end x <=? s) || (vm_start x >=? e)) with true by lia. cbn [negb mbind option_bind]. by eapply IH.
Qed.

(** Too little fuel never makes up a result. *)
Lemma unmap_fuel malloc h g s e k : forall fuel p,
  unmap_loop malloc (fuel + k) h g p s e = None -> unmap_loop malloc fuel h g p s e = None.
Proof.
  intros fuel. revert h g. induction fuel as [|fuel IH]; intros h g p; [done|]. cbn [unmap_loop Nat.add]. case_if; [done|].
  destruct (read h p) as [v|]; [|done]. cbn [mbind option_bind]. destruct (unmap_node malloc h g p s e) as [[h1 g1]|]; [|done].
  cbn [mbind option_bind]. apply IH.
Qed.

(** What the loop body does to an area that is to be cut in two, when there is
    no memory: it frees the area after it. *)
Lemma unmap_node_without_memory h g L1 a x b y L2 s e :
  vm_ok h g (L1 ++ (a, x) :: (b, y) :: L2) -> vm_start x < s -> s < e -> e < vm_end x ->
  exists h' g', unmap_node malloc_none h g a s e = Some (h', g') /\ vm_ok h' g' (L1 ++ (a, x) :: L2) /\
    read h a = Some (mkVma x b (laddr 0 L1)) /\ b <> 0 /\ read h' b = None.
Proof.
  intros H Hs Hse He. assert (h_vma h !! a = Some (mkVma x b (laddr 0 L1)) /\ a <> 0 /\ b <> 0) as (Hm & Ha & Hb).
  { pose proof (ok_seg _ _ _ H) as Hsg. apply vseg_app in Hsg as [_ Hsg]. cbn [vseg haddr] in Hsg. tauto. }
  assert (forall c, vma_split malloc_none h a c = Some (h, -1)) as Esp.
  { intros c. unfold vma_split. rewrite (proj2 (Z.eqb_neq _ _) Ha). change (read h a) with (h_vma h !! a). rewrite Hm.
    cbn [mbind option_bind]. by case_if. }
  assert (H2 := H). change ((a, x) :: (b, y) :: L2) with ([(a, x)] ++ (b, y) :: L2) in H2. rewrite app_assoc in H2.
  destruct (unlink_free_spec h g _ b y L2 H2) as (h1 & h' & g' & E1 & E2 & H' & _ & Hdel & _).
  rewrite <- app_assoc in H'. cbn [app] in H'. exists h', g'. split; [|split; [done|split; [done|split; [done|]]]].
  - unfold unmap_node. change (read h a) with (h_vma h !! a). rewrite !Hm. cbn [mbind option_bind v_area vm_next].
    replace ((vm_start x >=? s) && (vm_end x <=? e)) with false by lia.
    replace ((vm_end x <=? s) || (vm_start x >=? e)) with false by lia. cbn [negb].
    replace ((vm_start x <? s) && (vm_end x >? e)) with true by lia.
    rewrite Esp. cbn [mbind option_bind]. rewrite Esp. cbn [mbind option_bind].
    change (read h a) with (h_vma h !! a). rewrite Hm. cbn [mbind option_bind vm_next].
    unfold vma_remove. rewrite (proj2 (Z.eqb_neq _ _) Hb), E1. cbn [mbind option_bind]. by rewrite E2.
  - change (read h' b) with (h_vma h' !! b). rewrite Hdel; [by rewrite bool_decide_eq_true_2|].
    pose proof (ok_nodup _ _ _ H2) as Hn. rewrite fmap_mid in Hn. apply nodup_mid in Hn as (N1 & N2 & _).
    rewrite fmap_app. by apply not_elem_of_app.
Qed.

(** C32: when no memory is left, unmapping a range strictly inside an area
    leaves that area as it was, takes the area after it out of the list and
    frees it instead; that freed node is the one the loop goes on with, so the
    call faults, and no number of turns allowed to the loop gives a result. *)
Theorem unmap_without_memory h g L1 a x b y L2 s e :
  vm_ok h g (L1 ++ (a, x) :: (b, y) :: L2) -> vm_start x < s -> s < e -> e < vm_end x ->
  (exists h' g', unmap_node malloc_none h g a s e = Some (h', g') /\ vm_ok h' g' (L1 ++ (a, x) :: L2) /\
     read h a = Some (mkVma x b (laddr 0 L1)) /\ read h' b = None) /\
  vma_unmap_range malloc_none h g s e = None /\
  forall fuel, unmap_loop malloc_none fuel h g (vma_list g) s e = None.
Proof.
  intros H Hs Hse He. destruct (unmap_node_without_memory h g L1 a x b y L2 s e H Hs Hse He) as (h' & g' & E & H' & Hm & Hb & Hdel).
  split; [by exists h', g'|].
  assert (forall fuel, unmap_loop malloc_none fuel h g (vma_list g) s e = None) as Hnone; [|split; [|done]; unfold vma_unmap_range; by rewrite Hnone].
  intros fuel. apply (unmap_fuel _ _ _ _ _ (length L1)). rewrite Nat.add_comm, (ok_head _ _ _ H), haddr_app.
  pose proof (ok_seg _ _ _ H) as Hsg. apply vseg_app in Hsg as [Hs1 Hs2]. destruct (ok_tidy _ _ _ H) as [HF _].
  destruct (proj1 (tidy_app _ _) (ok_tidy _ _ _ H)) as (_ & _ & Hbef).
  rewrite (unmap_skip _ _ _ _ _ _ _ _ _ Hs1); [| |done].
  - cbn [haddr]. destruct fuel as [|fuel]; [done|]. cbn [unmap_loop vseg] in *. rewrite (proj2 (Z.eqb_neq _ _) (proj1 Hs2)), Hm.
    cbn [mbind option_bind vm_next]. rewrite E. cbn [mbind option_bind]. destruct fuel as [|fuel]; [done|]. cbn [unmap_loop].
    by rewrite (proj2 (Z.eqb_neq _ _) Hb), Hdel.
  - rewrite fmap_app in HF. apply Forall_app in HF as [HF _]. apply Forall_forall. intros z Hz.
    split; [by eapply Forall_forall in HF|]. specialize (Hbef z x Hz ltac:(simpl; set_solver)). unfold before in Hbef. lia.
Qed.

Lemma unmap_without_memory_witness :
  vma_unmap_range malloc_none ex_heap ex_mgr 8192 12288 = None /\
  is_Some (vma_unmap_range malloc_none ex_heap ex_mgr 65536 69632).
Proof.
  split; [|vm_compute; eauto].
  apply (unmap_without_memory ex_heap ex_mgr [] 100 (ex_file 900) 200 ex_anon [] 8192 12288 ex_ok); reflexivity.
Defined.

(** ** Merging *)

(** [vma_merge] of two neighbours that fit together, the second of which
    has a name, frees the name twice: once by itself and once in [vma_free]. *)
Theorem vma_merge_frees_name_twice h g L1 a x b y L2 :
  vm_ok h g (L1 ++ (a, x) :: (b, y) :: L2) -> vm_end x = vm_start y -> vm_flags x = vm_flags y -> vm_type x = vm_type y ->
  vm_fd x = vm_fd y -> vm_name y <> 0 -> vma_merge h a b = None.
Proof.
  intros H E1 E2 E3 E4 Hn. pose proof (ok_seg _ _ _ H) as Hs. apply vseg_app in Hs as [_ Hs]. cbn [vseg haddr] in Hs.
  destruct Hs as (Ha & Hma & Hb & Hmb & Hs2). pose proof (ok_nodup _ _ _ H) as Hnd.
  assert (a <> b /\ (b ∉ L2.*1)) as [Hab Hb2].
  { rewrite fmap_mid in Hnd. apply nodup_mid in Hnd as (_ & N1 & N2). cbn [fmap list_fmap fst] in *. split.
    - intros ->. apply N1. by apply elem_of_cons; left.
    - apply NoDup_app in N2 as (_ & _ & N2). by apply NoDup_cons in N2 as [? _]. }
  assert (is_Some (h_name h !! vm_name y)) as [s Hy].
  { apply (ok_names _ _ _ H). eapply (names_elem _ b); [|done]. apply elem_of_app; right. apply elem_of_cons; right. by apply elem_of_cons; left. }
  unfold vma_merge. rewrite (proj2 (Z.eqb_neq _ _) Ha), (proj2 (Z.eqb_neq _ _) Hb). cbn [orb].
  change (read h a) with (h_vma h !! a). change (read h b) with (h_vma h !! b). rewrite Hma, Hmb. cbn [mbind option_bind v_area vm_next].
  rewrite E1, Z.eqb_refl, E2, Z.eqb_refl, E4, Z.eqb_refl, bool_decide_eq_true_2 by done. cbn [negb orb].
  destruct (modify_ok h a _ (fun v => mkVma (set_end (v_area v) (vm_end y)) (haddr L2 0) (vm_prev v)) Hma) as (h1 & -> & Ev1 & (En1 & _)).
  cbn [mbind option_bind]. unfold free_name at 1. rewrite (proj2 (Z.eqb_neq _ _) Hn), En1, Hy. cbn [mbind option_bind].
  set (h2 := mkHeap (h_vma h1) (delete (vm_name y) (h_name h))).
  assert (forall h3, h_name h3 = h_name h2 -> h_vma h3 !! b = h_vma h2 !! b -> (h4 ← vma_free h3 b; Some (h4, 0)) = None) as Hdf.
  { intros h3 E5 E6. unfold vma_free. rewrite (proj2 (Z.eqb_neq _ _) Hb). change (read h3 b) with (h_vma h3 !! b). rewrite E6.
    unfold h2. cbn [h_vma]. rewrite Ev1, lookup_insert_ne, Hmb by done. cbn [mbind option_bind v_area].
    unfold free_name. rewrite (proj2 (Z.eqb_neq _ _) Hn), E5. unfold h2. cbn [negb h_name]. by rewrite lookup_delete_eq. }
  destruct (Z.eqb_spec (haddr L2 0) 0) as [Hz|Hz]; cbn [negb mbind option_bind]; [by apply Hdf|].
  destruct L2 as [|[c z] L2]; [done|]. cbn [haddr vseg fmap list_fmap fst] in *. destruct Hs2 as (_ & Hmc & _).
  destruct (h_vma h2 !! c) as [w|] eqn:Ec.
  - destruct (modify_ok h2 c w (fun w => set_prev w a) Ec) as (h3 & -> & Ev3 & (En3 & Hf3 & _)). cbn [mbind option_bind].
    apply Hdf; [done|]. apply Hf3. intros ->%list_elem_of_singleton. apply Hb2. by apply elem_of_cons; left.
  - unfold modify. change (read h2 c) with (h_vma h2 !! c). by rewrite Ec.
Qed.

Definition ex_near : area := mkArea 16384 20480 3 VMA_TYPE_FILE 5 20480 (-1) 901.
Definition ex_heap2 : vheap :=
  mkHeap (<[100 := mkVma (ex_file 900) 200 0]> (<[200 := mkVma ex_near 0 100]> ∅)) (<[900 := [97]]> (<[901 := [97]]> ∅)).

Lemma vma_merge_frees_name_twice_witness :
  vm_ok ex_heap2 (mkMgr 100 0 16384) [(100, ex_file 900); (200, ex_near)] /\ vma_merge ex_heap2 100 200 = None.
Proof.
  assert (vm_ok ex_heap2 (mkMgr 100 0 16384) [(100, ex_file 900); (200, ex_near)]) as H.
  { split; [done| | | | | |done].
    - simpl. split_and!; done.
    - vm_compute. repeat constructor; set_solver.
    - intros q Hq. change (q ∈ [900; 901]) in Hq. apply elem_of_cons in Hq as [->|Hq%list_elem_of_singleton]; [by eexists|].
      subst q. by eexists.
    - vm_compute. repeat constructor; set_solver.
    - split; repeat constructor; vm_compute; try done; intros; discriminate. }
  split; [exact H|]. apply (vma_merge_frees_name_twice ex_heap2 (mkMgr 100 0 16384) [] 100 (ex_file 900) 200 ex_near []); done.
Defined.

(** ** Copying an address space and giving it up *)

(** [vma_manager_clone] copies an address space: with memory left it
    succeeds, the copy has the same areas and names in nodes and strings of
    its own, and [vma_manager_exit_cleanup] of the copy then frees exactly
    these: the source is as it was. *)
Theorem vma_clone_exit malloc (Hfresh : malloc_fresh malloc) (Htotal : malloc_total malloc) h g L :
  vm_ok h g L ->
  exists h1 g1 K, vma_manager_clone malloc h g = Some (h1, g1, true) /\ vm_ok h1 g L /\ vm_ok h1 g1 K /\
    views h1 K = views h L /\ separate L K /\
    exists h2, vma_manager_exit_cleanup h1 g1 = Some (h2, mkMgr 0 0 0) /\ vm_ok h2 g L /\ views h2 L = views h L /\
      (forall a, a ∈ K.*1 -> h_vma h2 !! a = None) /\ (forall q, q ∈ names_of K -> h_name h2 !! q = None).
Proof.
  intros H. destruct (clone_spec malloc Hfresh Htotal h g L H) as (h1 & g1 & K & E & H1 & HK & [S1 S2] & V & V' & _).
  exists h1, g1, K. split_and!; try done. destruct (cleanup_spec h1 g1 K HK) as (h2 & E2 & Hb & Hq).
  assert (forall a, a ∈ L.*1 -> h_vma h2 !! a = h_vma h1 !! a) as Ha2 by (intros a Ha; rewrite Hb; by rewrite bool_decide_eq_false_2 by auto).
  assert (forall q, q ∈ names_of L -> h_name h2 !! q = h_name h1 !! q) as Hq2 by (intros q Hi; rewrite Hq; by rewrite bool_decide_eq_false_2 by auto).
  exists h2. split_and!; [done|by eapply vm_ok_frame| | |].
  - by rewrite (views_frame h1 h2 L Hq2).
  - intros a Ha. by rewrite Hb, bool_decide_eq_true_2.
  - intros q Hi. by rewrite Hq, bool_decide_eq_true_2.
Qed.

Lemma vma_clone_exit_witness :
  exists h1 g1 K, vma_manager_clone malloc_top ex_heap ex_mgr = Some (h1, g1, true) /\ vm_ok h1 g1 K /\
    views h1 K = views ex_heap ex_list.
Proof.
  destruct (vma_clone_exit malloc_top malloc_top_fresh malloc_top_total ex_heap ex_mgr ex_list ex_ok)
    as (h1 & g1 & K & E & _ & H & V & _). exists h1, g1, K. exact (conj E (conj H V)).
Defined.

(** An empty range inside an area: [vma_unmap_range] drops the part of the
    area that follows it. *)
Example unmap_empty_range :
  (fun r => (fun '(_, g, c) => (vm_used g, c)) <$> r) (vma_unmap_range malloc_top ex_heap ex_mgr 8192 8192) = Some (8192, 0).
Proof. vm_compute. reflexivity. Qed.
