(* ===== verification/IdAlloc.v ===== *)
(** * Identifier allocator ([src/src/util/id_alloc.c])

    Identifiers below a bound, one bit each in an array of 32-bit words, with
    a count of the free ones and the place where the next search starts. The
    allocator is proved against the set of the free identifiers. *)

From stdpp Require Import gmap.
From S2P Require Import Prelude.

Definition BITS_PER_WORD : Z := 32.

Record id_allocator_t := mkIds { id_bitmap : list Z; max_ids : Z; free_count : Z; next_id : Z }.

(** ** The code

    The operations for an allocator that is not NULL; an access outside the
    bitmap is [None]. *)

Definition mask (id : Z) : Z := u32 (Z.shiftl 1 (id mod BITS_PER_WORD)).

(** NULL when the structure or its bitmap cannot be allocated. *)
Definition id_allocator_create (malloc_ok calloc_ok : bool) (max : Z) : option id_allocator_t :=
  if negb malloc_ok then None
  else
    let bitmap_size := u32 (u64 (max + BITS_PER_WORD - 1) / BITS_PER_WORD) in
    if negb calloc_ok then None
    else Some (mkIds (replicate (Z.to_nat bitmap_size) 0) max max 0).

Definition id_alloc_set (a : id_allocator_t) (id : Z) : option id_allocator_t :=
  if id >=? max_ids a then Some a
  else
    w ← zget (id_bitmap a) (id / BITS_PER_WORD);
    if Z.land w (mask id) =? 0 then
      bm ← zset (id_bitmap a) (id / BITS_PER_WORD) (Z.lor w (mask id));
      Some (mkIds bm (max_ids a) (u32 (free_count a - 1)) (next_id a))
    else Some a.

(** The do-while loop of [id_alloc]; it runs at most [max_ids] times. *)
Fixpoint id_alloc_loop (fuel : nat) (a : id_allocator_t) (start id : Z) : option (id_allocator_t * Z) :=
  match fuel with
  | O => None
  | S fuel =>
      w ← zget (id_bitmap a) (id / BITS_PER_WORD);
      if Z.land w (mask id) =? 0 then
        bm ← zset (id_bitmap a) (id / BITS_PER_WORD) (Z.lor w (mask id));
        Some (mkIds bm (max_ids a) (u32 (free_count a - 1)) (u32 (id + 1) mod max_ids a), i32 id)
      else
        let id := u32 (id + 1) mod max_ids a in
        if negb (id =? start) then id_alloc_loop fuel a start id else Some (a, -1)
  end.

Definition id_alloc (a : id_allocator_t) : option (id_allocator_t * Z) :=
  if free_count a =? 0 then Some (a, -1)
  else id_alloc_loop (Z.to_nat (max_ids a)) a (next_id a) (next_id a).

Definition id_free (a : id_allocator_t) (id : Z) : option (id_allocator_t * bool) :=
  if id >=? max_ids a then Some (a, false)
  else
    w ← zget (id_bitmap a) (id / BITS_PER_WORD);
    if negb (Z.land w (mask id) =? 0) then
      bm ← zset (id_bitmap a) (id / BITS_PER_WORD) (Z.land w (u32 (Z.lnot (mask id))));
      Some (mkIds bm (max_ids a) (u32 (free_count a + 1)) (next_id a), true)
    else Some (a, false).

(** ** The free identifiers *)

Definition used (bm : list Z) (i : Z) : bool :=
  match zget bm (i / BITS_PER_WORD) with Some w => Z.testbit w (i mod BITS_PER_WORD) | None => true end.

Definition free_set (a : id_allocator_t) : gset Z :=
  filter (fun i => used (id_bitmap a) i = false) (list_to_set (seqZ 0 (max_ids a))).

Record id_ok (a : id_allocator_t) : Prop := {
  id_max : 0 <= max_ids a <= two31;
  id_len : zlen (id_bitmap a) = (max_ids a + 31) / 32;
  id_words : Forall (fun w => 0 <= w < two32) (id_bitmap a);
  id_next : 0 <= next_id a < max_ids a \/ max_ids a = 0;
  id_count : free_count a = Z.of_nat (size (free_set a));
}.

Lemma elem_free a i : i ∈ free_set a <-> 0 <= i < max_ids a /\ used (id_bitmap a) i = false.
Proof. unfold free_set. rewrite elem_of_filter, elem_of_list_to_set, elem_of_seqZ. rewrite Z.add_0_l. tauto. Qed.

Lemma free_size a : 0 <= max_ids a -> Z.of_nat (size (free_set a)) <= max_ids a.
Proof.
  intros Hm. assert (size (free_set a) <= size (list_to_set (seqZ 0 (max_ids a)) : gset Z))%nat as H.
  { apply subseteq_size. intros i. unfold free_set. by intros [_ ?]%elem_of_filter. }
  rewrite size_list_to_set, length_seqZ in H by apply NoDup_seqZ. lia.
Qed.

(** ** One bit *)

Lemma mask_pow id : mask id = 2 ^ (id mod 32).
Proof.
  unfold mask, BITS_PER_WORD. pose proof (Z.mod_pos_bound id 32 ltac:(lia)) as H. rewrite Z.shiftl_1_l, u32_id; [done|].
  split; [apply Z.pow_nonneg; lia|]. change two32 with (2 ^ 32). apply Z.pow_lt_mono_r; lia.
Qed.

Lemma mask_testbit id n : 0 <= n -> Z.testbit (mask id) n = (n =? id mod 32).
Proof.
  intros Hn. rewrite mask_pow. rewrite Z.pow2_bits_eqb by (apply Z.mod_pos_bound; lia). apply Z.eqb_sym.
Qed.

Lemma mask_test w id : (Z.land w (mask id) =? 0) = negb (Z.testbit w (id mod 32)).
Proof.
  pose proof (Z.mod_pos_bound id 32 ltac:(lia)) as H. destruct (Z.testbit w (id mod 32)) eqn:E; cbn [negb].
  - apply Z.eqb_neq. intros Hz. apply (f_equal (fun x => Z.testbit x (id mod 32))) in Hz.
    rewrite Z.land_spec, mask_testbit, E, Z.eqb_refl, Z.bits_0 in Hz by lia. done.
  - apply Z.eqb_eq, Z.bits_inj'. intros n Hn. rewrite Z.land_spec, mask_testbit, Z.bits_0 by lia.
    destruct (Z.eqb_spec n (id mod 32)) as [->|]; [by rewrite E|apply andb_false_r].
Qed.

Lemma word_bound w : (forall n, 32 <= n -> Z.testbit w n = false) -> 0 <= w -> w < two32.
Proof.
  intros H Hw. destruct (Z.eq_dec w 0) as [->|]; [lia|]. change two32 with (2 ^ 32). apply Z.log2_lt_pow2; [lia|].
  destruct (Z.lt_ge_cases (Z.log2 w) 32) as [|Hge]; [done|]. apply H in Hge. rewrite Z.bit_log2 in Hge by lia. done.
Qed.

Lemma word_high w n : 0 <= w < two32 -> 32 <= n -> Z.testbit w n = false.
Proof. intros Hw Hn. rewrite <- (Z.mod_small w (2 ^ 32)) by lia. apply Z.mod_pow2_bits_high. lia. Qed.

(** Writing back the word of [id] with its bit set to [v]. *)
Definition word_set (w id : Z) (v : bool) : Z := if v then Z.lor w (mask id) else Z.land w (u32 (Z.lnot (mask id))).

Lemma word_set_testbit w id v n :
  0 <= w < two32 -> 0 <= n -> Z.testbit (word_set w id v) n = if n =? id mod 32 then v else Z.testbit w n.
Proof.
  intros Hw Hn. unfold word_set. destruct v.
  - rewrite Z.lor_spec, mask_testbit by done. destruct (n =? id mod 32); [apply orb_true_r|apply orb_false_r].
  - rewrite Z.land_spec. unfold u32. change two32 with (2 ^ 32). destruct (Z.lt_ge_cases n 32).
    + rewrite Z.mod_pow2_bits_low, Z.lnot_spec, mask_testbit by lia. destruct (n =? id mod 32); [apply andb_false_r|apply andb_true_r].
    + rewrite (word_high w n) by lia. rewrite andb_false_l. by destruct (n =? id mod 32).
Qed.

Lemma word_set_bound w id v : 0 <= w < two32 -> 0 <= word_set w id v < two32.
Proof.
  intros Hw. assert (0 <= mask id) as Hm by (rewrite mask_pow; apply Z.pow_nonneg; lia).
  assert (0 <= word_set w id v) as H0.
  { unfold word_set. destruct v; [apply Z.lor_nonneg; lia|apply Z.land_nonneg; lia]. }
  split; [done|]. apply word_bound; [|done]. intros n Hn. rewrite word_set_testbit by lia.
  pose proof (Z.mod_pos_bound id 32 ltac:(lia)). destruct (Z.eqb_spec n (id mod 32)); [lia|]. by apply word_high.
Qed.

Lemma id_word a id : id_ok a -> 0 <= id < max_ids a ->
  exists w, zget (id_bitmap a) (id / 32) = Some w /\ 0 <= w < two32 /\ used (id_bitmap a) id = Z.testbit w (id mod 32).
Proof.
  intros H Hid. destruct (zget_ok (id_bitmap a) (id / 32)) as [w Hw].
  { rewrite (id_len _ H). split; [apply Z.div_pos; lia|]. apply Z.div_lt_upper_bound; [lia|].
    pose proof (Z.div_mod (max_ids a + 31) 32 ltac:(lia)). pose proof (Z.mod_pos_bound (max_ids a + 31) 32 ltac:(lia)). lia. }
  exists w. split_and!; try done.
  - apply (Forall_zget _ _ _ _ (id_words _ H) Hw).
  - apply (Forall_zget _ _ _ _ (id_words _ H) Hw).
  - unfold used, BITS_PER_WORD. by rewrite Hw.
Qed.

(** The allocator after the bit of [id] was flipped. *)
Definition flipped (a a' : id_allocator_t) (id : Z) (v : bool) : Prop :=
  id_ok a' /\ max_ids a' = max_ids a /\ free_set a' = if v then free_set a ∖ {[id]} else free_set a ∪ {[id]}.

Lemma flip_spec a id w v nx :
  id_ok a -> 0 <= id < max_ids a -> zget (id_bitmap a) (id / 32) = Some w -> 0 <= w < two32 ->
  used (id_bitmap a) id = negb v -> 0 <= nx < max_ids a ->
  exists bm, zset (id_bitmap a) (id / 32) (word_set w id v) = Some bm /\
    flipped a (mkIds bm (max_ids a) (u32 (free_count a + if v then -1 else 1)) nx) id v.
Proof.
  intros H Hid Hw Hwb Hu Hnx. pose proof (zget_range _ _ _ Hw) as Hr.
  assert (exists bm, zset (id_bitmap a) (id / 32) (word_set w id v) = Some bm) as [bm Hbm] by (eexists; by apply zset_ok).
  exists bm. split; [done|].
  assert (forall j, 0 <= j -> used bm j = if j =? id then v else used (id_bitmap a) j) as Hused.
  { intros j Hj. unfold used, BITS_PER_WORD. rewrite (zset_get _ _ (j / 32) _ _ Hbm).
    pose proof (Z.div_mod j 32 ltac:(lia)). pose proof (Z.div_mod id 32 ltac:(lia)).
    pose proof (Z.mod_pos_bound j 32 ltac:(lia)). case_decide as E.
    - rewrite word_set_testbit, <- E, Hw by lia. destruct (Z.eqb_spec (j mod 32) (id mod 32)), (Z.eqb_spec j id); try done; [lia|congruence].
    - destruct (Z.eqb_spec j id); [congruence|done]. }
  assert (free_set (mkIds bm (max_ids a) (u32 (free_count a + if v then -1 else 1)) nx) = if v then free_set a ∖ {[id]} else free_set a ∪ {[id]}) as Hset.
  { destruct v; apply set_eq; intros j; rewrite ?elem_of_difference, ?elem_of_union, !elem_free, elem_of_singleton; cbn [id_bitmap max_ids];
      split; intros Hj.
    - destruct Hj as [? Hj]. rewrite Hused in Hj by lia. destruct (Z.eqb_spec j id); [done|tauto].
    - destruct Hj as [[? Hj] ?]. rewrite Hused by lia. destruct (Z.eqb_spec j id); [done|tauto].
    - destruct Hj as [? Hj]. rewrite Hused in Hj by lia. destruct (Z.eqb_spec j id); [by right|left; tauto].
    - destruct Hj as [[? Hj]| ->]; (split; [lia|]).
      + rewrite Hused by lia. by destruct (Z.eqb_spec j id).
      + by rewrite Hused, Z.eqb_refl by lia. }
  split_and!; [|done|exact Hset]. pose proof (free_size a ltac:(apply H)) as Hfs.
  split; cbn [id_bitmap max_ids free_count next_id].
  - apply H.
  - rewrite (zset_len _ _ _ _ Hbm). apply H.
  - apply zset_Some in Hbm as [_ ->]. apply Forall_insert; [apply H|]. by apply word_set_bound.
  - by left.
  - rewrite Hset, (id_count _ H). pose proof (id_max _ H). destruct v.
    + assert (id ∈ free_set a) as Hin by (by apply elem_free). rewrite size_difference by set_solver. rewrite size_singleton.
      assert (0 < size (free_set a))%nat by (assert (size (free_set a) <> 0%nat) by (intros Hz%size_empty_inv; set_solver); lia).
      rewrite u32_id by lia. lia.
    + assert (id ∉ free_set a) as Hin by (rewrite elem_free; cbn [negb] in Hu; intros [_ ?]; congruence).
      assert (Z.of_nat (size (free_set a ∪ {[id]})) <= max_ids a) as Hs2.
      { rewrite <- Hset. apply (free_size (mkIds bm (max_ids a) (u32 (free_count a + 1)) nx)). cbn [max_ids]. lia. }
      rewrite size_union in Hs2 |- * by set_solver. rewrite size_singleton in Hs2 |- *. rewrite u32_id by lia. lia.
Qed.

(** ** The operations *)

Lemma create_ok max : 0 <= max <= two31 ->
  exists a, id_allocator_create true true max = Some a /\ id_ok a /\ max_ids a = max /\ forall i, 0 <= i < max -> i ∈ free_set a.
Proof.
  intros Hm. unfold id_allocator_create. cbn [negb]. eexists. split; [done|].
  assert (u32 (u64 (max + BITS_PER_WORD - 1) / BITS_PER_WORD) = (max + 31) / 32) as Eb.
  { unfold BITS_PER_WORD. rewrite u64_id by lia. replace (max + 32 - 1) with (max + 31) by lia. apply u32_id.
    split; [apply Z.div_pos; lia|]. apply Z.div_lt_upper_bound; lia. }
  rewrite Eb. assert (0 <= (max + 31) / 32) by (apply Z.div_pos; lia).
  assert (forall i, 0 <= i < max -> used (replicate (Z.to_nat ((max + 31) / 32)) 0) i = false) as Hu.
  { intros i Hi. unfold used, BITS_PER_WORD. rewrite zget_replicate; [apply Z.bits_0|]. split; [apply Z.div_pos; lia|].
    rewrite Z2Nat.id by done. apply Z.div_lt_upper_bound; [lia|].
    pose proof (Z.div_mod (max + 31) 32 ltac:(lia)). pose proof (Z.mod_pos_bound (max + 31) 32 ltac:(lia)). lia. }
  split_and!; [|done|intros i Hi; apply elem_free; by split; [|apply Hu]]. split; cbn [id_bitmap max_ids free_count next_id].
  - lia.
  - rewrite zlen_replicate. lia.
  - apply Forall_replicate. lia.
  - lia.
  - assert (free_set (mkIds (replicate (Z.to_nat ((max + 31) / 32)) 0) max max 0) = list_to_set (seqZ 0 max)) as ->.
    { apply set_eq. intros i. rewrite elem_free, elem_of_list_to_set, elem_of_seqZ. cbn [id_bitmap max_ids]. split; [lia|].
      intros Hi. split; [lia|]. apply Hu. lia. }
    rewrite size_list_to_set, length_seqZ by apply NoDup_seqZ. lia.
Qed.

(** The [k]-th identifier of the search. *)
Definition probe (a : id_allocator_t) (k : Z) : Z := (next_id a + k) mod max_ids a.

Lemma probe_range a k : id_ok a -> 0 < max_ids a -> 0 <= probe a k < max_ids a.
Proof. intros _ H. by apply Z.mod_pos_bound. Qed.

Lemma probe_next a k : id_ok a -> 0 < max_ids a -> u32 (probe a k + 1) mod max_ids a = probe a (k + 1).
Proof.
  intros H Hm. pose proof (probe_range a k H Hm) as Hp. pose proof (id_max _ H). rewrite u32_id by lia.
  unfold probe. rewrite Z.add_mod_idemp_l by lia. f_equal. lia.
Qed.

Lemma probe_start a k : id_ok a -> 0 < max_ids a -> 0 < k <= max_ids a -> probe a k = next_id a <-> k = max_ids a.
Proof.
  intros H Hm Hk. destruct (id_next _ H) as [Hn|]; [|lia]. unfold probe. split.
  - intros E. pose proof (Z.div_mod (next_id a + k) (max_ids a) ltac:(lia)) as Hd. rewrite E in Hd.
    assert (k = max_ids a * ((next_id a + k) / max_ids a)) as Hk2 by lia.
    assert (0 < (next_id a + k) / max_ids a) by nia. nia.
  - intros ->. rewrite <- (Z.mul_1_l (max_ids a)) at 1. rewrite Z.mod_add by lia. apply Z.mod_small. lia.
Qed.

(** Every identifier is probed within [max_ids] steps. *)
Lemma probe_all a i : id_ok a -> 0 <= i < max_ids a -> exists k, 0 <= k < max_ids a /\ i = probe a k.
Proof.
  intros H Hi. exists ((i - next_id a) mod max_ids a). split; [apply Z.mod_pos_bound; lia|].
  unfold probe. rewrite Z.add_mod_idemp_r by lia. replace (next_id a + (i - next_id a)) with i by lia. by rewrite Z.mod_small.
Qed.

Lemma alloc_loop_spec a : id_ok a -> 0 < max_ids a -> forall fuel k,
  0 <= k -> Z.of_nat fuel = max_ids a - k -> (0 < fuel)%nat -> (forall j, 0 <= j < k -> probe a j ∉ free_set a) ->
  (exists k', k <= k' < max_ids a /\ probe a k' ∈ free_set a /\ (forall j, 0 <= j < k' -> probe a j ∉ free_set a) /\
     exists a', id_alloc_loop fuel a (next_id a) (probe a k) = Some (a', probe a k') /\ flipped a a' (probe a k') true /\
       next_id a' = probe a (k' + 1)) \/
  id_alloc_loop fuel a (next_id a) (probe a k) = Some (a, -1) /\ forall j, 0 <= j < max_ids a -> probe a j ∉ free_set a.
Proof.
  intros H Hm. induction fuel as [|fuel IH]; intros k Hk Hf Hf0 Hno; [lia|]. cbn [id_alloc_loop].
  pose proof (probe_range a k H Hm) as Hp. destruct (id_word a (probe a k) H Hp) as (w & Hw & Hwb & Hu).
  unfold BITS_PER_WORD. rewrite Hw. cbn [mbind option_bind]. rewrite mask_test. destruct (Z.testbit w (probe a k mod 32)) eqn:Eb; cbn [negb].
  - assert (probe a k ∉ free_set a) as Hnf by (rewrite elem_free; intros [_ ?]; congruence). rewrite probe_next by done.
    assert (forall j, 0 <= j < k + 1 -> probe a j ∉ free_set a) as Hno'.
    { intros j Hj. destruct (decide (j = k)) as [->|]; [done|]. apply Hno. lia. }
    destruct (Z.eqb_spec (probe a (k + 1)) (next_id a)) as [E|E]; cbn [negb].
    + right. apply probe_start in E; [|done|done|lia]. split; [done|]. intros j Hj. apply Hno'. lia.
    + destruct (IH (k + 1)) as [(k' & Hk' & Hin & Hno2 & a' & Ha')|Hn]; [lia|lia| |done| |by right].
      * destruct fuel; [|lia]. exfalso. apply E, probe_start; [done|done|lia|lia].
      * left. exists k'. split_and!; [lia|lia|done|done|]. by exists a'.
  - left. exists k. split_and!; [lia|lia|by apply elem_free|done|].
    destruct (flip_spec a (probe a k) w true (probe a (k + 1)) H Hp Hw Hwb Hu) as (bm & Hbm & Hfl); [by apply probe_range|].
    cbn [word_set] in Hbm. rewrite Hbm. cbn [mbind option_bind]. eexists. rewrite i32_id by (pose proof (id_max _ H); lia).
    split; [done|]. rewrite probe_next by done. by split.
Qed.

(** C38: [id_alloc] always returns, within [max_ids] rounds of its loop: it
    gives the first free identifier in cyclic order after the last one given
    and takes exactly it out of the free set, or -1 without a change when the
    set is empty; the count and the search position stay right. *)
Theorem id_alloc_terminates a :
  id_ok a ->
  (free_set a = ∅ /\ id_alloc a = Some (a, -1)) \/
  (exists k a', 0 <= k < max_ids a /\ probe a k ∈ free_set a /\ (forall j, 0 <= j < k -> probe a j ∉ free_set a) /\
     id_alloc a = Some (a', probe a k) /\ id_ok a' /\ max_ids a' = max_ids a /\
     free_set a' = free_set a ∖ {[probe a k]} /\ next_id a' = probe a (k + 1)).
Proof.
  intros H. unfold id_alloc. rewrite (id_count _ H). destruct (Z.eqb_spec (Z.of_nat (size (free_set a))) 0) as [E|E].
  { left. split; [|done]. apply leibniz_equiv, size_empty_inv. lia. }
  pose proof (free_size a ltac:(apply H)) as Hs. pose proof (id_max _ H) as Hmx. assert (0 < max_ids a) as Hm by lia.
  assert (next_id a = probe a 0) as E0.
  { unfold probe. destruct (id_next _ H) as [?|?]; [|lia]. rewrite Z.add_0_r. symmetry. by apply Z.mod_small. }
  destruct (alloc_loop_spec a H Hm (Z.to_nat (max_ids a)) 0) as [(k & Hk & Hin & Hno & a' & Ea & (Hok & Hmax & Hset) & Hnx)|[_ Hno]]; try lia.
  - right. exists k, a'. rewrite E0 at 2. split_and!; try done; lia.
  - exfalso. apply E. assert (free_set a = ∅) as ->; [|done]. apply set_eq. intros i. split; [|set_solver].
    intros Hi. pose proof Hi as [Hr _]%elem_free. destruct (probe_all a i H Hr) as (k & Hk & ->). by apply Hno in Hi.
Qed.

(** Ten identifiers of which 0, 1 and 3 are taken. *)
Definition ex_ids : id_allocator_t := mkIds [11] 10 7 3.

Lemma ex_ids_ok : id_ok ex_ids.
Proof. split; cbn; [lia|done|by repeat constructor|lia|by vm_compute]. Qed.

Lemma id_alloc_terminates_witness : exists a', id_alloc ex_ids = Some (a', 4) /\ id_ok a' /\ 4 ∉ free_set a'.
Proof.
  destruct (id_alloc_terminates ex_ids ex_ids_ok) as [[_ E]|(k & a' & _ & _ & _ & E & Hok & _ & Hs & _)];
    [vm_compute in E; discriminate E|].
  exists a'. assert (probe ex_ids k = 4) as Ek; [vm_compute in E; injection E as _ E; symmetry; exact E|].
  rewrite Ek in *. split_and!; [exact E|exact Hok|]. rewrite Hs. intros [_ H]%elem_of_difference. by apply H, elem_of_singleton.
Defined.

(** [id_free] gives back exactly the identifiers that are taken: it
    reports whether [id] was in use, and adds it to the free set; an id that
    is out of range or free is refused and nothing changes. *)
Theorem id_free_correct a id :
  id_ok a -> 0 <= id ->
  exists a', id_free a id = Some (a', bool_decide (id < max_ids a /\ id ∉ free_set a)) /\ id_ok a' /\
    max_ids a' = max_ids a /\ (free_set a' = if bool_decide (id < max_ids a) then free_set a ∪ {[id]} else free_set a).
Proof.
  intros H H0. unfold id_free. rewrite Z.geb_leb. destruct (Z.leb_spec (max_ids a) id) as [Hge|Hlt].
  { exists a. rewrite !bool_decide_eq_false_2 by lia. by split_and!. }
  rewrite (bool_decide_eq_true_2 (id < max_ids a)) by done.
  destruct (id_word a id H) as (w & Hw & Hwb & Hu); [lia|]. unfold BITS_PER_WORD. rewrite Hw. cbn [mbind option_bind].
  rewrite mask_test. destruct (Z.testbit w (id mod 32)) eqn:Eb; cbn [negb].
  - rewrite bool_decide_eq_true_2 by (split; [done|]; rewrite elem_free; intros [_ ?]; congruence).
    destruct (id_next _ H) as [Hn|]; [|lia].
    destruct (flip_spec a id w false (next_id a) H ltac:(lia) Hw Hwb Hu Hn) as (bm & Hbm & Hok & Hm & Hs).
    cbn [word_set] in Hbm. rewrite Hbm. cbn [mbind option_bind]. eexists. split; [done|]. by split_and!.
  - assert (id ∈ free_set a) as Hin by (by apply elem_free). rewrite bool_decide_eq_false_2 by tauto.
    exists a. split_and!; try done. set_solver.
Qed.

Lemma id_free_correct_witness :
  exists a', id_free ex_ids 3 = Some (a', true) /\ id_ok a' /\ 3 ∈ free_set a'.
Proof.
  destruct (id_free_correct ex_ids 3 ex_ids_ok ltac:(lia)) as (a' & E & Hok & _ & Hs). exists a'.
  split_and!; [vm_compute in E |- *; exact E|exact Hok|rewrite Hs; vm_compute; done].
Defined.

Lemma id_alloc_set_spec a id :
  id_ok a -> 0 <= id -> exists a', id_alloc_set a id = Some a' /\ id_ok a' /\ max_ids a' = max_ids a /\ free_set a' = free_set a ∖ {[id]}.
Proof.
  intros H H0. unfold id_alloc_set. rewrite Z.geb_leb. destruct (Z.leb_spec (max_ids a) id) as [Hge|Hlt].
  { exists a. split_and!; try done. assert (id ∉ free_set a) by (rewrite elem_free; lia). set_solver. }
  destruct (id_word a id H) as (w & Hw & Hwb & Hu); [lia|]. unfold BITS_PER_WORD. rewrite Hw. cbn [mbind option_bind].
  rewrite mask_test. destruct (Z.testbit w (id mod 32)) eqn:Eb; cbn [negb].
  - exists a. split_and!; try done. assert (id ∉ free_set a) by (rewrite elem_free; intros [_ ?]; congruence). set_solver.
  - destruct (id_next _ H) as [Hn|]; [|lia].
    destruct (flip_spec a id w true (next_id a) H ltac:(lia) Hw Hwb Hu Hn) as (bm & Hbm & Hok & Hm & Hs).
    cbn [word_set] in Hbm. rewrite Hbm. cbn [mbind option_bind]. eexists. split; [done|]. by split_and!.
Qed.
