(* ===== verification/Map.v ===== *)
(** * Hash map of pointers ([src/src/util/map.c])

    A table of chains, doubled when it is three quarters full. The chain of a
    bucket is the list of its entries: an entry is reachable through its
    bucket only. The table is proved against a finite map. *)

From stdpp Require Import gmap.
From S2P Require Import Prelude.

Record map_entry := mkEnt { e_key : Z; e_value : Z }.

Record hmap := mkMap { m_lock : spin_t; m_capacity : Z; m_size : Z; m_buckets : list (list map_entry) }.

(** ** The code *)

Definition map_with_lock (m : hmap) (l : spin_t) : hmap := mkMap l (m_capacity m) (m_size m) (m_buckets m).
Definition map_with_buckets (m : hmap) (bs : list (list map_entry)) : hmap := mkMap (m_lock m) (m_capacity m) (m_size m) bs.

Definition hash_ptr (p : Z) : Z := u64 (Z.shiftr p 4 * 2654435761).

(** [hash_ptr(key) % capacity]: a division by zero is a fault. *)
Definition bucket_of (key capacity : Z) : option Z := if capacity =? 0 then None else Some (hash_ptr key mod capacity).

(** [(double)(size + 1) / (double)capacity > 0.75], exact in doubles for every
    capacity below 2^51; a capacity of 0 gives infinity. *)
Definition load_exceeded (size capacity : Z) : bool := 4 * u64 (size + 1) >? 3 * capacity.

(** The inner loop of [map_resize]: each entry is pushed on its new chain. *)
Fixpoint move_chain (chain : list map_entry) (new_capacity : Z) (nb : list (list map_entry)) : option (list (list map_entry)) :=
  match chain with
  | [] => Some nb
  | entry :: next =>
      new_index ← bucket_of (e_key entry) new_capacity;
      old ← zget nb new_index;
      nb ← zset nb new_index (entry :: old);
      move_chain next new_capacity nb
  end.

Definition map_resize (calloc_ok : bool) (m : hmap) : option hmap :=
  let new_capacity := u64 (m_capacity m * 2) in
  if negb calloc_ok then Some m
  else
    nb ← for_range 0 (m_capacity m) (fun i nb => chain ← zget (m_buckets m) i; move_chain chain new_capacity nb)
           (replicate (Z.to_nat new_capacity) []);
    Some (mkMap (m_lock m) new_capacity (m_size m) nb).

(** NULL is [None]. *)
Definition map_create (malloc_ok calloc_ok : bool) (capacity : Z) : option hmap :=
  if negb malloc_ok then None
  else if negb calloc_ok then None
  else Some (mkMap SPIN_INIT capacity 0 (replicate (Z.to_nat capacity) [])).

(** The search loops along a chain: the chain with the entry of [key]
    overwritten or taken out, when there is one. *)
Fixpoint chain_set (chain : list map_entry) (key value : Z) : option (list map_entry) :=
  match chain with
  | [] => None
  | entry :: next =>
      if e_key entry =? key then Some (mkEnt (e_key entry) value :: next) else cons entry <$> chain_set next key value
  end.

Fixpoint chain_remove (chain : list map_entry) (key : Z) : option (list map_entry) :=
  match chain with
  | [] => None
  | entry :: next => if e_key entry =? key then Some next else cons entry <$> chain_remove next key
  end.

Fixpoint chain_get (chain : list map_entry) (key : Z) : option Z :=
  match chain with
  | [] => None
  | entry :: next => if e_key entry =? key then Some (e_value entry) else chain_get next key
  end.

(** The new entry is written through the result of [malloc] without a test. *)
Definition map_set (malloc_ok calloc_ok : bool) (m : hmap) (key value : Z) : option hmap :=
  l ← spin_lock (m_lock m);
  let m := map_with_lock m l in
  m ← (if load_exceeded (m_size m) (m_capacity m) then map_resize calloc_ok m else Some m);
  index ← bucket_of key (m_capacity m);
  chain ← zget (m_buckets m) index;
  match chain_set chain key value with
  | Some chain =>
      bs ← zset (m_buckets m) index chain;
      Some (map_with_lock (map_with_buckets m bs) (spin_unlock (m_lock m)))
  | None =>
      if negb malloc_ok then None
      else
        bs ← zset (m_buckets m) index (mkEnt key value :: chain);
        Some (mkMap (spin_unlock (m_lock m)) (m_capacity m) (u64 (m_size m + 1)) bs)
  end.

Definition map_remove (m : hmap) (key : Z) : option hmap :=
  l ← spin_lock (m_lock m);
  let m := map_with_lock m l in
  index ← bucket_of key (m_capacity m);
  chain ← zget (m_buckets m) index;
  match chain_remove chain key with
  | Some chain =>
      bs ← zset (m_buckets m) index chain;
      let size := if m_size m >? 0 then u64 (m_size m - 1) else m_size m in
      Some (mkMap (spin_unlock (m_lock m)) (m_capacity m) size bs)
  | None => Some (map_with_lock m (spin_unlock (m_lock m)))
  end.

(** The value, 0 for NULL. *)
Definition map_get (m : hmap) (key : Z) : option (hmap * Z) :=
  index ← bucket_of key (m_capacity m);
  l ← spin_lock (m_lock m);
  let m := map_with_lock m l in
  chain ← zget (m_buckets m) index;
  let val := match chain_get chain key with Some v => v | None => 0 end in
  Some (map_with_lock m (spin_unlock (m_lock m)), val).

(** The number of entries freed. *)
Definition map_destroy (m : hmap) : option Z :=
  l ← spin_lock (m_lock m);
  for_range 0 (m_capacity m) (fun i n => chain ← zget (m_buckets m) i; Some (n + zlen chain)) 0.

(** ** The table as a finite map *)

Implicit Types (bs : list (list map_entry)) (E : list map_entry).

Definition pair_of (e : map_entry) : Z * Z := (e_key e, e_value e).

Definition placed (c : Z) bs : Prop := forall i chain e, zget bs i = Some chain -> e ∈ chain -> hash_ptr (e_key e) mod c = i.

Record table (c : Z) bs (M : gmap Z Z) : Prop := {
  tb_len : zlen bs = c;
  tb_placed : placed c bs;
  tb_once : NoDup (e_key <$> concat bs);
  tb_map : M = list_to_map (pair_of <$> concat bs);
}.

Record map_ok (m : hmap) (M : gmap Z Z) : Prop := {
  mo_lock : m_lock m = false;
  mo_cap : 0 < m_capacity m < two63;
  mo_table : table (m_capacity m) (m_buckets m) M;
  mo_size : m_size m = Z.of_nat (size M);
  mo_small : Z.of_nat (size M) < two64 - 1;
}.

Lemma keys_of E : (pair_of <$> E).*1 = e_key <$> E.
Proof. rewrite <- list_fmap_compose. by apply list_fmap_ext. Qed.

Lemma bucket_some key c : 0 < c -> bucket_of key c = Some (hash_ptr key mod c) /\ 0 <= hash_ptr key mod c < c.
Proof. intros Hc. unfold bucket_of. destruct (Z.eqb_spec c 0); [lia|]. split; [done|]. by apply Z.mod_pos_bound. Qed.

(** Replacing one chain, seen from the whole table. *)
Lemma concat_split bs i chain : zget bs i = Some chain ->
  exists X Y, bs = X ++ chain :: Y /\ i = zlen X /\ forall chain', zset bs i chain' = Some (X ++ chain' :: Y).
Proof.
  intros H. pose proof (zget_range _ _ _ H) as Hr. unfold zget in H. destruct (Z.ltb_spec i 0); [lia|].
  exists (take (Z.to_nat i) bs), (drop (S (Z.to_nat i)) bs). pose proof (take_drop_middle bs (Z.to_nat i) chain H) as E.
  assert (length (take (Z.to_nat i) bs) = Z.to_nat i) as El by (rewrite length_take; unfold zlen in Hr; lia).
  split_and!; [done|unfold zlen; lia|]. intros chain'. rewrite zset_ok by done. f_equal.
  rewrite <- E at 1. by rewrite insert_app_r_alt, El, Nat.sub_diag by lia.
Qed.

Lemma concat_mid (X Y : list (list map_entry)) chain : concat (X ++ chain :: Y) ≡ₚ chain ++ concat (X ++ Y).
Proof. rewrite !concat_app. cbn [concat]. rewrite !app_assoc. f_equiv. apply Permutation_app_comm. Qed.

Lemma placed_mid c X Y chain chain' :
  placed c (X ++ chain :: Y) -> (forall e, e ∈ chain' -> hash_ptr (e_key e) mod c = zlen X) -> placed c (X ++ chain' :: Y).
Proof.
  intros H Hc i ch e Hi He. destruct (Z.lt_trichotomy i (zlen X)) as [Hlt|[->|Hgt]].
  - rewrite zget_app_l in Hi by done. eapply H; [|exact He]. by rewrite zget_app_l.
  - rewrite zget_app_r, Z.sub_diag in Hi by lia. cbn in Hi. injection Hi as <-. by apply Hc.
  - eapply H; [|exact He]. rewrite zget_app_r in Hi |- * by lia. rewrite zget_cons_S in Hi |- * by lia. done.
Qed.

Lemma table_size c bs M : table c bs M -> size M = length (concat bs).
Proof.
  intros H. rewrite (tb_map _ _ _ H). rewrite <- (length_fmap e_key), <- keys_of, length_fmap.
  rewrite <- (length_map_to_list (list_to_map _)), map_to_list_to_map; [done|]. rewrite keys_of. apply H.
Qed.

Lemma list_to_map_perm E E' : NoDup (e_key <$> E) -> E ≡ₚ E' ->
  list_to_map (pair_of <$> E) =@{gmap Z Z} list_to_map (pair_of <$> E').
Proof. intros Hn Hp. apply list_to_map_proper; [by rewrite keys_of|by f_equiv]. Qed.

(** ** Chains *)

Lemma chain_get_map chain key : chain_get chain key = (list_to_map (pair_of <$> chain) : gmap Z Z) !! key.
Proof.
  induction chain as [|e chain IH]; cbn [chain_get]; [done|]. rewrite fmap_cons. unfold pair_of at 1. rewrite list_to_map_cons.
  destruct (Z.eqb_spec (e_key e) key) as [<-|]; [by rewrite lookup_insert_eq|by rewrite lookup_insert_ne].
Qed.

Lemma chain_set_spec chain key value :
  match chain_set chain key value with
  | Some chain' => exists K old K', chain = K ++ mkEnt key old :: K' /\ chain' = K ++ mkEnt key value :: K'
  | None => key ∉ (e_key <$> chain)
  end.
Proof.
  induction chain as [|[k v] chain IH]; cbn [chain_set e_key fmap list_fmap]; [apply not_elem_of_nil|].
  destruct (Z.eqb_spec k key) as [->|Hne]; [by exists [], v, chain|].
  destruct (chain_set chain key value) as [chain'|]; cbn [fmap option_fmap option_map].
  - destruct IH as (K & old & K' & -> & ->). by exists (mkEnt k v :: K), old, K'.
  - apply not_elem_of_cons. done.
Qed.

Lemma chain_remove_spec chain key :
  match chain_remove chain key with
  | Some chain' => exists K old K', chain = K ++ mkEnt key old :: K' /\ chain' = K ++ K'
  | None => key ∉ (e_key <$> chain)
  end.
Proof.
  induction chain as [|[k v] chain IH]; cbn [chain_remove e_key fmap list_fmap]; [apply not_elem_of_nil|].
  destruct (Z.eqb_spec k key) as [->|Hne]; [by exists [], v, chain|].
  destruct (chain_remove chain key) as [chain'|]; cbn [fmap option_fmap option_map].
  - destruct IH as (K & old & K' & -> & ->). by exists (mkEnt k v :: K), old, K'.
  - apply not_elem_of_cons. done.
Qed.

(** The chain of a key decides the map at the key. *)
Lemma table_lookup c bs M key chain :
  table c bs M -> 0 < c -> zget bs (hash_ptr key mod c) = Some chain ->
  M !! key = chain_get chain key /\ (key ∉ (e_key <$> chain) <-> M !! key = None).
Proof.
  intros [Hl Hp Hn ->] Hc Hg. rewrite chain_get_map.
  assert ((list_to_map (pair_of <$> concat bs) : gmap Z Z) !! key = (list_to_map (pair_of <$> chain) : gmap Z Z) !! key) as Heq.
  { destruct (concat_split _ _ _ Hg) as (X & Y & -> & Ei & _). rewrite (list_to_map_perm _ _ Hn (concat_mid X Y chain)).
    rewrite fmap_app, list_to_map_app, lookup_union.
    assert ((list_to_map (pair_of <$> concat (X ++ Y)) : gmap Z Z) !! key = None) as ->; [|by rewrite option_union_right_id].
    apply not_elem_of_list_to_map. rewrite keys_of. intros (e & -> & He)%list_elem_of_fmap.
    apply list_elem_of_In, in_concat in He as (ch & Hch%list_elem_of_In & He%list_elem_of_In). apply list_elem_of_lookup in Hch as [j Hj].
    destruct (decide (j < length X)%nat) as [Hlt|Hge].
    - rewrite lookup_app_l in Hj by done. pose proof (Hp (Z.of_nat j) ch e) as Hpe. rewrite zget_app_l in Hpe by (unfold zlen; lia).
      unfold zget in Hpe. destruct (Z.ltb_spec (Z.of_nat j) 0); [lia|]. rewrite Nat2Z.id in Hpe. specialize (Hpe Hj He). unfold zlen in Ei. lia.
    - rewrite lookup_app_r in Hj by lia. pose proof (Hp (Z.of_nat j + 1) ch e) as Hpe. rewrite zget_app_r, zget_cons_S in Hpe by (unfold zlen; lia).
      unfold zget, zlen in Hpe. case_if_in Hpe; [lia|]. replace (Z.to_nat _) with (j - length X)%nat in Hpe by lia. specialize (Hpe Hj He). unfold zlen in Ei. lia. }
  split; [done|]. rewrite Heq, <- not_elem_of_list_to_map. by rewrite keys_of.
Qed.

(** ** Growing the table *)

(** A table that may be in the middle of a move: the entries so far. *)
Definition holds_entries (c : Z) bs E : Prop := zlen bs = c /\ placed c bs /\ concat bs ≡ₚ E.

Lemma push_entry c bs E e :
  0 < c -> holds_entries c bs E ->
  exists old bs', zget bs (hash_ptr (e_key e) mod c) = Some old /\ zset bs (hash_ptr (e_key e) mod c) (e :: old) = Some bs' /\ holds_entries c bs' (e :: E).
Proof.
  intros Hc (Hl & Hp & HE). destruct (bucket_some (e_key e) c Hc) as [_ Hb]. destruct (zget_ok bs (hash_ptr (e_key e) mod c)) as [old Ho]; [lia|].
  destruct (concat_split _ _ _ Ho) as (X & Y & -> & Ei & Hs). exists old, (X ++ (e :: old) :: Y). split_and!; [done|by apply Hs|]. split_and!.
  - rewrite <- Hl, !zlen_app, !zlen_cons. done.
  - eapply placed_mid; [exact Hp|]. intros e' [->|He']%elem_of_cons; [done|]. rewrite <- Ei. by eapply Hp.
  - rewrite concat_mid in *. cbn [app]. by rewrite HE.
Qed.

Lemma move_chain_spec c chain : 0 < c -> forall bs E, holds_entries c bs E ->
  exists bs', move_chain chain c bs = Some bs' /\ holds_entries c bs' (chain ++ E).
Proof.
  intros Hc. induction chain as [|e chain IH]; intros bs E H; cbn [move_chain]; [by exists bs|].
  destruct (bucket_some (e_key e) c Hc) as [-> _]. cbn [mbind option_bind].
  destruct (push_entry c bs E e Hc H) as (old & bs1 & -> & E1 & H1). cbn [mbind option_bind]. rewrite E1. cbn [mbind option_bind].
  destruct (IH bs1 (e :: E) H1) as (bs' & -> & Hl & Hp & HE). exists bs'. split; [done|]. split_and!; [done|done|].
  rewrite HE. cbn [app]. symmetry. apply Permutation_middle.
Qed.

Lemma concat_replicate_nil n : concat (replicate n ([] : list map_entry)) = [].
Proof. by induction n. Qed.

Lemma map_resize_spec b m M :
  0 < m_capacity m < two63 -> table (m_capacity m) (m_buckets m) M ->
  exists m', map_resize b m = Some m' /\ m_lock m' = m_lock m /\ m_size m' = m_size m /\
    (m_capacity m' = if b then 2 * m_capacity m else m_capacity m) /\ table (m_capacity m') (m_buckets m') M.
Proof.
  intros Hc [Hl Hp Hn HM]. unfold map_resize. destruct b; cbn [negb]; [|by exists m]. rewrite u64_id by lia.
  replace (m_capacity m * 2) with (2 * m_capacity m) by lia. set (c := 2 * m_capacity m). assert (0 < c) as Hc' by lia.
  destruct (for_range_inv (fun i nb => holds_entries c nb (concat (take (Z.to_nat i) (m_buckets m)))) 0 (m_capacity m)
    (fun i nb => chain ← zget (m_buckets m) i; move_chain chain c nb) (replicate (Z.to_nat c) [])) as (nb & -> & Hl2 & Hp2 & HE).
  - lia.
  - split_and!; [rewrite zlen_replicate; lia| |by rewrite concat_replicate_nil].
    intros i ch e Hi He. apply zget_elem in Hi. apply elem_of_replicate in Hi as [-> _]. by apply not_elem_of_nil in He.
  - intros i nb Hi H. destruct (zget_ok (m_buckets m) i) as [chain Hch]; [lia|]. rewrite Hch. cbn [mbind option_bind].
    destruct (move_chain_spec c chain Hc' nb _ H) as (nb' & -> & Hl2 & Hp2 & HE). exists nb'. split; [done|]. split_and!; [done|done|].
    rewrite HE. replace (Z.to_nat (i + 1)) with (S (Z.to_nat i)) by lia.
    assert (m_buckets m !! Z.to_nat i = Some chain) as Hch' by (unfold zget in Hch; case_if_in Hch; [done|exact Hch]).
    rewrite (take_S_r _ _ _ Hch'), concat_app. cbn [concat]. rewrite app_nil_r. apply Permutation_app_comm.
  - cbn [mbind option_bind]. eexists. split; [done|]. cbn [m_lock m_size m_capacity m_buckets]. split_and!; try done.
    rewrite firstn_all2 in HE by (unfold zlen in Hl; lia). split; [done|done|by rewrite HE|]. rewrite HM. apply list_to_map_perm; [done|by rewrite HE].
Qed.

(** ** The operations *)

Lemma table_replace c X K old K' Y key value M :
  0 < c -> table c (X ++ (K ++ mkEnt key old :: K') :: Y) M -> table c (X ++ (K ++ mkEnt key value :: K') :: Y) (<[key := value]> M).
Proof.
  intros Hc [Hl Hp Hn HM].
  assert (forall v, concat (X ++ (K ++ mkEnt key v :: K') :: Y) ≡ₚ mkEnt key v :: (K ++ K') ++ concat (X ++ Y)) as Hperm.
  { intros v. rewrite concat_mid. rewrite <- (Permutation_middle K K' (mkEnt key v)). done. }
  assert (forall v, NoDup (e_key <$> concat (X ++ (K ++ mkEnt key v :: K') :: Y))) as Hnd.
  { intros v. rewrite Hperm. rewrite Hperm in Hn. exact Hn. }
  split.
  - rewrite <- Hl, !zlen_app, !zlen_cons. done.
  - eapply placed_mid; [exact Hp|]. intros e He. assert (zget (X ++ (K ++ mkEnt key old :: K') :: Y) (zlen X) = Some (K ++ mkEnt key old :: K')) as Hg
      by (rewrite zget_app_r, Z.sub_diag by lia; done).
    rewrite elem_of_app, elem_of_cons in He. destruct He as [He|[->|He]].
    + eapply Hp; [exact Hg|]. apply elem_of_app. by left.
    + change (e_key (mkEnt key value)) with (e_key (mkEnt key old)). eapply Hp; [exact Hg|]. apply elem_of_app. right. by apply elem_of_cons; left.
    + eapply Hp; [exact Hg|]. apply elem_of_app. right. by apply elem_of_cons; right.
  - apply Hnd.
  - rewrite HM, (list_to_map_perm _ _ (Hnd old) (Hperm old)), (list_to_map_perm _ _ (Hnd value) (Hperm value)).
    rewrite !fmap_cons. unfold pair_of at 1 3. rewrite !list_to_map_cons. cbn [e_key e_value]. by rewrite insert_insert_eq.
Qed.

Lemma table_push c X chain Y key value M :
  0 < c -> table c (X ++ chain :: Y) M -> M !! key = None -> hash_ptr key mod c = zlen X ->
  table c (X ++ (mkEnt key value :: chain) :: Y) (<[key := value]> M).
Proof.
  intros Hc [Hl Hp Hn HM] Hk Hh.
  assert (concat (X ++ (mkEnt key value :: chain) :: Y) ≡ₚ mkEnt key value :: concat (X ++ chain :: Y)) as Hperm by (rewrite !concat_mid; done).
  assert (NoDup (e_key <$> concat (X ++ (mkEnt key value :: chain) :: Y))) as Hnd.
  { rewrite Hperm. cbn [fmap list_fmap e_key]. apply NoDup_cons. split; [|done]. rewrite <- keys_of. apply not_elem_of_list_to_map. by rewrite <- HM. }
  split.
  - rewrite <- Hl, !zlen_app, !zlen_cons. done.
  - eapply placed_mid; [exact Hp|]. intros e [->|He]%elem_of_cons; [done|]. eapply Hp; [|exact He]. rewrite zget_app_r, Z.sub_diag by lia. done.
  - done.
  - rewrite (list_to_map_perm _ _ Hnd Hperm), fmap_cons. unfold pair_of at 1. rewrite list_to_map_cons. cbn [e_key e_value]. by rewrite HM.
Qed.

Lemma table_drop c X K old K' Y key M :
  0 < c -> table c (X ++ (K ++ mkEnt key old :: K') :: Y) M -> table c (X ++ (K ++ K') :: Y) (delete key M).
Proof.
  intros Hc [Hl Hp Hn HM].
  assert (concat (X ++ (K ++ mkEnt key old :: K') :: Y) ≡ₚ mkEnt key old :: concat (X ++ (K ++ K') :: Y)) as Hperm.
  { rewrite !concat_mid. rewrite <- (Permutation_middle K K' (mkEnt key old)). done. }
  pose proof Hn as Hn2. rewrite Hperm in Hn2. cbn [fmap list_fmap e_key] in Hn2. apply NoDup_cons in Hn2 as [Hk Hn2]. split.
  - rewrite <- Hl, !zlen_app, !zlen_cons. done.
  - eapply placed_mid; [exact Hp|]. intros e He. eapply (Hp (zlen X)); [rewrite zget_app_r, Z.sub_diag by lia; done|].
    rewrite elem_of_app, elem_of_cons. apply elem_of_app in He as [He|He]; auto.
  - done.
  - rewrite HM, (list_to_map_perm _ _ Hn Hperm), fmap_cons. unfold pair_of at 1. rewrite list_to_map_cons. cbn [e_key e_value].
    rewrite delete_insert_id; [done|]. apply not_elem_of_list_to_map. by rewrite keys_of.
Qed.

Lemma table_chain c bs M key : table c bs M -> 0 < c ->
  exists X chain Y, bs = X ++ chain :: Y /\ zget bs (hash_ptr key mod c) = Some chain /\ hash_ptr key mod c = zlen X /\
    forall chain', zset bs (hash_ptr key mod c) chain' = Some (X ++ chain' :: Y).
Proof.
  intros H Hc. destruct (bucket_some key c Hc) as [_ Hb]. destruct (zget_ok bs (hash_ptr key mod c)) as [chain Hch]; [rewrite (tb_len _ _ _ H); lia|].
  destruct (concat_split _ _ _ Hch) as (X & Y & HX). exists X, chain, Y. tauto.
Qed.

Lemma map_set_spec b m M key value :
  map_ok m M -> 2 * m_capacity m < two63 -> Z.of_nat (size M) < two63 ->
  exists m', map_set true b m key value = Some m' /\ map_ok m' (<[key := value]> M) /\
    m_capacity m' <= Z.max (m_capacity m) (3 * (Z.of_nat (size M) + 1)).
Proof.
  intros [Hl Hc Ht Hs Hsm] Hc2 Hs2. unfold map_set. rewrite Hl. cbn [spin_lock mbind option_bind].
  assert (exists m1, (if load_exceeded (m_size (map_with_lock m true)) (m_capacity (map_with_lock m true)) then map_resize b (map_with_lock m true) else Some (map_with_lock m true)) = Some m1 /\
    0 < m_capacity m1 < two63 /\ m_size m1 = m_size m /\ table (m_capacity m1) (m_buckets m1) M /\
    m_capacity m1 <= Z.max (m_capacity m) (3 * (Z.of_nat (size M) + 1))) as (m1 & -> & Hc1 & Hs1 & Ht1 & Hcb).
  { case_if; [|exists (map_with_lock m true); split_and!; try done; cbn [map_with_lock m_capacity]; lia].
    unfold load_exceeded in E. cbn [map_with_lock m_size m_capacity] in E. rewrite Hs, u64_id in E by lia.
    destruct (map_resize_spec b (map_with_lock m true) M) as (m1 & -> & _ & Hs1 & Hcap & Ht1); [done|done|].
    exists m1. split_and!; try done; rewrite Hcap; destruct b; cbn [map_with_lock m_capacity]; lia. }
  cbn [mbind option_bind]. destruct (bucket_some key (m_capacity m1)) as [-> _]; [lia|]. cbn [mbind option_bind].
  destruct (table_chain _ _ _ key Ht1) as (X & chain & Y & Ebs & Hch & Hx & Hset); [lia|].
  destruct (table_lookup _ _ _ key chain Ht1 ltac:(lia) Hch) as [_ Hnone]. rewrite Hch. cbn [mbind option_bind].
  pose proof (chain_set_spec chain key value) as Hcs. destruct (chain_set chain key value) as [chain'|].
  - destruct Hcs as (K & old & K' & -> & ->). rewrite Hset. cbn [mbind option_bind]. eexists. split; [done|]. rewrite Ebs in Ht1. split; [|exact Hcb].
    assert (size (<[key:=value]> M) = size M) as Hsz.
    { apply map_size_insert_Some. apply not_eq_None_Some. intros Hno. apply Hnone in Hno. apply Hno. rewrite fmap_app. apply elem_of_app. right. by apply elem_of_cons; left. }
    split; cbn [map_with_lock map_with_buckets m_lock m_capacity m_size m_buckets]; rewrite ?Hsz; try done; [eapply table_replace; [lia|done]|congruence].
  - cbn [negb]. rewrite Hset. cbn [mbind option_bind]. eexists. split; [done|]. rewrite Ebs in Ht1. apply Hnone in Hcs. split; [|exact Hcb].
    assert (size (<[key:=value]> M) = S (size M)) as Hsz by (by apply map_size_insert_None).
    split; cbn [m_lock m_capacity m_size m_buckets]; rewrite ?Hsz; try done; [apply table_push; try done; lia|rewrite u64_id; lia|lia].
Qed.

Lemma map_remove_spec m M key : map_ok m M -> exists m', map_remove m key = Some m' /\ map_ok m' (delete key M).
Proof.
  intros [Hl Hc Ht Hs Hsm]. unfold map_remove. rewrite Hl. cbn [spin_lock mbind option_bind map_with_lock m_capacity m_buckets m_size m_lock].
  destruct (bucket_some key (m_capacity m)) as [-> _]; [lia|]. cbn [mbind option_bind].
  destruct (table_chain _ _ _ key Ht) as (X & chain & Y & Ebs & Hch & Hx & Hset); [lia|].
  destruct (table_lookup _ _ _ key chain Ht ltac:(lia) Hch) as [_ Hnone]. rewrite Hch. cbn [mbind option_bind].
  pose proof (chain_remove_spec chain key) as Hcs. destruct (chain_remove chain key) as [chain'|].
  - destruct Hcs as (K & old & K' & -> & ->). rewrite Hset. cbn [mbind option_bind]. eexists. split; [done|]. rewrite Ebs in Ht.
    assert (is_Some (M !! key)) as HS.
    { apply not_eq_None_Some. intros Hno. apply Hnone in Hno. apply Hno. rewrite fmap_app. apply elem_of_app. right. by apply elem_of_cons; left. }
    assert (size (delete key M) = pred (size M)) as Hsz by (by apply map_size_delete_Some). assert (0 < size M)%nat by (destruct HS as [v Hv]; apply Nat.neq_0_lt_0, map_size_non_empty_iff; intros ->; by rewrite lookup_empty in Hv).
    split; cbn [m_lock m_capacity m_size m_buckets]; rewrite ?Hsz; try done; [eapply table_drop; [lia|done]| |lia].
    rewrite Hs. destruct (Z.gtb_spec (Z.of_nat (size M)) 0); [rewrite u64_id; lia|lia].
  - eexists. split; [done|]. apply Hnone in Hcs. rewrite delete_id by done. by split.
Qed.

Lemma map_get_spec m M key : map_ok m M -> map_get m key = Some (m, default 0 (M !! key)).
Proof.
  intros [Hl Hc Ht Hs Hsm]. unfold map_get. destruct (bucket_some key (m_capacity m)) as [-> _]; [lia|]. cbn [mbind option_bind].
  rewrite Hl. cbn [spin_lock mbind option_bind map_with_lock m_buckets m_capacity m_size m_lock spin_unlock].
  destruct (table_chain _ _ _ key Ht) as (X & chain & Y & Ebs & Hch & _); [lia|]. rewrite Hch. cbn [mbind option_bind].
  destruct (table_lookup _ _ _ key chain Ht ltac:(lia) Hch) as [-> _]. destruct m; cbn in *; subst. by destruct (chain_get chain key).
Qed.

Lemma map_create_spec c : 0 < c < two63 -> exists m, map_create true true c = Some m /\ map_ok m ∅.
Proof.
  intros Hc. eexists. split; [done|]. split; cbn [m_lock m_capacity m_size m_buckets]; try done. split; try done.
  - rewrite zlen_replicate. lia.
  - intros i ch e Hi He. apply zget_elem in Hi. apply elem_of_replicate in Hi as [-> _]. by apply not_elem_of_nil in He.
  - rewrite concat_replicate_nil. constructor.
  - by rewrite concat_replicate_nil.
Qed.

Lemma map_destroy_spec m M : map_ok m M -> map_destroy m = Some (Z.of_nat (size M)).
Proof.
  intros [Hl Hc Ht Hs Hsm]. unfold map_destroy. rewrite Hl. cbn [spin_lock mbind option_bind]. pose proof (tb_len _ _ _ Ht) as Hlen.
  destruct (for_range_inv (fun i n => n = zlen (concat (take (Z.to_nat i) (m_buckets m)))) 0 (m_capacity m)
    (fun i n => chain ← zget (m_buckets m) i; Some (n + zlen chain)) 0) as (n & -> & ->); [lia|done| |].
  - intros i n Hi ->. destruct (zget_ok (m_buckets m) i) as [chain Hch]; [lia|]. rewrite Hch. cbn [mbind option_bind]. eexists. split; [done|].
    replace (Z.to_nat (i + 1)) with (S (Z.to_nat i)) by lia.
    assert (m_buckets m !! Z.to_nat i = Some chain) as Hch' by (unfold zget in Hch; case_if_in Hch; [done|exact Hch]).
    rewrite (take_S_r _ _ _ Hch'), concat_app. cbn [concat]. by rewrite app_nil_r, zlen_app.
  - rewrite firstn_all2 by (unfold zlen in Hlen; lia). by rewrite (table_size _ _ _ Ht).
Qed.

(** The operations on a map, and their effect on a finite map. *)
Inductive map_op := OpSet (key value : Z) | OpRemove (key : Z).

Definition run_op (m : hmap) (o : map_op * bool) : option hmap :=
  match o with
  | (OpSet k v, calloc_ok) => map_set true calloc_ok m k v
  | (OpRemove k, _) => map_remove m k
  end.

Definition apply_op (M : gmap Z Z) (o : map_op * bool) : gmap Z Z :=
  match o with (OpSet k v, _) => <[k := v]> M | (OpRemove k, _) => delete k M end.

Fixpoint run_ops (m : hmap) (os : list (map_op * bool)) : option hmap :=
  match os with [] => Some m | o :: os => m ← run_op m o; run_ops m os end.

Lemma apply_op_size M o : (size (apply_op M o) <= S (size M))%nat.
Proof.
  destruct o as [[k v|k] b]; cbn [apply_op].
  - destruct (M !! k) eqn:E; [rewrite map_size_insert_Some by eauto; lia|by rewrite map_size_insert_None].
  - destruct (M !! k) eqn:E; [rewrite map_size_delete_Some by eauto; lia|rewrite delete_id by done; lia].
Qed.

Lemma run_ops_spec os : forall m M,
  map_ok m M -> m_capacity m <= 2 ^ 61 -> 3 * (Z.of_nat (size M) + zlen os + 1) <= 2 ^ 61 ->
  exists m', run_ops m os = Some m' /\ map_ok m' (foldl apply_op M os).
Proof.
  induction os as [|o os IH]; intros m M H Hc Hn; cbn [run_ops foldl]; [by exists m|]. rewrite zlen_cons in Hn. pose proof (zlen_nonneg os).
  pose proof (apply_op_size M o) as Hsz.
  assert (exists m1, run_op m o = Some m1 /\ map_ok m1 (apply_op M o) /\ m_capacity m1 <= 2 ^ 61) as (m1 & -> & H1 & Hc1).
  { destruct o as [[k v|k] b]; cbn [run_op apply_op].
    - destruct (map_set_spec b m M k v H) as (m1 & -> & H1 & Hc1); [lia|lia|]. exists m1. split_and!; try done. lia.
    - destruct (map_remove_spec m M k H) as (m1 & E & H1). exists m1. split_and!; try done. unfold map_remove in E.
      destruct H as [Hl ? ? ? ?]. rewrite Hl in E. cbn [spin_lock mbind option_bind] in E. bind_inv E. bind_inv E.
      destruct (chain_remove _ _); [bind_inv E|]; injection E as <-; done. }
  cbn [mbind option_bind]. apply IH; [done|done|lia].
Qed.

(** C37: the hash map refines a finite map: after [map_create] and any sequence
    of [map_set] and [map_remove], with the table growing or failing to grow
    at any point, [map_get] returns for every key the value last set and not
    removed, NULL when there is none, and [map_destroy] frees one entry for
    each key. *)
Theorem map_refines c os :
  0 < c <= 2 ^ 61 -> zlen os < 2 ^ 59 ->
  exists m0 m, map_create true true c = Some m0 /\ run_ops m0 os = Some m /\
    (forall key, map_get m key = Some (m, default 0 (foldl apply_op ∅ os !! key))) /\
    map_destroy m = Some (Z.of_nat (size (foldl apply_op ∅ os))).
Proof.
  intros Hc Hn. destruct (map_create_spec c) as (m0 & E0 & H0); [lia|]. exists m0.
  assert (m_capacity m0 = c) as Hc0 by (unfold map_create in E0; cbn in E0; by injection E0 as <-).
  destruct (run_ops_spec os m0 ∅ H0) as (m & E & H); [lia|rewrite map_size_empty; lia|]. exists m.
  split_and!; [done|done|intros key; by apply map_get_spec|by apply map_destroy_spec].
Qed.

Definition ex_ops : list (map_op * bool) :=
  [(OpSet 16 1, true); (OpSet 32 2, true); (OpSet 16 3, false); (OpSet 48 4, true); (OpRemove 32, true)].

Lemma map_refines_witness :
  exists m0 m, map_create true true 2 = Some m0 /\ run_ops m0 ex_ops = Some m /\
    map_get m 16 = Some (m, 3) /\ map_get m 32 = Some (m, 0) /\ map_destroy m = Some 2.
Proof.
  destruct (map_refines 2 ex_ops ltac:(done) ltac:(done)) as (m0 & m & E0 & E & Hg & Hd).
  exists m0, m. exact (conj E0 (conj E (conj (Hg 16) (conj (Hg 32) Hd)))).
Defined.
