(* ===== verification/Cow.v ===== *)
(** * Copy-on-write array list ([src/src/util/cow_arraylist.c])

    Elements in blocks of 64. A block is never changed while it is in the
    list: an operation puts a copy in its place and drops its reference to
    the old one. The blocks live in a heap with their reference counts. *)

From stdpp Require Import gmap.
From S2P Require Import Prelude.

Definition BLOCK_SIZE : Z := 64.

Record cow_block := mkBlk { elements : list Z; ref_count : Z }.

Record cow_arraylist := mkCow {
  blocks : list Z;
  block_count : Z;
  blocks_capacity : Z;
  cow_size : Z;
  cow_lock : spin_t;
}.

(** A list and the blocks that are allocated, by address. *)
Record cow_sys := mkCs { cs_list : cow_arraylist; cs_heap : gmap Z cow_block }.

Definition cow_relock (s : cow_sys) (l : spin_t) : cow_sys :=
  let c := cs_list s in mkCs (mkCow (blocks c) (block_count c) (blocks_capacity c) (cow_size c) l) (cs_heap s).
Definition cow_unlock (s : cow_sys) : cow_sys := cow_relock s (spin_unlock (cow_lock (cs_list s))).
Definition with_blocks (s : cow_sys) (bs : list Z) (n : Z) : cow_sys :=
  let c := cs_list s in mkCs (mkCow bs n (blocks_capacity c) (cow_size c) (cow_lock c)) (cs_heap s).
Definition with_size (s : cow_sys) (n : Z) : cow_sys :=
  let c := cs_list s in mkCs (mkCow (blocks c) (block_count c) (blocks_capacity c) n (cow_lock c)) (cs_heap s).
Definition with_heap (s : cow_sys) (h : gmap Z cow_block) : cow_sys := mkCs (cs_list s) h.

(** ** The code *)

Definition calculate_block_count (total_size : Z) : Z :=
  if total_size =? 0 then 0 else u64 (total_size + BLOCK_SIZE - 1) / BLOCK_SIZE.

Definition block_retain (h : gmap Z cow_block) (p : Z) : option (gmap Z cow_block) :=
  if p =? 0 then Some h
  else b ← h !! p; Some (<[p := mkBlk (elements b) (u64 (ref_count b + 1))]> h).

Definition block_release (h : gmap Z cow_block) (p : Z) : option (gmap Z cow_block) :=
  if p =? 0 then Some h
  else
    b ← h !! p;
    let new_count := u64 (ref_count b - 1) in
    if new_count =? 0 then Some (delete p h) else Some (<[p := mkBlk (elements b) new_count]> h).

(** NULL is [None]. *)
Definition cow_list_create (malloc_ok calloc_ok : bool) : option cow_arraylist :=
  if negb malloc_ok then None
  else if negb calloc_ok then None
  else Some (mkCow (replicate 4 0) 0 4 0 SPIN_INIT).

Section Cow.
(* the address a block allocation returns, 0 for NULL *)
Context (malloc : gmap Z cow_block -> Z).
(* the enlarged array of [realloc], which holds the old one and then whatever
   was in memory; [None] for NULL *)
Context (realloc : list Z -> Z -> option (list Z)).

Definition cow_list_destroy (s : cow_sys) : option (gmap Z cow_block) :=
  for_range 0 (block_count (cs_list s)) (fun i h => p ← zget (blocks (cs_list s)) i; block_release h p) (cs_heap s).

Definition cow_list_size (s : cow_sys) : Z := cow_size (cs_list s).

(** The list and the element, 0 for NULL. *)
Definition cow_list_get (s : cow_sys) (index : Z) : option (cow_sys * Z) :=
  if index >=? cow_size (cs_list s) then Some (s, 0)
  else
    l ← spin_lock (cow_lock (cs_list s));
    let s := cow_relock s l in
    block ← zget (blocks (cs_list s)) (index / BLOCK_SIZE);
    element ← (if negb (block =? 0) then b ← cs_heap s !! block; zget (elements b) (index mod BLOCK_SIZE) else Some 0);
    Some (cow_unlock s, element).

(** The step every change makes: allocate a block, copy block [bi] into it,
    edit the copy, put it in the array and release the old one; [false] when
    there is no memory. *)
Definition copy_block (s : cow_sys) (bi : Z) (edit : list Z -> option (list Z)) : option (cow_sys * bool) :=
  old_block ← zget (blocks (cs_list s)) bi;
  let new_block := malloc (cs_heap s) in
  if new_block =? 0 then Some (s, false)
  else
    b ← cs_heap s !! old_block;
    es ← edit (elements b);
    bs ← zset (blocks (cs_list s)) bi new_block;
    h ← block_release (<[new_block := mkBlk es 1]> (cs_heap s)) old_block;
    Some (with_heap (with_blocks s bs (block_count (cs_list s))) h, true).

Definition cow_list_set (s : cow_sys) (index element : Z) : option (cow_sys * Z) :=
  if index >=? cow_size (cs_list s) then Some (s, -1)
  else
    l ← spin_lock (cow_lock (cs_list s));
    '(s, ok) ← copy_block (cow_relock s l) (index / BLOCK_SIZE) (fun es => zset es (index mod BLOCK_SIZE) element);
    Some (cow_unlock s, if ok : bool then 0 else -1).

Definition cow_list_clear (s : cow_sys) (index : Z) : option (cow_sys * Z) :=
  if index >=? cow_size (cs_list s) then Some (s, 0)
  else
    l ← spin_lock (cow_lock (cs_list s));
    let s := cow_relock s l in
    old_block ← zget (blocks (cs_list s)) (index / BLOCK_SIZE);
    if old_block =? 0 then Some (cow_unlock s, 0)
    else
      b ← cs_heap s !! old_block;
      old_element ← zget (elements b) (index mod BLOCK_SIZE);
      if old_element =? 0 then Some (cow_unlock s, 0)
      else
        '(s, _) ← copy_block s (index / BLOCK_SIZE) (fun es => zset es (index mod BLOCK_SIZE) 0);
        Some (cow_unlock s, old_element).

(** [list->blocks[bi]->elements[ei] = element] for [index = 64 * bi + ei], and
    the read of that place. *)
Definition write_at (s : cow_sys) (bi ei element : Z) : option cow_sys :=
  p ← zget (blocks (cs_list s)) bi;
  b ← cs_heap s !! p;
  es ← zset (elements b) ei element;
  Some (with_heap s (<[p := mkBlk es (ref_count b)]> (cs_heap s))).

Definition read_at (s : cow_sys) (bi ei : Z) : option Z :=
  p ← zget (blocks (cs_list s)) bi; b ← cs_heap s !! p; zget (elements b) ei.

(** The enlargement of the array in [cow_list_add]; [false]: no memory. *)
Definition add_grow (s : cow_sys) (new_block_count : Z) : option (cow_sys * bool) :=
  let c := cs_list s in
  if new_block_count >? blocks_capacity c then
    let new_capacity := u64 (blocks_capacity c * 2) in
    match realloc (blocks c) new_capacity with
    | None => Some (s, false)
    | Some bs => Some (mkCs (mkCow bs (block_count c) new_capacity (cow_size c) (cow_lock c)) (cs_heap s), true)
    end
  else Some (s, true).

(** The block the new element goes to: a fresh one, or a copy. *)
Definition add_block (s : cow_sys) (new_block_count : Z) : option (cow_sys * bool) :=
  let c := cs_list s in
  _ ← zget (blocks c) (new_block_count - 1);
  if new_block_count >? block_count c then
    let target := malloc (cs_heap s) in
    if target =? 0 then Some (s, false)
    else
      bs ← zset (blocks c) (block_count c) target;
      Some (with_heap (with_blocks s bs new_block_count) (<[target := mkBlk (replicate 64 0) 1]> (cs_heap s)), true)
  else copy_block s (new_block_count - 1) Some.

(** The index of the new element; 0 also when there is no memory. *)
Definition cow_list_add (s : cow_sys) (element : Z) : option (cow_sys * Z) :=
  l ← spin_lock (cow_lock (cs_list s));
  let s := cow_relock s l in
  let old_size := cow_size (cs_list s) in
  let new_size := u64 (old_size + 1) in
  let new_block_count := calculate_block_count new_size in
  '(s, ok) ← add_grow s new_block_count;
  if negb ok then Some (cow_unlock s, 0)
  else
    '(s, ok) ← add_block s new_block_count;
    if negb ok then Some (cow_unlock s, 0)
    else
      s ← write_at s (new_block_count - 1) (old_size mod BLOCK_SIZE) element;
      Some (cow_unlock (with_size s new_size), u64 (new_size - 1)).

(** The loop of [cow_list_remove]: moves each later element down by one; the
    target block is copied when it is first reached. *)
Fixpoint remove_shift (fuel : nat) (s : cow_sys) (index old_size i : Z) : option (cow_sys * bool) :=
  match fuel with
  | O => None
  | S fuel =>
      if i <? u64 (old_size - 1) then
        '(s, ok) ←
          (if (i =? index) || (i mod BLOCK_SIZE =? 0) then copy_block s (i / BLOCK_SIZE) Some else Some (s, true));
        if negb ok then Some (s, false)
        else
          x ← read_at s ((i + 1) / BLOCK_SIZE) ((i + 1) mod BLOCK_SIZE);
          s ← write_at s (i / BLOCK_SIZE) (i mod BLOCK_SIZE) x;
          remove_shift fuel s index old_size (i + 1)
      else Some (s, true)
  end.

(** The last block: dropped when it is empty now, otherwise its last element
    is cleared, in a copy, when there is memory for it. *)
Definition remove_last (s : cow_sys) (old_size final_block_count : Z) : option cow_sys :=
  let c := cs_list s in
  let last := u64 (old_size - 1) in
  if final_block_count <? block_count c then
    last_block ← zget (blocks c) (u64 (block_count c - 1));
    bs ← zset (blocks c) (u64 (block_count c - 1)) 0;
    h ← block_release (cs_heap s) last_block;
    Some (with_heap (with_blocks s bs (u64 (block_count c - 1))) h)
  else
    '(s, _) ← copy_block s (last / BLOCK_SIZE) (fun es => zset es (last mod BLOCK_SIZE) 0);
    Some s.

Definition cow_list_remove (s : cow_sys) (index : Z) : option (cow_sys * Z) :=
  if (index >=? cow_size (cs_list s)) || (cow_size (cs_list s) =? 0) then Some (s, 0)
  else
    l ← spin_lock (cow_lock (cs_list s));
    let s := cow_relock s l in
    let old_size := cow_size (cs_list s) in
    let final_block_count := calculate_block_count (u64 (old_size - 1)) in
    removed ← read_at s (index / BLOCK_SIZE) (index mod BLOCK_SIZE);
    '(s, ok) ← remove_shift (S (Z.to_nat old_size)) s index old_size index;
    if negb ok then Some (cow_unlock s, removed)
    else
      s ← remove_last s old_size final_block_count;
      Some (cow_unlock (with_size s (u64 (old_size - 1))), removed).

End Cow.
