(* ===== verification/CowSpec.v ===== *)
(** * The array list as a list

    Well-formedness of the blocks, and the operations of [Cow] against the
    list of the elements. *)

From stdpp Require Import gmap.
From S2P Require Import Prelude Cow.

Implicit Types (s : cow_sys) (L : list Z).

Abbreviation bcount s := (block_count (cs_list s)).

(** Block [i] of the list. *)
Definition block_at s (i p : Z) (b : cow_block) : Prop :=
  zget (blocks (cs_list s)) i = Some p /\ p <> 0 /\ cs_heap s !! p = Some b /\ zlen (elements b) = 64 /\ 1 <= ref_count b < two64.

Record cow_wf s : Prop := {
  cw_len : zlen (blocks (cs_list s)) = blocks_capacity (cs_list s);
  cw_cap : 4 <= blocks_capacity (cs_list s) < 2 ^ 60;
  cw_le : 0 <= bcount s <= blocks_capacity (cs_list s);
  cw_blk : forall i, 0 <= i < bcount s -> exists p b, block_at s i p b;
  cw_inj : forall i j p, 0 <= i < bcount s -> 0 <= j < bcount s ->
    zget (blocks (cs_list s)) i = Some p -> zget (blocks (cs_list s)) j = Some p -> i = j;
}.

(** The fields other than the blocks. *)
Definition same_shape s s' : Prop :=
  bcount s' = bcount s /\ blocks_capacity (cs_list s') = blocks_capacity (cs_list s) /\
  cow_size (cs_list s') = cow_size (cs_list s) /\ cow_lock (cs_list s') = cow_lock (cs_list s).

#[export] Instance same_shape_preorder : PreOrder same_shape.
Proof. split; [by intros s; split_and!|]. intros s1 s2 s3 (?&?&?&?) (?&?&?&?). split_and!; congruence. Qed.

Lemma read_block s i e p b : block_at s i p b -> read_at s i e = zget (elements b) e.
Proof. intros (Hp & _ & Hb & _). unfold read_at. rewrite Hp. cbn [mbind option_bind]. by rewrite Hb. Qed.

Lemma block_release_spec h p b :
  h !! p = Some b -> p <> 0 -> 1 <= ref_count b < two64 ->
  exists h', block_release h p = Some h' /\ (forall q, q <> p -> h' !! q = h !! q) /\ (ref_count b = 1 -> h' = delete p h).
Proof.
  intros Hb Hp Hr. unfold block_release. rewrite (proj2 (Z.eqb_neq _ _) Hp), Hb. cbn [mbind option_bind]. rewrite u64_id by lia.
  destruct (Z.eqb_spec (ref_count b - 1) 0).
  - eexists. split; [done|]. split; [|done]. intros q Hq. by apply lookup_delete_ne.
  - eexists. split; [done|]. split; [|lia]. intros q Hq. by apply lookup_insert_ne.
Qed.

(** ** Flat indices *)

Definition at_ s (k : Z) : option Z := read_at s (k / 64) (k mod 64).

Lemma flat_eq k j : k / 64 = j / 64 /\ k mod 64 = j mod 64 <-> k = j.
Proof. split; [|by intros ->]. intros [H1 H2]. rewrite (Z.div_mod k 64), (Z.div_mod j 64) by lia. lia. Qed.

Lemma flat_block k n : 0 <= k < 64 * n -> 0 <= k / 64 < n /\ 0 <= k mod 64 < 64.
Proof. intros H. split; [split; [apply Z.div_pos; lia|apply Z.div_lt_upper_bound; lia]|apply Z.mod_pos_bound; lia]. Qed.

Section Spec.
Context (malloc : gmap Z cow_block -> Z).

(** What the list needs of the allocator. *)
Class BlockAllocator : Prop := {
  alloc_fresh : forall h, malloc h <> 0 -> h !! malloc h = None;
  alloc_total : forall h, malloc h <> 0;
}.

Context {HA : BlockAllocator}.

(** Putting a copy with the elements [es] in the place of block [bi]. *)
Lemma copy_spec s bi edit :
  cow_wf s -> 0 <= bi < bcount s -> (forall p b, block_at s bi p b -> exists es, edit (elements b) = Some es /\ zlen es = 64) ->
  exists s' p b es, copy_block malloc s bi edit = Some (s', true) /\ cow_wf s' /\ same_shape s s' /\
    block_at s bi p b /\ edit (elements b) = Some es /\
    forall i e, 0 <= i < bcount s -> read_at s' i e = if i =? bi then zget es e else read_at s i e.
Proof.
  intros H Hbi Hed. destruct (cw_blk _ H bi Hbi) as (p & b & Hb). destruct (Hed p b Hb) as (es & Ees & Hlen). pose proof Hb as (Hp & Hp0 & Hbh & Hbl & Hbr).
  pose proof (alloc_total (cs_heap s)) as Hn0. pose proof (alloc_fresh _ Hn0) as Hfr. set (new := malloc (cs_heap s)) in *.
  pose proof (zget_range _ _ _ Hp) as Hrange.
  destruct (zset (blocks (cs_list s)) bi new) as [bs|] eqn:Ebs; [|rewrite zset_ok in Ebs by lia; done].
  assert (new <> p) as Hnp by congruence.
  destruct (block_release_spec (<[new := mkBlk es 1]> (cs_heap s)) p b) as (h & Eh & Hh & _); [by rewrite lookup_insert_ne|done|done|].
  set (s' := with_heap (with_blocks s bs (bcount s)) h).
  assert (forall i q c, 0 <= i < bcount s -> i <> bi -> block_at s i q c -> block_at s' i q c) as Hother.
  { intros i q c Hi Hne (Hq & Hq0 & Hqh & Hrest). split_and!; try tauto.
    - cbn. rewrite (zset_get _ _ _ _ _ Ebs). by rewrite decide_False.
    - cbn. assert (q <> p) as Hqp by (intros ->; apply Hne; by eapply cw_inj).
      rewrite Hh by done. rewrite lookup_insert_ne; [done|congruence]. }
  assert (block_at s' bi new (mkBlk es 1)) as Hnew.
  { split_and!; try done. - cbn. rewrite (zset_get _ _ _ _ _ Ebs). by rewrite decide_True. - cbn. rewrite Hh by done. by rewrite lookup_insert_eq. }
  exists s', p, b, es. split_and!; try done.
  - unfold copy_block. rewrite Hp. cbn [mbind option_bind]. fold new. rewrite (proj2 (Z.eqb_neq _ _) Hn0), Hbh. cbn [mbind option_bind].
    rewrite Ees. cbn [mbind option_bind]. rewrite Ebs. cbn [mbind option_bind]. by rewrite Eh.
  - split; try apply H.
    + cbn. rewrite (zset_len _ _ _ _ Ebs). apply H.
    + intros i Hi. destruct (decide (i = bi)) as [->|Hne]; [by eexists _, _|]. destruct (cw_blk _ H i Hi) as (q & c & Hc). exists q, c. by apply Hother.
    + cbn. intros i j q Hi Hj. rewrite !(zset_get _ _ _ _ _ Ebs). destruct (decide (bi = i)) as [<-|], (decide (bi = j)) as [<-|]; try done.
      * intros [= <-] Hj2. exfalso. destruct (cw_blk _ H j Hj) as (q & c & Hc & _ & Hc2 & _). congruence.
      * intros Hi2 [= <-]. exfalso. destruct (cw_blk _ H i Hi) as (q & c & Hc & _ & Hc2 & _). congruence.
      * intros. by eapply (cw_inj _ H).
  - intros i e Hi. destruct (Z.eqb_spec i bi) as [->|Hne]; [by rewrite (read_block _ _ _ _ _ Hnew)|].
    destruct (cw_blk _ H i Hi) as (q & c & Hc). by rewrite (read_block _ _ _ _ _ Hc), (read_block _ _ _ _ _ (Hother _ _ _ Hi Hne Hc)).
Qed.

Lemma copy_same s bi :
  cow_wf s -> 0 <= bi < bcount s ->
  exists s', copy_block malloc s bi Some = Some (s', true) /\ cow_wf s' /\ same_shape s s' /\
    forall k, 0 <= k < 64 * bcount s -> at_ s' k = at_ s k.
Proof.
  intros H Hbi. destruct (copy_spec s bi Some H Hbi) as (s' & p & b & es & E & H' & Hsh & Hb & [= <-] & Hr).
  { intros p b (_ & _ & _ & Hl & _). by eexists. }
  exists s'. split_and!; try done. intros k [Hk _]%flat_block. unfold at_. rewrite Hr by done.
  destruct (Z.eqb_spec (k / 64) bi) as [->|]; [|done]. by rewrite (read_block _ _ _ _ _ Hb).
Qed.

Lemma copy_set s j x :
  cow_wf s -> 0 <= j < 64 * bcount s ->
  exists s', copy_block malloc s (j / 64) (fun es => zset es (j mod 64) x) = Some (s', true) /\ cow_wf s' /\ same_shape s s' /\
    forall k, 0 <= k < 64 * bcount s -> at_ s' k = if k =? j then Some x else at_ s k.
Proof.
  intros H [Hj Hm]%flat_block. destruct (copy_spec s (j / 64) (fun es => zset es (j mod 64) x) H Hj) as (s' & p & b & es & E & H' & Hsh & Hb & Ees & Hr).
  { intros p b (_ & _ & _ & Hl & _). eexists. split; [by apply zset_ok; rewrite Hl|]. unfold zlen in *. by rewrite length_insert. }
  exists s'. split_and!; try done. intros k [Hk _]%flat_block. unfold at_. rewrite Hr by done. pose proof (flat_eq k j) as Hf.
  destruct (Z.eqb_spec (k / 64) (j / 64)) as [E1|E1].
  - rewrite (zset_get _ _ _ _ _ Ees). destruct (decide (j mod 64 = k mod 64)), (Z.eqb_spec k j); try done; try (exfalso; intuition lia).
    rewrite E1. by rewrite (read_block _ _ _ _ _ Hb).
  - destruct (Z.eqb_spec k j); [congruence|done].
Qed.

Lemma write_spec s j x :
  cow_wf s -> 0 <= j < 64 * bcount s ->
  exists s', write_at s (j / 64) (j mod 64) x = Some s' /\ cow_wf s' /\ same_shape s s' /\
    forall k, 0 <= k < 64 * bcount s -> at_ s' k = if k =? j then Some x else at_ s k.
Proof.
  intros H [Hj Hm]%flat_block. destruct (cw_blk _ H _ Hj) as (p & b & Hb). pose proof Hb as (Hp & Hp0 & Hbh & Hbl & Hbr).
  destruct (zset (elements b) (j mod 64) x) as [es|] eqn:Ees; [|rewrite zset_ok in Ees by lia; done].
  set (s' := with_heap s (<[p := mkBlk es (ref_count b)]> (cs_heap s))).
  assert (forall i q c, 0 <= i < bcount s -> i <> j / 64 -> block_at s i q c -> block_at s' i q c) as Hother.
  { intros i q c Hi Hne (Hq & Hq0 & Hqh & Hrest). split_and!; try tauto. cbn. rewrite lookup_insert_ne; [done|].
    intros <-. apply Hne. by eapply cw_inj. }
  assert (block_at s' (j / 64) p (mkBlk es (ref_count b))) as Hnew.
  { split_and!; cbn; try tauto; [by rewrite lookup_insert_eq|by rewrite (zset_len _ _ _ _ Ees)]. }
  exists s'. split_and!; try done.
  - unfold write_at. rewrite Hp. cbn [mbind option_bind]. rewrite Hbh. cbn [mbind option_bind]. by rewrite Ees.
  - split; try apply H. intros i Hi. destruct (decide (i = j / 64)) as [->|Hne]; [by eexists _, _|].
    destruct (cw_blk _ H i Hi) as (q & c & Hc). exists q, c. by apply Hother.
  - intros k [Hk _]%flat_block. unfold at_. pose proof (flat_eq k j) as Hf. destruct (decide (k / 64 = j / 64)) as [E1|E1].
    + rewrite E1, (read_block _ _ _ _ _ Hnew), (read_block _ _ _ _ _ Hb). cbn [elements]. rewrite (zset_get _ _ _ _ _ Ees).
      destruct (decide (j mod 64 = k mod 64)), (Z.eqb_spec k j); try done; exfalso; intuition lia.
    + destruct (cw_blk _ H _ Hk) as (q & c & Hc). rewrite (read_block _ _ _ _ _ Hc), (read_block _ _ _ _ _ (Hother _ _ _ Hk E1 Hc)).
      destruct (Z.eqb_spec k j); [congruence|done].
Qed.

(** ** Representation *)

Record cow_rep s L : Prop := {
  cr_wf : cow_wf s;
  cr_lock : cow_lock (cs_list s) = false;
  cr_size : cow_size (cs_list s) = zlen L;
  cr_count : bcount s = (zlen L + 63) / 64;
  cr_small : zlen L < 2 ^ 62;
  cr_at : forall k, 0 <= k < zlen L -> at_ s k = zget L k;
}.

Lemma count_bounds n : 0 <= n -> n <= 64 * ((n + 63) / 64) < n + 64.
Proof. intros Hn. pose proof (Z.div_mod (n + 63) 64 ltac:(lia)). pose proof (Z.mod_pos_bound (n + 63) 64 ltac:(lia)). lia. Qed.

Lemma calculate_count n : 0 <= n < 2 ^ 62 -> calculate_block_count n = (n + 63) / 64.
Proof.
  intros Hn. unfold calculate_block_count, BLOCK_SIZE. destruct (Z.eqb_spec n 0) as [->|]; [done|]. rewrite u64_id by lia. f_equal. lia.
Qed.

Lemma relock_wf s l : cow_wf s -> cow_wf (cow_relock s l).
Proof. intros H. split; apply H. Qed.

Lemma get_spec s L i :
  cow_rep s L -> 0 <= i -> cow_list_get s i = Some (s, default 0 (zget L i)).
Proof.
  intros [H Hl Hs Hc Hsm Ha] Hi. unfold cow_list_get. rewrite Hs, Z.geb_leb. destruct (Z.leb_spec (zlen L) i) as [Hge|Hlt].
  { rewrite (zget_none L) by lia. done. }
  pose proof (count_bounds (zlen L) ltac:(lia)). destruct (flat_block i (bcount s)) as [Hb _]; [lia|].
  destruct (cw_blk _ H _ Hb) as (p & b & Hblk). pose proof Hblk as (Hp & Hp0 & Hbh & _). rewrite Hl.
  cbn [spin_lock mbind option_bind cow_relock cs_list blocks cs_heap]. unfold BLOCK_SIZE. rewrite Hp. cbn [mbind option_bind].
  rewrite (proj2 (Z.eqb_neq _ _) Hp0). cbn [negb]. rewrite Hbh. cbn [mbind option_bind].
  specialize (Ha i ltac:(lia)). unfold at_ in Ha. rewrite (read_block _ _ _ _ _ Hblk) in Ha. rewrite Ha.
  destruct (zget_ok L i ltac:(lia)) as [x ->]. cbn [mbind option_bind default]. f_equal. f_equal.
  destruct s as [[? ? ? ? ?] ?]; cbn in *. by subst.
Qed.

Lemma unlock_rep s L l : cow_rep (cow_relock s l) L -> cow_rep (cow_unlock s) L.
Proof. intros [H Hl Hs Hc Hsm Ha]. split; try done. by apply (relock_wf (cow_relock s l) false) in H. Qed.

(** A change of the elements that keeps the shape. *)
Lemma rep_change s s' L L' l :
  cow_rep s L -> cow_wf s' -> same_shape (cow_relock s l) s' -> zlen L' = zlen L ->
  (forall k, 0 <= k < zlen L -> at_ s' k = zget L' k) -> cow_rep (cow_unlock s') L'.
Proof.
  intros [H Hl Hs Hc Hsm Ha] H' (S1 & S2 & S3 & S4) HL Hat. cbn in S1, S3. split; cbn; rewrite ?HL; try done; [by apply (relock_wf s' false)|congruence|congruence].
Qed.

Lemma set_spec s L i x :
  cow_rep s L -> 0 <= i ->
  exists s', cow_list_set malloc s i x = Some (s', if i <? zlen L then 0 else -1) /\
    cow_rep s' (<[Z.to_nat i := x]> L).
Proof.
  intros HR Hi. pose proof HR as [H Hl Hs Hc Hsm Ha]. unfold cow_list_set. rewrite Hs, Z.geb_leb. destruct (Z.leb_spec (zlen L) i) as [Hge|Hlt].
  { exists s. destruct (Z.ltb_spec i (zlen L)); [lia|]. split; [done|]. by rewrite list_insert_ge by (unfold zlen in Hge; lia). }
  destruct (Z.ltb_spec i (zlen L)); [|lia]. pose proof (count_bounds (zlen L) ltac:(lia)). rewrite Hl. cbn [spin_lock mbind option_bind].
  unfold BLOCK_SIZE. destruct (copy_set (cow_relock s true) i x (relock_wf _ _ H)) as (s' & -> & H' & Hsh & Hr); [cbn; lia|].
  cbn [mbind option_bind]. eexists. split; [done|]. eapply rep_change; [exact HR|done|exact Hsh|unfold zlen; by rewrite length_insert|].
  intros k Hk. rewrite Hr by (cbn; lia). change (at_ (cow_relock s true) k) with (at_ s k). rewrite Ha by done.
  unfold zget. destruct (Z.ltb_spec k 0); [lia|]. destruct (Z.eqb_spec k i) as [->|].
  - rewrite list_lookup_insert_eq; [done|unfold zlen in *; lia].
  - by rewrite list_lookup_insert_ne by lia.
Qed.
End Spec.
