(* ===== verification/CowProps.v ===== *)
(** * What the array list promises

    Adding and removing elements, the list's refinement of a plain list under
    any sequence of operations, and what happens without memory. *)

From stdpp Require Import gmap.
From S2P Require Import Prelude Fresh Cow CowSpec.

Implicit Types (s : cow_sys) (L : list Z).

Section Ops.
Context (malloc : gmap Z cow_block -> Z) (realloc : list Z -> Z -> option (list Z)).
Context {HA : BlockAllocator malloc}.

(** [realloc] to a larger size keeps the contents. *)
Class Reallocator : Prop :=
  realloc_keeps : forall bs n, zlen bs <= n -> exists bs', realloc bs n = Some bs' /\ zlen bs' = n /\ forall i, 0 <= i < zlen bs -> zget bs' i = zget bs i.

Context {HR : Reallocator}.

Lemma clear_spec s L i :
  cow_rep s L -> 0 <= i ->
  exists s', cow_list_clear malloc s i = Some (s', default 0 (zget L i)) /\ cow_rep s' (<[Z.to_nat i := 0]> L).
Proof.
  intros Hrep Hi. pose proof Hrep as [H Hl Hs Hc Hsm Ha]. unfold cow_list_clear. rewrite Hs, Z.geb_leb. destruct (Z.leb_spec (zlen L) i) as [Hge|Hlt].
  { exists s. rewrite (zget_none L) by lia. split; [done|]. by rewrite list_insert_ge by (unfold zlen in Hge; lia). }
  pose proof (count_bounds (zlen L) ltac:(lia)). destruct (flat_block i (bcount s)) as [Hb _]; [lia|].
  destruct (cw_blk _ H _ Hb) as (p & b & Hblk). pose proof Hblk as (Hp & Hp0 & Hbh & _). rewrite Hl.
  cbn [spin_lock mbind option_bind]. change (blocks (cs_list (cow_relock s true))) with (blocks (cs_list s)). unfold BLOCK_SIZE. rewrite Hp. cbn [mbind option_bind].
  rewrite (proj2 (Z.eqb_neq _ _) Hp0). change (cs_heap (cow_relock s true)) with (cs_heap s). rewrite Hbh. cbn [mbind option_bind].
  pose proof (Ha i ltac:(lia)) as Hai. unfold at_ in Hai. rewrite (read_block _ _ _ _ _ Hblk) in Hai. rewrite Hai.
  destruct (zget_ok L i ltac:(lia)) as [x Hx]. rewrite Hx. cbn [mbind option_bind default]. change (default 0 (Some x)) with x.
  assert (L !! Z.to_nat i = Some x) as HxL by (unfold zget in Hx; destruct (Z.ltb_spec i 0); [lia|done]).
  destruct (Z.eqb_spec x 0) as [->|Hx0].
  { eexists. split; [done|]. rewrite list_insert_id by done. apply (unlock_rep _ _ false). split; try done. by do 2 apply relock_wf. }
  destruct (copy_set malloc (cow_relock s true) i 0 (relock_wf _ _ H)) as (s' & -> & H' & Hsh & Hr); [cbn; lia|].
  cbn [mbind option_bind]. eexists. split; [done|]. eapply rep_change; [exact Hrep|done|exact Hsh|unfold zlen; by rewrite length_insert|].
  intros k Hk. rewrite Hr by (cbn; lia). change (at_ (cow_relock s true) k) with (at_ s k). rewrite Ha by done.
  unfold zget. destruct (Z.ltb_spec k 0); [lia|]. destruct (Z.eqb_spec k i) as [->|].
  - rewrite list_lookup_insert_eq; [done|unfold zlen in *; lia].
  - by rewrite list_lookup_insert_ne by lia.
Qed.

(** ** Adding *)

Lemma grow_spec s n :
  cow_wf s -> 0 < n <= bcount s + 1 -> blocks_capacity (cs_list s) < 2 ^ 59 ->
  exists s', add_grow realloc s n = Some (s', true) /\ cow_wf s' /\ bcount s' = bcount s /\ n <= blocks_capacity (cs_list s') /\
    cow_size (cs_list s') = cow_size (cs_list s) /\ (forall k, 0 <= k < 64 * bcount s -> at_ s' k = at_ s k).
Proof.
  intros H Hn Hcap. unfold add_grow. rewrite Z.gtb_ltb. destruct (Z.ltb_spec (blocks_capacity (cs_list s)) n) as [Hlt|Hge].
  2:{ exists s. by split_and!. }
  pose proof (cw_cap _ H). pose proof (cw_le _ H). rewrite u64_id by lia.
  destruct (realloc_keeps (blocks (cs_list s)) (blocks_capacity (cs_list s) * 2)) as (bs & -> & Hlen & Hk); [rewrite (cw_len _ H); lia|].
  eexists. split; [done|]. rewrite (cw_len _ H) in Hk.
  assert (forall i, 0 <= i < bcount s -> zget bs i = zget (blocks (cs_list s)) i) as Hk2 by (intros; apply Hk; lia).
  split_and!; try done; [|cbn; lia|].
  - split; cbn; try lia.
    + intros i Hi. destruct (cw_blk _ H i Hi) as (p & b & Hb & Hrest). exists p, b. split; [|exact Hrest]. cbn. by rewrite Hk2.
    + intros i j p Hi Hj. rewrite !Hk2 by done. by apply (cw_inj _ H).
  - intros k [Hkb _]%flat_block. unfold at_, read_at. cbn. by rewrite Hk2.
Qed.

Lemma block_fresh s n :
  cow_wf s -> n = bcount s + 1 -> n <= blocks_capacity (cs_list s) ->
  exists s', add_block malloc s n = Some (s', true) /\ cow_wf s' /\ bcount s' = n /\
    (forall k, 0 <= k < 64 * bcount s -> at_ s' k = at_ s k).
Proof.
  intros H -> Hcap. pose proof (cw_le _ H). pose proof (cw_len _ H). unfold add_block. rewrite Z.add_simpl_r.
  destruct (zget_ok (blocks (cs_list s)) (bcount s)) as [g Hg]; [lia|]. rewrite Hg. cbn [mbind option_bind].
  rewrite Z.gtb_ltb. destruct (Z.ltb_spec (bcount s) (bcount s + 1)); [|lia].
  pose proof (alloc_total malloc (cs_heap s)) as Hn0. pose proof (alloc_fresh malloc _ Hn0) as Hfr. rewrite (proj2 (Z.eqb_neq _ _) Hn0).
  set (new := malloc (cs_heap s)) in *. destruct (zset (blocks (cs_list s)) (bcount s) new) as [bs|] eqn:Ebs; [|rewrite zset_ok in Ebs by lia; done].
  cbn [mbind option_bind]. eexists. split; [done|]. set (s' := with_heap _ _).
  assert (forall i, 0 <= i < bcount s -> zget bs i = zget (blocks (cs_list s)) i) as Hk2.
  { intros i Hi. rewrite (zset_get _ _ _ _ _ Ebs). rewrite decide_False; [done|lia]. }
  assert (forall i p b, 0 <= i < bcount s -> block_at s i p b -> block_at s' i p b) as Hother.
  { intros i p b Hi (Hp & Hp0 & Hpb & Hrest). split_and!; try tauto; cbn; [by rewrite Hk2|]. rewrite lookup_insert_ne; [done|congruence]. }
  assert (zget bs (bcount s) = Some new) as Hlast by (rewrite (zset_get _ _ _ _ _ Ebs); by rewrite decide_True).
  split_and!; [|done|].
  - split; try apply H; cbn.
    + rewrite (zset_len _ _ _ _ Ebs). apply H.
    + lia.
    + intros i Hi. destruct (decide (i = bcount s)) as [->|Hne].
      * exists new, (mkBlk (replicate 64 0) 1). split_and!; try done. cbn. by rewrite lookup_insert_eq.
      * destruct (cw_blk _ H i ltac:(lia)) as (p & b & Hb). exists p, b. apply Hother; [lia|done].
    + assert (forall i, 0 <= i < bcount s -> zget bs i <> Some new) as Hne.
      { intros i Hi. rewrite Hk2 by done. destruct (cw_blk _ H i Hi) as (p & b & Hp & _ & Hb & _). congruence. }
      intros i j p Hi Hj E1 E2. destruct (decide (i = bcount s)) as [->|], (decide (j = bcount s)) as [->|]; try done.
      * exfalso. apply (Hne j); [lia|congruence].
      * exfalso. apply (Hne i); [lia|congruence].
      * rewrite Hk2 in E1, E2 by lia. eapply (cw_inj _ H); [lia|lia|done|done].
  - intros k [Hkb _]%flat_block. unfold at_. destruct (cw_blk _ H _ Hkb) as (p & b & Hb).
    by rewrite (read_block _ _ _ _ _ Hb), (read_block _ _ _ _ _ (Hother _ _ _ Hkb Hb)).
Qed.

Lemma add_block_spec s n :
  cow_wf s -> bcount s <= n <= bcount s + 1 -> 0 < n <= blocks_capacity (cs_list s) ->
  exists s', add_block malloc s n = Some (s', true) /\ cow_wf s' /\ bcount s' = n /\
    (forall k, 0 <= k < 64 * bcount s -> at_ s' k = at_ s k).
Proof.
  intros H Hn Hcap. destruct (decide (n = bcount s + 1)) as [->|Hne]; [apply block_fresh; try done; lia|].
  assert (n = bcount s) as -> by lia. unfold add_block. pose proof (cw_len _ H).
  destruct (zget_ok (blocks (cs_list s)) (bcount s - 1)) as [g ->]; [lia|]. cbn [mbind option_bind].
  rewrite Z.gtb_ltb, Z.ltb_irrefl. destruct (copy_same malloc s (bcount s - 1) H) as (s' & -> & H' & Hsh & Hr); [lia|].
  exists s'. split_and!; try done. apply Hsh.
Qed.

Lemma add_spec s L x :
  cow_rep s L -> blocks_capacity (cs_list s) < 2 ^ 59 -> zlen L < 2 ^ 62 - 1 ->
  exists s', cow_list_add malloc realloc s x = Some (s', zlen L) /\ cow_rep s' (L ++ [x]).
Proof.
  intros [H Hl Hs Hc Hsm Ha] Hcap Hroom. pose proof (zlen_nonneg L) as H0. unfold cow_list_add. rewrite Hl. cbn [spin_lock mbind option_bind].
  change (cow_size (cs_list (cow_relock s true))) with (cow_size (cs_list s)). rewrite Hs, u64_id by lia. rewrite calculate_count by lia.
  set (n := (zlen L + 1 + 63) / 64). assert (n = zlen L / 64 + 1) as En.
  { unfold n. replace (zlen L + 1 + 63) with (zlen L + 1 * 64) by lia. by rewrite Z.div_add by lia. }
  pose proof (Z.div_mod (zlen L) 64 ltac:(lia)) as Hd. pose proof (Z.mod_pos_bound (zlen L) 64 ltac:(lia)) as Hm.
  pose proof (count_bounds (zlen L) H0) as Hb. rewrite <- Hc in Hb. assert (0 <= zlen L / 64) as Hq by (apply Z.div_pos; lia).
  destruct (grow_spec (cow_relock s true) n (relock_wf _ _ H)) as (s1 & -> & H1 & B1 & C1 & S1 & R1); [cbn; lia|done|].
  cbn [mbind option_bind negb]. cbn in B1, S1, R1.
  destruct (add_block_spec s1 n H1) as (s2 & E2 & H2 & B2 & R2); [lia|lia|].
  rewrite E2. cbn [mbind option_bind negb]. replace (n - 1) with (zlen L / 64) by lia. unfold BLOCK_SIZE.
  destruct (write_spec s2 (zlen L) x H2) as (s3 & -> & H3 & Hsh & R3); [lia|]. cbn [mbind option_bind].
  eexists. split; [rewrite u64_id by lia; do 2 f_equal; lia|]. destruct Hsh as (B3 & _). split; cbn; rewrite ?zlen_app; change (zlen [x]) with 1; try done; try lia.
  - split; apply H3.
  - intros k Hk. change (at_ _ k) with (at_ s3 k). rewrite R3 by lia. destruct (Z.eqb_spec k (zlen L)) as [->|Hne].
    + by rewrite zget_app_r, Z.sub_diag by lia.
    + rewrite R2, R1, zget_app_l by lia. apply Ha. lia.
Qed.

(** ** Removing *)

(** The elements while the ones above [index] move down: those before [i] are
    in their new place. *)
Definition shifting s L (index i : Z) : Prop :=
  forall k, 0 <= k < zlen L -> at_ s k = zget L (if (index <=? k) && (k <? i) then k + 1 else k).

Lemma remove_shift_spec L index : forall fuel s i,
  cow_wf s -> zlen L < 2 ^ 62 -> zlen L <= 64 * bcount s -> 0 <= index <= i -> i <= zlen L - 1 -> (Z.to_nat (zlen L - i) <= fuel)%nat ->
  shifting s L index i ->
  exists s', remove_shift malloc fuel s index (zlen L) i = Some (s', true) /\ cow_wf s' /\ same_shape s s' /\ shifting s' L index (zlen L - 1).
Proof.
  induction fuel as [|fuel IH]; intros s i H Hsm Hb Hi Hin Hf Hsh; [lia|]. cbn [remove_shift]. rewrite u64_id by lia.
  destruct (Z.ltb_spec i (zlen L - 1)) as [Hlt|Hge].
  2:{ exists s. split_and!; try done. by replace (zlen L - 1) with i by lia. }
  destruct (flat_block i (bcount s)) as [Hib _]; [lia|].
  assert (exists s1, (if (i =? index) || (i mod BLOCK_SIZE =? 0) then copy_block malloc s (i / BLOCK_SIZE) Some else Some (s, true)) = Some (s1, true) /\
    cow_wf s1 /\ same_shape s s1 /\ shifting s1 L index i) as (s1 & -> & H1 & Hs1 & Hsh1).
  { case_if; [|by exists s]. destruct (copy_same malloc s (i / BLOCK_SIZE) H) as (s1 & E1 & H1 & Hs1 & Hr); [done|].
    exists s1. split_and!; try done. intros k Hk. rewrite Hr by lia. by apply Hsh. }
  cbn [mbind option_bind negb]. pose proof Hs1 as (B1 & _). pose proof (Hsh1 (i + 1) ltac:(lia)) as Hread.
  replace ((index <=? i + 1) && (i + 1 <? i)) with false in Hread by lia. destruct (zget_ok L (i + 1) ltac:(lia)) as [x Hx]. rewrite Hx in Hread.
  unfold at_ in Hread. unfold BLOCK_SIZE. rewrite Hread. cbn [mbind option_bind].
  destruct (write_spec s1 i x H1) as (s2 & -> & H2 & Hs2 & Hr2); [lia|]. cbn [mbind option_bind]. pose proof Hs2 as (B2 & _).
  destruct (IH s2 (i + 1)) as (s' & -> & H' & Hs' & Hsh'); try done; try lia.
  - intros k Hk. rewrite Hr2 by lia. destruct (Z.eqb_spec k i) as [->|Hne].
    + replace ((index <=? i) && (i <? i + 1)) with true by lia. done.
    + rewrite Hsh1 by done. f_equal. replace ((index <=? k) && (k <? i + 1)) with ((index <=? k) && (k <? i)) by lia. done.
  - exists s'. split_and!; try done. by rewrite Hs1, Hs2.
Qed.

Lemma zget_delete L index k : 0 <= index -> 0 <= k -> zget (delete (Z.to_nat index) L) k = zget L (if index <=? k then k + 1 else k).
Proof.
  intros Hi Hk. unfold zget. destruct (Z.leb_spec index k); destruct (Z.ltb_spec k 0); try lia.
  - destruct (Z.ltb_spec (k + 1) 0); [lia|]. rewrite list_lookup_delete_ge by lia. f_equal. lia.
  - by rewrite list_lookup_delete_lt by lia.
Qed.

Lemma remove_last_spec s n :
  cow_wf s -> 0 < n < 2 ^ 62 -> bcount s = (n + 63) / 64 ->
  exists s', remove_last malloc s n ((n - 1 + 63) / 64) = Some s' /\ cow_wf s' /\ bcount s' = (n - 1 + 63) / 64 /\
    cow_size (cs_list s') = cow_size (cs_list s) /\ cow_lock (cs_list s') = cow_lock (cs_list s) /\
    (forall k, 0 <= k < n - 1 -> at_ s' k = at_ s k).
Proof.
  intros H Hn Hb. unfold remove_last. pose proof (count_bounds n ltac:(lia)) as Cn. pose proof (count_bounds (n - 1) ltac:(lia)) as Cm.
  rewrite <- Hb in Cn. pose proof (cw_le _ H) as Hle. pose proof (cw_cap _ H) as Hcap. pose proof (cw_len _ H) as Hlen.
  destruct (Z.ltb_spec ((n - 1 + 63) / 64) (bcount s)) as [Hlt|Hge].
  - assert ((n - 1 + 63) / 64 = bcount s - 1) as Ef by lia. rewrite Ef in *. rewrite u64_id by lia.
    destruct (cw_blk _ H (bcount s - 1)) as (p & b & Hp & Hp0 & Hpb & Hbl & Hbr); [lia|]. rewrite Hp. cbn [mbind option_bind].
    destruct (zset (blocks (cs_list s)) (bcount s - 1) 0) as [bs|] eqn:Ebs; [|rewrite zset_ok in Ebs by lia; done]. cbn [mbind option_bind].
    destruct (block_release_spec (cs_heap s) p b Hpb Hp0 Hbr) as (h & -> & Hh & _). cbn [mbind option_bind]. eexists. split; [done|]. set (s' := with_heap _ _).
    assert (forall i, 0 <= i < bcount s - 1 -> zget bs i = zget (blocks (cs_list s)) i) as Hk2.
    { intros i Hi. rewrite (zset_get _ _ _ _ _ Ebs). rewrite decide_False; [done|lia]. }
    assert (forall i q c, 0 <= i < bcount s - 1 -> block_at s i q c -> block_at s' i q c) as Hother.
    { intros i q c Hi (Hq & Hq0 & Hqh & Hrest). split_and!; try tauto; cbn; [by rewrite Hk2|]. rewrite Hh; [done|]. intros ->.
      assert (i = bcount s - 1); [eapply (cw_inj _ H)|lia]; try done; lia. }
    split_and!; try done.
    + split; cbn; try lia.
      * by rewrite (zset_len _ _ _ _ Ebs).
      * intros i Hi. destruct (cw_blk _ H i ltac:(lia)) as (q & c & Hc). exists q, c. by apply Hother.
      * intros i j q Hi Hj. rewrite !Hk2 by done. apply (cw_inj _ H); lia.
    + intros k Hk. destruct (flat_block k (bcount s - 1)) as [Hkb _]; [lia|]. unfold at_. destruct (cw_blk _ H (k / 64) ltac:(lia)) as (q & c & Hc).
      by rewrite (read_block _ _ _ _ _ Hc), (read_block _ _ _ _ _ (Hother _ _ _ Hkb Hc)).
  - rewrite u64_id by lia. destruct (copy_set malloc s (n - 1) 0 H) as (s' & E & H' & (B & _ & S & Lk) & Hr); [lia|]. unfold BLOCK_SIZE. rewrite E.
    cbn [mbind option_bind]. exists s'. split_and!; try done; [lia|]. intros k Hk. rewrite Hr by lia. destruct (Z.eqb_spec k (n - 1)); [lia|done].
Qed.

Lemma remove_spec s L i :
  cow_rep s L -> 0 <= i ->
  exists s', cow_list_remove malloc s i = Some (s', default 0 (zget L i)) /\ cow_rep s' (delete (Z.to_nat i) L).
Proof.
  intros Hrep Hi. pose proof Hrep as [H Hl Hs Hc Hsm Ha]. pose proof (zlen_nonneg L) as H0. unfold cow_list_remove. rewrite Hs, Z.geb_leb.
  destruct (Z.leb_spec (zlen L) i) as [Hge|Hlt]; cbn [orb].
  { exists s. rewrite (zget_none L) by lia. split; [done|]. unfold zlen in Hge. by rewrite delete_take_drop, take_ge, drop_ge, app_nil_r by lia. }
  destruct (Z.eqb_spec (zlen L) 0); [lia|]. rewrite Hl. cbn [spin_lock mbind option_bind]. pose proof (count_bounds (zlen L) H0) as Cb. rewrite <- Hc in Cb.
  change (cow_size (cs_list (cow_relock s true))) with (cow_size (cs_list s)). rewrite Hs, u64_id, calculate_count by lia.
  pose proof (Ha i ltac:(lia)) as Hai. destruct (zget_ok L i ltac:(lia)) as [x Hx]. rewrite Hx in Hai |- *. unfold BLOCK_SIZE.
  change (read_at (cow_relock s true) (i / 64) (i mod 64)) with (at_ s i). rewrite Hai. cbn [mbind option_bind].
  destruct (remove_shift_spec L i (S (Z.to_nat (zlen L))) (cow_relock s true) i) as (s1 & -> & H1 & (B1 & _ & _ & Lk1) & Hsh); try done; try lia; [by apply relock_wf|cbn; lia| |].
  { intros k Hk. replace ((i <=? k) && (k <? i)) with false by lia. by apply Ha. }
  cbn [mbind option_bind negb]. destruct (remove_last_spec s1 (zlen L) H1) as (s2 & -> & H2 & B2 & _ & Lk2 & Hr2); [lia|rewrite B1; exact Hc|].
  cbn [mbind option_bind]. eexists. split; [done|].
  assert (zlen (delete (Z.to_nat i) L) = zlen L - 1) as Hdl.
  { unfold zlen in *. rewrite length_delete; [lia|]. apply lookup_lt_is_Some_2. lia. }
  split; cbn; rewrite ?Hdl; try done; try lia; [split; apply H2|].
  intros k Hk. change (at_ _ k) with (at_ s2 k). rewrite Hr2, Hsh, zget_delete by lia. f_equal. replace (k <? zlen L - 1) with true by lia. by rewrite andb_true_r.
Qed.

(** ** Any sequence of operations *)

Inductive cow_op := CowAdd (x : Z) | CowSet (i x : Z) | CowClear (i : Z) | CowRemove (i : Z) | CowGet (i : Z).

Definition cow_run s (o : cow_op) : option (cow_sys * Z) :=
  match o with
  | CowAdd x => cow_list_add malloc realloc s x
  | CowSet i x => cow_list_set malloc s i x
  | CowClear i => cow_list_clear malloc s i
  | CowRemove i => cow_list_remove malloc s i
  | CowGet i => cow_list_get s i
  end.

(** The same on a plain list: the new list and the result. *)
Definition list_run L (o : cow_op) : list Z * Z :=
  match o with
  | CowAdd x => (L ++ [x], zlen L)
  | CowSet i x => (<[Z.to_nat i := x]> L, if i <? zlen L then 0 else -1)
  | CowClear i => (<[Z.to_nat i := 0]> L, default 0 (zget L i))
  | CowRemove i => (delete (Z.to_nat i) L, default 0 (zget L i))
  | CowGet i => (L, default 0 (zget L i))
  end.

Definition op_index_ok (o : cow_op) : Prop :=
  match o with CowAdd _ => True | CowSet i _ | CowClear i | CowRemove i | CowGet i => 0 <= i end.

(** C36: the copy-on-write array list refines a list: while memory lasts, each
    of add, set, clear, remove and get returns what the operation returns on
    the plain list, on every index, and leaves a well-formed list that
    represents the plain operation's result. *)
Theorem cow_list_refines s L o :
  cow_rep s L -> op_index_ok o -> blocks_capacity (cs_list s) < 2 ^ 59 -> zlen L < 2 ^ 62 - 1 ->
  exists s', cow_run s o = Some (s', snd (list_run L o)) /\ cow_rep s' (fst (list_run L o)).
Proof.
  intros H Hi Hc Hn. destruct o as [x|i x|i|i|i]; cbn [cow_run list_run fst snd op_index_ok] in *.
  - by apply add_spec.
  - by apply set_spec.
  - by apply clear_spec.
  - by apply remove_spec.
  - exists s. split; [by apply get_spec|done].
Qed.

End Ops.

Lemma cow_create_spec h : exists c, cow_list_create true true = Some c /\ cow_rep (mkCs c h) [].
Proof.
  eexists. split; [done|]. split; try done.
  - split; cbn; try done; intros; lia.
  - intros k Hk. change (zlen []) with 0 in Hk. lia.
Qed.

(** ** Allocators for examples *)

Definition top_block (h : gmap Z cow_block) : Z := 1 + top_key h.

#[export] Instance top_block_allocator : BlockAllocator top_block.
Proof.
  split; intros h.
  - intros _. apply top_key_fresh. unfold top_block. lia.
  - pose proof (top_key_nonneg h). unfold top_block. lia.
Qed.

(** The new room holds 7s. *)
Definition realloc_7 (bs : list Z) (n : Z) : option (list Z) := Some (bs ++ replicate (Z.to_nat (n - zlen bs)) 7).

#[export] Instance realloc_7_keeps : Reallocator realloc_7.
Proof.
  intros bs n Hn. eexists. split; [done|]. split; [rewrite zlen_app, zlen_replicate; lia|]. intros i Hi. apply zget_app_l. lia.
Qed.

(** No memory for blocks. *)
Definition no_block (h : gmap Z cow_block) : Z := 0.

(** The empty list. *)
Definition ex_cow : cow_sys := mkCs (mkCow (replicate 4 0) 0 4 0 false) ∅.

Lemma ex_cow_rep : cow_rep ex_cow [].
Proof. destruct (cow_create_spec ∅) as (c & [= <-] & H). exact H. Qed.

Lemma cow_list_refines_witness : exists s', cow_list_add top_block realloc_7 ex_cow 5 = Some (s', 0) /\ cow_rep s' [5].
Proof. apply (cow_list_refines top_block realloc_7 ex_cow [] (CowAdd 5) ex_cow_rep); done. Defined.

(** Without memory [cow_list_remove] of an element that is not the last
    returns the element as removed although the list still holds it. *)
Theorem cow_remove_without_memory s L i :
  cow_rep s L -> 0 <= i < zlen L - 1 -> cow_list_remove no_block s i = Some (s, default 0 (zget L i)).
Proof.
  intros Hrep Hi. pose proof Hrep as [H Hl Hs Hc Hsm Ha]. unfold cow_list_remove. rewrite Hs, Z.geb_leb.
  destruct (Z.leb_spec (zlen L) i); [lia|]. destruct (Z.eqb_spec (zlen L) 0); [lia|]. cbn [orb]. rewrite Hl. cbn [spin_lock mbind option_bind].
  change (cow_size (cs_list (cow_relock s true))) with (cow_size (cs_list s)). rewrite Hs. unfold BLOCK_SIZE.
  change (read_at (cow_relock s true) (i / 64) (i mod 64)) with (at_ s i). rewrite Ha by lia. destruct (zget_ok L i ltac:(lia)) as [x ->]. cbn [mbind option_bind].
  cbn [remove_shift]. rewrite u64_id by lia. destruct (Z.ltb_spec i (zlen L - 1)); [|lia]. rewrite Z.eqb_refl. cbn [orb].
  pose proof (count_bounds (zlen L) ltac:(lia)). destruct (flat_block i (bcount s)) as [Hb _]; [lia|].
  destruct (cw_blk _ H _ Hb) as (p & b & Hp & _). unfold copy_block, BLOCK_SIZE. change (blocks (cs_list (cow_relock s true))) with (blocks (cs_list s)).
  rewrite Hp. cbn [mbind option_bind no_block Z.eqb negb]. do 2 f_equal. destruct s as [[? ? ? ? ?] ?]; cbn in *. by subst.
Qed.

Definition ex_pair : cow_sys := mkCs (mkCow [100; 0; 0; 0] 1 4 2 false) {[100 := mkBlk ([5; 6] ++ replicate 62 0) 1]}.

Lemma ex_pair_rep : cow_rep ex_pair [5; 6].
Proof.
  split; try done.
  - split; try done; cbn.
    + intros i Hi. assert (i = 0) as -> by lia. exists 100, (mkBlk ([5; 6] ++ replicate 62 0) 1). by split_and!.
    + intros. lia.
  - intros k Hk. assert (k = 0 \/ k = 1) as [-> | ->] by (change (zlen [5; 6]) with 2 in Hk; lia); done.
Qed.

Lemma cow_remove_without_memory_witness : cow_list_remove no_block ex_pair 0 = Some (ex_pair, 5).
Proof. apply (cow_remove_without_memory ex_pair [5; 6] 0 ex_pair_rep). split; done. Defined.

(** Destroying the list releases each of its blocks. *)
Lemma cow_destroy_spec s L :
  cow_rep s L -> (forall i p b, block_at s i p b -> ref_count b = 1) ->
  exists h, cow_list_destroy s = Some h /\
    forall q, h !! q = if bool_decide (q ∈ take (Z.to_nat (bcount s)) (blocks (cs_list s))) then None else cs_heap s !! q.
Proof.
  intros [H _ _ _ _ _] Hone. unfold cow_list_destroy. pose proof (cw_le _ H) as Hle. pose proof (cw_len _ H) as Hlen.
  destruct (for_range_inv (fun i h => forall q, h !! q = if bool_decide (q ∈ take (Z.to_nat i) (blocks (cs_list s))) then None else cs_heap s !! q)
    0 (bcount s) (fun i h => p ← zget (blocks (cs_list s)) i; block_release h p) (cs_heap s)) as (h & -> & Hh); [lia| | |by exists h].
  - intros q. rewrite bool_decide_eq_false_2; [done|]. apply not_elem_of_nil.
  - intros i h Hi Hh. destruct (cw_blk _ H i Hi) as (p & b & Hb). pose proof Hb as (Hp & Hp0 & Hpb & _ & Hbr). rewrite Hp. cbn [mbind option_bind].
    assert (forall j : nat, (j < Z.to_nat i)%nat -> blocks (cs_list s) !! j <> Some p) as Hnot.
    { intros j Hj Hjp. assert (Z.of_nat j = i); [|lia]. eapply (cw_inj _ H); [lia|done| |exact Hp].
      unfold zget. destruct (Z.ltb_spec (Z.of_nat j) 0); [lia|]. by rewrite Nat2Z.id. }
    assert (p ∉ take (Z.to_nat i) (blocks (cs_list s))) as Hnt.
    { intros (j & Hj)%list_elem_of_lookup. apply lookup_take_Some in Hj as [Hj Hlt]. by apply Hnot in Hj. }
    destruct (block_release_spec h p b) as (h' & E & Hh' & Hdel); [by rewrite Hh, bool_decide_eq_false_2|done|done|].
    exists h'. split; [done|]. intros q. rewrite (Hdel (Hone _ _ _ Hb)).
    assert (blocks (cs_list s) !! Z.to_nat i = Some p) as Hp' by (unfold zget in Hp; case_if_in Hp; [done|exact Hp]).
    replace (Z.to_nat (i + 1)) with (S (Z.to_nat i)) by lia. rewrite (take_S_r _ _ _ Hp'). destruct (decide (p = q)) as [<-|Hne].
    + rewrite lookup_delete_eq, bool_decide_eq_true_2; [done|]. apply elem_of_app. right. by apply list_elem_of_singleton.
    + rewrite lookup_delete_ne, Hh by done. apply (f_equal (fun b : bool => if b then None else cs_heap s !! q)).
      apply bool_decide_ext. rewrite elem_of_app, list_elem_of_singleton. naive_solver.
Qed.
