(* ===== verification/Ipc.v ===== *)
(** * Message queues between processes ([src/src/task/ipc.c])

    A ring of 256 pointers to messages under a spin lock. The queue is related
    to the list of the messages in it; [ipc_recv] selects by type and puts the
    messages it passes over back at the end. *)

From stdpp Require Import gmap.
From S2P Require Import Prelude.

Definition IPC_QUEUE_CAPACITY : Z := 256.

Record ipc_message := mkMsg { m_pid : Z; m_type : Z; m_data : list Z; m_index : Z }.
Definition set_index (m : ipc_message) (i : Z) : ipc_message := mkMsg (m_pid m) (m_type m) (m_data m) i.

Record ipc_queue_t := mkQ {
  q_lock : spin_t;
  q_items : list Z;
  q_capacity : Z;
  q_head : Z;
  q_tail : Z;
  q_size : Z;
}.

(** A queue and the messages that are allocated, by address; using one that
    was freed is [None]. *)
Record ipc_sys := mkIpc { ipc_q : ipc_queue_t; ipc_msgs : gmap Z ipc_message }.

Definition with_queue (s : ipc_sys) (q : ipc_queue_t) : ipc_sys := mkIpc q (ipc_msgs s).
Definition q_with_lock (q : ipc_queue_t) (l : spin_t) : ipc_queue_t :=
  mkQ l (q_items q) (q_capacity q) (q_head q) (q_tail q) (q_size q).

(** ** The code *)

(** [malloc] is not checked; [items] is what the new block holds. *)
Definition ipc_queue_init (p : Z) (items : list Z) : option ipc_queue_t :=
  if p =? 0 then None else Some (mkQ SPIN_INIT items IPC_QUEUE_CAPACITY 0 0 0).

Definition ipc_queue_dequeue (q : ipc_queue_t) : option (ipc_queue_t * Z) :=
  l ← spin_lock (q_lock q);
  let q := q_with_lock q l in
  if q_size q =? 0 then Some (q_with_lock q (spin_unlock (q_lock q)), 0)
  else
    item ← zget (q_items q) (q_head q);
    let head := u64 (q_head q + 1) mod q_capacity q in
    let q := mkQ (q_lock q) (q_items q) (q_capacity q) head (q_tail q) (u64 (q_size q - 1)) in
    Some (q_with_lock q (spin_unlock (q_lock q)), item).

(** Returns with the lock held, in both cases. *)
Definition ipc_queue_enqueue (q : ipc_queue_t) (item : Z) : option (ipc_queue_t * Z) :=
  l ← spin_lock (q_lock q);
  let q := q_with_lock q l in
  if q_size q =? q_capacity q then Some (q, SIZE_MAX)
  else
    let index := q_tail q in
    items ← zset (q_items q) (q_tail q) item;
    let tail := u64 (q_tail q + 1) mod q_capacity q in
    Some (mkQ (q_lock q) items (q_capacity q) (q_head q) tail (u64 (q_size q + 1)), index).

Definition ipc_unlock (s : ipc_sys) : ipc_sys := with_queue s (q_with_lock (ipc_q s) (spin_unlock (q_lock (ipc_q s)))).

(** [message->index = ipc_queue_enqueue(queue, message); spin_unlock(queue->lock);] *)
Definition put_back (s : ipc_sys) (message : Z) : option ipc_sys :=
  '(q, index) ← ipc_queue_enqueue (ipc_q s) message;
  m ← ipc_msgs s !! message;
  Some (ipc_unlock (mkIpc q (<[message := set_index m index]> (ipc_msgs s)))).

Definition ipc_send (s : ipc_sys) (message : Z) : option ipc_sys :=
  if message =? 0 then Some s else put_back s message.

Fixpoint free_type_loop (fuel : nat) (s : ipc_sys) (type i : Z) : option ipc_sys :=
  match fuel with
  | O => None
  | S fuel =>
      if i <? q_size (ipc_q s) then
        '(q, message) ← ipc_queue_dequeue (ipc_q s);
        let s := with_queue s q in
        m ← ipc_msgs s !! message;
        s ← (if m_type m =? type then Some (ipc_unlock (mkIpc (ipc_q s) (delete message (ipc_msgs s))))
             else put_back s message);
        free_type_loop fuel s type (i + 1)
      else Some s
  end.

(** The size does not grow in the loop. *)
Definition ipc_free_type (s : ipc_sys) (type : Z) : option ipc_sys :=
  free_type_loop (S (Z.to_nat (q_size (ipc_q s)))) s type 0.

Fixpoint recv_loop (fuel : nat) (s : ipc_sys) (type i : Z) : option (ipc_sys * Z) :=
  match fuel with
  | O => None
  | S fuel =>
      if i <? q_size (ipc_q s) then
        '(q, message) ← ipc_queue_dequeue (ipc_q s);
        let s := with_queue s q in
        m ← ipc_msgs s !! message;
        if m_type m =? type then Some (s, message)
        else s ← put_back s message; recv_loop fuel s type (i + 1)
      else Some (s, 0)
  end.

(** The message, 0 for NULL. *)
Definition ipc_recv (s : ipc_sys) (type : Z) : option (ipc_sys * Z) :=
  recv_loop (S (Z.to_nat (q_size (ipc_q s)))) s type 0.

(** The waiting loops: [turns] are what the other tasks do at each
    [scheduler_yield]; [None] for the message: still waiting after these. *)
Fixpoint ipc_recv_wait (turns : list (ipc_sys -> ipc_sys)) (s : ipc_sys) (type : Z) : option (ipc_sys * option Z) :=
  match turns with
  | [] => Some (s, None)
  | f :: turns =>
      '(s, message) ← ipc_recv (f s) type;
      if message =? 0 then ipc_recv_wait turns s type else Some (s, Some message)
  end.

Fixpoint ipc_recv_wait2 (turns : list (ipc_sys -> ipc_sys)) (s : ipc_sys) (type0 type1 : Z) : option (ipc_sys * option Z) :=
  match turns with
  | [] => Some (s, None)
  | f :: turns =>
      '(s, message) ← ipc_recv (f s) type0;
      '(s, message) ← (if message =? 0 then ipc_recv s type1 else Some (s, message));
      if message =? 0 then ipc_recv_wait2 turns s type0 type1 else Some (s, Some message)
  end.

(** Frees the messages and the queue: what is left is the message heap. *)
Definition ipc_queue_release (s : ipc_sys) : option (gmap Z ipc_message) :=
  let q := ipc_q s in
  l ← spin_lock (q_lock q);
  '(_, _, ms) ← for_range 0 (q_size q) (fun _ '(cur, items, ms) =>
    message ← zget items cur;
    '(items, ms) ←
      (if negb (message =? 0) then
         _ ← ms !! message;
         items ← zset items cur 0;
         Some (items, delete message ms)
       else Some (items, ms));
    Some (u64 (cur + 1) mod q_capacity q, items, ms)) (q_head q, q_items q, ipc_msgs s);
  Some ms.

(** ** The queue as a list *)

Record queue_rep (q : ipc_queue_t) (L : list Z) : Prop := {
  qr_lock : q_lock q = false;
  qr_cap : q_capacity q = 256;
  qr_items : zlen (q_items q) = 256;
  qr_head : 0 <= q_head q < 256;
  qr_size : q_size q = zlen L;
  qr_room : zlen L <= 256;
  qr_tail : q_tail q = (q_head q + zlen L) mod 256;
  qr_elem : forall k, 0 <= k < zlen L -> zget (q_items q) ((q_head q + k) mod 256) = zget L k;
}.

(** Every message of the queue is allocated, and queued once. *)
Record ipc_ok (s : ipc_sys) (L : list Z) : Prop := {
  io_rep : queue_rep (ipc_q s) L;
  io_live : forall p, p ∈ L -> p <> 0 /\ is_Some (ipc_msgs s !! p);
  io_once : NoDup L;
}.

Definition type_of (s : ipc_sys) (p : Z) : option Z := m_type <$> ipc_msgs s !! p.

(** The same messages up to the index field. *)
Definition same_msgs (s s' : ipc_sys) : Prop :=
  forall p, (fun m => set_index m 0) <$> ipc_msgs s' !! p = (fun m => set_index m 0) <$> ipc_msgs s !! p.

Lemma same_msgs_refl s : same_msgs s s.
Proof. by intros p. Qed.

Lemma same_msgs_trans s1 s2 s3 : same_msgs s1 s2 -> same_msgs s2 s3 -> same_msgs s1 s3.
Proof. intros H1 H2 p. by rewrite H2, H1. Qed.

#[export] Instance same_msgs_preorder : PreOrder same_msgs.
Proof. split; [exact same_msgs_refl|exact same_msgs_trans]. Qed.

Lemma same_msgs_type s s' p : same_msgs s s' -> type_of s' p = type_of s p.
Proof.
  intros H. specialize (H p). unfold type_of. apply (f_equal (fmap m_type)) in H. by rewrite <- !option_fmap_compose in H.
Qed.

Lemma same_msgs_live s s' p : same_msgs s s' -> is_Some (ipc_msgs s !! p) -> is_Some (ipc_msgs s' !! p).
Proof.
  intros H [m Hm]. specialize (H p). rewrite Hm in H. destruct (ipc_msgs s' !! p); [by eexists|done].
Qed.

Lemma ring_next x : 0 <= x < 256 -> u64 (x + 1) mod 256 = (x + 1) mod 256.
Proof. intros. by rewrite u64_id by lia. Qed.

Lemma dequeue_spec q x L :
  queue_rep q (x :: L) -> exists q', ipc_queue_dequeue q = Some (q', x) /\ queue_rep q' L.
Proof.
  intros [Hl Hc Hi Hh Hs Hr Ht He]. rewrite zlen_cons in *. pose proof (zlen_nonneg L). unfold ipc_queue_dequeue. rewrite Hl.
  cbn [spin_lock mbind option_bind q_with_lock q_size q_items q_head q_capacity q_lock q_tail].
  rewrite Hs. destruct (Z.eqb_spec (1 + zlen L) 0); [lia|]. specialize (He 0 ltac:(lia)) as He0. rewrite Z.add_0_r, Z.mod_small in He0 by lia.
  rewrite He0. cbn [zget Z.ltb Z.compare Z.to_nat lookup list_lookup mbind option_bind]. eexists. split; [done|].
  split; cbn [q_with_lock q_lock q_items q_capacity q_head q_tail q_size]; try done.
  - rewrite Hc. apply Z.mod_pos_bound. lia.
  - rewrite u64_id by lia. lia.
  - lia.
  - rewrite Ht, Hc, ring_next by lia. rewrite Z.add_mod_idemp_l by lia. f_equal. lia.
  - intros k Hk. rewrite Hc, ring_next by lia. rewrite Z.add_mod_idemp_l by lia. replace (q_head q + 1 + k) with (q_head q + (k + 1)) by lia.
    rewrite He by lia. rewrite zget_cons_S by lia. f_equal. lia.
Qed.

Lemma enqueue_spec q L x :
  queue_rep q L -> zlen L < 256 ->
  exists q' i, ipc_queue_enqueue q x = Some (q', i) /\ 0 <= i < 256 /\ queue_rep (q_with_lock q' false) (L ++ [x]).
Proof.
  intros [Hl Hc Hi Hh Hs Hr Ht He] Hroom. pose proof (zlen_nonneg L). unfold ipc_queue_enqueue. rewrite Hl.
  cbn [spin_lock mbind option_bind q_with_lock q_size q_items q_head q_capacity q_lock q_tail].
  rewrite Hs, Hc. destruct (Z.eqb_spec (zlen L) 256); [lia|].
  assert (0 <= q_tail q < 256) as Htb by (rewrite Ht; apply Z.mod_pos_bound; lia).
  destruct (zset (q_items q) (q_tail q) x) as [it|] eqn:Eit; [|rewrite zset_ok in Eit by lia; done].
  cbn [mbind option_bind]. eexists _, _. split; [done|]. split; [done|].
  split; cbn [q_with_lock q_lock q_items q_capacity q_head q_tail q_size]; rewrite ?zlen_app; change (zlen [x]) with 1; try done; try lia.
  - rewrite (zset_len _ _ _ _ Eit). lia.
  - rewrite u64_id by lia. lia.
  - rewrite ring_next, Ht by lia. rewrite Z.add_mod_idemp_l by lia. f_equal. lia.
  - intros k Hk. rewrite (zset_get _ _ _ _ _ Eit). destruct (decide (k = zlen L)) as [->|Hne].
    + rewrite decide_True by done. rewrite zget_app_r by lia. by rewrite Z.sub_diag.
    + rewrite zget_app_l by lia. rewrite <- He by lia. case_decide as E; [|done]. exfalso. rewrite Ht in E.
      pose proof (Z.div_mod (q_head q + zlen L) 256 ltac:(lia)). pose proof (Z.div_mod (q_head q + k) 256 ltac:(lia)). lia.
Qed.

Lemma put_back_spec s L x :
  ipc_ok s L -> zlen L < 256 -> x <> 0 -> is_Some (ipc_msgs s !! x) -> (x ∉ L) ->
  exists s', put_back s x = Some s' /\ ipc_ok s' (L ++ [x]) /\ same_msgs s s'.
Proof.
  intros [Hq Hlive Hnd] Hroom Hx [m Hm] Hnew. unfold put_back.
  destruct (enqueue_spec (ipc_q s) L x Hq Hroom) as (q' & i & -> & _ & Hq'). cbn [mbind option_bind]. rewrite Hm. cbn [mbind option_bind].
  eexists. split; [done|].
  assert (same_msgs s (ipc_unlock (mkIpc q' (<[x:=set_index m i]> (ipc_msgs s))))) as Hsm.
  { intros p. cbn [ipc_unlock with_queue ipc_msgs]. destruct (decide (x = p)) as [<-|]; [by rewrite lookup_insert_eq, Hm|by rewrite lookup_insert_ne]. }
  split; [|done]. split; [exact Hq'| |].
  - intros p [Hp| ->%list_elem_of_singleton]%elem_of_app; (split; [|eapply same_msgs_live; [exact Hsm|]]); try (by apply Hlive); done.
  - apply NoDup_app. split_and!; [done| |apply NoDup_singleton]. by intros p Hp ->%list_elem_of_singleton.
Qed.

(** One round: the head leaves the queue. *)
Lemma take_head s x L :
  ipc_ok s (x :: L) ->
  exists q m, ipc_queue_dequeue (ipc_q s) = Some (q, x) /\ ipc_msgs s !! x = Some m /\ x <> 0 /\ (x ∉ L) /\
    type_of s x = Some (m_type m) /\ ipc_ok (with_queue s q) L.
Proof.
  intros [Hq Hlive Hnd]. destruct (dequeue_spec _ _ _ Hq) as (q & -> & Hq'). destruct (Hlive x) as [Hx [m Hm]]; [by apply elem_of_cons; left|].
  apply NoDup_cons in Hnd as [Hn Hnd]. exists q, m. unfold type_of. rewrite Hm. split_and!; try done. split; try done.
  intros p Hp. apply Hlive. by apply elem_of_cons; right.
Qed.

Lemma rotate_head s x L :
  ipc_ok s (x :: L) -> exists q s', ipc_queue_dequeue (ipc_q s) = Some (q, x) /\ put_back (with_queue s q) x = Some s' /\
    ipc_ok s' (L ++ [x]) /\ same_msgs s s'.
Proof.
  intros H. pose proof (qr_room _ _ (io_rep _ _ H)) as Hroom. rewrite zlen_cons in Hroom.
  destruct (take_head s x L H) as (q & m & Ed & Hm & Hx & Hn & _ & H').
  destruct (put_back_spec (with_queue s q) L x H') as (s' & E & H2 & Hs); [lia|done|by eexists|done|]. exists q, s'. by split_and!.
Qed.

(** ** Receiving *)

(** The queue after [ipc_recv] of a type: the first message of the type is
    out, and the ones before it have moved behind the others. *)
Lemma recv_loop_spec t : forall B fuel s A i,
  ipc_ok s (B ++ A) -> i = zlen A -> (length B < fuel)%nat -> (forall p, p ∈ A -> type_of s p <> Some t) ->
  (exists B1 m B2 s', B = B1 ++ m :: B2 /\ (forall p, p ∈ B1 -> type_of s p <> Some t) /\ type_of s m = Some t /\
     recv_loop fuel s t i = Some (s', m) /\ ipc_ok s' (B2 ++ A ++ B1) /\ same_msgs s s') \/
  (forall p, p ∈ B -> type_of s p <> Some t) /\
    exists s', recv_loop fuel s t i = Some (s', 0) /\ ipc_ok s' (A ++ B) /\ same_msgs s s'.
Proof.
  induction B as [|x B IH]; intros [|fuel] s A i H -> Hf HA; simpl in Hf; try lia; cbn [recv_loop].
  { right. rewrite (qr_size _ _ (io_rep _ _ H)). cbn [app]. rewrite Z.ltb_irrefl. split; [by intros p ?%not_elem_of_nil|].
    exists s. rewrite app_nil_r. by split_and!. }
  pose proof (zlen_nonneg B). rewrite (qr_size _ _ (io_rep _ _ H)), zlen_app, zlen_cons. destruct (Z.ltb_spec (zlen A) (1 + zlen B + zlen A)); [|lia].
  destruct (take_head s x (B ++ A) H) as (q & m & -> & Hm & Hx & Hn & Hty & H'). cbn [mbind option_bind with_queue ipc_msgs].
  rewrite Hm. cbn [mbind option_bind]. destruct (Z.eqb_spec (m_type m) t) as [Et|Et].
  { left. exists [], x, B, (with_queue s q). rewrite app_nil_r, Hty, Et. split_and!; try done. by intros p ?%not_elem_of_nil. }
  pose proof (qr_room _ _ (io_rep _ _ H)) as Hroom. cbn [app] in Hroom. rewrite zlen_cons in Hroom.
  destruct (put_back_spec (with_queue s q) (B ++ A) x H') as (s2 & Ep & H2 & Hs2); [lia|done|by eexists|done|].
  change (mkIpc q (ipc_msgs s)) with (with_queue s q). rewrite Ep. cbn [mbind option_bind].
  change (same_msgs (with_queue s q) s2) with (same_msgs s s2) in Hs2. rewrite <- app_assoc in H2.
  assert (forall p, type_of s2 p = type_of s p) as Hty2 by (intros; by apply same_msgs_type).
  assert (type_of s x <> Some t) as Hxt by (rewrite Hty; congruence).
  destruct (IH fuel s2 (A ++ [x]) (zlen A + 1) H2) as [(B1 & m' & B2 & s' & -> & HB1 & Hm' & E & H3 & Hs3)|(HB & s' & E & H3 & Hs3)];
    [by rewrite zlen_app|lia| | |].
  - intros p [Hp| ->%list_elem_of_singleton]%elem_of_app; rewrite Hty2; auto.
  - left. exists (x :: B1), m', B2, s'. rewrite Hty2 in Hm'. rewrite <- app_assoc in H3. split_and!; try done; [|by etrans].
    intros p [->|Hp]%elem_of_cons; [done|]. rewrite <- Hty2. auto.
  - right. rewrite <- app_assoc in H3. split; [|exists s'; split_and!; try done; by etrans].
    intros p [->|Hp]%elem_of_cons; [done|]. rewrite <- Hty2. auto.
Qed.

Lemma ipc_recv_spec s L t :
  ipc_ok s L ->
  (exists L1 m L2 s', L = L1 ++ m :: L2 /\ (forall p, p ∈ L1 -> type_of s p <> Some t) /\ type_of s m = Some t /\
     ipc_recv s t = Some (s', m) /\ ipc_ok s' (L2 ++ L1) /\ same_msgs s s') \/
  (forall p, p ∈ L -> type_of s p <> Some t) /\ exists s', ipc_recv s t = Some (s', 0) /\ ipc_ok s' L /\ same_msgs s s'.
Proof.
  intros H. unfold ipc_recv. rewrite (qr_size _ _ (io_rep _ _ H)).
  destruct (recv_loop_spec t L (S (Z.to_nat (zlen L))) s [] 0) as [(L1 & m & L2 & s' & HL)|Hn];
    [by rewrite app_nil_r|done|unfold zlen; lia|by intros p ?%not_elem_of_nil| |].
  - left. by exists L1, m, L2, s'.
  - by right.
Qed.

Lemma rotate_at (L1 L2 : list Z) m : drop (S (length L1)) (L1 ++ m :: L2) ++ take (length L1) (L1 ++ m :: L2) = L2 ++ L1.
Proof. rewrite take_app_length, cons_middle, app_assoc, drop_app_length'; [done|]. rewrite length_app. simpl. lia. Qed.

Lemma find_first (P : Z -> Prop) `{!forall p, Decision (P p)} L1 m L2 :
  (forall p, p ∈ L1 -> ~ P p) -> P m -> list_find P (L1 ++ m :: L2) = Some (length L1, m).
Proof.
  intros H1 Hm. apply list_find_Some. split_and!; [by apply list_lookup_middle|done|].
  intros j y Hj Hlt. rewrite lookup_app_l in Hj by done. apply H1. by eapply list_elem_of_lookup_2.
Qed.

(** C39: [ipc_recv] returns the first queued message of the type, or NULL
    exactly when there is none; every other message stays in the queue, but
    those that were ahead of the one received now come after all the rest.
    The lock is free again and only the messages' index fields change. *)
Theorem ipc_recv_correct s L t :
  ipc_ok s L ->
  match list_find (fun p => type_of s p = Some t) L with
  | Some (i, m) => exists s', ipc_recv s t = Some (s', m) /\ ipc_ok s' (drop (S i) L ++ take i L) /\ same_msgs s s'
  | None => exists s', ipc_recv s t = Some (s', 0) /\ ipc_ok s' L /\ same_msgs s s'
  end.
Proof.
  intros H. destruct (ipc_recv_spec s L t H) as [(L1 & m & L2 & s' & -> & H1 & Hm & E & Hok & Hs)|(Hn & Hs)].
  - rewrite find_first by done. exists s'. rewrite rotate_at. by split_and!.
  - rewrite (proj2 (list_find_None _ _)); [done|]. by apply Forall_forall.
Qed.

(** ** An example: two messages of type 5 around one of type 6 *)

Definition ex_msgs : gmap Z ipc_message :=
  list_to_map [(10, mkMsg 1 5 [] 0); (20, mkMsg 2 6 [] 0); (30, mkMsg 3 5 [] 0)].
Definition ex_ipc (ps : list Z) : ipc_sys := mkIpc (mkQ false (ps ++ replicate (256 - length ps) 0) 256 0 (zlen ps) (zlen ps)) ex_msgs.

Lemma ex_ipc_ok ps : ps ⊆ [10; 20; 30] -> NoDup ps -> ipc_ok (ex_ipc ps) ps.
Proof.
  intros Hp Hn. assert (length ps <= 3)%nat as Hlen by (by apply (submseteq_length ps [10; 20; 30]), NoDup_submseteq).
  assert (0 <= zlen ps <= 3) as Hz by (unfold zlen; lia). split; [|intros p Hi|done].
  - split; cbn [ex_ipc ipc_q q_lock q_items q_capacity q_head q_tail q_size]; try done; try lia.
    + rewrite zlen_app, zlen_replicate. unfold zlen. lia.
    + rewrite Z.mod_small; lia.
    + intros k Hk. rewrite Z.add_0_l, Z.mod_small by lia. apply zget_app_l. lia.
  - cbn [ex_ipc ipc_msgs]. specialize (Hp p Hi). rewrite !elem_of_cons in Hp.
    destruct Hp as [->|[->|[->|?%not_elem_of_nil]]]; try done; split; try done; by eexists.
Qed.

Lemma ipc_recv_correct_witness :
  exists s', ipc_recv (ex_ipc [20; 10; 30]) 5 = Some (s', 10) /\ ipc_ok s' [30; 20].
Proof.
  assert (ipc_ok (ex_ipc [20; 10; 30]) [20; 10; 30]) as H by (apply ex_ipc_ok; [set_solver|by apply (bool_decide_unpack _)]).
  destruct (ipc_recv_correct (ex_ipc [20; 10; 30]) [20; 10; 30] 5 H) as (s' & E & Hok & _).
  exists s'. exact (conj E Hok).
Defined.

(** A task in [ipc_recv_wait] is not left waiting when its message comes:
    if it still waits after the turns [ts] and the others' next turn [f] leaves
    a message of the type in the queue, it returns with the first such
    message, whatever the later turns do. *)
Theorem ipc_recv_wait_live ts f rest s t s1 L :
  ipc_recv_wait ts s t = Some (s1, None) -> ipc_ok (f s1) L -> (exists p, p ∈ L /\ type_of (f s1) p = Some t) ->
  exists s2 i m, ipc_recv_wait (ts ++ f :: rest) s t = Some (s2, Some m) /\
    list_find (fun p => type_of (f s1) p = Some t) L = Some (i, m) /\ ipc_ok s2 (drop (S i) L ++ take i L).
Proof.
  intros Hw Hok (p & Hp & Ht). revert s Hw. induction ts as [|g ts IH]; intros s Hw; cbn [ipc_recv_wait app] in *.
  - injection Hw as ->. destruct (list_find (fun p => type_of (f s1) p = Some t) L) as [[i m]|] eqn:El.
    2:{ apply list_find_None in El. rewrite Forall_forall in El. by apply El in Hp. }
    pose proof El as (Hl & Hm & Hfst)%list_find_Some.
    destruct (ipc_recv_spec (f s1) L t Hok) as [(L1 & m' & L2 & s' & -> & H1 & Hm' & E & Hok' & _)|(Hn & _)]; [|by apply Hn in Hp].
    assert (list_find (fun p => type_of (f s1) p = Some t) (L1 ++ m' :: L2) = Some (length L1, m')) as El2 by (by apply find_first).
    rewrite El2 in El. injection El as <- <-. rewrite E. cbn [mbind option_bind].
    destruct (io_live _ _ Hok m') as [Hz _]; [by apply elem_of_app; right; apply elem_of_cons; left|].
    rewrite (proj2 (Z.eqb_neq _ _) Hz). exists s', (length L1), m'. split_and!; [done|done|].
    by rewrite rotate_at.
  - bind_inv Hw. destruct p0 as [s2 m2]. cbn [mbind option_bind]. destruct (m2 =? 0); [by apply IH|done].
Qed.

(** What another task does: it sends message 30. *)
Definition ex_turn (s : ipc_sys) : ipc_sys := default s (ipc_send s 30).

Lemma ipc_recv_wait_live_witness :
  exists s2, ipc_recv_wait [(fun s => s); ex_turn] (ex_ipc [20]) 5 = Some (s2, Some 30) /\ ipc_ok s2 [20].
Proof.
  assert (ipc_ok (ex_ipc [20]) [20]) as H by (apply ex_ipc_ok; [set_solver|apply NoDup_singleton]).
  destruct (ipc_recv_wait [(fun s => s)] (ex_ipc [20]) 5) as [[s1 [m|]]|] eqn:E; try (vm_compute in E; discriminate E).
  assert (ipc_ok s1 [20] /\ same_msgs (ex_ipc [20]) s1) as [H1 Hs].
  { destruct (ipc_recv_spec (ex_ipc [20]) [20] 5 H) as [(L1 & m & L2 & s' & EL & _ & Hm & _)|(_ & s' & Er & Hok & Hs)].
    - destruct L1 as [|? [|]]; [injection EL as <- <-; vm_compute in Hm; discriminate|discriminate|discriminate].
    - cbn [ipc_recv_wait] in E. rewrite Er in E. cbn in E. injection E as <-. exact (conj Hok Hs). }
  destruct (put_back_spec s1 [20] 30 H1) as (s2 & E2 & H2 & Hs2);
    [reflexivity|done|eapply same_msgs_live; [exact Hs|by eexists]|by intros [=]%list_elem_of_singleton|].
  assert (ex_turn s1 = s2) as Et by (unfold ex_turn, ipc_send; cbn [Z.eqb]; by rewrite E2). rewrite <- Et in H2, Hs2.
  assert (same_msgs (ex_ipc [20]) (ex_turn s1)) as Hs3 by (by etrans).
  assert (forall p, type_of (ex_turn s1) p = type_of (ex_ipc [20]) p) as Hty by (intros p; by apply same_msgs_type).
  destruct (ipc_recv_wait_live [(fun s => s)] ex_turn [] (ex_ipc [20]) 5 s1 [20; 30] E H2) as (s3 & i & m & Ew & Ef & H3).
  { exists 30. split; [set_solver|]. rewrite Hty. reflexivity. }
  rewrite (find_first (fun p => type_of (ex_turn s1) p = Some 5) [20] 30 []) in Ef.
  - injection Ef as <- <-. exists s3. exact (conj Ew H3).
  - intros p ->%list_elem_of_singleton. rewrite Hty. done.
  - rewrite Hty. reflexivity.
Defined.

(** ** Sending *)

(** [ipc_send] appends the message to the queue; when 256 messages wait
    the queue is unchanged and the message is dropped, with the index
    SIZE_MAX as the only trace. *)
Theorem ipc_send_correct s L p :
  ipc_ok s L -> p <> 0 -> is_Some (ipc_msgs s !! p) -> (p ∉ L) ->
  exists s', ipc_send s p = Some s' /\ same_msgs s s' /\
    if zlen L <? 256 then ipc_ok s' (L ++ [p]) else ipc_ok s' L /\ m_index <$> ipc_msgs s' !! p = Some SIZE_MAX.
Proof.
  intros H Hp Hm Hn. unfold ipc_send. rewrite (proj2 (Z.eqb_neq _ _) Hp). destruct (Z.ltb_spec (zlen L) 256) as [Hlt|Hge].
  { destruct (put_back_spec s L p H Hlt Hp Hm Hn) as (s' & -> & H' & Hs). by exists s'. }
  destruct H as [Hq Hlive Hnd]. destruct Hq as [Hl Hc Hi Hh Hsz Hr Ht He]. destruct Hm as [m Hm].
  unfold put_back, ipc_queue_enqueue. rewrite Hl. cbn [spin_lock mbind option_bind q_with_lock q_size q_capacity]. rewrite Hsz, Hc.
  destruct (Z.eqb_spec (zlen L) 256); [|lia]. cbn [mbind option_bind]. rewrite Hm. cbn [mbind option_bind]. eexists. split; [done|].
  assert (same_msgs s (ipc_unlock (mkIpc (mkQ true (q_items (ipc_q s)) 256 (q_head (ipc_q s)) (q_tail (ipc_q s)) (zlen L))
    (<[p:=set_index m SIZE_MAX]> (ipc_msgs s))))) as Hsm.
  { intros r. cbn [ipc_unlock with_queue ipc_msgs]. destruct (decide (p = r)) as [<-|]; [by rewrite lookup_insert_eq, Hm|by rewrite lookup_insert_ne]. }
  split; [exact Hsm|]. split.
  - split; [by split|intros r Hr'; split; [by apply Hlive|eapply same_msgs_live; [exact Hsm|by apply Hlive]]|done].
  - cbn [ipc_unlock with_queue ipc_msgs]. by rewrite lookup_insert_eq.
Qed.

Lemma ipc_send_correct_witness :
  exists s', ipc_send (ex_ipc [20; 10]) 30 = Some s' /\ ipc_ok s' [20; 10; 30].
Proof.
  assert (ipc_ok (ex_ipc [20; 10]) [20; 10]) as H by (apply ex_ipc_ok; [set_solver|by apply (bool_decide_unpack _)]).
  destruct (ipc_send_correct (ex_ipc [20; 10]) [20; 10] 30 H) as (s' & E & _ & Hok); [done|by eexists|set_solver|].
  exists s'. exact (conj E Hok).
Defined.

(** ** Freeing by type *)

Lemma free_all_spec t : forall B fuel s i,
  ipc_ok s B -> (length B < fuel)%nat -> 0 <= i -> (forall p, p ∈ B -> type_of s p = Some t) ->
  exists s', free_type_loop fuel s t i = Some s' /\ ipc_ok s' (drop (Z.to_nat ((zlen B - i + 1) / 2)) B).
Proof.
  induction B as [|x B IH]; intros [|fuel] s i H Hf Hi Ht; simpl in Hf; try lia; cbn [free_type_loop];
    rewrite (qr_size _ _ (io_rep _ _ H)).
  { change (zlen []) with 0. destruct (Z.ltb_spec i 0); [lia|]. exists s. by rewrite drop_nil. }
  rewrite zlen_cons. destruct (Z.ltb_spec i (1 + zlen B)) as [Hlt|Hge].
  2:{ exists s. split; [done|]. replace (Z.to_nat ((1 + zlen B - i + 1) / 2)) with 0%nat; [done|].
      assert ((1 + zlen B - i + 1) / 2 < 1) by (apply Z.div_lt_upper_bound; lia). lia. }
  destruct (take_head s x B H) as (q & m & -> & Hm & Hx & Hn & Hty & H'). cbn [mbind option_bind with_queue ipc_msgs].
  rewrite Hm. cbn [mbind option_bind]. rewrite Ht in Hty by (by apply elem_of_cons; left). injection Hty as <-.
  rewrite Z.eqb_refl. cbn [mbind option_bind].
  set (s2 := ipc_unlock (mkIpc (ipc_q (mkIpc q (ipc_msgs s))) (delete x (ipc_msgs s)))).
  assert (forall p, p ∈ B -> ipc_msgs s2 !! p = ipc_msgs s !! p) as Hk by (intros p Hp; cbn; rewrite lookup_delete_ne; [done|by intros ->]).
  destruct (IH fuel s2 (i + 1)) as (s' & E & Hok); [|lia|lia| |].
  - destruct H' as [[Hl Hc Hi' Hh Hsz Hr Htl He] Hlive Hnd]. split; [by split| |done]. intros p Hp. rewrite Hk by done. by apply Hlive.
  - intros p Hp. unfold type_of. rewrite Hk by done. apply Ht. by apply elem_of_cons; right.
  - exists s'. split; [exact E|]. replace (1 + zlen B - i + 1) with (zlen B - (i + 1) + 1 + 1 * 2) by lia. rewrite Z.div_add by lia.
    assert (0 <= (zlen B - (i + 1) + 1) / 2) by (apply Z.div_pos; lia).
    replace (Z.to_nat _) with (S (Z.to_nat ((zlen B - (i + 1) + 1) / 2))) by lia. done.
Qed.

(** [ipc_free_type] does not free all messages of the type: its loop
    counts up to a size that shrinks with every message freed, so of a queue
    that holds only messages of the type the later half stays. *)
Theorem ipc_free_type_half s L t :
  ipc_ok s L -> (forall p, p ∈ L -> type_of s p = Some t) ->
  exists s', ipc_free_type s t = Some s' /\ ipc_ok s' (drop (Z.to_nat ((zlen L + 1) / 2)) L).
Proof.
  intros H Ht. unfold ipc_free_type. rewrite (qr_size _ _ (io_rep _ _ H)).
  destruct (free_all_spec t L (S (Z.to_nat (zlen L))) s 0 H ltac:(unfold zlen; lia) ltac:(lia) Ht) as (s' & E & Hok).
  exists s'. by rewrite Z.sub_0_r in Hok.
Qed.

Lemma ipc_free_type_half_witness : exists s', ipc_free_type (ex_ipc [10; 30]) 5 = Some s' /\ ipc_ok s' [30].
Proof.
  assert (ipc_ok (ex_ipc [10; 30]) [10; 30]) as H by (apply ex_ipc_ok; [set_solver|by apply (bool_decide_unpack _)]).
  apply (ipc_free_type_half (ex_ipc [10; 30]) [10; 30] 5 H). intros p Hp. rewrite !elem_of_cons in Hp.
  destruct Hp as [->|[->|?%not_elem_of_nil]]; done.
Defined.

(** ** Giving up the queue *)

Lemma ipc_queue_release_spec s L :
  ipc_ok s L -> exists ms, ipc_queue_release s = Some ms /\ forall p, ms !! p = if bool_decide (p ∈ L) then None else ipc_msgs s !! p.
Proof.
  intros [[Hl Hc Hi Hh Hsz Hr Ht He] Hlive Hnd]. unfold ipc_queue_release. rewrite Hl, Hsz, Hc. cbn [spin_lock mbind option_bind].
  pose proof (zlen_nonneg L) as Hz.
  destruct (for_range_inv (fun k '(cur, items, ms) =>
      cur = (q_head (ipc_q s) + k) mod 256 /\ zlen items = 256 /\
      (forall j, k <= j < zlen L -> zget items ((q_head (ipc_q s) + j) mod 256) = zget L j) /\
      (forall p, ms !! p = if bool_decide (p ∈ take (Z.to_nat k) L) then None else ipc_msgs s !! p)) 0 (zlen L)
      (fun _ '(cur, items, ms) =>
        message ← zget items cur;
        '(items, ms) ←
          (if negb (message =? 0) then _ ← ms !! message; items ← zset items cur 0; Some (items, delete message ms) else Some (items, ms));
        Some (u64 (cur + 1) mod 256, items, ms)) (q_head (ipc_q s), q_items (ipc_q s), ipc_msgs s)) as ([[cur items] ms] & -> & _ & _ & _ & Hms).
  - done.
  - split_and!; [rewrite Z.add_0_r, Z.mod_small; lia|done|intros j Hj; by apply He|].
    intros p. rewrite bool_decide_eq_false_2; [done|]. apply not_elem_of_nil.
  - intros k [[cur items] ms] Hk (-> & Hlen & Hel & Hms). rewrite Hel by lia.
    destruct (zget_ok L k ltac:(lia)) as [x Hx]. rewrite Hx. cbn [mbind option_bind].
    assert (L !! Z.to_nat k = Some x) as Hx' by (unfold zget in Hx; destruct (Z.ltb_spec k 0); [lia|done]).
    destruct (Hlive x) as [Hx0 [m Hm]]; [by eapply list_elem_of_lookup_2|]. rewrite (proj2 (Z.eqb_neq _ _) Hx0). cbn [negb].
    assert (x ∉ take (Z.to_nat k) L) as Hnt.
    { intros (j & Hj)%list_elem_of_lookup. apply lookup_take_Some in Hj as [Hj Hlt]. rewrite NoDup_alt in Hnd.
      specialize (Hnd _ _ _ Hj Hx'). lia. }
    rewrite Hms, bool_decide_eq_false_2, Hm by done. cbn [mbind option_bind].
    assert (0 <= (q_head (ipc_q s) + k) mod 256 < 256) as Hcur by (apply Z.mod_pos_bound; lia).
    destruct (zset items ((q_head (ipc_q s) + k) mod 256) 0) as [items'|] eqn:Es; [|rewrite zset_ok in Es by lia; done].
    cbn [mbind option_bind]. eexists. split; [done|]. cbv beta iota. split_and!.
    + rewrite ring_next by done. rewrite Z.add_mod_idemp_l by lia. f_equal. lia.
    + by rewrite (zset_len _ _ _ _ Es).
    + intros j Hj. rewrite (zset_get _ _ _ _ _ Es). case_decide as E; [|apply Hel; lia]. exfalso.
      pose proof (Z.div_mod (q_head (ipc_q s) + k) 256 ltac:(lia)). pose proof (Z.div_mod (q_head (ipc_q s) + j) 256 ltac:(lia)). lia.
    + intros p. replace (Z.to_nat (k + 1)) with (S (Z.to_nat k)) by lia. rewrite (take_S_r _ _ x) by done.
      destruct (decide (x = p)) as [<-|Hne].
      * rewrite lookup_delete_eq, bool_decide_eq_true_2; [done|]. apply elem_of_app. right. by apply list_elem_of_singleton.
      * rewrite lookup_delete_ne, Hms by done. apply (f_equal (fun b : bool => if b then None else ipc_msgs s !! p)).
        apply bool_decide_ext. rewrite elem_of_app, list_elem_of_singleton. naive_solver.
  - cbn [mbind option_bind]. exists ms. split; [done|]. intros p. rewrite Hms. unfold zlen. by rewrite Nat2Z.id, firstn_all.
Qed.
