(* ===== verification/Pipe.v ===== *)
(** * Pipes ([src/src/fs/pipefs.c])

    A pipe is a buffer with a fill level, shared by a reading and a writing
    end. Each end has a record of its own, reached through a file-system node.
    Pipes, ends and nodes are heap objects; using one that was freed is [None].

    A task that waits gives way to the others: a [turn] is what they do until
    it wakes up, with the reason it wakes up for. *)

From stdpp Require Import gmap.
From S2P Require Import Prelude.

Definition PIPE_BUFF : Z := 64 * 1024.
Definition PIPE_ATOMIC_MAX : Z := MIN PIPE_BUFF PAGE_SIZE.
Definition EOK : Z := 0.
Definition EINTR : Z := 4.
Definition EWOULDBLOCK : Z := 11.
Definition EBUSY : Z := 16.
Definition EINVAL : Z := 22.
Definition ENOTTY : Z := 25.
Definition EPIPE : Z := 32.
Definition EPOLLIN : Z := 1.
Definition EPOLLOUT : Z := 4.
Definition EPOLLERR : Z := 8.
Definition EPOLLHUP : Z := 16.
Definition O_NONBLOCK : Z := 2048.
Definition FIONREAD : Z := 0x541B.

Record pipe_info_t := mkPipe {
  pi_ptr : Z;
  pi_buf : list Z;
  pi_assigned : Z;
  write_fds : Z;
  read_fds : Z;
  pi_active : Z;
  pi_free_pending : bool;
  pi_lock : spin_t;
  read_node : Z;
  write_node : Z;
}.

Record pipe_specific_t := mkSpec {
  sp_write : bool;
  sp_info : Z;
  sp_node : Z;
  sp_active : Z;
  sp_free_pending : bool;
}.

(** The fields of a file-system node that pipes use; its name and path strings
    belong to it and go with it. *)
Record vnode := mkNode { vn_size : Z; vn_flags : Z; vn_handle : Z; vn_refcount : Z; vn_parent : Z; vn_children : list Z }.

(** The heap, and the poll notifications sent so far. *)
Record pipe_sys := mkPs {
  ps_pipes : gmap Z pipe_info_t;
  ps_specs : gmap Z pipe_specific_t;
  ps_nodes : gmap Z vnode;
  ps_notes : list (Z * Z);
}.

Definition put_pipe (s : pipe_sys) (p : Z) (x : pipe_info_t) : pipe_sys :=
  mkPs (<[p := x]> (ps_pipes s)) (ps_specs s) (ps_nodes s) (ps_notes s).
Definition put_spec (s : pipe_sys) (f : Z) (x : pipe_specific_t) : pipe_sys :=
  mkPs (ps_pipes s) (<[f := x]> (ps_specs s)) (ps_nodes s) (ps_notes s).
Definition put_node (s : pipe_sys) (n : Z) (x : vnode) : pipe_sys :=
  mkPs (ps_pipes s) (ps_specs s) (<[n := x]> (ps_nodes s)) (ps_notes s).

Definition mod_pipe (s : pipe_sys) (p : Z) (g : pipe_info_t -> pipe_info_t) : option pipe_sys :=
  x ← ps_pipes s !! p; Some (put_pipe s p (g x)).
Definition mod_spec (s : pipe_sys) (f : Z) (g : pipe_specific_t -> pipe_specific_t) : option pipe_sys :=
  x ← ps_specs s !! f; Some (put_spec s f (g x)).
Definition mod_node (s : pipe_sys) (n : Z) (g : vnode -> vnode) : option pipe_sys :=
  x ← ps_nodes s !! n; Some (put_node s n (g x)).

Definition free_pipe_at (s : pipe_sys) (p : Z) : option pipe_sys :=
  _ ← ps_pipes s !! p; Some (mkPs (delete p (ps_pipes s)) (ps_specs s) (ps_nodes s) (ps_notes s)).
Definition free_spec_at (s : pipe_sys) (f : Z) : option pipe_sys :=
  _ ← ps_specs s !! f; Some (mkPs (ps_pipes s) (delete f (ps_specs s)) (ps_nodes s) (ps_notes s)).

Definition pi_with_lock (x : pipe_info_t) (l : spin_t) : pipe_info_t :=
  mkPipe (pi_ptr x) (pi_buf x) (pi_assigned x) (write_fds x) (read_fds x) (pi_active x) (pi_free_pending x) l (read_node x) (write_node x).
Definition pi_with_active (x : pipe_info_t) (n : Z) : pipe_info_t :=
  mkPipe (pi_ptr x) (pi_buf x) (pi_assigned x) (write_fds x) (read_fds x) n (pi_free_pending x) (pi_lock x) (read_node x) (write_node x).
Definition pi_with_data (x : pipe_info_t) (ptr : Z) (buf : list Z) : pipe_info_t :=
  mkPipe ptr buf (i32 ptr) (write_fds x) (read_fds x) (pi_active x) (pi_free_pending x) (pi_lock x) (read_node x) (write_node x).
Definition pi_with_pending (x : pipe_info_t) : pipe_info_t :=
  mkPipe (pi_ptr x) (pi_buf x) (pi_assigned x) (write_fds x) (read_fds x) (pi_active x) true (pi_lock x) (read_node x) (write_node x).
Definition sp_with_active (x : pipe_specific_t) (n : Z) : pipe_specific_t :=
  mkSpec (sp_write x) (sp_info x) (sp_node x) n (sp_free_pending x).
Definition sp_with_pending (x : pipe_specific_t) : pipe_specific_t :=
  mkSpec (sp_write x) (sp_info x) (sp_node x) (sp_active x) true.

Definition lock_pipe (s : pipe_sys) (p : Z) : option pipe_sys :=
  x ← ps_pipes s !! p; l ← spin_lock (pi_lock x); Some (put_pipe s p (pi_with_lock x l)).
Definition unlock_pipe (s : pipe_sys) (p : Z) : option pipe_sys :=
  mod_pipe s p (fun x => pi_with_lock x (spin_unlock (pi_lock x))).

(** [vfs_poll_notify]: wakes the tasks that wait on the node. *)
Definition vfs_poll_notify (s : pipe_sys) (n events : Z) : option pipe_sys :=
  if (n =? 0) || (events =? 0) then Some s
  else _ ← ps_nodes s !! n; Some (mkPs (ps_pipes s) (ps_specs s) (ps_nodes s) (ps_notes s ++ [(n, events)])).

(** [node->size = size], unless the node is NULL. *)
Definition set_node_size (s : pipe_sys) (n size : Z) : option pipe_sys :=
  if negb (n =? 0) then
    mod_node s n (fun v => mkNode size (vn_flags v) (vn_handle v) (vn_refcount v) (vn_parent v) (vn_children v))
  else Some s.

Definition pipefs_update_nodes (s : pipe_sys) (p : Z) : option pipe_sys :=
  x ← ps_pipes s !! p;
  s ← set_node_size s (read_node x) (pi_ptr x);
  set_node_size s (write_node x) (pi_ptr x).

(** For an end that is not NULL. *)
Definition pipefs_enter (s : pipe_sys) (f : Z) : option pipe_sys :=
  sp ← ps_specs s !! f;
  let p := sp_info sp in
  if p =? 0 then Some s
  else
    s ← lock_pipe s p;
    s ← mod_spec s f (fun sp => sp_with_active sp (i32 (sp_active sp + 1)));
    s ← mod_pipe s p (fun x => pi_with_active x (i32 (pi_active x + 1)));
    unlock_pipe s p.

Definition pipefs_release_node (s : pipe_sys) (n : Z) : option pipe_sys :=
  if n =? 0 then Some s
  else
    v ← ps_nodes s !! n;
    s ← (if negb (vn_parent v =? 0) then
           mod_node s (vn_parent v) (fun w =>
             mkNode (vn_size w) (vn_flags w) (vn_handle w) (vn_refcount w) (vn_parent w) (filter (fun c => c <> n) (vn_children w)))
         else Some s);
    _ ← ps_nodes s !! n;
    Some (mkPs (ps_pipes s) (ps_specs s) (delete n (ps_nodes s)) (ps_notes s)).

Definition clear_handle (s : pipe_sys) (n : Z) : option pipe_sys :=
  if negb (n =? 0) then
    mod_node s n (fun v => mkNode (vn_size v) (vn_flags v) 0 (vn_refcount v) (vn_parent v) (vn_children v))
  else Some s.

(** The part of [pipefs_leave] under the lock: what is to be freed. *)
Definition leave_locked (s : pipe_sys) (f p : Z) : option (pipe_sys * (bool * bool)) :=
  s ← lock_pipe s p;
  s ← mod_spec s f (fun sp => sp_with_active sp (i32 (sp_active sp - 1)));
  s ← mod_pipe s p (fun x => pi_with_active x (i32 (pi_active x - 1)));
  sp ← ps_specs s !! f;
  x ← ps_pipes s !! p;
  let free_spec := sp_free_pending sp && (sp_active sp =? 0) in
  let free_pipe := pi_free_pending x && (pi_active x =? 0) && (read_fds x =? 0) && (write_fds x =? 0) in
  s ← unlock_pipe s p;
  Some (s, (free_spec, free_pipe)).

(** The part after the lock is given back. *)
Definition leave_free (s : pipe_sys) (f p : Z) (free_spec free_pipe : bool) : option pipe_sys :=
  sp ← ps_specs s !! f;
  let node := sp_node sp in
  s ← (if free_spec then s ← clear_handle s node; free_spec_at s f else Some s);
  s ← (if free_pipe then free_pipe_at s p else Some s);
  if free_spec && negb (node =? 0) then
    v ← ps_nodes s !! node;
    if vn_refcount v =? 0 then pipefs_release_node s node else Some s
  else Some s.

Definition pipefs_leave (s : pipe_sys) (f : Z) : option pipe_sys :=
  sp ← ps_specs s !! f;
  let p := sp_info sp in
  if p =? 0 then Some s
  else '(s, (free_spec, free_pipe)) ← leave_locked s f p; leave_free s f p free_spec free_pipe.

(** [spec->node && (spec->node->flags & O_NONBLOCK)] *)
Definition nonblocking (s : pipe_sys) (sp : pipe_specific_t) : option bool :=
  if sp_node sp =? 0 then Some false
  else v ← ps_nodes s !! sp_node sp; Some (negb (Z.land (vn_flags v) O_NONBLOCK =? 0)).

Definition turn : Type := pipe_sys -> pipe_sys * Z.

(** A call returns, or still waits when the given turns are used up. *)
Inductive outcome (A : Type) := Done (a : A) | Waiting.
Arguments Done {A} a.
Arguments Waiting {A}.

(** The bytes a read moves, and the buffer after [memmove]. *)
Definition take_bytes (x : pipe_info_t) (n : Z) : option (list Z * list Z) :=
  if (0 <=? n) && (n <=? pi_ptr x) && (pi_ptr x <=? zlen (pi_buf x)) then
    let rest := Z.to_nat (pi_ptr x - n) in
    Some (take (Z.to_nat n) (pi_buf x), take rest (drop (Z.to_nat n) (pi_buf x)) ++ drop rest (pi_buf x))
  else None.

(** [memcpy(&pipe->buf[pipe->ptr], addr, n)] *)
Definition store_bytes (x : pipe_info_t) (addr : list Z) (n : Z) : option (list Z) :=
  if (0 <=? n) && (n <=? zlen addr) && (0 <=? pi_ptr x) && (pi_ptr x + n <=? zlen (pi_buf x)) then
    Some (take (Z.to_nat (pi_ptr x)) (pi_buf x) ++ take (Z.to_nat n) addr ++ drop (Z.to_nat (pi_ptr x + n)) (pi_buf x))
  else None.

(** The end of both transfers: the fill level and the node sizes are set, the
    lock is given back, and the tasks at the other end are woken. *)
Definition finish_transfer (s : pipe_sys) (p ptr : Z) (buf : list Z) (other : pipe_info_t -> Z) (events : Z) : option pipe_sys :=
  s ← mod_pipe s p (fun x => pi_with_data x ptr buf);
  s ← pipefs_update_nodes s p;
  s ← unlock_pipe s p;
  x ← ps_pipes s !! p;
  if negb (other x =? 0) then vfs_poll_notify s (other x) events else Some s.

(** One round of the loop of [pipefs_read], up to the wait: the result and the
    bytes stored at [addr], or [None] when there is nothing to read yet. *)
Definition read_attempt (s : pipe_sys) (f p size : Z) : option (pipe_sys * option (Z * list Z)) :=
  s ← lock_pipe s p;
  x ← ps_pipes s !! p;
  if pi_ptr x >? 0 then
    let to_read := u32 (MIN size (pi_ptr x)) in
    '(data, buf) ← take_bytes x to_read;
    s ← finish_transfer s p (u32 (pi_ptr x - to_read)) buf write_node EPOLLOUT;
    Some (s, Some (to_read, data))
  else if write_fds x =? 0 then
    s ← unlock_pipe s p; Some (s, Some (0, []))
  else
    sp ← ps_specs s !! f;
    nb ← nonblocking s sp;
    s ← unlock_pipe s p;
    if nb : bool then Some (s, Some (u64 (- EWOULDBLOCK), [])) else Some (s, None).

Fixpoint read_loop (turns : list turn) (s : pipe_sys) (f p size : Z) : option (pipe_sys * outcome (Z * list Z)) :=
  '(s, r) ← read_attempt s f p size;
  match r with
  | Some r => Some (s, Done r)
  | None =>
      match turns with
      | [] => Some (s, Waiting)
      | g :: turns =>
          let '(s, reason) := g s in
          if negb (reason =? EOK) then Some (s, Done (u64 (- EINTR), [])) else read_loop turns s f p size
      end
  end.

Definition pipefs_read (turns : list turn) (s : pipe_sys) (f size : Z) : option (pipe_sys * outcome (Z * list Z)) :=
  let size := if size >? PIPE_BUFF then PIPE_BUFF else size in
  if size =? 0 then Some (s, Done (0, []))
  else if f =? 0 then Some (s, Done (SIZE_MAX, []))
  else
    sp ← ps_specs s !! f;
    if sp_write sp then Some (s, Done (SIZE_MAX, []))
    else if sp_info sp =? 0 then Some (s, Done (SIZE_MAX, []))
    else
      s ← pipefs_enter s f;
      '(s, r) ← read_loop turns s f (sp_info sp) size;
      match r with
      | Done r => s ← pipefs_leave s f; Some (s, Done r)
      | Waiting => Some (s, Waiting)
      end.

(** One round of [pipe_write_inner], up to the wait: the result, or [None] when
    there is not enough room. *)
Definition write_attempt (s : pipe_sys) (p : Z) (addr : list Z) (size : Z) (atomic : bool) : option (pipe_sys * option Z) :=
  s ← lock_pipe s p;
  x ← ps_pipes s !! p;
  if read_fds x =? 0 then s ← unlock_pipe s p; Some (s, Some (u64 (- EPIPE)))
  else
    let available := u64 (PIPE_BUFF - pi_ptr x) in
    if (available >? 0) && (negb atomic || (available >=? size)) then
      let to_write := if atomic then size else MIN size available in
      buf ← store_bytes x addr to_write;
      s ← finish_transfer s p (u32 (pi_ptr x + to_write)) buf read_node EPOLLIN;
      Some (s, Some to_write)
    else s ← unlock_pipe s p; Some (s, None).

(** The turns that are left come with the result. *)
Fixpoint pipe_write_inner (turns : list turn) (s : pipe_sys) (f : Z) (addr : list Z) (size : Z) (atomic allow_wait : bool)
    : option (pipe_sys * list turn * outcome Z) :=
  sp ← ps_specs s !! f;
  '(s, r) ← write_attempt s (sp_info sp) addr size atomic;
  match r with
  | Some r => Some (s, turns, Done r)
  | None =>
      if negb allow_wait then Some (s, turns, Done (u64 (- EWOULDBLOCK)))
      else
        match turns with
        | [] => Some (s, [], Waiting)
        | g :: turns =>
            let '(s, reason) := g s in
            if negb (reason =? EOK) then Some (s, turns, Done (u64 (- EINTR)))
            else pipe_write_inner turns s f addr size atomic allow_wait
        end
  end.

(** The loop of [pipefs_write]: the number of bytes written; every round
    writes at least one. *)
Fixpoint write_loop (fuel : nat) (turns : list turn) (s : pipe_sys) (f : Z) (addr : list Z) (written size : Z) (atomic nonblock : bool)
    : option (pipe_sys * outcome Z) :=
  match fuel with
  | O => None
  | S fuel =>
      if written <? size then
        '(s, turns, r) ← pipe_write_inner turns s f (drop (Z.to_nat written) addr) (size - written) atomic (negb nonblock);
        match r with
        | Waiting => Some (s, Waiting)
        | Done r =>
            let ret := i64 r in
            if ret <? 0 then Some (s, Done written)
            else if ret =? 0 then Some (s, Done written)
            else write_loop fuel turns s f addr (u64 (written + ret)) size atomic nonblock
        end
      else Some (s, Done written)
  end.

Definition pipefs_write (turns : list turn) (s : pipe_sys) (f : Z) (addr : list Z) (size : Z) : option (pipe_sys * outcome Z) :=
  if f =? 0 then Some (s, Done SIZE_MAX)
  else
    sp ← ps_specs s !! f;
    if (sp_info sp =? 0) || negb (sp_write sp) then Some (s, Done SIZE_MAX)
    else
      let atomic := size <=? PIPE_ATOMIC_MAX in
      nonblock ← nonblocking s sp;
      s ← pipefs_enter s f;
      '(s, r) ← write_loop (S (Z.to_nat size)) turns s f addr 0 size atomic nonblock;
      match r with
      | Waiting => Some (s, Waiting)
      | Done written =>
          s ← pipefs_leave s f;
          if negb (written =? 0) then Some (s, Done written) else Some (s, Done (u64 (- EWOULDBLOCK)))
      end.

(** The result, and the integer stored at [arg]. *)
Definition pipefs_ioctl (s : pipe_sys) (f cmd arg : Z) : option (Z * option Z) :=
  if f =? 0 then Some (- EINVAL, None)
  else
    sp ← ps_specs s !! f;
    if (sp_info sp =? 0) || (arg =? 0) then Some (- EINVAL, None)
    else if cmd =? FIONREAD then x ← ps_pipes s !! sp_info sp; Some (EOK, Some (i32 (pi_ptr x)))
    else Some (- ENOTTY, None).

(** The counts of an end that is closed: the new pipe, whether the end's record
    and the pipe go now or later, and whether the other side is told. *)
Definition close_end (x : pipe_info_t) (write : bool) : pipe_info_t * bool :=
  if write then
    let n := if write_fds x >? 0 then write_fds x - 1 else write_fds x in
    (mkPipe (pi_ptr x) (pi_buf x) (pi_assigned x) n (read_fds x) (pi_active x) (pi_free_pending x) (pi_lock x)
       (read_node x) (if n =? 0 then 0 else write_node x), n =? 0)
  else
    let n := if read_fds x >? 0 then read_fds x - 1 else read_fds x in
    (mkPipe (pi_ptr x) (pi_buf x) (pi_assigned x) (write_fds x) n (pi_active x) (pi_free_pending x) (pi_lock x)
       (if n =? 0 then 0 else read_node x) (write_node x), n =? 0).

Definition pipefs_close (s : pipe_sys) (f : Z) : option pipe_sys :=
  if f =? 0 then Some s
  else
    sp ← ps_specs s !! f;
    let p := sp_info sp in
    if p =? 0 then s ← clear_handle s (sp_node sp); free_spec_at s f
    else
      s ← lock_pipe s p;
      x ← ps_pipes s !! p;
      let rnode := read_node x in
      let wnode := write_node x in
      let '(x, last) := close_end x (sp_write sp) in
      let free_spec := last && (sp_active sp =? 0) in
      s ← (if last && negb (sp_active sp =? 0) then mod_spec s f sp_with_pending else Some s);
      let ends := (write_fds x =? 0) && (read_fds x =? 0) in
      let free_pipe := ends && (pi_active x =? 0) in
      let x := if ends && negb (pi_active x =? 0) then pi_with_pending x else x in
      s ← unlock_pipe (put_pipe s p x) p;
      s ← (if last && sp_write sp && negb (rnode =? 0) then vfs_poll_notify s rnode EPOLLHUP else Some s);
      s ← (if last && negb (sp_write sp) && negb (wnode =? 0) then vfs_poll_notify s wnode EPOLLERR else Some s);
      s ← (if free_spec then s ← clear_handle s (sp_node sp); free_spec_at s f else Some s);
      if free_pipe then free_pipe_at s p else Some s.

Definition pipefs_poll (s : pipe_sys) (f events : Z) : option (pipe_sys * Z) :=
  if f =? 0 then Some (s, 0)
  else
    sp ← ps_specs s !! f;
    if sp_info sp =? 0 then Some (s, 0)
    else
      s ← lock_pipe s (sp_info sp);
      x ← ps_pipes s !! sp_info sp;
      let out :=
        if negb (sp_write sp) then
          let eof := write_fds x =? 0 in
          Z.lor (if eof then EPOLLHUP else 0)
            (if negb (Z.land events EPOLLIN =? 0) && ((pi_ptr x >? 0) || eof) then EPOLLIN else 0)
        else
          let broken := read_fds x =? 0 in
          Z.lor (if broken then EPOLLERR else 0)
            (if negb (Z.land events EPOLLOUT =? 0) && negb broken && (pi_ptr x <? PIPE_BUFF) then EPOLLOUT else 0) in
      s ← unlock_pipe s (sp_info sp);
      Some (s, out).

Definition pipefs_stat (s : pipe_sys) (f node : Z) : option pipe_sys :=
  if f =? 0 then Some s
  else
    sp ← ps_specs s !! f;
    if sp_info sp =? 0 then Some s
    else
      x ← ps_pipes s !! sp_info sp;
      mod_node s node (fun v => mkNode (pi_ptr x) (vn_flags v) (vn_handle v) (vn_refcount v) (vn_parent v) (vn_children v)).
