(* ===== verification/PipeSpec.v ===== *)
(** * Pipes as byte queues

    The contents of a pipe, and what the operations of [Pipe] do to them and
    to the lifetime of its records. *)

From stdpp Require Import gmap.
From S2P Require Import Prelude Pipe.

Implicit Types (s : pipe_sys) (x : pipe_info_t) (sp : pipe_specific_t).

(** The bytes in the pipe, oldest first. *)
Definition content x : list Z := take (Z.to_nat (pi_ptr x)) (pi_buf x).

Record pipe_wf x : Prop := {
  pw_buf : zlen (pi_buf x) = 65536;
  pw_ptr : 0 <= pi_ptr x <= 65536;
  pw_lock : pi_lock x = false;
  pw_active : 0 <= pi_active x < two31;
}.

Definition node_ok s (n : Z) : Prop := n = 0 \/ is_Some (ps_nodes s !! n).

(** The end [f] of the pipe [p], both alive. *)
Record end_at s (f p : Z) sp x : Prop := {
  ea_spec : ps_specs s !! f = Some sp;
  ea_pipe : ps_pipes s !! p = Some x;
  ea_f : f <> 0;
  ea_p : p <> 0;
  ea_info : sp_info sp = p;
  ea_pending : sp_free_pending sp = false;
  ea_pi_pending : pi_free_pending x = false;
  ea_active : 0 <= sp_active sp < two31 - 1;
  ea_pi_active : pi_active x < two31 - 1;
  ea_node : node_ok s (sp_node sp);
  ea_rnode : node_ok s (read_node x);
  ea_wnode : node_ok s (write_node x);
  ea_wf : pipe_wf x;
}.

(** What a node keeps when its size changes. *)
Definition vn_key (v : vnode) := (vn_flags v, vn_handle v, vn_refcount v, vn_parent v, vn_children v).

Definition same_nodes s s' : Prop := forall n, vn_key <$> ps_nodes s' !! n = vn_key <$> ps_nodes s !! n.

#[export] Instance same_nodes_preorder : PreOrder same_nodes.
Proof. split; [by intros s n|]. intros s1 s2 s3 H1 H2 n. by rewrite H2, H1. Qed.

Lemma same_nodes_ok s s' n : same_nodes s s' -> node_ok s n -> node_ok s' n.
Proof.
  intros H [->|[v Hv]]; [by left|]. specialize (H n). rewrite Hv in H. right. destruct (ps_nodes s' !! n); [by eexists|done].
Qed.

(** Only node sizes and the notifications differ. *)
Definition same_heap s s' : Prop := ps_pipes s' = ps_pipes s /\ ps_specs s' = ps_specs s /\ same_nodes s s'.

#[export] Instance same_heap_preorder : PreOrder same_heap.
Proof. split; [by intros s; split_and!|]. intros s1 s2 s3 (P1 & S1 & N1) (P2 & S2 & N2). split_and!; [congruence|congruence|by etrans]. Qed.

Lemma set_node_size_spec s n z : node_ok s n -> exists s', set_node_size s n z = Some s' /\ same_heap s s'.
Proof.
  intros Hn. unfold set_node_size. destruct (Z.eqb_spec n 0) as [->|Hne]; cbn [negb]; [by exists s|].
  destruct Hn as [->|[v Hv]]; [done|]. unfold mod_node. rewrite Hv. cbn [mbind option_bind]. eexists. split; [done|]. split_and!; [done|done|].
  intros m. cbn. destruct (decide (n = m)) as [<-|]; [by rewrite lookup_insert_eq, Hv|by rewrite lookup_insert_ne].
Qed.

Lemma update_nodes_spec s p x :
  ps_pipes s !! p = Some x -> node_ok s (read_node x) -> node_ok s (write_node x) ->
  exists s', pipefs_update_nodes s p = Some s' /\ same_heap s s'.
Proof.
  intros Hp Hr Hw. unfold pipefs_update_nodes. rewrite Hp. cbn [mbind option_bind].
  destruct (set_node_size_spec s (read_node x) (pi_ptr x) Hr) as (s1 & -> & H1). cbn [mbind option_bind].
  destruct (set_node_size_spec s1 (write_node x) (pi_ptr x)) as (s2 & -> & H2); [eapply same_nodes_ok; [apply H1|done]|].
  exists s2. split; [done|by etrans].
Qed.

Lemma notify_spec s n e : node_ok s n -> exists s', vfs_poll_notify s n e = Some s' /\ same_heap s s'.
Proof.
  intros Hn. unfold vfs_poll_notify. destruct (Z.eqb_spec n 0) as [->|Hne]; cbn [orb]; [by exists s|].
  destruct (e =? 0); [by exists s|]. destruct Hn as [->|[v Hv]]; [done|]. rewrite Hv. cbn [mbind option_bind]. eexists. split; [done|].
  by split_and!.
Qed.

(** A critical section on the pipe: lock, change it, unlock. *)
Lemma lock_spec s p x : ps_pipes s !! p = Some x -> pi_lock x = false -> lock_pipe s p = Some (put_pipe s p (pi_with_lock x true)).
Proof. intros Hp Hl. unfold lock_pipe. rewrite Hp. cbn [mbind option_bind]. by rewrite Hl. Qed.

Lemma unlock_spec s p x : ps_pipes s !! p = Some x -> unlock_pipe s p = Some (put_pipe s p (pi_with_lock x false)).
Proof. intros Hp. unfold unlock_pipe, mod_pipe. by rewrite Hp. Qed.

Lemma lookup_put s p x : ps_pipes (put_pipe s p x) !! p = Some x.
Proof. cbn. by rewrite lookup_insert_eq. Qed.

Lemma put_put s p x y : put_pipe (put_pipe s p x) p y = put_pipe s p y.
Proof. unfold put_pipe. cbn. by rewrite insert_insert_eq. Qed.

(** ** Entering and leaving *)

(** The state with the two activity counts of an end changed by [d]. *)
Definition counted s (f p : Z) sp x (d : Z) : pipe_sys :=
  put_pipe (put_spec s f (sp_with_active sp (sp_active sp + d))) p (pi_with_active x (pi_active x + d)).

Lemma enter_spec s f p sp x : end_at s f p sp x -> pipefs_enter s f = Some (counted s f p sp x 1).
Proof.
  intros H. pose proof (ea_wf _ _ _ _ _ H) as W. unfold pipefs_enter. rewrite (ea_spec _ _ _ _ _ H). cbn [mbind option_bind].
  rewrite (ea_info _ _ _ _ _ H), (proj2 (Z.eqb_neq _ _) (ea_p _ _ _ _ _ H)).
  rewrite (lock_spec s p x) by (apply H || apply W). cbn [mbind option_bind].
  unfold mod_spec. cbn [put_pipe ps_specs]. rewrite (ea_spec _ _ _ _ _ H). cbn [mbind option_bind].
  unfold mod_pipe. cbn [put_spec put_pipe ps_pipes]. rewrite lookup_insert_eq. cbn [mbind option_bind].
  rewrite (unlock_spec _ _ (pi_with_active (pi_with_lock x true) (i32 (pi_active x + 1)))) by (cbn; by rewrite lookup_insert_eq).
  pose proof (ea_active _ _ _ _ _ H). pose proof (ea_pi_active _ _ _ _ _ H). pose proof (pw_active _ W). 
  unfold counted, put_pipe, put_spec. cbn. rewrite !i32_id by lia. rewrite !insert_insert_eq. do 3 f_equal. unfold pi_with_lock, pi_with_active. cbn. by rewrite (pw_lock _ W).
Qed.

Lemma counted_end s f p sp x : end_at s f p sp x ->
  ps_specs (counted s f p sp x 1) !! f = Some (sp_with_active sp (sp_active sp + 1)) /\
  ps_pipes (counted s f p sp x 1) !! p = Some (pi_with_active x (pi_active x + 1)).
Proof. intros H. cbn. by rewrite !lookup_insert_eq. Qed.

(** Leaving while neither record waits to be freed: the counts go down. *)
Lemma leave_locked_spec s f p sp x :
  ps_specs s !! f = Some sp -> ps_pipes s !! p = Some x -> sp_info sp = p -> pi_lock x = false ->
  sp_free_pending sp = false -> pi_free_pending x = false -> 0 < sp_active sp < two31 -> 0 < pi_active x < two31 ->
  leave_locked s f p = Some (put_pipe (put_spec s f (sp_with_active sp (sp_active sp - 1))) p (pi_with_active x (pi_active x - 1)), (false, false)).
Proof.
  intros Hf Hp Hi Hl Hfp Hpp Ha Hpa. unfold leave_locked. rewrite (lock_spec s p x) by done. cbn [mbind option_bind].
  unfold mod_spec. cbn [put_pipe ps_specs]. rewrite Hf. cbn [mbind option_bind].
  unfold mod_pipe. cbn [put_spec put_pipe ps_pipes]. rewrite lookup_insert_eq. cbn [mbind option_bind put_pipe ps_specs ps_pipes]. rewrite !lookup_insert_eq.
  cbn [mbind option_bind]. cbn [pi_with_active pi_with_lock sp_with_active sp_free_pending pi_free_pending].
  cbn [put_spec ps_specs]. rewrite lookup_insert_eq. cbn [mbind option_bind sp_with_active sp_free_pending]. rewrite Hfp, Hpp. cbn [andb].
  unfold unlock_pipe, mod_pipe. cbn [put_pipe put_spec ps_pipes]. rewrite lookup_insert_eq. cbn [mbind option_bind]. 
  unfold put_pipe, put_spec. cbn. rewrite !i32_id by lia. rewrite !insert_insert_eq. do 4 f_equal. unfold pi_with_lock, pi_with_active. cbn. by rewrite Hl.
Qed.

Lemma leave_spec s f p sp x :
  ps_specs s !! f = Some sp -> ps_pipes s !! p = Some x -> sp_info sp = p -> p <> 0 -> pi_lock x = false ->
  sp_free_pending sp = false -> pi_free_pending x = false -> 0 < sp_active sp < two31 -> 0 < pi_active x < two31 ->
  pipefs_leave s f = Some (put_pipe (put_spec s f (sp_with_active sp (sp_active sp - 1))) p (pi_with_active x (pi_active x - 1))).
Proof.
  intros Hf Hp Hi Hp0 Hl Hfp Hpp Ha Hpa. unfold pipefs_leave. rewrite Hf. cbn [mbind option_bind]. rewrite Hi, (proj2 (Z.eqb_neq _ _) Hp0).
  rewrite (leave_locked_spec s f p sp x) by done. cbn [mbind option_bind]. unfold leave_free. cbn [put_pipe put_spec ps_specs].
  rewrite lookup_insert_eq. by cbn [mbind option_bind].
Qed.

(** ** Buffers *)

Lemma take_bytes_spec x n :
  pipe_wf x -> 0 <= n <= pi_ptr x ->
  exists buf, take_bytes x n = Some (take (Z.to_nat n) (content x), buf) /\ zlen buf = 65536 /\
    take (Z.to_nat (pi_ptr x - n)) buf = drop (Z.to_nat n) (content x).
Proof.
  intros W Hn. pose proof (pw_buf _ W) as Hb. pose proof (pw_ptr _ W) as Hp. unfold take_bytes. rewrite Hb.
  replace ((0 <=? n) && (n <=? pi_ptr x) && (pi_ptr x <=? 65536)) with true by lia. unfold zlen in Hb. eexists. split_and!.
  - unfold content. rewrite take_take. by replace (Z.to_nat n `min` Z.to_nat (pi_ptr x))%nat with (Z.to_nat n) by lia.
  - unfold zlen. rewrite length_app, length_take, !length_drop. lia.
  - rewrite take_app_le by (rewrite length_take, length_drop; lia). rewrite take_take, Nat.min_id. unfold content.
    rewrite skipn_firstn_comm. f_equal. lia.
Qed.

Lemma store_bytes_spec x addr n :
  pipe_wf x -> 0 <= n <= zlen addr -> pi_ptr x + n <= 65536 ->
  exists buf, store_bytes x addr n = Some buf /\ zlen buf = 65536 /\
    take (Z.to_nat (pi_ptr x + n)) buf = content x ++ take (Z.to_nat n) addr.
Proof.
  intros W Hn Hr. pose proof (pw_buf _ W) as Hb. pose proof (pw_ptr _ W) as Hp. unfold store_bytes. rewrite Hb.
  replace ((0 <=? n) && (n <=? zlen addr) && (0 <=? pi_ptr x) && (pi_ptr x + n <=? 65536)) with true by lia. unfold zlen in Hb, Hn. eexists. split_and!; [done| |].
  - unfold zlen. rewrite !length_app, !length_take, length_drop. lia.
  - unfold content. rewrite app_assoc. rewrite take_app_length'; [done|]. rewrite length_app, !length_take. lia.
Qed.
