(* ===== verification/PipeProps.v ===== *)
(** * What pipes promise *)

From stdpp Require Import gmap.
From S2P Require Import Prelude Fresh Pipe PipeSpec.

Implicit Types (s : pipe_sys) (x : pipe_info_t) (sp : pipe_specific_t).

(** A pipe with other contents; everything but the data as before. *)
Definition refilled x (C : list Z) x' : Prop :=
  pipe_wf x' /\ content x' = C /\ write_fds x' = write_fds x /\ read_fds x' = read_fds x /\ pi_active x' = pi_active x /\
  pi_free_pending x' = pi_free_pending x /\ read_node x' = read_node x /\ write_node x' = write_node x.

Lemma transfer_spec s p x ptr buf C other e :
  ps_pipes s !! p = Some x -> pipe_wf x -> node_ok s (read_node x) -> node_ok s (write_node x) -> other = read_node \/ other = write_node ->
  zlen buf = 65536 -> 0 <= ptr <= 65536 -> take (Z.to_nat ptr) buf = C ->
  exists s' x', finish_transfer (put_pipe s p (pi_with_lock x true)) p ptr buf other e = Some s' /\
    ps_pipes s' !! p = Some x' /\ refilled x C x' /\ ps_specs s' = ps_specs s /\ same_nodes s s'.
Proof.
  intros Hp W Hr Hw Hn Hb Hptr HC. unfold finish_transfer, mod_pipe. rewrite lookup_put. cbn [mbind option_bind]. rewrite put_put.
  set (x1 := pi_with_data (pi_with_lock x true) ptr buf).
  destruct (update_nodes_spec (put_pipe s p x1) p x1) as (s1 & -> & E1 & E2 & E3); [apply lookup_put|done|done|]. cbn [mbind option_bind].
  rewrite (unlock_spec s1 p x1) by (rewrite E1; apply lookup_put). cbn [mbind option_bind]. rewrite lookup_put. cbn [mbind option_bind].
  set (s2 := put_pipe s1 p (pi_with_lock x1 false)). set (n := other (pi_with_lock x1 false)).
  assert (exists s3, (if negb (n =? 0) then vfs_poll_notify s2 n e else Some s2) = Some s3 /\ same_heap s2 s3) as (s3 & -> & F1 & F2 & F3).
  { case_if; [|by eexists]. apply notify_spec. eapply (same_nodes_ok s); [exact E3|]. unfold n. by destruct Hn as [-> | ->]. }
  exists s3, (pi_with_lock x1 false). split_and!; [done|rewrite F1; apply lookup_put| |by rewrite F2|].
  - split_and!; try done. split; cbn; try done. apply W.
  - etrans; [exact E3|exact F3].
Qed.

Lemma read_attempt_spec s f p x size :
  ps_pipes s !! p = Some x -> pipe_wf x -> node_ok s (read_node x) -> node_ok s (write_node x) -> 0 < pi_ptr x -> 0 < size ->
  let n := Z.min size (pi_ptr x) in
  exists s' x', read_attempt s f p size = Some (s', Some (n, take (Z.to_nat n) (content x))) /\
    ps_pipes s' !! p = Some x' /\ refilled x (drop (Z.to_nat n) (content x)) x' /\ ps_specs s' = ps_specs s /\ same_nodes s s'.
Proof.
  intros Hp W Hr Hw Hptr Hsz n. pose proof (pw_ptr _ W) as Hpb. unfold read_attempt. rewrite (lock_spec s p x) by (done || apply W). cbn [mbind option_bind].
  rewrite lookup_put. cbn [mbind option_bind]. change (pi_ptr (pi_with_lock x true)) with (pi_ptr x). rewrite Z.gtb_ltb, (proj2 (Z.ltb_lt _ _) Hptr).
  rewrite MIN_min. fold n. rewrite (u32_id n) by lia.
  destruct (take_bytes_spec x n W ltac:(lia)) as (buf & Et & Hb & HC).
  change (take_bytes (pi_with_lock x true) n) with (take_bytes x n). rewrite Et. cbn [mbind option_bind]. rewrite u32_id by lia.
  destruct (transfer_spec s p x (pi_ptr x - n) buf _ write_node EPOLLOUT Hp W Hr Hw (or_intror eq_refl) Hb ltac:(lia) HC) as (s' & x' & -> & H').
  exists s', x'. by split.
Qed.

Lemma write_attempt_spec s p x addr size (atomic : bool) :
  ps_pipes s !! p = Some x -> pipe_wf x -> node_ok s (read_node x) -> node_ok s (write_node x) -> read_fds x <> 0 ->
  0 < size <= zlen addr -> size < two31 ->
  let room := 65536 - pi_ptr x in
  let n := if atomic then (if size <=? room then size else 0) else Z.min size room in
  exists s' x', write_attempt s p addr size atomic = Some (s', if n =? 0 then None else Some n) /\
    ps_pipes s' !! p = Some x' /\ refilled x (content x ++ take (Z.to_nat n) addr) x' /\ ps_specs s' = ps_specs s /\ same_nodes s s'.
Proof.
  intros Hp W Hr Hw Hrf Hsz Hs31 room n. pose proof (pw_ptr _ W) as Hpb. unfold write_attempt. rewrite (lock_spec s p x) by (done || apply W). cbn [mbind option_bind].
  rewrite lookup_put. cbn [mbind option_bind]. change (read_fds (pi_with_lock x true)) with (read_fds x). rewrite (proj2 (Z.eqb_neq _ _) Hrf).
  change (pi_ptr (pi_with_lock x true)) with (pi_ptr x). change PIPE_BUFF with 65536. rewrite u64_id by lia. fold room.
  assert (0 <= n <= zlen addr /\ n <= room) as [Hn1 Hn2] by (unfold n; destruct atomic; [case_if|]; lia).
  assert ((room >? 0) && (negb atomic || (room >=? size)) = negb (n =? 0)) as Ec by (unfold n; destruct atomic; cbn [negb orb]; [case_if|]; lia).
  rewrite Ec. destruct (Z.eqb_spec n 0) as [En|En]; cbn [negb].
  - rewrite (unlock_spec _ _ (pi_with_lock x true)) by apply lookup_put. rewrite put_put. cbn [mbind option_bind]. eexists _, _.
    split_and!; [done|apply lookup_put| |done|done]. rewrite En, take_0, app_nil_r. split_and!; try done. split; cbn; try done; apply W.
  - replace (if atomic then size else MIN size room) with n.
    2:{ unfold n in En |- *. rewrite MIN_min. destruct atomic; [|done]. by case_if. }
    destruct (store_bytes_spec x addr n W Hn1 ltac:(lia)) as (buf & Es & Hb & HC).
    change (store_bytes (pi_with_lock x true) addr n) with (store_bytes x addr n). rewrite Es. cbn [mbind option_bind]. rewrite u32_id by lia.
    destruct (transfer_spec s p x (pi_ptr x + n) buf _ read_node EPOLLIN Hp W Hr Hw (or_introl eq_refl) Hb ltac:(lia) HC) as (s' & x' & -> & H').
    exists s', x'. by split.
Qed.

(** ** Between entering and leaving *)

Lemma entered_wf x d : pipe_wf x -> 0 <= pi_active x + d < two31 -> pipe_wf (pi_with_active x (pi_active x + d)).
Proof. intros [? ? ? ?] ?. by split. Qed.

(** After the transfer the end is as before the call, with the new contents. *)
Lemma leave_end s f p sp x s2 x2 C :
  end_at s f p sp x -> ps_specs s2 = ps_specs (counted s f p sp x 1) -> ps_pipes s2 !! p = Some x2 ->
  refilled (pi_with_active x (pi_active x + 1)) C x2 -> same_nodes s s2 ->
  exists s' x', pipefs_leave s2 f = Some s' /\ end_at s' f p sp x' /\ refilled x C x'.
Proof.
  intros H Es Hp2 (W2 & HC & R1 & R2 & R3 & R4 & R5 & R6) Hn. pose proof H as [Hf Hp Hf0 Hp0 Hi Hpd Hpp Ha Hpa Hnd Hrn Hwn W].
  pose proof (pw_active _ W) as Hact. cbn in R1, R2, R3, R4, R5, R6.
  rewrite (leave_spec s2 f p (sp_with_active sp (sp_active sp + 1)) x2); try done; try (cbn; lia).
  2:{ rewrite Es. cbn. by rewrite lookup_insert_eq. }
  2:{ apply W2. }
  2:{ congruence. }
  assert (sp_with_active (sp_with_active sp (sp_active sp + 1)) (sp_active (sp_with_active sp (sp_active sp + 1)) - 1) = sp) as ->.
  { unfold sp_with_active. cbn. replace (sp_active sp + 1 - 1) with (sp_active sp) by lia. by destruct sp. }
  eexists _, (pi_with_active x2 (pi_active x2 - 1)). split; [done|]. set (s' := put_pipe _ _ _).
  assert (same_nodes s s') as Hn' by exact Hn.
  assert (pipe_wf (pi_with_active x2 (pi_active x2 - 1))) as W3 by (destruct W2; split; cbn; try done; lia).
  split.
  - split; try done; cbn; try (by rewrite lookup_insert_eq); rewrite ?R5, ?R6; try congruence; try lia; try (by eapply same_nodes_ok).
  - split_and!; try done; cbn; lia.
Qed.

(** C33: a read of a pipe that holds data takes the oldest bytes out, as many as
    are asked for and there are, in order, and leaves the rest; it does not
    wait. The end and the pipe stay alive and unlocked. *)
Theorem pipefs_read_correct turns s f p sp x size :
  end_at s f p sp x -> sp_write sp = false -> 0 < pi_ptr x -> 0 < size ->
  let n := Z.min size (pi_ptr x) in
  exists s' x', pipefs_read turns s f size = Some (s', Done (n, take (Z.to_nat n) (content x))) /\
    end_at s' f p sp x' /\ refilled x (drop (Z.to_nat n) (content x)) x'.
Proof.
  intros H Hw Hptr Hsz n. pose proof H as [Hf Hp Hf0 Hp0 Hi Hpd Hpp Ha Hpa Hnd Hrn Hwn W]. pose proof (pw_active _ W) as Hact. pose proof (pw_ptr _ W) as Hpb.
  unfold pipefs_read. change PIPE_BUFF with 65536. set (size' := if size >? 65536 then 65536 else size).
  assert (0 < size' /\ Z.min size' (pi_ptr x) = n) as [Hsz' Hn] by (unfold size', n; rewrite Z.gtb_ltb; destruct (Z.ltb_spec 65536 size); lia).
  destruct (Z.eqb_spec size' 0); [lia|]. rewrite (proj2 (Z.eqb_neq _ _) Hf0), Hf. cbn [mbind option_bind]. rewrite Hw, Hi, (proj2 (Z.eqb_neq _ _) Hp0).
  rewrite (enter_spec s f p sp x H). cbn [mbind option_bind].
  destruct (read_attempt_spec (counted s f p sp x 1) f p (pi_with_active x (pi_active x + 1)) size') as (s2 & x2 & E & Hx2 & Hre & Hs2 & Hn2); try done.
  { apply lookup_put. } { apply entered_wf; [done|lia]. }
  cbn [pi_with_active pi_ptr] in E, Hre. change (content (pi_with_active x (pi_active x + 1))) with (content x) in E, Hre. rewrite Hn in E, Hre.
  assert (read_loop turns (counted s f p sp x 1) f p size' = Some (s2, Done (n, take (Z.to_nat n) (content x)))) as ->.
  { destruct turns; cbn [read_loop]; rewrite E; done. }
  cbn [mbind option_bind]. destruct (leave_end s f p sp x s2 x2 _ H Hs2 Hx2 Hre Hn2) as (s' & x' & -> & He & Hr'). cbn [mbind option_bind].
  by exists s', x'.
Qed.

(** ** Writing *)

Lemma write_inner_spec turns s f p sp x addr size (atomic aw : bool) :
  ps_specs s !! f = Some sp -> sp_info sp = p ->
  ps_pipes s !! p = Some x -> pipe_wf x -> node_ok s (read_node x) -> node_ok s (write_node x) -> read_fds x <> 0 ->
  0 < size <= zlen addr -> size < two31 ->
  let room := 65536 - pi_ptr x in
  let n := if atomic then (if size <=? room then size else 0) else Z.min size room in
  (n = 0 -> aw = false) ->
  exists s' x', pipe_write_inner turns s f addr size atomic aw = Some (s', turns, Done (if n =? 0 then u64 (- EWOULDBLOCK) else n)) /\
    ps_pipes s' !! p = Some x' /\ refilled x (content x ++ take (Z.to_nat n) addr) x' /\ ps_specs s' = ps_specs s /\ same_nodes s s'.
Proof.
  intros Hf Hi Hp W Hr Hw Hrf Hsz Hs31 room n Haw.
  destruct (write_attempt_spec s p x addr size atomic Hp W Hr Hw Hrf Hsz Hs31) as (s' & x' & E & H'). fold room n in E, H'. exists s', x'. split; [|done].
  destruct turns; cbn [pipe_write_inner]; rewrite Hf; cbn [mbind option_bind]; rewrite Hi, E; cbn [mbind option_bind];
    destruct (Z.eqb_spec n 0) as [En|]; try done; by rewrite (Haw En).
Qed.

(** What a write transfers: all or nothing up to 4096 bytes, otherwise as much
    as there is room for. *)
Definition accepted x (size : Z) : Z :=
  let room := 65536 - pi_ptr x in
  if size <=? 4096 then (if size <=? room then size else 0) else Z.min size room.

Lemma refilled_ptr x C x' : refilled x C x' -> pi_ptr x' = zlen C.
Proof.
  intros (W & HC & _). rewrite <- HC. unfold content, zlen. rewrite length_take. pose proof (pw_buf _ W) as Hb. pose proof (pw_ptr _ W). unfold zlen in Hb. lia.
Qed.

Lemma refilled_trans x1 C1 x2 C2 x3 : refilled x1 C1 x2 -> refilled x2 C2 x3 -> refilled x1 C2 x3.
Proof. intros (?&?&?&?&?&?&?&?) (?&?&?&?&?&?&?&?). split_and!; try done; congruence. Qed.

Lemma write_loop_spec turns s f p sp x addr size (nb : bool) fuel :
  ps_specs s !! f = Some sp -> sp_info sp = p ->
  ps_pipes s !! p = Some x -> pipe_wf x -> node_ok s (read_node x) -> node_ok s (write_node x) -> read_fds x <> 0 ->
  0 < size <= zlen addr -> size < two31 -> accepted x size = size \/ nb = true -> (1 < fuel)%nat ->
  let n := accepted x size in
  exists s' x', write_loop fuel turns s f addr 0 size (size <=? 4096) nb = Some (s', Done n) /\
    ps_pipes s' !! p = Some x' /\ refilled x (content x ++ take (Z.to_nat n) addr) x' /\ ps_specs s' = ps_specs s /\ same_nodes s s'.
Proof.
  intros Hf Hi Hp W Hr Hw Hrf Hsz Hs31 Hnb Hfu n. pose proof (pw_ptr _ W) as Hpb. destruct fuel as [|[|fuel]]; try lia. cbn [write_loop].
  destruct (Z.ltb_spec 0 size); [|lia]. rewrite Z.sub_0_r. change (Z.to_nat 0) with 0%nat. rewrite drop_0.
  assert (0 <= n <= size) as Hn by (unfold n, accepted; destruct (size <=? 4096); [case_if|]; lia).
  destruct (write_inner_spec turns s f p sp x addr size (size <=? 4096) (negb nb) Hf Hi Hp W Hr Hw Hrf Hsz Hs31) as (s1 & x1 & E & Hx1 & Hre & Hs1 & Hn1).
  { fold n. unfold n in *. destruct Hnb as [Hnb| ->]; [|done]. unfold accepted in Hnb. lia. }
  change (if size <=? 4096 then if size <=? 65536 - pi_ptr x then size else 0 else Z.min size (65536 - pi_ptr x)) with n in E, Hre.
  rewrite E. cbn [mbind option_bind]. destruct (Z.eqb_spec n 0) as [En|En].
  { change (i64 (u64 (- EWOULDBLOCK)) <? 0) with true. cbv iota. rewrite En in Hre |- *. by exists s1, x1. }
  rewrite i64_id by lia. destruct (Z.ltb_spec n 0); [lia|]. destruct (Z.eqb_spec n 0); [lia|]. rewrite Z.add_0_l, u64_id by lia.
  destruct (Z.ltb_spec n size) as [Hlt|Hge]; [|by exists s1, x1].
  destruct Hnb as [Hnb|Hnb]; [unfold n in Hlt; lia|]. pose proof Hre as (W1 & HC1 & R1 & R2 & R3 & R4 & R5 & R6).
  assert (pi_ptr x1 = 65536) as Hfull.
  { rewrite (refilled_ptr _ _ _ Hre), zlen_app. unfold zlen at 2. rewrite length_take. unfold content, zlen in *. rewrite length_take.
    pose proof (pw_buf _ W) as Hb. unfold zlen in Hb. unfold n, accepted in *. destruct (Z.leb_spec size 4096); [case_if; lia|lia]. }
  destruct (write_inner_spec turns s1 f p sp x1 (drop (Z.to_nat n) addr) (size - n) (size <=? 4096) (negb nb)) as (s2 & x2 & E2 & Hx2 & Hre2 & Hs2 & Hn2);
    try done; try lia; try (rewrite ?R5, ?R6; by eapply same_nodes_ok).
  { by rewrite Hs1. } { unfold zlen. rewrite length_drop. unfold zlen in Hsz. lia. } { intros _. by rewrite Hnb. }
  rewrite Hfull in E2, Hre2. replace (if size <=? 4096 then if size - n <=? 65536 - 65536 then size - n else 0 else Z.min (size - n) (65536 - 65536)) with 0 in E2, Hre2
    by (destruct (size <=? 4096); [destruct (Z.leb_spec (size - n) (65536 - 65536))|]; lia).
  rewrite E2. cbn [mbind option_bind Z.eqb]. change (i64 (u64 (- EWOULDBLOCK)) <? 0) with true. cbv iota.
  exists s2, x2. cbn [Z.to_nat take] in Hre2. rewrite take_0, app_nil_r, HC1 in Hre2. split_and!; [done|done|by eapply refilled_trans|congruence|by etrans].
Qed.

(** C34: a write of more than zero and fewer than 2^31 bytes while the reading
    end is open, when all of it fits or the end is non-blocking, appends to the
    contents: up to 4096 bytes all or nothing, more than that as much as there
    is room for. It returns the number of bytes appended, or EWOULDBLOCK when
    that is none, without waiting. (A blocking write of more than fits waits
    for a reader, and without an open reading end nothing is appended; neither
    is covered here.) *)
Theorem pipefs_write_correct turns s f p sp x addr size :
  end_at s f p sp x -> sp_write sp = true -> read_fds x <> 0 -> 0 < size <= zlen addr -> size < two31 ->
  accepted x size = size \/ nonblocking s sp = Some true ->
  let n := accepted x size in
  exists s' x', pipefs_write turns s f addr size = Some (s', Done (if n =? 0 then u64 (- EWOULDBLOCK) else n)) /\
    end_at s' f p sp x' /\ refilled x (content x ++ take (Z.to_nat n) addr) x'.
Proof.
  intros H Hw Hrf Hsz Hs31 Hnb n. pose proof H as [Hf Hp Hf0 Hp0 Hi Hpd Hpp Ha Hpa Hnd Hrn Hwn W]. pose proof (pw_active _ W) as Hact. pose proof (pw_ptr _ W) as Hpb.
  assert (exists nb : bool, nonblocking s sp = Some nb /\ (accepted x size = size \/ nb = true)) as (nb & Enb & Hnb').
  { unfold nonblocking in *. destruct (Z.eqb_spec (sp_node sp) 0) as [E|E]; [exists false; split; [done|]; destruct Hnb as [|[=]]; by left|].
    destruct Hnd as [|[v Hv]]; [done|]. rewrite Hv in *. cbn [mbind option_bind] in *. eexists. split; [done|]. destruct Hnb as [|[= ->]]; [by left|by right]. }
  unfold pipefs_write. rewrite (proj2 (Z.eqb_neq _ _) Hf0), Hf. cbn [mbind option_bind]. rewrite Hi, (proj2 (Z.eqb_neq _ _) Hp0), Hw. cbn [orb negb].
  rewrite Enb. cbn [mbind option_bind]. rewrite (enter_spec s f p sp x H). cbn [mbind option_bind]. change PIPE_ATOMIC_MAX with 4096.
  destruct (write_loop_spec turns (counted s f p sp x 1) f p (sp_with_active sp (sp_active sp + 1)) (pi_with_active x (pi_active x + 1)) addr size nb (S (Z.to_nat size)))
    as (s2 & x2 & -> & Hx2 & Hre & Hs2 & Hn2); try done; try lia.
  { cbn. by rewrite lookup_insert_eq. } { apply lookup_put. } { apply entered_wf; [done|lia]. }
  change (accepted (pi_with_active x (pi_active x + 1)) size) with n in *. change (content (pi_with_active x (pi_active x + 1))) with (content x) in Hre.
  cbn [mbind option_bind]. destruct (leave_end s f p sp x s2 x2 _ H Hs2 Hx2 Hre Hn2) as (s' & x' & -> & He & Hr'). cbn [mbind option_bind].
  exists s', x'. split; [|done]. by destruct (n =? 0).
Qed.

(** A pipe whose ends are open once, with three bytes in it. *)
Definition ex_pipe (active : Z) : pipe_info_t :=
  mkPipe 3 ([104; 105; 33] ++ replicate (Z.to_nat 65533) 0) 3 1 1 active false false 50 60.
Definition ex_end (write : bool) (active : Z) : pipe_specific_t := mkSpec write 1 (if write then 60 else 50) active false.
Definition ex_pipes (active : Z) : pipe_sys :=
  mkPs {[1 := ex_pipe active]} (<[2 := ex_end false active]> {[3 := ex_end true 0]})
    (<[50 := mkNode 0 0 2 1 0 []]> {[60 := mkNode 0 O_NONBLOCK 3 1 0 []]}) [].

Lemma ex_pipe_wf a : 0 <= a < two31 -> pipe_wf (ex_pipe a).
Proof.
  intros Ha. split; cbn [ex_pipe pi_ptr pi_lock pi_active pi_buf]; [|done|done|done].
  rewrite zlen_app, zlen_replicate. change (zlen [104; 105; 33]) with 3. lia.
Qed.

Lemma ex_end_at a : 0 <= a < two31 - 1 -> end_at (ex_pipes a) 2 1 (ex_end false a) (ex_pipe a).
Proof.
  intros Ha. assert (pipe_wf (ex_pipe a)) by (apply ex_pipe_wf; lia).
  split; try done; cbn [ex_end ex_pipe sp_active pi_active sp_node read_node write_node]; try lia; right; by eexists.
Qed.

Lemma pipefs_read_correct_witness :
  exists s' x', pipefs_read [] (ex_pipes 0) 2 2 = Some (s', Done (2, [104; 105])) /\ content x' = [33].
Proof.
  destruct (pipefs_read_correct [] (ex_pipes 0) 2 1 (ex_end false 0) (ex_pipe 0) 2 (ex_end_at 0 ltac:(done))) as (s' & x' & E & _ & _ & HC & _);
    [reflexivity|reflexivity|reflexivity|]. exists s', x'. exact (conj E HC).
Defined.

Lemma pipefs_write_correct_witness :
  exists s' x', pipefs_write [] (ex_pipes 0) 3 [1; 2] 2 = Some (s', Done 2) /\ content x' = [104; 105; 33; 1; 2].
Proof.
  assert (end_at (ex_pipes 0) 3 1 (ex_end true 0) (ex_pipe 0)) as H.
  { assert (pipe_wf (ex_pipe 0)) by (by apply ex_pipe_wf). split; try done; right; by eexists. }
  destruct (pipefs_write_correct [] (ex_pipes 0) 3 1 (ex_end true 0) (ex_pipe 0) [1; 2] 2 H) as (s' & x' & E & _ & _ & HC & _);
    [reflexivity|discriminate|split; [reflexivity|discriminate]|reflexivity|left; reflexivity|]. exists s', x'. exact (conj E HC).
Defined.

(** ** Closing *)

Lemma clear_handle_spec s n : node_ok s n -> exists s', clear_handle s n = Some s' /\ ps_pipes s' = ps_pipes s /\ ps_specs s' = ps_specs s.
Proof.
  intros Hn. unfold clear_handle. destruct (Z.eqb_spec n 0); cbn [negb]; [by exists s|]. destruct Hn as [->|[v Hv]]; [done|].
  unfold mod_node. rewrite Hv. cbn [mbind option_bind]. by eexists.
Qed.

(** Closing the last descriptor of an idle reading end frees its record. *)
Lemma close_last_reader s f p sp x :
  ps_specs s !! f = Some sp -> ps_pipes s !! p = Some x -> f <> 0 -> p <> 0 -> sp_info sp = p -> sp_write sp = false ->
  sp_active sp = 0 -> pi_lock x = false -> read_fds x = 1 -> node_ok s (sp_node sp) -> node_ok s (write_node x) ->
  exists s', pipefs_close s f = Some s' /\ ps_specs s' = delete f (ps_specs s).
Proof.
  intros Hf Hp Hf0 Hp0 Hi Hw Ha Hl Hr Hn Hwn. unfold pipefs_close. rewrite (proj2 (Z.eqb_neq _ _) Hf0), Hf. cbn [mbind option_bind].
  rewrite Hi, (proj2 (Z.eqb_neq _ _) Hp0), (lock_spec s p x) by done. cbn [mbind option_bind]. rewrite lookup_put. cbn [mbind option_bind].
  rewrite Hw, Ha. unfold close_end. cbn [pi_with_lock read_fds]. rewrite Hr. change (1 >? 0) with true. cbv iota. change (1 - 1 =? 0) with true. cbn [andb negb Z.eqb].
  cbn [mbind option_bind]. set (x1 := mkPipe _ _ _ _ _ _ _ _ _ _). set (x2 := if _ : bool then pi_with_pending x1 else x1).
  rewrite put_put. erewrite unlock_spec by apply lookup_put. rewrite put_put. cbn [mbind option_bind write_node pi_with_lock].
  set (s1 := put_pipe s p _).
  assert (exists s2, (if negb (write_node x =? 0) then vfs_poll_notify s1 (write_node x) EPOLLERR else Some s1) = Some s2 /\ same_heap s1 s2) as (s2 & -> & F1 & F2 & F3).
  { case_if; [|by eexists]. by apply notify_spec. }
  cbn [mbind option_bind]. destruct (clear_handle_spec s2 (sp_node sp)) as (s3 & -> & G1 & G2); [by eapply (same_nodes_ok s1)|]. cbn [mbind option_bind].
  unfold free_spec_at. rewrite G2, F2. cbn [s1 put_pipe ps_specs]. rewrite Hf. cbn [mbind option_bind].
  assert (ps_pipes s3 !! p = Some (pi_with_lock x2 false)) as Hp3 by (rewrite G1, F1; apply lookup_put).
  case_if; [|by eexists]. unfold free_pipe_at. cbn [ps_pipes]. rewrite Hp3. cbn [mbind option_bind]. by eexists.
Qed.

(** [pipefs_leave] reads the end's record after it has given the lock back:
    when another task closes the last descriptor of the end between the two,
    the record is freed and the read is a use after free. *)
Theorem pipefs_leave_race s f p sp x :
  ps_specs s !! f = Some sp -> ps_pipes s !! p = Some x -> f <> 0 -> p <> 0 -> sp_info sp = p -> sp_write sp = false ->
  pi_lock x = false -> sp_free_pending sp = false -> pi_free_pending x = false -> sp_active sp = 1 -> 0 < pi_active x < two31 ->
  read_fds x = 1 -> node_ok s (sp_node sp) -> node_ok s (write_node x) ->
  exists s1 s2, leave_locked s f p = Some (s1, (false, false)) /\ pipefs_close s1 f = Some s2 /\
    leave_free s2 f p false false = None.
Proof.
  intros Hf Hp Hf0 Hp0 Hi Hw Hl Hfp Hpp Ha Hpa Hr Hn Hwn. rewrite (leave_locked_spec s f p sp x) by (done || lia).
  set (s1 := put_pipe _ _ _).
  destruct (close_last_reader s1 f p (sp_with_active sp (sp_active sp - 1)) (pi_with_active x (pi_active x - 1))) as (s2 & E & Hd); try done.
  { cbn. by rewrite lookup_insert_eq. } { apply lookup_put. } { cbn. lia. }
  exists s1, s2. split_and!; [done|done|]. unfold leave_free. rewrite Hd, lookup_delete_eq. done.
Qed.

Lemma pipefs_leave_race_witness :
  exists s1 s2, leave_locked (ex_pipes 1) 2 1 = Some (s1, (false, false)) /\ pipefs_close s1 2 = Some s2 /\ leave_free s2 2 1 false false = None.
Proof.
  apply (pipefs_leave_race (ex_pipes 1) 2 1 (ex_end false 1) (ex_pipe 1)); try reflexivity; try discriminate;
    [split; reflexivity|right; eexists; reflexivity|right; eexists; reflexivity].
Defined.

(** A write to a pipe without readers: the result is EWOULDBLOCK, the EPIPE of
    [pipe_write_inner] is lost. *)
Theorem pipefs_write_no_reader turns s f p sp x addr size nb :
  end_at s f p sp x -> sp_write sp = true -> read_fds x = 0 -> 0 < size -> nonblocking s sp = Some nb ->
  exists s', pipefs_write turns s f addr size = Some (s', Done (u64 (- EWOULDBLOCK))).
Proof.
  intros H Hw Hrf Hsz Hnb. pose proof H as [Hf Hp Hf0 Hp0 Hi Hpd Hpp Ha Hpa Hnd Hrn Hwn W]. pose proof (pw_active _ W) as Hact.
  unfold pipefs_write. rewrite (proj2 (Z.eqb_neq _ _) Hf0), Hf. cbn [mbind option_bind]. rewrite Hi, (proj2 (Z.eqb_neq _ _) Hp0), Hw. cbn [orb negb].
  rewrite Hnb. cbn [mbind option_bind]. rewrite (enter_spec s f p sp x H). cbn [mbind option_bind write_loop].
  destruct (Z.ltb_spec 0 size); [|lia]. set (s1 := counted s f p sp x 1). set (x1 := pi_with_active x (pi_active x + 1)).
  assert (ps_pipes s1 !! p = Some x1) as Hp1 by apply lookup_put.
  assert (forall a z at_, write_attempt s1 p a z at_ = Some (put_pipe s1 p x1, Some (u64 (- EPIPE)))) as Hwa.
  { intros a z at_. unfold write_attempt. rewrite (lock_spec s1 p x1 Hp1) by apply W. cbn [mbind option_bind]. rewrite lookup_put. cbn [mbind option_bind].
    change (read_fds (pi_with_lock x1 true)) with (read_fds x). rewrite Hrf. cbn [Z.eqb]. rewrite (unlock_spec _ _ (pi_with_lock x1 true)) by apply lookup_put.
    cbn [mbind option_bind]. rewrite put_put. do 3 f_equal. unfold x1, pi_with_lock, pi_with_active. cbn. by rewrite (pw_lock _ W). }
  assert (forall a z at_ aw, pipe_write_inner turns s1 f a z at_ aw = Some (put_pipe s1 p x1, turns, Done (u64 (- EPIPE)))) as Hin.
  { intros. assert (ps_specs s1 !! f = Some (sp_with_active sp (sp_active sp + 1))) as Hs1 by (cbn; by rewrite lookup_insert_eq).
    destruct turns; cbn [pipe_write_inner]; rewrite Hs1; cbn [mbind option_bind]; cbn [sp_with_active sp_info]; rewrite Hi, Hwa; done. }
  rewrite Hin. cbn [mbind option_bind]. change (i64 (u64 (- EPIPE)) <? 0) with true. cbv iota. cbn [mbind option_bind].
  destruct (leave_end s f p sp x (put_pipe s1 p x1) x1 (content x) H) as (s' & x' & -> & _); [done|apply lookup_put| |done|by exists s'].
  split_and!; try done. apply entered_wf; [done|lia].
Qed.
