(* ===== verification/AtomQueue.v ===== *)
(** * Lock-free byte queues ([src/src/util/atom_queue.c])

    A ring of a power of two bytes. [atom_push] and [atom_pop] use no lock and
    are meant for one producer and one consumer that run at the same time: the
    operations are modelled access by access, so that every interleaving of
    the two is an execution, and also as plain functions for a task on its
    own. The [mpmc] queue is for several tasks on each side. *)

From S2P Require Import Prelude.

Record atom_queue := mkAq { aq_buf : list Z; aq_mask : Z; aq_head : Z; aq_tail : Z; aq_size : Z }.

Definition set_buf (q : atom_queue) (b : list Z) : atom_queue := mkAq b (aq_mask q) (aq_head q) (aq_tail q) (aq_size q).
Definition set_head (q : atom_queue) (h : Z) : atom_queue := mkAq (aq_buf q) (aq_mask q) h (aq_tail q) (aq_size q).
Definition set_tail (q : atom_queue) (t : Z) : atom_queue := mkAq (aq_buf q) (aq_mask q) (aq_head q) t (aq_size q).
Definition set_size (q : atom_queue) (n : Z) : atom_queue := mkAq (aq_buf q) (aq_mask q) (aq_head q) (aq_tail q) n.

(** ** The functions

    [malloc] gives a buffer with any contents; the structure is allocated
    without a test, the [mpmc] one with. [store] takes 32 bits. *)

Definition create_atom_queue (buf : list Z) (size : Z) : option atom_queue :=
  if (size =? 0) || negb (Z.land size (size - 1) =? 0) then None else Some (mkAq buf (size - 1) 0 0 0).

Definition create_atom_queue_mpmc (malloc_ok : bool) (buf : list Z) (size : Z) : option atom_queue :=
  if (size =? 0) || negb (Z.land size (size - 1) =? 0) then None
  else if negb malloc_ok then None
  else Some (mkAq buf (size - 1) 0 0 size).

Definition next_slot (q : atom_queue) (i : Z) : Z := Z.land (u64 (i + 1)) (aq_mask q).

Definition atom_push (q : atom_queue) (data : Z) : option (atom_queue * bool) :=
  let head := aq_head q in
  let next := next_slot q head in
  if next =? aq_tail q then Some (q, false)
  else
    b ← zset (aq_buf q) head data;
    let q := set_head (set_buf q b) (u32 next) in
    Some (set_size q (u64 (aq_size q + 1)), true).

Definition atom_pop (q : atom_queue) : option (atom_queue * Z) :=
  let tail := aq_tail q in
  if tail =? aq_head q then Some (q, -1)
  else
    data ← zget (aq_buf q) tail;
    let q := set_tail q (u32 (next_slot q tail)) in
    Some (set_size q (u64 (aq_size q - 1)), data).

(** ** One access at a time *)

(** Where a push is; [size++] is a load and a store. *)
Inductive push_pc :=
  | PushLoadHead (data : Z)
  | PushLoadTail (data head : Z)
  | PushWrite (data head next : Z)
  | PushStore (data head next : Z)
  | PushSizeLoad
  | PushSizeStore (n : Z)
  | PushDone (ok : bool).

Definition push_step (q : atom_queue) (pc : push_pc) : option (atom_queue * push_pc) :=
  match pc with
  | PushLoadHead data => Some (q, PushLoadTail data (aq_head q))
  | PushLoadTail data head =>
      let next := next_slot q head in
      if next =? aq_tail q then Some (q, PushDone false) else Some (q, PushWrite data head next)
  | PushWrite data head next => b ← zset (aq_buf q) head data; Some (set_buf q b, PushStore data head next)
  | PushStore data head next => Some (set_head q (u32 next), PushSizeLoad)
  | PushSizeLoad => Some (q, PushSizeStore (aq_size q))
  | PushSizeStore n => Some (set_size q (u64 (n + 1)), PushDone true)
  | PushDone ok => Some (q, PushDone ok)
  end.

Inductive pop_pc :=
  | PopLoadTail
  | PopLoadHead (tail : Z)
  | PopRead (tail : Z)
  | PopStore (tail data : Z)
  | PopSizeLoad (data : Z)
  | PopSizeStore (data n : Z)
  | PopDone (result : Z).

Definition pop_step (q : atom_queue) (pc : pop_pc) : option (atom_queue * pop_pc) :=
  match pc with
  | PopLoadTail => Some (q, PopLoadHead (aq_tail q))
  | PopLoadHead tail => if tail =? aq_head q then Some (q, PopDone (-1)) else Some (q, PopRead tail)
  | PopRead tail => data ← zget (aq_buf q) tail; Some (q, PopStore tail data)
  | PopStore tail data => Some (set_tail q (u32 (next_slot q tail)), PopSizeLoad data)
  | PopSizeLoad data => Some (q, PopSizeStore data (aq_size q))
  | PopSizeStore data n => Some (set_size q (u64 (n - 1)), PopDone data)
  | PopDone r => Some (q, PopDone r)
  end.

(** The functions are their accesses in a row. *)
Fixpoint push_run (fuel : nat) (q : atom_queue) (pc : push_pc) : option (atom_queue * push_pc) :=
  match fuel with O => Some (q, pc) | S fuel => '(q, pc) ← push_step q pc; push_run fuel q pc end.
Fixpoint pop_run (fuel : nat) (q : atom_queue) (pc : pop_pc) : option (atom_queue * pop_pc) :=
  match fuel with O => Some (q, pc) | S fuel => '(q, pc) ← pop_step q pc; pop_run fuel q pc end.

Lemma push_run_atom_push q data :
  push_run 6 q (PushLoadHead data) = '(q, ok) ← atom_push q data; Some (q, PushDone ok).
Proof.
  unfold atom_push. cbn [push_run push_step mbind option_bind]. destruct (next_slot q (aq_head q) =? aq_tail q); cbn [mbind option_bind push_step]; [done|].
  destruct (zset (aq_buf q) (aq_head q) data); done.
Qed.

Lemma pop_run_atom_pop q : pop_run 6 q PopLoadTail = '(q, r) ← atom_pop q; Some (q, PopDone r).
Proof.
  unfold atom_pop. cbn [pop_run pop_step mbind option_bind]. destruct (aq_tail q =? aq_head q); cbn [mbind option_bind pop_step]; [done|].
  destruct (zget (aq_buf q) (aq_tail q)); done.
Qed.

(** ** A producer and a consumer *)

(** The two tasks between calls or inside one, and the bytes that were put in
    and taken out so far, in order. *)
Record aq_sys := mkAs { as_q : atom_queue; as_push : push_pc; as_pop : pop_pc; as_in : list Z; as_out : list Z }.

Inductive actor := StartPush (data : Z) | StepPush | StartPop | StepPop.

(** One access of one of them; a call starts when the last one is done. [None]
    is an access outside the buffer. *)
Definition aq_step (s : aq_sys) (a : actor) : option aq_sys :=
  match a with
  | StartPush data =>
      Some (match as_push s with PushDone _ => mkAs (as_q s) (PushLoadHead data) (as_pop s) (as_in s) (as_out s) | _ => s end)
  | StartPop =>
      Some (match as_pop s with PopDone _ => mkAs (as_q s) (as_push s) PopLoadTail (as_in s) (as_out s) | _ => s end)
  | StepPush =>
      '(q, pc) ← push_step (as_q s) (as_push s);
      Some (mkAs q pc (as_pop s) (match as_push s with PushStore data _ _ => as_in s ++ [data] | _ => as_in s end) (as_out s))
  | StepPop =>
      '(q, pc) ← pop_step (as_q s) (as_pop s);
      Some (mkAs q (as_push s) pc (as_in s) (match as_pop s with PopStore _ data => as_out s ++ [data] | _ => as_out s end))
  end.

(** The states the two can reach, in any interleaving. *)
Inductive reachable (s0 : aq_sys) : aq_sys -> Prop :=
  | reach_start : reachable s0 s0
  | reach_step s a s' : reachable s0 s -> aq_step s a = Some s' -> reachable s0 s'.

(** ** The invariant *)

(** The bytes in the ring, oldest first. *)
Record ring (n : Z) (q : atom_queue) (C : list Z) : Prop := {
  rg_pow : exists k, 0 <= k <= 32 /\ n = 2 ^ k;
  rg_mask : aq_mask q = n - 1;
  rg_len : zlen (aq_buf q) = n;
  rg_tail : 0 <= aq_tail q < n;
  rg_head : aq_head q = (aq_tail q + zlen C) mod n;
  rg_room : zlen C < n;
  rg_elem : forall k, 0 <= k < zlen C -> zget (aq_buf q) ((aq_tail q + k) mod n) = zget C k;
}.

(** What the producer knows at each point: the consumer can only make room. *)
Definition push_ok (n : Z) (q : atom_queue) (C : list Z) (pc : push_pc) : Prop :=
  match pc with
  | PushLoadTail _ head => head = aq_head q
  | PushWrite _ head next => head = aq_head q /\ next = (head + 1) mod n /\ zlen C + 1 < n
  | PushStore data head next => head = aq_head q /\ next = (head + 1) mod n /\ zlen C + 1 < n /\ zget (aq_buf q) head = Some data
  | _ => True
  end.

(** And the consumer: the producer can only add bytes. *)
Definition pop_ok (q : atom_queue) (C : list Z) (pc : pop_pc) : Prop :=
  match pc with
  | PopLoadHead tail => tail = aq_tail q
  | PopRead tail => tail = aq_tail q /\ C <> []
  | PopStore tail data => tail = aq_tail q /\ head C = Some data
  | _ => True
  end.

Definition aq_inv (n : Z) (s : aq_sys) : Prop :=
  exists C, ring n (as_q s) C /\ as_in s = as_out s ++ C /\ push_ok n (as_q s) C (as_push s) /\ pop_ok (as_q s) C (as_pop s).

Section Ring.
Context (n : Z).

Lemma ring_pos q C : ring n q C -> 0 < n <= two32.
Proof.
  intros H. destruct (rg_pow _ _ _ H) as (k & Hk & ->). split; [apply Z.pow_pos_nonneg; lia|]. change two32 with (2 ^ 32). apply Z.pow_le_mono_r; lia.
Qed.

Lemma ring_next_slot q C i : ring n q C -> 0 <= i < n -> next_slot q i = (i + 1) mod n /\ u32 (next_slot q i) = (i + 1) mod n.
Proof.
  intros H Hi. pose proof (ring_pos _ _ H) as Hn. unfold next_slot. rewrite (rg_mask _ _ _ H), u64_id by lia.
  destruct (rg_pow _ _ _ H) as (k & Hk & ->). rewrite Z.sub_1_r, <- Z.ones_equiv, Z.land_ones by lia. split; [done|].
  pose proof (Z.mod_pos_bound (i + 1) (2 ^ k) ltac:(lia)). apply u32_id. lia.
Qed.

Lemma ring_head_range q C : ring n q C -> 0 <= aq_head q < n.
Proof. intros H. rewrite (rg_head _ _ _ H). apply Z.mod_pos_bound. pose proof (ring_pos _ _ H). lia. Qed.

(** Places [a] and [b] steps after the tail are the same only if [a = b]. *)
Lemma ring_place t a b : 0 < n -> 0 <= a < n -> 0 <= b < n -> (t + a) mod n = (t + b) mod n -> a = b.
Proof.
  intros Hn Ha Hb E. pose proof (Z.div_mod (t + a) n ltac:(lia)). pose proof (Z.div_mod (t + b) n ltac:(lia)).
  assert (a - b = n * ((t + a) / n - (t + b) / n)) as Hd by (rewrite Z.mul_sub_distr_l; lia).
  set (z := (t + a) / n - (t + b) / n) in Hd. assert (z = 0) as Hz by nia. rewrite Hz in Hd. lia.
Qed.

(** The queue is full when the slot after the head is the tail. *)
Lemma ring_full q C : ring n q C -> (aq_head q + 1) mod n = aq_tail q <-> zlen C + 1 = n.
Proof.
  intros H. pose proof (ring_pos _ _ H) as Hn. pose proof (rg_tail _ _ _ H) as Ht. pose proof (rg_room _ _ _ H) as Hr. pose proof (zlen_nonneg C).
  rewrite (rg_head _ _ _ H), Z.add_mod_idemp_l by lia. rewrite <- Z.add_assoc. split.
  - intros E. destruct (Z.eq_dec (zlen C + 1) n) as [|Hne]; [done|]. exfalso.
    assert (zlen C + 1 = 0); [|lia]. apply (ring_place (aq_tail q)); try lia. rewrite E, Z.add_0_r. symmetry. by apply Z.mod_small.
  - intros ->. rewrite <- (Z.mul_1_l n) at 1. rewrite Z.mod_add by lia. by apply Z.mod_small.
Qed.

Lemma ring_empty q C : ring n q C -> aq_tail q = aq_head q <-> C = [].
Proof.
  intros H. pose proof (ring_pos _ _ H) as Hn. pose proof (rg_tail _ _ _ H) as Ht. rewrite (rg_head _ _ _ H). split.
  - intros E. assert (zlen C = 0) as Hz.
    { apply (ring_place (aq_tail q)); try lia; [split; [apply zlen_nonneg|apply H]|]. rewrite Z.add_0_r, <- E. symmetry. by apply Z.mod_small. }
    destruct C; [done|]. rewrite zlen_cons in Hz. pose proof (zlen_nonneg C). lia.
  - intros ->. change (zlen []) with 0. rewrite Z.add_0_r. symmetry. by apply Z.mod_small.
Qed.

(** Writing the free slot at the head does not touch the bytes in the ring. *)
Lemma ring_write q C d :
  ring n q C -> exists b, zset (aq_buf q) (aq_head q) d = Some b /\ ring n (set_buf q b) C /\ zget b (aq_head q) = Some d.
Proof.
  intros H. pose proof (ring_head_range _ _ H) as Hh. pose proof (ring_pos _ _ H) as Hn.
  destruct (zset (aq_buf q) (aq_head q) d) as [b|] eqn:E; [|rewrite zset_ok in E by (rewrite (rg_len _ _ _ H); lia); done].
  exists b. split; [done|]. split; [|rewrite (zset_get _ _ _ _ _ E); by rewrite decide_True].
  destruct H as [Hp Hm Hl Ht Hd Hr He]. split; cbn; try done; [by rewrite (zset_len _ _ _ _ E)|].
  intros k Hk. rewrite (zset_get _ _ _ _ _ E). rewrite decide_False; [by apply He|]. rewrite Hd. intros Eq.
  apply ring_place in Eq; lia.
Qed.

(** Publishing the written slot. *)
Lemma ring_publish q C d :
  ring n q C -> zlen C + 1 < n -> zget (aq_buf q) (aq_head q) = Some d -> ring n (set_head q ((aq_head q + 1) mod n)) (C ++ [d]).
Proof.
  intros H Hroom Hd. pose proof (ring_pos _ _ H) as Hn. pose proof H as [Hp Hm Hl Ht Hh Hr He].
  split; cbn; rewrite ?zlen_app; change (zlen [d]) with 1; try done.
  - rewrite Hh, Z.add_mod_idemp_l by lia. f_equal. lia.
  - intros k Hk. destruct (Z.eq_dec k (zlen C)) as [->|Hne].
    + rewrite <- Hh, Hd, zget_app_r, Z.sub_diag by lia. done.
    + rewrite zget_app_l by lia. apply He. lia.
Qed.

(** Giving up the oldest byte. *)
Lemma ring_consume q d C : ring n q (d :: C) -> ring n (set_tail q ((aq_tail q + 1) mod n)) C.
Proof.
  intros H. pose proof (ring_pos _ _ H) as Hn. pose proof H as [Hp Hm Hl Ht Hh Hr He]. rewrite zlen_cons in *. pose proof (zlen_nonneg C).
  split; cbn; try done.
  - apply Z.mod_pos_bound. lia.
  - rewrite Hh, Z.add_mod_idemp_l by lia. f_equal. lia.
  - lia.
  - intros k Hk. rewrite Z.add_mod_idemp_l by lia. replace (aq_tail q + 1 + k) with (aq_tail q + (k + 1)) by lia. rewrite He by lia.
    rewrite zget_cons_S by lia. f_equal. lia.
Qed.

Lemma ring_first q d C : ring n q (d :: C) -> zget (aq_buf q) (aq_tail q) = Some d.
Proof.
  intros H. pose proof (rg_elem _ _ _ H 0) as He. rewrite Z.add_0_r, Z.mod_small in He by apply H. apply He. rewrite zlen_cons. pose proof (zlen_nonneg C). lia.
Qed.

Lemma ring_resize q C z : ring n q C -> ring n (set_size q z) C.
Proof. intros [? ? ? ? ? ? ?]. by split. Qed.

(** ** Every access keeps the invariant *)

Lemma push_step_inv s : aq_inv n s -> exists s', aq_step s StepPush = Some s' /\ aq_inv n s'.
Proof.
  intros (C & HR & Hio & Hpu & Hpo). pose proof (ring_head_range _ _ HR) as Hh. cbn [aq_step].
  destruct (as_push s) as [d|d hd|d hd nx|d hd nx| |m|ok]; cbn [push_step push_ok] in *.
  - eexists. split; [done|]. by exists C.
  - subst hd. destruct (ring_next_slot _ _ (aq_head (as_q s)) HR Hh) as [-> _]. destruct (Z.eqb_spec ((aq_head (as_q s) + 1) mod n) (aq_tail (as_q s))) as [E|E].
    + eexists. split; [done|]. by exists C.
    + eexists. split; [done|]. exists C. split_and!; try done. cbn. split_and!; try done.
      pose proof (rg_room _ _ _ HR). assert (zlen C + 1 <> n) by (intros Hf; apply E; by apply (ring_full _ C)). lia.
  - destruct Hpu as (-> & -> & Hroom). destruct (ring_write _ _ d HR) as (b & -> & HR' & Hb). cbn [mbind option_bind].
    eexists. split; [done|]. exists C. split_and!; [done|done|done|by destruct (as_pop s)].
  - destruct Hpu as (-> & -> & Hroom & Hd). rewrite u32_id by (pose proof (ring_pos _ _ HR); pose proof (Z.mod_pos_bound (aq_head (as_q s) + 1) n ltac:(lia)); lia).
    eexists. split; [done|]. exists (C ++ [d]). split_and!; try done; cbn.
    + by apply ring_publish.
    + by rewrite Hio, app_assoc.
    + destruct (as_pop s); try done; cbn in *; [destruct Hpo as [? HC]|destruct Hpo as [? HC]]; (split; [done|]); by destruct C.
  - eexists. split; [done|]. by exists C.
  - eexists. split; [done|]. exists C. split_and!; [by apply ring_resize|done|done|by destruct (as_pop s)].
  - eexists. split; [done|]. by exists C.
Qed.

Lemma pop_step_inv s : aq_inv n s -> exists s', aq_step s StepPop = Some s' /\ aq_inv n s'.
Proof.
  intros (C & HR & Hio & Hpu & Hpo). cbn [aq_step].
  destruct (as_pop s) as [|t|t|t d|d|d m|r]; cbn [pop_step pop_ok] in *.
  - eexists. split; [done|]. by exists C.
  - subst t. destruct (Z.eqb_spec (aq_tail (as_q s)) (aq_head (as_q s))) as [E|E].
    + eexists. split; [done|]. by exists C.
    + eexists. split; [done|]. exists C. split_and!; try done. cbn. split; [done|]. intros HC. apply E. by apply (ring_empty _ C).
  - destruct Hpo as (-> & HC). destruct C as [|d C]; [done|]. rewrite (ring_first _ _ _ HR). cbn [mbind option_bind].
    eexists. split; [done|]. by exists (d :: C).
  - destruct Hpo as (-> & HC). destruct C as [|d' C]; [done|]. injection HC as ->.
    destruct (ring_next_slot _ _ (aq_tail (as_q s)) HR) as [_ ->]; [apply HR|].
    eexists. split; [done|]. exists C. split_and!; try done; cbn.
    + by eapply ring_consume.
    + by rewrite Hio, <- app_assoc.
    + destruct (as_push s); try done; cbn in *; rewrite zlen_cons in Hpu; intuition lia.
  - eexists. split; [done|]. by exists C.
  - eexists. split; [done|]. exists C. split_and!; [by apply ring_resize|done|by destruct (as_push s)|done].
  - eexists. split; [done|]. by exists C.
Qed.

Lemma aq_step_inv s a : aq_inv n s -> exists s', aq_step s a = Some s' /\ aq_inv n s'.
Proof.
  intros H. destruct a as [d| | |]; [|by apply push_step_inv| |by apply pop_step_inv]; cbn [aq_step].
  - eexists. split; [done|]. pose proof H as (C & HR & Hio & Hpu & Hpo). destruct (as_push s); try exact H. by exists C.
  - eexists. split; [done|]. pose proof H as (C & HR & Hio & Hpu & Hpo). destruct (as_pop s); try exact H. by exists C.
Qed.

End Ring.

(** C35: with one producer and one consumer at work at the same time, in every
    interleaving of their accesses: no access falls outside the buffer, the
    bytes taken out are the bytes put in, in order, without loss or repetition,
    and what was put in and not yet taken out is in the ring. *)
Theorem atom_queue_fifo n q s :
  ring n q [] -> reachable (mkAs q (PushDone true) (PopDone 0) [] []) s ->
  (forall a, is_Some (aq_step s a)) /\ exists C, as_in s = as_out s ++ C /\ ring n (as_q s) C.
Proof.
  intros Hq Hr. assert (aq_inv n s) as H.
  { induction Hr as [|s a s' _ IH E]; [by exists []|]. destruct (aq_step_inv n s a IH) as (s2 & E2 & H2). rewrite E in E2. by injection E2 as <-. }
  split.
  - intros a. destruct (aq_step_inv n s a H) as (s' & -> & _). by eexists.
  - destruct H as (C & HR & Hio & _). by exists C.
Qed.

Lemma create_ring k buf : 0 <= k <= 32 -> zlen buf = 2 ^ k -> exists q, create_atom_queue buf (2 ^ k) = Some q /\ ring (2 ^ k) q [].
Proof.
  intros Hk Hb. assert (0 < 2 ^ k) as Hp by (apply Z.pow_pos_nonneg; lia). unfold create_atom_queue. destruct (Z.eqb_spec (2 ^ k) 0); [lia|].
  rewrite Z.sub_1_r, <- Z.ones_equiv, Z.land_ones, Z.mod_same by lia. cbn [orb negb Z.eqb]. eexists. split; [done|].
  split; cbn; try done; [by exists k|by rewrite Z.ones_equiv, Z.sub_1_r|].
  intros j Hj. change (zlen []) with 0 in Hj. lia.
Qed.

(** An interleaving on a ring of four bytes: the consumer starts while the
    producer is between its write and the store of the head. *)
Definition ex_aq : atom_queue := mkAq [9; 9; 9; 9] 3 0 0 0.
Definition ex_acts : list actor :=
  [StartPush 5; StepPush; StepPush; StepPush; StartPop; StepPop; StepPush; StepPop; StepPush; StepPush; StartPop; StepPop; StepPop; StepPop; StepPop].

Fixpoint aq_runs (s : aq_sys) (acts : list actor) : option aq_sys :=
  match acts with [] => Some s | a :: acts => s ← aq_step s a; aq_runs s acts end.

Lemma runs_reachable s0 acts : forall s s', reachable s0 s -> aq_runs s acts = Some s' -> reachable s0 s'.
Proof.
  induction acts as [|a acts IH]; intros s s' Hr E; cbn [aq_runs] in E; [by injection E as <-|].
  bind_inv E. eapply IH; [|exact E]. by eapply reach_step.
Qed.

Lemma ex_ring : ring 4 ex_aq [].
Proof. destruct (create_ring 2 [9; 9; 9; 9]) as (q & Eq & HR); [lia|done|]. injection Eq as <-. exact HR. Qed.

Lemma atom_queue_fifo_witness :
  exists s, aq_runs (mkAs ex_aq (PushDone true) (PopDone 0) [] []) ex_acts = Some s /\ as_out s = [5] /\
    exists C, as_in s = as_out s ++ C /\ ring 4 (as_q s) C.
Proof.
  destruct (aq_runs (mkAs ex_aq (PushDone true) (PopDone 0) [] []) ex_acts) as [s|] eqn:E; [|vm_compute in E; discriminate E].
  exists s. split; [reflexivity|]. split; [vm_compute in E; injection E as <-; reflexivity|].
  destruct (atom_queue_fifo 4 ex_aq s ex_ring) as [_ HC]; [|exact HC]. exact (runs_reachable _ ex_acts _ s (reach_start _) E).
Defined.

(** ** Several producers

    [atom_push_mpmc] claims a slot by moving the head and writes the byte
    afterwards. *)

Inductive mpush_pc := MLoadHead (data : Z) | MLoadTail (data head : Z) | MCas (data head next : Z) | MWrite (data head : Z) | MPushDone (ok : bool).

Definition mpush_step (q : atom_queue) (pc : mpush_pc) : option (atom_queue * mpush_pc) :=
  match pc with
  | MLoadHead data => Some (q, MLoadTail data (aq_head q))
  | MLoadTail data head =>
      let next := next_slot q head in
      if next =? aq_tail q then Some (q, MPushDone false) else Some (q, MCas data head next)
  | MCas data head next => if aq_head q =? head then Some (set_head q next, MWrite data head) else Some (q, MLoadHead data)
  | MWrite data head => b ← zset (aq_buf q) head data; Some (set_size (set_buf q b) (u64 (aq_size q + 1)), MPushDone true)
  | MPushDone ok => Some (q, MPushDone ok)
  end.

Inductive mpop_pc := NLoadTail | NLoadHead (tail : Z) | NCas (tail next : Z) | NRead (tail : Z) | NPopDone (result : Z).

Definition mpop_step (q : atom_queue) (pc : mpop_pc) : option (atom_queue * mpop_pc) :=
  match pc with
  | NLoadTail => Some (q, NLoadHead (aq_tail q))
  | NLoadHead tail => if tail =? aq_head q then Some (q, NPopDone (-1)) else Some (q, NCas tail (next_slot q tail))
  | NCas tail next => if aq_tail q =? tail then Some (set_tail q next, NRead tail) else Some (q, NLoadTail)
  | NRead tail => data ← zget (aq_buf q) tail; Some (set_size q (u64 (aq_size q - 1)), NPopDone data)
  | NPopDone r => Some (q, NPopDone r)
  end.

(** A pop between the claim of a slot and the write to it returns whatever the
    slot held before, and the byte pushed is never delivered. *)
Theorem mpmc_reads_unwritten q data head old :
  aq_head q = head -> aq_tail q = head -> next_slot q head <> head -> zget (aq_buf q) head = Some old ->
  exists q1 q2 q3,
    mpush_step q (MLoadHead data) = Some (q, MLoadTail data head) /\
    mpush_step q (MLoadTail data head) = Some (q, MCas data head (next_slot q head)) /\
    mpush_step q (MCas data head (next_slot q head)) = Some (q1, MWrite data head) /\
    mpop_step q1 NLoadTail = Some (q1, NLoadHead head) /\
    mpop_step q1 (NLoadHead head) = Some (q1, NCas head (next_slot q head)) /\
    mpop_step q1 (NCas head (next_slot q head)) = Some (q2, NRead head) /\
    mpop_step q2 (NRead head) = Some (q3, NPopDone old).
Proof.
  intros Hh Ht Hn Hb. exists (set_head q (next_slot q head)), (set_tail (set_head q (next_slot q head)) (next_slot q head)).
  eexists. cbn [mpush_step mpop_step set_head set_tail aq_head aq_tail aq_buf]. rewrite Hh, Ht, Hb, Z.eqb_refl.
  rewrite (proj2 (Z.eqb_neq _ _) Hn). change (next_slot (mkAq (aq_buf q) (aq_mask q) (next_slot q head) head (aq_size q)) head) with (next_slot q head).
  destruct (Z.eqb_spec head (next_slot q head)); [congruence|]. split_and!; try done; by rewrite <- ?Ht.
Qed.
