(* ===== verification/RbTree.v ===== *)
(** * Red-black trees ([src/src/util/rbtree.c], [src/src/include/rbtree.h])

    Nodes live in memory, each with the address of its parent and its colour
    packed in one word and the addresses of its two children. A tree is the
    word [root->rb_node]. The code reads and writes nodes through their
    addresses; [None] is an access to an address that holds no node, which is
    what following NULL does, or a loop that has not ended within its bound. *)

From stdpp Require Import gmap.
From S2P Require Import Prelude.

Record rb_node := mkRb { rb_parent_color : Z; rb_right : Z; rb_left : Z }.

(** The nodes by address, and the [rb_node] field of one [struct rb_root]. *)
Record rb_mem := mkRm { rb_nodes : gmap Z rb_node; rb_top : Z }.

Definition RB_RED : Z := 0.
Definition RB_BLACK : Z := 1.

(** ** The macros and inline functions of the header *)

Definition rb_parent (n : rb_node) : Z := Z.land (rb_parent_color n) (Z.lnot 3).
Definition rb_color (n : rb_node) : Z := Z.land (rb_parent_color n) 1.
Definition rb_is_red (n : rb_node) : bool := rb_color n =? 0.
Definition rb_is_black (n : rb_node) : bool := negb (rb_color n =? 0).

Definition with_pc (w : Z) (n : rb_node) : rb_node := mkRb w (rb_right n) (rb_left n).
Definition with_right (x : Z) (n : rb_node) : rb_node := mkRb (rb_parent_color n) x (rb_left n).
Definition with_left (x : Z) (n : rb_node) : rb_node := mkRb (rb_parent_color n) (rb_right n) x.

Definition rb_set_red (n : rb_node) : rb_node :=
  with_pc (Z.land (rb_parent_color n) (Z.lnot 1)) n.
Definition rb_set_black (n : rb_node) : rb_node := with_pc (Z.lor (rb_parent_color n) 1) n.
Definition rb_set_parent (p : Z) (n : rb_node) : rb_node :=
  with_pc (Z.lor (Z.land (rb_parent_color n) 3) p) n.
Definition rb_set_color (color : Z) (n : rb_node) : rb_node :=
  with_pc (Z.lor (Z.land (rb_parent_color n) (Z.lnot 1)) color) n.

Definition RB_ROOT : Z := 0.
Definition RB_EMPTY_ROOT (m : rb_mem) : bool := rb_top m =? 0.

(** Reading a field of the node at [a], and changing the node at [a]. *)
Definition ld {A} (m : rb_mem) (a : Z) (f : rb_node -> A) : option A := f <$> rb_nodes m !! a.
Definition st (m : rb_mem) (a : Z) (g : rb_node -> rb_node) : option rb_mem :=
  n ← rb_nodes m !! a; Some (mkRm (<[a := g n]> (rb_nodes m)) (rb_top m)).
Definition set_top (m : rb_mem) (a : Z) : rb_mem := mkRm (rb_nodes m) a.

Definition RB_EMPTY_NODE (m : rb_mem) (node : Z) : option bool :=
  p ← ld m node rb_parent; Some (p =? node).
Definition RB_CLEAR_NODE (m : rb_mem) (node : Z) : option rb_mem := st m node (rb_set_parent node).

Definition rb_init_node (m : rb_mem) (rb : Z) : option rb_mem :=
  m ← st m rb (with_pc 0);
  m ← st m rb (with_right 0);
  m ← st m rb (with_left 0);
  RB_CLEAR_NODE m rb.

(** A place that holds the address of a node: the root's word or a child
    field of a node. *)
Inductive rb_link := Lroot | Lleft (a : Z) | Lright (a : Z).

Definition link_get (m : rb_mem) (l : rb_link) : option Z :=
  match l with
  | Lroot => Some (rb_top m)
  | Lleft a => ld m a rb_left
  | Lright a => ld m a rb_right
  end.

Definition link_set (m : rb_mem) (l : rb_link) (x : Z) : option rb_mem :=
  match l with
  | Lroot => Some (set_top m x)
  | Lleft a => st m a (with_left x)
  | Lright a => st m a (with_right x)
  end.

Definition rb_link_node (m : rb_mem) (node parent : Z) (rb_link : rb_link) : option rb_mem :=
  m ← st m node (with_pc parent);
  m ← st m node (with_right 0);
  m ← st m node (with_left 0);
  link_set m rb_link node.

(** Loops are run with this bound: no path of a tree is longer than the
    number of nodes in memory. *)
Definition rb_fuel (m : rb_mem) : nat := S (S (size (rb_nodes m))).

(** ** Rotations *)

Definition __rb_rotate_left (m : rb_mem) (node : Z) : option rb_mem :=
  right ← ld m node rb_right;
  parent ← ld m node rb_parent;
  rl ← ld m right rb_left;
  m ← st m node (with_right rl);
  m ← (if rl =? 0 then Some m
       else rl ← ld m right rb_left; st m rl (rb_set_parent node));
  m ← st m right (with_left node);
  m ← st m right (rb_set_parent parent);
  m ← (if parent =? 0 then Some (set_top m right)
       else
         pl ← ld m parent rb_left;
         if node =? pl then st m parent (with_left right) else st m parent (with_right right));
  st m node (rb_set_parent right).

Definition __rb_rotate_right (m : rb_mem) (node : Z) : option rb_mem :=
  left ← ld m node rb_left;
  parent ← ld m node rb_parent;
  lr ← ld m left rb_right;
  m ← st m node (with_left lr);
  m ← (if lr =? 0 then Some m
       else lr ← ld m left rb_right; st m lr (rb_set_parent node));
  m ← st m left (with_right node);
  m ← st m left (rb_set_parent parent);
  m ← (if parent =? 0 then Some (set_top m left)
       else
         pr ← ld m parent rb_right;
         if node =? pr then st m parent (with_right left) else st m parent (with_left left));
  st m node (rb_set_parent left).

(** [x && rb_is_red(x)] and [!x || rb_is_black(x)] *)
Definition red_node (m : rb_mem) (x : Z) : option bool :=
  if x =? 0 then Some false else ld m x rb_is_red.
Definition black_or_null (m : rb_mem) (x : Z) : option bool :=
  if x =? 0 then Some true else ld m x rb_is_black.

(** ** Insertion *)

Fixpoint rb_insert_loop (fuel : nat) (m : rb_mem) (node : Z) : option rb_mem :=
  match fuel with
  | O => None
  | S fuel =>
    parent ← ld m node rb_parent;
    pred ← red_node m parent;
    if negb pred then Some m
    else
      gparent ← ld m parent rb_parent;
      gl ← ld m gparent rb_left;
      if parent =? gl then
        uncle ← ld m gparent rb_right;
        ured ← red_node m uncle;
        if (ured : bool) then
          m ← st m uncle rb_set_black;
          m ← st m parent rb_set_black;
          m ← st m gparent rb_set_red;
          rb_insert_loop fuel m gparent
        else
          pr ← ld m parent rb_right;
          '(m, parent, node) ←
            (if pr =? node then m ← __rb_rotate_left m parent; Some (m, node, parent)
             else Some (m, parent, node));
          m ← st m parent rb_set_black;
          m ← st m gparent rb_set_red;
          m ← __rb_rotate_right m gparent;
          rb_insert_loop fuel m node
      else
        uncle ← ld m gparent rb_left;
        ured ← red_node m uncle;
        if (ured : bool) then
          m ← st m uncle rb_set_black;
          m ← st m parent rb_set_black;
          m ← st m gparent rb_set_red;
          rb_insert_loop fuel m gparent
        else
          pl ← ld m parent rb_left;
          '(m, parent, node) ←
            (if pl =? node then m ← __rb_rotate_right m parent; Some (m, node, parent)
             else Some (m, parent, node));
          m ← st m parent rb_set_black;
          m ← st m gparent rb_set_red;
          m ← __rb_rotate_left m gparent;
          rb_insert_loop fuel m node
  end.

Definition rb_insert_color (m : rb_mem) (node : Z) : option rb_mem :=
  m ← rb_insert_loop (rb_fuel m) m node;
  st m (rb_top m) rb_set_black.

(** ** Removal *)

(** The loop of [__rb_erase_color]; it gives the node that is blackened at
    the end. *)
Fixpoint rb_erase_loop (fuel : nat) (m : rb_mem) (node parent : Z) : option (rb_mem * Z) :=
  match fuel with
  | O => None
  | S fuel =>
    nb ← black_or_null m node;
    if negb (nb && negb (node =? rb_top m)) then Some (m, node)
    else
      pl ← ld m parent rb_left;
      if pl =? node then
        other ← ld m parent rb_right;
        ored ← ld m other rb_is_red;
        '(m, other) ←
          (if (ored : bool) then
             m ← st m other rb_set_black;
             m ← st m parent rb_set_red;
             m ← __rb_rotate_left m parent;
             other ← ld m parent rb_right;
             Some (m, other)
           else Some (m, other));
        ol ← ld m other rb_left;
        bl ← black_or_null m ol;
        both ← (if (bl : bool) then (or ← ld m other rb_right; black_or_null m or) else Some false);
        if (both : bool) then
          m ← st m other rb_set_red;
          up ← ld m parent rb_parent;
          rb_erase_loop fuel m parent up
        else
          or ← ld m other rb_right;
          br ← black_or_null m or;
          '(m, other) ←
            (if (br : bool) then
               ol ← ld m other rb_left;
               m ← st m ol rb_set_black;
               m ← st m other rb_set_red;
               m ← __rb_rotate_right m other;
               other ← ld m parent rb_right;
               Some (m, other)
             else Some (m, other));
          c ← ld m parent rb_color;
          m ← st m other (rb_set_color c);
          m ← st m parent rb_set_black;
          or ← ld m other rb_right;
          m ← st m or rb_set_black;
          m ← __rb_rotate_left m parent;
          Some (m, rb_top m)
      else
        other ← ld m parent rb_left;
        ored ← ld m other rb_is_red;
        '(m, other) ←
          (if (ored : bool) then
             m ← st m other rb_set_black;
             m ← st m parent rb_set_red;
             m ← __rb_rotate_right m parent;
             other ← ld m parent rb_left;
             Some (m, other)
           else Some (m, other));
        ol ← ld m other rb_left;
        bl ← black_or_null m ol;
        both ← (if (bl : bool) then (or ← ld m other rb_right; black_or_null m or) else Some false);
        if (both : bool) then
          m ← st m other rb_set_red;
          up ← ld m parent rb_parent;
          rb_erase_loop fuel m parent up
        else
          ol ← ld m other rb_left;
          bl ← black_or_null m ol;
          '(m, other) ←
            (if (bl : bool) then
               or ← ld m other rb_right;
               m ← st m or rb_set_black;
               m ← st m other rb_set_red;
               m ← __rb_rotate_left m other;
               other ← ld m parent rb_left;
               Some (m, other)
             else Some (m, other));
          c ← ld m parent rb_color;
          m ← st m other (rb_set_color c);
          m ← st m parent rb_set_black;
          ol ← ld m other rb_left;
          m ← st m ol rb_set_black;
          m ← __rb_rotate_right m parent;
          Some (m, rb_top m)
  end.

Definition __rb_erase_color (m : rb_mem) (node parent : Z) : option rb_mem :=
  '(m, node) ← rb_erase_loop (rb_fuel m) m node parent;
  if node =? 0 then Some m else st m node rb_set_black.

(** [while (n->rb_left) n = n->rb_left], and the same to the right. *)
Fixpoint go_left (fuel : nat) (m : rb_mem) (n : Z) : option Z :=
  match fuel with
  | O => None
  | S fuel => l ← ld m n rb_left; if l =? 0 then Some n else go_left fuel m l
  end.
Fixpoint go_right (fuel : nat) (m : rb_mem) (n : Z) : option Z :=
  match fuel with
  | O => None
  | S fuel => r ← ld m n rb_right; if r =? 0 then Some n else go_right fuel m r
  end.

(** [if (parent) { if (parent->rb_left == old) ... else ... } else
    root->rb_node = new] *)
Definition change_child (m : rb_mem) (parent old new : Z) : option rb_mem :=
  if parent =? 0 then Some (set_top m new)
  else
    pl ← ld m parent rb_left;
    if pl =? old then st m parent (with_left new) else st m parent (with_right new).

(** Takes the successor [node] of [old] out of its place; gives the node
    above that place afterwards. *)
Definition erase_splice (m : rb_mem) (old node child parent : Z) : option (rb_mem * Z) :=
  if parent =? old then Some (m, node)
  else
    m ← (if child =? 0 then Some m else st m child (rb_set_parent parent));
    m ← st m parent (with_left child);
    oright ← ld m old rb_right;
    m ← st m node (with_right oright);
    oright ← ld m old rb_right;
    m ← st m oright (rb_set_parent node);
    Some (m, parent).

(** Gives the successor [node] the colour, parent and left child of [old]. *)
Definition erase_adopt (m : rb_mem) (old node : Z) : option rb_mem :=
  opc ← ld m old rb_parent_color;
  m ← st m node (with_pc opc);
  oleft ← ld m old rb_left;
  m ← st m node (with_left oleft);
  oleft ← ld m old rb_left;
  st m oleft (rb_set_parent node).

(** The branch of [rb_erase] for a node with two children, up to the
    label [color]: the successor takes the node's place. *)
Definition rb_erase_two (m : rb_mem) (old : Z) : option (rb_mem * Z * Z * Z) :=
  r ← ld m old rb_right;
  node ← go_left (rb_fuel m) m r;
  op ← ld m old rb_parent;
  m ← change_child m op old node;
  child ← ld m node rb_right;
  parent ← ld m node rb_parent;
  color ← ld m node rb_color;
  '(m, parent) ← erase_splice m old node child parent;
  m ← erase_adopt m old node;
  Some (m, child, parent, color).

(** The code between the branches of [rb_erase] and the label [color], for a
    node with at most one child. *)
Definition rb_erase_one (m : rb_mem) (node child : Z) : option (rb_mem * Z * Z * Z) :=
  parent ← ld m node rb_parent;
  color ← ld m node rb_color;
  m ← (if child =? 0 then Some m else st m child (rb_set_parent parent));
  m ← change_child m parent node child;
  Some (m, child, parent, color).

Definition rb_erase (m : rb_mem) (node : Z) : option rb_mem :=
  l ← ld m node rb_left;
  r ← ld m node rb_right;
  '(m, child, parent, color) ←
    (if l =? 0 then rb_erase_one m node r
     else if r =? 0 then rb_erase_one m node l
     else rb_erase_two m node);
  if color =? RB_BLACK then __rb_erase_color m child parent else Some m.

(** ** Walking the tree *)

Definition rb_first (m : rb_mem) : option Z :=
  if rb_top m =? 0 then Some 0 else go_left (rb_fuel m) m (rb_top m).
Definition rb_last (m : rb_mem) : option Z :=
  if rb_top m =? 0 then Some 0 else go_right (rb_fuel m) m (rb_top m).

(** [while ((parent = rb_parent(node)) && node == parent->rb_right)
    node = parent; return parent], and its mirror image. *)
Fixpoint up_right (fuel : nat) (m : rb_mem) (node : Z) : option Z :=
  match fuel with
  | O => None
  | S fuel =>
    parent ← ld m node rb_parent;
    if parent =? 0 then Some parent
    else pr ← ld m parent rb_right; if node =? pr then up_right fuel m parent else Some parent
  end.
Fixpoint up_left (fuel : nat) (m : rb_mem) (node : Z) : option Z :=
  match fuel with
  | O => None
  | S fuel =>
    parent ← ld m node rb_parent;
    if parent =? 0 then Some parent
    else pl ← ld m parent rb_left; if node =? pl then up_left fuel m parent else Some parent
  end.

Definition rb_next (m : rb_mem) (node : Z) : option Z :=
  p ← ld m node rb_parent;
  if p =? node then Some 0
  else
    r ← ld m node rb_right;
    if negb (r =? 0) then go_left (rb_fuel m) m r else up_right (rb_fuel m) m node.

Definition rb_prev (m : rb_mem) (node : Z) : option Z :=
  p ← ld m node rb_parent;
  if p =? node then Some 0
  else
    l ← ld m node rb_left;
    if negb (l =? 0) then go_right (rb_fuel m) m l else up_left (rb_fuel m) m node.

Definition rb_replace_node (m : rb_mem) (victim new : Z) : option rb_mem :=
  parent ← ld m victim rb_parent;
  m ← (if parent =? 0 then Some (set_top m new)
       else
         pl ← ld m parent rb_left;
         if victim =? pl then st m parent (with_left new) else st m parent (with_right new));
  l ← ld m victim rb_left;
  m ← (if l =? 0 then Some m else st m l (rb_set_parent new));
  r ← ld m victim rb_right;
  m ← (if r =? 0 then Some m else st m r (rb_set_parent new));
  v ← rb_nodes m !! victim;
  st m new (fun _ => v).

(** ** Traversal and augmentation with a callback

    The callback gets the address of a node and changes a state of its own;
    it leaves the tree's links alone, as the callers' do. *)

Section Callback.
Context {D : Type} (cb : Z -> D -> D).

Fixpoint rb_inorder_callback (fuel : nat) (m : rb_mem) (node : Z) (s : D) : option D :=
  match fuel with
  | O => None
  | S fuel =>
    if node =? 0 then Some s
    else
      l ← ld m node rb_left;
      s ← rb_inorder_callback fuel m l s;
      let s := cb node s in
      r ← ld m node rb_right;
      rb_inorder_callback fuel m r s
  end.

Definition rb_traverse_with_callback (m : rb_mem) (s : D) : option D :=
  if rb_top m =? 0 then Some s else rb_inorder_callback (rb_fuel m) m (rb_top m) s.

Fixpoint rb_augment_path (fuel : nat) (m : rb_mem) (node : Z) (s : D) : option D :=
  match fuel with
  | O => None
  | S fuel =>
    let s := cb node s in
    parent ← ld m node rb_parent;
    if parent =? 0 then Some s
    else
      pl ← ld m parent rb_left;
      pr ← ld m parent rb_right;
      let s :=
        if (node =? pl) && negb (pr =? 0) then cb pr s
        else if negb (pl =? 0) then cb pl s else s in
      rb_augment_path fuel m parent s
  end.

Definition rb_augment_insert (m : rb_mem) (node : Z) (s : D) : option D :=
  l ← ld m node rb_left;
  r ← ld m node rb_right;
  let node := if negb (l =? 0) then l else if negb (r =? 0) then r else node in
  rb_augment_path (rb_fuel m) m node s.

Definition rb_augment_erase_end (m : rb_mem) (node : Z) (s : D) : option D :=
  if negb (node =? 0) then rb_augment_path (rb_fuel m) m node s else Some s.

End Callback.

Definition rb_augment_erase_begin (m : rb_mem) (node : Z) : option Z :=
  r ← ld m node rb_right;
  l ← ld m node rb_left;
  if (r =? 0) && (l =? 0) then ld m node rb_parent
  else if r =? 0 then Some l
  else if l =? 0 then Some r
  else
    deepest ← rb_next m node;
    dr ← ld m deepest rb_right;
    if negb (dr =? 0) then Some dr
    else
      dp ← ld m deepest rb_parent;
      if negb (dp =? node) then Some dp else Some deepest.
