(* ===== verification/RbShape.v ===== *)
(** * Trees in memory

    The inductive trees that the nodes in memory form, contexts (a tree with
    a hole, from the hole to the root), the relation [Rep] between memory and
    a tree seen from a point inside it, and the effect of the primitive
    operations of [RbTree] on it: recolouring, re-parenting, changing the
    child of the hole's parent, rotating.

    The code comes in mirrored pairs. [dir] names the side, and each pair is
    the two instances of one definition here. *)

From stdpp Require Import gmap.
From S2P Require Import Prelude RbTree.

(** ** The packed word *)

Inductive color := Red | Black.
#[export] Instance color_eq_dec : EqDecision color.
Proof. solve_decision. Defined.

Definition colz (c : color) : Z := match c with Red => 0 | Black => 1 end.
Definition pack (p : Z) (c : color) : Z := Z.lor (colz c) p.

(** Addresses that can be packed: the nodes are aligned. *)
Definition aligned (p : Z) : Prop := 0 <= p /\ p mod 4 = 0.

Lemma aligned_low p n : aligned p -> n < 2 -> Z.testbit p n = false.
Proof.
  intros [? H] ?. rewrite (Z.div_mod p 4), H, Z.add_0_r by lia.
  change 4 with (2 ^ 2). rewrite Z.mul_comm, Z.mul_pow2_bits by lia. apply Z.testbit_neg_r. lia.
Qed.

Lemma low_bits k n : 0 <= k < 4 -> 2 <= n -> Z.testbit k n = false.
Proof.
  intros. rewrite <- (Z.mod_small k (2 ^ 2)) by lia. apply Z.mod_pow2_bits_high. lia.
Qed.

(** Proves an equation on packed words bit by bit. *)
Ltac pack_bits Hp :=
  apply Z.bits_inj'; intros n Hn; unfold pack; simpl colz;
  rewrite ?Z.lor_spec, ?Z.land_spec, ?Z.lnot_spec, ?Z.lor_spec by lia;
  destruct (Z.lt_ge_cases n 2);
  [ rewrite ?(aligned_low _ n Hp) by lia;
    assert (n = 0 \/ n = 1) as [->| ->] by lia; simpl
  | rewrite ?Z.bits_0, ?(low_bits 3 n), ?(low_bits 1 n) by lia; simpl;
    rewrite ?andb_true_r, ?andb_false_r, ?orb_false_r ]; done.

Lemma pack_parent p c : aligned p -> Z.land (pack p c) (Z.lnot 3) = p.
Proof. intros Hp. destruct c; pack_bits Hp. Qed.

Lemma pack_color p c : aligned p -> Z.land (pack p c) 1 = colz c.
Proof. intros Hp. destruct c; pack_bits Hp. Qed.

Lemma pack_set_parent p q c : aligned p -> Z.lor (Z.land (pack p c) 3) q = pack q c.
Proof. intros Hp. unfold pack at 2. f_equal. destruct c; pack_bits Hp. Qed.

Lemma pack_set_red p c : aligned p -> Z.land (pack p c) (Z.lnot 1) = pack p Red.
Proof. intros Hp. destruct c; pack_bits Hp. Qed.

Lemma pack_set_black p c : aligned p -> Z.lor (pack p c) 1 = pack p Black.
Proof. intros Hp. destruct c; pack_bits Hp. Qed.

Lemma pack_set_color p c c' :
  aligned p -> Z.lor (Z.land (pack p c) (Z.lnot 1)) (colz c') = pack p c'.
Proof.
  intros Hp. rewrite pack_set_red by done. unfold pack. simpl colz.
  by rewrite Z.lor_0_l, Z.lor_comm.
Qed.

(** ** Sides *)

Inductive dir := L | R.
Definition opp (d : dir) : dir := match d with L => R | R => L end.
#[export] Instance dir_eq_dec : EqDecision dir.
Proof. solve_decision. Defined.

Definition child (d : dir) (n : rb_node) : Z := match d with L => rb_left n | R => rb_right n end.
Definition with_child (d : dir) : Z -> rb_node -> rb_node :=
  match d with L => with_left | R => with_right end.

(** A node with parent [p], colour [c], child [x] on side [d] and [y] on the
    other. *)
Definition nd (d : dir) (p : Z) (c : color) (x y : Z) : rb_node :=
  match d with L => mkRb (pack p c) y x | R => mkRb (pack p c) x y end.

Section Nd.
Context (d : dir) (p : Z) (c : color) (x y : Z).

Lemma nd_opp : nd (opp d) p c x y = nd d p c y x.
Proof. by destruct d. Qed.
Lemma nd_child : child d (nd d p c x y) = x.
Proof. by destruct d. Qed.
Lemma nd_child_opp : child (opp d) (nd d p c x y) = y.
Proof. by destruct d. Qed.
Lemma nd_with_child z : with_child d z (nd d p c x y) = nd d p c z y.
Proof. by destruct d. Qed.
Lemma nd_with_child_opp z : with_child (opp d) z (nd d p c x y) = nd d p c x z.
Proof. by destruct d. Qed.

Context (Hp : aligned p).
Lemma nd_parent : rb_parent (nd d p c x y) = p.
Proof. destruct d; by apply pack_parent. Qed.
Lemma nd_color : rb_color (nd d p c x y) = colz c.
Proof. destruct d; by apply pack_color. Qed.
Lemma nd_is_red : rb_is_red (nd d p c x y) = bool_decide (c = Red).
Proof. unfold rb_is_red. rewrite nd_color. by destruct c. Qed.
Lemma nd_is_black : rb_is_black (nd d p c x y) = bool_decide (c = Black).
Proof. unfold rb_is_black. rewrite nd_color. by destruct c. Qed.
Lemma nd_set_parent q : rb_set_parent q (nd d p c x y) = nd d q c x y.
Proof. unfold rb_set_parent, with_pc. destruct d; simpl; by rewrite pack_set_parent. Qed.
Lemma nd_set_color c' : rb_set_color (colz c') (nd d p c x y) = nd d p c' x y.
Proof. unfold rb_set_color, with_pc. destruct d; simpl; by rewrite pack_set_color. Qed.
Lemma nd_set_red : rb_set_red (nd d p c x y) = nd d p Red x y.
Proof. unfold rb_set_red, with_pc. destruct d; simpl; by rewrite pack_set_red. Qed.
Lemma nd_set_black : rb_set_black (nd d p c x y) = nd d p Black x y.
Proof. unfold rb_set_black, with_pc. destruct d; simpl; by rewrite pack_set_black. Qed.
End Nd.

#[global] Arguments nd : simpl never.

(** ** Trees and contexts *)

Inductive tree := E | T (c : color) (l : tree) (a : Z) (r : tree).

Definition rt (t : tree) : Z := match t with E => 0 | T _ _ a _ => a end.
Fixpoint inorder (t : tree) : list Z :=
  match t with E => [] | T _ l a r => inorder l ++ a :: inorder r end.

(** The tree with colour [c], subtree [x] on side [d], root [a] and subtree
    [y] on the other side. *)
Definition mk (d : dir) (c : color) (x : tree) (a : Z) (y : tree) : tree :=
  match d with L => T c x a y | R => T c y a x end.

(** The node [fa] above a hole, which is its child on side [fd]; [fs] is the
    other subtree. A context lists them from the hole up. *)
Record frame := F { fd : dir; fc : color; fa : Z; fs : tree }.
Definition ctx := list frame.

Definition top (C : ctx) : Z := match C with [] => 0 | f :: _ => fa f end.
Definition plug1 (f : frame) (t : tree) : tree := mk (fd f) (fc f) t (fa f) (fs f).
Fixpoint plug (C : ctx) (t : tree) : tree :=
  match C with [] => t | f :: C => plug C (plug1 f t) end.
(** The root's address when the hole holds a tree rooted at [q]. *)
Definition rootC (C : ctx) (q : Z) : Z := match last C with None => q | Some f => fa f end.

Fixpoint addrsC (C : ctx) : list Z :=
  match C with [] => [] | f :: C => fa f :: inorder (fs f) ++ addrsC C end.

(** What stands before and after the hole in the in-order list. *)
Fixpoint beforeC (C : ctx) : list Z :=
  match C with
  | [] => []
  | F L _ _ _ :: C => beforeC C
  | F R _ a s :: C => beforeC C ++ inorder s ++ [a]
  end.
Fixpoint afterC (C : ctx) : list Z :=
  match C with
  | [] => []
  | F L _ a s :: C => a :: inorder s ++ afterC C
  | F R _ _ _ :: C => afterC C
  end.

Lemma inorder_plug C t : inorder (plug C t) = beforeC C ++ inorder t ++ afterC C.
Proof.
  revert t. induction C as [|[[] c a s] C IH]; intros t; simpl; rewrite ?IH; simpl.
  all: by rewrite ?app_nil_r, <- ?app_assoc.
Qed.

Lemma plug_app C D t : plug (D ++ C) t = plug C (plug D t).
Proof. revert t. induction D as [|f D IH]; intros t; simpl; [done|apply IH]. Qed.

Lemma inorder_mk d c x a y :
  inorder (mk d c x a y) = match d with L => inorder x ++ a :: inorder y | R => inorder y ++ a :: inorder x end.
Proof. by destruct d. Qed.

Lemma rt_mk d c x a y : rt (mk d c x a y) = a.
Proof. by destruct d. Qed.

Lemma addrs_mk d c x a y : inorder (mk d c x a y) ≡ₚ a :: inorder x ++ inorder y.
Proof. destruct d; simpl; solve_Permutation. Qed.

Lemma addrsC_perm C : addrsC C ≡ₚ beforeC C ++ afterC C.
Proof. induction C as [|[[] c a s] C IH]; simpl; rewrite ?IH; solve_Permutation. Qed.

Lemma addrs_plug C t : inorder (plug C t) ≡ₚ addrsC C ++ inorder t.
Proof. rewrite inorder_plug, addrsC_perm. solve_Permutation. Qed.

(** ** Memory *)

Abbreviation heap := (gmap Z rb_node).

Fixpoint shape (h : heap) (p : Z) (t : tree) : Prop :=
  match t with
  | E => True
  | T c l a r => h !! a = Some (nd L p c (rt l) (rt r)) /\ shape h a l /\ shape h a r
  end.

Fixpoint shapeC (h : heap) (C : ctx) (q : Z) : Prop :=
  match C with
  | [] => True
  | f :: C =>
      h !! fa f = Some (nd (fd f) (top C) (fc f) q (rt (fs f))) /\
      shape h (fa f) (fs f) /\ shapeC h C (fa f)
  end.

Definition good (a : Z) : Prop := a <> 0 /\ aligned a.

(** Memory [m] holds the tree [plug C t], and agrees with [H] on every
    address that is not a node of it. *)
Record Rep (H : heap) (m : rb_mem) (C : ctx) (t : tree) : Prop := mkRep {
  rep_root : rb_top m = rootC C (rt t);
  rep_ctx : shapeC (rb_nodes m) C (rt t);
  rep_tree : shape (rb_nodes m) (top C) t;
  rep_nodup : NoDup (addrsC C ++ inorder t);
  rep_good : Forall good (addrsC C ++ inorder t);
  rep_frame : forall k, k ∉ addrsC C ++ inorder t -> rb_nodes m !! k = H !! k;
}.

Lemma shape_mk h p d c x a y :
  shape h p (mk d c x a y) <->
  h !! a = Some (nd d p c (rt x) (rt y)) /\ shape h a x /\ shape h a y.
Proof. destruct d; simpl; tauto. Qed.

Lemma rootC_cons f C q : rootC (f :: C) q = rootC C (fa f).
Proof. unfold rootC. rewrite last_cons. by destruct (last C). Qed.

(** Moving the point of view up and down the tree. *)
Lemma Rep_focus H m d c a s C t : Rep H m (F d c a s :: C) t <-> Rep H m C (mk d c t a s).
Proof.
  assert (addrsC (F d c a s :: C) ++ inorder t ≡ₚ addrsC C ++ inorder (mk d c t a s)) as HP.
  { rewrite addrs_mk. simpl. solve_Permutation. }
  split; intros [H1 H2 H3 H4 H5 H6].
  - rewrite rootC_cons in H1. simpl in H1, H2, H3. destruct H2 as (? & ? & ?).
    split; rewrite ?rt_mk, ?shape_mk, <- ?HP; auto. intros k Hk. apply H6. by rewrite HP.
  - rewrite rt_mk in *. rewrite shape_mk in H3. destruct H3 as (? & ? & ?).
    split; rewrite ?rootC_cons; simpl; auto; [by rewrite <- HP in H4|by rewrite <- HP in H5|].
    intros k Hk. apply H6. by rewrite <- HP.
Qed.

Lemma Rep_plug H m C t : Rep H m C t <-> Rep H m [] (plug C t).
Proof.
  revert t. induction C as [|[d c a s] C IH]; intros t; simpl; [done|]. by rewrite Rep_focus, IH.
Qed.

Lemma Rep_app H m C D t : Rep H m (D ++ C) t <-> Rep H m C (plug D t).
Proof. by rewrite Rep_plug, plug_app, <- Rep_plug. Qed.

(** ** Changing memory *)

Definition eqout (X : list Z) (h h' : heap) : Prop := forall k, k ∉ X -> h' !! k = h !! k.

Lemma eqout_insert X h h' a n : a ∈ X -> eqout X h h' -> eqout X h (<[a := n]> h').
Proof. intros Ha HX k Hk. rewrite lookup_insert_ne by congruence. by apply HX. Qed.

Lemma shape_frame h h' p t :
  (forall k, k ∈ inorder t -> h' !! k = h !! k) -> shape h p t -> shape h' p t.
Proof.
  revert p. induction t as [|c l IHl a r IHr]; intros p; simpl; [done|].
  intros Hk (? & ? & ?). rewrite Hk by set_solver.
  split_and!; [done|apply IHl|apply IHr]; try done; intros; apply Hk; set_solver.
Qed.

Lemma shapeC_frame h h' C q :
  (forall k, k ∈ addrsC C -> h' !! k = h !! k) -> shapeC h C q -> shapeC h' C q.
Proof.
  revert q. induction C as [|f C IH]; intros q; simpl; [done|].
  intros Hk (? & ? & ?). rewrite Hk by set_solver.
  split_and!; [done|eapply shape_frame; [|done]|apply IH]; try done; intros; apply Hk; set_solver.
Qed.

Lemma ld_eq {A} m a n (f : rb_node -> A) : rb_nodes m !! a = Some n -> ld m a f = Some (f n).
Proof. unfold ld. by intros ->. Qed.

Lemma st_eq m a n g :
  rb_nodes m !! a = Some n -> st m a g = Some (mkRm (<[a := g n]> (rb_nodes m)) (rb_top m)).
Proof. unfold st. by intros ->. Qed.

Lemma st_mk h r a n g : h !! a = Some n -> st (mkRm h r) a g = Some (mkRm (<[a := g n]> h) r).
Proof. apply (st_eq (mkRm h r)). Qed.

Lemma Rep_top_aligned H m C t : Rep H m C t -> aligned (top C).
Proof.
  intros [_ _ _ _ G _]. destruct C as [|f C]; simpl in *; [done|].
  by apply Forall_cons in G as [[] _].
Qed.

Lemma Rep_node H m C d c x a y :
  Rep H m C (mk d c x a y) -> rb_nodes m !! a = Some (nd d (top C) c (rt x) (rt y)).
Proof. intros HR. by apply rep_tree, shape_mk in HR as [? _]. Qed.

Lemma Rep_good H m C t a : Rep H m C t -> a ∈ addrsC C ++ inorder t -> good a.
Proof. intros HR. by apply Forall_forall, (rep_good _ _ _ _ HR). Qed.

Lemma aligned_0 : aligned 0.
Proof. done. Qed.

(** Re-parents a subtree. *)
Lemma reparent_ok m p q t :
  shape (rb_nodes m) p t -> NoDup (inorder t) -> Forall good (inorder t) -> aligned p ->
  exists h, (if rt t =? 0 then Some m else st m (rt t) (rb_set_parent q)) = Some (mkRm h (rb_top m)) /\
            shape h q t /\ eqout (inorder t) (rb_nodes m) h.
Proof.
  destruct t as [|c l a r]; simpl; intros HS ND G Hp.
  { exists (rb_nodes m). destruct m. done. }
  destruct HS as (Ha & Hl & Hr).
  assert (good a) as [Ha0 _] by (eapply Forall_forall; [done|set_solver]).
  apply Z.eqb_neq in Ha0. rewrite Ha0, (st_eq _ _ _ _ Ha).
  apply NoDup_app in ND as (NDl & Hd & [Har NDr]%NoDup_cons).
  eexists. split; [done|]. rewrite nd_set_parent by done. split_and!.
  - by rewrite lookup_insert_eq.
  - eapply shape_frame; [|done]. intros k Hk. apply lookup_insert_ne. set_solver.
  - eapply shape_frame; [|done]. intros k Hk. apply lookup_insert_ne. set_solver.
  - apply eqout_insert; [set_solver|]. done.
Qed.

(** The link above the hole, read on side [d]. *)
Definition relink (d : dir) (m : rb_mem) (parent old new : Z) : option rb_mem :=
  if parent =? 0 then Some (set_top m new)
  else
    x ← ld m parent (child d);
    if old =? x then st m parent (with_child d new) else st m parent (with_child (opp d) new).

Lemma relink_ok d m C q q' :
  shapeC (rb_nodes m) C q -> rb_top m = rootC C q ->
  NoDup (addrsC C) -> Forall good (addrsC C) -> q <> 0 -> q ∉ addrsC C ->
  exists m', relink d m (top C) q q' = Some m' /\
    shapeC (rb_nodes m') C q' /\ rb_top m' = rootC C q' /\ eqout (addrsC C) (rb_nodes m) (rb_nodes m').
Proof.
  unfold relink. destruct C as [|[d' c a s] C]; simpl; intros HS Hr ND G Hq0 Hq.
  { eexists. split_and!; done. }
  destruct HS as (Ha & Hs & HC). apply Forall_cons in G as [[Ha0 _] G]. apply Z.eqb_neq in Ha0.
  apply NoDup_cons in ND as [Ha' ND]. rewrite Ha0, (ld_eq _ _ _ _ Ha). simpl.
  assert ((if q =? child d (nd d' (top C) c q (rt s)) then st m a (with_child d q')
           else st m a (with_child (opp d) q')) = st m a (with_child d' q')) as ->.
  { destruct (decide (d = d')) as [->|]; [by rewrite nd_child, Z.eqb_refl|].
    assert (d = opp d') as -> by (destruct d, d'; done). rewrite nd_child_opp.
    assert (opp (opp d') = d') as -> by (by destruct d').
    destruct (Z.eqb_spec q (rt s)) as [->|]; [|done].
    destruct s; simpl in *; set_solver. }
  rewrite (st_eq _ _ _ _ Ha), nd_with_child. eexists. split; [done|]. simpl.
  rewrite !rootC_cons in *. split_and!; [by rewrite lookup_insert_eq| | |done|].
  - eapply shape_frame; [|done]. intros k Hk. apply lookup_insert_ne. set_solver.
  - eapply shapeC_frame; [|done]. intros k Hk. apply lookup_insert_ne. set_solver.
  - apply eqout_insert; [set_solver|done].
Qed.

(** ** Recolouring and rotating *)

Lemma Rep_upd H m C t m' C' t' :
  Rep H m C t -> addrsC C' ++ inorder t' ≡ₚ addrsC C ++ inorder t ->
  rb_top m' = rootC C' (rt t') -> shapeC (rb_nodes m') C' (rt t') -> shape (rb_nodes m') (top C') t' ->
  eqout (addrsC C ++ inorder t) (rb_nodes m) (rb_nodes m') -> Rep H m' C' t'.
Proof.
  intros [_ _ _ N G Fr] HP Hr HC HT Ho. split; [done..|by rewrite HP|by rewrite HP|].
  intros k Hk. rewrite HP in Hk. by rewrite Ho, Fr.
Qed.

Lemma Rep_split H m C d c x a y :
  Rep H m C (mk d c x a y) ->
  NoDup (addrsC C ++ a :: inorder x ++ inorder y) /\ Forall good (addrsC C ++ a :: inorder x ++ inorder y).
Proof. intros [_ _ _ N G _]. by rewrite addrs_mk in N, G. Qed.

(** Splits the [NoDup] of an appended list into disjointness facts. *)
Ltac nodups :=
  repeat match goal with
  | N : NoDup (_ ++ _) |- _ => apply NoDup_app in N as (? & ? & ?)
  | N : NoDup (_ :: _) |- _ => apply NoDup_cons in N as (? & ?)
  end.
Ltac goods :=
  repeat match goal with
  | G : Forall _ (_ ++ _) |- _ => apply Forall_app in G as (? & ?)
  | G : Forall _ (_ :: _) |- _ => apply Forall_cons in G as (? & ?)
  end.

(** Writing [c'] in the colour of the node in focus. *)
Lemma recolor_ok H m C d c x a y g c' :
  Rep H m C (mk d c x a y) ->
  g (nd d (top C) c (rt x) (rt y)) = nd d (top C) c' (rt x) (rt y) ->
  exists m', st m a g = Some m' /\ rb_top m' = rb_top m /\ Rep H m' C (mk d c' x a y).
Proof.
  intros HR Hg. pose proof (Rep_node _ _ _ _ _ _ _ _ HR) as Ha.
  rewrite (st_eq _ _ _ _ Ha), Hg. eexists. split_and!; [done..|].
  destruct (Rep_split _ _ _ _ _ _ _ _ HR) as [N G]. nodups.
  pose proof (rep_tree _ _ _ _ HR) as HT. apply shape_mk in HT as (_ & Hx & Hy).
  eapply (Rep_upd _ _ _ _ _ _ _ HR); simpl.
  - by rewrite !addrs_mk.
  - rewrite (rep_root _ _ _ _ HR). by rewrite !rt_mk.
  - pose proof (rep_ctx _ _ _ _ HR) as HC. rewrite rt_mk in *.
    eapply shapeC_frame; [|done]. intros. apply lookup_insert_ne. set_solver.
  - apply shape_mk. split_and!; [by rewrite lookup_insert_eq| |].
    all: eapply shape_frame; [|done]; intros; apply lookup_insert_ne; set_solver.
  - apply eqout_insert; [|done]. rewrite addrs_mk. set_solver.
Qed.

Definition rb_rotate (d : dir) (m : rb_mem) (node : Z) : option rb_mem :=
  up ← ld m node (child (opp d));
  parent ← ld m node rb_parent;
  x ← ld m up (child d);
  m ← st m node (with_child (opp d) x);
  m ← (if x =? 0 then Some m else x ← ld m up (child d); st m x (rb_set_parent node));
  m ← st m up (with_child d node);
  m ← st m up (rb_set_parent parent);
  m ← relink d m parent node up;
  st m node (rb_set_parent up).

Lemma rotate_left_dir : __rb_rotate_left = rb_rotate L.
Proof. reflexivity. Qed.
Lemma rotate_right_dir : __rb_rotate_right = rb_rotate R.
Proof. reflexivity. Qed.

Lemma rotate_ok H m C d c x a c2 y b z :
  Rep H m C (mk d c x a (mk d c2 y b z)) ->
  exists m', rb_rotate d m a = Some m' /\ Rep H m' C (mk d c2 (mk d c x a y) b z).
Proof.
  intros HR. pose proof (Rep_top_aligned _ _ _ _ HR) as Htop.
  destruct (Rep_split _ _ _ _ _ _ _ _ HR) as [N G]. rewrite addrs_mk in N, G. nodups. goods.
  pose proof HR as [Hr HC HT _ _ _]. rewrite !rt_mk in *. rewrite !shape_mk in HT.
  destruct HT as (Ha & Hx & Hb & Hy & Hz). rewrite rt_mk in *.
  assert (a <> b) by set_solver.
  assert (good a) as [Ha0 Haa] by done. assert (good b) as [Hb0 Hba] by done.
  unfold rb_rotate. rewrite !(ld_eq _ _ _ _ Ha). cbn.
  rewrite nd_child_opp, nd_parent, (ld_eq _ _ _ _ Hb) by done. cbn.
  rewrite nd_child, (st_eq _ _ _ _ Ha), nd_with_child_opp by done. cbn.
  set (m1 := mkRm _ _).
  assert (ld m1 b (child d) = Some (rt y)) as ->.
  { unfold ld. simpl. rewrite lookup_insert_ne, Hb by done. simpl. by rewrite nd_child. }
  destruct (reparent_ok m1 b a y) as (h2 & E2 & Hy2 & O2); try done.
  { eapply shape_frame; [|done]. intros. apply lookup_insert_ne. set_solver. }
  cbn. rewrite E2. cbn.
  assert (h2 !! b = Some (nd d a c2 (rt y) (rt z))) as Hb2.
  { rewrite O2 by set_solver. simpl. by rewrite lookup_insert_ne. }
  rewrite (st_mk _ _ _ _ _ Hb2), nd_with_child. cbn.
  rewrite (st_mk _ _ _ _ _ (lookup_insert_eq _ _ _)). cbn. rewrite nd_set_parent, insert_insert_eq by done. set (m3 := mkRm _ _).
  destruct (relink_ok d m3 C a b) as (m4 & -> & HC4 & Hr4 & O4); try done; [|set_solver|].
  { eapply shapeC_frame; [|done]. intros. simpl. rewrite lookup_insert_ne, O2 by set_solver.
    apply lookup_insert_ne. set_solver. }
  cbn.
  assert (forall k, k ∉ addrsC C -> k <> b -> k ∉ inorder y -> k <> a -> rb_nodes m4 !! k = rb_nodes m !! k) as O.
  { intros. rewrite O4 by done. simpl. rewrite lookup_insert_ne, O2 by done. by apply lookup_insert_ne. }
  assert (rb_nodes m4 !! a = Some (nd d (top C) c (rt x) (rt y))) as Ha4.
  { rewrite O4 by set_solver. simpl. rewrite lookup_insert_ne, O2 by set_solver. apply lookup_insert_eq. }
  rewrite (st_eq _ _ _ _ Ha4), nd_set_parent by done. eexists. split; [done|].
  eapply (Rep_upd _ _ _ _ _ _ _ HR); simpl; rewrite ?rt_mk.
  - rewrite !addrs_mk. solve_Permutation.
  - done.
  - eapply shapeC_frame; [|done]. intros. apply lookup_insert_ne. set_solver.
  - rewrite !shape_mk, rt_mk. split_and!.
    + rewrite lookup_insert_ne, O4 by set_solver. simpl. by rewrite lookup_insert_eq.
    + by rewrite lookup_insert_eq.
    + eapply shape_frame; [|done]. intros. rewrite lookup_insert_ne by set_solver. apply O; set_solver.
    + eapply shape_frame; [|done]. intros. rewrite lookup_insert_ne, O4 by set_solver. simpl.
      apply lookup_insert_ne. set_solver.
    + eapply shape_frame; [|done]. intros. rewrite lookup_insert_ne by set_solver. apply O; set_solver.
  - intros k Hk. rewrite !addrs_mk in Hk. rewrite lookup_insert_ne by set_solver. apply O; set_solver.
Qed.
