(* ===== verification/RbInsert.v ===== *)
(** * Insertion into a red-black tree

    The red-black invariant of trees and of contexts, and [rb_link_node]
    followed by [rb_insert_color]: the loop ends within its bound, the node
    stands where it was linked, and the tree is red-black again. *)

From stdpp Require Import gmap.
From S2P Require Import Prelude RbTree RbShape.

(** ** The invariant *)

Definition colour (t : tree) : color := match t with E => Black | T c _ _ _ => c end.

(** Every path of [t] has [n] black nodes and no red node has a red child. *)
Fixpoint rbt (t : tree) (n : nat) : Prop :=
  match t with
  | E => n = 0%nat
  | T Red l _ r => rbt l n /\ rbt r n /\ colour l = Black /\ colour r = Black
  | T Black l _ r => match n with O => False | S k => rbt l k /\ rbt r k end
  end.

Definition red_black (t : tree) : Prop := colour t = Black /\ exists n, rbt t n.

(** The hole is the child of a black node. *)
Definition under_black (C : ctx) : Prop := match C with F _ Black _ _ :: _ => True | _ => False end.

(** The context completes any tree of black height [n] that fits its hole. *)
Fixpoint cok (C : ctx) (n : nat) : Prop :=
  match C with
  | [] => True
  | F _ Red _ s :: C => rbt s n /\ colour s = Black /\ under_black C /\ cok C n
  | F _ Black _ s :: C => rbt s n /\ cok C (S n)
  end.

Definition fits (C : ctx) (t : tree) : Prop := colour t = Black \/ under_black C.

Lemma colour_mk d c x a y : colour (mk d c x a y) = c.
Proof. by destruct d. Qed.

Lemma mk_opp d c x a y : mk (opp d) c y a x = mk d c x a y.
Proof. by destruct d. Qed.

Lemma opp_opp d : opp (opp d) = d.
Proof. by destruct d. Qed.

Lemma rbt_mk_red d x a y n :
  rbt (mk d Red x a y) n <-> rbt x n /\ rbt y n /\ colour x = Black /\ colour y = Black.
Proof. destruct d; simpl; tauto. Qed.

Lemma rbt_mk_black d x a y n : rbt (mk d Black x a y) (S n) <-> rbt x n /\ rbt y n.
Proof. destruct d; simpl; tauto. Qed.

Lemma rbt_mk_black_inv d x a y n :
  rbt (mk d Black x a y) n -> exists k, n = S k /\ rbt x k /\ rbt y k.
Proof. destruct n; [by destruct d|]. rewrite rbt_mk_black. eauto. Qed.

Lemma plug_rbt C n t :
  cok C n -> rbt t n -> (C <> [] -> fits C t) -> exists k, rbt (plug C t) k.
Proof.
  revert t n. induction C as [|[d [] a s] C IH]; intros t n HC Ht HF; simpl in *; [eauto| |].
  - destruct HC as (Hs & Hsb & Hu & HC). destruct HF as [HF|HF]; [done| |done].
    apply (IH _ n); [done|by apply rbt_mk_red|]. intros _. by right.
  - destruct HC as (Hs & HC). apply (IH _ (S n)); [done|by apply rbt_mk_black|].
    intros _. left. apply colour_mk.
Qed.

Lemma cok_black C n : cok C n -> C <> [] -> forall t, colour (plug C t) = Black.
Proof.
  revert n. induction C as [|[d [] a s] C IH]; intros n HC Hne t; [done| |]; clear Hne; simpl in *.
  - destruct HC as (_ & _ & Hu & HC). eapply IH; [done|]. by destruct C.
  - destruct HC as (_ & HC). destruct C; [apply colour_mk|]. by eapply IH.
Qed.

Lemma plug_red_black C n t : cok C n -> rbt t n -> fits C t -> red_black (plug C t).
Proof.
  intros HC Ht HF. split; [|by eapply plug_rbt]. destruct C as [|f C].
  - by destruct HF.
  - by eapply cok_black.
Qed.

Lemma red_black_plug C t : red_black (plug C t) -> exists n, cok C n /\ rbt t n /\ fits C t.
Proof.
  revert t. induction C as [|[d [] a s] C IH]; intros t; simpl.
  - intros [? [n ?]]. exists n. unfold fits. eauto.
  - intros (n & HC & Ht & HF)%IH. unfold plug1 in *. simpl in *. apply rbt_mk_red in Ht as (? & ? & ? & ?).
    unfold fits in *. rewrite colour_mk in HF. destruct HF; [done|]. exists n. tauto.
  - intros (n & HC & Ht & HF)%IH. unfold plug1 in *. simpl in *.
    apply rbt_mk_black_inv in Ht as (k & -> & ? & ?). exists k. unfold fits. simpl. tauto.
Qed.

(** ** Bounds on the loops *)

Lemma shape_dom h p t k : shape h p t -> k ∈ inorder t -> is_Some (h !! k).
Proof.
  revert p. induction t as [|c l IHl a r IHr]; intros p; simpl; [set_solver|].
  intros (Ha & ? & ?). rewrite elem_of_app, elem_of_cons. intros [?|[->|?]]; eauto.
Qed.

Lemma Rep_size H m C t : Rep H m C t -> (length C + length (inorder t) <= size (rb_nodes m))%nat.
Proof.
  intros HR%Rep_plug. pose proof HR as [_ _ HT ND _ _]. simpl in HT, ND.
  assert (length (inorder (plug C t)) <= size (rb_nodes m))%nat as Hl.
  { rewrite <- (size_list_to_set (C := gset Z)) by done. rewrite <- size_dom.
    apply subseteq_size. intros k Hk%elem_of_list_to_set. apply elem_of_dom. by eapply shape_dom. }
  rewrite (Permutation_length (addrs_plug C t)), length_app in Hl.
  assert (length C <= length (addrsC C))%nat; [|lia].
  clear. induction C as [|f C IH]; simpl; [lia|]. rewrite length_app. lia.
Qed.

(** ** Reading colours *)

Lemma colour_read m p t :
  shape (rb_nodes m) p t -> aligned p -> Forall good (inorder t) ->
  red_node m (rt t) = Some (bool_decide (colour t = Red)) /\
  black_or_null m (rt t) = Some (bool_decide (colour t = Black)).
Proof.
  unfold red_node, black_or_null. destruct t as [|c l a r]; simpl; [done|].
  intros (Ha & _) Hp G. assert (a <> 0) as Ha0%Z.eqb_neq.
  { eapply (Forall_forall good) in G as []; [done|set_solver]. }
  rewrite Ha0, !(ld_eq _ _ _ _ Ha), nd_is_red, nd_is_black by done. done.
Qed.

Lemma Rep_colour H m C t :
  Rep H m C t ->
  red_node m (rt t) = Some (bool_decide (colour t = Red)) /\
  black_or_null m (rt t) = Some (bool_decide (colour t = Black)).
Proof.
  intros HR. eapply colour_read; [by apply (rep_tree _ _ _ _ HR)|by eapply Rep_top_aligned|].
  pose proof (rep_good _ _ _ _ HR) as G. by apply Forall_app in G as [_ ?].
Qed.

(** Fields of the node above the hole. *)
Lemma Rep_up H m d c a s C t :
  Rep H m (F d c a s :: C) t -> rb_nodes m !! a = Some (nd d (top C) c (rt t) (rt s)).
Proof. intros HR%rep_ctx. by destruct HR. Qed.

(** ** The loop *)

Definition ins_body (d : dir) (rec : rb_mem -> Z -> option rb_mem) (m : rb_mem) (node parent gparent : Z)
  : option rb_mem :=
  uncle ← ld m gparent (child (opp d));
  ured ← red_node m uncle;
  if (ured : bool) then
    m ← st m uncle rb_set_black;
    m ← st m parent rb_set_black;
    m ← st m gparent rb_set_red;
    rec m gparent
  else
    x ← ld m parent (child (opp d));
    '(m, parent, node) ←
      (if x =? node then m ← rb_rotate d m parent; Some (m, node, parent)
       else Some (m, parent, node));
    m ← st m parent rb_set_black;
    m ← st m gparent rb_set_red;
    m ← rb_rotate (opp d) m gparent;
    rec m node.

Lemma insert_loop_S fuel m node :
  rb_insert_loop (S fuel) m node =
    (parent ← ld m node rb_parent;
     pred ← red_node m parent;
     if negb pred then Some m
     else
       gparent ← ld m parent rb_parent;
       gl ← ld m gparent rb_left;
       ins_body (if parent =? gl then L else R) (rb_insert_loop fuel) m node parent gparent).
Proof.
  simpl rb_insert_loop. destruct (ld m node rb_parent) as [parent|]; [simpl|done].
  destruct (red_node m parent) as [[]|]; simpl; [|done..].
  destruct (ld m parent rb_parent) as [gparent|]; [simpl|done].
  destruct (ld m gparent rb_left) as [gl|] eqn:Eg; [simpl|done]. destruct (parent =? gl); [done|].
  unfold ins_body. change (child (opp R)) with rb_left. by rewrite Eg.
Qed.

(** The side the code finds is the side of the hole. *)
Lemma side_ok d p c q s :
  q <> 0 -> q <> rt s -> (if q =? rb_left (nd d p c q (rt s)) then L else R) = d.
Proof.
  intros ? ?. destruct d; unfold nd; simpl; [by rewrite Z.eqb_refl|].
  by apply Z.eqb_neq in H0 as ->.
Qed.

Lemma Rep_sibling H m d c a s C t : Rep H m (F d c a s :: C) t -> t <> E -> rt t <> 0 /\ rt t <> rt s.
Proof.
  intros [_ _ _ N G _] Ht. destruct t as [|ct l b r]; [done|]. simpl in *. nodups. goods.
  assert (good b) as [? _] by done. split; [done|].
  intros ->. destruct s as [|cs x e y]; simpl in *; set_solver.
Qed.

(** An uncle that is red: the three nodes change colour and the loop goes on
    two levels up. *)
Lemma ins_red H m d d2 p s g ul b ur C t rec :
  Rep H m (F d Red p s :: F d2 Black g (T Red ul b ur) :: C) t ->
  exists m', ins_body d2 rec m (rt t) p g = rec m' g /\
    Rep H m' C (mk d2 Red (mk d Black t p s) g (T Black ul b ur)).
Proof.
  intros HR. rewrite Rep_focus in HR. pose proof (Rep_up _ _ _ _ _ _ _ _ HR) as Hg.
  unfold ins_body. rewrite (ld_eq _ _ _ _ Hg). cbn [mbind option_bind].
  rewrite nd_child_opp. rewrite Rep_focus, <- mk_opp, <- Rep_focus in HR.
  rewrite (proj1 (Rep_colour _ _ _ _ HR)). cbn [mbind option_bind rt].
  rewrite bool_decide_eq_true_2 by done.
  pose proof (Rep_top_aligned _ _ _ _ HR) as Hal.
  destruct (recolor_ok _ _ _ L _ _ _ _ rb_set_black Black HR) as (m1 & -> & _ & HR1).
  { by apply nd_set_black. }
  cbn [mbind option_bind]. clear HR. rewrite Rep_focus, mk_opp, <- Rep_focus in HR1.
  pose proof (Rep_top_aligned _ _ _ _ HR1) as Hal1.
  destruct (recolor_ok _ _ _ _ _ _ _ _ rb_set_black Black HR1) as (m2 & -> & _ & HR2).
  { by apply nd_set_black. }
  cbn [mbind option_bind]. clear HR1. rewrite Rep_focus in HR2.
  destruct (recolor_ok _ _ _ _ _ _ _ _ rb_set_red Red HR2) as (m3 & -> & _ & HR3).
  { apply nd_set_red. by eapply Rep_top_aligned. }
  eauto.
Qed.

(** The last three steps of a black uncle's case, for the node [b] below
    [g] on side [d]. *)
Lemma ins_outer {A} H m d c2 cg g u C N b y (k : rb_mem -> option A) :
  Rep H m (F d cg g u :: C) (mk d c2 N b y) ->
  exists m', (m ← st m b rb_set_black; m ← st m g rb_set_red; m ← rb_rotate (opp d) m g; k m) = k m' /\
    Rep H m' C (mk d Black N b (mk d Red y g u)).
Proof.
  intros HR. pose proof (Rep_top_aligned _ _ _ _ HR) as Hal.
  destruct (recolor_ok _ _ _ _ _ _ _ _ rb_set_black Black HR) as (m1 & -> & _ & HR1).
  { by apply nd_set_black. }
  cbn [mbind option_bind]. clear HR. rewrite Rep_focus in HR1.
  destruct (recolor_ok _ _ _ _ _ _ _ _ rb_set_red Red HR1) as (m2 & -> & _ & HR2).
  { apply nd_set_red. by eapply Rep_top_aligned. }
  cbn [mbind option_bind]. rewrite <- (mk_opp d Red), <- (mk_opp d Black) in HR2.
  destruct (rotate_ok _ _ _ _ _ _ _ _ _ _ _ HR2) as (m3 & -> & HR3).
  rewrite (mk_opp d Red), (mk_opp d Black) in HR3. eauto.
Qed.

Lemma Rep_ld_parent H m C t : Rep H m C t -> t <> E -> ld m (rt t) rb_parent = Some (top C).
Proof.
  intros HR Ht. destruct t as [|c l a r]; [done|].
  pose proof (Rep_node _ _ _ L _ _ _ _ HR) as Ha. rewrite (ld_eq _ _ _ _ Ha), nd_parent; [done|].
  by eapply Rep_top_aligned.
Qed.

Lemma insert_loop_stop H m C t fuel :
  Rep H m C t -> t <> E -> C = [] \/ under_black C -> rb_insert_loop (S fuel) m (rt t) = Some m.
Proof.
  intros HR Ht HC. rewrite insert_loop_S, (Rep_ld_parent _ _ _ _ HR Ht). cbn [mbind option_bind].
  destruct C as [|[d c a s] C]; simpl top; [done|]. rewrite Rep_focus in HR.
  pose proof (proj1 (Rep_colour _ _ _ _ HR)) as Hc. rewrite rt_mk, colour_mk in Hc.
  rewrite Hc. by destruct HC, c.
Qed.

(** A red node that is on the wrong side below a red parent, or on the right
    side: after the rotations the loop ends. *)
Lemma ins_black H m d d2 p s g u C l a r fuel :
  Rep H m (F d Red p s :: F d2 Black g u :: C) (T Red l a r) -> colour u = Black ->
  exists m' N b y, ins_body d2 (rb_insert_loop (S fuel)) m a p g = Some m' /\
    Rep H m' C (mk d2 Black N b (mk d2 Red y g u)) /\
    (forall n, rbt s n -> rbt (T Red l a r) n -> colour s = Black ->
       rbt N n /\ rbt y n /\ colour y = Black) /\
    inorder (mk d2 Red N b y) = inorder (mk d Red (T Red l a r) p s).
Proof.
  intros HR Hu. assert (T Red l a r <> E) as Ht by done.
  destruct (Rep_sibling _ _ _ _ _ _ _ _ HR Ht) as [_ Hs]. simpl in Hs.
  pose proof (Rep_up _ _ _ _ _ _ _ _ HR) as Hp.
  rewrite Rep_focus in HR. pose proof (Rep_up _ _ _ _ _ _ _ _ HR) as Hg.
  unfold ins_body. rewrite (ld_eq _ _ _ _ Hg). cbn [mbind option_bind]. rewrite nd_child_opp.
  assert (red_node m (rt u) = Some false) as ->.
  { rewrite Rep_focus, <- mk_opp, <- Rep_focus in HR. rewrite (proj1 (Rep_colour _ _ _ _ HR)), Hu. done. }
  cbn [mbind option_bind]. rewrite (ld_eq _ _ _ _ Hp). cbn [mbind option_bind].
  destruct (decide (d = d2)) as [->|Hd].
  - rewrite nd_child_opp. simpl rt. destruct (Z.eqb_spec (rt s) a) as [|_]; [by subst|].
    cbn [mbind option_bind].
    destruct (ins_outer _ _ _ _ _ _ _ _ _ _ _ (fun m => rb_insert_loop (S fuel) m a) HR) as (m' & -> & HR').
    exists m', (T Red l a r), p, s. split_and!; [|done| |by rewrite !inorder_mk].
    + rewrite <- Rep_focus in HR'. apply (insert_loop_stop _ _ _ _ _ HR'); [done|by right].
    + intros n ? ? ?. done.
  - assert (d = opp d2) as -> by (by destruct d, d2). rewrite nd_child. simpl rt. rewrite Z.eqb_refl.
    set (x := match d2 with L => l | R => r end). set (y := match d2 with L => r | R => l end).
    assert (T Red l a r = mk d2 Red x a y) as Ext by (by destruct d2).
    rewrite Ext, mk_opp in HR.
    destruct (rotate_ok _ _ _ _ _ _ _ _ _ _ _ HR) as (m1 & -> & HR1). cbn [mbind option_bind].
    destruct (ins_outer _ _ _ _ _ _ _ _ _ _ _ (fun m => rb_insert_loop (S fuel) m p) HR1) as (m' & -> & HR').
    exists m', (mk d2 Red s p x), a, y. split_and!; [|done| |].
    + rewrite <- Rep_focus in HR'.
      rewrite <- (rt_mk d2 Red s p x). apply (insert_loop_stop _ _ _ _ _ HR'); [by destruct d2|by right].
    + intros n ?. rewrite Ext, rbt_mk_red. intros (? & ? & ? & ?) ?. by rewrite rbt_mk_red.
    + rewrite Ext. unfold x, y. destruct d2; simpl; by rewrite <- ?app_assoc.
Qed.

Lemma inorder_plug_eq C t t' : inorder t = inorder t' -> inorder (plug C t) = inorder (plug C t').
Proof. intros Ht. by rewrite !inorder_plug, Ht. Qed.

Lemma insert_loop_ok H fuel m C t n :
  Rep H m C t -> colour t = Red -> cok C n -> rbt t n -> (length C < fuel)%nat ->
  exists m' t' k, rb_insert_loop fuel m (rt t) = Some m' /\ Rep H m' [] t' /\ rbt t' k /\
    inorder t' = inorder (plug C t).
Proof.
  remember (length C) as len eqn:El. revert fuel m C t n El.
  induction (lt_wf len) as [len _ IH]; intros fuel m C t n -> HR Ht HC Hn Hf.
  destruct fuel as [|fuel]; [lia|]. assert (t <> E) as HtE by (by destruct t).
  destruct C as [|[d [] p s] C].
  { rewrite (insert_loop_stop _ _ _ _ _ HR) by auto. by exists m, t, n. }
  2: { rewrite (insert_loop_stop _ _ _ _ _ HR); [|done|by right].
       destruct (plug_rbt _ _ _ HC Hn) as [k Hk]; [by right|]. rewrite Rep_plug in HR.
       by exists m, (plug (F d Black p s :: C) t), k. }
  destruct HC as (Hs & Hsb & Hub & HC). destruct C as [|[d2 [] g u] C]; [done..|].
  destruct HC as (Hu & HC). rewrite insert_loop_S, (Rep_ld_parent _ _ _ _ HR HtE).
  cbn [mbind option_bind top fa].
  pose proof HR as HRp. rewrite Rep_focus in HRp.
  pose proof (proj1 (Rep_colour _ _ _ _ HRp)) as Hc. rewrite rt_mk, colour_mk in Hc. rewrite Hc.
  cbn [mbind option_bind]. simpl negb. cbv iota.
  assert (mk d Red t p s <> E) as HpE by (by destruct d).
  pose proof (Rep_ld_parent _ _ _ _ HRp HpE) as Hgp. rewrite rt_mk in Hgp. simpl top in Hgp. rewrite Hgp.
  pose proof (Rep_up _ _ _ _ _ _ _ _ HRp) as Hg. cbn [mbind option_bind]. rewrite (ld_eq _ _ _ _ Hg).
  cbn [mbind option_bind]. destruct (Rep_sibling _ _ _ _ _ _ _ _ HRp HpE) as [Hp0 Hps].
  rewrite rt_mk in *. rewrite side_ok by done. destruct (colour u) eqn:Ecu.
  - destruct u as [|cu ul b ur]; [done|]. simpl in Ecu. subst cu.
    destruct (ins_red _ _ _ _ _ _ _ _ _ _ _ _ (rb_insert_loop fuel) HR) as (m1 & -> & HR1).
    simpl in Hu. destruct Hu as (Hul & Hur & _ & _).
    destruct (IH (length C) ltac:(simpl; lia) fuel _ C _ (S n) eq_refl HR1)
      as (m' & t' & k & E' & HR' & Hk & Hi); [apply colour_mk|done| |simpl in Hf; lia|].
    { rewrite rbt_mk_red, rbt_mk_black, colour_mk. simpl. auto. }
    rewrite rt_mk in E'. exists m', t', k. split_and!; [done..|]. rewrite Hi.
    apply (inorder_plug_eq C). unfold plug1; simpl. rewrite !inorder_mk. by destruct d2.
  - destruct t as [|ct l a r]; [done|]. simpl in Ht. subst ct. simpl in Hf.
    destruct fuel as [|fuel]; [lia|].
    destruct (ins_black _ _ _ _ _ _ _ _ _ _ _ _ fuel HR Ecu) as (m' & N & b & y & E' & HR' & Hrb & Hi).
    destruct (Hrb n) as (HN & Hy & Hyb); [done..|].
    destruct (plug_rbt C (S n) (mk d2 Black N b (mk d2 Red y g u))) as [k Hk]; [done| | |].
    { rewrite rbt_mk_black, rbt_mk_red. auto. }
    { intros _. left. apply colour_mk. }
    rewrite Rep_plug in HR'. eexists m', _, k. split_and!; [done..|].
    apply (inorder_plug_eq C). unfold plug1; simpl. rewrite (inorder_mk d2 Black (mk d Red _ _ _)), <- Hi.
    destruct d2; simpl; by rewrite <- ?app_assoc.
Qed.

(** ** Linking and inserting *)

Definition hole_link (C : ctx) : rb_link :=
  match C with
  | [] => Lroot
  | F L _ a _ :: _ => Lleft a
  | F R _ a _ :: _ => Lright a
  end.

Lemma link_ok H m C a :
  Rep H m C E -> good a -> a ∉ addrsC C -> is_Some (rb_nodes m !! a) ->
  exists m', rb_link_node m a (top C) (hole_link C) = Some m' /\ Rep H m' C (T Red E a E).
Proof.
  intros HR Ga Ha [n Hn]. unfold rb_link_node. rewrite (st_eq _ _ _ _ Hn). cbn [mbind option_bind].
  rewrite (st_mk _ _ _ _ _ (lookup_insert_eq _ _ _)). cbn [mbind option_bind].
  rewrite (st_mk _ _ _ _ _ (lookup_insert_eq _ _ _)). cbn [mbind option_bind].
  rewrite !insert_insert_eq. unfold with_left, with_right, with_pc. simpl.
  change (mkRb (top C) 0 0) with (nd L (top C) Red 0 0).
  set (h1 := <[a := _]> _). pose proof HR as [Hr HC _ N G Fr]. simpl in HC, N, G, Fr. rewrite app_nil_r in N, G, Fr.
  assert (forall h', h' !! a = h1 !! a -> (forall k, k ∉ a :: addrsC C -> h' !! k = rb_nodes m !! k) ->
          forall r, r = rootC C a -> shapeC h' C a -> Rep H (mkRm h' r) C (T Red E a E)) as Hfin.
  { intros h' Ha' Ho r -> HS. split; simpl; [done|done| | | |].
    - split; [|done]. rewrite Ha'. apply lookup_insert_eq.
    - apply NoDup_app. split_and!; [done| |apply NoDup_singleton]. set_solver.
    - apply Forall_app. auto.
    - intros k Hk. rewrite Ho by set_solver. apply Fr. set_solver. }
  destruct C as [|[d c g s] C]; simpl.
  { eexists. split; [done|]. apply Hfin; [done| |done..]. intros. apply lookup_insert_ne. set_solver. }
  simpl in HC, N, Ha. destruct HC as (Hg & Hs & HC). nodups.
  assert (h1 !! g = Some (nd d (top C) c 0 (rt s))) as Hg1 by (unfold h1; rewrite lookup_insert_ne; set_solver).
  rewrite rootC_cons in Hr. simpl in Hr. rewrite Hr.
  exists (mkRm (<[g := nd d (top C) c a (rt s)]> h1) (rootC C g)). split.
  { destruct d; simpl; rewrite (st_mk _ _ _ _ _ Hg1); simpl; do 2 f_equal; by rewrite <- nd_with_child with (x := 0). }
  apply Hfin.
  - apply lookup_insert_ne. set_solver.
  - intros k Hk. rewrite lookup_insert_ne by set_solver. apply lookup_insert_ne. set_solver.
  - by rewrite rootC_cons.
  - simpl. split_and!; [by rewrite lookup_insert_eq| |].
    + eapply shape_frame; [|done]. intros. unfold h1. rewrite !lookup_insert_ne by set_solver. done.
    + eapply shapeC_frame; [|done]. intros. unfold h1. rewrite !lookup_insert_ne by set_solver. done.
Qed.

Lemma insert_ok H m C a :
  Rep H m C E -> red_black (plug C E) -> good a -> a ∉ addrsC C -> is_Some (rb_nodes m !! a) ->
  exists m' t, (m ← rb_link_node m a (top C) (hole_link C); rb_insert_color m a) = Some m' /\
    Rep H m' [] t /\ red_black t /\ inorder t = beforeC C ++ a :: afterC C.
Proof.
  intros HR (n & HC & Hn & _)%red_black_plug Ga Ha Hs. simpl in Hn. subst n.
  destruct (link_ok _ _ _ _ HR Ga Ha Hs) as (m1 & -> & HR1). cbn [mbind option_bind].
  pose proof (Rep_size _ _ _ _ HR1) as Hsz.
  destruct (insert_loop_ok H (rb_fuel m1) m1 C (T Red E a E) 0) as (m2 & t & k & E2 & HR2 & Hk & Hi); try done.
  { unfold rb_fuel. lia. }
  unfold rb_insert_color. simpl rt in E2. rewrite E2. cbn [mbind option_bind].
  rewrite inorder_plug in Hi. simpl in Hi. destruct t as [|c l b r]; [by destruct (beforeC C)|].
  rewrite (rep_root _ _ _ _ HR2). change (rootC [] _) with b.
  destruct (recolor_ok _ _ _ L _ _ _ _ rb_set_black Black HR2) as (m3 & -> & _ & HR3); [by apply nd_set_black|].
  exists m3, (T Black l b r). split_and!; [done..| |done]. split; [done|].
  destruct c; [|by exists k]. destruct Hk as (? & ? & _). by exists (S k).
Qed.
