(* ===== verification/RbErase.v ===== *)
(** * Removal from a red-black tree: the links

    What [rb_erase] does before it repairs the colours: a node with at most
    one child is replaced by the child, a node with two by its successor. *)

From stdpp Require Import gmap.
From S2P Require Import Prelude RbTree RbShape RbInsert.

(** ** Paths below a node

    [shapeD h b D q]: the nodes of the context [D], hanging below address
    [b], around a hole that holds a tree rooted at [q]. *)

Definition topd (b : Z) (D : ctx) : Z := match D with [] => b | f :: _ => fa f end.

Fixpoint shapeD (h : heap) (b : Z) (D : ctx) (q : Z) : Prop :=
  match D with
  | [] => True
  | f :: D =>
      h !! fa f = Some (nd (fd f) (topd b D) (fc f) q (rt (fs f))) /\
      shape h (fa f) (fs f) /\ shapeD h b D (fa f)
  end.

Lemma shape_plug h b D t : shape h b (plug D t) <-> shapeD h b D (rt t) /\ shape h (topd b D) t.
Proof.
  revert t. induction D as [|[d c a s] D IH]; intros t; simpl; [tauto|].
  rewrite IH. unfold plug1. simpl. rewrite rt_mk, shape_mk. tauto.
Qed.

Lemma shapeD_frame h h' b D q :
  (forall k, k ∈ addrsC D -> h' !! k = h !! k) -> shapeD h b D q -> shapeD h' b D q.
Proof.
  revert q. induction D as [|f D IH]; intros q; simpl; [done|].
  intros Hk (? & ? & ?). rewrite Hk by set_solver.
  split_and!; [done|eapply shape_frame; [|done]|apply IH]; try done; intros; apply Hk; set_solver.
Qed.

(** ** The leftmost node *)

Definition on_left (D : ctx) : Prop := Forall (fun f => fd f = L) D.

Lemma leftmost t : t <> E -> exists D c a r, t = plug D (T c E a r) /\ on_left D.
Proof.
  induction t as [|c l IH a r _]; [done|]. intros _. destruct l as [|cl ll al lr].
  { exists [], c, a, r. split; [done|constructor]. }
  destruct IH as (D & c' & a' & r' & -> & HD); [done|].
  exists (D ++ [F L c a r]), c', a', r'. rewrite plug_app. split; [done|].
  apply Forall_app. split; [done|]. by constructor.
Qed.

Lemma on_left_before D : on_left D -> beforeC D = [].
Proof. induction 1 as [|[d c a s] D Hd HD IH]; simpl in *; [done|]. by subst. Qed.

Lemma on_left_inorder D c a r : on_left D -> inorder (plug D (T c E a r)) = a :: inorder (plug D r).
Proof. intros HD. by rewrite !inorder_plug, (on_left_before _ HD). Qed.

Lemma good_eqb a : good a -> (a =? 0) = false.
Proof. intros [? _]. by apply Z.eqb_neq. Qed.

Lemma rt_eqb t : Forall good (inorder t) -> (rt t =? 0) = true <-> t = E.
Proof.
  destruct t as [|c l a r]; simpl; [done|]. intros G. goods. by rewrite good_eqb.
Qed.

Lemma go_left_ok m p t fuel :
  shape (rb_nodes m) p t -> Forall good (inorder t) -> t <> E -> (length (inorder t) <= fuel)%nat ->
  go_left fuel m (rt t) = head (inorder t).
Proof.
  revert p fuel. induction t as [|c l IH a r _]; [done|]. intros p fuel HS G _ Hf.
  simpl in *. rewrite length_app in Hf. simpl in Hf. destruct fuel as [|fuel]; [lia|].
  destruct HS as (Ha & HS & _). simpl. rewrite (ld_eq _ _ _ _ Ha). simpl.
  destruct l as [|cl ll b lr]; [done|]. apply Forall_app in G as [Gl _].
  assert (good b) by (simpl in Gl; by goods).
  unfold nd. simpl. rewrite good_eqb by done. erewrite IH; [|done..|simpl in *; lia].
  simpl. by destruct (inorder ll).
Qed.

Lemma go_right_ok m p t fuel :
  shape (rb_nodes m) p t -> Forall good (inorder t) -> t <> E -> (length (inorder t) <= fuel)%nat ->
  go_right fuel m (rt t) = last (inorder t).
Proof.
  revert p fuel. induction t as [|c l _ a r IH]; [done|]. intros p fuel HS G _ Hf.
  simpl in *. rewrite length_app in Hf. simpl in Hf. destruct fuel as [|fuel]; [lia|].
  destruct HS as (Ha & _ & HS). simpl. rewrite (ld_eq _ _ _ _ Ha). simpl. rewrite last_app_cons, last_cons.
  destruct r as [|cl ll b lr]; [done|]. apply Forall_app in G as [_ Gr]. apply Forall_cons in Gr as [_ Gr].
  assert (good b) by (simpl in Gr; by goods).
  unfold nd. simpl. rewrite good_eqb by done. erewrite IH; [|done..|simpl in *; lia].
  simpl. destruct (last (inorder ll ++ b :: inorder lr)) eqn:El; [done|].
  by apply last_None in El; destruct (inorder ll).
Qed.

(** ** A node with at most one child *)

Lemma change_child_relink m parent old new : change_child m parent old new = relink L m parent old new.
Proof.
  unfold change_child, relink. case_if; [done|]. change (child L) with rb_left.
  destruct (ld m parent rb_left); [simpl|done]. by rewrite Z.eqb_sym.
Qed.

Lemma erase_one_ok H m C d c a t :
  Rep H m C (mk d c E a t) ->
  exists m' n, rb_erase_one m a (rt t) = Some (m', rt t, top C, colz c) /\ rb_nodes m !! a = Some n /\
    Rep (<[a := n]> H) m' C t.
Proof.
  intros HR. pose proof (Rep_top_aligned _ _ _ _ HR) as Hal. pose proof (Rep_node _ _ _ _ _ _ _ _ HR) as Ha.
  destruct (Rep_split _ _ _ _ _ _ _ _ HR) as [N G]. simpl in N, G. nodups. goods.
  pose proof HR as [Hr HC HT _ _ Fr]. rewrite rt_mk in *. rewrite shape_mk in HT. destruct HT as (_ & _ & Ht).
  assert (good a) as [Ha0 Haa] by done.
  unfold rb_erase_one. rewrite !(ld_eq _ _ _ _ Ha). cbn [mbind option_bind].
  rewrite nd_parent, nd_color by done.
  destruct (reparent_ok m a (top C) t) as (h1 & -> & Ht1 & O1); [done..|]. cbn [mbind option_bind].
  rewrite change_child_relink.
  destruct (relink_ok L (mkRm h1 (rb_top m)) C a (rt t)) as (m2 & -> & HC2 & Hr2 & O2); try done; [|set_solver|].
  { simpl. eapply shapeC_frame; [|done]. intros. apply O1. set_solver. }
  cbn [mbind option_bind]. exists m2, (nd d (top C) c (rt E) (rt t)). split_and!; [done..|]. split; try done.
  - eapply shape_frame; [|done]. intros. apply O2. set_solver.
  - apply NoDup_app. split_and!; try done. set_solver.
  - by apply Forall_app.
  - intros k Hk. rewrite O2 by set_solver. simpl. rewrite O1 by set_solver.
    destruct (decide (k = a)) as [->|]; [by rewrite lookup_insert_eq|].
    rewrite lookup_insert_ne by done. apply Fr. rewrite addrs_mk. set_solver.
Qed.

(** ** A node with two children *)

Lemma topd_top b D C : top C = b -> top (D ++ C) = topd b D.
Proof. by destruct D. Qed.

Lemma rt_plug D t : rt (plug D t) = rootC D (rt t).
Proof.
  revert t. induction D as [|[d c a s] D IH]; intros t; simpl; [done|].
  rewrite IH, rootC_cons. unfold plug1. by rewrite rt_mk.
Qed.

Lemma splice_ok m D c s rs a n :
  let r := plug D (T c E s rs) in
  shape (rb_nodes m) a r -> on_left D -> NoDup (a :: inorder r) -> Forall good (a :: inorder r) ->
  rb_nodes m !! a = Some n -> rb_right n = rt r ->
  exists h x, erase_splice m a s (rt rs) (topd a D) = Some (mkRm h (rb_top m), topd s D) /\
    shape h s (plug D rs) /\ h !! s = Some x /\ rb_right x = rt (plug D rs) /\
    eqout (inorder r) (rb_nodes m) h.
Proof.
  intros r HS HD N G Ha Hn. unfold erase_splice. assert (good a) as [Ha0 Haa] by (by goods).
  unfold r in N, G. rewrite addrs_plug in N, G. simpl in N, G.
  unfold r in HS. apply shape_plug in HS as (HSD & Hs & _ & Hrs). simpl in HSD.
  destruct D as [|[d cf f sf] D]; simpl topd.
  { rewrite Z.eqb_refl. exists (rb_nodes m), (nd L a c 0 (rt rs)). split_and!; try done. by destruct m. }
  apply Forall_cons in HD as [Hd HD]. simpl in Hd. subst d. destruct HSD as (Hf & Hsf & HSD).
  simpl in N, G. nodups. goods. assert (good f) as [Hf0 Hfa] by done. assert (good s) as [Hs0 Hsa] by done.
  assert ((f =? a) = false) as -> by (apply Z.eqb_neq; set_solver). simpl in Hs.
  destruct (reparent_ok m s f rs) as (h1 & -> & Hrs1 & O1); [done..|]. cbn [mbind option_bind].
  assert (h1 !! f = Some (nd L (topd a D) cf s (rt sf))) as Hf1 by (rewrite O1; [done|set_solver]).
  rewrite (st_mk _ _ _ _ _ Hf1). cbn [mbind option_bind].
  change (with_left (rt rs)) with (with_child L (rt rs)). rewrite nd_with_child.
  set (h2 := <[f := _]> h1).
  assert (forall k, k <> f -> k ∉ inorder rs -> h2 !! k = rb_nodes m !! k) as O2.
  { intros. unfold h2. rewrite lookup_insert_ne by done. by apply O1. }
  assert (h2 !! a = Some n) as Ha2 by (rewrite O2; set_solver).
  rewrite (ld_eq (mkRm h2 _) _ _ _ Ha2). cbn [mbind option_bind]. rewrite Hn.
  assert (h2 !! s = Some (nd L f c 0 (rt rs))) as Hs2 by (rewrite O2; set_solver).
  rewrite (st_mk _ _ _ _ _ Hs2). cbn [mbind option_bind]. set (h3 := <[s := _]> h2).
  assert (h3 !! a = Some n) as Ha3 by (unfold h3; rewrite lookup_insert_ne; set_solver).
  rewrite (ld_eq (mkRm h3 _) _ _ _ Ha3). cbn [mbind option_bind]. rewrite Hn.
  set (D' := F L cf f sf :: D) in *.
  assert (rt r = rt (plug D' rs)) as Ert by (unfold r, D'; by rewrite !rt_plug, !rootC_cons).
  assert (NoDup (inorder (plug D' rs))) as Nr.
  { rewrite addrs_plug. simpl. rewrite <- app_assoc. apply NoDup_cons; split; [set_solver|].
    apply NoDup_app; split_and!; [done|set_solver|]. apply NoDup_app; split_and!; [done|set_solver|done]. }
  assert (Forall good (inorder (plug D' rs))) as Gr.
  { rewrite addrs_plug. simpl. rewrite <- app_assoc. constructor; [done|]. by rewrite !Forall_app. }
  assert ((rt (plug D' rs) =? 0) = false) as Er0.
  { apply not_true_is_false. rewrite rt_eqb by done. intros E0. apply (f_equal inorder) in E0.
    apply (f_equal length) in E0.
    rewrite (Permutation_length (addrs_plug D' rs)) in E0. simpl in E0. lia. }
  destruct (reparent_ok (mkRm h3 (rb_top m)) a s (plug D' rs)) as (h4 & E4 & Hr4 & O4); [|done..|].
  { cbn [rb_nodes]. apply (shape_plug h3 a D'). unfold D'. cbn [shapeD topd fd fc fa fs]. split_and!.
    - unfold h3, h2. rewrite lookup_insert_ne by set_solver. by rewrite lookup_insert_eq.
    - eapply shape_frame; [|done]. intros. unfold h3. rewrite lookup_insert_ne by set_solver. apply O2; set_solver.
    - eapply shapeD_frame; [|done]. intros. unfold h3. rewrite lookup_insert_ne by set_solver. apply O2; set_solver.
    - eapply shape_frame; [|done]. intros. unfold h3, h2. rewrite !lookup_insert_ne by set_solver. done. }
  rewrite Er0 in E4. rewrite Ert, E4. cbn [mbind option_bind].
  assert (s ∉ inorder (plug D' rs)) as Hsr by (rewrite addrs_plug; simpl; set_solver).
  eexists h4, _. split_and!; [done|done|rewrite O4 by done; apply lookup_insert_eq|done|].
  intros k Hk. unfold r in Hk. rewrite addrs_plug in Hk. simpl in Hk.
  rewrite O4 by (rewrite addrs_plug; simpl; set_solver). simpl. unfold h3.
  rewrite lookup_insert_ne by set_solver. apply O2; set_solver.
Qed.

Lemma adopt_ok m p c l x a s n :
  rb_nodes m !! a = Some (nd L p c (rt l) x) -> rb_nodes m !! s = Some n -> shape (rb_nodes m) a l ->
  l <> E -> NoDup (inorder l) -> Forall good (a :: inorder l) -> a <> s -> a ∉ inorder l -> s ∉ inorder l ->
  exists h, erase_adopt m a s = Some (mkRm h (rb_top m)) /\
    h !! s = Some (nd L p c (rt l) (rb_right n)) /\ shape h s l /\ eqout (s :: inorder l) (rb_nodes m) h.
Proof.
  intros Ha Hs Hl HlE Nl G Has Hal Hsl. goods. assert (good a) as [_ Haa] by done.
  unfold erase_adopt. rewrite (ld_eq _ _ _ _ Ha). cbn [mbind option_bind].
  rewrite (st_eq _ _ _ _ Hs). cbn [mbind option_bind]. set (h1 := <[s := _]> _).
  assert (h1 !! a = Some (nd L p c (rt l) x)) as Ha1 by (unfold h1; by rewrite lookup_insert_ne).
  rewrite (ld_eq (mkRm h1 _) _ _ _ Ha1). cbn [mbind option_bind].
  assert (h1 !! s = Some (with_pc (rb_parent_color (nd L p c (rt l) x)) n)) as Hs1 by apply lookup_insert_eq.
  rewrite (st_mk _ _ _ _ _ Hs1). cbn [mbind option_bind]. unfold h1. rewrite insert_insert_eq.
  clear h1 Ha1 Hs1. set (h2 := <[s := _]> _).
  assert (h2 !! a = Some (nd L p c (rt l) x)) as Ha2 by (unfold h2; by rewrite lookup_insert_ne).
  rewrite (ld_eq (mkRm h2 _) _ _ _ Ha2). cbn [mbind option_bind].
  change (rb_left (nd L p c (rt l) x)) with (rt l).
  destruct (reparent_ok (mkRm h2 (rb_top m)) a s l) as (h3 & E3 & Hl3 & O3); [|done..|].
  { cbn [rb_nodes]. eapply shape_frame; [|done]. intros. apply lookup_insert_ne. set_solver. }
  assert ((rt l =? 0) = false) as E0 by (apply not_true_is_false; by rewrite rt_eqb).
  rewrite E0 in E3. rewrite E3. eexists. split_and!; [done| |done|].
  - rewrite O3 by done. apply lookup_insert_eq.
  - intros k Hk. rewrite O3 by set_solver. apply lookup_insert_ne. set_solver.
Qed.

Lemma erase_two_ok H m C c l a D cs s rs :
  Rep H m C (T c l a (plug D (T cs E s rs))) -> l <> E -> on_left D ->
  exists m' n, rb_erase_two m a = Some (m', rt rs, top (D ++ F R c s l :: C), colz cs) /\
    rb_nodes m !! a = Some n /\ Rep (<[a := n]> H) m' (D ++ F R c s l :: C) rs.
Proof.
  intros HR HlE HD. set (r := plug D (T cs E s rs)) in *.
  pose proof (Rep_top_aligned _ _ _ _ HR) as Hal. pose proof (Rep_node _ _ _ L _ _ _ _ HR) as Ha.
  pose proof (Rep_size _ _ _ _ HR) as Hsz. simpl in Hsz. rewrite length_app in Hsz. simpl in Hsz.
  destruct (Rep_split _ _ _ L _ _ _ _ HR) as [N G].
  pose proof HR as [Hr HC HT _ _ Fr]. simpl in HC, HT, Hr. destruct HT as (_ & Hl & Hrr).
  assert (inorder r = s :: inorder (plug D rs)) as Eir by (by apply on_left_inorder).
  assert (NoDup (a :: inorder r) /\ Forall good (a :: inorder r)) as [Nr Gr].
  { nodups. goods. split; constructor; try done. set_solver. }
  assert (r <> E) as HrE by (intros E0; rewrite E0 in Eir; done).
  unfold rb_erase_two. rewrite !(ld_eq _ _ _ _ Ha). cbn [mbind option_bind].
  change (rb_right (nd L (top C) c (rt l) (rt r))) with (rt r).
  erewrite (go_left_ok m a r); [|done| |done|unfold rb_fuel; lia]. 2:{ by apply Forall_cons in Gr as [_ ?]. }
  rewrite Eir. cbn [head mbind option_bind]. rewrite nd_parent by done. rewrite change_child_relink.
  assert (good s) as [Hs0 Hsa]. { rewrite Eir in Gr. by goods. }
  assert (good a) as [Ha0 Haa] by (by goods).
  assert (aligned (topd a D)) as Htd.
  { destruct D as [|f D']; [done|]. assert (good (fa f)) as [_ ?]; [|done].
    apply Forall_cons in Gr as [_ Gr']. unfold r in Gr'. rewrite addrs_plug in Gr'.
    by apply Forall_cons in Gr' as [? _]. }
  revert Nr Gr. nodups. goods. intros Nr Gr.
  destruct (relink_ok L m C a s) as (m1 & -> & HC1 & Hr1 & O1); [done..|set_solver|]. cbn [mbind option_bind].
  assert (shape (rb_nodes m1) a r) as Hr1' by (eapply shape_frame; [|done]; intros; apply O1; set_solver).
  pose proof (proj1 (shape_plug _ _ _ _) Hr1') as (_ & Hs & _ & Hrs). simpl in Hs.
  rewrite !(ld_eq _ _ _ _ Hs). cbn [mbind option_bind]. rewrite nd_parent, nd_color by done.
  change (rb_right (nd L (topd a D) cs 0 (rt rs))) with (rt rs).
  destruct (splice_ok m1 D cs s rs a (nd L (top C) c (rt l) (rt r))) as (h2 & x & E2 & Hr2 & Hs2 & Hx & O2); try done.
  { rewrite O1 by set_solver. done. }
  rewrite E2. cbn [mbind option_bind].
  assert (inorder (plug D rs) ⊆ inorder r) as Hsub by (rewrite Eir; set_solver).
  assert (s ∈ inorder r) as Hsr by (rewrite Eir; set_solver).
  destruct (adopt_ok (mkRm h2 (rb_top m1)) (top C) c l (rt r) a s x) as (h3 & E3 & Hs3 & Hl3 & O3); cbn [rb_nodes]; try done; [..|].
  { rewrite O2 by set_solver. rewrite O1 by set_solver. done. }
  { eapply shape_frame; [|done]. intros. rewrite O2 by set_solver. apply O1. set_solver. }
  { by constructor. } { set_solver. } { set_solver. } { set_solver. }
  rewrite E3. cbn [mbind option_bind]. exists (mkRm h3 (rb_top m1)), (nd L (top C) c (rt l) (rt r)). split; [|split; [done|]].
  { do 2 f_equal. f_equal. f_equal. symmetry. by apply topd_top. }
  apply Rep_app, Rep_focus. change (mk R c (plug D rs) s l) with (T c l s (plug D rs)).
  assert (NoDup (addrsC C ++ inorder (T c l s (plug D rs)))) as Nf.
  { rewrite Eir in *. simpl. nodups. apply NoDup_app; split_and!; [done|set_solver|].
    apply NoDup_app; split_and!; [done|set_solver|]. by apply NoDup_cons. }
  split; cbn [rb_top rb_nodes rt shape]; try done.
  - eapply shapeC_frame; [|exact HC1]. intros. rewrite O3 by set_solver. apply O2. set_solver.
  - split_and!; [by rewrite <- Hx| |].
    + done.
    + eapply shape_frame; [|done]. intros. apply O3. simpl in Nf. nodups. set_solver.
  - rewrite Eir in *. goods. simpl. rewrite !Forall_app. split_and!; try done. by constructor.
  - intros k Hk. simpl in Hk.
    assert ((k ∉ addrsC C) /\ (k ∉ inorder l) /\ k <> s /\ (k ∉ inorder (plug D rs))) as (K1 & K2 & K3 & K4)
      by (clear - Hk; set_solver).
    assert (k ∉ inorder r) as K5 by (rewrite Eir; clear - K3 K4; set_solver).
    rewrite O3 by (clear - K2 K3; set_solver). cbn [rb_nodes]. rewrite O2, O1 by done.
    destruct (decide (k = a)) as [->|Hka]; [by rewrite lookup_insert_eq|].
    rewrite lookup_insert_ne by done. apply Fr. simpl. clear - K1 K2 K5 Hka. set_solver.
Qed.
