(* ===== verification/RbFixup.v ===== *)
(** * Removal from a red-black tree: the colours

    The loop of [__rb_erase_color] moves the missing black node up until it
    can be made good, and [rb_erase] as a whole: the removed node is the only
    one that leaves the tree, the order stays and the tree is red-black. *)

From stdpp Require Import gmap.
From S2P Require Import Prelude RbTree RbShape RbInsert RbErase.

(** ** One iteration, for the side [d] the node is on *)

Definition er_red (d : dir) (ored : bool) (m : rb_mem) (parent other : Z) : option (rb_mem * Z) :=
  if ored then
    m ← st m other rb_set_black;
    m ← st m parent rb_set_red;
    m ← rb_rotate d m parent;
    other ← ld m parent (child (opp d));
    Some (m, other)
  else Some (m, other).

Definition er_last (d : dir) (m : rb_mem) (parent other : Z) : option (rb_mem * Z) :=
  far ← ld m other (child (opp d));
  bf ← black_or_null m far;
  '(m, other) ←
    (if (bf : bool) then
       near ← ld m other (child d);
       m ← st m near rb_set_black;
       m ← st m other rb_set_red;
       m ← rb_rotate (opp d) m other;
       other ← ld m parent (child (opp d));
       Some (m, other)
     else Some (m, other));
  c ← ld m parent rb_color;
  m ← st m other (rb_set_color c);
  m ← st m parent rb_set_black;
  far ← ld m other (child (opp d));
  m ← st m far rb_set_black;
  m ← rb_rotate d m parent;
  Some (m, rb_top m).

Definition er_body (d : dir) (rec : rb_mem -> Z -> Z -> option (rb_mem * Z)) (m : rb_mem) (parent : Z)
  : option (rb_mem * Z) :=
  other ← ld m parent (child (opp d));
  ored ← ld m other rb_is_red;
  '(m, other) ← er_red d ored m parent other;
  ol ← ld m other rb_left;
  bl ← black_or_null m ol;
  both ← (if (bl : bool) then (or ← ld m other rb_right; black_or_null m or) else Some false);
  if (both : bool) then
    m ← st m other rb_set_red;
    up ← ld m parent rb_parent;
    rec m parent up
  else er_last d m parent other.

Lemma erase_loop_S fuel m node parent :
  rb_erase_loop (S fuel) m node parent =
    (nb ← black_or_null m node;
     if negb (nb && negb (node =? rb_top m)) then Some (m, node)
     else
       pl ← ld m parent rb_left;
       er_body (if pl =? node then L else R) (rb_erase_loop fuel) m parent).
Proof.
  simpl rb_erase_loop. destruct (black_or_null m node) as [nb|]; [simpl|done].
  destruct (negb (nb && negb (node =? rb_top m))); [done|].
  destruct (ld m parent rb_left) as [pl|] eqn:Epl; [simpl|done].
  destruct (pl =? node); [done|]. unfold er_body. change (child (opp R)) with rb_left. by rewrite Epl.
Qed.

(** ** The weakened invariant *)

Definition blacken (t : tree) : tree := match t with E => E | T _ l a r => T Black l a r end.

(** [t] has black height [n], but a red root may have red children: it is
    enough for [t] to be repaired by blackening its root. *)
Definition wk (t : tree) (n : nat) : Prop :=
  match t with T Red l _ r => rbt l n /\ rbt r n | _ => rbt t n end.

Lemma rbt_wk t n : rbt t n -> wk t n.
Proof. destruct t as [|[] l a r]; simpl; tauto. Qed.

Lemma wk_black t n : wk t n -> colour t = Black -> rbt t n.
Proof. by destruct t as [|[] l a r]. Qed.

Lemma wk_red t n : wk t n -> colour t = Red -> rbt (blacken t) (S n).
Proof. by destruct t as [|[] l a r]. Qed.

Lemma wk_any t n : wk t n -> exists k, rbt (blacken t) k.
Proof. destruct t as [|[] l a r]; [by exists 0%nat|by exists (S n)|by exists n]. Qed.

Lemma inorder_blacken t : inorder (blacken t) = inorder t.
Proof. by destruct t. Qed.
Lemma rt_blacken t : rt (blacken t) = rt t.
Proof. by destruct t. Qed.
Lemma colour_blacken t : colour (blacken t) = Black.
Proof. by destruct t. Qed.

(** Turning to the sibling. *)
Lemma Rep_sib H m d c p s C t : Rep H m (F d c p s :: C) t <-> Rep H m (F (opp d) c p t :: C) s.
Proof. by rewrite !Rep_focus, mk_opp. Qed.

Lemma mk_split d t c : t <> E -> colour t = c -> exists x b y, t = mk d c x b y.
Proof. destruct t as [|c' l a r]; [done|]. simpl. intros _ ->. destruct d; simpl; eauto. Qed.

Lemma rbt_S_ne t n : rbt t (S n) -> t <> E.
Proof. by intros H ->. Qed.

Lemma Rep_is_red H m C t : Rep H m C t -> t <> E -> ld m (rt t) rb_is_red = Some (bool_decide (colour t = Red)).
Proof.
  intros HR Ht. destruct t as [|c l a r]; [done|].
  pose proof (Rep_node _ _ _ L _ _ _ _ HR) as Ha. simpl. rewrite (ld_eq _ _ _ _ Ha), nd_is_red; [done|].
  by eapply Rep_top_aligned.
Qed.

(** A red sibling is rotated up; the new sibling is black. *)
Lemma er_red_ok H m d c p s C t n :
  Rep H m (F d c p s :: C) t -> cok (F d c p s :: C) (S n) ->
  exists m' c' s' C', er_red d (bool_decide (colour s = Red)) m p (rt s) = Some (m', rt s') /\
    Rep H m' (F d c' p s' :: C') t /\ cok (F d c' p s' :: C') (S n) /\ colour s' = Black /\
    inorder (plug (F d c' p s' :: C') t) = inorder (plug (F d c p s :: C) t) /\
    (c' = Red \/ C' = C).
Proof.
  intros HR HC. unfold er_red. destruct (colour s) eqn:Es; [|exists m, c, s, C; split_and!; auto].
  rewrite bool_decide_eq_true_2 by done.
  destruct c; simpl in HC; [destruct HC as (_ & Hb & _); congruence|]. destruct HC as [Hs HC].
  destruct (mk_split d s Red) as (x & b & y & ->); [by apply rbt_S_ne in Hs|done|]. rewrite rt_mk.
  rewrite Rep_sib in HR. pose proof (Rep_top_aligned _ _ _ _ HR) as Hal.
  destruct (recolor_ok _ _ _ _ _ _ _ _ rb_set_black Black HR) as (m1 & -> & _ & HR1); [by apply nd_set_black|].
  cbn [mbind option_bind]. clear HR. rewrite <- Rep_sib, Rep_focus in HR1.
  destruct (recolor_ok _ _ _ _ _ _ _ _ rb_set_red Red HR1) as (m2 & -> & _ & HR2).
  { apply nd_set_red. by eapply Rep_top_aligned. }
  cbn [mbind option_bind]. clear HR1. destruct (rotate_ok _ _ _ _ _ _ _ _ _ _ _ HR2) as (m3 & -> & HR3).
  cbn [mbind option_bind]. rewrite <- !Rep_focus in HR3. pose proof (Rep_up _ _ _ _ _ _ _ _ HR3) as Hp.
  rewrite (ld_eq _ _ _ _ Hp), nd_child_opp. cbn [mbind option_bind].
  apply rbt_mk_red in Hs as (Hx & Hy & Hxb & Hyb).
  exists m3, Red, x, (F d Black b y :: C). split_and!; try done; [|by left].
  apply (inorder_plug_eq C). unfold plug1. simpl. destruct d; simpl; by rewrite <- ?app_assoc.
Qed.

(** Colours of the children of the sibling. *)
Lemma Rep_children H m C d c x b y :
  Rep H m C (mk d c x b y) ->
  black_or_null m (rt x) = Some (bool_decide (colour x = Black)) /\
  black_or_null m (rt y) = Some (bool_decide (colour y = Black)).
Proof.
  intros HR. split; eapply (fun H m C t HR => proj2 (Rep_colour H m C t HR)).
  - rewrite <- Rep_focus in HR. done.
  - rewrite <- mk_opp, <- Rep_focus in HR. done.
Qed.

Lemma er_both_ok H m C l b r c :
  Rep H m C (T c l b r) ->
  (ol ← ld m b rb_left; bl ← black_or_null m ol;
   if (bl : bool) then (or ← ld m b rb_right; black_or_null m or) else Some false) =
  Some (bool_decide (colour l = Black /\ colour r = Black)).
Proof.
  intros HR. pose proof (Rep_node _ _ _ L _ _ _ _ HR) as Hb.
  destruct (Rep_children _ _ _ L _ _ _ _ HR) as [Hl Hr].
  rewrite !(ld_eq _ _ _ _ Hb). cbn [mbind option_bind]. unfold nd. simpl.
  rewrite Hl. simpl. destruct (colour l); [done|]. rewrite bool_decide_eq_true_2 by done. rewrite Hr.
  by destruct (colour r).
Qed.

(** The last case, first half: a red child of the sibling is brought to the
    far side. *)
Definition er_turn (d : dir) (bf : bool) (m : rb_mem) (parent other : Z) : option (rb_mem * Z) :=
  if bf then
    near ← ld m other (child d);
    m ← st m near rb_set_black;
    m ← st m other rb_set_red;
    m ← rb_rotate (opp d) m other;
    other ← ld m parent (child (opp d));
    Some (m, other)
  else Some (m, other).

Lemma er_turn_ok H m d c p x b y C t :
  Rep H m (F d c p (mk d Black x b y) :: C) t -> ~ (colour x = Black /\ colour y = Black) ->
  exists m' x' b' y', er_turn d (bool_decide (colour y = Black)) m p b = Some (m', b') /\
    Rep H m' (F d c p (mk d Black x' b' y') :: C) t /\ colour y' = Red /\
    (forall n, rbt x n -> rbt y n -> rbt x' n /\ rbt y' n) /\
    inorder (mk d Black x' b' y') = inorder (mk d Black x b y).
Proof.
  intros HR Hxy. unfold er_turn. destruct (colour y) eqn:Ey.
  { exists m, x, b, y. split_and!; auto. }
  rewrite bool_decide_eq_true_2 by done. assert (colour x = Red) as Ex by (destruct (colour x); tauto).
  destruct (mk_split (opp d) x Red) as (x2 & e & x1 & ->); [by intros ->|done|].
  rewrite Rep_sib in HR. pose proof (Rep_node _ _ _ _ _ _ _ _ HR) as Hb.
  rewrite (ld_eq _ _ _ _ Hb), nd_child, rt_mk. cbn [mbind option_bind]. rewrite <- Rep_focus in HR.
  pose proof (Rep_top_aligned _ _ _ _ HR) as Hal.
  destruct (recolor_ok _ _ _ _ _ _ _ _ rb_set_black Black HR) as (m1 & -> & _ & HR1); [by apply nd_set_black|].
  cbn [mbind option_bind]. clear HR. rewrite Rep_focus in HR1.
  destruct (recolor_ok _ _ _ _ _ _ _ _ rb_set_red Red HR1) as (m2 & -> & _ & HR2).
  { apply nd_set_red. by eapply Rep_top_aligned. }
  cbn [mbind option_bind]. clear HR1. rewrite <- mk_opp in HR2.
  destruct (rotate_ok _ _ _ _ _ _ _ _ _ _ _ HR2) as (m3 & -> & HR3). cbn [mbind option_bind].
  rewrite !(mk_opp d) in HR3. pose proof HR3 as HR4. rewrite <- Rep_sib in HR4.
  pose proof (Rep_up _ _ _ _ _ _ _ _ HR4) as Hp. rewrite (ld_eq _ _ _ _ Hp), nd_child_opp, rt_mk.
  cbn [mbind option_bind]. exists m3, x1, e, (mk d Red x2 b y). split_and!; try done.
  - apply colour_mk.
  - intros n. rewrite !rbt_mk_red. tauto.
  - destruct d; simpl; by rewrite <- ?app_assoc.
Qed.

Lemma er_final_ok H m d c p x b y C t :
  Rep H m (F d c p (mk d Black x b y) :: C) t -> colour y = Red ->
  exists m',
    (c ← ld m p rb_color; m ← st m b (rb_set_color c); m ← st m p rb_set_black;
     far ← ld m b (child (opp d)); m ← st m far rb_set_black; m ← rb_rotate d m p; Some (m, rb_top m)) =
      Some (m', rb_top m') /\
    Rep H m' C (mk d c (mk d Black t p x) b (blacken y)).
Proof.
  intros HR Hy. pose proof (Rep_up _ _ _ _ _ _ _ _ HR) as Hp.
  rewrite (ld_eq _ _ _ _ Hp). cbn [mbind option_bind].
  pose proof HR as HR0. rewrite Rep_focus in HR0. rewrite nd_color by (by eapply Rep_top_aligned). clear HR0.
  rewrite Rep_sib in HR. pose proof (Rep_top_aligned _ _ _ _ HR) as Hal.
  destruct (recolor_ok _ _ _ _ _ _ _ _ (rb_set_color (colz c)) c HR) as (m1 & -> & _ & HR1); [by apply nd_set_color|].
  cbn [mbind option_bind]. clear HR. rewrite <- Rep_sib, Rep_focus in HR1.
  destruct (recolor_ok _ _ _ _ _ _ _ _ rb_set_black Black HR1) as (m2 & -> & _ & HR2).
  { apply nd_set_black. by eapply Rep_top_aligned. }
  cbn [mbind option_bind]. clear HR1. rewrite <- Rep_focus, Rep_sib in HR2.
  pose proof (Rep_node _ _ _ _ _ _ _ _ HR2) as Hb. rewrite (ld_eq _ _ _ _ Hb), nd_child_opp. cbn [mbind option_bind].
  rewrite <- mk_opp, <- Rep_focus in HR2. destruct y as [|cy yl e yr]; [done|]. simpl rt.
  pose proof (Rep_top_aligned _ _ _ _ HR2) as Hal2.
  destruct (recolor_ok _ _ _ L _ _ _ _ rb_set_black Black HR2) as (m3 & -> & _ & HR3); [by apply nd_set_black|].
  cbn [mbind option_bind]. rewrite Rep_focus, mk_opp, <- Rep_sib, Rep_focus in HR3.
  destruct (rotate_ok _ _ _ _ _ _ _ _ _ _ _ HR3) as (m4 & -> & HR4). cbn [mbind option_bind]. eauto.
Qed.

Lemma er_last_ok H m d c p x b y C t n :
  Rep H m (F d c p (mk d Black x b y) :: C) t -> cok (F d c p (mk d Black x b y) :: C) (S n) -> rbt t n ->
  ~ (colour x = Black /\ colour y = Black) ->
  exists m' t', er_last d m p b = Some (m', rb_top m') /\ Rep H m' [] t' /\ red_black t' /\
    inorder t' = inorder (plug (F d c p (mk d Black x b y) :: C) t).
Proof.
  intros HR HC Ht Hxy.
  assert (er_last d m p b =
    (far ← ld m b (child (opp d)); bf ← black_or_null m far; '(m, other) ← er_turn d bf m p b;
     c ← ld m p rb_color; m ← st m other (rb_set_color c); m ← st m p rb_set_black;
     far ← ld m other (child (opp d)); m ← st m far rb_set_black; m ← rb_rotate d m p; Some (m, rb_top m)))
    as -> by reflexivity.
  pose proof HR as HR0. rewrite Rep_sib in HR0. pose proof (Rep_node _ _ _ _ _ _ _ _ HR0) as Hb.
  rewrite (ld_eq _ _ _ _ Hb), nd_child_opp. cbn [mbind option_bind].
  rewrite (proj2 (Rep_children _ _ _ _ _ _ _ _ HR0)). cbn [mbind option_bind]. clear HR0 Hb.
  destruct (er_turn_ok _ _ _ _ _ _ _ _ _ _ HR Hxy) as (m1 & x' & b' & y' & -> & HR1 & Hy' & Hrb & Hi).
  cbn [mbind option_bind].
  destruct (er_final_ok _ _ _ _ _ _ _ _ _ _ HR1 Hy') as (m2 & -> & HR2).
  assert (rbt x n /\ rbt y n) as [Hx Hy] by (destruct c; simpl in HC; destruct HC as [HC _]; by apply rbt_mk_black in HC).
  destruct (Hrb n Hx Hy) as [Hx' Hy2].
  assert (rbt (blacken y') (S n)) as Hyb by (apply wk_red; [by apply rbt_wk|done]).
  rewrite Rep_plug in HR2. eexists m2, _. split_and!; [done..| |].
  - destruct c; simpl in HC.
    + apply (plug_red_black C (S n)); [tauto| |right; tauto].
      rewrite rbt_mk_red, rbt_mk_black, colour_mk, colour_blacken. tauto.
    + apply (plug_red_black C (S (S n))); [tauto| |left; apply colour_mk].
      rewrite !rbt_mk_black. tauto.
  - apply (inorder_plug_eq C). unfold plug1. simpl. rewrite (inorder_mk d c t), <- Hi.
    rewrite !inorder_mk, inorder_blacken. destruct d; simpl; by rewrite <- ?app_assoc.
Qed.

(** ** The loop *)

(** What the loop leaves: blackening the node it gives repairs the tree. *)
Definition repaired (H : heap) (m : rb_mem) (q : Z) (l : list Z) : Prop :=
  exists C t n, Rep H m C t /\ q = rt t /\ cok C n /\ rbt (blacken t) n /\ inorder (plug C t) = l.

Lemma root_not_hole H m f C t : Rep H m (f :: C) t -> rt t <> rb_top m.
Proof.
  intros HR. rewrite (rep_root _ _ _ _ HR). pose proof HR as [_ _ _ N G _].
  assert (rootC (f :: C) (rt t) ∈ addrsC (f :: C)) as Hin.
  { rewrite rootC_cons. clear. revert f. induction C as [|g C IH]; intros f; simpl; [set_solver|].
    rewrite rootC_cons. specialize (IH g). simpl in IH. set_solver. }
  destruct t as [|ct l a r]; cbn [rt] in *.
  - intros E0. apply Forall_app in G as [G _].
    eapply (Forall_forall good) in G as [G0 _]; [|exact Hin]. congruence.
  - intros E0. rewrite <- E0 in Hin. apply NoDup_app in N as (_ & N & _). apply (N _ Hin). simpl. set_solver.
Qed.

Lemma erase_loop_red H fuel m C t n :
  Rep H m C t -> colour t = Red -> cok C (S n) -> wk t n ->
  exists m' q, rb_erase_loop (S fuel) m (rt t) (top C) = Some (m', q) /\ repaired H m' q (inorder (plug C t)).
Proof.
  intros HR Et HC Hw. rewrite erase_loop_S, (proj2 (Rep_colour _ _ _ _ HR)), Et. cbn [mbind option_bind].
  exists m, (rt t). split; [done|]. exists C, t, (S n). split_and!; try done. by apply wk_red.
Qed.

Lemma erase_side H m d c p s C t :
  Rep H m (F d c p s :: C) t -> s <> E ->
  (if rb_left (nd d (top C) c (rt t) (rt s)) =? rt t then L else R) = d.
Proof.
  intros HR Hs. rewrite Rep_sib in HR. destruct (Rep_sibling _ _ _ _ _ _ _ _ HR Hs) as [_ Hne].
  destruct d; unfold nd; simpl; [by rewrite Z.eqb_refl|]. by apply Z.eqb_neq in Hne as ->.
Qed.

Lemma erase_loop_ok H fuel m C t n :
  Rep H m C t -> cok C (S n) -> wk t n -> (length C < fuel)%nat ->
  exists m' q, rb_erase_loop fuel m (rt t) (top C) = Some (m', q) /\ repaired H m' q (inorder (plug C t)).
Proof.
  revert fuel m t n. induction C as [|[d c p s] C IH]; intros fuel m t n HR HC Hw Hf; (destruct fuel as [|fuel]; [simpl in Hf; lia|]).
  { rewrite erase_loop_S, (proj2 (Rep_colour _ _ _ _ HR)). cbn [mbind option_bind].
    rewrite (rep_root _ _ _ _ HR). change (rootC [] (rt t)) with (rt t). rewrite Z.eqb_refl, andb_false_r.
    exists m, (rt t). split; [done|]. destruct (wk_any _ _ Hw) as [k Hk]. by exists [], t, k. }
  destruct (colour t) eqn:Et; [by eapply erase_loop_red|].
  assert (rbt s (S n)) as Hs by (destruct c; simpl in HC; tauto).
  pose proof (rbt_S_ne _ _ Hs) as HsE. apply wk_black in Hw; [|done].
  rewrite erase_loop_S, (proj2 (Rep_colour _ _ _ _ HR)), Et. cbn [mbind option_bind top fa].
  pose proof (root_not_hole _ _ _ _ _ HR) as Hroot. apply Z.eqb_neq in Hroot. rewrite Hroot. simpl negb. cbv iota.
  pose proof (Rep_up _ _ _ _ _ _ _ _ HR) as Hp. rewrite (ld_eq _ _ _ _ Hp). cbn [mbind option_bind].
  rewrite (erase_side _ _ _ _ _ _ _ _ HR HsE). unfold er_body. rewrite (ld_eq _ _ _ _ Hp), nd_child_opp.
  cbn [mbind option_bind].
  assert (ld m (rt s) rb_is_red = Some (bool_decide (colour s = Red))) as ->.
  { rewrite Rep_sib in HR. by apply (Rep_is_red _ _ _ _ HR). }
  cbn [mbind option_bind].
  destruct (er_red_ok _ _ _ _ _ _ _ _ _ HR HC) as (m1 & c' & s' & C' & -> & HR1 & HC1 & Hs' & Hi & Hor).
  cbn [mbind option_bind]. clear HR HC Hp.
  assert (rbt s' (S n)) as Hs1 by (destruct c'; simpl in HC1; tauto).
  pose proof (rbt_S_ne _ _ Hs1) as HsE1. pose proof HR1 as HRs. rewrite Rep_sib in HRs.
  destruct (mk_split L s' Black HsE1 Hs') as (l & b & r & Es'). simpl in Es'. subst s'.
  pose proof (er_both_ok _ _ _ _ _ _ _ HRs) as Hboth. simpl rt.
  pose proof (Rep_node _ _ _ L _ _ _ _ HRs) as Hb. rewrite !(ld_eq _ _ _ _ Hb) in Hboth |- *.
  cbn [mbind option_bind] in Hboth |- *.
  change (rb_left (nd L (top (F (opp d) c' p t :: C')) Black (rt l) (rt r))) with (rt l) in Hboth.
  rewrite (proj1 (Rep_children _ _ _ L _ _ _ _ HRs)) in Hboth. cbn [mbind option_bind] in Hboth.
  change (rb_left (nd L (top (F (opp d) c' p t :: C')) Black (rt l) (rt r))) with (rt l).
  rewrite (proj1 (Rep_children _ _ _ L _ _ _ _ HRs)). cbn [mbind option_bind].
  rewrite Hboth. cbn [mbind option_bind]. clear Hboth.
  simpl in Hs1. destruct Hs1 as [Hl Hr].
  case_bool_decide as Hlr.
  - destruct (recolor_ok _ _ _ L _ _ _ _ rb_set_red Red HRs) as (m2 & -> & _ & HR2).
    { apply nd_set_red. by eapply Rep_top_aligned. }
    cbn [mbind option_bind]. simpl in HR2. rewrite <- Rep_sib, Rep_focus in HR2.
    assert (mk d c' t p (T Red l b r) <> E) as HtE by (by destruct d).
    pose proof (Rep_ld_parent _ _ _ _ HR2 HtE) as Hup. rewrite rt_mk in Hup. rewrite Hup. cbn [mbind option_bind].
    assert (rbt (T Red l b r) n) as Hrr by (simpl; tauto).
    assert (inorder (plug C' (mk d c' t p (T Red l b r))) = inorder (plug (F d c p s :: C) t)) as <-.
    { rewrite <- Hi. apply (inorder_plug_eq C'). by destruct d. }
    destruct c'; simpl in HC1.
    + destruct fuel as [|fuel]; [simpl in Hf; lia|].
      destruct (erase_loop_red H fuel _ _ _ n HR2) as (m3 & q & E3 & HP); [apply colour_mk|tauto| |].
      { destruct d; simpl; tauto. }
      rewrite rt_mk in E3. eauto.
    + destruct Hor as [| ->]; [done|].
      destruct (IH fuel _ _ (S n) HR2) as (m3 & q & E3 & HP); [tauto| |simpl in Hf; lia|].
      { apply rbt_wk. rewrite rbt_mk_black. tauto. }
      rewrite rt_mk in E3. eauto.
  - set (x := match d with L => l | R => r end). set (y := match d with L => r | R => l end).
    assert (T Black l b r = mk d Black x b y) as Ex by (by destruct d). rewrite Ex in HR1, HC1, Hi.
    destruct (er_last_ok _ _ _ _ _ _ _ _ _ _ _ HR1 HC1 Hw) as (m2 & t2 & -> & HR2 & [Hb2 [k Hk]] & Hi2).
    { unfold x, y. destruct d; tauto. }
    exists m2, (rb_top m2). split; [done|]. exists [], t2, k. split_and!; try done.
    + by rewrite (rep_root _ _ _ _ HR2).
    + by destruct t2 as [|[] ? ? ?].
    + by rewrite <- Hi.
Qed.

Lemma erase_color_ok H m C t n :
  Rep H m C t -> cok C (S n) -> rbt t n ->
  exists m' t', __rb_erase_color m (rt t) (top C) = Some m' /\ Rep H m' [] t' /\ red_black t' /\
    inorder t' = inorder (plug C t).
Proof.
  intros HR HC Ht. pose proof (Rep_size _ _ _ _ HR).
  destruct (erase_loop_ok H (rb_fuel m) m C t n) as (m1 & q & E1 & C1 & t1 & k & HR1 & -> & HC1 & Hk & Hi); try done.
  { by apply rbt_wk. } { unfold rb_fuel. lia. }
  unfold __rb_erase_color. rewrite E1. cbn [mbind option_bind].
  assert (red_black (plug C1 (blacken t1))) as HB by (eapply plug_red_black; [done..|left; apply colour_blacken]).
  assert (inorder (plug C1 (blacken t1)) = inorder (plug C t)) as Hi'.
  { rewrite <- Hi. apply inorder_plug_eq, inorder_blacken. }
  destruct t1 as [|c1 l a r].
  { eexists m1, _. split; [done|]. rewrite Rep_plug in HR1. done. }
  pose proof (Rep_good _ _ _ _ a HR1) as Ga. cbn [rt]. rewrite good_eqb by (apply Ga; simpl; set_solver).
  destruct (recolor_ok _ _ _ L _ _ _ _ rb_set_black Black HR1) as (m2 & -> & _ & HR2).
  { apply nd_set_black. by eapply Rep_top_aligned. }
  rewrite Rep_plug in HR2. by eexists m2, _.
Qed.

(** ** Removing a node *)

Lemma erase_fix H m C d c s t n :
  Rep H m C t -> cok C n -> rbt (mk d c E s t) n ->
  exists m' t', (if colz c =? RB_BLACK then __rb_erase_color m (rt t) (top C) else Some m) = Some m' /\
    Rep H m' [] t' /\ red_black t' /\ inorder t' = inorder (plug C t).
Proof.
  intros HR HC Hn. destruct c; simpl.
  - apply rbt_mk_red in Hn as (HE & Ht & _ & Hb). simpl in HE. subst n.
    rewrite Rep_plug in HR. eexists m, _. split_and!; [done..| |done].
    eapply plug_red_black; [done..|by left].
  - apply rbt_mk_black_inv in Hn as (k & -> & _ & Ht). by eapply erase_color_ok.
Qed.

Lemma cok_addr D c a b l C n : cok (D ++ F R c a l :: C) n -> cok (D ++ F R c b l :: C) n.
Proof.
  assert (forall D, under_black (D ++ F R c a l :: C) -> under_black (D ++ F R c b l :: C)) as Hu.
  { intros [|[d [] x s] D']; simpl; try done; by destruct c. }
  revert n. induction D as [|[d [] x s] D IH]; intros n; simpl; [by destruct c|naive_solver..].
Qed.

Lemma erase_ok H m C c l a r :
  Rep H m C (T c l a r) -> red_black (plug C (T c l a r)) ->
  exists m' t' n, rb_erase m a = Some m' /\ rb_nodes m !! a = Some n /\ Rep (<[a := n]> H) m' [] t' /\ red_black t' /\
    inorder t' = beforeC C ++ (inorder l ++ inorder r) ++ afterC C.
Proof.
  intros HR HB. pose proof (Rep_node _ _ _ L _ _ _ _ HR) as Ha. pose proof (rep_good _ _ _ _ HR) as G.
  apply Forall_app in G as [_ G]. simpl in G. goods.
  unfold rb_erase. rewrite !(ld_eq _ _ _ _ Ha). cbn [mbind option_bind].
  change (rb_left (nd L (top C) c (rt l) (rt r))) with (rt l).
  change (rb_right (nd L (top C) c (rt l) (rt r))) with (rt r).
  destruct (rt l =? 0) eqn:El; [apply rt_eqb in El as ->; [|done]|].
  { destruct (red_black_plug _ _ HB) as (n & HC & Hn & _).
    destruct (erase_one_ok _ _ _ L _ _ _ HR) as (m1 & x & -> & Hx & HR1). cbn [mbind option_bind].
    destruct (erase_fix _ _ _ L c a r n HR1 HC Hn) as (m2 & t2 & -> & HR2 & HB2 & Hi).
    exists m2, t2, x. by rewrite Hi, inorder_plug. }
  destruct (rt r =? 0) eqn:Er; [apply rt_eqb in Er as ->; [|done]|].
  { destruct (red_black_plug _ _ HB) as (n & HC & Hn & _).
    destruct (erase_one_ok _ _ _ R _ _ _ HR) as (m1 & x & -> & Hx & HR1). cbn [mbind option_bind].
    destruct (erase_fix _ _ _ R c a l n HR1 HC Hn) as (m2 & t2 & -> & HR2 & HB2 & Hi).
    exists m2, t2, x. by rewrite Hi, inorder_plug, app_nil_r. }
  assert (l <> E) as HlE by (by intros ->). assert (r <> E) as HrE by (by intros ->).
  destruct (leftmost r HrE) as (D & cs & s & rs & -> & HD).
  destruct (erase_two_ok _ _ _ _ _ _ _ _ _ _ HR HlE HD) as (m1 & x & -> & Hx & HR1). cbn [mbind option_bind].
  change (T c l a (plug D (T cs E s rs))) with (plug1 (F R c a l) (plug D (T cs E s rs))) in HB.
  change (plug C (plug1 _ _)) with (plug (F R c a l :: C) (plug D (T cs E s rs))) in HB.
  rewrite <- plug_app in HB. destruct (red_black_plug _ _ HB) as (n & HC & Hn & _).
  apply (cok_addr _ _ _ s) in HC.
  destruct (erase_fix _ _ _ L cs s rs n HR1 HC Hn) as (m2 & t2 & -> & HR2 & HB2 & Hi).
  exists m2, t2, x. split_and!; [done..|]. rewrite Hi, plug_app. simpl. unfold plug1. simpl.
  rewrite inorder_plug. simpl. by rewrite (on_left_inorder _ _ _ _ HD).
Qed.
