(* ===== verification/RbWalk.v ===== *)
(** * Walking a red-black tree, replacing a node, and its height *)

From stdpp Require Import gmap.
From S2P Require Import Prelude RbTree RbShape RbInsert RbErase.

Lemma beforeC_app D C : beforeC (D ++ C) = beforeC C ++ beforeC D.
Proof.
  induction D as [|[[] c a s] D IH]; simpl; rewrite ?app_nil_r; [done..|]. by rewrite IH, <- app_assoc.
Qed.

Lemma afterC_app D C : afterC (D ++ C) = afterC D ++ afterC C.
Proof. induction D as [|[[] c a s] D IH]; simpl; [done| |done]. by rewrite IH, <- app_assoc. Qed.

Lemma find_node t l1 a l2 :
  inorder t = l1 ++ a :: l2 -> exists C c l r, t = plug C (T c l a r) /\
    l1 = beforeC C ++ inorder l /\ l2 = inorder r ++ afterC C.
Proof.
  revert l1 l2. induction t as [|c l IHl b r IHr]; intros l1 l2; simpl; [by destruct l1|].
  intros Heq. apply app_eq_inv in Heq as [(k & H1 & H2)|(k & H1 & H2)].
  all: destruct k as [|x k]; simpl in H2; [rewrite app_nil_r in H1; injection H2 as ? ?; subst;
    exists [], c, l, r; simpl; by rewrite app_nil_r|].
  - injection H2 as -> ->. destruct (IHl _ _ H1) as (C & c' & l' & r' & -> & -> & ->).
    exists (C ++ [F L c b r]), c', l', r'. rewrite plug_app, beforeC_app, afterC_app. simpl.
    by rewrite app_nil_r, <- !app_assoc.
  - injection H2 as -> H2. destruct (IHr k l2) as (C & c' & l' & r' & -> & -> & ->); [done|].
    exists (C ++ [F R c x l]), c', l', r'. rewrite plug_app, beforeC_app, afterC_app. simpl.
    subst l1. by rewrite app_nil_r, <- !app_assoc.
Qed.

(** ** Climbing *)

Lemma Rep_eq_right H m d c a s C t :
  Rep H m (F d c a s :: C) t -> t <> E -> (rt t =? rb_right (nd d (top C) c (rt t) (rt s))) = bool_decide (d = R).
Proof.
  intros HR Ht. destruct (Rep_sibling _ _ _ _ _ _ _ _ HR Ht) as [_ Hne].
  destruct d; unfold nd; simpl; [by apply Z.eqb_neq|apply Z.eqb_refl].
Qed.

Lemma Rep_eq_left H m d c a s C t :
  Rep H m (F d c a s :: C) t -> t <> E -> (rt t =? rb_left (nd d (top C) c (rt t) (rt s))) = bool_decide (d = L).
Proof.
  intros HR Ht. destruct (Rep_sibling _ _ _ _ _ _ _ _ HR Ht) as [_ Hne].
  destruct d; unfold nd; simpl; [apply Z.eqb_refl|by apply Z.eqb_neq].
Qed.

Lemma mk_ne d c x a y : mk d c x a y <> E.
Proof. by destruct d. Qed.

Lemma Rep_up_good H m d c a s C t : Rep H m (F d c a s :: C) t -> (a =? 0) = false.
Proof. intros HR. apply good_eqb, (Rep_good _ _ _ _ _ HR). simpl. set_solver. Qed.

Lemma up_right_ok H m C t fuel :
  Rep H m C t -> t <> E -> (length C < fuel)%nat -> up_right fuel m (rt t) = Some (hd 0 (afterC C)).
Proof.
  revert t fuel. induction C as [|[d c a s] C IH]; intros t fuel HR Ht Hf; (destruct fuel; [simpl in Hf; lia|]); simpl.
  { by rewrite (Rep_ld_parent _ _ _ _ HR Ht). }
  rewrite (Rep_ld_parent _ _ _ _ HR Ht). cbn [mbind option_bind top fa].
  rewrite (Rep_up_good _ _ _ _ _ _ _ _ HR).
  rewrite (ld_eq _ _ _ _ (Rep_up _ _ _ _ _ _ _ _ HR)). cbn [mbind option_bind].
  rewrite (Rep_eq_right _ _ _ _ _ _ _ _ HR Ht). destruct d; simpl; [done|].
  rewrite Rep_focus in HR. rewrite <- (IH _ fuel HR); [by rewrite rt_mk|apply mk_ne|simpl in Hf; lia].
Qed.

Lemma last_default_app {A} (x y : A) l : default x (last (l ++ [y])) = y.
Proof. by rewrite last_snoc. Qed.

Lemma up_left_ok H m C t fuel :
  Rep H m C t -> t <> E -> (length C < fuel)%nat -> up_left fuel m (rt t) = Some (default 0 (last (beforeC C))).
Proof.
  revert t fuel. induction C as [|[d c a s] C IH]; intros t fuel HR Ht Hf; (destruct fuel; [simpl in Hf; lia|]); simpl.
  { by rewrite (Rep_ld_parent _ _ _ _ HR Ht). }
  rewrite (Rep_ld_parent _ _ _ _ HR Ht). cbn [mbind option_bind top fa].
  rewrite (Rep_up_good _ _ _ _ _ _ _ _ HR).
  rewrite (ld_eq _ _ _ _ (Rep_up _ _ _ _ _ _ _ _ HR)). cbn [mbind option_bind].
  rewrite (Rep_eq_left _ _ _ _ _ _ _ _ HR Ht). destruct d; simpl; [|by rewrite app_assoc, last_default_app].
  rewrite Rep_focus in HR. rewrite <- (IH _ fuel HR); [by rewrite rt_mk|apply mk_ne|simpl in Hf; lia].
Qed.

(** ** Next, previous, first, last *)

Section Walk.
Context (H : heap) (m : rb_mem) (C : ctx) (c : color) (l : tree) (a : Z) (r : tree).
Context (HR : Rep H m C (T c l a r)).

Lemma Rep_sub_good : Forall good (inorder l) /\ Forall good (inorder r) /\ good a.
Proof. pose proof (rep_good _ _ _ _ HR) as G. apply Forall_app in G as [_ G]. simpl in G. by goods. Qed.

Lemma Rep_not_self : (top C =? a) = false.
Proof.
  apply Z.eqb_neq. intros E0. pose proof (rep_nodup _ _ _ _ HR) as N. destruct Rep_sub_good as (_ & _ & [? _]).
  destruct C as [|f C']; simpl in *; [done|]. subst a. nodups. set_solver.
Qed.

Lemma Rep_walk_size :
  (length C < rb_fuel m /\ length (inorder l) <= rb_fuel m /\ length (inorder r) <= rb_fuel m)%nat.
Proof. pose proof (Rep_size _ _ _ _ HR) as Hs. simpl in Hs. rewrite length_app in Hs. simpl in Hs. unfold rb_fuel. lia. Qed.

Lemma Rep_self_parent : ld m a rb_parent = Some (top C).
Proof. by apply (Rep_ld_parent _ _ _ _ HR). Qed.

Lemma rb_next_ok : rb_next m a = Some (hd 0 (inorder r ++ afterC C)).
Proof.
  unfold rb_next. rewrite Rep_self_parent. cbn [mbind option_bind]. rewrite Rep_not_self.
  pose proof (Rep_node _ _ _ L _ _ _ _ HR) as Ha. rewrite (ld_eq _ _ _ _ Ha). cbn [mbind option_bind].
  change (rb_right (nd L (top C) c (rt l) (rt r))) with (rt r).
  destruct Rep_sub_good as (_ & Gr & _). destruct Rep_walk_size as (Hf & _ & Hfr).
  destruct (rt r =? 0) eqn:Er; cbn [negb].
  - apply rt_eqb in Er as E0; [|done]. rewrite E0. cbn [inorder app]. by apply (up_right_ok _ _ _ _ _ HR).
  - assert (r <> E) as HrE by (by intros ->).
    pose proof (rep_tree _ _ _ _ HR) as (_ & _ & HS).
    rewrite (go_left_ok m a r) by done. destruct (inorder r) eqn:Ei; [|done].
    destruct r as [|? r1 ? ?]; [done|]. simpl in Ei. by destruct (inorder r1).
Qed.

Lemma rb_prev_ok : rb_prev m a = Some (default 0 (last (beforeC C ++ inorder l))).
Proof.
  unfold rb_prev. rewrite Rep_self_parent. cbn [mbind option_bind]. rewrite Rep_not_self.
  pose proof (Rep_node _ _ _ L _ _ _ _ HR) as Ha. rewrite (ld_eq _ _ _ _ Ha). cbn [mbind option_bind].
  change (rb_left (nd L (top C) c (rt l) (rt r))) with (rt l).
  destruct Rep_sub_good as (Gl & _ & _). destruct Rep_walk_size as (Hf & Hfl & _).
  destruct (rt l =? 0) eqn:El; cbn [negb].
  - apply rt_eqb in El as E0; [|done]. rewrite E0. cbn [inorder]. rewrite app_nil_r. by apply (up_left_ok _ _ _ _ _ HR).
  - assert (l <> E) as HlE by (by intros ->).
    pose proof (rep_tree _ _ _ _ HR) as (_ & HS & _).
    rewrite (go_right_ok m a l) by done. rewrite last_app. destruct (last (inorder l)) eqn:Ei; [done|].
    apply last_None in Ei. destruct l as [|? l1 ? ?]; [done|]. simpl in Ei. by destruct (inorder l1).
Qed.
End Walk.

Lemma rb_first_ok H m t : Rep H m [] t -> rb_first m = Some (hd 0 (inorder t)).
Proof.
  intros HR. unfold rb_first. rewrite (rep_root _ _ _ _ HR). change (rootC [] (rt t)) with (rt t).
  pose proof (rep_good _ _ _ _ HR) as G. simpl in G. pose proof (Rep_size _ _ _ _ HR) as Hs.
  destruct (rt t =? 0) eqn:Et; [by apply rt_eqb in Et as ->|].
  erewrite go_left_ok; [|exact (rep_tree _ _ _ _ HR)|done|by intros ->|unfold rb_fuel; simpl in Hs; lia].
  destruct t as [|? l ? ?]; [done|]. simpl. by destruct (inorder l).
Qed.

Lemma rb_last_ok H m t : Rep H m [] t -> rb_last m = Some (default 0 (last (inorder t))).
Proof.
  intros HR. unfold rb_last. rewrite (rep_root _ _ _ _ HR). change (rootC [] (rt t)) with (rt t).
  pose proof (rep_good _ _ _ _ HR) as G. simpl in G. pose proof (Rep_size _ _ _ _ HR) as Hs.
  destruct (rt t =? 0) eqn:Et; [by apply rt_eqb in Et as ->|].
  erewrite go_right_ok; [|exact (rep_tree _ _ _ _ HR)|done|by intros ->|unfold rb_fuel; simpl in Hs; lia].
  destruct (last (inorder t)) eqn:El; [done|]. apply last_None in El.
  destruct t as [|? l ? ?]; [done|]. simpl in El. by destruct (inorder l).
Qed.

(** ** Traversal *)

Lemma inorder_callback_ok {D} (cb : Z -> D -> D) m p t fuel s :
  shape (rb_nodes m) p t -> Forall good (inorder t) -> (length (inorder t) < fuel)%nat ->
  rb_inorder_callback cb fuel m (rt t) s = Some (fold_left (fun s a => cb a s) (inorder t) s).
Proof.
  revert p fuel s. induction t as [|c l IHl a r IHr]; intros p fuel s HS G Hf.
  { by destruct fuel; [simpl in Hf; lia|]. }
  simpl in *. goods. rewrite length_app in Hf. simpl in Hf. destruct fuel as [|fuel]; [lia|].
  destruct HS as (Ha & Hl & Hr). simpl. rewrite good_eqb, !(ld_eq _ _ _ _ Ha) by done. cbn [mbind option_bind].
  change (rb_left (nd L p c (rt l) (rt r))) with (rt l). change (rb_right (nd L p c (rt l) (rt r))) with (rt r).
  rewrite (IHl a fuel) by (done || lia). cbn [mbind option_bind]. rewrite (IHr a fuel) by (done || lia).
  by rewrite fold_left_app.
Qed.

Lemma traverse_ok {D} (cb : Z -> D -> D) H m t s :
  Rep H m [] t -> rb_traverse_with_callback cb m s = Some (fold_left (fun s a => cb a s) (inorder t) s).
Proof.
  intros HR. unfold rb_traverse_with_callback. rewrite (rep_root _ _ _ _ HR). change (rootC [] (rt t)) with (rt t).
  pose proof (rep_good _ _ _ _ HR) as G. simpl in G. pose proof (Rep_size _ _ _ _ HR) as Hs. simpl in Hs.
  destruct (rt t =? 0) eqn:Et; [by apply rt_eqb in Et as ->|].
  eapply inorder_callback_ok; [exact (rep_tree _ _ _ _ HR)|done|unfold rb_fuel; lia].
Qed.

(** ** Replacing a node by one outside the tree *)

Lemma replace_ok H m C c l a r b :
  Rep H m C (T c l a r) -> good b -> b ∉ addrsC C ++ inorder (T c l a r) -> is_Some (rb_nodes m !! b) ->
  exists m' n, rb_replace_node m a b = Some m' /\ Rep (<[a := n]> H) m' C (T c l b r).
Proof.
  intros HR Gb Hb [nb Hnb]. pose proof (Rep_node _ _ _ L _ _ _ _ HR) as Ha.
  destruct (Rep_split _ _ _ L _ _ _ _ HR) as [N G]. nodups. goods.
  pose proof HR as [Hr HC HT _ _ Fr]. simpl in Hr, HC, HT, Hb, Fr. destruct HT as (_ & Hl & Hrr).
  assert (good a) as [Ha0 Haa] by done.
  assert ((b ∉ addrsC C) /\ (b ∉ inorder l) /\ (b ∉ inorder r) /\ b <> a) as (Hb1 & Hb2 & Hb3 & Hb4) by (clear - Hb; set_solver).
  unfold rb_replace_node. rewrite (Rep_self_parent _ _ _ _ _ _ _ HR). cbn [mbind option_bind].
  destruct (relink_ok L m C a b) as (m1 & E1 & HC1 & Hr1 & O1); [done..|set_solver|].
  unfold relink in E1. change (child L) with rb_left in E1. cbn [with_child opp] in E1. rewrite E1. cbn [mbind option_bind].
  assert (rb_nodes m1 !! a = Some (nd L (top C) c (rt l) (rt r))) as Ha1 by (rewrite O1; [done|set_solver]).
  rewrite !(ld_eq _ _ _ _ Ha1). cbn [mbind option_bind]. change (rb_left (nd L (top C) c (rt l) (rt r))) with (rt l).
  destruct (reparent_ok m1 a b l) as (h2 & -> & Hl2 & O2); try done.
  { eapply shape_frame; [|done]. intros. apply O1. set_solver. }
  cbn [mbind option_bind].
  assert (h2 !! a = Some (nd L (top C) c (rt l) (rt r))) as Ha2 by (rewrite O2; [done|set_solver]).
  rewrite !(ld_eq (mkRm h2 _) _ _ _ Ha2). cbn [mbind option_bind]. change (rb_right (nd L (top C) c (rt l) (rt r))) with (rt r).
  destruct (reparent_ok (mkRm h2 (rb_top m1)) a b r) as (h3 & -> & Hr3 & O3); try done.
  { cbn [rb_nodes]. eapply shape_frame; [|done]. intros. rewrite O2 by set_solver. apply O1. set_solver. }
  cbn [mbind option_bind rb_nodes rb_top] in *.
  assert (forall k, k ∉ addrsC C -> k ∉ inorder l -> k ∉ inorder r -> h3 !! k = rb_nodes m !! k) as O.
  { intros. by rewrite O3, O2, O1. }
  rewrite (O a), Ha by set_solver. cbn [mbind option_bind]. rewrite (st_mk h3 _ b nb) by (by rewrite O).
  eexists _, _. split; [done|]. split; cbn [rb_nodes rb_top rt shape].
  - done.
  - eapply shapeC_frame; [|done]. intros. rewrite lookup_insert_ne, O3, O2 by set_solver. done.
  - split_and!; [by rewrite lookup_insert_eq| |].
    + eapply shape_frame; [|done]. intros. rewrite lookup_insert_ne, O3 by set_solver. done.
    + eapply shape_frame; [|done]. intros. rewrite lookup_insert_ne by set_solver. done.
  - simpl. apply NoDup_app; split_and!; [done|set_solver|]. apply NoDup_app; split_and!; [done|set_solver|].
    by apply NoDup_cons.
  - simpl. rewrite !Forall_app. split_and!; try done. by constructor.
  - intros k Hk. simpl in Hk.
    assert ((k ∉ addrsC C) /\ (k ∉ inorder l) /\ (k ∉ inorder r) /\ k <> b) as (K1 & K2 & K3 & K4) by (clear - Hk; set_solver).
    rewrite lookup_insert_ne, O by done. destruct (decide (k = a)) as [->|Hka]; [by rewrite lookup_insert_eq, Ha|].
    rewrite lookup_insert_ne by done. apply Fr. clear - K1 K2 K3 Hka. set_solver.
Qed.

(** ** Height *)

Lemma rbt_size t n : rbt t n -> (2 ^ n <= S (length (inorder t)))%nat.
Proof.
  revert n. induction t as [|[] l IHl a r IHr]; intros n; simpl.
  - by intros ->.
  - intros (Hl & _). apply IHl in Hl. rewrite length_app. simpl. lia.
  - destruct n as [|k]; [done|]. intros [Hl%IHl Hr%IHr]. rewrite length_app. simpl. lia.
Qed.

(** A context adds to the black height at least half of its length. *)
Lemma cok_height C n t :
  cok C n -> rbt t n -> fits C t ->
  exists N, rbt (plug C t) N /\ (length C + 2 * n <= 2 * N)%nat /\ (colour t = Red -> length C + 2 * n + 1 <= 2 * N)%nat.
Proof.
  revert t n. induction C as [|[d [] a s] C IH]; intros t n HC Ht HF; simpl in *.
  - exists n. split_and!; [done|lia|]. destruct HF as [->|[]]. done.
  - destruct HC as (Hs & Hsb & Hu & HC). destruct HF as [HF|[]].
    destruct (IH (mk d Red t a s) n) as (N & HN & Hlen & Hred); [done|by apply rbt_mk_red|by right|].
    exists N. split_and!; [done| |by rewrite HF]. rewrite colour_mk in Hred. specialize (Hred eq_refl). lia.
  - destruct HC as (Hs & HC).
    destruct (IH (mk d Black t a s) (S n)) as (N & HN & Hlen & _); [done|by apply rbt_mk_black|left; apply colour_mk|].
    exists N. split_and!; [done|lia|lia].
Qed.

Lemma height_bound C c l a r :
  red_black (plug C (T c l a r)) -> (2 ^ (S (length C) / 2) <= S (length (inorder (plug C (T c l a r)))))%nat.
Proof.
  intros (n & HC & Hn & HF)%red_black_plug.
  destruct (cok_height C n _ HC Hn HF) as (N & HN & Hlen & Hred).
  pose proof (rbt_size _ _ HN). etransitivity; [apply Nat.pow_le_mono_r; [lia|]|done].
  apply Nat.Div0.div_le_upper_bound. destruct c; simpl in *; [specialize (Hred eq_refl); lia|].
  destruct n; [done|lia].
Qed.
