(* ===== verification/RbProps.v ===== *)
(** * Red-black trees: what the operations promise

    [rb_tree m l]: the memory holds a red-black tree whose nodes are, from
    left to right, the list [l]. Clients see the tree as this list: linking a
    node at a null link inserts it there, erasing removes it, walking goes
    along the list, and no node is deeper than twice the logarithm of the
    length. *)

From stdpp Require Import gmap.
From S2P Require Import Prelude RbTree RbShape RbInsert RbErase RbFixup RbWalk.

Definition rb_tree (m : rb_mem) (l : list Z) : Prop :=
  exists t, Rep (rb_nodes m) m [] t /\ red_black t /\ inorder t = l.

(** [link], a field of the node [parent] or the root, is a null link of the
    tree, with [l1] to its left and [l2] to its right. *)
Definition rb_hole (m : rb_mem) (l1 l2 : list Z) (parent : Z) (link : rb_link) : Prop :=
  exists C, Rep (rb_nodes m) m C E /\ red_black (plug C E) /\
    beforeC C = l1 /\ afterC C = l2 /\ parent = top C /\ link = hole_link C.

(** Memory outside the nodes [l] is as it was. *)
Definition same_outside (l : list Z) (m m' : rb_mem) : Prop := eqout l (rb_nodes m) (rb_nodes m').

Lemma Rep_self H m C t : Rep H m C t -> Rep (rb_nodes m) m C t.
Proof. intros [? ? ? ? ? _]. by split. Qed.

Lemma rb_tree_of H m t : Rep H m [] t -> red_black t -> rb_tree m (inorder t).
Proof. intros HR%Rep_self HB. by exists t. Qed.

Lemma rb_tree_nodup m l : rb_tree m l -> NoDup l /\ Forall good l.
Proof. intros (t & [_ _ _ N G _] & _ & <-). by split. Qed.

Lemma rb_tree_dom m l k : rb_tree m l -> k ∈ l -> is_Some (rb_nodes m !! k).
Proof. intros (t & [_ _ HS _ _ _] & _ & <-). by eapply shape_dom. Qed.

Lemma rb_tree_empty h : rb_tree (mkRm h 0) [].
Proof.
  exists E. split_and!; [|by split; [|exists 0%nat]|done]. split; try done; constructor.
Qed.

Lemma rb_insert_spec m l1 l2 a parent link :
  rb_hole m l1 l2 parent link -> good a -> a ∉ l1 ++ l2 -> is_Some (rb_nodes m !! a) ->
  exists m', (m ← rb_link_node m a parent link; rb_insert_color m a) = Some m' /\
    rb_tree m' (l1 ++ a :: l2) /\ same_outside (l1 ++ a :: l2) m m'.
Proof.
  intros (C & HR & HB & <- & <- & -> & ->) Ga Ha Hs.
  destruct (insert_ok _ _ _ _ HR HB Ga) as (m' & t & E' & HR' & HB' & Hi); [by rewrite addrsC_perm|done|].
  exists m'. split_and!; [done|rewrite <- Hi; by eapply rb_tree_of|].
  rewrite <- Hi. exact (rep_frame _ _ _ _ HR').
Qed.

Lemma rb_erase_spec m l1 a l2 :
  rb_tree m (l1 ++ a :: l2) ->
  exists m', rb_erase m a = Some m' /\ rb_tree m' (l1 ++ l2) /\ same_outside (l1 ++ l2) m m'.
Proof.
  intros (t & HR & HB & Hi). destruct (find_node _ _ _ _ Hi) as (C & c & l & r & -> & -> & ->).
  apply rb_tree_of in HR as HT; [|done]. rewrite Hi in HT. destruct (rb_tree_nodup _ _ HT) as [N _].
  rewrite <- Rep_plug in HR.
  destruct (erase_ok _ _ _ _ _ _ _ HR HB) as (m' & t' & n & E' & Hn & HR' & HB' & Hi').
  assert (inorder t' = (beforeC C ++ inorder l) ++ inorder r ++ afterC C) as Hi2 by (by rewrite Hi', <- !app_assoc).
  pose proof (rep_frame _ _ _ _ HR') as Fr. simpl in Fr. rewrite Hi2 in Fr.
  exists m'. split_and!; [done|rewrite <- Hi2; by eapply rb_tree_of|].
  intros k Hk. rewrite Fr by done. destruct (decide (k = a)) as [->|]; [by rewrite lookup_insert_eq|].
  by rewrite lookup_insert_ne.
Qed.

Lemma rb_tree_focus m l1 a l2 :
  rb_tree m (l1 ++ a :: l2) -> exists C c l r, Rep (rb_nodes m) m C (T c l a r) /\ red_black (plug C (T c l a r)) /\
    l1 = beforeC C ++ inorder l /\ l2 = inorder r ++ afterC C.
Proof.
  intros (t & HR & HB & Hi). destruct (find_node _ _ _ _ Hi) as (C & c & l & r & -> & -> & ->).
  rewrite <- Rep_plug in HR. eauto 8.
Qed.

(** The children of a node are nodes of the tree. *)
Lemma rb_tree_children m l1 a l2 n :
  rb_tree m (l1 ++ a :: l2) -> rb_nodes m !! a = Some n ->
  (rb_left n = 0 \/ rb_left n ∈ l1 ++ l2) /\ (rb_right n = 0 \/ rb_right n ∈ l1 ++ l2).
Proof.
  intros (C & c & l & r & HR & _ & -> & ->)%rb_tree_focus Hn.
  rewrite (Rep_node _ _ _ L _ _ _ _ HR) in Hn. injection Hn as <-. unfold nd. simpl.
  split; [destruct l; simpl; [by left|]|destruct r; simpl; [by left|]]; right; set_solver.
Qed.

Lemma rb_first_spec m l : rb_tree m l -> rb_first m = Some (hd 0 l).
Proof. intros (t & HR & _ & <-). by eapply rb_first_ok. Qed.

Lemma rb_next_spec m l1 a l2 : rb_tree m (l1 ++ a :: l2) -> rb_next m a = Some (hd 0 l2).
Proof. intros (C & c & l & r & HR & _ & _ & ->)%rb_tree_focus. by eapply rb_next_ok. Qed.

(** ** Claims *)

(** C5: linking a node at a null link of a red-black tree and rebalancing
    with [rb_insert_color] always ends, puts the node exactly at that place of
    the order, keeps the tree red-black, and changes no node outside the tree. *)
Theorem rb_insert_keeps_tree m l1 l2 a parent link :
  rb_hole m l1 l2 parent link -> good a -> a ∉ l1 ++ l2 -> is_Some (rb_nodes m !! a) ->
  exists m', (m ← rb_link_node m a parent link; rb_insert_color m a) = Some m' /\
    rb_tree m' (l1 ++ a :: l2) /\ same_outside (l1 ++ a :: l2) m m'.
Proof. apply rb_insert_spec. Qed.

(** C6: [rb_erase] of a node of a red-black tree always ends without
    following NULL, removes exactly that node from the order, keeps the tree
    red-black, and changes neither the node nor any other outside the tree. *)
Theorem rb_erase_keeps_tree m l1 a l2 :
  rb_tree m (l1 ++ a :: l2) ->
  exists m', rb_erase m a = Some m' /\ rb_tree m' (l1 ++ l2) /\ same_outside (l1 ++ l2) m m'.
Proof. apply rb_erase_spec. Qed.

(** [rb_first], [rb_last], [rb_next] and [rb_prev] go along the in-order
    list of the tree, with NULL at its ends. *)
Theorem rb_walk_order m l1 a l2 :
  rb_tree m (l1 ++ a :: l2) ->
  rb_first m = Some (hd 0 (l1 ++ a :: l2)) /\ rb_last m = Some (default 0 (last (l1 ++ a :: l2))) /\
  rb_next m a = Some (hd 0 l2) /\ rb_prev m a = Some (default 0 (last l1)).
Proof.
  intros HT. split_and!; [by apply rb_first_spec| |by eapply rb_next_spec|].
  - destruct HT as (t & HR & _ & <-). by eapply rb_last_ok.
  - apply rb_tree_focus in HT as (C & c & l & r & HR & _ & -> & _). by eapply rb_prev_ok.
Qed.

(** [rb_traverse_with_callback] calls the callback on the nodes of the
    tree in order. *)
Theorem rb_traverse_in_order {D} (cb : Z -> D -> D) m l s :
  rb_tree m l -> rb_traverse_with_callback cb m s = Some (fold_left (fun s a => cb a s) l s).
Proof. intros (t & HR & _ & <-). by eapply traverse_ok. Qed.

(** [rb_replace_node] puts the new node in the victim's place and keeps
    the tree red-black. *)
Theorem rb_replace_in_place m l1 a l2 b :
  rb_tree m (l1 ++ a :: l2) -> good b -> b ∉ l1 ++ a :: l2 -> is_Some (rb_nodes m !! b) ->
  exists m', rb_replace_node m a b = Some m' /\ rb_tree m' (l1 ++ b :: l2).
Proof.
  intros (C & c & l & r & HR & HB & -> & ->)%rb_tree_focus Gb Hb Hs.
  destruct (replace_ok _ _ _ _ _ _ _ b HR Gb) as (m' & n & E' & HR'); [|done|].
  { rewrite addrsC_perm. simpl. clear - Hb. set_solver. }
  exists m'. split; [done|]. rewrite Rep_plug in HR'.
  assert (red_black (plug C (T c l b r))) as HB'.
  { destruct (red_black_plug _ _ HB) as (k & HC & Hk & HF). by eapply plug_red_black. }
  pose proof (rb_tree_of _ _ _ HR' HB') as HT. rewrite inorder_plug in HT. simpl in HT.
  by rewrite <- !app_assoc in *.
Qed.

(** The number of nodes from [a] up to the root. *)
Fixpoint rb_depth (fuel : nat) (m : rb_mem) (a : Z) : option nat :=
  match fuel with
  | O => None
  | S fuel => if a =? 0 then Some 0%nat else p ← ld m a rb_parent; k ← rb_depth fuel m p; Some (S k)
  end.

Lemma depth_ok H m C t fuel :
  Rep H m C t -> t <> E -> (S (length C) < fuel)%nat -> rb_depth fuel m (rt t) = Some (S (length C)).
Proof.
  revert t fuel. induction C as [|[d c a s] C IH]; intros t fuel HR Ht Hf; (destruct fuel as [|fuel]; [simpl in Hf; lia|]); simpl.
  all: assert ((rt t =? 0) = false) as -> by
    (apply not_true_is_false; rewrite rt_eqb; [done|]; pose proof (rep_good _ _ _ _ HR) as G; by apply Forall_app in G as [_ ?]).
  all: rewrite (Rep_ld_parent _ _ _ _ HR Ht); cbn [mbind option_bind top fa].
  - destruct fuel; [simpl in Hf; lia|]. done.
  - rewrite Rep_focus in HR. rewrite <- (rt_mk d c t a s). rewrite (IH _ fuel HR); [done|apply mk_ne|simpl in Hf; lia].
Qed.

(** Every node of a red-black tree of [n] nodes is at a depth of at most
    twice the logarithm of [n + 1], so the loops of insertion, removal and
    search take logarithmic time. *)
Theorem rb_depth_log m l1 a l2 :
  rb_tree m (l1 ++ a :: l2) ->
  exists k, rb_depth (S (S (S (size (rb_nodes m))))) m a = Some k /\
    (2 ^ (k / 2) <= S (length (l1 ++ a :: l2)))%nat.
Proof.
  intros (C & c & l & r & HR & HB & -> & ->)%rb_tree_focus. exists (S (length C)).
  pose proof (Rep_size _ _ _ _ HR). split.
  - eapply (depth_ok _ _ _ _ _ HR); [done|lia].
  - pose proof (height_bound _ _ _ _ _ HB) as Hh. rewrite inorder_plug in Hh. simpl inorder in Hh.
    by rewrite <- !app_assoc in *.
Qed.

(** ** Witnesses *)

Definition rb_demo : rb_mem :=
  mkRm (<[16 := mkRb 1 24 8]> (<[8 := mkRb 16 0 0]> (<[24 := mkRb 16 0 0]> (<[32 := mkRb 0 0 0]> ∅)))) 16.

Lemma rb_demo_rep : Rep (rb_nodes rb_demo) rb_demo [] (T Black (T Red E 8 E) 16 (T Red E 24 E)).
Proof.
  split; simpl; try done.
  - by apply (bool_decide_unpack _).
  - repeat constructor; done.
Qed.

Lemma rb_demo_rb : red_black (T Black (T Red E 8 E) 16 (T Red E 24 E)).
Proof. split; [done|]. by exists 1%nat. Qed.

Lemma rb_demo_tree : rb_tree rb_demo [8; 16; 24].
Proof. eexists. split_and!; [apply rb_demo_rep|apply rb_demo_rb|done]. Qed.

Lemma rb_insert_keeps_tree_witness :
  exists m', (m ← rb_link_node rb_demo 32 24 (Lright 24); rb_insert_color m 32) = Some m' /\
    rb_tree m' ([8; 16; 24] ++ [32]) /\ same_outside ([8; 16; 24] ++ [32]) rb_demo m'.
Proof.
  apply (rb_insert_keeps_tree rb_demo [8; 16; 24] [] 32 24 (Lright 24)).
  - exists [F R Red 24 E; F R Black 16 (T Red E 8 E)]. split_and!; try done.
    + apply Rep_plug, rb_demo_rep.
    + apply rb_demo_rb.
  - done.
  - by apply (bool_decide_unpack _).
  - by eexists.
Defined.

Lemma rb_erase_keeps_tree_witness :
  exists m', rb_erase rb_demo 16 = Some m' /\ rb_tree m' [8; 24] /\ same_outside [8; 24] rb_demo m'.
Proof. apply (rb_erase_keeps_tree rb_demo [8] 16 [24]), rb_demo_tree. Defined.

Lemma rb_walk_order_witness :
  rb_first rb_demo = Some 8 /\ rb_last rb_demo = Some 24 /\ rb_next rb_demo 16 = Some 24 /\ rb_prev rb_demo 16 = Some 8.
Proof. apply (rb_walk_order rb_demo [8] 16 [24]), rb_demo_tree. Defined.

Lemma rb_traverse_in_order_witness :
  rb_traverse_with_callback (fun a s => s ++ [a]) rb_demo [] = Some [8; 16; 24].
Proof. apply (rb_traverse_in_order (fun a s => s ++ [a]) rb_demo [8; 16; 24] []), rb_demo_tree. Defined.

Lemma rb_replace_in_place_witness :
  exists m', rb_replace_node rb_demo 8 32 = Some m' /\ rb_tree m' [32; 16; 24].
Proof.
  apply (rb_replace_in_place rb_demo [] 8 [16; 24] 32); [apply rb_demo_tree|done| |by eexists].
  by apply (bool_decide_unpack _).
Defined.

Lemma rb_depth_log_witness :
  exists k, rb_depth (S (S (S (size (rb_nodes rb_demo))))) rb_demo 24 = Some k /\ (2 ^ (k / 2) <= 4)%nat.
Proof. apply (rb_depth_log rb_demo [8; 16] 24 []), rb_demo_tree. Defined.
