(* ===== verification/LList.v ===== *)
(** * Linked queues ([src/src/util/llist_queue.c])

    A queue of nodes linked through [next]; [prev] is never written and
    [tail] never read. Nodes live in memory by address, 0 is NULL. [None] is
    an access to memory that holds no node, a lock that never comes free, or
    a loop that has not ended within its bound. *)

From stdpp Require Import gmap.
From S2P Require Import Prelude.

Record list_node_t := mkLn { ln_prev : Z; ln_next : Z; ln_data : Z }.
Record list_queue_t := mkLq { lq_head : Z; lq_tail : Z; lq_size : Z; lq_lock : spin_t }.

Abbreviation lheap := (gmap Z list_node_t).

(** A pointer to a queue with the queue it points to, [None] for NULL, and the
    nodes in memory. *)
Record lq_sys := mkLs { ls_queue : option list_queue_t; ls_nodes : lheap }.

Definition with_lock (q : list_queue_t) (l : spin_t) : list_queue_t :=
  mkLq (lq_head q) (lq_tail q) (lq_size q) l.
Definition lq_unlock (q : list_queue_t) : list_queue_t := with_lock q (spin_unlock (lq_lock q)).
Definition with_next (x : Z) (n : list_node_t) : list_node_t := mkLn (ln_prev n) x (ln_data n).

Definition lq_fuel (h : lheap) : nat := S (size h).

Definition create_llist_queue (calloc_ok : bool) : option list_queue_t :=
  if calloc_ok then Some (mkLq 0 0 0 SPIN_INIT) else None.

(** The walk of [list_enqueue] to the node whose [next] is NULL. *)
Fixpoint last_node (fuel : nat) (h : lheap) (current : Z) : option Z :=
  match fuel with
  | O => None
  | S fuel => n ← h !! current; if ln_next n =? 0 then Some current else last_node fuel h (ln_next n)
  end.

(** The loop of [list_remove_node]. *)
Fixpoint remove_walk (fuel : nat) (q : list_queue_t) (h : lheap) (node current previous : Z)
  : option (list_queue_t * lheap) :=
  match fuel with
  | O => None
  | S fuel =>
    if current =? 0 then Some (lq_unlock q, h)
    else
      n ← h !! current;
      if current =? node then
        '(q, h) ←
          (if previous =? 0 then Some (mkLq (ln_next n) (lq_tail q) (lq_size q) (lq_lock q), h)
           else p ← h !! previous; Some (q, <[previous := with_next (ln_next n) p]> h));
        let h := delete current h in
        Some (lq_unlock (mkLq (lq_head q) (lq_tail q) (u64 (lq_size q - 1)) (lq_lock q)), h)
      else remove_walk fuel q h node (ln_next n) current
  end.

Definition list_remove_node (s : lq_sys) (node_to_remove : Z) : option lq_sys :=
  match ls_queue s with
  | None => Some s
  | Some q =>
    if node_to_remove =? 0 then Some s
    else
      l ← spin_lock (lq_lock q);
      let q := with_lock q l in
      '(q, h) ← remove_walk (S (lq_fuel (ls_nodes s))) q (ls_nodes s) node_to_remove (lq_head q) 0;
      Some (mkLs (Some q) h)
  end.

Section Alloc.
(* the address a node allocation returns, 0 for NULL, and what is in [prev] of
   a fresh node *)
Context (malloc : lheap -> Z) (junk : Z).

Definition list_enqueue (s : lq_sys) (data : Z) : option (lq_sys * Z) :=
  match ls_queue s with
  | None => Some (s, 0)
  | Some q =>
    l ← spin_lock (lq_lock q);
    let q := with_lock q l in
    let h := ls_nodes s in
    let new_node := malloc h in
    if new_node =? 0 then Some (mkLs (Some (lq_unlock q)) h, 0)
    else
      let h := <[new_node := mkLn junk 0 data]> h in
      '(q, h) ←
        (if lq_head q =? 0 then Some (mkLq new_node (lq_tail q) (lq_size q) (lq_lock q), h)
         else
           last ← last_node (lq_fuel h) h (lq_head q);
           n ← h !! last;
           Some (q, <[last := with_next new_node n]> h));
      let q := mkLq (lq_head q) new_node (u64 (lq_size q + 1)) (lq_lock q) in
      Some (mkLs (Some (lq_unlock q)) h, new_node)
  end.

(** The loop of [free_llist_queue]; [data_free_func] gets each element that is
    not NULL and changes a state of its own. *)
Fixpoint free_walk {D} (data_free_func : option (Z -> D -> D)) (fuel : nat) (h : lheap) (current : Z) (d : D)
  : option (lheap * D) :=
  match fuel with
  | O => None
  | S fuel =>
    if current =? 0 then Some (h, d)
    else
      n ← h !! current;
      let d := match data_free_func with
               | Some f => if negb (ln_data n =? 0) then f (ln_data n) d else d
               | None => d
               end in
      free_walk data_free_func fuel (delete current h) (ln_next n) d
  end.

(** The queue itself is freed too: only the nodes of other queues remain. *)
Definition free_llist_queue {D} (data_free_func : option (Z -> D -> D)) (s : lq_sys) (d : D) : option (lheap * D) :=
  match ls_queue s with
  | None => Some (ls_nodes s, d)
  | Some q =>
    _ ← spin_lock (lq_lock q);
    free_walk data_free_func (S (lq_fuel (ls_nodes s))) (ls_nodes s) (lq_head q) d
  end.

(** [copy_list_queue]: [copy] gives the address of a copied element, 0 for
    NULL, and [index_clone] is told the node of each copy. *)
Section Copy.
Context {D : Type} (copy : Z -> D -> Z * D) (index_clone : option (Z -> Z -> D -> D)).

(** [None] as the queue: the copy failed and was freed. *)
Fixpoint copy_walk (fuel : nat) (cur : Z) (new : lq_sys) (d : D) : option (lq_sys * D) :=
  match fuel with
  | O => None
  | S fuel =>
    if cur =? 0 then Some (new, d)
    else
      n ← ls_nodes new !! cur;
      let '(copied, d) := copy (ln_data n) d in
      if copied =? 0 then
        '(h, _) ← free_llist_queue (D := unit) None new tt;
        Some (mkLs None h, d)
      else
        '(new, node) ← list_enqueue new copied;
        if node =? 0 then
          '(h, _) ← free_llist_queue (D := unit) None new tt;
          Some (mkLs None h, d)
        else
          let d := match index_clone with Some f => f copied node d | None => d end in
          n ← ls_nodes new !! cur;
          copy_walk fuel (ln_next n) new d
  end.

(** The source queue is locked during the copy and unlocked after it, so it
    is as before; the result is the new queue. *)
Definition copy_list_queue (calloc_ok : bool) (src : option list_queue_t) (h : lheap) (d : D) : option (lq_sys * D) :=
  match src with
  | None => Some (mkLs None h, d)
  | Some q =>
    _ ← spin_lock (lq_lock q);
    match create_llist_queue calloc_ok with
    | None => Some (mkLs None h, d)
    | Some new => copy_walk (S (lq_fuel h)) (lq_head q) (mkLs (Some new) h) d
    end
  end.
End Copy.
End Alloc.
