(* ===== verification/LListSpec.v ===== *)
(** * Linked queues: the list a queue stands for

    [lq_rep s l]: the queue holds the nodes [l], each an address and its
    data, in order. Enqueueing appends, removing a node takes that node out
    and leaves the rest, and nothing else of the memory changes. *)

From stdpp Require Import gmap.
From S2P Require Import Prelude LList.

Fixpoint lseg (h : lheap) (p : Z) (l : list (Z * Z)) (q : Z) : Prop :=
  match l with
  | [] => p = q
  | (a, d) :: l => p = a /\ a <> 0 /\ exists n, h !! a = Some n /\ ln_data n = d /\ lseg h (ln_next n) l q
  end.

Definition lnodes (l : list (Z * Z)) : list Z := l.*1.

Record lq_rep (s : lq_sys) (l : list (Z * Z)) : Prop := mkLrep {
  lr_queue : exists q, ls_queue s = Some q /\ lseg (ls_nodes s) (lq_head q) l 0 /\
               lq_size q = zlen l /\ lq_lock q = SPIN_INIT;
  lr_nodup : NoDup (lnodes l);
}.

(** What the queue needs of the allocator. *)
Class NodeAllocator (malloc : lheap -> Z) : Prop := {
  node_fresh : forall h, malloc h <> 0 -> h !! malloc h = None;
  node_total : forall h, malloc h <> 0;
}.

Lemma lseg_app h p k l q : lseg h p (k ++ l) q <-> exists x, lseg h p k x /\ lseg h x l q.
Proof.
  revert p. induction k as [|[a d] k IH]; intros p; simpl.
  - split; [eauto|]. by intros (x & -> & ?).
  - split.
    + intros (-> & ? & n & Hn & Hd & (x & ? & ?)%IH). exists x. eauto 10.
    + intros (x & (-> & ? & n & Hn & Hd & ?) & ?). split_and!; [done..|]. exists n. rewrite IH. eauto.
Qed.

Lemma lseg_frame h h' p l q :
  (forall k, k ∈ lnodes l -> h' !! k = h !! k) -> lseg h p l q -> lseg h' p l q.
Proof.
  revert p. induction l as [|[a d] l IH]; intros p Hk; simpl in *; [done|].
  intros (-> & ? & n & Hn & Hd & Hl). split_and!; [done..|]. exists n.
  rewrite Hk by set_solver. split_and!; [done..|]. apply IH; [|done]. intros. apply Hk. set_solver.
Qed.

Lemma lseg_dom h p l q k : lseg h p l q -> k ∈ lnodes l -> is_Some (h !! k).
Proof.
  revert p. induction l as [|[a d] l IH]; intros p; simpl; [set_solver|].
  intros (-> & ? & n & Hn & Hd & Hl) [->|Hk]%elem_of_cons; eauto.
Qed.

Lemma lseg_size h p l q : lseg h p l q -> NoDup (lnodes l) -> (length l <= size h)%nat.
Proof.
  intros Hl N. rewrite <- (length_fmap fst l). change (l.*1) with (lnodes l).
  rewrite <- (size_list_to_set (C := gset Z)) by done. rewrite <- size_dom.
  apply subseteq_size. intros k Hk%elem_of_list_to_set. apply elem_of_dom. by eapply lseg_dom.
Qed.

Lemma lseg_zero h p l : lseg h p l 0 -> (p =? 0) = true <-> l = [].
Proof.
  destruct l as [|[a d] l]; simpl; [intros ->; done|]. intros (-> & Ha & _).
  by apply Z.eqb_neq in Ha as ->.
Qed.

(** ** Enqueue *)

Lemma last_node_ok h p l a d fuel :
  lseg h p (l ++ [(a, d)]) 0 -> (length l < fuel)%nat -> last_node fuel h p = Some a.
Proof.
  revert p fuel. induction l as [|[b e] l IH]; intros p fuel; simpl; (destruct fuel; [lia|]); simpl.
  - intros (-> & ? & n & Hn & _ & Hx) _. rewrite Hn. simpl. by rewrite Hx.
  - intros (-> & ? & n & Hn & _ & Hl) Hf. rewrite Hn. simpl.
    assert ((ln_next n =? 0) = false) as ->.
    { apply not_true_is_false. rewrite (lseg_zero _ _ _ Hl). by destruct l. }
    apply IH; [done|lia].
Qed.

Section Enqueue.
Context (malloc : lheap -> Z) (junk : Z) {HM : NodeAllocator malloc}.

Lemma lq_enqueue_spec s l data :
  lq_rep s l -> zlen l < SIZE_MAX ->
  exists s' a, list_enqueue malloc junk s data = Some (s', a) /\ lq_rep s' (l ++ [(a, data)]) /\
    a <> 0 /\ (a ∉ lnodes l) /\ ls_nodes s !! a = None /\
    forall k, k ∉ lnodes (l ++ [(a, data)]) -> ls_nodes s' !! k = ls_nodes s !! k.
Proof.
  intros [(q & Eq & Hl & Hs & Hlk) N] Hlen. unfold list_enqueue. rewrite Eq, Hlk. cbn [spin_lock SPIN_INIT mbind option_bind].
  set (a := malloc (ls_nodes s)). pose proof (node_total (ls_nodes s)) as Ha0. pose proof (node_fresh _ Ha0) as Hfr.
  fold a in Ha0, Hfr. apply Z.eqb_neq in Ha0 as Ea0. rewrite Ea0.
  assert (a ∉ lnodes l) as Hal by (intros Hin; destruct (lseg_dom _ _ _ _ _ Hl Hin); congruence).
  assert (zlen (l ++ [(a, data)]) = u64 (lq_size q + 1)) as Hsz.
  { rewrite zlen_app, Hs, u64_id; [done|]. pose proof (zlen_nonneg l). lia. }
  assert (NoDup (lnodes (l ++ [(a, data)]))) as N'.
  { unfold lnodes. rewrite fmap_app. apply NoDup_app. split_and!; [done| |apply NoDup_singleton]. set_solver. }
  set (h := <[a := _]> _). cbn [lq_head with_lock].
  destruct (list_snoc l) as [->|(l' & [b e] & ->)].
  - simpl in Hl. rewrite Hl. simpl. eexists _, a. split; [done|]. split_and!; try done.
    + split; [|done]. eexists. split; [done|]. simpl. split_and!; try done.
      exists (mkLn junk 0 data). split_and!; [apply lookup_insert_eq|done..].
    + intros k Hk. apply lookup_insert_ne. simpl in Hk. set_solver.
  - assert ((lq_head q =? 0) = false) as ->.
    { apply not_true_is_false. rewrite (lseg_zero _ _ _ Hl). by destruct l'. }
    assert (lseg h (lq_head q) (l' ++ [(b, e)]) 0) as Hl1.
    { eapply lseg_frame; [|done]. intros k Hk. apply lookup_insert_ne. by intros <-. }
    rewrite (last_node_ok _ _ _ _ _ _ Hl1); [|unfold lq_fuel; pose proof (lseg_size _ _ _ _ Hl1 N) as Hsz1; rewrite length_app in Hsz1; simpl in Hsz1; lia].
    cbn [mbind option_bind]. unfold lnodes in N, Hal. rewrite fmap_app in N, Hal. simpl in N, Hal.
    apply NoDup_app in N as (N1 & N2 & _).
    apply lseg_app in Hl1 as (x & Hl1 & -> & Hb0 & n & Hn & Hnd & Hnx). rewrite Hn. cbn [mbind option_bind].
    eexists _, a. split; [done|]. split_and!; [split; [eexists; split; [done|]|done]|done| |done|].
    + cbn [lq_head lq_size lq_lock lq_unlock with_lock ls_nodes]. split_and!; [|done|done].
      rewrite <- app_assoc. apply lseg_app. exists b. split.
      { eapply lseg_frame; [|done]. intros k Hk. apply lookup_insert_ne. intros ->. apply (N2 _ Hk). set_solver. }
      simpl. split_and!; [done..|]. eexists. rewrite lookup_insert_eq. split_and!; [done|done|done|by apply Z.eqb_neq|].
      exists (mkLn junk 0 data). rewrite lookup_insert_ne by set_solver. split_and!; [by apply lookup_insert_eq|done|done].
    + unfold lnodes. rewrite fmap_app. set_solver.
    + intros k Hk. unfold lnodes in Hk. rewrite !fmap_app in Hk. simpl in Hk. cbn [ls_nodes].
      rewrite lookup_insert_ne by set_solver. apply lookup_insert_ne. set_solver.
Qed.
End Enqueue.

(** ** Remove *)

Lemma remove_walk_skip q h node p k x previous fuel :
  lseg h p k x -> (node ∉ lnodes k) ->
  remove_walk (length k + fuel) q h node p previous =
    remove_walk fuel q h node x (match last k with Some (a, _) => a | None => previous end).
Proof.
  revert p previous. induction k as [|[a d] k IH]; intros p previous; simpl; [by intros ->|].
  intros (-> & Ha & n & Hn & _ & Hl) Hk. change (node ∉ a :: lnodes k) in Hk. apply Z.eqb_neq in Ha as ->. rewrite Hn. cbn [mbind option_bind].
  assert ((a =? node) = false) as -> by (apply Z.eqb_neq; set_solver).
  rewrite IH; [|done|set_solver]. destruct k as [|y k]; [done|]. rewrite last_cons_cons.
  destruct (last (y :: k)) as [[]|] eqn:El; [done|]. by apply last_None in El.
Qed.

Lemma remove_spec_in s k a d l :
  lq_rep s (k ++ (a, d) :: l) -> zlen (k ++ (a, d) :: l) < two64 ->
  exists s', list_remove_node s a = Some s' /\ lq_rep s' (k ++ l) /\ ls_nodes s' !! a = None /\
    forall x, x ∉ lnodes (k ++ (a, d) :: l) -> ls_nodes s' !! x = ls_nodes s !! x.
Proof.
  intros [(q & Eq & Hl & Hs & Hlk) N] Hlen. unfold list_remove_node. rewrite Eq, Hlk.
  pose proof (lseg_size _ _ _ _ Hl N) as Hsz. rewrite length_app in Hsz. simpl in Hsz.
  apply lseg_app in Hl as (x & Hk & -> & Ha0 & n & Hn & Hd & Hl). apply Z.eqb_neq in Ha0 as Ea0. rewrite Ea0.
  cbn [spin_lock SPIN_INIT mbind option_bind]. unfold lnodes in N. rewrite fmap_app in N. simpl in N.
  apply NoDup_app in N as (Nk & Hkl & [Hal Nl]%NoDup_cons).
  set (q1 := with_lock q true).
  replace (S (lq_fuel (ls_nodes s))) with (length k + S (size (ls_nodes s) - length k + 1))%nat by (unfold lq_fuel; lia).
  change (lq_head q1) with (lq_head q).
  rewrite (remove_walk_skip _ _ _ _ _ _ _ _ Hk) by (unfold lnodes; set_solver). cbn [remove_walk].
  rewrite Ea0, Hn, Z.eqb_refl. cbn [mbind option_bind].
  assert (u64 (lq_size q - 1) = zlen (k ++ l)) as Hsz'.
  { rewrite Hs, !zlen_app, zlen_cons in *. pose proof (zlen_nonneg k). pose proof (zlen_nonneg l). rewrite u64_id; lia. }
  assert (NoDup (lnodes (k ++ l))) as Nkl.
  { unfold lnodes. rewrite fmap_app. apply NoDup_app. split_and!; [done| |done]. set_solver. }
  destruct (list_snoc k) as [->|(k' & [b e] & ->)].
  - simpl in Hk. subst. simpl. eexists. split; [done|]. split_and!; [split; [eexists; split; [done|]|done]|apply lookup_delete_eq|].
    + simpl. split_and!; [|done|done]. eapply lseg_frame; [|done]. intros y Hy. apply lookup_delete_ne. unfold lnodes in Hy. set_solver.
    + intros y Hy. apply lookup_delete_ne. simpl in Hy. set_solver.
  - rewrite last_snoc. apply lseg_app in Hk as (y & Hk & -> & Hb0 & nb & Hnb & Hbd & Hbx).
    rewrite fmap_app in Nk, Hkl. simpl in Nk, Hkl. apply NoDup_app in Nk as (Nk' & Hkb & _).
    assert (a <> b) as Hab by (intros ->; eapply (Hkl b); set_solver).
    apply Z.eqb_neq in Hb0 as Eb0. rewrite Eb0, Hnb. cbn [mbind option_bind].
    eexists. split; [done|]. split_and!; [split; [eexists; split; [done|]|done]|apply lookup_delete_eq|].
    + cbn [lq_head lq_size lq_lock lq_unlock with_lock ls_nodes q1]. split_and!; [|done|done].
      rewrite <- app_assoc. apply lseg_app. exists b. split.
      { eapply lseg_frame; [|done]. intros z Hz. unfold lnodes in Hz.
        rewrite lookup_delete_ne, lookup_insert_ne; [done| |]; intros ->; [|by eapply (Hkl z); set_solver].
        apply (Hkb z Hz). set_solver. }
      simpl. split_and!; [done..|]. eexists. rewrite lookup_delete_ne, lookup_insert_eq by done. split_and!; [done..|].
      simpl. eapply lseg_frame; [|done]. intros z Hz. unfold lnodes in Hz.
      rewrite lookup_delete_ne, lookup_insert_ne; [done| |]; intros ->; [eapply (Hkl z); set_solver|done].
    + intros z Hz. unfold lnodes in Hz. rewrite !fmap_app in Hz. simpl in Hz. cbn [ls_nodes].
      rewrite lookup_delete_ne, lookup_insert_ne by set_solver. done.
Qed.

Lemma remove_spec_out s l a :
  lq_rep s l -> (a ∉ lnodes l) -> exists s', list_remove_node s a = Some s' /\ lq_rep s' l /\ ls_nodes s' = ls_nodes s.
Proof.
  intros [(q & Eq & Hl & Hs & Hlk) N] Ha. unfold list_remove_node. rewrite Eq, Hlk.
  destruct (a =? 0); [exists s; split_and!; [done|split; eauto|done]|]. cbn [spin_lock SPIN_INIT mbind option_bind].
  pose proof (lseg_size _ _ _ _ Hl N) as Hsz.
  replace (S (lq_fuel (ls_nodes s))) with (length l + S (size (ls_nodes s) - length l + 1))%nat by (unfold lq_fuel; lia).
  change (lq_head (with_lock q true)) with (lq_head q).
  rewrite (remove_walk_skip _ _ _ _ _ _ _ _ Hl) by done. simpl. eexists. split; [done|]. split; [|done].
  split; [|done]. eexists. split; [done|]. done.
Qed.
