(* ===== verification/Rrs.v ===== *)
(** * The round-robin scheduler ([src/src/task/rrs.c])

    One run queue of entities, the idle entity first; [curr] is the entity
    picked last. Built on the linked queue of [LList]. A thread's
    [sched_handle] is a map from threads to entities, absent for NULL.
    [None] is a failed assertion, an access outside the objects, or a loop
    that has not ended within its bound. *)

From stdpp Require Import gmap.
From S2P Require Import Prelude LList LListSpec.

Record rrs_entity := mkRe { re_thread : Z; re_node : Z }.

Record rrs_sys := mkRrs {
  rr_queue : lq_sys;
  rr_ents : gmap Z rrs_entity;
  rr_idle : Z;
  rr_curr : Z;
  rr_handle : gmap Z Z;
}.

Definition with_curr (s : rrs_sys) (e : Z) : rrs_sys :=
  mkRrs (rr_queue s) (rr_ents s) (rr_idle s) e (rr_handle s).

Section Code.
(* the allocators of nodes and of entities *)
Context (malloc : lheap -> Z) (junk : Z) (ent_malloc : gmap Z rrs_entity -> Z).

Definition add_rrs_entity (s : rrs_sys) (thread : Z) : option rrs_sys :=
  let entity := ent_malloc (rr_ents s) in
  if entity =? 0 then None
  else
    '(q, node) ← list_enqueue malloc junk (rr_queue s) entity;
    Some (mkRrs q (<[entity := mkRe thread node]> (rr_ents s)) (rr_idle s) (rr_curr s)
            (<[thread := entity]> (rr_handle s))).

Definition init_cpu_idle_rrs (calloc_ok queue_ok : bool) (h : lheap) (ents : gmap Z rrs_entity) (handle : gmap Z Z)
    (idle : Z) : option rrs_sys :=
  if negb calloc_ok then None
  else
    let q := mkLs (create_llist_queue queue_ok) h in
    let entity := ent_malloc ents in
    if entity =? 0 then None
    else
      '(q, node) ← list_enqueue malloc junk q entity;
      Some (mkRrs q (<[entity := mkRe idle node]> ents) entity entity handle).
End Code.

Definition remove_rrs_entity (s : rrs_sys) (thread local : Z) : option rrs_sys :=
  if (thread =? 0) || (local =? 0) then Some s
  else
    match rr_handle s !! thread with
    | None => Some s
    | Some entity =>
      x ← rr_ents s !! entity;
      q ← list_remove_node (rr_queue s) (re_node x);
      let curr := if rr_curr s =? entity then rr_idle s else rr_curr s in
      Some (mkRrs q (delete entity (rr_ents s)) (rr_idle s) curr (delete thread (rr_handle s)))
    end.

(** The loop at the label [resche]. *)
Fixpoint rrs_resche (fuel : nat) (s : rrs_sys) : option (rrs_sys * Z) :=
  match fuel with
  | O => None
  | S fuel =>
    x ← rr_ents s !! rr_curr s;
    n ← ls_nodes (rr_queue s) !! re_node x;
    let nextL := ln_next n in
    next ← (if nextL =? 0 then Some (rr_idle s)
            else nn ← ls_nodes (rr_queue s) !! nextL; Some (ln_data nn));
    let s := with_curr s next in
    if rr_curr s =? rr_idle s then rrs_resche fuel s
    else y ← rr_ents s !! next; Some (s, re_thread y)
  end.

(** From the idle entity the loop takes one more turn: two are enough. *)
Definition rrs_pick_next_task (s : rrs_sys) : option (rrs_sys * Z) :=
  q ← ls_queue (rr_queue s);
  if lq_size q =? 1 then x ← rr_ents s !! rr_idle s; Some (s, re_thread x)
  else rrs_resche 2 s.

(** A run of [n] picks and the threads they give. *)
Fixpoint rrs_picks (n : nat) (s : rrs_sys) : option (rrs_sys * list Z) :=
  match n with
  | O => Some (s, [])
  | S n => '(s, t) ← rrs_pick_next_task s; '(s, ts) ← rrs_picks n s; Some (s, t :: ts)
  end.

(** The thread of an entity. *)
Definition thread_of (s : rrs_sys) (e : Z) : Z := match rr_ents s !! e with Some x => re_thread x | None => 0 end.

(** ** The invariant

    [rrs_wf s es]: [es] are the entities in the queue behind the idle one. *)

Record rrs_wf (s : rrs_sys) (es : list Z) : Prop := mkRwf {
  rw_queue : exists l, lq_rep (rr_queue s) l /\ l.*2 = rr_idle s :: es /\
    forall n e, (n, e) ∈ l -> exists x, rr_ents s !! e = Some x /\ re_node x = n;
  rw_nodup : NoDup (rr_idle s :: es);
  rw_curr : rr_curr s ∈ rr_idle s :: es;
  rw_zero : 0 ∉ rr_idle s :: es;
  rw_thread : forall e x, e ∈ es -> rr_ents s !! e = Some x -> rr_handle s !! re_thread x = Some e;
  rw_handle : forall t e, rr_handle s !! t = Some e -> e ∈ es /\ thread_of s e = t;
}.

Lemma rw_ent s es e : rrs_wf s es -> e ∈ rr_idle s :: es -> exists x, rr_ents s !! e = Some x.
Proof.
  intros [(l & _ & El & Hl) _ _ _ _ _] He. rewrite <- El in He.
  apply list_elem_of_fmap in He as ([n e'] & -> & Hin). destruct (Hl n e' Hin) as (x & ? & _). eauto.
Qed.

(** ** Picking *)

(** The step along the queue from the entity [c]. *)
Lemma queue_step s es A c B :
  rrs_wf s es -> rr_idle s :: es = A ++ c :: B ->
  exists x n, rr_ents s !! c = Some x /\ ls_nodes (rr_queue s) !! re_node x = Some n /\
    (if ln_next n =? 0 then Some (rr_idle s) else nn ← ls_nodes (rr_queue s) !! ln_next n; Some (ln_data nn)) =
      Some (hd (rr_idle s) B).
Proof.
  intros [(l & [(q & Eq & Hl & _ & _) _] & El & Hents) _ _ _ _ _] Esplit. rewrite Esplit in El.
  apply fmap_app_inv in El as (l1 & l2 & EA & El2 & ->). symmetry in El2.
  apply fmap_cons_inv in El2 as ([a d] & l3 & Ed & EB & ->). simpl in Ed. subst d.
  destruct (Hents a c) as (x & Hx & Hnode); [set_solver|].
  apply lseg_app in Hl as (y & _ & -> & Ha0 & n & Hn & _ & Hl3).
  exists x, n. rewrite Hnode. split_and!; [done..|]. destruct l3 as [|[b e] l3]; simpl in Hl3, EB; subst B.
  - by rewrite Hl3.
  - destruct Hl3 as (Hb & Hb0 & nn & Hnn & He & _). rewrite Hb. apply Z.eqb_neq in Hb0 as ->. rewrite Hnn. simpl. by rewrite He.
Qed.

(** The entity that is next after [c] in turn. *)
Fixpoint after (es : list Z) (c : Z) : list Z :=
  match es with [] => [] | e :: es => if e =? c then es else after es c end.
Definition next_turn (es : list Z) (c : Z) : Z := match after es c with e :: _ => e | [] => hd 0 es end.

Lemma after_split A c B : (c ∉ A) -> after (A ++ c :: B) c = B.
Proof.
  induction A as [|a A IH]; simpl; intros HA; [by rewrite Z.eqb_refl|].
  assert ((a =? c) = false) as -> by (apply Z.eqb_neq; set_solver). apply IH. set_solver.
Qed.

Lemma after_out es c : (c ∉ es) -> after es c = [].
Proof.
  induction es as [|e es IH]; simpl; intros He; [done|].
  assert ((e =? c) = false) as -> by (apply Z.eqb_neq; set_solver). apply IH. set_solver.
Qed.

Lemma next_turn_in es c : es <> [] -> next_turn es c ∈ es.
Proof.
  intros Hne. unfold next_turn. destruct (after es c) as [|e k] eqn:Ea.
  - destruct es; [done|simpl; set_solver].
  - assert (e ∈ after es c) as He by (rewrite Ea; set_solver). clear - He.
    induction es as [|x es IH]; simpl in *; [set_solver|]. destruct (x =? c); set_solver.
Qed.

Lemma wf_with_curr s es e : rrs_wf s es -> e ∈ rr_idle s :: es -> rrs_wf (with_curr s e) es.
Proof. intros [Hq N _ Hz Ht Hh] He. by split. Qed.

Lemma rrs_resche_S fuel s :
  rrs_resche (S fuel) s =
    (x ← rr_ents s !! rr_curr s;
     n ← ls_nodes (rr_queue s) !! re_node x;
     next ← (if ln_next n =? 0 then Some (rr_idle s) else nn ← ls_nodes (rr_queue s) !! ln_next n; Some (ln_data nn));
     if next =? rr_idle s then rrs_resche fuel (with_curr s next)
     else y ← rr_ents s !! next; Some (with_curr s next, re_thread y)).
Proof. reflexivity. Qed.

Lemma pick_spec s es :
  rrs_wf s es -> es <> [] -> zlen es < SIZE_MAX ->
  rrs_pick_next_task s = Some (with_curr s (next_turn es (rr_curr s)), thread_of s (next_turn es (rr_curr s))).
Proof.
  intros HW Hne Hlen. pose proof HW as [(l & [(q & Eq & _ & Hsz & _) _] & El & _) N Hc Hz _ _].
  unfold rrs_pick_next_task. rewrite Eq. cbn [mbind option_bind].
  assert (zlen l = 1 + zlen es) as Hll by (unfold zlen; rewrite <- (length_fmap snd l), El; simpl; lia).
  assert ((lq_size q =? 1) = false) as ->.
  { apply Z.eqb_neq. rewrite Hsz, Hll. destruct es; [done|]. rewrite zlen_cons. pose proof (zlen_nonneg es). lia. }
  apply NoDup_cons in N as [Hidle N].
  assert (forall s0 fuel, rrs_wf s0 es -> rr_idle s0 = rr_idle s -> rr_curr s0 = rr_idle s0 ->
    rrs_resche (S fuel) s0 = Some (with_curr s0 (hd 0 es), thread_of s0 (hd 0 es))) as Hfrom_idle.
  { intros s0 fuel HW0 Ei Ec. destruct (queue_step s0 es [] (rr_idle s0) es HW0 eq_refl) as (x & n & Hx & Hn & Hnext).
    rewrite rrs_resche_S, Ec, Hx. cbn [mbind option_bind]. rewrite Hn. cbn [mbind option_bind]. rewrite Hnext. cbn [mbind option_bind].
    destruct es as [|e es]; [done|]. simpl. rewrite Ei. assert ((e =? rr_idle s) = false) as -> by (apply Z.eqb_neq; set_solver).
    unfold thread_of. destruct (rw_ent _ _ e HW0) as [y Hy]; [set_solver|]. by rewrite Hy. }
  apply elem_of_cons in Hc as [Hc|Hc].
  { unfold next_turn. rewrite Hc, after_out by done. by apply Hfrom_idle. }
  apply list_elem_of_split in Hc as (A & B & Ees).
  assert (rr_curr s ∉ A) as HcA by (rewrite Ees in N; apply NoDup_app in N as (_ & N & _); intros HA; apply (N _ HA); set_solver).
  destruct (queue_step s es (rr_idle s :: A) (rr_curr s) B HW) as (x & n & Hx & Hn & Hnext); [by rewrite Ees|].
  rewrite rrs_resche_S, Hx. cbn [mbind option_bind]. rewrite Hn. cbn [mbind option_bind]. rewrite Hnext. cbn [mbind option_bind].
  unfold next_turn. rewrite Ees, after_split by done. rewrite <- Ees. destruct B as [|e B]; simpl hd.
  - rewrite Z.eqb_refl. apply (Hfrom_idle (with_curr s (rr_idle s)) 0%nat); [|done..]. apply wf_with_curr; [done|set_solver].
  - assert (e <> rr_idle s) as Hei by set_solver. apply Z.eqb_neq in Hei as ->. unfold thread_of.
    destruct (rw_ent _ _ e HW) as [y Hy]; [set_solver|]. by rewrite Hy.
Qed.

Lemma pick_idle s : rrs_wf s [] -> rrs_pick_next_task s = Some (s, thread_of s (rr_idle s)).
Proof.
  intros HW. pose proof HW as [(l & [(q & Eq & _ & Hsz & _) _] & El & _) _ _ _ _ _].
  unfold rrs_pick_next_task, thread_of. rewrite Eq. cbn [mbind option_bind].
  assert (zlen l = 1) as Hll by (unfold zlen; rewrite <- (length_fmap snd l), El; done).
  rewrite Hsz, Hll. destruct (rw_ent _ _ (rr_idle s) HW) as [x Hx]; [set_solver|]. simpl. by rewrite Hx.
Qed.
