(* ===== verification/RrsProps.v ===== *)
(** * The round-robin scheduler: adding, removing and fairness *)

From stdpp Require Import gmap.
From S2P Require Import Prelude Fresh LList LListSpec Rrs.

Lemma remove_spec_rrs s A e B t local :
  rrs_wf s (A ++ e :: B) -> zlen (A ++ e :: B) < SIZE_MAX -> rr_handle s !! t = Some e -> t <> 0 -> local <> 0 ->
  exists s', remove_rrs_entity s t local = Some s' /\ rrs_wf s' (A ++ B) /\
    rr_curr s' = (if rr_curr s =? e then rr_idle s else rr_curr s) /\ rr_idle s' = rr_idle s /\
    (forall d, d ∈ rr_idle s :: A ++ B -> thread_of s' d = thread_of s d).
Proof.
  intros HW Hlen Hh Ht0 Hl0. unfold remove_rrs_entity. apply Z.eqb_neq in Ht0 as ->. apply Z.eqb_neq in Hl0 as ->. simpl.
  rewrite Hh. pose proof HW as [(l & HL & El & Hents) N Hc Hz Hth Hhd].
  destruct (rw_ent _ _ e HW) as [x Hx]; [set_solver|]. rewrite Hx. cbn [mbind option_bind].
  assert (zlen l < two64) as Hll by (unfold zlen in *; rewrite <- (length_fmap snd l), El; simpl; lia).
  rewrite app_comm_cons in El. apply fmap_app_inv in El as (l1 & l2 & EA & El2 & ->). symmetry in El2.
  apply fmap_cons_inv in El2 as ([a d] & l3 & Ed & EB & ->). simpl in Ed. subst d.
  destruct (Hents a e) as (x' & Hx' & Hnode); [set_solver|]. assert (x' = x) as -> by congruence.
  rewrite Hnode. destruct (remove_spec_in _ _ _ _ _ HL Hll) as (q' & -> & HL' & _). cbn [mbind option_bind].
  rewrite app_comm_cons in N. pose proof N as N0. apply NoDup_app in N as (NA & HAB & [HeB NB]%NoDup_cons).
  assert (e ∉ rr_idle s :: A) as HeA by (intros HA; apply (HAB _ HA); set_solver).
  assert (forall d, d ∈ rr_idle s :: A ++ B -> d <> e) as Hne.
  { intros d Hd ->. rewrite app_comm_cons, elem_of_app in Hd. by destruct Hd. }
  eexists. split; [done|]. split_and!; [|done|done|].
  - split; cbn [rr_queue rr_ents rr_idle rr_curr rr_handle].
    + exists (l1 ++ l3). split_and!; [done|rewrite fmap_app, <- EA, <- EB; done|].
      intros n d Hin. destruct (Hents n d) as (y & Hy & Hn); [set_solver|]. exists y. rewrite lookup_delete_ne; [done|].
      apply not_eq_sym, Hne. rewrite app_comm_cons, EA, EB, <- fmap_app. apply list_elem_of_fmap. by exists (n, d).
    + rewrite app_comm_cons. apply NoDup_app. split_and!; [done| |done]. intros k Hk HkB. apply (HAB k Hk). set_solver.
    + destruct (Z.eqb_spec (rr_curr s) e); [set_solver|]. set_solver.
    + set_solver.
    + intros d y Hd. rewrite lookup_delete_ne by (apply not_eq_sym, Hne; set_solver). intros Hy.
      assert (d ∈ A ++ e :: B) as Hd' by set_solver. pose proof (Hth d y Hd' Hy) as Hdy.
      rewrite lookup_delete_ne; [done|]. intros Heq. rewrite <- Heq, Hh in Hdy. injection Hdy as <-.
      apply (Hne e); [set_solver|done].
    + intros u d. rewrite lookup_delete_Some. intros [Hu Hd]. destruct (Hhd _ _ Hd) as [Hin Hud].
      assert (d <> e) as Hde by (intros ->; destruct (Hhd _ _ Hh); congruence).
      split; [set_solver|]. unfold thread_of. simpl. by rewrite lookup_delete_ne.
  - intros d Hd. unfold thread_of. simpl. rewrite lookup_delete_ne; [done|]. by apply not_eq_sym, Hne.
Qed.

(** What the scheduler needs of the entity allocator. *)
Class EntAllocator (ent_malloc : gmap Z rrs_entity -> Z) : Prop := {
  ent_fresh : forall g, ent_malloc g <> 0 -> g !! ent_malloc g = None;
  ent_total : forall g, ent_malloc g <> 0;
}.

Section Ops.
Context (malloc : lheap -> Z) (junk : Z) {HM : NodeAllocator malloc}.
Context (ent_malloc : gmap Z rrs_entity -> Z) {HE : EntAllocator ent_malloc}.

Lemma fresh_ent s es : rrs_wf s es -> ent_malloc (rr_ents s) ∉ rr_idle s :: es.
Proof.
  intros HW Hin. destruct (rw_ent _ _ _ HW Hin) as [x Hx]. by rewrite ent_fresh in Hx by apply ent_total.
Qed.

Lemma add_spec_rrs s es t :
  rrs_wf s es -> zlen es < SIZE_MAX - 1 -> rr_handle s !! t = None ->
  exists s', add_rrs_entity malloc junk ent_malloc s t = Some s' /\
    rrs_wf s' (es ++ [ent_malloc (rr_ents s)]) /\ thread_of s' (ent_malloc (rr_ents s)) = t /\
    rr_curr s' = rr_curr s /\ (forall e, e ∈ rr_idle s :: es -> thread_of s' e = thread_of s e).
Proof.
  intros HW Hlen Ht. pose proof (fresh_ent _ _ HW) as Hfr. pose proof HW as [(l & HL & El & Hents) N Hc Hz Hth Hhd].
  unfold add_rrs_entity. set (e := ent_malloc (rr_ents s)) in *. pose proof (ent_total (rr_ents s)) as He0. fold e in He0.
  apply Z.eqb_neq in He0 as ->.
  assert (zlen l < SIZE_MAX) as Hl by (unfold zlen in *; rewrite <- (length_fmap snd l), El; simpl; lia).
  destruct (lq_enqueue_spec malloc junk _ _ e HL Hl) as (q' & a & -> & HL' & Ha0 & Ha & _ & _). cbn [mbind option_bind].
  eexists. split; [done|]. split_and!; [|unfold thread_of; simpl; by rewrite lookup_insert_eq|done|].
  - split; cbn [rr_queue rr_ents rr_idle rr_curr rr_handle].
    + exists (l ++ [(a, e)]). split_and!; [done|rewrite fmap_app, El; done|].
      intros n d Hin. apply elem_of_app in Hin as [Hin|Hin].
      * destruct (Hents n d Hin) as (x & Hx & Hn). exists x. rewrite lookup_insert_ne; [done|]. intros ->. apply Hfr.
        rewrite <- El. apply list_elem_of_fmap. by exists (n, d).
      * apply list_elem_of_singleton in Hin as [= -> ->]. exists (mkRe t a). by rewrite lookup_insert_eq.
    + rewrite app_comm_cons. apply NoDup_app. split_and!; [done| |apply NoDup_singleton]. intros k Hk ->%list_elem_of_singleton. done.
    + set_solver.
    + rewrite app_comm_cons, elem_of_app, list_elem_of_singleton. intros [?|?]; [done|]. apply (ent_total (rr_ents s)). done.
    + intros d x Hd. destruct (decide (d = e)) as [->|Hde].
      * rewrite lookup_insert_eq. intros [= <-]. simpl. by rewrite lookup_insert_eq.
      * rewrite lookup_insert_ne by done. intros Hx. assert (d ∈ es) as Hdes by set_solver.
        pose proof (Hth d x Hdes Hx) as Hh. rewrite lookup_insert_ne by congruence. done.
    + intros u d. unfold thread_of. simpl. destruct (decide (u = t)) as [->|Hut].
      * rewrite lookup_insert_eq. intros [= <-]. rewrite lookup_insert_eq. split; [set_solver|done].
      * rewrite lookup_insert_ne by done. intros Hd. destruct (Hhd _ _ Hd) as [Hin Hud].
        split; [set_solver|]. rewrite lookup_insert_ne; [done|]. intros <-. apply Hfr. set_solver.
  - intros d Hd. unfold thread_of. simpl. rewrite lookup_insert_ne; [done|]. intros ->. done.
Qed.

Lemma init_spec_rrs h ents idle :
  exists s, init_cpu_idle_rrs malloc junk ent_malloc true true h ents ∅ idle = Some s /\
    rrs_wf s [] /\ thread_of s (rr_idle s) = idle.
Proof.
  unfold init_cpu_idle_rrs. simpl. pose proof (ent_total ents) as He0. set (e := ent_malloc ents) in *.
  apply Z.eqb_neq in He0 as He. rewrite He.
  destruct (lq_enqueue_spec malloc junk (mkLs (Some (mkLq 0 0 0 SPIN_INIT)) h) [] e) as (q' & a & -> & HL & Ha0 & _ & _ & _).
  { split; [|constructor]. by eexists. } { done. }
  cbn [mbind option_bind]. eexists. split; [done|]. split.
  - split; cbn [rr_queue rr_ents rr_idle rr_curr rr_handle].
    + exists [(a, e)]. split_and!; [done|done|]. intros n d [= -> ->]%list_elem_of_singleton.
      exists (mkRe idle a). by rewrite lookup_insert_eq.
    + apply NoDup_singleton.
    + set_solver.
    + rewrite list_elem_of_singleton. done.
    + set_solver.
    + intros t d. by rewrite lookup_empty.
  - unfold thread_of. simpl. by rewrite lookup_insert_eq.
Qed.
End Ops.

(** ** Turns *)

Lemma last_shift (b c : Z) B : List.last (b :: B) c = List.last B b.
Proof. revert b c. induction B as [|x B IH]; intros b c; [done|]. by rewrite (IH x b), <- (IH x c). Qed.

Lemma picks_along s A c B C :
  rrs_wf s (A ++ c :: B ++ C) -> zlen (A ++ c :: B ++ C) < SIZE_MAX -> rr_curr s = c ->
  rrs_picks (length B) s = Some (with_curr s (List.last B c), thread_of s <$> B).
Proof.
  revert s A c. induction B as [|b B IH]; intros s A c HW Hlen Hc; simpl; [by destruct s; simpl in *; subst|].
  pose proof (rw_nodup _ _ HW) as N. apply NoDup_cons in N as [_ N]. apply NoDup_app in N as (_ & HAB & _).
  assert (c ∉ A) as HcA by (intros HA; apply (HAB _ HA); set_solver).
  rewrite (pick_spec _ _ HW); [|by destruct A|done]. unfold next_turn. rewrite Hc, after_split by done.
  cbn [app mbind option_bind]. assert (rrs_wf (with_curr s b) ((A ++ [c]) ++ b :: B ++ C)) as HW'.
  { rewrite <- app_assoc. apply wf_with_curr; [done|]. simpl. set_solver. }
  rewrite (IH _ _ _ HW'); [|by rewrite <- app_assoc|done]. cbn [mbind option_bind]. change (match B with [] => b | _ :: _ => List.last B c end) with (List.last (b :: B) c). by rewrite last_shift.
Qed.

Lemma picks_app n k s s1 ts :
  rrs_picks n s = Some (s1, ts) -> rrs_picks (n + k) s = ('(s2, us) ← rrs_picks k s1; Some (s2, ts ++ us)).
Proof.
  revert s ts. induction n as [|n IH]; intros s ts; simpl.
  - intros [= -> <-]. by destruct (rrs_picks k s1) as [[]|].
  - destruct (rrs_pick_next_task s) as [[s2 t]|]; [simpl|done].
    destruct (rrs_picks n s2) as [[s3 us]|] eqn:E2; [simpl|done]. intros [= -> <-].
    rewrite (IH _ _ E2). by destruct (rrs_picks k s1) as [[]|].
Qed.

(** C10: the round-robin pick is fair: from a scheduler whose current entity is
    [c], the next picks, as many as there are runnable entities, give every
    runnable thread exactly once, in queue order starting behind [c] and
    ending with [c] itself, without the idle thread. *)
Theorem rrs_round s A c B :
  rrs_wf s (A ++ c :: B) -> zlen (A ++ c :: B) < SIZE_MAX -> rr_curr s = c ->
  rrs_picks (length (A ++ c :: B)) s = Some (s, thread_of s <$> B ++ A ++ [c]).
Proof.
  intros HW Hlen Hc. rewrite length_app. simpl.
  assert (rrs_picks (length B) s = Some (with_curr s (List.last B c), thread_of s <$> B)) as HB.
  { apply (picks_along s A c B []); rewrite ?app_nil_r; done. }
  replace (length A + S (length B))%nat with (length B + S (length A))%nat by lia.
  rewrite (picks_app _ _ _ _ _ HB). set (s1 := with_curr s (List.last B c)).
  pose proof (rw_nodup _ _ HW) as N. apply NoDup_cons in N as [_ N].
  assert (rrs_wf s1 (A ++ c :: B)) as HW1.
  { apply wf_with_curr; [done|]. destruct B as [|b B] using rev_ind; [simpl; set_solver|]. rewrite last_last. set_solver. }
  assert (rrs_pick_next_task s1 = Some (with_curr s1 (hd 0 (A ++ [c])), thread_of s1 (hd 0 (A ++ [c])))) as Hp.
  { rewrite (pick_spec _ _ HW1); [|by destruct A|done]. unfold next_turn.
    assert (after (A ++ c :: B) (rr_curr s1) = []) as ->; [|by destruct A].
    unfold s1. simpl. destruct (list_snoc B) as [->|(k & b & ->)].
    - simpl. apply after_split. apply NoDup_app in N as (_ & N & _). intros HA. apply (N _ HA). set_solver.
    - rewrite last_last. rewrite app_comm_cons, app_assoc. apply after_split.
      rewrite app_comm_cons, app_assoc in N. apply NoDup_app in N as (_ & N & _). intros HA. apply (N _ HA). set_solver. }
  cbn [rrs_picks]. rewrite Hp. cbn [mbind option_bind]. destruct A as [|a A]; cbn [hd app].
  { simpl. rewrite fmap_app. simpl. do 2 f_equal. destruct s. simpl in *. by subst. }
  assert (rrs_wf (with_curr s1 a) ([] ++ a :: (A ++ [c]) ++ B)) as HW2.
  { simpl. rewrite <- app_assoc. apply wf_with_curr; [done|]. simpl. set_solver. }
  replace (length (a :: A)) with (length (A ++ [c])) by (rewrite length_app; simpl; lia).
  rewrite (picks_along _ _ _ _ _ HW2); [|simpl; by rewrite <- app_assoc|done]. simpl. rewrite !fmap_app, last_last. simpl.
  rewrite fmap_app. do 2 f_equal. destruct s. simpl in *. by subst.
Qed.

(** Picks give threads of the run queue, or the idle thread. *)
Lemma picks_members s es n :
  rrs_wf s es -> zlen es < SIZE_MAX ->
  exists s' ts, rrs_picks n s = Some (s', ts) /\
    forall t, t ∈ ts -> exists e, e ∈ rr_idle s :: es /\ t = thread_of s e.
Proof.
  revert s. induction n as [|n IH]; intros s HW Hlen; simpl; [exists s, []; set_solver|].
  assert (exists e, e ∈ rr_idle s :: es /\ rrs_pick_next_task s = Some (with_curr s e, thread_of s e) \/
            es = [] /\ rrs_pick_next_task s = Some (s, thread_of s e) /\ e = rr_idle s) as (e & He).
  { destruct es as [|x es].
    - exists (rr_idle s). right. split_and!; [done|by apply pick_idle|done].
    - exists (next_turn (x :: es) (rr_curr s)). left. split; [|by apply pick_spec].
      apply elem_of_cons. right. by apply next_turn_in. }
  destruct He as [(He & ->)|(-> & -> & ->)]; cbn [mbind option_bind].
  - destruct (IH _ (wf_with_curr _ _ _ HW He) Hlen) as (s' & ts & -> & Hts). cbn [mbind option_bind].
    eexists _, _. split; [done|]. intros t [->|Ht]%elem_of_cons; [eauto|]. by apply Hts.
  - destruct (IH _ HW Hlen) as (s' & ts & -> & Hts). cbn [mbind option_bind].
    eexists _, _. split; [done|]. intros t [->|Ht]%elem_of_cons; [exists (rr_idle s); set_solver|]. by apply Hts.
Qed.

(** C11: a thread that is removed from the scheduler is never picked again, however
    often the scheduler runs; the run queue loses its entity and keeps its
    order. *)
Theorem rrs_removed_never_runs s A e B t local :
  rrs_wf s (A ++ e :: B) -> zlen (A ++ e :: B) < SIZE_MAX -> rr_handle s !! t = Some e -> t <> 0 -> local <> 0 ->
  t <> thread_of s (rr_idle s) ->
  exists s', remove_rrs_entity s t local = Some s' /\ rrs_wf s' (A ++ B) /\
    forall n, exists s'' ts, rrs_picks n s' = Some (s'', ts) /\ (t ∉ ts).
Proof.
  intros HW Hlen Hh Ht0 Hl0 Hidle.
  destruct (remove_spec_rrs s A e B t local HW Hlen Hh Ht0 Hl0) as (s' & E' & HW' & _ & Hi & Hth).
  exists s'. split_and!; [done..|]. intros n.
  assert (zlen (A ++ B) < SIZE_MAX) as Hlen' by (rewrite zlen_app in *; rewrite zlen_cons in Hlen; lia).
  destruct (picks_members s' (A ++ B) n HW' Hlen') as (s'' & ts & E'' & Hts). exists s'', ts. split; [done|].
  intros Ht. destruct (Hts t Ht) as (d & Hd & ->). rewrite Hi in Hd. rewrite Hth in * by done.
  apply elem_of_cons in Hd as [->|Hd]; [done|]. pose proof (rw_nodup _ _ HW) as N.
  destruct (rw_ent _ _ d HW) as [x Hx]; [set_solver|].
  assert (d ∈ A ++ e :: B) as Hd' by set_solver. pose proof (rw_thread _ _ HW d x Hd' Hx) as Hh'.
  unfold thread_of in Hh. rewrite Hx in Hh. rewrite Hh' in Hh. injection Hh as ->.
  apply NoDup_cons in N as [_ N]. apply NoDup_app in N as (_ & N & [N2 _]%NoDup_cons).
  apply elem_of_app in Hd as [Hd|Hd]; [|done]. apply (N _ Hd). set_solver.
Qed.

(** ** Reachable states *)

Section Reach.
Context (malloc : lheap -> Z) (junk : Z) {HM : NodeAllocator malloc}.
Context (ent_malloc : gmap Z rrs_entity -> Z) {HE : EntAllocator ent_malloc}.

(** What the rest of the kernel does with a scheduler: a thread is added once,
    threads are removed and picked in any order. *)
Inductive rrs_reach : rrs_sys -> Prop :=
  | reach_init h idle s :
      init_cpu_idle_rrs malloc junk ent_malloc true true h ∅ ∅ idle = Some s -> rrs_reach s
  | reach_add s t s' :
      rrs_reach s -> rr_handle s !! t = None -> Z.of_nat (size (rr_ents s)) < SIZE_MAX - 1 ->
      add_rrs_entity malloc junk ent_malloc s t = Some s' -> rrs_reach s'
  | reach_remove s t local s' :
      rrs_reach s -> Z.of_nat (size (rr_ents s)) < SIZE_MAX - 1 ->
      remove_rrs_entity s t local = Some s' -> rrs_reach s'
  | reach_pick s t s' :
      rrs_reach s -> Z.of_nat (size (rr_ents s)) < SIZE_MAX - 1 ->
      rrs_pick_next_task s = Some (s', t) -> rrs_reach s'.

Lemma wf_size s es : rrs_wf s es -> zlen es <= Z.of_nat (size (rr_ents s)).
Proof.
  intros HW. pose proof (rw_nodup _ _ HW) as N. apply NoDup_cons in N as [_ N].
  unfold zlen. rewrite <- (size_list_to_set (C := gset Z)) by done. rewrite <- (size_dom (rr_ents s)).
  apply inj_le, subseteq_size. intros e He%elem_of_list_to_set. apply elem_of_dom.
  destruct (rw_ent _ _ e HW) as [x Hx]; [set_solver|]. eauto.
Qed.

(** In every state the kernel can bring the scheduler to, the run queue is
    well formed: the idle entity is first, the entities are distinct and
    each knows its node, the current entity is one of them, and the threads'
    handles name exactly the queued entities. So a pick always ends. *)
Theorem rrs_reachable_wf s :
  rrs_reach s -> exists es, rrs_wf s es.
Proof.
  induction 1 as [h idle s E0|s t s' _ (es & HW) Ht Hsz E0|s t local s' _ (es & HW) Hsz E0|s t s' _ (es & HW) Hsz E0].
  all: try pose proof (wf_size _ _ HW).
  - destruct (init_spec_rrs malloc junk ent_malloc h ∅ idle) as (s1 & E1 & HW & _). exists []. congruence.
  - destruct (add_spec_rrs malloc junk ent_malloc s es t) as (s1 & E1 & HW1 & _); [done|lia|done|].
    rewrite E1 in E0. injection E0 as <-. eauto.
  - unfold remove_rrs_entity in E0. destruct (t =? 0) eqn:Et0; [injection E0 as <-; eauto|].
    destruct (local =? 0) eqn:El0; [injection E0 as <-; eauto|]. apply Z.eqb_neq in Et0, El0.
    destruct (rr_handle s !! t) as [e|] eqn:Eh; [|injection E0 as <-; eauto].
    destruct (rw_handle _ _ HW _ _ Eh) as [He _]. apply list_elem_of_split in He as (A & B & ->).
    destruct (remove_spec_rrs s A e B t local) as (s1 & E1 & HW1 & _); [done|lia|done..|].
    unfold remove_rrs_entity in E1. apply Z.eqb_neq in Et0, El0. rewrite Et0, El0, Eh in E1. simpl in E0, E1.
    rewrite E1 in E0. injection E0 as <-. eauto.
  - destruct es as [|e es].
    + rewrite (pick_idle _ HW) in E0. injection E0 as <- _. eauto.
    + rewrite (pick_spec _ _ HW) in E0 by (done || lia). injection E0 as <- _. eexists.
      apply wf_with_curr; [done|]. apply elem_of_cons. right. by apply next_turn_in.
Qed.
End Reach.

(** ** Witnesses *)

(** An allocator that gives the address above every one in use. *)
Definition top_addr {A} (g : gmap Z A) : Z := 1 + top_key g.

#[export] Instance top_node_allocator : NodeAllocator top_addr.
Proof.
  split; intros h; [intros _; apply top_key_fresh; unfold top_addr; lia|].
  pose proof (top_key_nonneg h). unfold top_addr. lia.
Qed.
#[export] Instance top_ent_allocator : EntAllocator top_addr.
Proof.
  split; intros g; [intros _; apply top_key_fresh; unfold top_addr; lia|].
  pose proof (top_key_nonneg g). unfold top_addr. lia.
Qed.

(** Threads 10 and 20 beside the idle thread 5. *)
Definition demo_rrs : option rrs_sys :=
  s ← init_cpu_idle_rrs top_addr 0 top_addr true true ∅ ∅ ∅ 5;
  s ← add_rrs_entity top_addr 0 top_addr s 10;
  add_rrs_entity top_addr 0 top_addr s 20.

Lemma rrs_reachable_wf_witness : exists s es, demo_rrs = Some s /\ rrs_wf s es.
Proof.
  destruct (init_cpu_idle_rrs top_addr 0 top_addr true true ∅ ∅ ∅ 5) as [s0|] eqn:E0; [|by vm_compute in E0].
  destruct (add_rrs_entity top_addr 0 top_addr s0 10) as [s1|] eqn:E1; [|by vm_compute in E0; injection E0 as <-].
  destruct (add_rrs_entity top_addr 0 top_addr s1 20) as [s2|] eqn:E2;
    [|vm_compute in E0; injection E0 as <-; vm_compute in E1; injection E1 as <-; by vm_compute in E2].
  destruct (rrs_reachable_wf top_addr 0 top_addr s2) as [es Hes].
  - apply (reach_add top_addr 0 top_addr s1 20 s2); [apply (reach_add top_addr 0 top_addr s0 10 s1)|..|done].
    + by apply (reach_init top_addr 0 top_addr ∅ 5).
    + vm_compute in E0. injection E0 as <-. done.
    + vm_compute in E0. injection E0 as <-. done.
    + done.
    + vm_compute in E0. injection E0 as <-. vm_compute in E1. injection E1 as <-. done.
    + vm_compute in E0. injection E0 as <-. vm_compute in E1. injection E1 as <-. done.
  - exists s2, es. unfold demo_rrs. rewrite E0. cbn [mbind option_bind]. rewrite E1. done.
Defined.

Lemma demo_wf : exists s, demo_rrs = Some s /\ rrs_wf s [2; 3].
Proof.
  destruct (init_spec_rrs top_addr 0 top_addr ∅ ∅ 5) as (s0 & E0 & HW0 & _).
  destruct (add_spec_rrs top_addr 0 top_addr s0 [] 10 HW0) as (s1 & E1 & HW1 & _);
    [done|by vm_compute in E0; injection E0 as <-|].
  destruct (add_spec_rrs top_addr 0 top_addr s1 _ 20 HW1) as (s2 & E2 & HW2 & _).
  { by vm_compute in E0; injection E0 as <-. }
  { vm_compute in E0. injection E0 as <-. vm_compute in E1. injection E1 as <-. done. }
  exists s2. unfold demo_rrs. rewrite E0. cbn [mbind option_bind]. rewrite E1. cbn [mbind option_bind]. split; [done|].
  replace [2; 3] with (([] ++ [top_addr (rr_ents s0)]) ++ [top_addr (rr_ents s1)]); [done|].
  vm_compute in E0. injection E0 as <-. vm_compute in E1. injection E1 as <-. reflexivity.
Qed.

(** After two picks thread 20 is current; the next two are 10 and 20 again. *)
Lemma rrs_round_witness :
  exists s, demo_rrs = Some s /\ rrs_picks 2 (with_curr s 3) = Some (with_curr s 3, [10; 20]).
Proof.
  destruct demo_wf as (s & E0 & HW). exists s. split; [done|].
  assert (rrs_picks 2 (with_curr s 3) = Some (with_curr s 3, thread_of (with_curr s 3) <$> [2; 3])) as ->.
  { apply (rrs_round (with_curr s 3) [2] 3 []); [apply wf_with_curr; [done|set_solver]|done|done]. }
  vm_compute in E0. injection E0 as <-. reflexivity.
Defined.

Lemma rrs_removed_never_runs_witness :
  exists s s', demo_rrs = Some s /\ remove_rrs_entity s 10 1 = Some s' /\
    forall n, exists s'' ts, rrs_picks n s' = Some (s'', ts) /\ (10 ∉ ts).
Proof.
  destruct demo_wf as (s & E0 & HW).
  destruct (rrs_removed_never_runs s [] 2 [3] 10 1 HW) as (s' & E1 & _ & Hn); [done| |done|done| |].
  - vm_compute in E0. injection E0 as <-. done.
  - vm_compute in E0. injection E0 as <-. done.
  - exists s, s'. done.
Defined.
