(* ===== verification/Eevdf.v ===== *)
(** * The EEVDF scheduler ([src/src/task/eevdf.c], [src/src/include/task/eevdf.h])

    A run queue is a red-black tree of entities ordered by virtual deadline,
    with the entity that runs now, and a queue of waiting entities. Entities
    live in memory by address; the tree node of an entity is its field
    [run_node], [RUN_NODE] bytes into it. The clock and the allocators are
    parameters. [None] is an access outside the objects, following NULL
    included, an undefined shift, or a loop that has not ended within its
    bound. *)

From stdpp Require Import gmap.
From S2P Require Import Prelude RbTree Cow.

(** ** Data *)

Record load_weight := mkLw { lw_weight : Z; lw_inv : Z }.

Record sched_entity := mkSe {
  se_prio : Z;
  se_vruntime : Z;
  se_slice : Z;
  se_custom_slice : Z;
  se_deadline : Z;
  se_exec_start : Z;
  se_min_vruntime : Z;
  se_sum_exec : Z;
  se_vlag : Z;
  se_is_idle : bool;
  se_load : load_weight;
  se_on_rq : bool;
  se_thread : Z;
  se_wait_index : Z;
  se_is_yield : bool;
  se_handle : Z;
}.

(** The run node is part of the entity: its address is the entity's plus the
    offset of the field. *)
Definition RUN_NODE : Z := 96.
Definition run_node (e : Z) : Z := e + RUN_NODE.
Definition node_2_se (n : Z) : Z := n - RUN_NODE.

Record eevdf_t := mkEe {
  ee_mem : rb_mem;            (* the run nodes and [root->rb_node] *)
  ee_current : Z;
  ee_idle : Z;
  ee_wait : cow_sys;
  ee_task_count : Z;
  ee_avg_load : Z;
  ee_avg_vruntime : Z;
  ee_min_vruntime : Z;
}.

(** A processor's scheduler: its [eevdf_t] and the address of it, the
    entities, and [sched_handle] of the threads that have one. *)
Record rq := mkRq { rq_ee : eevdf_t; rq_addr : Z; rq_ents : gmap Z sched_entity; rq_handle : gmap Z Z }.

(** Field updates. *)
Definition set_prio (p : Z) (i : bool) (e : sched_entity) : sched_entity :=
  mkSe p (se_vruntime e) (se_slice e) (se_custom_slice e) (se_deadline e) (se_exec_start e) (se_min_vruntime e)
    (se_sum_exec e) (se_vlag e) i (se_load e) (se_on_rq e) (se_thread e) (se_wait_index e) (se_is_yield e) (se_handle e).
Definition set_vruntime (x : Z) (e : sched_entity) : sched_entity :=
  mkSe (se_prio e) x (se_slice e) (se_custom_slice e) (se_deadline e) (se_exec_start e) (se_min_vruntime e)
    (se_sum_exec e) (se_vlag e) (se_is_idle e) (se_load e) (se_on_rq e) (se_thread e) (se_wait_index e) (se_is_yield e) (se_handle e).
Definition set_slice (x : Z) (e : sched_entity) : sched_entity :=
  mkSe (se_prio e) (se_vruntime e) x (se_custom_slice e) (se_deadline e) (se_exec_start e) (se_min_vruntime e)
    (se_sum_exec e) (se_vlag e) (se_is_idle e) (se_load e) (se_on_rq e) (se_thread e) (se_wait_index e) (se_is_yield e) (se_handle e).
Definition set_deadline (x : Z) (e : sched_entity) : sched_entity :=
  mkSe (se_prio e) (se_vruntime e) (se_slice e) (se_custom_slice e) x (se_exec_start e) (se_min_vruntime e)
    (se_sum_exec e) (se_vlag e) (se_is_idle e) (se_load e) (se_on_rq e) (se_thread e) (se_wait_index e) (se_is_yield e) (se_handle e).
Definition set_exec (start sum : Z) (e : sched_entity) : sched_entity :=
  mkSe (se_prio e) (se_vruntime e) (se_slice e) (se_custom_slice e) (se_deadline e) start (se_min_vruntime e)
    sum (se_vlag e) (se_is_idle e) (se_load e) (se_on_rq e) (se_thread e) (se_wait_index e) (se_is_yield e) (se_handle e).
Definition set_min_vruntime (x : Z) (e : sched_entity) : sched_entity :=
  mkSe (se_prio e) (se_vruntime e) (se_slice e) (se_custom_slice e) (se_deadline e) (se_exec_start e) x
    (se_sum_exec e) (se_vlag e) (se_is_idle e) (se_load e) (se_on_rq e) (se_thread e) (se_wait_index e) (se_is_yield e) (se_handle e).
Definition set_vlag (x : Z) (e : sched_entity) : sched_entity :=
  mkSe (se_prio e) (se_vruntime e) (se_slice e) (se_custom_slice e) (se_deadline e) (se_exec_start e) (se_min_vruntime e)
    (se_sum_exec e) x (se_is_idle e) (se_load e) (se_on_rq e) (se_thread e) (se_wait_index e) (se_is_yield e) (se_handle e).
Definition set_load (x : load_weight) (e : sched_entity) : sched_entity :=
  mkSe (se_prio e) (se_vruntime e) (se_slice e) (se_custom_slice e) (se_deadline e) (se_exec_start e) (se_min_vruntime e)
    (se_sum_exec e) (se_vlag e) (se_is_idle e) x (se_on_rq e) (se_thread e) (se_wait_index e) (se_is_yield e) (se_handle e).
Definition set_on_rq (x : bool) (e : sched_entity) : sched_entity :=
  mkSe (se_prio e) (se_vruntime e) (se_slice e) (se_custom_slice e) (se_deadline e) (se_exec_start e) (se_min_vruntime e)
    (se_sum_exec e) (se_vlag e) (se_is_idle e) (se_load e) x (se_thread e) (se_wait_index e) (se_is_yield e) (se_handle e).
Definition set_thread (x : Z) (e : sched_entity) : sched_entity :=
  mkSe (se_prio e) (se_vruntime e) (se_slice e) (se_custom_slice e) (se_deadline e) (se_exec_start e) (se_min_vruntime e)
    (se_sum_exec e) (se_vlag e) (se_is_idle e) (se_load e) (se_on_rq e) x (se_wait_index e) (se_is_yield e) (se_handle e).
Definition set_wait_index (x : Z) (e : sched_entity) : sched_entity :=
  mkSe (se_prio e) (se_vruntime e) (se_slice e) (se_custom_slice e) (se_deadline e) (se_exec_start e) (se_min_vruntime e)
    (se_sum_exec e) (se_vlag e) (se_is_idle e) (se_load e) (se_on_rq e) (se_thread e) x (se_is_yield e) (se_handle e).
Definition set_yield (x : bool) (e : sched_entity) : sched_entity :=
  mkSe (se_prio e) (se_vruntime e) (se_slice e) (se_custom_slice e) (se_deadline e) (se_exec_start e) (se_min_vruntime e)
    (se_sum_exec e) (se_vlag e) (se_is_idle e) (se_load e) (se_on_rq e) (se_thread e) (se_wait_index e) x (se_handle e).
Definition set_handle (x : Z) (e : sched_entity) : sched_entity :=
  mkSe (se_prio e) (se_vruntime e) (se_slice e) (se_custom_slice e) (se_deadline e) (se_exec_start e) (se_min_vruntime e)
    (se_sum_exec e) (se_vlag e) (se_is_idle e) (se_load e) (se_on_rq e) (se_thread e) (se_wait_index e) (se_is_yield e) x.

Definition with_ee (s : rq) (x : eevdf_t) : rq := mkRq x (rq_addr s) (rq_ents s) (rq_handle s).
Definition with_mem (s : rq) (m : rb_mem) : rq :=
  let x := rq_ee s in
  with_ee s (mkEe m (ee_current x) (ee_idle x) (ee_wait x) (ee_task_count x) (ee_avg_load x) (ee_avg_vruntime x) (ee_min_vruntime x)).
Definition with_current (s : rq) (e : Z) : rq :=
  let x := rq_ee s in
  with_ee s (mkEe (ee_mem x) e (ee_idle x) (ee_wait x) (ee_task_count x) (ee_avg_load x) (ee_avg_vruntime x) (ee_min_vruntime x)).
Definition with_wait (s : rq) (w : cow_sys) : rq :=
  let x := rq_ee s in
  with_ee s (mkEe (ee_mem x) (ee_current x) (ee_idle x) w (ee_task_count x) (ee_avg_load x) (ee_avg_vruntime x) (ee_min_vruntime x)).
Definition with_count (s : rq) (n : Z) : rq :=
  let x := rq_ee s in
  with_ee s (mkEe (ee_mem x) (ee_current x) (ee_idle x) (ee_wait x) n (ee_avg_load x) (ee_avg_vruntime x) (ee_min_vruntime x)).
Definition with_avg (s : rq) (avg : Z) : rq :=
  let x := rq_ee s in
  with_ee s (mkEe (ee_mem x) (ee_current x) (ee_idle x) (ee_wait x) (ee_task_count x) (ee_avg_load x) avg (ee_min_vruntime x)).
Definition with_min (s : rq) (v : Z) : rq :=
  let x := rq_ee s in
  with_ee s (mkEe (ee_mem x) (ee_current x) (ee_idle x) (ee_wait x) (ee_task_count x) (ee_avg_load x) (ee_avg_vruntime x) v).
Definition with_ents (s : rq) (g : gmap Z sched_entity) : rq := mkRq (rq_ee s) (rq_addr s) g (rq_handle s).
Definition with_handle (s : rq) (t e : Z) : rq := mkRq (rq_ee s) (rq_addr s) (rq_ents s) (<[t := e]> (rq_handle s)).

(** Changing the entity at [e]. *)
Definition upd (s : rq) (e : Z) (f : sched_entity -> sched_entity) : option rq :=
  x ← rq_ents s !! e; Some (with_ents s (<[e := f x]> (rq_ents s))).
(** The same for a change that may fault and gives a result. *)
Definition updo {A} (s : rq) (e : Z) (f : sched_entity -> option (A * sched_entity)) : option (rq * A) :=
  x ← rq_ents s !! e; '(a, y) ← f x; Some (with_ents s (<[e := y]> (rq_ents s)), a).

(** ** Constants *)

Definition sysctl_sched_base_slice : Z := 700000.
Definition MAX_RT_PRIO : Z := 100.
Definition DEFAULT_PRIO : Z := 120.
Definition NICE_TO_PRIO (nice : Z) : Z := nice + DEFAULT_PRIO.
Definition SCHED_FIXEDPOINT_SHIFT : Z := 10.
Definition NICE_0_LOAD : Z := 1048576.
Definition WEIGHT_IDLEPRIO : Z := 3.
Definition WMULT_IDLEPRIO : Z := 1431655765.
Definition WMULT_CONST : Z := 4294967295.
Definition WMULT_SHIFT : Z := 32.
Definition VRUNTIME_OFFSET_THRESHOLD : Z := 0xa000000000000000.
Definition TICK_NSEC : Z := 10000000.

Definition scale_load (w : Z) : Z := Z.shiftl w SCHED_FIXEDPOINT_SHIFT.
Definition scale_load_down (w : Z) : Z :=
  if negb (w =? 0) then MAX 2 (Z.shiftr w SCHED_FIXEDPOINT_SHIFT) else w.

Definition sched_prio_to_weight : list Z := [
  88761; 71755; 56483; 46273; 36291;
  29154; 23254; 18705; 14949; 11916;
  9548; 7620; 6100; 4904; 3906;
  3121; 2501; 1991; 1586; 1277;
  1024; 820; 655; 526; 423;
  335; 272; 215; 172; 137;
  110; 87; 70; 56; 45;
  36; 29; 23; 18; 15].

Definition sched_prio_to_wmult : list Z := [
  48388; 59856; 76040; 92818; 118348;
  147320; 184698; 229616; 287308; 360437;
  449829; 563644; 704093; 875809; 1099582;
  1376151; 1717300; 2157191; 2708050; 3363326;
  4194304; 5237765; 6557202; 8165337; 10153587;
  12820798; 15790321; 19976592; 24970740; 31350126;
  39045157; 49367440; 61356676; 76695844; 95443717;
  119304647; 148102320; 186737708; 238609294; 286331153].

(** ** Arithmetic *)

(** [fls] of [krlibc.c]; [__builtin_clz x] is [31 - log2 x] for [x > 0]. *)
Definition fls (x : Z) : Z := if x =? 0 then 0 else 32 - (31 - Z.log2 x).

(** A 128-bit product shifted right; a shift by 128 or more is undefined. *)
Definition mul_u64_u32_shr (a mul shift : Z) : option Z :=
  if u32 shift <? 128 then Some (u64 (Z.shiftr (a * mul) (u32 shift))) else None.

Definition entity_key (vruntime min : Z) : Z := i64 (vruntime - min).

Definition entity_before (a b : sched_entity) : bool := i64 (se_deadline a - se_deadline b) <? 0.

Definition min_vruntime (min vruntime : Z) : Z :=
  let delta := i64 (vruntime - min) in if delta <? 0 then vruntime else min.

Definition __update_inv_weight (lw : load_weight) : load_weight :=
  if negb (lw_inv lw =? 0) then lw
  else
    let w := scale_load_down (lw_weight lw) in
    mkLw (lw_weight lw) (if w >=? WMULT_CONST then 1 else if w =? 0 then WMULT_CONST else WMULT_CONST / w).

(** The two places that bring [fact] below 32 bits. *)
Definition reduce_fact (fact shift : Z) : Z * Z :=
  let fact_hi := u32 (Z.shiftr fact 32) in
  if negb (fact_hi =? 0) then (Z.shiftr fact (fls fact_hi), shift - fls fact_hi) else (fact, shift).

Definition __calc_delta (delta_exec weight : Z) (lw : load_weight) : option (Z * load_weight) :=
  let fact := scale_load_down weight in
  let lw := __update_inv_weight lw in
  let '(fact, shift) := reduce_fact fact WMULT_SHIFT in
  let fact := u64 (fact * lw_inv lw) in
  let '(fact, shift) := reduce_fact fact shift in
  d ← mul_u64_u32_shr delta_exec (u32 fact) shift;
  Some (d, lw).

Definition calc_delta_fair (delta : Z) (se : sched_entity) : option (Z * sched_entity) :=
  if negb (lw_weight (se_load se) =? NICE_0_LOAD) then
    '(d, lw) ← __calc_delta delta NICE_0_LOAD (se_load se);
    Some (d, set_load lw se)
  else Some (delta, se).

Definition set_load_weight (entity : sched_entity) : option sched_entity :=
  let prio := i32 (u64 (se_prio entity - MAX_RT_PRIO)) in
  if se_prio entity =? NICE_TO_PRIO 20 then
    Some (set_load (mkLw (scale_load WEIGHT_IDLEPRIO) WMULT_IDLEPRIO) entity)
  else
    w ← zget sched_prio_to_weight prio;
    i ← zget sched_prio_to_wmult prio;
    Some (set_load (mkLw (scale_load w) i) entity).

Definition update_deadline (se : sched_entity) : option (bool * sched_entity) :=
  if i64 (se_vruntime se - se_deadline se) <? 0 then Some (false, se)
  else
    let se := if se_custom_slice se =? 0 then set_slice sysctl_sched_base_slice se else se in
    '(d, se) ← calc_delta_fair (se_slice se) se;
    Some (true, set_deadline (u64 (se_vruntime se + d)) se).

(** ** The run queue *)

Definition avg_vruntime_update (s : rq) (delta : Z) : rq :=
  with_avg s (u64 (ee_avg_vruntime (rq_ee s) - ee_avg_load (rq_ee s) * delta)).

Definition vruntime_eligible (s : rq) (vruntime : Z) : option bool :=
  let x := rq_ee s in
  let avg := i64 (ee_avg_vruntime x) in
  let load := i64 (ee_avg_load x) in
  if load =? 0 then Some true
  else
    '(avg, load) ←
      (if ee_current x =? 0 then Some (avg, load)
       else
         curr ← rq_ents s !! ee_current x;
         if se_on_rq curr then
           let weight := scale_load_down (lw_weight (se_load curr)) in
           Some (i64 (avg + entity_key (se_vruntime curr) (ee_min_vruntime x) * weight), i64 (load + weight))
         else Some (avg, load));
    Some (avg >=? i64 (i64 (vruntime - ee_min_vruntime x) * load)).

(** The search of [insert_sched_entity] for the link of the new node. *)
Fixpoint insert_walk (fuel : nat) (s : rq) (deadline : Z) (parent : Z) (link : rb_link) : option (Z * rb_link) :=
  match fuel with
  | O => None
  | S fuel =>
    x ← link_get (ee_mem (rq_ee s)) link;
    if x =? 0 then Some (parent, link)
    else
      let parent := x in
      entry ← rq_ents s !! node_2_se parent;
      if deadline <? se_deadline entry then insert_walk fuel s deadline parent (Lleft parent)
      else insert_walk fuel s deadline parent (Lright parent)
  end.

Definition insert_sched_entity (s : rq) (se : Z) : option rq :=
  let m := ee_mem (rq_ee s) in
  x ← rq_ents s !! se;
  '(parent, link) ← insert_walk (rb_fuel m) s (se_deadline x) 0 Lroot;
  m ← rb_link_node m (run_node se) parent link;
  m ← rb_insert_color m (run_node se);
  Some (with_mem s m).

Definition pick_earliest_entity (s : rq) : option Z :=
  node ← rb_first (ee_mem (rq_ee s));
  if node =? 0 then Some 0 else Some (node_2_se node).

Definition __min_vruntime_update (s : rq) (se node : Z) : option rq :=
  if node =? 0 then Some s
  else
    x ← rq_ents s !! se;
    rse ← rq_ents s !! node_2_se node;
    if i64 (se_min_vruntime x - se_min_vruntime rse) >? 0 then upd s se (set_min_vruntime (se_min_vruntime rse)) else Some s.

Definition min_vruntime_update (s : rq) (se : Z) : option (rq * bool) :=
  x ← rq_ents s !! se;
  let old_min_vruntime := se_min_vruntime x in
  s ← upd s se (set_min_vruntime (se_vruntime x));
  r ← ld (ee_mem (rq_ee s)) (run_node se) rb_right;
  s ← __min_vruntime_update s se r;
  l ← ld (ee_mem (rq_ee s)) (run_node se) rb_left;
  s ← __min_vruntime_update s se l;
  x ← rq_ents s !! se;
  Some (s, se_min_vruntime x =? old_min_vruntime).

(** The search of [pick_eevdf] for an eligible entity. *)
Fixpoint pick_walk (fuel : nat) (s : rq) (node : Z) : option Z :=
  match fuel with
  | O => None
  | S fuel =>
    if node =? 0 then Some 0
    else
      left ← ld (ee_mem (rq_ee s)) node rb_left;
      go ← (if left =? 0 then Some false
            else x ← rq_ents s !! node_2_se left; vruntime_eligible s (se_min_vruntime x));
      if (go : bool) then pick_walk fuel s left
      else
        x ← rq_ents s !! node_2_se node;
        ok ← vruntime_eligible s (se_vruntime x);
        if (ok : bool) then Some (node_2_se node)
        else r ← ld (ee_mem (rq_ee s)) node rb_right; pick_walk fuel s r
  end.

Definition pick_eevdf (s : rq) : option Z :=
  se ← pick_earliest_entity s;
  let curr := ee_current (rq_ee s) in
  found ← (if se =? 0 then Some false else x ← rq_ents s !! se; vruntime_eligible s (se_vruntime x));
  best ← (if (found : bool) then Some se else pick_walk (rb_fuel (ee_mem (rq_ee s))) s (rb_top (ee_mem (rq_ee s))));
  if best =? 0 then Some curr
  else if curr =? 0 then Some best
  else
    c ← rq_ents s !! curr;
    b ← rq_ents s !! best;
    Some (if entity_before c b then curr else best).

Definition __update_min_vruntime (s : rq) (vruntime : Z) : rq * Z :=
  let min := ee_min_vruntime (rq_ee s) in
  let delta := i64 (vruntime - min) in
  if delta >? 0 then (avg_vruntime_update s delta, vruntime) else (s, min).

(** The macro [MAX] evaluates its first argument again when it is the
    larger. *)
Definition update_min_vruntime (s : rq) : option rq :=
  let node := rb_top (ee_mem (rq_ee s)) in
  let se := if node =? 0 then 0 else node_2_se node in
  let curr := ee_current (rq_ee s) in
  let vruntime := ee_min_vruntime (rq_ee s) in
  '(vruntime, curr) ←
    (if curr =? 0 then Some (vruntime, curr)
     else c ← rq_ents s !! curr; if se_on_rq c then Some (se_vruntime c, curr) else Some (vruntime, 0));
  vruntime ←
    (if se =? 0 then Some vruntime
     else x ← rq_ents s !! se;
          if curr =? 0 then Some (se_min_vruntime x) else Some (min_vruntime vruntime (se_vruntime x)));
  let '(s, a) := __update_min_vruntime s vruntime in
  if a >? vruntime then let '(s, a) := __update_min_vruntime s vruntime in Some (with_min s a)
  else Some (with_min s vruntime).

(** The loop of [wrap_vruntime] over the tree. *)
Fixpoint wrap_walk (fuel : nat) (s : rq) (node : Z) : option rq :=
  match fuel with
  | O => None
  | S fuel =>
    if node =? 0 then Some s
    else
      let offset := VRUNTIME_OFFSET_THRESHOLD in
      s ← upd s (node_2_se node) (fun se =>
            let se := if se_vruntime se >? offset then set_vruntime (u64 (se_vruntime se - offset)) se else se in
            if se_deadline se >? offset then set_deadline (u64 (se_deadline se - offset)) se else se);
      next ← rb_next (ee_mem (rq_ee s)) node;
      wrap_walk fuel s next
  end.

Definition wrap_vruntime (s : rq) : option rq :=
  let x := rq_ee s in
  if ee_min_vruntime x <? VRUNTIME_OFFSET_THRESHOLD then Some s
  else
    let offset := VRUNTIME_OFFSET_THRESHOLD in
    let s := with_min s (u64 (ee_min_vruntime x - offset)) in
    s ← (if ee_current x =? 0 then Some s
         else upd s (ee_current x) (fun c =>
                set_deadline (u64 (se_deadline c - offset)) (set_vruntime (u64 (se_vruntime c - offset)) c)));
    first ← rb_first (ee_mem (rq_ee s));
    s ← wrap_walk (rb_fuel (ee_mem (rq_ee s))) s first;
    Some (with_avg s (if negb (ee_avg_load (rq_ee s) =? 0)
                      then u64 (ee_avg_vruntime (rq_ee s) - ee_avg_load (rq_ee s) * offset) else 0)).

Definition update_curr_se (now : Z) (curr : sched_entity) : Z * sched_entity :=
  let delta_exec := i64 (now - se_exec_start curr) in
  if delta_exec <=? 0 then (delta_exec, curr)
  else (delta_exec, set_exec now (u64 (se_sum_exec curr + delta_exec)) curr).

(** [clamp] *)
Definition clamp (val lo hi : Z) : Z := if val >=? hi then hi else if val <=? lo then lo else val.

Definition update_vlag (min : Z) (se : sched_entity) : option (unit * sched_entity) :=
  let vlag_raw := i64 (min - se_vruntime se) in
  '(d, se) ← calc_delta_fair (MAX (u64 (2 * se_slice se)) TICK_NSEC) se;
  let limit := i64 d in
  Some (tt, set_vlag (clamp vlag_raw (i64 (- limit)) limit) se).

(** [curr->deadline = curr->vruntime + calc_delta_fair(curr->slice, curr);
    curr->is_yield = false] *)
Definition yield_deadline (curr : sched_entity) : option (unit * sched_entity) :=
  '(d, curr) ← calc_delta_fair (se_slice curr) curr;
  Some (tt, set_yield false (set_deadline (u64 (se_vruntime curr + d)) curr)).

(** [min_vruntime_update(curr, false); rb_erase(...); insert_sched_entity(...)] *)
Definition requeue (s : rq) (curr : Z) : option rq :=
  '(s, _) ← min_vruntime_update s curr;
  m ← rb_erase (ee_mem (rq_ee s)) (run_node curr);
  insert_sched_entity (with_mem s m) curr.

(** [update_current_task] up to its last call, and whether it gets there. *)
Definition update_current_body (s : rq) (now : Z) : option (rq * bool) :=
  let curr := ee_current (rq_ee s) in
  if curr =? 0 then Some (s, false)
  else
    '(s, delta_exec) ← updo s curr (fun c => Some (update_curr_se now c));
    c ← rq_ents s !! curr;
    if delta_exec <=? 0 then
      s ← (if se_is_yield c then '(s, _) ← updo s curr yield_deadline; requeue s curr else Some s);
      Some (s, false)
    else
      '(s, _) ← updo s curr (fun c =>
        '(d, c) ← calc_delta_fair delta_exec c; Some (tt, set_vruntime (u64 (se_vruntime c + d)) c));
      '(s, _) ← updo s curr (update_vlag (ee_min_vruntime (rq_ee s)));
      '(s, resche) ← updo s curr update_deadline;
      s ← update_min_vruntime s;
      s ← upd s curr (set_min_vruntime (ee_min_vruntime (rq_ee s)));
      c ← rq_ents s !! curr;
      '(s, resche) ←
        (if se_is_yield c then '(s, _) ← updo s curr yield_deadline; Some (s, true) else Some (s, resche));
      c ← rq_ents s !! curr;
      s ← (if (resche : bool) || se_is_idle c then requeue s curr else Some s);
      Some (s, true).

Definition update_current_task (s : rq) (now : Z) : option rq :=
  '(s, wrap) ← update_current_body s now;
  if (wrap : bool) then wrap_vruntime s else Some s.

Definition set_entity_yield (s : rq) (thread : Z) : option rq :=
  e ← rq_handle s !! thread; upd s e (set_yield true).

Definition remove_sched_entity (s : rq) (se : Z) : option rq :=
  m ← rb_erase (ee_mem (rq_ee s)) (run_node se);
  s ← upd (with_mem s m) se (set_on_rq false);
  let s := if ee_current (rq_ee s) =? se then with_current s 0 else s in
  best ← pick_eevdf s;
  let s := with_current s best in
  '(s, _) ← min_vruntime_update s se;
  update_min_vruntime s.

Definition eevdf_pick_next_task (s : rq) (now now' : Z) : option (rq * Z) :=
  s ← update_current_task s now;
  current ← pick_eevdf s;
  '(s, thread) ← updo s current (fun c => Some (se_thread c, set_exec now' (se_sum_exec c) c));
  Some (with_current s current, thread).

Definition change_entity_weight (s : rq) (thread prio : Z) : option rq :=
  e ← rq_handle s !! thread;
  x ← rq_ents s !! e;
  if se_prio x =? prio then Some s
  else
    y ← set_load_weight (set_prio prio (prio =? NICE_TO_PRIO 20) x);
    let s := with_ents s (<[e := y]> (rq_ents s)) in
    m ← rb_erase (ee_mem (rq_ee s)) (run_node e);
    insert_sched_entity (with_mem s m) e.

(** ** Entities come and go

    [alloc] is the block [malloc] returns for an entity: its address, 0 for
    NULL, and what is in the fields that are not written at once. *)

Record block := mkBlock { bk_addr : Z; bk_junk : sched_entity; bk_node : rb_node }.

Definition new_entity (s : rq) (alloc : block) (task prio now : Z) : option rq :=
  if bk_addr alloc =? 0 then None
  else
    let j := bk_junk alloc in
    let v := ee_min_vruntime (rq_ee s) in
    let entity := mkSe prio v sysctl_sched_base_slice 0 0 now v (se_sum_exec j) (se_vlag j) (prio =? NICE_TO_PRIO 20)
                    (se_load j) true (se_thread j) (se_wait_index j) false (se_handle j) in
    entity ← set_load_weight entity;
    '(_, entity) ← update_deadline entity;
    let m := ee_mem (rq_ee s) in
    let s := with_mem s (mkRm (<[run_node (bk_addr alloc) := bk_node alloc]> (rb_nodes m)) (rb_top m)) in
    Some (with_ents s (<[bk_addr alloc := set_thread task entity]> (rq_ents s))).

Definition add_eevdf_entity_with_prio (s : rq) (alloc : block) (new_task prio now : Z) : option rq :=
  s ← new_entity s alloc new_task prio now;
  s ← upd s (bk_addr alloc) (set_handle (rq_addr s));
  s ← insert_sched_entity (with_handle s new_task (bk_addr alloc)) (bk_addr alloc);
  Some (with_count s (u64 (ee_task_count (rq_ee s) + 1))).

Definition add_eevdf_entity (s : rq) (alloc : block) (new_task now : Z) : option rq :=
  s ← new_entity s alloc new_task (NICE_TO_PRIO 0) now;
  s ← upd (with_handle s new_task (bk_addr alloc)) (bk_addr alloc) (set_handle (rq_addr s));
  s ← insert_sched_entity s (bk_addr alloc);
  Some (with_count s (u64 (ee_task_count (rq_ee s) + 1))).

Definition add_eevdf_entity_prio (s : rq) (alloc : block) (new_task prio now : Z) : option rq :=
  s ← new_entity s alloc new_task prio now;
  s ← upd (with_handle s new_task (bk_addr alloc)) (bk_addr alloc) (set_handle (rq_addr s));
  s ← insert_sched_entity s (bk_addr alloc);
  Some (with_count s (u64 (ee_task_count (rq_ee s) + 1))).

(** [if (task_count > 0) task_count--] *)
Definition drop_count (s : rq) : rq :=
  let n := ee_task_count (rq_ee s) in if n >? 0 then with_count s (n - 1) else s.

(** [cpu] 0 is NULL; a thread without a handle has NULL there. *)
Definition remove_eevdf_entity (s : rq) (thread cpu : Z) : option rq :=
  if (thread =? 0) || (cpu =? 0) then Some s
  else
    match rq_handle s !! thread with
    | None => Some s
    | Some entity =>
      s ← remove_sched_entity s entity;
      let m := ee_mem (rq_ee s) in
      let s := with_mem s (mkRm (delete (run_node entity) (rb_nodes m)) (rb_top m)) in
      let s := with_ents s (delete entity (rq_ents s)) in
      Some (drop_count (mkRq (rq_ee s) (rq_addr s) (rq_ents s) (delete thread (rq_handle s))))
    end.

Section Wait.
(* the allocators of the list of waiting entities *)
Context (malloc : gmap Z cow_block -> Z) (realloc : list Z -> Z -> option (list Z)).

Definition wait_eevdf_entity (s : rq) (thread cpu : Z) : option rq :=
  if (thread =? 0) || (cpu =? 0) then Some s
  else
    match rq_handle s !! thread with
    | None => Some s
    | Some entity =>
      x ← rq_ents s !! entity;
      if negb (se_on_rq x) then Some s
      else
        s ← remove_sched_entity s entity;
        '(w, i) ← cow_list_add malloc realloc (ee_wait (rq_ee s)) entity;
        s ← upd (with_wait s w) entity (set_wait_index i);
        Some (drop_count s)
    end.

Definition futex_eevdf_entity (s : rq) (thread cpu : Z) : option rq :=
  if (thread =? 0) || (cpu =? 0) then Some s
  else
    match rq_handle s !! thread with
    | None => Some s
    | Some entity =>
      x ← rq_ents s !! entity;
      if se_on_rq x then Some s
      else
        '(w, _) ← cow_list_remove malloc (ee_wait (rq_ee s)) (se_wait_index x);
        s ← upd (with_wait s w) entity (fun e => set_on_rq true (set_handle (rq_addr s) e));
        s ← insert_sched_entity s entity;
        Some (with_count s (u64 (ee_task_count (rq_ee s) + 1)))
    end.

(** [addr] is the address of the new [eevdf_t]; the allocations of it, of its
    root and of its list are taken to succeed, since the code does not check
    them. [nodes] and [ents] are what other processors have in memory. *)
Definition init_cpu_idle (addr : Z) (nodes : gmap Z rb_node) (blks : gmap Z cow_block) (ents : gmap Z sched_entity)
    (handle : gmap Z Z) (alloc : block) (ap_idle now : Z) : option rq :=
  l ← cow_list_create true true;
  let s := mkRq (mkEe (mkRm nodes 0) 0 0 (mkCs l blks) 0 0 0 0) addr ents handle in
  s ← new_entity s alloc ap_idle (NICE_TO_PRIO 20) now;
  let x := rq_ee s in
  let s := with_ee s (mkEe (ee_mem x) (ee_current x) (bk_addr alloc) (ee_wait x) (ee_task_count x) (ee_avg_load x)
                        (ee_avg_vruntime x) (ee_min_vruntime x)) in
  s ← insert_sched_entity (with_handle s ap_idle (bk_addr alloc)) (bk_addr alloc);
  Some (with_current s (bk_addr alloc)).
End Wait.
