(* ===== verification/EevdfSpec.v ===== *)
(** * The EEVDF run queue as a list sorted by deadline

    [rq_wf s es]: the tree of [s] holds the entities [es], in the order of
    their deadlines. Inserting puts an entity behind those with the same or an
    earlier deadline, erasing takes it out, and the first is picked. *)

From stdpp Require Import gmap sorting.
From S2P Require Import Prelude RbTree RbShape RbInsert RbErase RbFixup RbWalk RbProps Cow Eevdf.

Definition dl (s : rq) (e : Z) : Z := match rq_ents s !! e with Some x => se_deadline x | None => 0 end.

Lemma node_2_se_run e : node_2_se (run_node e) = e.
Proof. unfold node_2_se, run_node. lia. Qed.

Lemma run_node_2_se n : run_node (node_2_se n) = n.
Proof. unfold node_2_se, run_node. lia. Qed.

#[export] Instance run_node_inj : Inj eq eq run_node.
Proof. intros x y. unfold run_node. lia. Qed.

Lemma run_nodes_2_se (l : list Z) : run_node <$> (node_2_se <$> l) = l.
Proof. rewrite <- list_fmap_compose. rewrite <- (list_fmap_id l) at 2. apply list_fmap_ext. intros. apply run_node_2_se. Qed.

(** The tree holds the entities [es]; nothing is said of their order. *)
Record rq_pre (s : rq) (es : list Z) : Prop := mkQp {
  qp_tree : rb_tree (ee_mem (rq_ee s)) (run_node <$> es);
  qp_ents : forall e, e ∈ es -> is_Some (rq_ents s !! e);
}.

Definition by_deadline (s : rq) (es : list Z) : Prop := StronglySorted (fun a b => dl s a <= dl s b) es.

Definition rq_wf (s : rq) (es : list Z) : Prop := rq_pre s es /\ by_deadline s es.

Lemma qp_nodup s es : rq_pre s es -> NoDup es.
Proof. intros [HT _]. apply rb_tree_nodup in HT as [N _]. by eapply NoDup_fmap_1. Qed.

(** ** The search for the place of a new entity *)

Lemma link_get_hole H m C t : Rep H m C t -> link_get m (hole_link C) = Some (rt t).
Proof.
  intros HR. destruct C as [|[d c a s] C]; simpl.
  - by rewrite (rep_root _ _ _ _ HR).
  - destruct d; simpl; rewrite (ld_eq _ _ _ _ (Rep_up _ _ _ _ _ _ _ _ HR)); done.
Qed.

Section Walk.
Context (H : heap) (s : rq) (d : Z).

(** Deadline of the entity of a node. *)
Definition nl (n : Z) : Z := dl s (node_2_se n).

Lemma insert_walk_ok C t fuel :
  Rep H (ee_mem (rq_ee s)) C t -> (forall n, n ∈ inorder t -> is_Some (rq_ents s !! node_2_se n)) ->
  StronglySorted (fun a b => nl a <= nl b) (inorder t) ->
  (forall n, n ∈ beforeC C -> nl n <= d) -> (forall n, n ∈ afterC C -> d < nl n) ->
  (length (inorder t) < fuel)%nat ->
  exists C', insert_walk fuel s d (top C) (hole_link C) = Some (top C', hole_link C') /\
    plug C' E = plug C t /\ Rep H (ee_mem (rq_ee s)) C' E /\
    (forall n, n ∈ beforeC C' -> nl n <= d) /\ (forall n, n ∈ afterC C' -> d < nl n).
Proof.
  revert C fuel. induction t as [|c l IHl a r IHr]; intros C fuel HR He HS Hb Ha Hf; (destruct fuel as [|fuel]; [lia|]).
  - exists C. cbn [insert_walk]. rewrite (link_get_hole _ _ _ _ HR). done.
  - cbn [insert_walk]. rewrite (link_get_hole _ _ _ _ HR). cbn [mbind option_bind rt].
    rewrite good_eqb by (apply (Rep_good _ _ _ _ _ HR); simpl; set_solver).
    destruct (He a) as [x Hx]; [simpl; set_solver|]. rewrite Hx. cbn [mbind option_bind].
    simpl in HS. apply StronglySorted_app in HS as (Hlr & HSl & [HSr HFr]%StronglySorted_inv).
    assert (nl a = se_deadline x) as Hax by (unfold nl, dl; by rewrite Hx).
    simpl in Hf, He. rewrite length_app in Hf. simpl in Hf. destruct (Z.ltb_spec d (se_deadline x)) as [Hd|Hd].
    + change (Lleft a) with (hole_link (F L c a r :: C)). change a with (top (F L c a r :: C)) at 1.
      apply IHl; [by apply Rep_focus|set_solver|done|done| |lia].
      simpl. intros n [->|[Hn|Hn]%elem_of_app]%elem_of_cons; [lia| |by apply Ha].
      rewrite Forall_forall in HFr. specialize (HFr n Hn). lia.
    + change (Lright a) with (hole_link (F R c a l :: C)). change a with (top (F R c a l :: C)) at 1.
      apply IHr; [by apply Rep_focus|set_solver|done| |done|lia].
      simpl. intros n. rewrite !elem_of_app, list_elem_of_singleton. intros [Hn|[Hn| ->]]; [by apply Hb| |lia].
      specialize (Hlr n a Hn). assert (nl n <= nl a) by (apply Hlr; set_solver). lia.
Qed.
End Walk.

(** Only the memory of the tree differs. *)
Lemma with_mem_ents s m : rq_ents (with_mem s m) = rq_ents s.
Proof. done. Qed.

Lemma dl_ext s s' e : rq_ents s' !! e = rq_ents s !! e -> dl s' e = dl s e.
Proof. unfold dl. by intros ->. Qed.

Lemma by_deadline_ext s s' es : (forall e, e ∈ es -> dl s' e = dl s e) -> by_deadline s es -> by_deadline s' es.
Proof.
  unfold by_deadline. intros Hd. induction 1 as [|a l HS IH HF]; constructor.
  - apply IH. intros. apply Hd. set_solver.
  - rewrite Forall_forall in *. intros x Hx. rewrite !Hd by set_solver. by apply HF.
Qed.

Lemma insert_entity_ok s es e x :
  rq_wf s es -> (e ∉ es) -> rq_ents s !! e = Some x -> good (run_node e) ->
  is_Some (rb_nodes (ee_mem (rq_ee s)) !! run_node e) ->
  exists m' A B, insert_sched_entity s e = Some (with_mem s m') /\ es = A ++ B /\
    rq_wf (with_mem s m') (A ++ e :: B) /\
    (forall a, a ∈ A -> dl s a <= se_deadline x) /\ (forall b, b ∈ B -> se_deadline x < dl s b) /\
    same_outside (run_node <$> A ++ e :: B) (ee_mem (rq_ee s)) m'.
Proof.
  intros [[HT He] HS] Hne Hx Hg Hs. pose proof HT as (t & HR & HB & Hi). set (m := ee_mem (rq_ee s)) in *.
  destruct (insert_walk_ok (rb_nodes m) s (se_deadline x) [] t (rb_fuel m)) as (C & EC & Ep & HRC & Hb & Ha); try done.
  { rewrite Hi. intros n (a & -> & Hin)%list_elem_of_fmap. rewrite node_2_se_run. by apply He. }
  { rewrite Hi. unfold by_deadline in HS. clear - HS. induction HS as [|a l HS IH HF]; simpl; constructor; [done|].
    apply Forall_fmap. eapply Forall_impl; [done|]. intros b. simpl. unfold nl. by rewrite !node_2_se_run. }
  { simpl. set_solver. } { simpl. set_solver. }
  { unfold rb_fuel. pose proof (Rep_size _ _ _ _ HR). simpl in *. lia. }
  simpl in Ep. set (A := node_2_se <$> beforeC C). set (B := node_2_se <$> afterC C).
  assert (run_node <$> es = beforeC C ++ afterC C) as Hes by (rewrite <- Hi, <- Ep, inorder_plug; done).
  assert (es = A ++ B) as EAB.
  { apply (list_fmap_eq_inj run_node run_node_inj). unfold A, B. by rewrite fmap_app, !run_nodes_2_se. }
  destruct (rb_insert_spec m (beforeC C) (afterC C) (run_node e) (top C) (hole_link C)) as (m' & Em & HT' & Ho); try done.
  { exists C. split_and!; try done. rewrite Ep. done. }
  { rewrite <- Hes. intros (a & Hea & Hin)%list_elem_of_fmap. apply run_node_inj in Hea as ->. done. }
  exists m', A, B.
  assert (run_node <$> A ++ e :: B = beforeC C ++ run_node e :: afterC C) as El.
  { rewrite fmap_app, fmap_cons. unfold A, B. by rewrite !run_nodes_2_se. }
  assert (forall a, a ∈ A -> dl s a <= se_deadline x) as HA.
  { intros a (n & -> & Hn)%list_elem_of_fmap. by apply Hb. }
  assert (forall b, b ∈ B -> se_deadline x < dl s b) as HB'.
  { intros b (n & -> & Hn)%list_elem_of_fmap. by apply Ha. }
  split_and!; try done.
  - unfold insert_sched_entity. rewrite Hx. cbn [mbind option_bind]. fold m. cbn [top hole_link] in EC. rewrite EC. cbn [mbind option_bind].
    destruct (rb_link_node m (run_node e) (top C) (hole_link C)) as [m1|]; [|done]. cbn [mbind option_bind] in Em |- *.
    by rewrite Em.
  - split; [split|].
    + cbn [with_mem with_ee rq_ee ee_mem]. by rewrite El.
    + intros a. rewrite with_mem_ents, EAB in *. set_unfold. intros [?|[->|?]]; eauto.
    + apply (by_deadline_ext s); [done|]. rewrite EAB in HS. unfold by_deadline in *.
      assert (dl s e = se_deadline x) as Hde by (unfold dl; by rewrite Hx).
      apply StronglySorted_app in HS as (HAB & HSA & HSB). apply StronglySorted_app_2; [|done|].
      2: { constructor; [done|]. apply Forall_forall. intros b Hb'. specialize (HB' b Hb'). lia. }
      intros a b Ha' [->|Hb']%elem_of_cons; [specialize (HA a Ha'); lia|by apply HAB].
  - by rewrite El.
Qed.

Lemma erase_entity_ok s A e B :
  rq_pre s (A ++ e :: B) ->
  exists m', rb_erase (ee_mem (rq_ee s)) (run_node e) = Some m' /\ rq_pre (with_mem s m') (A ++ B) /\
    same_outside (run_node <$> A ++ B) (ee_mem (rq_ee s)) m'.
Proof.
  intros [HT He]. rewrite fmap_app, fmap_cons in HT. destruct (rb_erase_spec _ _ _ _ HT) as (m' & Em & HT' & Ho).
  rewrite <- fmap_app in HT', Ho. exists m'. split_and!; [done| |done]. split; [done|].
  intros a Ha. apply He. set_solver.
Qed.

(** ** Picking *)

Lemma pick_earliest_ok s es : rq_pre s es -> pick_earliest_entity s = Some (hd 0 es).
Proof.
  intros [HT _]. unfold pick_earliest_entity. rewrite (rb_first_spec _ _ HT). cbn [mbind option_bind].
  destruct es as [|e es]; simpl; [done|]. apply rb_tree_nodup in HT as [_ G]. simpl in G. goods.
  rewrite good_eqb by done. by rewrite node_2_se_run.
Qed.

Lemma eligible_ok s v : ee_avg_load (rq_ee s) = 0 -> vruntime_eligible s v = Some true.
Proof. unfold vruntime_eligible. by intros ->. Qed.

(** Which of the current entity and the first is picked. *)
Lemma pick_ok s es e :
  rq_pre s (e :: es) -> e <> 0 -> ee_avg_load (rq_ee s) = 0 ->
  (ee_current (rq_ee s) = 0 \/ is_Some (rq_ents s !! ee_current (rq_ee s))) ->
  exists b, rq_ents s !! e = Some b /\
    pick_eevdf s = Some (match rq_ents s !! ee_current (rq_ee s) with
                         | Some c => if negb (ee_current (rq_ee s) =? 0) && entity_before c b then ee_current (rq_ee s) else e
                         | None => e
                         end).
Proof.
  intros HP He0 Hload Hc. destruct (qp_ents _ _ HP e) as [b Hb]; [set_solver|]. exists b. split; [done|].
  unfold pick_eevdf. rewrite (pick_earliest_ok _ _ HP). cbn [mbind option_bind hd].
  apply Z.eqb_neq in He0. rewrite He0, Hb. cbn [mbind option_bind]. rewrite eligible_ok by done. cbn [mbind option_bind]. rewrite He0.
  destruct (Z.eqb_spec (ee_current (rq_ee s)) 0) as [E0|E0].
  - rewrite E0. simpl. by destruct (rq_ents s !! 0).
  - destruct Hc as [|[c Hc]]; [done|]. rewrite Hc, Hb. simpl. by destruct (entity_before c b).
Qed.

Lemma pick_empty s : rq_pre s [] -> pick_eevdf s = Some (ee_current (rq_ee s)).
Proof.
  intros HP. unfold pick_eevdf. rewrite (pick_earliest_ok _ _ HP). cbn [mbind option_bind hd].
  destruct HP as [(t & [Hr _ _ _ _ _] & _ & Hi) _]. simpl in Hi. assert (t = E) as ->.
  { destruct t as [|c l a r]; [done|]. simpl in Hi. by destruct (inorder l). }
  simpl in Hr. rewrite Hr. done.
Qed.
