(* ===== verification/EevdfInv.v ===== *)
(** * The invariant of the EEVDF run queue

    Every entity in memory has its node and a 32-bit inverse weight, the tree
    holds exactly the runnable entities by deadline, the current entity is one
    of them. The timer tick keeps it and never faults. *)

From stdpp Require Import gmap sorting.
From S2P Require Import Prelude RbTree RbShape RbInsert RbErase RbFixup RbWalk RbProps Cow Eevdf EevdfSpec.

(** ** Scaling never faults *)

Definition lw_ok (lw : load_weight) : Prop := 0 <= lw_inv lw < two32.

Lemma update_inv_ok lw : 0 <= lw_weight lw -> lw_ok lw -> lw_ok (__update_inv_weight lw).
Proof.
  intros Hw Hok. unfold __update_inv_weight. case_if; [done|]. unfold lw_ok, WMULT_CONST. simpl.
  repeat case_if; try lia. assert (0 <= scale_load_down (lw_weight lw)).
  { unfold scale_load_down. case_if; [|done]. rewrite MAX_max. lia. }
  split; [apply Z.div_pos; lia|]. apply Z.div_lt_upper_bound; nia.
Qed.

Lemma fls_bound x n : 0 <= x < 2 ^ n -> 0 <= n -> 0 <= fls x <= n.
Proof.
  intros Hx Hn. unfold fls. case_if; [lia|]. apply Z.eqb_neq in E.
  pose proof (Z.log2_nonneg x). assert (Z.log2 x < n) by (apply Z.log2_lt_pow2; lia). lia.
Qed.

Lemma calc_delta_total delta lw :
  0 <= lw_weight lw -> lw_ok lw ->
  exists d lw', __calc_delta delta NICE_0_LOAD lw = Some (d, lw') /\ 0 <= d < two64 /\ lw_weight lw' = lw_weight lw /\ lw_ok lw'.
Proof.
  intros Hw Hok. pose proof (update_inv_ok lw Hw Hok) as Hok'. unfold __calc_delta.
  assert (lw_weight (__update_inv_weight lw) = lw_weight lw) as Hww by (unfold __update_inv_weight; by case_if).
  set (lw' := __update_inv_weight lw) in *. change (scale_load_down NICE_0_LOAD) with 1024.
  change (reduce_fact 1024 WMULT_SHIFT) with (1024, 32). cbv beta iota zeta. unfold lw_ok in *.
  rewrite (u64_id (1024 * lw_inv lw')) by lia. unfold reduce_fact.
  set (hi := u32 (Z.shiftr (1024 * lw_inv lw') 32)).
  assert (0 <= hi < 2 ^ 10) as Hhi.
  { unfold hi. rewrite Z.shiftr_div_pow2 by lia. assert (0 <= 1024 * lw_inv lw' / 2 ^ 32 < 1024).
    { split; [apply Z.div_pos; lia|]. apply Z.div_lt_upper_bound; lia. }
    rewrite u32_id; lia. }
  pose proof (fls_bound hi 10 Hhi ltac:(lia)) as Hf.
  assert (forall a sh, 0 <= sh <= 32 -> exists d, mul_u64_u32_shr delta a sh = Some d /\ 0 <= d < two64) as Hmul.
  { intros a sh Hsh. unfold mul_u64_u32_shr. rewrite u32_id by lia. destruct (Z.ltb_spec sh 128); [|lia].
    eexists. split; [done|]. apply u64_bound. }
  case_if.
  - destruct (Hmul (u32 (Z.shiftr (1024 * lw_inv lw') (fls hi))) (32 - fls hi)) as (d & -> & Hd); [lia|].
    eexists _, _. split; [done|]. auto.
  - destruct (Hmul (u32 (1024 * lw_inv lw')) 32) as (d & -> & Hd); [lia|].
    eexists _, _. split; [done|]. auto.
Qed.

(** What every entity satisfies: its weights and its index are in the ranges
    of their types. *)
Definition ent_ok (x : sched_entity) : Prop :=
  0 <= lw_weight (se_load x) /\ lw_ok (se_load x) /\ 0 <= se_wait_index x.

(** [y] is [x] with other times and weights: the place in the queue, the
    thread and the flag that it is runnable are kept. *)
Definition keeps (x y : sched_entity) : Prop :=
  (ent_ok x -> ent_ok y) /\ se_on_rq y = se_on_rq x /\ se_thread y = se_thread x.

Lemma keeps_refl x : keeps x x.
Proof. by split_and!. Qed.
Lemma keeps_trans x y z : keeps x y -> keeps y z -> keeps x z.
Proof. intros (Hxy & ? & ?) (Hyz & ? & ?). split_and!; [auto|congruence..]. Qed.

Lemma delta_fair_total d x :
  ent_ok x -> exists v y, calc_delta_fair d x = Some (v, y) /\ keeps x y /\ se_deadline y = se_deadline x.
Proof.
  intros (Hw & Hi & Hx). unfold calc_delta_fair. case_if.
  - destruct (calc_delta_total d (se_load x) Hw Hi) as (v & lw & -> & _ & Hww & Hok). cbn [mbind option_bind].
    eexists _, _. split; [done|]. split; [|done]. split_and!; [|done..]. intros _. split_and!; simpl; [by rewrite Hww|done..].
  - exists d, x. split_and!; [done|apply keeps_refl|done].
Qed.

Lemma update_deadline_total x :
  ent_ok x -> exists b y, update_deadline x = Some (b, y) /\ keeps x y /\ (b = false -> se_deadline y = se_deadline x).
Proof.
  intros Hok. unfold update_deadline. case_if; [exists false, x; split_and!; [done|apply keeps_refl|done]|].
  set (x1 := if se_custom_slice x =? 0 then _ else _). assert (keeps x x1) as Hk by (unfold x1; by case_if; split_and!).
  destruct (delta_fair_total (se_slice x1) x1) as (v & y & -> & Hy & _); [by apply Hk|]. cbn [mbind option_bind].
  eexists _, _. split; [done|]. split; [|done]. eapply keeps_trans; [exact Hk|]. eapply keeps_trans; [exact Hy|]. by split_and!.
Qed.

Lemma yield_total x : ent_ok x -> exists y, yield_deadline x = Some (tt, y) /\ keeps x y.
Proof.
  intros Hok. unfold yield_deadline. destruct (delta_fair_total (se_slice x) x Hok) as (v & y & -> & Hy & _). cbn [mbind option_bind].
  eexists. split; [done|]. eapply keeps_trans; [exact Hy|]. by split_and!.
Qed.

Lemma vlag_total min x :
  ent_ok x -> exists y, update_vlag min x = Some (tt, y) /\ keeps x y /\ se_deadline y = se_deadline x.
Proof.
  intros Hok. unfold update_vlag.
  destruct (delta_fair_total (MAX (u64 (2 * se_slice x)) TICK_NSEC) x Hok) as (v & y & -> & Hy & Hd). cbn [mbind option_bind].
  eexists. split; [done|]. split; [|done]. eapply keeps_trans; [exact Hy|]. by split_and!.
Qed.

(** ** Steps that change one entity *)

(** [s'] is [s] but for the entity [e] and the averages. *)
Record near (s s' : rq) (e : Z) : Prop := mkNear {
  nr_mem : ee_mem (rq_ee s') = ee_mem (rq_ee s);
  nr_current : ee_current (rq_ee s') = ee_current (rq_ee s);
  nr_idle : ee_idle (rq_ee s') = ee_idle (rq_ee s);
  nr_wait : ee_wait (rq_ee s') = ee_wait (rq_ee s);
  nr_count : ee_task_count (rq_ee s') = ee_task_count (rq_ee s);
  nr_load : ee_avg_load (rq_ee s') = ee_avg_load (rq_ee s);
  nr_addr : rq_addr s' = rq_addr s;
  nr_handle : rq_handle s' = rq_handle s;
  nr_other : forall k, k <> e -> rq_ents s' !! k = rq_ents s !! k;
  nr_self : exists x y, rq_ents s !! e = Some x /\ rq_ents s' !! e = Some y /\ keeps x y;
}.

Lemma near_refl s e x : rq_ents s !! e = Some x -> near s s e.
Proof. intros Hx. split; try done. exists x, x. split_and!; [done..|apply keeps_refl]. Qed.

Lemma near_trans s1 s2 s3 e : near s1 s2 e -> near s2 s3 e -> near s1 s3 e.
Proof.
  intros [] []. split; try congruence.
  - intros k Hk. rewrite nr_other1, nr_other0 by done. done.
  - destruct nr_self0 as (x & y & Hx & Hy & Hk). destruct nr_self1 as (y' & z & Hy' & Hz & Hk'). simplify_eq.
    exists x, z. split_and!; [done..|]. by eapply keeps_trans.
Qed.

Lemma near_dl s s' e k : near s s' e -> k <> e -> dl s' k = dl s k.
Proof. intros Hn Hk. apply dl_ext. by apply (nr_other _ _ _ Hn). Qed.

Lemma upd_near s e f x :
  rq_ents s !! e = Some x -> keeps x (f x) ->
  exists s', upd s e f = Some s' /\ near s s' e /\ rq_ents s' !! e = Some (f x).
Proof.
  intros Hx Hk. unfold upd. rewrite Hx. eexists. split; [done|]. split; [|apply lookup_insert_eq].
  split; try done.
  - intros k Hne. by apply lookup_insert_ne.
  - exists x, (f x). split_and!; [done|apply lookup_insert_eq|done].
Qed.

Lemma updo_near {A} s e (f : sched_entity -> option (A * sched_entity)) x a y :
  rq_ents s !! e = Some x -> f x = Some (a, y) -> keeps x y ->
  exists s', updo s e f = Some (s', a) /\ near s s' e /\ rq_ents s' !! e = Some y.
Proof.
  intros Hx Hf Hk. unfold updo. rewrite Hx. cbn [mbind option_bind]. rewrite Hf. cbn [mbind option_bind].
  eexists. split; [done|]. split; [|apply lookup_insert_eq]. split; try done.
  - intros k Hne. by apply lookup_insert_ne.
  - exists x, y. split_and!; [done|apply lookup_insert_eq|done].
Qed.

Lemma min_update1_near s e n x :
  rq_ents s !! e = Some x -> (n = 0 \/ is_Some (rq_ents s !! node_2_se n)) ->
  exists s' y, __min_vruntime_update s e n = Some s' /\ near s s' e /\ rq_ents s' !! e = Some y /\ se_deadline y = se_deadline x.
Proof.
  intros Hx Hn. unfold __min_vruntime_update. case_if.
  { exists s, x. split_and!; [done|by eapply near_refl|done|done]. }
  destruct Hn as [->|[r Hr]]; [done|]. rewrite Hx, Hr. cbn [mbind option_bind]. case_if.
  - destruct (upd_near s e (set_min_vruntime (se_min_vruntime r)) x) as (s' & -> & Hs' & Hy); [done|by split_and!|].
    exists s', (set_min_vruntime (se_min_vruntime r) x). done.
  - exists s, x. split_and!; [done|by eapply near_refl|done|done].
Qed.

(** The run node's children, read from memory, are entities or NULL. *)
Definition kids_ok (s : rq) (e : Z) : Prop :=
  exists n, rb_nodes (ee_mem (rq_ee s)) !! run_node e = Some n /\
    (rb_left n = 0 \/ is_Some (rq_ents s !! node_2_se (rb_left n))) /\
    (rb_right n = 0 \/ is_Some (rq_ents s !! node_2_se (rb_right n))).

Lemma near_is_Some s s' e k : near s s' e -> is_Some (rq_ents s !! k) -> is_Some (rq_ents s' !! k).
Proof.
  intros Hn Hk. destruct (decide (k = e)) as [->|]; [|by rewrite (nr_other _ _ _ Hn)].
  destruct (nr_self _ _ _ Hn) as (x & y & _ & Hy & _). eauto.
Qed.

Lemma min_update_near s e x :
  rq_ents s !! e = Some x -> kids_ok s e ->
  exists s' b y, min_vruntime_update s e = Some (s', b) /\ near s s' e /\ rq_ents s' !! e = Some y /\ se_deadline y = se_deadline x.
Proof.
  intros Hx (n & Hn & Hl & Hr). unfold min_vruntime_update. rewrite Hx. cbn [mbind option_bind].
  destruct (upd_near s e (set_min_vruntime (se_vruntime x)) x) as (s1 & -> & N1 & Hx1); [done|by split_and!|].
  cbn [mbind option_bind]. rewrite (nr_mem _ _ _ N1), (ld_eq _ _ _ _ Hn). cbn [mbind option_bind].
  destruct (min_update1_near s1 e (rb_right n) _ Hx1) as (s2 & x2 & -> & N2 & Hx2 & Hd2).
  { destruct Hr; [by left|right]. by eapply near_is_Some. }
  cbn [mbind option_bind]. rewrite (nr_mem _ _ _ N2), (nr_mem _ _ _ N1), (ld_eq _ _ _ _ Hn). cbn [mbind option_bind].
  destruct (min_update1_near s2 e (rb_left n) _ Hx2) as (s3 & x3 & -> & N3 & Hx3 & Hd3).
  { destruct Hl; [by left|right]. eapply near_is_Some; [done|]. by eapply near_is_Some. }
  cbn [mbind option_bind]. rewrite Hx3. cbn [mbind option_bind]. eexists _, _, x3. split; [done|].
  split_and!; [|done|by rewrite Hd3, Hd2]. eapply near_trans; [done|]. by eapply near_trans.
Qed.

(** ** The invariant *)

Record rq_inv (s : rq) (es : list Z) : Prop := mkQi {
  qi_wf : rq_wf s es;
  qi_load : ee_avg_load (rq_ee s) = 0;
  qi_cur : ee_current (rq_ee s) = 0 \/ ee_current (rq_ee s) ∈ es;
  qi_ok : forall e x, rq_ents s !! e = Some x -> ent_ok x;
  qi_node : forall e, is_Some (rq_ents s !! e) ->
    e <> 0 /\ good (run_node e) /\ is_Some (rb_nodes (ee_mem (rq_ee s)) !! run_node e);
  qi_on : forall e x, rq_ents s !! e = Some x -> se_on_rq x = true <-> e ∈ es;
}.

(** Everything but the order, and but the run node of [e] being linked. *)
Record rq_loose (s : rq) (es : list Z) : Prop := mkQl {
  ql_pre : rq_pre s es;
  ql_load : ee_avg_load (rq_ee s) = 0;
  ql_ok : forall e x, rq_ents s !! e = Some x -> ent_ok x;
  ql_node : forall e, is_Some (rq_ents s !! e) ->
    e <> 0 /\ good (run_node e) /\ is_Some (rb_nodes (ee_mem (rq_ee s)) !! run_node e);
}.

Lemma qi_loose s es : rq_inv s es -> rq_loose s es.
Proof. intros [[] ? ? ? ? ?]. by split. Qed.

Lemma near_loose s s' e es : near s s' e -> rq_loose s es -> rq_loose s' es.
Proof.
  intros Hn [[HT He] Hload Hok Hnode]. pose proof Hn as [Hm Hc _ _ _ Hl _ _ Ho (x & y & Hx & Hy & Hk)].
  split; [split| | |].
  - by rewrite Hm.
  - intros k Hin. by eapply near_is_Some; [|apply He].
  - congruence.
  - intros k z Hz. destruct (decide (k = e)) as [->|Hne].
    + simplify_eq. by apply Hk, (Hok e).
    + rewrite Ho in Hz by done. by eapply Hok.
  - intros k Hz. rewrite Hm. apply Hnode. destruct (decide (k = e)) as [->|Hne]; [eauto|]. by rewrite Ho in Hz.
Qed.

Lemma loose_kids s A e B : rq_loose s (A ++ e :: B) -> kids_ok s e.
Proof.
  intros [[HT He] _ _ Hnode]. destruct (Hnode e) as (_ & _ & n & Hn); [apply He; set_solver|]. exists n. split; [done|].
  rewrite fmap_app, fmap_cons in HT. pose proof (rb_tree_children _ _ _ _ _ HT Hn) as [Hl Hr].
  assert (forall k, k ∈ (run_node <$> A) ++ (run_node <$> B) -> is_Some (rq_ents s !! node_2_se k)) as Hk.
  { intros k. rewrite <- fmap_app. intros (a & -> & Ha)%list_elem_of_fmap. rewrite node_2_se_run. apply He. set_solver. }
  split; [destruct Hl; eauto|destruct Hr; eauto].
Qed.

Lemma update_min_near s es e x :
  rq_loose s es -> (ee_current (rq_ee s) = 0 \/ is_Some (rq_ents s !! ee_current (rq_ee s))) -> rq_ents s !! e = Some x ->
  exists s', update_min_vruntime s = Some s' /\ near s s' e /\ rq_ents s' = rq_ents s.
Proof.
  intros [[HT He] _ _ _] Hc Hx. unfold update_min_vruntime.
  set (cur := ee_current (rq_ee s)) in *. set (root := rb_top (ee_mem (rq_ee s))).
  assert (exists v c, (if cur =? 0 then Some (ee_min_vruntime (rq_ee s), cur)
      else c ← rq_ents s !! cur; if se_on_rq c then Some (se_vruntime c, cur) else Some (ee_min_vruntime (rq_ee s), 0)) = Some (v, c))
    as (v & c & ->).
  { case_if; [eauto|]. destruct Hc as [Hc|[c Hc]]; [by rewrite Hc in E|]. rewrite Hc. simpl. case_if; eauto. }
  cbn [mbind option_bind]. set (se := if root =? 0 then 0 else node_2_se root).
  assert (exists w, (if se =? 0 then Some v
      else x ← rq_ents s !! se; if c =? 0 then Some (se_min_vruntime x) else Some (min_vruntime v (se_vruntime x))) = Some w) as (w & ->).
  { unfold se. destruct (root =? 0) eqn:Er; [simpl; eauto|]. case_if; [eauto|].
    assert (is_Some (rq_ents s !! node_2_se root)) as [y Hy].
    { destruct HT as (t & [Hr _ _ _ _ _] & _ & Hi). unfold root in *. change (rootC [] (rt t)) with (rt t) in Hr. rewrite Hr in *.
      destruct t as [|ct l a r]; [done|]. assert (a ∈ run_node <$> es) as (k & -> & Hk)%list_elem_of_fmap by (rewrite <- Hi; simpl; set_solver).
      simpl. rewrite node_2_se_run. by apply He. }
    rewrite Hy. simpl. case_if; eauto. }
  cbn [mbind option_bind].
  assert (forall s0 s1 u v, near s s0 e -> rq_ents s0 = rq_ents s -> __update_min_vruntime s0 v = (s1, u) -> near s s1 e /\ rq_ents s1 = rq_ents s) as Hup.
  { intros s0 s1 u v0 N0 E0. unfold __update_min_vruntime. case_if; intros [= <- _]; [|done].
    split; [|done]. destruct N0. by split. }
  assert (near s s e) as N0 by (by eapply near_refl).
  destruct (__update_min_vruntime s w) as [s1 u] eqn:E1. destruct (Hup s s1 u w N0 eq_refl E1) as [N1 He1].
  case_if.
  - destruct (__update_min_vruntime s1 w) as [s2 u2] eqn:E2. destruct (Hup s1 s2 u2 w N1 He1 E2) as [N2 He2].
    eexists. split; [done|]. split; [|done]. destruct N2. by split.
  - eexists. split; [done|]. split; [|done]. destruct N1. by split.
Qed.

Lemma requeue_ok s A e B :
  rq_loose s (A ++ e :: B) -> by_deadline s (A ++ B) ->
  exists s' m es', requeue s e = Some (with_mem s' m) /\ near s s' e /\ rq_loose (with_mem s' m) es' /\
    rq_wf (with_mem s' m) es' /\ (es' ≡ₚ A ++ e :: B).
Proof.
  intros HL HS. unfold requeue. destruct (qp_ents _ _ (ql_pre _ _ HL) e) as [x Hx]; [set_solver|].
  destruct (min_update_near s e x Hx (loose_kids _ _ _ _ HL)) as (s1 & b & y & -> & N1 & Hy & Hd). cbn [mbind option_bind].
  pose proof (near_loose _ _ _ _ N1 HL) as HL1.
  destruct (erase_entity_ok _ _ _ _ (ql_pre _ _ HL1)) as (m & -> & HP & Ho). cbn [mbind option_bind].
  pose proof (qp_nodup _ _ (ql_pre _ _ HL)) as N. apply NoDup_app in N as (NA & HAB & [HeB NB]%NoDup_cons).
  assert (e ∉ A ++ B) as HeAB by (intros [Hin|Hin]%elem_of_app; [apply (HAB _ Hin); set_solver|done]).
  destruct (ql_node _ _ HL1 e) as (He0 & Hg & Hn); [eauto|].
  destruct (insert_entity_ok (with_mem s1 m) (A ++ B) e y) as (m' & A' & B' & E' & Eab & HW & HA' & HB' & Ho'); try done.
  { split; [done|]. apply (by_deadline_ext s); [|done]. intros k Hk. change (dl (with_mem s1 m) k) with (dl s1 k).
    eapply near_dl; [done|]. intros ->. done. }
  { cbn [with_mem with_ee rq_ee ee_mem]. rewrite (Ho (run_node e)); [done|].
    intros (k & Hk & Hin)%list_elem_of_fmap. apply run_node_inj in Hk as <-. done. }
  exists s1, m', (A' ++ e :: B'). split_and!; try done.
  - split; [by destruct HW|apply (ql_load _ _ HL1)|apply (ql_ok _ _ HL1)|].
    intros k Hk. destruct (ql_node _ _ HL1 k Hk) as (H1 & H2 & H3). split_and!; [done..|].
    change (is_Some (rb_nodes m' !! run_node k)). destruct (decide (run_node k ∈ run_node <$> A' ++ e :: B')) as [Hin|Hout].
    + destruct HW as [[HT' _] _]. by apply (rb_tree_dom _ _ _ HT').
    + change (ee_mem (rq_ee (with_mem s1 m))) with m in Ho'. rewrite (Ho' _ Hout), (Ho (run_node k)); [done|].
      rewrite Eab. intros Hin. apply Hout. rewrite fmap_app in *. set_solver.
  - rewrite <- !Permutation_middle, <- Eab. done.
Qed.

(** ** The tick *)

Lemma near_on s s' e (es : list Z) :
  near s s' e -> (forall k x, rq_ents s !! k = Some x -> se_on_rq x = true <-> k ∈ es) ->
  forall k x, rq_ents s' !! k = Some x -> se_on_rq x = true <-> k ∈ es.
Proof.
  intros Hn Hon k x Hx. destruct (decide (k = e)) as [->|Hne].
  - destruct (nr_self _ _ _ Hn) as (y & z & Hy & Hz & _ & Hk & _). simplify_eq. rewrite Hk. by apply Hon.
  - rewrite (nr_other _ _ _ Hn) in Hx by done. by apply Hon.
Qed.

(** An entity changed, its deadline did not. *)
Lemma inv_near s s' e es : rq_inv s es -> near s s' e -> dl s' e = dl s e -> rq_inv s' es.
Proof.
  intros HI Hn Hd. pose proof (near_loose _ _ _ _ Hn (qi_loose _ _ HI)) as [HP Hload Hok Hnode].
  pose proof HI as [[_ HS] _ Hcur _ _ Hon]. split; try done.
  - split; [done|]. apply (by_deadline_ext s); [|done]. intros k _.
    destruct (decide (k = e)) as [->|]; [done|by eapply near_dl].
  - rewrite (nr_current _ _ _ Hn). done.
  - by eapply near_on, Hon.
Qed.

(** What a tick leaves of the rest. *)
Definition same_cw (s s' : rq) (e : Z) : Prop :=
  ee_current (rq_ee s') = ee_current (rq_ee s) /\ ee_wait (rq_ee s') = ee_wait (rq_ee s) /\ rq_handle s' = rq_handle s /\
  forall k, k <> e -> rq_ents s' !! k = rq_ents s !! k.

Lemma near_cw s s' e : near s s' e -> same_cw s s' e.
Proof. intros []. by split_and!. Qed.

(** An entity of the tree changed in any way and is queued again. *)
Lemma inv_requeue s s' e es :
  rq_inv s es -> near s s' e -> e ∈ es ->
  exists s2 es', requeue s' e = Some s2 /\ rq_inv s2 es' /\ (es' ≡ₚ es) /\ same_cw s s2 e.
Proof.
  intros HI Hn Hin. pose proof (near_loose _ _ _ _ Hn (qi_loose _ _ HI)) as HL.
  pose proof HI as [[HP HS] _ Hcur _ _ Hon]. pose proof (qp_nodup _ _ HP) as N.
  apply list_elem_of_split in Hin as (A & B & ->).
  apply NoDup_app in N as (NA & HAB & [HeB NB]%NoDup_cons).
  assert (e ∉ A ++ B) as HeAB by (intros [Hin|Hin]%elem_of_app; [apply (HAB _ Hin); set_solver|done]).
  destruct (requeue_ok s' A e B HL) as (s1 & m & es' & E' & N1 & HL' & HW' & Hp).
  { apply (by_deadline_ext s); [intros k Hk; eapply near_dl; [done|]; intros ->; done|].
    unfold by_deadline in *. apply StronglySorted_app in HS as (H1 & H2 & [H3 _]%StronglySorted_inv).
    apply StronglySorted_app_2; [|done..]. intros. apply H1; set_solver. }
  pose proof (near_trans _ _ _ _ Hn N1) as N2.
  exists (with_mem s1 m), es'. split_and!; [done| |done|exact (near_cw _ _ _ N2)].
  split; [done|apply (ql_load _ _ HL')| |apply (ql_ok _ _ HL')|apply (ql_node _ _ HL')|].
  - change (ee_current (rq_ee (with_mem s1 m))) with (ee_current (rq_ee s1)). rewrite (nr_current _ _ _ N2), Hp. done.
  - intros k x Hx. rewrite Hp. by eapply (near_on _ _ _ _ N2 Hon).
Qed.

Lemma curr_se_keeps now x : keeps x (snd (update_curr_se now x)) /\ se_deadline (snd (update_curr_se now x)) = se_deadline x.
Proof. unfold update_curr_se. case_if; simpl; [split; [apply keeps_refl|done]|]. split; [by split_and!|done]. Qed.

Lemma dl_eq s e x : rq_ents s !! e = Some x -> dl s e = se_deadline x.
Proof. unfold dl. by intros ->. Qed.

Lemma tick_body_ok s es now :
  rq_inv s es -> exists s' b es', update_current_body s now = Some (s', b) /\ rq_inv s' es' /\ (es' ≡ₚ es) /\
    same_cw s s' (ee_current (rq_ee s)).
Proof.
  intros HI. unfold update_current_body. set (e := ee_current (rq_ee s)).
  destruct (Z.eqb_spec e 0) as [He0|He0]; [by exists s, false, es|].
  destruct (qi_cur _ _ HI) as [|Hin]; [done|]. fold e in Hin.
  destruct (qp_ents _ _ (proj1 (qi_wf _ _ HI)) e Hin) as [x0 Hx0].
  destruct (curr_se_keeps now x0) as [K0 D0]. destruct (update_curr_se now x0) as [delta x1] eqn:E1. simpl in K0, D0.
  destruct (updo_near s e (fun c => Some (update_curr_se now c)) x0 delta x1) as (s1 & -> & N1 & Hx1); [done|by rewrite E1|done|].
  cbn [mbind option_bind]. rewrite Hx1. cbn [mbind option_bind].
  assert (ent_ok x0) as Ok0 by (by eapply (qi_ok _ _ HI)).
  assert (ent_ok x1) as Ok1 by (by apply K0).
  assert (forall s' es', rq_inv s' es' -> (es' ≡ₚ es) -> same_cw s s' e -> forall b : bool, exists (s2 : rq) (b2 : bool) (es2 : list Z),
    Some (s', b) = Some (s2, b2) /\ rq_inv s2 es2 /\ (es2 ≡ₚ es) /\ same_cw s s2 e) as Hfin by eauto 10.
  destruct (delta <=? 0).
  { destruct (se_is_yield x1).
    - destruct (yield_total x1 Ok1) as (y & Ey & Ky).
      destruct (updo_near s1 e yield_deadline x1 tt y) as (s2 & -> & N2 & Hx2); [done..|]. cbn [mbind option_bind].
      destruct (inv_requeue s s2 e es HI) as (s3 & es3 & -> & HI3 & Hp & Hc); [by eapply near_trans|done|]. cbn [mbind option_bind].
      by eapply Hfin.
    - cbn [mbind option_bind]. eapply Hfin; [eapply (inv_near s s1 e); [done..|]|done|exact (near_cw _ _ _ N1)].
      by rewrite (dl_eq _ _ _ Hx1), (dl_eq _ _ _ Hx0). }
  destruct (delta_fair_total delta x1 Ok1) as (v & y & Ev & Ky & Dy).
  destruct (updo_near s1 e (fun c => '(d, c) ← calc_delta_fair delta c; Some (tt, set_vruntime (u64 (se_vruntime c + d)) c)) x1 tt
    (set_vruntime (u64 (se_vruntime y + v)) y)) as (s2 & -> & N2 & Hx2); [done|by rewrite Ev| |].
  { eapply keeps_trans; [exact Ky|]. by split_and!. }
  cbn [mbind option_bind]. set (x2 := set_vruntime _ y) in *.
  assert (ent_ok x2) as Ok2 by (by apply Ky).
  destruct (vlag_total (ee_min_vruntime (rq_ee s2)) x2 Ok2) as (x3 & E3 & K3 & D3).
  destruct (updo_near s2 e (update_vlag (ee_min_vruntime (rq_ee s2))) x2 tt x3) as (s3 & -> & N3 & Hx3); [done..|].
  cbn [mbind option_bind]. assert (ent_ok x3) as Ok3 by (by apply K3).
  destruct (update_deadline_total x3 Ok3) as (resche & x4 & E4 & K4 & D4).
  destruct (updo_near s3 e update_deadline x3 resche x4) as (s4 & -> & N4 & Hx4); [done..|]. cbn [mbind option_bind].
  assert (near s s4 e) as N04 by (eapply near_trans; [exact N1|]; eapply near_trans; [exact N2|]; by eapply near_trans).
  pose proof (near_loose _ _ _ _ N04 (qi_loose _ _ HI)) as HL4.
  destruct (update_min_near s4 es e x4 HL4) as (s5 & -> & N5 & He5); [|done|].
  { right. rewrite (nr_current _ _ _ N04). fold e. eauto. }
  cbn [mbind option_bind]. assert (rq_ents s5 !! e = Some x4) as Hx5 by (by rewrite He5).
  destruct (upd_near s5 e (set_min_vruntime (ee_min_vruntime (rq_ee s5))) x4) as (s6 & -> & N6 & Hx6); [done|by split_and!|].
  cbn [mbind option_bind]. rewrite Hx6. cbn [mbind option_bind].
  assert (near s s6 e) as N06 by (eapply near_trans; [exact N04|]; by eapply near_trans).
  set (x6 := set_min_vruntime _ x4) in *. assert (ent_ok x6) as Ok6 by (by apply K4).
  change (se_is_yield x6) with (se_is_yield x4). destruct (se_is_yield x4).
  { destruct (yield_total x6 Ok6) as (z & Ez & Kz).
    destruct (updo_near s6 e yield_deadline x6 tt z) as (s7 & -> & N7 & Hx7); [done..|]. cbn [mbind option_bind].
    rewrite Hx7. cbn [mbind option_bind orb].
    destruct (inv_requeue s s7 e es HI) as (s8 & es8 & -> & HI8 & Hp & Hc); [by eapply near_trans|done|]. cbn [mbind option_bind].
    by eapply Hfin. }
  cbn [mbind option_bind]. rewrite Hx6. cbn [mbind option_bind]. destruct (resche || se_is_idle x6) eqn:Er.
  - destruct (inv_requeue s s6 e es HI N06 Hin) as (s8 & es8 & -> & HI8 & Hp & Hc). cbn [mbind option_bind]. by eapply Hfin.
  - cbn [mbind option_bind]. apply orb_false_iff in Er as [-> _].
    eapply Hfin; [eapply (inv_near s s6 e); [done..|]|done|exact (near_cw _ _ _ N06)].
    rewrite (dl_eq _ _ _ Hx6), (dl_eq _ _ _ Hx0). change (se_deadline x6) with (se_deadline x4).
    rewrite D4, D3 by done. change (se_deadline x2) with (se_deadline y). by rewrite Dy, D0.
Qed.
