(* ===== verification/EevdfOps.v ===== *)
(** * EEVDF: entities leave the run queue, wait and come back

    Removal, waiting (composed with the copy-on-write list of waiting
    entities), waking and adding keep the invariant of the run queue. *)

From stdpp Require Import gmap sorting.
From S2P Require Import Prelude RbTree RbShape RbInsert RbErase RbFixup RbWalk RbProps Cow CowSpec CowProps Eevdf EevdfSpec EevdfInv.

Lemma with_current_wf s es b : rq_wf s es -> rq_wf (with_current s b) es.
Proof. intros [[] ?]. by split. Qed.

Lemma with_current_inv s es b : rq_inv s es -> b = 0 \/ b ∈ es -> rq_inv (with_current s b) es.
Proof. intros [[[] ?] ? ? ? ? ?] Hb. by split. Qed.

Lemma cur_present s es :
  rq_inv s es -> ee_current (rq_ee s) = 0 \/ is_Some (rq_ents s !! ee_current (rq_ee s)).
Proof. intros HI. destruct (qi_cur _ _ HI) as [|Hc]; [by left|right]. by apply (qp_ents _ _ (proj1 (qi_wf _ _ HI))). Qed.

Lemma member_nonzero s es e : rq_inv s es -> e ∈ es -> e <> 0.
Proof. intros HI He. by apply (qi_node _ _ HI e), (qp_ents _ _ (proj1 (qi_wf _ _ HI))). Qed.

Lemma pick_member s es : rq_inv s es -> exists b, pick_eevdf s = Some b /\ (b = 0 \/ b ∈ es).
Proof.
  intros HI. destruct es as [|e es].
  - rewrite (pick_empty s) by apply (qi_wf _ _ HI). eexists. split; [done|]. apply (qi_cur _ _ HI).
  - destruct (pick_ok s es e) as (b & Hb & ->); [apply (qi_wf _ _ HI)|eapply member_nonzero; [done|set_solver]|apply (qi_load _ _ HI)|by eapply cur_present|].
    eexists. split; [done|]. pose proof (qi_cur _ _ HI) as Hc.
    destruct (rq_ents s !! ee_current (rq_ee s)) as [c|]; [|set_solver].
    destruct (negb (ee_current (rq_ee s) =? 0) && entity_before c b); [done|set_solver].
Qed.

(** ** Taking an entity out *)

(** The entity is out of the tree, marked, and no longer the current one. *)
Lemma unlinked_inv s m A e B x :
  rq_inv s (A ++ e :: B) -> rq_ents s !! e = Some x -> rq_pre (with_mem s m) (A ++ B) ->
  same_outside (run_node <$> A ++ B) (ee_mem (rq_ee s)) m ->
  let s1 := with_ents (with_mem s m) (<[e := set_on_rq false x]> (rq_ents s)) in
  rq_inv (if ee_current (rq_ee s1) =? e then with_current s1 0 else s1) (A ++ B).
Proof.
  intros HI Hx [HT He] Ho s1. pose proof HI as [[HP HS] Hload Hcur Hok Hnode Hon].
  pose proof (qp_nodup _ _ HP) as N. apply NoDup_app in N as (NA & HAB & [HeB NB]%NoDup_cons).
  assert (e ∉ A ++ B) as HeAB by (intros [Hin|Hin]%elem_of_app; [apply (HAB _ Hin); set_solver|done]).
  assert (forall k, dl s1 k = dl s k) as Hdl.
  { intros k. unfold dl, s1. simpl. destruct (decide (k = e)) as [->|]; [by rewrite lookup_insert_eq, Hx|by rewrite lookup_insert_ne]. }
  assert (rq_wf s1 (A ++ B)) as HW.
  { split; [split; [done|]|].
    - intros k Hk. simpl. rewrite lookup_insert_ne by congruence. by apply He.
    - apply (by_deadline_ext s); [done|]. unfold by_deadline in *.
      apply StronglySorted_app in HS as (H1 & H2 & [H3 _]%StronglySorted_inv).
      apply StronglySorted_app_2; [|done..]. intros. apply H1; set_solver. }
  assert (forall k y, rq_ents s1 !! k = Some y -> ent_ok y) as Hok1.
  { intros k y. simpl. destruct (decide (k = e)) as [->|]; [rewrite lookup_insert_eq; intros [= <-]; by apply (Hok e x)|].
    rewrite lookup_insert_ne by done. apply Hok. }
  assert (forall k, is_Some (rq_ents s1 !! k) -> k <> 0 /\ good (run_node k) /\ is_Some (rb_nodes m !! run_node k)) as Hnode1.
  { intros k Hk. assert (is_Some (rq_ents s !! k)) as Hk'.
    { simpl in Hk. destruct (decide (k = e)) as [->|]; [eauto|]. by rewrite lookup_insert_ne in Hk. }
    destruct (Hnode k Hk') as (? & ? & Hn). split_and!; [done..|].
    destruct (decide (run_node k ∈ run_node <$> A ++ B)) as [Hin|Hout]; [by apply (rb_tree_dom _ _ _ HT)|].
    by rewrite (Ho _ Hout). }
  assert (forall k y, rq_ents s1 !! k = Some y -> se_on_rq y = true <-> k ∈ A ++ B) as Hon1.
  { intros k y. simpl. destruct (decide (k = e)) as [->|Hke].
    - rewrite lookup_insert_eq. intros [= <-]. simpl. split; [done|]. intros. done.
    - rewrite lookup_insert_ne by done. intros Hy. rewrite (Hon k y Hy). set_solver. }
  assert (ee_current (rq_ee s1) = 0 \/ ee_current (rq_ee s1) = e \/ ee_current (rq_ee s1) ∈ A ++ B) as Hc1.
  { change (ee_current (rq_ee s1)) with (ee_current (rq_ee s)). set_solver. }
  destruct (Z.eqb_spec (ee_current (rq_ee s1)) e) as [Ec|Ec].
  - split; try done; [by apply with_current_wf|by left].
  - split; try done. naive_solver.
Qed.

(** What removal leaves of the rest. *)
Definition leaves_rest (s s' : rq) (e : Z) : Prop :=
  ee_wait (rq_ee s') = ee_wait (rq_ee s) /\ rq_handle s' = rq_handle s /\ rq_addr s' = rq_addr s /\
  ee_task_count (rq_ee s') = ee_task_count (rq_ee s) /\
  forall k, k <> e -> rq_ents s' !! k = rq_ents s !! k.

Lemma leaves_rest_near s s' e : near s s' e -> leaves_rest s s' e.
Proof. intros []. by repeat split. Qed.

Lemma leaves_rest_trans s1 s2 s3 e : leaves_rest s1 s2 e -> leaves_rest s2 s3 e -> leaves_rest s1 s3 e.
Proof. intros (? & ? & ? & ? & Hk1) (? & ? & ? & ? & Hk2). split_and!; try congruence. intros. rewrite Hk2, Hk1 by done. done. Qed.

Lemma remove_entity_ok s A e B x :
  rq_inv s (A ++ e :: B) -> rq_ents s !! e = Some x ->
  exists s' y, remove_sched_entity s e = Some s' /\ rq_inv s' (A ++ B) /\ leaves_rest s s' e /\
    rq_ents s' !! e = Some y /\ se_on_rq y = false /\ se_deadline y = se_deadline x /\ se_thread y = se_thread x.
Proof.
  intros HI Hx. destruct (loose_kids _ _ _ _ (qi_loose _ _ HI)) as (n & Hn & Hl & Hr).
  pose proof (qp_nodup _ _ (proj1 (qi_wf _ _ HI))) as N. apply NoDup_app in N as (NA & HAB & [HeB NB]%NoDup_cons).
  assert (e ∉ A ++ B) as HeAB by (intros [Hin|Hin]%elem_of_app; [apply (HAB _ Hin); set_solver|done]).
  unfold remove_sched_entity. destruct (erase_entity_ok _ _ _ _ (proj1 (qi_wf _ _ HI))) as (m & -> & HP & Ho). cbn [mbind option_bind].
  unfold upd at 1. rewrite with_mem_ents, Hx. cbn [mbind option_bind].
  pose proof (unlinked_inv s m A e B x HI Hx HP Ho) as HI2. cbv zeta in HI2.
  set (s1 := with_ents (with_mem s m) _) in *. set (s2 := if ee_current (rq_ee s1) =? e then with_current s1 0 else s1) in *.
  assert (rq_ents s2 = rq_ents s1 /\ ee_mem (rq_ee s2) = m /\ ee_wait (rq_ee s2) = ee_wait (rq_ee s) /\ rq_handle s2 = rq_handle s /\
          rq_addr s2 = rq_addr s /\ ee_task_count (rq_ee s2) = ee_task_count (rq_ee s)) as (Hents2 & Hm2 & Hw2 & Hh2 & Ha2 & Hc2).
  { unfold s2. by case_if. }
  destruct (pick_member _ _ HI2) as (b & -> & Hb). cbn [mbind option_bind].
  pose proof (with_current_inv _ _ _ HI2 Hb) as HI3. set (s3 := with_current s2 b) in *.
  assert (rq_ents s3 !! e = Some (set_on_rq false x)) as Hx3.
  { change (rq_ents s3) with (rq_ents s2). rewrite Hents2. simpl. apply lookup_insert_eq. }
  assert (forall k, is_Some (rq_ents s !! k) -> is_Some (rq_ents s3 !! k)) as Hsome.
  { intros k Hk. change (rq_ents s3) with (rq_ents s2). rewrite Hents2. simpl. destruct (decide (k = e)) as [->|]; [rewrite lookup_insert_eq; eauto|].
    by rewrite lookup_insert_ne. }
  assert (kids_ok s3 e) as Hkids.
  { exists n. change (ee_mem (rq_ee s3)) with (ee_mem (rq_ee s2)). rewrite Hm2. split_and!; [|naive_solver..].
    rewrite (Ho (run_node e)); [done|]. intros (k & Hk & Hin)%list_elem_of_fmap. apply run_node_inj in Hk as <-. done. }
  destruct (min_update_near s3 e _ Hx3 Hkids) as (s4 & bb & y & -> & N4 & Hy & Hd). cbn [mbind option_bind].
  assert (rq_inv s4 (A ++ B)) as HI4.
  { apply (inv_near s3 s4 e); [done..|]. by rewrite (dl_eq _ _ _ Hy), (dl_eq _ _ _ Hx3). }
  destruct (update_min_near s4 (A ++ B) e y (qi_loose _ _ HI4)) as (s5 & -> & N5 & He5); [by eapply cur_present|done|].
  exists s5, y. assert (near s3 s5 e) as N35 by (by eapply near_trans).
  assert (rq_ents s5 !! e = Some y) as Hy5 by (by rewrite He5).
  destruct (nr_self _ _ _ N4) as (x3 & y' & Hx3' & Hy' & _ & Hon & Hth). rewrite Hx3 in Hx3'. rewrite Hy in Hy'. simplify_eq.
  split_and!; try done.
  - apply (inv_near s4 s5 e); [done..|]. by rewrite (dl_eq _ _ _ Hy5), (dl_eq _ _ _ Hy).
  - eapply leaves_rest_trans; [|by apply leaves_rest_near].
    change (leaves_rest s s3 e) with (leaves_rest s (with_current s2 b) e). repeat split; try done.
    intros k Hk. change (rq_ents s2 !! k = rq_ents s !! k). rewrite Hents2. simpl. by apply lookup_insert_ne.
Qed.

Lemma with_count_inv s es n : rq_inv s es -> rq_inv (with_count s n) es.
Proof. intros [[[] ?] ? ? ? ? ?]. by split. Qed.

Lemma with_wait_inv s es w : rq_inv s es -> rq_inv (with_wait s w) es.
Proof. intros [[[] ?] ? ? ? ? ?]. by split. Qed.

Lemma drop_count_inv s es : rq_inv s es -> rq_inv (drop_count s) es.
Proof. intros HI. unfold drop_count. case_if; [by apply with_count_inv|done]. Qed.

Lemma drop_count_same s :
  ee_wait (rq_ee (drop_count s)) = ee_wait (rq_ee s) /\ rq_handle (drop_count s) = rq_handle s /\
  rq_ents (drop_count s) = rq_ents s /\ rq_addr (drop_count s) = rq_addr s.
Proof. unfold drop_count. by case_if. Qed.

(** ** Putting an entity in *)

Lemma insert_inv s es e x :
  rq_inv s es -> rq_ents s !! e = Some x -> (e ∉ es) ->
  forall y, keeps (set_on_rq true x) y ->
  exists s' A B, insert_sched_entity (with_ents s (<[e := y]> (rq_ents s))) e = Some s' /\ es = A ++ B /\
    rq_inv s' (A ++ e :: B) /\
    ee_wait (rq_ee s') = ee_wait (rq_ee s) /\ rq_handle s' = rq_handle s /\ rq_addr s' = rq_addr s /\
    ee_task_count (rq_ee s') = ee_task_count (rq_ee s) /\ rq_ents s' = <[e := y]> (rq_ents s).
Proof.
  intros HI Hx Hne y (Kok & Kon & _). set (s1 := with_ents s _). pose proof HI as [[[HT He] HS] Hload Hcur Hok Hnode Hon].
  destruct (Hnode e) as (He0 & Hg & Hn); [eauto|].
  assert (rq_wf s1 es) as HW1.
  { split; [split; [done|]|].
    - intros k Hk. simpl. rewrite lookup_insert_ne by congruence. by apply He.
    - apply (by_deadline_ext s); [|done]. intros k Hk. apply dl_ext. simpl. apply lookup_insert_ne. congruence. }
  destruct (insert_entity_ok s1 es e y) as (m' & A & B & E' & Eab & HW & _ & _ & Ho); try done; [apply lookup_insert_eq|].
  exists (with_mem s1 m'), A, B. split_and!; try done. split; try done.
  - change (ee_current (rq_ee (with_mem s1 m'))) with (ee_current (rq_ee s)). rewrite Eab in Hcur. set_solver.
  - intros k z. simpl. destruct (decide (k = e)) as [->|]; [rewrite lookup_insert_eq; intros [= <-]; by apply Kok, (Hok e x)|].
    rewrite lookup_insert_ne by done. apply Hok.
  - intros k Hk. assert (is_Some (rq_ents s !! k)) as Hk'.
    { simpl in Hk. destruct (decide (k = e)) as [->|]; [eauto|]. by rewrite lookup_insert_ne in Hk. }
    destruct (Hnode k Hk') as (? & ? & Hnk). split_and!; [done..|]. change (is_Some (rb_nodes m' !! run_node k)).
    destruct (decide (run_node k ∈ run_node <$> A ++ e :: B)) as [Hin|Hout]; [by apply (rb_tree_dom _ _ _ (qp_tree _ _ (proj1 HW)))|].
    by rewrite (Ho _ Hout).
  - intros k z. simpl. destruct (decide (k = e)) as [->|Hke].
    + rewrite lookup_insert_eq. intros [= <-]. rewrite Kon. simpl. set_solver.
    + rewrite lookup_insert_ne by done. intros Hz. rewrite (Hon k z Hz), Eab. set_solver.
Qed.

Section Wait.
Context (malloc : gmap Z cow_block -> Z) (realloc : list Z -> Z -> option (list Z)).
Context {HA : BlockAllocator malloc} {HR : Reallocator realloc}.

Lemma wait_ok s A e B W t cpu :
  rq_inv s (A ++ e :: B) -> rq_handle s !! t = Some e -> t <> 0 -> cpu <> 0 ->
  cow_rep (ee_wait (rq_ee s)) W -> blocks_capacity (cs_list (ee_wait (rq_ee s))) < 2 ^ 59 -> zlen W < 2 ^ 62 - 1 ->
  exists s' y, wait_eevdf_entity malloc realloc s t cpu = Some s' /\ rq_inv s' (A ++ B) /\
    cow_rep (ee_wait (rq_ee s')) (W ++ [e]) /\ rq_handle s' = rq_handle s /\
    rq_ents s' !! e = Some y /\ se_on_rq y = false /\ se_wait_index y = zlen W /\
    dl s' e = dl s e /\ (forall k, k <> e -> rq_ents s' !! k = rq_ents s !! k).
Proof.
  intros HI Hh Ht0 Hc0 HW Hcap Hlen. destruct (qp_ents _ _ (proj1 (qi_wf _ _ HI)) e) as [x Hx]; [set_solver|].
  unfold wait_eevdf_entity. apply Z.eqb_neq in Ht0 as ->. apply Z.eqb_neq in Hc0 as ->. cbn [orb]. rewrite Hh, Hx. cbn [mbind option_bind].
  assert (se_on_rq x = true) as -> by (apply (qi_on _ _ HI e x Hx); set_solver). cbn [negb].
  destruct (remove_entity_ok s A e B x HI Hx) as (s1 & y & -> & HI1 & (Hw & Hh1 & _ & _ & Ho) & Hy & Hon & Hd & Hth). cbn [mbind option_bind].
  rewrite Hw. destruct (add_spec malloc realloc _ W e HW Hcap Hlen) as (w & -> & HW'). cbn [mbind option_bind].
  pose proof (with_wait_inv _ _ w HI1) as HI2.
  destruct (upd_near (with_wait s1 w) e (set_wait_index (zlen W)) y) as (s2 & -> & N2 & Hy2); [done| |].
  { split_and!; [|done..]. intros (? & ? & _). split_and!; [done..|]. simpl. apply zlen_nonneg. } cbn [mbind option_bind].
  destruct (drop_count_same s2) as (Dw & Dh & De & _). exists (drop_count s2), (set_wait_index (zlen W) y).
  assert (dl (with_wait s1 w) e = dl s e) as Hdl by (rewrite (dl_eq _ e y), (dl_eq _ _ _ Hx); done).
  split_and!; try done; rewrite ?Dw, ?Dh, ?De.
  - apply drop_count_inv. apply (inv_near _ _ e _ HI2 N2). by rewrite (dl_eq _ _ _ Hy2), (dl_eq (with_wait s1 w) e y).
  - by rewrite (nr_wait _ _ _ N2).
  - by rewrite (nr_handle _ _ _ N2).
  - done.
  - unfold dl. rewrite De, Hy2, Hx. done.
  - intros k Hk. rewrite (nr_other _ _ _ N2) by done. by apply Ho.
Qed.

Lemma wake_ok s es e x W t cpu :
  rq_inv s es -> rq_handle s !! t = Some e -> t <> 0 -> cpu <> 0 -> rq_ents s !! e = Some x -> (e ∉ es) ->
  cow_rep (ee_wait (rq_ee s)) W ->
  exists s' A B y, futex_eevdf_entity malloc s t cpu = Some s' /\ es = A ++ B /\ rq_inv s' (A ++ e :: B) /\
    cow_rep (ee_wait (rq_ee s')) (delete (Z.to_nat (se_wait_index x)) W) /\ rq_handle s' = rq_handle s /\
    rq_ents s' !! e = Some y /\ se_on_rq y = true /\ se_deadline y = se_deadline x /\ (forall k, k <> e -> rq_ents s' !! k = rq_ents s !! k).
Proof.
  intros HI Hh Ht0 Hc0 Hx Hne HW. destruct (qi_ok _ _ HI e x Hx) as (_ & _ & Hi). unfold futex_eevdf_entity. apply Z.eqb_neq in Ht0 as ->. apply Z.eqb_neq in Hc0 as ->.
  cbn [orb]. rewrite Hh, Hx. cbn [mbind option_bind].
  assert (se_on_rq x = false) as -> by (apply not_true_is_false; intros Hon; by apply Hne, (qi_on _ _ HI e x Hx)).
  destruct (remove_spec malloc _ W (se_wait_index x) HW Hi) as (w & -> & HW'). cbn [mbind option_bind].
  unfold upd. change (rq_ents (with_wait s w)) with (rq_ents s). rewrite Hx. cbn [mbind option_bind].
  pose proof (with_wait_inv _ _ w HI) as HI1. set (y := set_on_rq true (set_handle (rq_addr s) x)).
  destruct (insert_inv (with_wait s w) es e x HI1 Hx Hne y) as (s' & A & B & E' & Eab & HI' & Hw & Hh' & _ & _ & He'); [by split_and!|].
  change (rq_ents (with_wait s w)) with (rq_ents s) in E'. rewrite E'. cbn [mbind option_bind].
  eexists _, A, B, y. split; [done|]. split_and!; [done|by apply with_count_inv|cbn [with_count with_ee rq_ee ee_wait]; by rewrite Hw|done| |done|done|].
  - change (rq_ents s' !! e = Some y). rewrite He'. apply lookup_insert_eq.
  - intros k Hk. change (rq_ents s' !! k = rq_ents s !! k). rewrite He'. by apply lookup_insert_ne.
Qed.
End Wait.

(** ** New entities, and entities that end *)

Lemma rb_tree_frame m l h' : rb_tree m l -> (forall k, k ∈ l -> h' !! k = rb_nodes m !! k) -> rb_tree (mkRm h' (rb_top m)) l.
Proof.
  intros (t & [Hr _ HS N G _] & HB & <-) Hk. exists t. split_and!; [|done..]. split; try done.
  simpl. by eapply shape_frame.
Qed.

Definition valid_prio (prio : Z) : Prop := 100 <= prio <= 140.

Lemma set_load_weight_ok x :
  valid_prio (se_prio x) -> exists lw, set_load_weight x = Some (set_load lw x) /\ 0 <= lw_weight lw /\ lw_ok lw.
Proof.
  intros Hp. unfold set_load_weight, valid_prio, NICE_TO_PRIO, DEFAULT_PRIO, MAX_RT_PRIO, WMULT_IDLEPRIO in *.
  destruct (Z.eqb_spec (se_prio x) (20 + 120)); [by eexists; split; [done|]|].
  rewrite u64_id, i32_id by lia.
  assert (Forall (fun w => 0 <= scale_load w) sched_prio_to_weight) as HW by (repeat constructor; done).
  assert (Forall (fun i => 0 <= i < two32) sched_prio_to_wmult) as HI by (repeat constructor; done).
  destruct (zget_ok sched_prio_to_weight (se_prio x - 100)) as [w Ew]; [change (zlen sched_prio_to_weight) with 40; lia|].
  destruct (zget_ok sched_prio_to_wmult (se_prio x - 100)) as [i Ei]; [change (zlen sched_prio_to_wmult) with 40; lia|].
  rewrite Ew, Ei. cbn [mbind option_bind]. eexists. split; [done|].
  split; [by apply (Forall_zget _ _ _ _ HW Ew)|by apply (Forall_zget _ _ _ _ HI Ei)].
Qed.

(** The fields a new entity starts with. *)
Lemma new_entity_ok s alloc t prio now :
  bk_addr alloc <> 0 -> 0 <= se_wait_index (bk_junk alloc) -> valid_prio prio ->
  exists x, new_entity s alloc t prio now =
      Some (with_ents (with_mem s (mkRm (<[run_node (bk_addr alloc) := bk_node alloc]> (rb_nodes (ee_mem (rq_ee s)))) (rb_top (ee_mem (rq_ee s)))))
              (<[bk_addr alloc := x]> (rq_ents s))) /\
    ent_ok x /\ se_on_rq x = true /\ se_thread x = t /\
    (exists b y z, update_deadline y = Some (b, z) /\ x = set_thread t z /\ se_vruntime y = ee_min_vruntime (rq_ee s) /\ se_deadline y = 0).
Proof.
  intros Ha0 Hj Hp. unfold new_entity. apply Z.eqb_neq in Ha0 as ->. set (x0 := mkSe _ _ _ _ _ _ _ _ _ _ _ _ _ _ _ _).
  destruct (set_load_weight_ok x0 Hp) as (lw & -> & Hw & Hi). cbn [mbind option_bind].
  assert (ent_ok (set_load lw x0)) as Hok by (by split_and!).
  destruct (update_deadline_total _ Hok) as (b & z & Ez & (Kok & Kon & _) & _). rewrite Ez. cbn [mbind option_bind].
  exists (set_thread t z). split; [done|]. split_and!; [by apply Kok| |done|eauto 10].
  change (se_on_rq z = true). by rewrite Kon.
Qed.

(** A block for an entity: new, aligned, not NULL. *)
Definition fresh_block (s : rq) (alloc : block) : Prop :=
  rq_ents s !! bk_addr alloc = None /\ bk_addr alloc <> 0 /\ good (run_node (bk_addr alloc)) /\
  0 <= se_wait_index (bk_junk alloc).

Lemma fresh_inv s es e n x :
  rq_inv s es -> rq_ents s !! e = None -> e <> 0 -> good (run_node e) -> ent_ok x -> se_on_rq x = false ->
  rq_inv (with_ents (with_mem s (mkRm (<[run_node e := n]> (rb_nodes (ee_mem (rq_ee s)))) (rb_top (ee_mem (rq_ee s)))))
            (<[e := x]> (rq_ents s))) es /\ (e ∉ es).
Proof.
  intros HI Hfr He0 Hg Hok Hoff. pose proof HI as [[[HT He] HS] Hload Hcur Hoks Hnode Hon].
  assert (e ∉ es) as Hne by (intros Hin; destruct (He e Hin); congruence). split; [|done].
  set (s1 := with_ents _ _). split; try done.
  - split; [split|].
    + apply rb_tree_frame; [done|]. intros k (a & -> & Ha)%list_elem_of_fmap. apply lookup_insert_ne.
      intros Heq%run_node_inj. congruence.
    + intros k Hk. simpl. rewrite lookup_insert_ne by congruence. by apply He.
    + apply (by_deadline_ext s); [|done]. intros k Hk. apply dl_ext. simpl. apply lookup_insert_ne. congruence.
  - intros k z. simpl. destruct (decide (k = e)) as [->|]; [rewrite lookup_insert_eq; by intros [= <-]|].
    rewrite lookup_insert_ne by done. apply Hoks.
  - intros k. simpl. destruct (decide (k = e)) as [->|]; [rewrite !lookup_insert_eq; eauto|].
    rewrite lookup_insert_ne by done. rewrite lookup_insert_ne by (intros Heq%run_node_inj; congruence). apply Hnode.
  - intros k z. simpl. destruct (decide (k = e)) as [->|]; [rewrite lookup_insert_eq; intros [= <-]; rewrite Hoff; done|].
    rewrite lookup_insert_ne by done. apply Hon.
Qed.

Lemma add_inv s es alloc t prio now :
  rq_inv s es -> fresh_block s alloc -> valid_prio prio ->
  exists s' A B x, add_eevdf_entity_with_prio s alloc t prio now = Some s' /\ es = A ++ B /\
    rq_inv s' (A ++ bk_addr alloc :: B) /\ rq_handle s' = <[t := bk_addr alloc]> (rq_handle s) /\
    rq_ents s' !! bk_addr alloc = Some x /\ se_thread x = t /\
    ee_task_count (rq_ee s') = u64 (ee_task_count (rq_ee s) + 1) /\ ee_wait (rq_ee s') = ee_wait (rq_ee s) /\
    (forall k, k <> bk_addr alloc -> rq_ents s' !! k = rq_ents s !! k).
Proof.
  intros HI (Hfr & Ha0 & Hg & Hj) Hp. set (e := bk_addr alloc) in *.
  destruct (new_entity_ok s alloc t prio now Ha0 Hj Hp) as (x & Enew & Hok & Hon & Hth & _). fold e in Enew.
  destruct (fresh_inv s es e (bk_node alloc) (set_on_rq false x) HI Hfr Ha0 Hg Hok eq_refl) as [HI1 Hne].
  unfold add_eevdf_entity_with_prio. rewrite Enew. cbn [mbind option_bind]. fold e.
  set (m := mkRm _ _) in *. set (s1 := with_ents (with_mem s m) (<[e := x]> (rq_ents s))).
  set (s2 := with_ents (with_mem s m) (<[e := set_on_rq false x]> (rq_ents s))) in *.
  set (y := set_handle (rq_addr s) x).
  assert (upd s1 e (set_handle (rq_addr s1)) = Some (with_ents (with_mem s m) (<[e := y]> (rq_ents s)))) as ->.
  { unfold upd, s1. simpl. rewrite lookup_insert_eq. simpl. unfold with_ents. simpl. by rewrite insert_insert_eq. }
  cbn [mbind option_bind].
  assert (rq_inv (with_handle s2 t e) es) as HI2 by (destruct HI1 as [[[] ?] ? ? ? ? ?]; by split).
  destruct (insert_inv (with_handle s2 t e) es e (set_on_rq false x) HI2) with (y := y)
    as (s' & A & B & E' & Eab & HI' & Hw & Hh' & _ & Hc & He'); [apply lookup_insert_eq|done|by split_and!; rewrite ?Hon|].
  assert (with_handle (with_ents (with_mem s m) (<[e := y]> (rq_ents s))) t e =
          with_ents (with_handle s2 t e) (<[e := y]> (rq_ents (with_handle s2 t e)))) as ->.
  { unfold s2, with_ents, with_handle. simpl. by rewrite insert_insert_eq. }
  rewrite E'. cbn [mbind option_bind]. eexists _, A, B, y. split; [done|]. split_and!; [done|by apply with_count_inv|done| |done| | |].
  - change (rq_ents s' !! e = Some y). rewrite He'. apply lookup_insert_eq.
  - cbn [with_count with_ee rq_ee ee_task_count]. by rewrite Hc.
  - cbn [with_count with_ee rq_ee ee_wait]. by rewrite Hw.
  - intros k Hk. change (rq_ents s' !! k = rq_ents s !! k). rewrite He'. rewrite lookup_insert_ne by done. simpl. by apply lookup_insert_ne.
Qed.

Lemma init_inv addr blks alloc t now :
  bk_addr alloc <> 0 -> good (run_node (bk_addr alloc)) -> 0 <= se_wait_index (bk_junk alloc) ->
  exists s, init_cpu_idle addr ∅ blks ∅ ∅ alloc t now = Some s /\ rq_inv s [bk_addr alloc] /\
    cow_rep (ee_wait (rq_ee s)) [] /\ rq_handle s = {[ t := bk_addr alloc ]} /\ ee_current (rq_ee s) = bk_addr alloc.
Proof.
  intros Ha0 Hg Hj. set (e := bk_addr alloc) in *. unfold init_cpu_idle.
  destruct (cow_create_spec blks) as (c & -> & HW). cbn [mbind option_bind]. set (s0 := mkRq _ _ _ _).
  assert (rq_inv s0 []) as HI0.
  { split; try done.
    - split; [split|constructor]; [apply rb_tree_empty|set_solver].
    - by left.
    - intros k [z Hz]. simpl in Hz. by rewrite lookup_empty in Hz. }
  destruct (new_entity_ok s0 alloc t (NICE_TO_PRIO 20) now Ha0 Hj) as (x & Enew & Hok & Hon & Hth & _); [done|]. fold e in Enew.
  destruct (fresh_inv s0 [] e (bk_node alloc) (set_on_rq false x) HI0 (lookup_empty _) Ha0 Hg Hok eq_refl) as [HI1 Hne].
  rewrite Enew. cbn [mbind option_bind]. cbv zeta. fold e. set (m := mkRm (<[run_node e := bk_node alloc]> (rb_nodes (ee_mem (rq_ee s0)))) (rb_top (ee_mem (rq_ee s0)))) in *.
  set (s2 := with_ents (with_mem s0 m) (<[e := set_on_rq false x]> (rq_ents s0))) in *.
  set (s3 := with_handle (with_ee s2 (mkEe m 0 e (mkCs c blks) 0 0 0 0)) t e).
  assert (rq_inv s3 []) as HI3 by (destruct HI1 as [[[] ?] ? ? ? ? ?]; by split).
  destruct (insert_inv s3 [] e (set_on_rq false x) HI3) with (y := x)
    as (s' & A & B & E' & Eab & HI' & Hw & Hh' & _ & Hc & He'); [apply lookup_insert_eq|done|by split_and!; rewrite ?Hon|].
  symmetry in Eab. apply app_eq_nil in Eab as [-> ->].
  match goal with |- context [insert_sched_entity ?z e] => assert (z = with_ents s3 (<[e := x]> (rq_ents s3))) as -> end.
  { unfold s3, s2, with_ents, with_handle, with_ee. simpl. by rewrite insert_insert_eq. }
  rewrite E'. cbn [mbind option_bind]. eexists. split; [done|]. split_and!; [|cbn [with_current with_ee rq_ee ee_wait]; by rewrite Hw|change (rq_handle s' = {[ t := e ]}); by rewrite Hh'|done].
  apply with_current_inv; [done|]. right. set_solver.
Qed.

(** * EEVDF: how exactly virtual time is scaled

    [calc_delta_fair] multiplies by a reciprocal of the weight from a table
    and shifts, instead of dividing. *)

(** What is checked of one row of the tables: the factor and the shift that
    [__calc_delta] gets from the reciprocal [i] of the weight [w] are within
    one part in 10^8 of [1024 / w]. *)
Definition row_ok (w i : Z) : bool :=
  let '(f, s) := reduce_fact (u64 (1024 * i)) 32 in
  (0 <? w) && negb (i =? 0) && (0 <=? f) && (f <? two32) && (0 <=? s) && (s <? 128) &&
  (10 ^ 8 * Z.abs (f * w - 1024 * 2 ^ s) <=? 1024 * 2 ^ s).

Lemma rows_ok : forallb (fun '(w, i) => row_ok w i) (zip sched_prio_to_weight sched_prio_to_wmult) = true.
Proof. vm_compute. reflexivity. Qed.

Lemma scale_err f s w delta :
  0 < w -> 0 <= f -> 0 <= s -> 10 ^ 8 * Z.abs (f * w - 1024 * 2 ^ s) <= 1024 * 2 ^ s -> 0 <= delta < 2 ^ 53 ->
  let d := delta * f / 2 ^ s in
  0 <= d < two64 /\ 10 ^ 8 * Z.abs (d * w - 1024 * delta) <= 10 ^ 8 * w + 1024 * delta.
Proof.
  intros Hw Hf Hs Herr Hd d. assert (0 < 2 ^ s) as Hp by (apply Z.pow_pos_nonneg; lia). set (p := 2 ^ s) in *.
  pose proof (Z.div_mod (delta * f) p ltac:(lia)) as Hdm. pose proof (Z.mod_pos_bound (delta * f) p Hp) as Hm. fold d in Hdm.
  set (r := (delta * f) mod p) in *. assert (0 <= d) as Hd0 by (apply Z.div_pos; nia). split.
  - split; [done|]. assert (f <= 2048 * p) by nia. apply Z.div_lt_upper_bound; [done|]. nia.
  - assert (p * (d * w - 1024 * delta) = delta * (f * w - 1024 * p) - r * w) as E by nia.
    assert (10 ^ 8 * Z.abs (p * (d * w - 1024 * delta)) <= p * (10 ^ 8 * w + 1024 * delta)) as H.
    { rewrite E. assert (Z.abs (delta * (f * w - 1024 * p) - r * w) <= delta * Z.abs (f * w - 1024 * p) + r * w) as Ha by nia. nia. }
    rewrite Z.abs_mul, (Z.abs_eq p) in H by lia. nia.
Qed.

Lemma scale_row w i delta :
  row_ok w i = true -> 0 <= delta < 2 ^ 53 ->
  exists d, __calc_delta delta NICE_0_LOAD (mkLw (scale_load w) i) = Some (d, mkLw (scale_load w) i) /\
    10 ^ 8 * Z.abs (d * w - 1024 * delta) <= 10 ^ 8 * w + 1024 * delta.
Proof.
  intros Hrow Hd. unfold __calc_delta. change (scale_load_down NICE_0_LOAD) with 1024.
  change (reduce_fact 1024 WMULT_SHIFT) with (1024, 32). cbv beta iota zeta. unfold row_ok in Hrow.
  assert (i <> 0) as Hi by (intros ->; by rewrite andb_false_r in Hrow || (destruct (reduce_fact _ _); lia)).
  unfold __update_inv_weight. cbn [lw_inv]. rewrite (proj2 (Z.eqb_neq _ _) Hi). cbn [negb lw_inv].
  destruct (reduce_fact (u64 (1024 * i)) 32) as [f s]. rewrite !andb_true_iff in Hrow.
  destruct Hrow as [[[[[[Hw%Z.ltb_lt _] Hf%Z.leb_le] Hf'%Z.ltb_lt] Hs%Z.leb_le] Hs'%Z.ltb_lt] He%Z.leb_le].
  destruct (scale_err f s w delta Hw Hf Hs He Hd) as [Hr Herr].
  unfold mul_u64_u32_shr. rewrite (u32_id s), (u32_id f) by lia. destruct (Z.ltb_spec s 128); [|lia]. cbn [mbind option_bind].
  rewrite Z.shiftr_div_pow2, u64_id by done. by eexists.
Qed.

(** C12: [calc_delta_fair] scales a time by 1024 over the weight of the
    priority to within one part in 10^8 and one unit of rounding, for every
    priority, without overflow, up to 2^53 nanoseconds; the entity is not
    changed. *)
Theorem eevdf_scaling_accurate x delta :
  valid_prio (se_prio x) -> 0 <= delta < 2 ^ 53 ->
  exists y w d, set_load_weight x = Some y /\ lw_weight (se_load y) = scale_load w /\ 0 < w /\
    calc_delta_fair delta y = Some (d, y) /\ 10 ^ 8 * Z.abs (d * w - 1024 * delta) <= 10 ^ 8 * w + 1024 * delta.
Proof.
  intros Hp Hd. assert (exists w i, set_load_weight x = Some (set_load (mkLw (scale_load w) i) x) /\ row_ok w i = true) as (w & i & -> & Hrow).
  { unfold set_load_weight, valid_prio, NICE_TO_PRIO, DEFAULT_PRIO, MAX_RT_PRIO in *.
    destruct (Z.eqb_spec (se_prio x) (20 + 120)); [eexists _, _; split; [done|]; vm_compute; reflexivity|].
    rewrite u64_id, i32_id by lia.
    destruct (zget_ok sched_prio_to_weight (se_prio x - 100)) as [w Ew]; [change (zlen sched_prio_to_weight) with 40; lia|].
    destruct (zget_ok sched_prio_to_wmult (se_prio x - 100)) as [i Ei]; [change (zlen sched_prio_to_wmult) with 40; lia|].
    rewrite Ew, Ei. cbn [mbind option_bind]. exists w, i. split; [done|].
    pose proof rows_ok as HR. rewrite forallb_forall in HR. apply (HR (w, i)).
    apply list_elem_of_In, list_elem_of_lookup. exists (Z.to_nat (se_prio x - 100)). apply lookup_zip_Some.
    unfold zget in Ew, Ei. by destruct (Z.ltb_spec (se_prio x - 100) 0). }
  assert (0 < w) as Hw by (unfold row_ok in Hrow; destruct (reduce_fact _ _); rewrite !andb_true_iff in Hrow; lia).
  exists (set_load (mkLw (scale_load w) i) x), w. unfold calc_delta_fair. cbn [set_load se_load lw_weight].
  destruct (Z.eqb_spec (scale_load w) NICE_0_LOAD) as [E|E]; cbn [negb].
  - exists delta. split_and!; try done. unfold scale_load, NICE_0_LOAD, SCHED_FIXEDPOINT_SHIFT in E. rewrite Z.shiftl_mul_pow2 in E by lia. lia.
  - destruct (scale_row w i delta Hrow Hd) as (d & -> & Herr). exists d. split_and!; done.
Qed.

Lemma eevdf_scaling_accurate_witness :
  exists y w d, set_load_weight (mkSe 105 0 0 0 0 0 0 0 0 false (mkLw 0 0) false 0 0 false 0) = Some y /\
    lw_weight (se_load y) = scale_load w /\ 0 < w /\ calc_delta_fair 1000000 y = Some (d, y) /\
    10 ^ 8 * Z.abs (d * w - 1024 * 1000000) <= 10 ^ 8 * w + 1024 * 1000000.
Proof. apply (eevdf_scaling_accurate _ 1000000); done. Defined.
