(* ===== verification/EevdfProps.v ===== *)
(** * EEVDF: what the scheduler promises

    Over any sequence of adding, waiting, waking, ending (of runnable threads)
    and picking (while virtual time is not wrapped), the run queue stays a
    red-black tree sorted by deadline that holds exactly the runnable entities,
    no operation faults, and, while deadlines are within 2^63 of each other,
    the entity picked has the earliest one. Also: where the code does not do
    this. *)

From stdpp Require Import gmap sorting.
From S2P Require Import Prelude RbTree RbShape RbInsert RbErase RbFixup RbWalk RbProps Cow CowSpec CowProps Eevdf EevdfSpec EevdfInv EevdfOps.

(** ** An entity ends *)

Lemma drop_inv s es e :
  rq_inv s es -> (e ∉ es) ->
  rq_inv (with_ents (with_mem s (mkRm (delete (run_node e) (rb_nodes (ee_mem (rq_ee s)))) (rb_top (ee_mem (rq_ee s)))))
            (delete e (rq_ents s))) es.
Proof.
  intros [[[HT He] HS] Hload Hcur Hok Hnode Hon] Hne. split; try done.
  - split; [split|].
    + apply rb_tree_frame; [done|]. intros k (a & -> & Ha)%list_elem_of_fmap. apply lookup_delete_ne.
      intros Heq%run_node_inj. congruence.
    + intros k Hk. simpl. rewrite lookup_delete_ne by congruence. by apply He.
    + apply (by_deadline_ext s); [|done]. intros k Hk. apply dl_ext. simpl. apply lookup_delete_ne. congruence.
  - intros k z. simpl. intros [_ Hz]%lookup_delete_Some. by eapply Hok.
  - intros k [z Hz]. simpl in *. apply lookup_delete_Some in Hz as [Hke Hz]. rewrite lookup_delete_ne by (intros Heq%run_node_inj; congruence). eauto.
  - intros k z. simpl. intros [_ Hz]%lookup_delete_Some. by apply Hon.
Qed.

Lemma end_ok s A e B t cpu :
  rq_inv s (A ++ e :: B) -> rq_handle s !! t = Some e -> t <> 0 -> cpu <> 0 ->
  exists s', remove_eevdf_entity s t cpu = Some s' /\ rq_inv s' (A ++ B) /\
    rq_handle s' = delete t (rq_handle s) /\ ee_wait (rq_ee s') = ee_wait (rq_ee s) /\
    rq_ents s' !! e = None /\ (forall k, k <> e -> rq_ents s' !! k = rq_ents s !! k).
Proof.
  intros HI Hh Ht0 Hc0. destruct (qp_ents _ _ (proj1 (qi_wf _ _ HI)) e) as [x Hx]; [set_solver|].
  pose proof (qp_nodup _ _ (proj1 (qi_wf _ _ HI))) as N. apply NoDup_app in N as (NA & HAB & [HeB NB]%NoDup_cons).
  assert (e ∉ A ++ B) as HeAB by (intros [Hin|Hin]%elem_of_app; [apply (HAB _ Hin); set_solver|done]).
  unfold remove_eevdf_entity. apply Z.eqb_neq in Ht0 as ->. apply Z.eqb_neq in Hc0 as ->. cbn [orb]. rewrite Hh.
  destruct (remove_entity_ok s A e B x HI Hx) as (s1 & y & -> & HI1 & (Hw & Hh1 & _ & _ & Ho) & _). cbn [mbind option_bind].
  pose proof (drop_inv _ _ e HI1 HeAB) as HI2. eexists. split; [done|].
  match goal with |- context [drop_count ?z] => destruct (drop_count_same z) as (Dw & Dh & De & _) end.
  rewrite Dw, Dh, De. cbn [rq_handle rq_ents with_ents with_mem with_ee rq_ee ee_wait]. split_and!.
  - apply drop_count_inv. destruct HI2 as [[[] ?] ? ? ? ? ?]. by split.
  - by rewrite Hh1.
  - done.
  - apply lookup_delete_eq.
  - intros k Hk. rewrite lookup_delete_ne by done. by apply Ho.
Qed.

(** ** The state of the scheduler as a whole *)

(** Threads' handles are entities, of one thread each. *)
Record handles_ok (s : rq) : Prop := mkHo {
  ho_ent : forall t e, rq_handle s !! t = Some e -> is_Some (rq_ents s !! e);
  ho_inj : forall t t' e, rq_handle s !! t = Some e -> rq_handle s !! t' = Some e -> t = t';
}.

Lemma handles_frame s s' :
  handles_ok s -> rq_handle s' = rq_handle s -> (forall e, is_Some (rq_ents s !! e) -> is_Some (rq_ents s' !! e)) -> handles_ok s'.
Proof. intros [He Hi] Hh Hs. split; rewrite Hh; eauto. Qed.

(** One entity changed, and is still there. *)
Lemma handles_but s s' e :
  handles_ok s -> rq_handle s' = rq_handle s -> is_Some (rq_ents s' !! e) ->
  (forall k, k <> e -> rq_ents s' !! k = rq_ents s !! k) -> handles_ok s'.
Proof.
  intros HH Hh Hs Ho. eapply handles_frame; [done..|]. intros k Hk. destruct (decide (k = e)) as [->|]; [done|]. by rewrite Ho.
Qed.

(** The list of waiting entities can take one more. *)
Definition wait_room (s : rq) : Prop :=
  blocks_capacity (cs_list (ee_wait (rq_ee s))) < 2 ^ 59 /\ cow_size (cs_list (ee_wait (rq_ee s))) < 2 ^ 62 - 1.

(** Virtual time is below the point where it is wrapped, and the deadlines in
    the queue are within 2^63 of each other. *)
Definition calm (s : rq) (es : list Z) : Prop :=
  ee_min_vruntime (rq_ee s) < VRUNTIME_OFFSET_THRESHOLD /\ forall a b, a ∈ es -> b ∈ es -> dl s a - dl s b < two63.

Definition sched_ok (s : rq) (es W : list Z) : Prop :=
  rq_inv s es /\ cow_rep (ee_wait (rq_ee s)) W /\ handles_ok s.

(** ** The tick *)

(** What changes of entities in place keep. *)
Definition same_rq (s s' : rq) : Prop :=
  rq_ee s' = rq_ee s /\ forall e, is_Some (rq_ents s !! e) -> is_Some (rq_ents s' !! e).

Lemma upd_same s e f : is_Some (rq_ents s !! e) -> exists s', upd s e f = Some s' /\ same_rq s s'.
Proof.
  intros [x Hx]. unfold upd. rewrite Hx. cbn [mbind option_bind]. eexists. split; [done|]. split; [done|].
  intros k Hk. cbn. destruct (decide (k = e)) as [->|]; [rewrite lookup_insert_eq; eauto|by rewrite lookup_insert_ne].
Qed.

Lemma rq_pre_same s s' es : rq_pre s es -> same_rq s s' -> rq_pre s' es.
Proof. intros [HT He] [E Hs]. split; [by rewrite E|]. intros e Hin. by apply Hs, He. Qed.

(** The loop of [wrap_vruntime] visits the entities of the tree and ends. *)
Lemma wrap_walk_ok l2 : forall fuel l1 s,
  rq_pre s (l1 ++ l2) -> (length l2 < fuel)%nat ->
  exists s', wrap_walk fuel s (hd 0 (run_node <$> l2)) = Some s' /\ same_rq s s'.
Proof.
  induction l2 as [|e l2 IH]; intros fuel l1 s HP Hf; (destruct fuel as [|fuel]; [simpl in Hf; lia|]); cbn [wrap_walk].
  { eexists. split; [done|]. by split. }
  rewrite fmap_cons; cbn [hd]. pose proof (rb_tree_nodup _ _ (qp_tree _ _ HP)) as [_ G].
  assert (good (run_node e)) as Ge.
  { rewrite Forall_forall in G. apply G. apply list_elem_of_fmap_2. set_solver. }
  rewrite good_eqb by done. rewrite node_2_se_run.
  match goal with |- context [upd s e ?g] => destruct (upd_same s e g) as (s1 & -> & Hs1) end; [apply (qp_ents _ _ HP); set_solver|].
  cbn [mbind option_bind]. pose proof (rq_pre_same _ _ _ HP Hs1) as HP1.
  pose proof (qp_tree _ _ HP1) as HT. rewrite fmap_app, fmap_cons in HT. rewrite (rb_next_spec _ _ _ _ HT). cbn [mbind option_bind].
  destruct (IH fuel (l1 ++ [e]) s1) as (s' & -> & Ee & Hk); [by rewrite <- app_assoc|simpl in Hf; lia|].
  exists s'. split; [done|]. destruct Hs1 as [E1 H1]. split; [congruence|]. auto.
Qed.

Lemma rq_pre_fuel s es : rq_pre s es -> (length es < rb_fuel (ee_mem (rq_ee s)))%nat.
Proof.
  intros [(t & HR & _ & Hi) _]. apply Rep_size in HR. rewrite Hi, length_fmap in HR. unfold rb_fuel. simpl in HR. lia.
Qed.

(** All that [pick_eevdf] needs to return an entity that is there. *)
Record pickable (s : rq) (es : list Z) : Prop := mkPk {
  pk_pre : rq_pre s es;
  pk_load : ee_avg_load (rq_ee s) = 0;
  pk_cur : ee_current (rq_ee s) = 0 \/ is_Some (rq_ents s !! ee_current (rq_ee s));
  pk_nonzero : forall e, e ∈ es -> e <> 0;
}.

Lemma inv_pickable s es : rq_inv s es -> pickable s es.
Proof.
  intros HI. split; [apply (qi_wf _ _ HI)|apply (qi_load _ _ HI)|by eapply cur_present|].
  intros e He. by eapply member_nonzero.
Qed.

(** Wrapping, with or without effect, ends, and the next pick has what it needs. *)
Lemma wrap_ok s es : pickable s es -> exists s', wrap_vruntime s = Some s' /\ pickable s' es.
Proof.
  intros [HP Hl Hc Hz]. unfold wrap_vruntime. case_if; [by exists s|]. cbv zeta.
  set (s0 := with_min s _). assert (rq_pre s0 es) as HP0 by (by destruct HP).
  assert (exists s1, (if ee_current (rq_ee s) =? 0 then Some s0
         else upd s0 (ee_current (rq_ee s)) (fun c =>
                set_deadline (u64 (se_deadline c - VRUNTIME_OFFSET_THRESHOLD)) (set_vruntime (u64 (se_vruntime c - VRUNTIME_OFFSET_THRESHOLD)) c)))
      = Some s1 /\ same_rq s0 s1) as (s1 & -> & Hs1).
  { destruct (Z.eqb_spec (ee_current (rq_ee s)) 0); [eexists; by split|]. apply upd_same. by destruct Hc. }
  cbn [mbind option_bind]. pose proof (rq_pre_same _ _ _ HP0 Hs1) as HP1.
  rewrite (rb_first_spec _ _ (qp_tree _ _ HP1)). cbn [mbind option_bind].
  destruct (wrap_walk_ok es (rb_fuel (ee_mem (rq_ee s1))) [] s1 HP1 (rq_pre_fuel _ _ HP1)) as (s2 & -> & Hs2).
  cbn [mbind option_bind]. eexists. split; [done|]. pose proof (rq_pre_same _ _ _ HP1 Hs2) as HP2.
  destruct Hs1 as [E1 K1], Hs2 as [E2 K2]. assert (rq_ee s2 = rq_ee s0) as Ee by congruence.
  split; [by destruct HP2|cbn; by rewrite Ee| |done]. cbn. rewrite Ee. change (ee_current (rq_ee s0)) with (ee_current (rq_ee s)).
  destruct Hc as [|Hc]; [by left|right]. auto.
Qed.

Lemma update_current_ok s es now : rq_inv s es -> exists s' es', update_current_task s now = Some s' /\ pickable s' es' /\ (es' ≡ₚ es).
Proof.
  intros HI. destruct (tick_body_ok s es now HI) as (s1 & b & es1 & E1 & HI1 & Hp & _). unfold update_current_task. rewrite E1.
  cbn [mbind option_bind]. apply inv_pickable in HI1. destruct b; [|by eauto].
  destruct (wrap_ok s1 es1 HI1) as (s2 & -> & H2). eauto.
Qed.

(** A pick with something runnable returns, wrapped or not. *)
Lemma pick_returns s es now now' : rq_inv s es -> es <> [] -> is_Some (eevdf_pick_next_task s now now').
Proof.
  intros HI Hne. destruct (update_current_ok s es now HI) as (s1 & es1 & E1 & [HP Hl Hc Hz] & Hp). unfold eevdf_pick_next_task. rewrite E1.
  cbn [mbind option_bind]. destruct es1 as [|e es1]; [by apply Permutation_nil in Hp|].
  destruct (pick_ok s1 es1 e HP) as (b & Hb & ->); [apply Hz; set_solver|done..|]. cbn [mbind option_bind].
  match goal with |- context [updo s1 ?k _] => assert (is_Some (rq_ents s1 !! k)) as [x Hx] end.
  { destruct (rq_ents s1 !! ee_current (rq_ee s1)) eqn:Ec; [case_if; by rewrite ?Ec|]; eauto. }
  unfold updo. rewrite Hx. cbn [mbind option_bind]. eauto.
Qed.

(** ** Picking *)

Lemma wrap_small s : ee_min_vruntime (rq_ee s) < VRUNTIME_OFFSET_THRESHOLD -> wrap_vruntime s = Some s.
Proof. unfold wrap_vruntime. intros H%Z.ltb_lt. by rewrite H. Qed.

Lemma hd_earliest s e es k : by_deadline s (e :: es) -> k ∈ e :: es -> dl s e <= dl s k.
Proof. intros [_ HF]%StronglySorted_inv [->|Hk]%elem_of_cons; [lia|]. rewrite Forall_forall in HF. by apply HF. Qed.

Lemma pick_first s e es : rq_inv s (e :: es) -> calm s (e :: es) -> pick_eevdf s = Some e.
Proof.
  intros HI [_ Hw]. assert (e <> 0) as He0 by (eapply member_nonzero; [done|set_solver]).
  destruct (pick_ok s es e) as (b & Hb & ->); [apply (qi_wf _ _ HI)|done|apply (qi_load _ _ HI)|by eapply cur_present|].
  destruct (rq_ents s !! ee_current (rq_ee s)) as [c|] eqn:Ec; [|done].
  destruct (Z.eqb_spec (ee_current (rq_ee s)) 0) as [|Hc0]; [done|]. cbn [negb andb].
  destruct (qi_cur _ _ HI) as [|Hin]; [done|]. unfold entity_before.
  pose proof (hd_earliest _ _ _ _ (proj2 (qi_wf _ _ HI)) Hin) as Hle. specialize (Hw _ e Hin ltac:(set_solver)).
  rewrite (dl_eq _ _ _ Hb), (dl_eq _ _ _ Ec) in *. rewrite i64_id by lia. by destruct (Z.ltb_spec (se_deadline c - se_deadline b) 0); [lia|].
Qed.

(** Virtual time is not wrapped by the update of the current entity. *)
Definition unwrapped (s : rq) (now : Z) : Prop :=
  forall s1 b, update_current_body s now = Some (s1, b) -> ee_min_vruntime (rq_ee s1) < VRUNTIME_OFFSET_THRESHOLD.

(** A pick of [k], once the update of the current entity has left [s1]. *)
Lemma pick_switches s now now' s1 b es k :
  update_current_body s now = Some (s1, b) -> rq_inv s1 es -> ee_min_vruntime (rq_ee s1) < VRUNTIME_OFFSET_THRESHOLD ->
  pick_eevdf s1 = Some k -> k ∈ es ->
  exists s' x, eevdf_pick_next_task s now now' = Some (s', se_thread x) /\ rq_inv s' es /\ ee_current (rq_ee s') = k /\
    rq_ents s' !! k = Some x /\ dl s' k = se_deadline x /\ ee_wait (rq_ee s') = ee_wait (rq_ee s1) /\ rq_handle s' = rq_handle s1 /\
    (forall a, is_Some (rq_ents s1 !! a) -> is_Some (rq_ents s' !! a)).
Proof.
  intros E1 HI1 Hmin Hpick Hk. unfold eevdf_pick_next_task, update_current_task. rewrite E1. cbn [mbind option_bind].
  assert ((if b then wrap_vruntime s1 else Some s1) = Some s1) as -> by (destruct b; [by apply wrap_small|done]). cbn [mbind option_bind].
  rewrite Hpick. cbn [mbind option_bind]. destruct (qp_ents _ _ (proj1 (qi_wf _ _ HI1)) k Hk) as [x Hx].
  set (y := set_exec now' (se_sum_exec x) x).
  destruct (updo_near s1 k (fun c => Some (se_thread c, set_exec now' (se_sum_exec c) c)) x (se_thread x) y) as (s2 & -> & N2 & Hy);
    [done..|by split_and!|]. cbn [mbind option_bind].
  assert (rq_inv s2 es) as HI2 by (eapply inv_near; [done..|]; by rewrite (dl_eq _ _ _ Hx), (dl_eq _ _ _ Hy)).
  exists (with_current s2 k), y. split_and!; try done.
  - apply with_current_inv; [done|]. by right.
  - change (dl (with_current s2 k) k) with (dl s2 k). by rewrite (dl_eq _ _ _ Hy).
  - change (ee_wait (rq_ee s2) = ee_wait (rq_ee s1)). by rewrite (nr_wait _ _ _ N2).
  - change (rq_handle s2 = rq_handle s1). by rewrite (nr_handle _ _ _ N2).
  - intros a Ha. change (is_Some (rq_ents s2 !! a)). by eapply near_is_Some.
Qed.

(** The update of the current entity frees no entity. *)
Lemma tick_keeps s es s1 es1 :
  rq_inv s es -> rq_inv s1 es1 ->
  ee_current (rq_ee s1) = ee_current (rq_ee s) -> (forall k, k <> ee_current (rq_ee s) -> rq_ents s1 !! k = rq_ents s !! k) ->
  forall k, is_Some (rq_ents s !! k) -> is_Some (rq_ents s1 !! k).
Proof.
  intros HI HI1 Hc Ho k Hk. destruct (decide (k = ee_current (rq_ee s))) as [->|]; [|by rewrite Ho].
  destruct (cur_present _ _ HI1) as [H0|H1]; rewrite <- Hc; [|done].
  rewrite <- Hc, H0 in Hk. by destruct (proj1 (qi_node _ _ HI 0 Hk)).
Qed.

(** A pick keeps the queue, whatever the deadlines. *)
Lemma pick_keeps s es now now' :
  rq_inv s es -> es <> [] -> unwrapped s now ->
  exists s' es' t, eevdf_pick_next_task s now now' = Some (s', t) /\ rq_inv s' es' /\ (es' ≡ₚ es) /\
    ee_wait (rq_ee s') = ee_wait (rq_ee s) /\ rq_handle s' = rq_handle s /\
    (forall k, is_Some (rq_ents s !! k) -> is_Some (rq_ents s' !! k)).
Proof.
  intros HI Hne Hu. destruct (tick_body_ok s es now HI) as (s1 & b & es1 & E1 & HI1 & Hp & Hc & Hw & Hh & Ho).
  destruct es1 as [|e es1]; [by apply Permutation_nil in Hp|].
  assert (e <> 0) as He0 by (eapply member_nonzero; [done|set_solver]).
  destruct (pick_ok s1 es1 e) as (z & Hz & Epick); [apply (qi_wf _ _ HI1)|done|apply (qi_load _ _ HI1)|by eapply cur_present|].
  destruct (pick_switches s now now' s1 b _ _ E1 HI1 (Hu _ _ E1) Epick) as (s' & x & E' & HI' & _ & _ & _ & Hw' & Hh' & Hs').
  { destruct (rq_ents s1 !! ee_current (rq_ee s1)); [|set_solver]. destruct (Z.eqb_spec (ee_current (rq_ee s1)) 0) as [|Hn]; [set_solver|].
    cbn [negb andb]. case_if; [by destruct (qi_cur _ _ HI1)|set_solver]. }
  exists s', (e :: es1), (se_thread x). split_and!; try done; [congruence..|]. intros k Hk. apply Hs', (tick_keeps s es s1 (e :: es1)); done.
Qed.

(** The entity picked has the earliest deadline. *)
Lemma pick_next_ok s es now now' :
  rq_inv s es -> es <> [] -> (forall s1 b, update_current_body s now = Some (s1, b) -> calm s1 es) ->
  exists s' es' e x, eevdf_pick_next_task s now now' = Some (s', se_thread x) /\ rq_inv s' es' /\ (es' ≡ₚ es) /\
    ee_current (rq_ee s') = e /\ e ∈ es /\ rq_ents s' !! e = Some x /\ (forall k, k ∈ es -> se_deadline x <= dl s' k).
Proof.
  intros HI Hne Hcalm. destruct (tick_body_ok s es now HI) as (s1 & b & es1 & E1 & HI1 & Hp & _).
  pose proof (Hcalm _ _ E1) as [Hmin Hwin]. destruct es1 as [|e es1]; [by apply Permutation_nil in Hp|].
  destruct (pick_switches s now now' s1 b (e :: es1) e E1 HI1 Hmin) as (s' & x & E' & HI' & Hc & Hx & Hd & _).
  { apply (pick_first s1 e es1 HI1). split; [done|]. intros; apply Hwin; by rewrite <- Hp. } { set_solver. }
  exists s', (e :: es1), e, x. split_and!; try done; [rewrite <- Hp; set_solver|].
  intros k Hk. rewrite <- Hd. apply (hd_earliest _ _ es1); [apply (qi_wf _ _ HI')|by rewrite Hp].
Qed.

(** C9: when the update of the current entity that a pick begins with leaves
    the virtual time below the threshold of [wrap_vruntime] and the deadlines
    of the runnable entities within 2^63 of each other ([calm]), the pick does
    not fault, keeps every runnable entity in the queue, and switches to the
    thread of an entity with the earliest deadline, whatever the time since
    the last pick. *)
Theorem eevdf_picks_earliest s es now now' :
  rq_inv s es -> es <> [] -> (forall s1 b, update_current_body s now = Some (s1, b) -> calm s1 es) ->
  exists s' es' e x, eevdf_pick_next_task s now now' = Some (s', se_thread x) /\ rq_inv s' es' /\ (es' ≡ₚ es) /\
    ee_current (rq_ee s') = e /\ e ∈ es /\ rq_ents s' !! e = Some x /\ (forall k, k ∈ es -> se_deadline x <= dl s' k).
Proof. apply pick_next_ok. Qed.

(** An entity is queued behind every entity with the same or an earlier
    deadline and before those with a later one; the tree stays a red-black
    tree, and memory outside its nodes is not touched. *)
Theorem eevdf_insert_fifo s es e x :
  rq_wf s es -> (e ∉ es) -> rq_ents s !! e = Some x -> good (run_node e) ->
  is_Some (rb_nodes (ee_mem (rq_ee s)) !! run_node e) ->
  exists m' A B, insert_sched_entity s e = Some (with_mem s m') /\ es = A ++ B /\ rq_wf (with_mem s m') (A ++ e :: B) /\
    (forall a, a ∈ A -> dl s a <= se_deadline x) /\ (forall b, b ∈ B -> se_deadline x < dl s b) /\
    same_outside (run_node <$> A ++ e :: B) (ee_mem (rq_ee s)) m'.
Proof. apply insert_entity_ok. Qed.

(** ** Sequences of operations *)

Lemma add_default s alloc t now : add_eevdf_entity s alloc t now = add_eevdf_entity_with_prio s alloc t (NICE_TO_PRIO 0) now.
Proof.
  unfold add_eevdf_entity, add_eevdf_entity_with_prio. destruct (new_entity _ _ _ _ _) as [s1|]; [|done]. cbn [mbind option_bind].
  unfold upd. change (rq_ents (with_handle s1 t (bk_addr alloc))) with (rq_ents s1). by destruct (rq_ents s1 !! bk_addr alloc).
Qed.

Lemma add_prio s alloc t prio now : add_eevdf_entity_prio s alloc t prio now = add_eevdf_entity_with_prio s alloc t prio now.
Proof.
  unfold add_eevdf_entity_prio, add_eevdf_entity_with_prio. destruct (new_entity _ _ _ _ _) as [s1|]; [|done]. cbn [mbind option_bind].
  unfold upd. change (rq_ents (with_handle s1 t (bk_addr alloc))) with (rq_ents s1). by destruct (rq_ents s1 !! bk_addr alloc).
Qed.

Section Reach.
Context (malloc : gmap Z cow_block -> Z) (realloc : list Z -> Z -> option (list Z)).
Context {HA : BlockAllocator malloc} {HR : Reallocator realloc}.

(** A step of the scheduler of a processor. A thread that ends is runnable,
    and the update before a pick does not wrap virtual time. *)
Inductive rq_step : rq -> rq -> Prop :=
  | step_add s alloc t prio now s' :
      fresh_block s alloc -> valid_prio prio -> add_eevdf_entity_with_prio s alloc t prio now = Some s' -> rq_step s s'
  | step_add_default s alloc t now s' :
      fresh_block s alloc -> add_eevdf_entity s alloc t now = Some s' -> rq_step s s'
  | step_add_prio s alloc t prio now s' :
      fresh_block s alloc -> valid_prio prio -> add_eevdf_entity_prio s alloc t prio now = Some s' -> rq_step s s'
  | step_wait s t cpu s' : wait_room s -> wait_eevdf_entity malloc realloc s t cpu = Some s' -> rq_step s s'
  | step_wake s t cpu s' : futex_eevdf_entity malloc s t cpu = Some s' -> rq_step s s'
  | step_end s t cpu s' :
      (forall e x, rq_handle s !! t = Some e -> rq_ents s !! e = Some x -> se_on_rq x = true) ->
      remove_eevdf_entity s t cpu = Some s' -> rq_step s s'
  | step_yield s t s' : set_entity_yield s t = Some s' -> rq_step s s'
  | step_pick s now now' s' t :
      unwrapped s now -> eevdf_pick_next_task s now now' = Some (s', t) -> rq_step s s'.

Inductive rq_reach : rq -> Prop :=
  | reach_start addr blks alloc t now s :
      bk_addr alloc <> 0 -> good (run_node (bk_addr alloc)) -> 0 <= se_wait_index (bk_junk alloc) ->
      init_cpu_idle addr ∅ blks ∅ ∅ alloc t now = Some s -> rq_reach s
  | reach_next s s' : rq_reach s -> rq_step s s' -> rq_reach s'.

(** *** One operation at a time, on any state that is well formed *)

Lemma add_sched s es W alloc t prio now :
  sched_ok s es W -> fresh_block s alloc -> valid_prio prio ->
  exists s' es', add_eevdf_entity_with_prio s alloc t prio now = Some s' /\ sched_ok s' es' W.
Proof.
  intros (HI & HW & [He Hi]) Hf Hp. destruct (add_inv s es alloc t prio now HI Hf Hp) as (s' & A & B & x & E' & _ & HI' & Hh & Hx & _ & _ & Hw & Ho).
  exists s', (A ++ bk_addr alloc :: B). split; [done|]. split_and!; [done|by rewrite Hw|].
  assert (forall t' k, rq_handle s !! t' = Some k -> k <> bk_addr alloc) as Hnew.
  { intros t' k Hk ->. destruct (He _ _ Hk) as [z Hz]. destruct Hf as [Hf _]. congruence. }
  split; rewrite Hh.
  - intros t' k [[_ <-]|[_ Hk]]%lookup_insert_Some; [eauto|]. rewrite Ho by (by eapply Hnew). eauto.
  - intros t1 t2 k [[<- <-]|[? H1]]%lookup_insert_Some [[<- H2]|[? H2]]%lookup_insert_Some; try done; [by destruct (Hnew _ _ H2)|subst; by destruct (Hnew _ _ H1)|eauto].
Qed.

Lemma on_rq_dec s es e x : rq_inv s es -> rq_ents s !! e = Some x -> if se_on_rq x then e ∈ es else (e ∉ es).
Proof. intros HI Hx. pose proof (qi_on _ _ HI e x Hx) as Hon. destruct (se_on_rq x); [by apply Hon|intros Hin; by apply Hon in Hin]. Qed.

(** What a call with a thread that is not there does. *)
Lemma null_or t cpu : (t =? 0) || (cpu =? 0) = false -> t <> 0 /\ cpu <> 0.
Proof. intros [?%Z.eqb_neq ?%Z.eqb_neq]%orb_false_iff. done. Qed.

Lemma wait_sched s es W t cpu :
  sched_ok s es W -> wait_room s ->
  exists s' es' W', wait_eevdf_entity malloc realloc s t cpu = Some s' /\ sched_ok s' es' W'.
Proof.
  intros Hs [Hcap Hlen]. pose proof Hs as (HI & HW & HH). rewrite (cr_size _ _ HW) in Hlen.
  destruct ((t =? 0) || (cpu =? 0)) eqn:E0; [unfold wait_eevdf_entity; rewrite E0; eauto|].
  apply null_or in E0 as E1. destruct E1 as [Ht Hc].
  destruct (rq_handle s !! t) as [e|] eqn:Eh; [|unfold wait_eevdf_entity; rewrite E0, Eh; eauto].
  destruct (ho_ent _ HH _ _ Eh) as [x Hx]. pose proof (on_rq_dec _ _ _ _ HI Hx) as Hon. destruct (se_on_rq x) eqn:Ex.
  - apply list_elem_of_split in Hon as (A & B & ->).
    destruct (wait_ok malloc realloc s A e B W t cpu) as (s' & y & E' & HI' & HW' & Hh & Hy & _ & _ & _ & Ho); try done.
    exists s', (A ++ B), (W ++ [e]). split; [done|]. split_and!; try done. eapply (handles_but s s' e); eauto.
  - unfold wait_eevdf_entity. rewrite E0, Eh, Hx. cbn [mbind option_bind]. rewrite Ex. cbn [negb]. eauto.
Qed.

Lemma wake_sched s es W t cpu :
  sched_ok s es W -> exists s' es' W', futex_eevdf_entity malloc s t cpu = Some s' /\ sched_ok s' es' W'.
Proof.
  intros Hs. pose proof Hs as (HI & HW & HH).
  destruct ((t =? 0) || (cpu =? 0)) eqn:E0; [unfold futex_eevdf_entity; rewrite E0; eauto|].
  apply null_or in E0 as E1. destruct E1 as [Ht Hc].
  destruct (rq_handle s !! t) as [e|] eqn:Eh; [|unfold futex_eevdf_entity; rewrite E0, Eh; eauto].
  destruct (ho_ent _ HH _ _ Eh) as [x Hx]. pose proof (on_rq_dec _ _ _ _ HI Hx) as Hon. destruct (se_on_rq x) eqn:Ex.
  - unfold futex_eevdf_entity. rewrite E0, Eh, Hx. cbn [mbind option_bind]. rewrite Ex. eauto.
  - destruct (wake_ok malloc s es e x W t cpu) as (s' & A & B & y & E' & _ & HI' & HW' & Hh & Hy & _ & _ & Ho); try done.
    exists s', (A ++ e :: B), (delete (Z.to_nat (se_wait_index x)) W). split; [done|]. split_and!; try done.
    eapply (handles_but s s' e); eauto.
Qed.

Lemma end_sched s es W t cpu :
  sched_ok s es W -> (forall e x, rq_handle s !! t = Some e -> rq_ents s !! e = Some x -> se_on_rq x = true) ->
  exists s' es', remove_eevdf_entity s t cpu = Some s' /\ sched_ok s' es' W.
Proof.
  intros Hs Hrun. pose proof Hs as (HI & HW & HH).
  destruct ((t =? 0) || (cpu =? 0)) eqn:E0; [unfold remove_eevdf_entity; rewrite E0; eauto|].
  apply null_or in E0 as E1. destruct E1 as [Ht Hc].
  destruct (rq_handle s !! t) as [e|] eqn:Eh; [|unfold remove_eevdf_entity; rewrite E0, Eh; eauto].
  destruct (ho_ent _ HH _ _ Eh) as [x Hx]. pose proof (on_rq_dec _ _ _ _ HI Hx) as Hon. rewrite (Hrun e x eq_refl Hx) in Hon.
  apply list_elem_of_split in Hon as (A & B & ->).
  destruct (end_ok s A e B t cpu) as (s' & E' & HI' & Hh & Hw & Hgone & Ho); try done.
  exists s', (A ++ B). split; [done|]. split_and!; [done|by rewrite Hw|]. destruct HH as [He Hi].
  assert (forall t' k, delete t (rq_handle s) !! t' = Some k -> rq_handle s !! t' = Some k /\ k <> e) as Hd.
  { intros t' k [Hne Hk]%lookup_delete_Some. split; [done|]. intros ->. by destruct (Hne (Hi _ _ _ Eh Hk)). }
  split; rewrite Hh.
  - intros t' k [Hk Hne]%Hd. rewrite Ho by done. eauto.
  - intros t1 t2 k [H1 _]%Hd [H2 _]%Hd. eauto.
Qed.

Lemma yield_sched s es W t e :
  sched_ok s es W -> rq_handle s !! t = Some e -> exists s', set_entity_yield s t = Some s' /\ sched_ok s' es W.
Proof.
  intros (HI & HW & HH) Eh. destruct (ho_ent _ HH _ _ Eh) as [x Hx]. unfold set_entity_yield. rewrite Eh. cbn [mbind option_bind].
  destruct (upd_near s e (set_yield true) x) as (s' & -> & N & Hy); [done|by split_and!|]. exists s'. split; [done|]. split_and!.
  - eapply inv_near; [done..|]. by rewrite (dl_eq _ _ _ Hy), (dl_eq _ _ _ Hx).
  - by rewrite (nr_wait _ _ _ N).
  - eapply (handles_but s s' e); [done|apply (nr_handle _ _ _ N)|eauto|apply (nr_other _ _ _ N)].
Qed.

Lemma pick_sched s es W now now' :
  sched_ok s es W -> es <> [] -> unwrapped s now ->
  exists s' es' t, eevdf_pick_next_task s now now' = Some (s', t) /\ sched_ok s' es' W.
Proof.
  intros (HI & HW & HH) Hne Hu. destruct (pick_keeps s es now now' HI Hne Hu) as (s' & es' & t & E' & HI' & _ & Hw & Hh & Hs).
  exists s', es', t. split; [done|]. split_and!; [done|by rewrite Hw|by eapply handles_frame].
Qed.

Lemma step_sched s s' es W : sched_ok s es W -> rq_step s s' -> exists es' W', sched_ok s' es' W'.
Proof.
  intros Hs Hst. destruct Hst as [s alloc t prio now s' Hf Hp E|s alloc t now s' Hf E|s alloc t prio now s' Hf Hp E|s t cpu s' Hr E|s t cpu s' E|s t cpu s' Hr E|s t s' E|s now now' s' t Hc E].
  - destruct (add_sched s es W alloc t prio now Hs Hf Hp) as (s1 & es' & E1 & H1). simplify_eq. eauto.
  - rewrite add_default in E. destruct (add_sched s es W alloc t (NICE_TO_PRIO 0) now Hs Hf) as (s1 & es' & E1 & H1); [done|]. simplify_eq. eauto.
  - rewrite add_prio in E. destruct (add_sched s es W alloc t prio now Hs Hf Hp) as (s1 & es' & E1 & H1). simplify_eq. eauto.
  - destruct (wait_sched s es W t cpu Hs Hr) as (s1 & es' & W' & E1 & H1). simplify_eq. eauto.
  - destruct (wake_sched s es W t cpu Hs) as (s1 & es' & W' & E1 & H1). simplify_eq. eauto.
  - destruct (end_sched s es W t cpu Hs Hr) as (s1 & es' & E1 & H1). simplify_eq. eauto.
  - destruct (rq_handle s !! t) as [e|] eqn:Eh; [|unfold set_entity_yield in E; by rewrite Eh in E].
    destruct (yield_sched s es W t e Hs Eh) as (s1 & E1 & H1). simplify_eq. eauto.
  - assert (es <> []) as Hne.
    { intros ->. destruct Hs as (HI & _). destruct (tick_body_ok s [] now HI) as (s1 & b & es1 & E1 & HI1 & Hp & _).
      apply Permutation_nil_r in Hp as ->. unfold eevdf_pick_next_task, update_current_task in E. rewrite E1 in E. cbn [mbind option_bind] in E.
      assert ((if b then wrap_vruntime s1 else Some s1) = Some s1) as Ew.
      { destruct b; [|done]. apply wrap_small. by apply (Hc _ _ E1). }
      rewrite Ew in E. cbn [mbind option_bind] in E. rewrite pick_empty in E by apply (qi_wf _ _ HI1). cbn [mbind option_bind] in E.
      destruct (qi_cur _ _ HI1) as [H0|Hin]; [|set_solver]. rewrite H0 in E. unfold updo in E.
      destruct (rq_ents s1 !! 0) as [z|] eqn:Ez; [|done]. by destruct (qi_node _ _ HI1 0 (ex_intro _ z Ez)). }
    destruct (pick_sched s es W now now' Hs Hne Hc) as (s1 & es' & t' & E1 & H1). simplify_eq. eauto.
Qed.

Lemma reach_sched s : rq_reach s -> exists es W, sched_ok s es W.
Proof.
  induction 1 as [addr blks alloc t now s Ha Hg Hj E|s s' _ (es & W & Hs) Hst]; [|by eapply step_sched].
  destruct (init_inv addr blks alloc t now Ha Hg Hj) as (s1 & E1 & HI & HW & Hh & _). rewrite E in E1. injection E1 as <-.
  exists [bk_addr alloc], []. split_and!; [done..|]. split; rewrite Hh.
  - intros t' e [<- <-]%lookup_singleton_Some. apply (qp_ents _ _ (proj1 (qi_wf _ _ HI))). set_solver.
  - intros t1 t2 e [<- _]%lookup_singleton_Some [<- _]%lookup_singleton_Some. done.
Qed.

(** C7: whatever sequence of additions, waits, wake-ups, ends, yields and
    picks led to a state, its run queue is a red-black tree sorted by
    deadline, an entity is in the tree exactly when it is marked runnable,
    the current entity is one of them, the handles of threads are entities, of
    one thread each, and the list of waiting entities is well formed. The
    sequences are those in which only runnable threads end and in which
    virtual time, after the update of the current entity that a pick begins
    with, is below the threshold of [wrap_vruntime], which therefore changes
    nothing. *)
Theorem eevdf_reachable_inv s : rq_reach s -> exists es W, rq_inv s es /\ cow_rep (ee_wait (rq_ee s)) W /\ handles_ok s.
Proof. apply reach_sched. Qed.

(** C8: in every state that [rq_reach] describes (only runnable threads have
    ended and virtual time was not wrapped on the way) no operation faults or
    runs forever: adding a thread in a fresh block with a valid priority,
    waiting while the list of waiting entities can grow, waking any thread,
    the end of a runnable one, a yield of one with a handle, the tick, whether
    or not it wraps virtual time, and, as long as some entity is runnable, a
    pick. *)
Theorem eevdf_never_faults s :
  rq_reach s ->
  (forall alloc t prio now, fresh_block s alloc -> valid_prio prio ->
     is_Some (add_eevdf_entity_with_prio s alloc t prio now) /\ is_Some (add_eevdf_entity_prio s alloc t prio now) /\
     is_Some (add_eevdf_entity s alloc t now)) /\
  (forall t cpu, wait_room s -> is_Some (wait_eevdf_entity malloc realloc s t cpu)) /\
  (forall t cpu, is_Some (futex_eevdf_entity malloc s t cpu)) /\
  (forall t cpu, (forall e x, rq_handle s !! t = Some e -> rq_ents s !! e = Some x -> se_on_rq x = true) ->
     is_Some (remove_eevdf_entity s t cpu)) /\
  (forall t e, rq_handle s !! t = Some e -> is_Some (set_entity_yield s t)) /\
  (forall now, is_Some (update_current_task s now)) /\
  (forall now now' e x, rq_ents s !! e = Some x -> se_on_rq x = true -> is_Some (eevdf_pick_next_task s now now')).
Proof.
  intros (es & W & Hs)%reach_sched. split_and!.
  - intros alloc t prio now Hf Hp. rewrite add_default, add_prio.
    destruct (add_sched s es W alloc t prio now Hs Hf Hp) as (? & ? & -> & _).
    destruct (add_sched s es W alloc t (NICE_TO_PRIO 0) now Hs Hf) as (? & ? & -> & _); [done|eauto].
  - intros t cpu Hr. destruct (wait_sched s es W t cpu Hs Hr) as (? & ? & ? & -> & _). eauto.
  - intros t cpu. destruct (wake_sched s es W t cpu Hs) as (? & ? & ? & -> & _). eauto.
  - intros t cpu Hr. destruct (end_sched s es W t cpu Hs Hr) as (? & ? & -> & _). eauto.
  - intros t e Eh. destruct (yield_sched s es W t e Hs Eh) as (? & -> & _). eauto.
  - intros now. destruct (update_current_ok s es now (proj1 Hs)) as (? & ? & -> & _). eauto.
  - intros now now' e x Hx Hon. apply (pick_returns s es); [apply Hs|].
    intros ->. apply (qi_on _ _ (proj1 Hs) e x Hx) in Hon. set_solver.
Qed.

(** ** Waiting and waking *)

(** A thread that waits and is woken is back in the run queue with the
    same deadline, the queue holds the entities it held, and the list of
    waiting entities is what it was. *)
Theorem eevdf_wait_wake s es e W t cpu :
  rq_inv s es -> e ∈ es -> rq_handle s !! t = Some e -> t <> 0 -> cpu <> 0 ->
  cow_rep (ee_wait (rq_ee s)) W -> wait_room s ->
  exists s1 s2 es', wait_eevdf_entity malloc realloc s t cpu = Some s1 /\ futex_eevdf_entity malloc s1 t cpu = Some s2 /\
    rq_inv s2 es' /\ (es' ≡ₚ es) /\ cow_rep (ee_wait (rq_ee s2)) W /\ dl s2 e = dl s e /\
    (forall k, k <> e -> rq_ents s2 !! k = rq_ents s !! k).
Proof.
  intros HI Hin Hh Ht Hc HW [Hcap Hlen]. rewrite (cr_size _ _ HW) in Hlen. apply list_elem_of_split in Hin as (A & B & ->).
  pose proof (qp_nodup _ _ (proj1 (qi_wf _ _ HI))) as N. apply NoDup_app in N as (NA & HAB & [HeB NB]%NoDup_cons).
  assert (e ∉ A ++ B) as HeAB by (intros [Hin|Hin]%elem_of_app; [apply (HAB _ Hin); set_solver|done]).
  destruct (wait_ok malloc realloc s A e B W t cpu) as (s1 & y & E1 & HI1 & HW1 & Hh1 & Hy & _ & Hi & Hd & Ho); try done.
  destruct (wake_ok malloc s1 (A ++ B) e y (W ++ [e]) t cpu) as (s2 & A' & B' & z & E2 & Eab & HI2 & HW2 & _ & Hz & _ & Hdz & Ho2); try done.
  { by rewrite Hh1. }
  exists s1, s2, (A' ++ e :: B'). split_and!; try done.
  - by rewrite <- !Permutation_middle, Eab.
  - rewrite Hi in HW2. replace (delete (Z.to_nat (zlen W)) (W ++ [e])) with W in HW2; [done|].
    unfold zlen. rewrite Nat2Z.id. by rewrite delete_middle, app_nil_r.
  - rewrite <- Hd, (dl_eq _ _ _ Hz), (dl_eq _ _ _ Hy). done.
  - intros k Hk. rewrite Ho2, Ho by done. done.
Qed.
End Reach.

(** Waking leaves stale indices: [wait_index] is set once, when the entity
    is put on the list, and removing an entity from the list moves the ones
    behind it. When a thread is woken while one behind it waits, waking that
    one too drops its successor, if any, from the list and leaves the runnable
    entity itself on it. *)
Theorem eevdf_wake_stale malloc {HA : BlockAllocator malloc} s es a b xa xb ta tb cpu A B C :
  rq_inv s es -> (a ∉ es) -> (b ∉ es) -> a <> b -> cpu <> 0 ->
  ta <> 0 -> rq_handle s !! ta = Some a -> rq_ents s !! a = Some xa -> se_wait_index xa = zlen A ->
  tb <> 0 -> rq_handle s !! tb = Some b -> rq_ents s !! b = Some xb -> se_wait_index xb = zlen (A ++ a :: B) ->
  cow_rep (ee_wait (rq_ee s)) (A ++ a :: B ++ b :: C) ->
  exists s1 s2 es', futex_eevdf_entity malloc s ta cpu = Some s1 /\ futex_eevdf_entity malloc s1 tb cpu = Some s2 /\
    rq_inv s2 es' /\ b ∈ es' /\ cow_rep (ee_wait (rq_ee s2)) (A ++ B ++ b :: tail C).
Proof.
  intros HI Ha Hb Hab Hc Hta Hha Hxa Hia Htb Hhb Hxb Hib HW.
  destruct (wake_ok malloc s es a xa _ ta cpu HI Hha Hta Hc Hxa Ha HW) as (s1 & A1 & B1 & y & E1 & Eab & HI1 & HW1 & Hh1 & _ & _ & _ & Ho).
  rewrite Hia in HW1. unfold zlen in HW1. rewrite Nat2Z.id, delete_middle in HW1.
  destruct (wake_ok malloc s1 (A1 ++ a :: B1) b xb (A ++ B ++ b :: C) tb cpu HI1) as (s2 & A2 & B2 & z & E2 & _ & HI2 & HW2 & _); try done.
  { by rewrite Hh1. } { by rewrite Ho. } { rewrite Eab in Hb. set_solver. }
  exists s1, s2, (A2 ++ b :: B2). split_and!; try done; [set_solver|]. rewrite Hib in HW2.
  replace (delete (Z.to_nat (zlen (A ++ a :: B))) (A ++ B ++ b :: C)) with (A ++ B ++ b :: tail C) in HW2; [done|].
  unfold zlen. rewrite Nat2Z.id. destruct C as [|c C].
  - rewrite delete_take_drop, take_ge, drop_ge, app_nil_r; [done|rewrite !length_app; simpl; lia..].
  - replace (length (A ++ a :: B)) with (length (A ++ B ++ [b])) by (rewrite !length_app; simpl; lia).
    replace (A ++ B ++ b :: c :: C) with ((A ++ B ++ [b]) ++ c :: C) by (by rewrite <- !app_assoc).
    by rewrite delete_middle, <- !app_assoc.
Qed.

(** The first deadline of a thread of default priority is one slice after
    the virtual time of the queue while that is below 2^63, and 0, before
    every other, from there until virtual time is wrapped. *)
Theorem eevdf_new_deadline s alloc t now :
  bk_addr alloc <> 0 -> 0 <= ee_min_vruntime (rq_ee s) < two64 ->
  exists s' x, new_entity s alloc t (NICE_TO_PRIO 0) now = Some s' /\ rq_ents s' !! bk_addr alloc = Some x /\
    se_thread x = t /\ se_vruntime x = ee_min_vruntime (rq_ee s) /\
    se_deadline x = if ee_min_vruntime (rq_ee s) <? two63 then ee_min_vruntime (rq_ee s) + 700000 else 0.
Proof.
  intros Ha Hv. unfold new_entity. apply Z.eqb_neq in Ha as ->. cbv zeta.
  change (set_load_weight ?e) with (Some (set_load (mkLw NICE_0_LOAD 4194304) e)). cbn [mbind option_bind].
  unfold update_deadline. cbn [set_load se_vruntime se_deadline se_custom_slice]. rewrite Z.sub_0_r.
  destruct (Z.ltb_spec (ee_min_vruntime (rq_ee s)) two63) as [Hs|Hs].
  - rewrite i64_id by lia. destruct (Z.ltb_spec (ee_min_vruntime (rq_ee s)) 0); [lia|].
    unfold calc_delta_fair. simpl. eexists _, _. split; [done|]. simpl. split; [apply lookup_insert_eq|]. split_and!; try done.
    simpl. unfold sysctl_sched_base_slice. apply u64_id. lia.
  - assert (i64 (ee_min_vruntime (rq_ee s)) = ee_min_vruntime (rq_ee s) - two64) as ->.
    { unfold i64. rewrite <- (Z_mod_plus_full _ (-1)). rewrite Z.mod_small; lia. }
    destruct (Z.ltb_spec (ee_min_vruntime (rq_ee s) - two64) 0); [|lia].
    eexists _, _. split; [done|]. simpl. split; [apply lookup_insert_eq|]. done.
Qed.

(** ** Witnesses *)

Lemma calm_bounded s es :
  ee_min_vruntime (rq_ee s) < VRUNTIME_OFFSET_THRESHOLD -> map_Forall (fun _ x => 0 <= se_deadline x < two63) (rq_ents s) -> calm s es.
Proof.
  intros Hm Hd. split; [done|]. assert (forall e, 0 <= dl s e < two63) as H.
  { intros e. unfold dl. destruct (rq_ents s !! e) as [x|] eqn:Ex; [by apply (Hd e x)|lia]. }
  intros a b _ _. pose proof (H a). pose proof (H b). lia.
Qed.

(** A block with zeroes in it. *)
Definition zero_block (a : Z) : block := mkBlock a (mkSe 0 0 0 0 0 0 0 0 0 false (mkLw 0 0) false 0 0 false 0) (mkRb 0 0 0).

(** The idle thread 1, and threads 10 and 20. *)
Definition demo_idle : option rq := init_cpu_idle 64 ∅ ∅ ∅ ∅ (zero_block 4096) 1 100.
Definition demo_sched : option rq :=
  s ← demo_idle; s ← add_eevdf_entity s (zero_block 8192) 10 200; add_eevdf_entity_prio s (zero_block 12288) 20 125 300.

(** [s] is that state; boxed, so that automation does not run it. *)
Record is_demo (s : rq) : Prop := mkDemo { demo_eq : demo_sched = Some s }.

Lemma demo_reach : exists s, demo_sched = Some s /\ rq_reach top_block realloc_7 s.
Proof.
  destruct demo_idle as [s0|] eqn:E0; [|by vm_compute in E0].
  destruct (add_eevdf_entity s0 (zero_block 8192) 10 200) as [s1|] eqn:E1; [|vm_compute in E0; injection E0 as <-; by vm_compute in E1].
  destruct (add_eevdf_entity_prio s1 (zero_block 12288) 20 125 300) as [s2|] eqn:E2;
    [|vm_compute in E0; injection E0 as <-; vm_compute in E1; injection E1 as <-; by vm_compute in E2].
  exists s2. unfold demo_sched. rewrite E0. cbn [mbind option_bind]. rewrite E1. cbn [mbind option_bind]. split; [done|].
  eapply reach_next; [eapply reach_next; [by eapply (reach_start _ _ 64 ∅ (zero_block 4096) 1 100)|]|].
  - eapply step_add_default, E1. split_and!; try done. vm_compute in E0. injection E0 as <-. done.
  - eapply step_add_prio, E2; [|done]. split_and!; try done.
    vm_compute in E0. injection E0 as <-. vm_compute in E1. injection E1 as <-. done.
Qed.

Lemma eevdf_reachable_inv_witness : exists s es W, demo_sched = Some s /\ rq_inv s es /\ cow_rep (ee_wait (rq_ee s)) W /\ handles_ok s.
Proof.
  destruct demo_reach as (s & E & Hr). destruct (eevdf_reachable_inv top_block realloc_7 s Hr) as (es & W & H). exists s, es, W. split; [exact E|exact H].
Defined.

Lemma eevdf_never_faults_witness : exists s, demo_sched = Some s /\ forall now, is_Some (update_current_task s now).
Proof.
  destruct demo_reach as (s & E & Hr). exists s. split; [exact E|]. apply (eevdf_never_faults top_block realloc_7 s Hr).
Defined.

(** Thread 10 has the earliest deadline and is picked. *)
Lemma eevdf_picks_earliest_witness : exists s s', demo_sched = Some s /\ eevdf_pick_next_task s 1000 1001 = Some (s', 10).
Proof.
  destruct demo_reach as (s & E & (es & W & HI & _)%reach_sched); [|typeclasses eauto..]. vm_compute in E. injection E as <-. eexists _.
  destruct (eevdf_picks_earliest _ es 1000 1001 HI) as (s' & es' & e & x & E' & _).
  - intros ->. assert (4096 ∈ @nil Z) as Hin; [|set_solver]. by eapply (qi_on _ _ HI 4096).
  - intros s1 b E1. vm_compute in E1. injection E1 as <- _. apply calm_bounded; [done|]. apply map_Forall_to_list. repeat constructor; done.
  - exists s'. split; [vm_compute; reflexivity|]. rewrite E'. do 2 f_equal. vm_compute in E'. injection E' as _ Hx. symmetry. exact Hx.
Defined.

(** Thread 10 is runnable and nothing waits. *)
Lemma demo_state :
  exists s es, is_demo s /\ rq_inv s es /\ cow_rep (ee_wait (rq_ee s)) [] /\ rq_handle s !! 10 = Some 8192 /\
    8192 ∈ es /\ wait_room s.
Proof.
  destruct demo_reach as (s & E%mkDemo & (es & W & HI & HW & _)%reach_sched); [|typeclasses eauto..].
  assert (rq_handle s !! 10 = Some 8192 /\ cow_size (cs_list (ee_wait (rq_ee s))) = 0 /\ wait_room s /\
          exists x, rq_ents s !! 8192 = Some x /\ se_on_rq x = true) as (Hh & Hs & Hr & x & Hx & Hon).
  { apply demo_eq in E. vm_compute in E. injection E as <-. split; [reflexivity|]. split; [reflexivity|]. split; [by split|]. eexists. split; reflexivity. }
  exists s, es. split; [done|]. split; [done|]. rewrite (cr_size _ _ HW) in Hs.
  destruct W; [|unfold zlen in Hs; simpl in Hs; lia]. split; [done|]. split; [done|]. split; [|done]. by apply (qi_on _ _ HI 8192 x Hx).
Qed.

(** It waits and is woken. *)
Lemma eevdf_wait_wake_witness :
  exists s s1 s2, demo_sched = Some s /\ wait_eevdf_entity top_block realloc_7 s 10 1 = Some s1 /\
    futex_eevdf_entity top_block s1 10 1 = Some s2 /\ cow_rep (ee_wait (rq_ee s2)) [].
Proof.
  destruct demo_state as (s & es & E & HI & HW & Hh & Hin & Hr).
  destruct (eevdf_wait_wake top_block realloc_7 s es 8192 [] 10 1) as (s1 & s2 & es' & E1 & E2 & _ & _ & HW2 & _); try done.
  exists s, s1, s2. split; [exact (demo_eq _ E)|]. split; [exact E1|]. split; [exact E2|exact HW2].
Defined.

(** Taken out of the tree, it goes back in. *)
Lemma eevdf_insert_fifo_witness :
  exists s s1 m' es, demo_sched = Some s /\ wait_eevdf_entity top_block realloc_7 s 10 1 = Some s1 /\
    insert_sched_entity s1 8192 = Some (with_mem s1 m') /\ rq_wf (with_mem s1 m') es /\ 8192 ∈ es.
Proof.
  destruct demo_state as (s & es & E & HI & HW & Hh & Hin & Hr). apply list_elem_of_split in Hin as (A & B & ->).
  destruct (wait_ok top_block realloc_7 s A 8192 B [] 10 1) as (s1 & y & E1 & HI1 & _ & _ & Hy & Hoff & _); try done; [apply Hr|].
  destruct (qi_node _ _ HI1 8192) as (_ & Hg & Hn); [eauto|].
  destruct (eevdf_insert_fifo s1 (A ++ B) 8192 y) as (m' & A' & B' & E' & _ & HW' & _); [apply (qi_wf _ _ HI1)| |done..|].
  { intros Hin. apply (qi_on _ _ HI1 8192 y Hy) in Hin. congruence. }
  exists s, s1, m', (A' ++ 8192 :: B'). split; [exact (demo_eq _ E)|]. split; [exact E1|]. split; [exact E'|]. split; [exact HW'|set_solver].
Defined.

(** Both threads wait; 10 is woken, then 20. *)
Lemma eevdf_wake_stale_witness :
  exists s s1 s2 s3 s4, demo_sched = Some s /\ wait_eevdf_entity top_block realloc_7 s 10 1 = Some s1 /\
    wait_eevdf_entity top_block realloc_7 s1 20 1 = Some s2 /\ futex_eevdf_entity top_block s2 10 1 = Some s3 /\
    futex_eevdf_entity top_block s3 20 1 = Some s4 /\ cow_rep (ee_wait (rq_ee s4)) [12288].
Proof.
  destruct demo_state as (s & es & E & HI & HW & Hh & Hin & Hr).
  assert (rq_handle s !! 20 = Some 12288 /\ exists x, rq_ents s !! 12288 = Some x /\ se_on_rq x = true) as (Hh2 & x2 & Hx2 & Hon2).
  { apply demo_eq in E. vm_compute in E. injection E as <-. split; [reflexivity|]. eexists. split; reflexivity. }
  apply (qi_on _ _ HI 12288 x2 Hx2) in Hon2. apply list_elem_of_split in Hin as (A & B & ->).
  pose proof (qp_nodup _ _ (proj1 (qi_wf _ _ HI))) as N. apply NoDup_app in N as (NA & HAB & [HeB NB]%NoDup_cons).
  assert (12288 ∈ A ++ B) as Hin2 by set_solver.
  destruct (wait_ok top_block realloc_7 s A 8192 B [] 10 1) as (s1 & y & E1 & HI1 & HW1 & Hh1 & Hy & _ & Hiy & _ & _); try done; [apply Hr|].
  assert (blocks_capacity (cs_list (ee_wait (rq_ee s1))) < 2 ^ 59) as Hcap.
  { clear - E E1. apply demo_eq in E. vm_compute in E. injection E as <-. vm_compute in E1. injection E1 as <-. done. }
  apply list_elem_of_split in Hin2 as (A2 & B2 & EAB). rewrite EAB in HI1.
  destruct (wait_ok top_block realloc_7 s1 A2 12288 B2 [8192] 20 1) as (s2 & z & E2 & HI2 & HW2 & Hh2' & Hz & _ & Hiz & _ & Ho); try done.
  { by rewrite Hh1. }
  assert (forall k, k = 8192 \/ k = 12288 -> k ∉ A2 ++ B2) as Hout.
  { intros k Hk Hk'. assert (NoDup (8192 :: A2 ++ 12288 :: B2)) as N2.
    { rewrite <- EAB. apply NoDup_cons. split; [|apply NoDup_app; split_and!; [done| |done]; intros; set_solver].
      intros [Hi|Hi]%elem_of_app; [by destruct (HAB _ Hi); set_solver|done]. }
    rewrite <- Permutation_middle in N2. apply NoDup_cons in N2 as [N3 N2]. apply NoDup_cons in N2 as [N4 _]. set_solver. }
  destruct (eevdf_wake_stale top_block s2 (A2 ++ B2) 8192 12288 y z 10 20 1 [] [] []) as (s3 & s4 & es' & E3 & E4 & _ & _ & HW4);
    try done; try (apply Hout; auto); try (by rewrite Hh2', Hh1).
  { by rewrite Ho. }
  exists s, s1, s2, s3, s4. split; [exact (demo_eq _ E)|]. split; [exact E1|]. split; [exact E2|]. split; [exact E3|]. split; [exact E4|exact HW4].
Defined.

Lemma eevdf_new_deadline_witness :
  exists s' x, new_entity (with_min (mkRq (mkEe (mkRm ∅ 0) 0 0 ex_cow 0 0 0 0) 64 ∅ ∅) two63) (zero_block 4096) 10 120 5 = Some s' /\
    rq_ents s' !! 4096 = Some x /\ se_deadline x = 0.
Proof.
  destruct (eevdf_new_deadline (with_min (mkRq (mkEe (mkRm ∅ 0) 0 0 ex_cow 0 0 0 0) 64 ∅ ∅) two63) (zero_block 4096) 10 5)
    as (s' & x & E' & Hx & _ & _ & Hd); [done..|]. by exists s', x.
Defined.
