(* ===== verification/Futex.v ===== *)
(** * Futexes ([src/src/task/futex.c])

    Threads that wait for a physical address are on a copy-on-write list; a
    hash map finds the list of an address, and the list is dropped when it is
    empty. A thread that waits is taken from the scheduler, one that is woken
    is given back: the two calls are parameters here, with the laws of the
    class [Scheduler], which both schedulers of the kernel meet ([FutexSched]).
    The blocks of a list are in a heap of the list's own: only copies of a
    list share blocks, and futexes make none. *)

From stdpp Require Import gmap.
From S2P Require Import Prelude Map Cow.

Definition T_START : Z := 4.
Definition T_FUTEX : Z := 5.

(** What futexes use of a thread. *)
Record tcb := mkTcb { t_status : Z; t_futex_index : Z }.

Record fx_sys (S : Type) := mkFx {
  fx_map : hmap;                  (* [futex_map] *)
  fx_queues : gmap Z cow_sys;     (* the lists by address *)
  fx_threads : gmap Z tcb;
  fx_sched : S;
}.
Arguments mkFx {S} _ _ _ _.
Arguments fx_map {S} _.
Arguments fx_queues {S} _.
Arguments fx_threads {S} _.
Arguments fx_sched {S} _.

(** ** The system call: its arguments *)

(** [SYSCALL_FAULT_] *)
Definition fault (errno : Z) : Z := u64 (- errno).

(** What the call does after its arguments have been looked at: return, wait
    at most so many nanoseconds (a negative number: forever), or wake. *)
Inductive fx_action := FxReturn (code : Z) | FxWait (timeout_ns : Z) | FxWake (val : Z).

(** [time] is [tv_sec] and [tv_nsec], when the pointer is not NULL. *)
Definition futex_timeout (time : option (Z * Z)) : fx_action :=
  match time with
  | None => FxWait (-1)
  | Some (tv_sec, tv_nsec) =>
    if (tv_sec <? 0) || (tv_nsec <? 0) || (tv_nsec >=? 1000000000) then FxReturn (fault 22) (* EINVAL *)
    else
      let timeout_ns := i64 (tv_sec * 1000000000 + tv_nsec) in
      if timeout_ns =? 0 then FxReturn (fault 110) (* ETIMEDOUT *) else FxWait timeout_ns
  end.

(** [futex_key] is the physical address, [observed] what is in memory when a
    wait looks at it. *)
Definition futex_begin (uaddr futex_key op val observed : Z) (time : option (Z * Z)) : fx_action :=
  if uaddr =? 0 then FxReturn (fault 22)
  else if negb (Z.land uaddr 3 =? 0) then FxReturn (fault 22)
  else if futex_key =? 0 then FxReturn (fault 14) (* EFAULT *)
  else
    let cmd := Z.land op (Z.lnot (Z.lor 128 256)) in
    if (cmd =? 0) || (cmd =? 9) then
      if negb (observed =? val) then FxReturn (fault 11) (* EAGAIN *) else futex_timeout time
    else if (cmd =? 1) || (cmd =? 10) then
      if val <? 0 then FxReturn (fault 22) else FxWake val
    else FxReturn (fault 22).

Section Code.
Context {S : Type}.
(* [futex_block_task], [futex_wake_task] *)
Context (block wake : S -> Z -> option S).
(* the allocators of the lists: blocks, arrays, and the lists themselves *)
Context (malloc : gmap Z cow_block -> Z) (realloc : list Z -> Z -> option (list Z)).
Context (list_malloc : gmap Z cow_sys -> Z).

Implicit Types (s : fx_sys S).

Definition with_map s (m : hmap) : fx_sys S := mkFx m (fx_queues s) (fx_threads s) (fx_sched s).
Definition with_queue s (q : Z) (c : cow_sys) : fx_sys S :=
  mkFx (fx_map s) (<[q := c]> (fx_queues s)) (fx_threads s) (fx_sched s).
Definition with_tcb s (t : Z) (x : tcb) : fx_sys S :=
  mkFx (fx_map s) (fx_queues s) (<[t := x]> (fx_threads s)) (fx_sched s).
Definition with_sched s (x : S) : fx_sys S := mkFx (fx_map s) (fx_queues s) (fx_threads s) x.

Definition futex_init (malloc_ok calloc_ok : bool) (ts : gmap Z tcb) (sched : S) : option (fx_sys S) :=
  m ← map_create malloc_ok calloc_ok 20; Some (mkFx m ∅ ts sched).

(** The list of the address, a new one when there is none; [malloc_ok] and
    [calloc_ok] are about the map entry and the larger table. *)
Definition futex_queue (malloc_ok calloc_ok : bool) s (phys_addr : Z) : option (fx_sys S * Z) :=
  '(m, queue) ← map_get (fx_map s) phys_addr;
  let s := with_map s m in
  if queue =? 0 then
    let queue := list_malloc (fx_queues s) in
    l ← cow_list_create true true;
    m ← map_set malloc_ok calloc_ok m phys_addr queue;
    let s := with_map s m in
    Some (if queue =? 0 then s else with_queue s queue (mkCs l ∅), queue)
  else Some (s, queue).

Definition futex_add (malloc_ok calloc_ok : bool) s (phys_addr thread : Z) : option (fx_sys S) :=
  '(s, queue) ← futex_queue malloc_ok calloc_ok s phys_addr;
  c ← fx_queues s !! queue;
  '(c, i) ← cow_list_add malloc realloc c thread;
  x ← fx_threads s !! thread;
  let s := with_tcb (with_queue s queue c) thread (mkTcb (t_status x) i) in
  b ← block (fx_sched s) thread;
  Some (with_sched s b).

(** [thread->status = T_START; futex_wake_task(thread)] *)
Definition start_task s (thread : Z) : option (fx_sys S) :=
  x ← fx_threads s !! thread;
  let s := with_tcb s thread (mkTcb T_START (t_futex_index x)) in
  b ← wake (fx_sched s) thread;
  Some (with_sched s b).

(** [if (queue->size == 0) { map_remove(...); cow_list_destroy(queue); }] *)
Definition drop_empty s (phys_addr queue : Z) : option (fx_sys S) :=
  c ← fx_queues s !! queue;
  if cow_size (cs_list c) =? 0 then
    m ← map_remove (fx_map s) phys_addr;
    _ ← cow_list_destroy c;
    Some (mkFx m (delete queue (fx_queues s)) (fx_threads s) (fx_sched s))
  else Some s.

(** The loop of [futex_wake]. *)
Fixpoint wake_loop (fuel : nat) s (queue count index woken : Z) : option (fx_sys S * Z) :=
  match fuel with
  | O => None
  | Datatypes.S fuel =>
    c ← fx_queues s !! queue;
    if (index <? cow_size (cs_list c)) && (woken <? count) then
      '(c, thread) ← cow_list_get c index;
      let s := with_queue s queue c in
      if thread =? 0 then wake_loop fuel s queue count (u64 (index + 1)) woken
      else
        '(c, _) ← cow_list_remove malloc c index;
        s ← start_task (with_queue s queue c) thread;
        wake_loop fuel s queue count index (i32 (woken + 1))
    else Some (s, woken)
  end.

Definition futex_wake s (phys_addr count : Z) : option (fx_sys S * Z) :=
  '(m, queue) ← map_get (fx_map s) phys_addr;
  let s := with_map s m in
  if (queue =? 0) || (count <=? 0) then Some (s, 0)
  else
    c ← fx_queues s !! queue;
    '(s, woken) ← wake_loop (Datatypes.S (Z.to_nat (cow_size (cs_list c)))) s queue count 0 0;
    s ← drop_empty s phys_addr queue;
    Some (s, woken).

(** The loop of [futex_unblock]. *)
Fixpoint unblock_loop (fuel : nat) s (phys_addr queue thread index : Z) : option (fx_sys S * bool) :=
  match fuel with
  | O => None
  | Datatypes.S fuel =>
    c ← fx_queues s !! queue;
    if index <? cow_size (cs_list c) then
      '(c, item) ← cow_list_get c index;
      let s := with_queue s queue c in
      if negb (item =? thread) then unblock_loop fuel s phys_addr queue thread (u64 (index + 1))
      else
        '(c, _) ← cow_list_remove malloc c index;
        let s := with_queue s queue c in
        x ← fx_threads s !! thread;
        s ← (if t_status x =? T_FUTEX then start_task s thread else Some s);
        s ← drop_empty s phys_addr queue;
        Some (s, true)
    else Some (s, false)
  end.

Definition futex_unblock s (phys_addr thread : Z) : option (fx_sys S * bool) :=
  '(m, queue) ← map_get (fx_map s) phys_addr;
  let s := with_map s m in
  if (queue =? 0) || (thread =? 0) then Some (s, false)
  else
    c ← fx_queues s !! queue;
    unblock_loop (Datatypes.S (Z.to_nat (cow_size (cs_list c)))) s phys_addr queue thread 0.

(** The loop of [futex_free] over one list. *)
Fixpoint purge_loop (fuel : nat) (c : cow_sys) (thread index : Z) : option cow_sys :=
  match fuel with
  | O => None
  | Datatypes.S fuel =>
    if index <? cow_size (cs_list c) then
      '(c, item) ← cow_list_get c index;
      if item =? thread then '(c, _) ← cow_list_remove malloc c index; purge_loop fuel c thread index
      else purge_loop fuel c thread (u64 (index + 1))
    else Some c
  end.

(** Along one chain of the map. The link to the next entry is read before the
    entry may be removed, and no other entry is, so the chain is followed as
    it was at first. *)
Fixpoint free_chain (chain : list map_entry) (thread : Z) s : option (fx_sys S) :=
  match chain with
  | [] => Some s
  | entry :: next =>
    s ← (if e_value entry =? 0 then Some s
         else
           c ← fx_queues s !! e_value entry;
           c ← purge_loop (Datatypes.S (Z.to_nat (cow_size (cs_list c)))) c thread 0;
           drop_empty (with_queue s (e_value entry) c) (e_key entry) (e_value entry));
    free_chain next thread s
  end.

Definition futex_free s (thread : Z) : option (fx_sys S) :=
  if thread =? 0 then Some s
  else
    for_range 0 (m_capacity (fx_map s)) (fun bucket s =>
      chain ← zget (m_buckets (fx_map s)) bucket; free_chain chain thread s) s.

(** [thread->status = T_FUTEX; futex_add(...)] *)
Definition futex_wait_enter (malloc_ok calloc_ok : bool) s (phys_addr thread : Z) : option (fx_sys S) :=
  x ← fx_threads s !! thread;
  futex_add malloc_ok calloc_ok (with_tcb s thread (mkTcb T_FUTEX (t_futex_index x))) phys_addr thread.

(** One turn of the loop of a wait: the result of the call, or [None] when the
    thread yields. A context switch sets the status it tests to [T_RUNNING];
    it is not one of the steps of this component. *)
Definition futex_wait_turn s (phys_addr thread timeout_ns elapsed : Z) (signals : bool) : option (fx_sys S * option Z) :=
  x ← fx_threads s !! thread;
  if negb (t_status x =? T_FUTEX) then Some (s, Some 0)
  else if signals then '(s, _) ← futex_unblock s phys_addr thread; Some (s, Some (fault 4)) (* EINTR *)
  else if (timeout_ns >=? 0) && (elapsed >=? timeout_ns) then
    '(s, _) ← futex_unblock s phys_addr thread; Some (s, Some (fault 110))
  else Some (s, None).
End Code.
