(* ===== verification/FutexSpec.v ===== *)
(** * Futexes as lists of waiting threads

    [fx_ok s F]: the futexes of [s] are the finite map [F] from addresses to
    the threads that wait there, first come first; no list is empty. *)

From stdpp Require Import gmap.
From S2P Require Import Prelude Map Cow CowSpec CowProps Futex.

(** ** The scheduler *)

(** What futexes rely on: blocking takes a runnable thread away and waking
    brings a known one back; [runs s K R] says that of the threads [K] those
    in [R] are runnable. [sched_room] is about memory for the thread that is
    blocked. *)
Class Scheduler {S : Type} (block wake : S -> Z -> option S) := {
  runs : S -> gset Z -> gset Z -> Prop;
  sched_room : S -> Prop;
  runs_known : forall s K R, runs s K R -> R ⊆ K /\ (0 ∉ K) /\ Z.of_nat (size K) < 2 ^ 60;
  runs_det : forall s K R R', runs s K R -> runs s K R' -> R = R';
  block_runs : forall s K R t, runs s K R -> t ∈ R -> sched_room s -> exists s', block s t = Some s' /\ runs s' K (R ∖ {[t]});
  wake_runs : forall s K R t, runs s K R -> t ∈ K -> (t ∉ R) -> exists s', wake s t = Some s' /\ runs s' K (R ∪ {[t]});
}.

(** A list address that is new and not NULL. *)
Class ListAllocator (list_malloc : gmap Z cow_sys -> Z) : Prop :=
  list_fresh : forall g, list_malloc g <> 0 /\ g !! list_malloc g = None.

Section Rep.
Context {S : Type}.
Implicit Types (s : fx_sys S) (F : gmap Z (list Z)) (M : gmap Z Z).

(** ** Representation *)

Record fx_rep_of s M F : Prop := mkFr {
  fr_map : map_ok (fx_map s) M;
  fr_dom : forall k, is_Some (M !! k) <-> is_Some (F !! k);
  fr_list : forall k q L, M !! k = Some q -> F !! k = Some L -> q <> 0 /\ exists c, fx_queues s !! q = Some c /\ cow_rep c L;
  fr_inj : forall k k' q, M !! k = Some q -> M !! k' = Some q -> k = k';
  fr_used : forall q, is_Some (fx_queues s !! q) -> exists k, M !! k = Some q;
}.

Definition fx_rep s F : Prop := exists M, fx_rep_of s M F.

Definition fx_ok s F : Prop := fx_rep s F /\ forall k, F !! k <> Some [].

Lemma with_map_same s : with_map s (fx_map s) = s.
Proof. by destruct s. Qed.

(** Looking an address up. *)
Lemma get_list s M F k :
  fx_rep_of s M F -> map_get (fx_map s) k = Some (fx_map s, default 0 (M !! k)).
Proof. intros HR. apply map_get_spec, HR. Qed.

Lemma list_at s M F k L :
  fx_rep_of s M F -> F !! k = Some L -> exists q c, M !! k = Some q /\ q <> 0 /\ fx_queues s !! q = Some c /\ cow_rep c L.
Proof.
  intros HR HL. destruct (proj2 (fr_dom _ _ _ HR k)) as [q Hq]; [eauto|].
  destruct (fr_list _ _ _ HR k q L Hq HL) as (Hq0 & c & Hc & Hrep). eauto 10.
Qed.

(** Nothing but threads and the scheduler changed. *)
Lemma rep_ext s s' M F :
  fx_rep_of s M F -> fx_map s' = fx_map s -> fx_queues s' = fx_queues s -> fx_rep_of s' M F.
Proof. intros [] Hm Hq. split; rewrite ?Hm, ?Hq; done. Qed.

(** The list of one address changed. *)
Lemma rep_set s M F k q L L' c' :
  fx_rep_of s M F -> M !! k = Some q -> F !! k = Some L -> cow_rep c' L' -> fx_rep_of (with_queue s q c') M (<[k := L']> F).
Proof.
  intros HR Hk HL Hc. pose proof HR as [Hm Hd Hl Hi Hu]. split; try done.
  - intros k'. rewrite Hd. destruct (decide (k' = k)) as [->|]; [rewrite lookup_insert_eq, HL; by split; eauto|]. by rewrite lookup_insert_ne.
  - intros k' q' L0 Hq'. simpl. destruct (decide (k' = k)) as [->|Hne].
    + rewrite lookup_insert_eq. intros [= <-]. assert (q' = q) as -> by congruence.
      destruct (Hl k q L Hk HL) as [Hq0 _]. split; [done|]. exists c'. by rewrite lookup_insert_eq.
    + rewrite lookup_insert_ne by done. intros HL0. destruct (Hl _ _ _ Hq' HL0) as (? & c & Hc0 & ?). split; [done|].
      exists c. rewrite lookup_insert_ne; [done|]. intros <-. apply Hne. by eapply Hi.
  - intros q'. simpl. destruct (decide (q' = q)) as [->|]; [eauto|]. rewrite lookup_insert_ne by done. apply Hu.
Qed.

Lemma map_remove_capacity m k m' : map_remove m k = Some m' -> m_capacity m' = m_capacity m.
Proof.
  unfold map_remove. destruct (spin_lock (m_lock m)); [|done]. cbn [mbind option_bind]. unfold bucket_of. simpl.
  destruct (m_capacity m =? 0); [done|]. cbn [mbind option_bind]. destruct (zget (m_buckets m) _) as [chain|]; [|done]. cbn [mbind option_bind].
  destruct (chain_remove chain k) as [chain'|]; [|by intros [= <-]].
  destruct (zset (m_buckets m) _ chain'); [|done]. cbn [mbind option_bind]. by intros [= <-].
Qed.

(** The list is dropped when it is empty. *)
Lemma drop_spec s M F k q L :
  fx_rep_of s M F -> M !! k = Some q -> F !! k = Some L ->
  exists s' M', drop_empty s k q = Some s' /\ fx_rep_of s' M' (match L with [] => delete k F | _ => F end) /\
    fx_threads s' = fx_threads s /\ fx_sched s' = fx_sched s /\
    M' = (match L with [] => delete k M | _ => M end) /\ m_capacity (fx_map s') = m_capacity (fx_map s).
Proof.
  intros HR Hk HL. destruct (list_at _ _ _ _ _ HR HL) as (q' & c & Hk' & Hq0 & Hc & Hrep). assert (q' = q) as -> by congruence.
  pose proof HR as [Hm Hd Hl Hi Hu]. unfold drop_empty. rewrite Hc. cbn [mbind option_bind]. rewrite (cr_size _ _ Hrep).
  destruct L as [|t L].
  2: { pose proof (zlen_nonneg L). rewrite (proj2 (Z.eqb_neq _ _)) by (rewrite zlen_cons; lia). by exists s, M. }
  change (zlen (@nil Z) =? 0) with true. cbn iota.
  destruct (map_remove_spec _ _ k Hm) as (m & Em & Hm'). pose proof (map_remove_capacity _ _ _ Em) as Hch. rewrite Em. cbn [mbind option_bind].
  assert (exists h, cow_list_destroy c = Some h) as [h ->].
  { unfold cow_list_destroy. pose proof (cr_count _ _ Hrep) as Hb. change (zlen (@nil Z)) with 0 in Hb.
    rewrite for_range_empty by (change (bcount c <= 0); by rewrite Hb). eauto. }
  cbn [mbind option_bind]. eexists _, (delete k M). split; [done|]. split; [|by split_and!]. split; try done.
  - intros k'. destruct (decide (k' = k)) as [->|]; [rewrite !lookup_delete_eq; by split; intros []|]. by rewrite !lookup_delete_ne.
  - intros k' q' L0 [Hne Hq']%lookup_delete_Some [_ HL0]%lookup_delete_Some. destruct (Hl _ _ _ Hq' HL0) as (? & c0 & ? & ?).
    split; [done|]. exists c0. simpl. rewrite lookup_delete_ne; [done|]. intros <-. apply Hne. by eapply Hi.
  - intros k1 k2 q' [_ H1]%lookup_delete_Some [_ H2]%lookup_delete_Some. by eapply Hi.
  - intros q' [c0 Hc0]. simpl in Hc0. apply lookup_delete_Some in Hc0 as [Hne Hc0]. destruct (Hu q') as [k' Hk2]; [eauto|].
    exists k'. rewrite lookup_delete_ne; [done|]. congruence.
Qed.
End Rep.
