(* ===== verification/FutexOps.v ===== *)
(** * Futexes: what the operations do to the waiting threads *)

From stdpp Require Import gmap.
From S2P Require Import Prelude Map Cow CowSpec CowProps Futex FutexSpec.

Section Ops.
Context {S : Type} {block wake : S -> Z -> option S} {HS : Scheduler block wake}.
Context (malloc : gmap Z cow_block -> Z) {HA : BlockAllocator malloc}.

Implicit Types (s : fx_sys S) (F : gmap Z (list Z)) (M : gmap Z Z) (K R : gset Z).

Lemma with_queue_same s q c : fx_queues s !! q = Some c -> with_queue s q c = s.
Proof. intros Hc. destruct s. unfold with_queue. simpl in *. by rewrite insert_id. Qed.

(** ** Starting a thread *)

Lemma start_spec s K R t x :
  runs (fx_sched s) K R -> t ∈ K -> (t ∉ R) -> fx_threads s !! t = Some x ->
  exists s', start_task wake s t = Some s' /\ fx_map s' = fx_map s /\ fx_queues s' = fx_queues s /\
    fx_threads s' = <[t := mkTcb T_START (t_futex_index x)]> (fx_threads s) /\ runs (fx_sched s') K (R ∪ {[t]}).
Proof.
  intros Hr Hk Hn Hx. unfold start_task. rewrite Hx. cbn [mbind option_bind].
  destruct (wake_runs _ _ _ t Hr Hk Hn) as (b & Eb & Hr'). cbn [with_tcb fx_sched]. rewrite Eb. cbn [mbind option_bind].
  eexists. split; [done|]. done.
Qed.

(** ** [futex_wake] *)

(** The threads of a list can be woken. *)
Definition wakeable s K R (L : list Z) : Prop :=
  NoDup L /\ forall t, t ∈ L -> t ∈ K /\ (t ∉ R) /\ is_Some (fx_threads s !! t).

(** Threads [ts] were started, the others are as they were. *)
Definition started s s' (ts : list Z) : Prop :=
  (forall t, t ∈ ts -> exists x y, fx_threads s !! t = Some x /\ fx_threads s' !! t = Some y /\ t_status y = T_START) /\
  (forall t, t ∉ ts -> fx_threads s' !! t = fx_threads s !! t).

Lemma wake_loop_spec M k q count fuel L : forall s F K R woken,
  fx_rep_of s M F -> M !! k = Some q -> F !! k = Some L -> runs (fx_sched s) K R -> wakeable s K R L ->
  0 <= woken -> count < two31 -> (length L < fuel)%nat ->
  let n := Nat.min (Z.to_nat (count - woken)) (length L) in
  exists s', wake_loop wake malloc fuel s q count 0 woken = Some (s', woken + Z.of_nat n) /\
    fx_rep_of s' M (<[k := drop n L]> F) /\ runs (fx_sched s') K (R ∪ list_to_set (take n L)) /\ started s s' (take n L).
Proof.
  revert fuel. induction L as [|t L IH]; intros fuel s F K R woken HF Hk HLk Hr [N Hw] Hw0 Hc Hf n;
    (destruct fuel as [|fuel]; [simpl in Hf; lia|]); destruct (list_at _ _ _ _ _ HF HLk) as (q' & c & Hq & Hq0 & Hcq & Hrep);
    assert (q' = q) as -> by congruence; cbn [wake_loop]; rewrite Hcq; cbn [mbind option_bind]; rewrite (cr_size _ _ Hrep).
  { exists s. subst n. simpl. rewrite Nat.min_0_r. change (zlen (@nil Z)) with 0. simpl. rewrite Z.add_0_r. split; [done|].
    rewrite insert_id by done. split; [done|]. split; [by rewrite union_empty_r_L|]. split; [set_solver|done]. }
  assert ((0 <? zlen (t :: L)) = true) as -> by (rewrite zlen_cons; pose proof (zlen_nonneg L); lia). cbn [andb].
  destruct (Z.ltb_spec woken count) as [Hlt|Hge].
  2: { exists s. subst n. replace (Z.to_nat (count - woken)) with 0%nat by lia. simpl. rewrite Z.add_0_r. split; [done|].
       rewrite insert_id by done. split; [done|]. split; [by rewrite union_empty_r_L|]. split; [set_solver|done]. }
  rewrite (get_spec _ _ 0 Hrep) by lia. cbn [mbind option_bind]. rewrite zget_cons_0. change (default 0 (Some t)) with t.
  rewrite with_queue_same by done. destruct (Hw t) as (HtK & HtR & [x Hx]); [set_solver|].
  destruct (runs_known _ _ _ Hr) as (_ & H0 & _). assert (t <> 0) as Ht0 by congruence. apply Z.eqb_neq in Ht0 as ->.
  destruct (remove_spec malloc c (t :: L) 0 Hrep) as (c' & -> & Hrep'); [lia|]. cbn [mbind option_bind]. simpl in Hrep'.
  destruct (start_spec (with_queue s q c') K R t x Hr HtK HtR Hx) as (s1 & -> & Hm1 & Hq1 & Ht1 & Hr1). cbn [mbind option_bind].
  assert (fx_rep_of s1 M (<[k := L]> F)) as HF1 by (eapply rep_ext; [by eapply rep_set|done..]).
  apply NoDup_cons in N as [Nt N]. rewrite i32_id by lia.
  assert (forall m, t ∉ take m L) as Ntake by (intros m (i & Hi & _)%elem_of_take; apply Nt; by eapply list_elem_of_lookup_2).
  destruct (IH fuel s1 (<[k := L]> F) K (R ∪ {[t]}) (woken + 1) HF1 Hk) as (s' & E' & HF' & Hr' & Hst & Hot);
    [by rewrite lookup_insert_eq|done| |lia|done|simpl in Hf; lia|].
  { split; [done|]. intros u Hu. destruct (Hw u) as (? & ? & ?); [set_solver|]. split; [done|]. split; [set_solver|].
    rewrite Ht1. simpl. rewrite lookup_insert_ne by congruence. done. }
  exists s'. assert (n = Datatypes.S (Nat.min (Z.to_nat (count - (woken + 1))) (length L))) as ->.
  { subst n. replace (Z.to_nat (count - woken)) with (Datatypes.S (Z.to_nat (count - (woken + 1)))) by lia. done. }
  set (n := Nat.min _ _) in *. split; [rewrite E'; do 2 f_equal; lia|]. split; [by rewrite insert_insert_eq in HF'|]. simpl. split.
  - by rewrite (union_assoc_L R).
  - split.
    + intros u [->|Hu]%elem_of_cons.
      * exists x, (mkTcb T_START (t_futex_index x)). rewrite Hot by apply Ntake. rewrite Ht1. simpl. by rewrite lookup_insert_eq.
      * destruct (Hst u Hu) as (x1 & y & Hx1 & Hy & Hy1). rewrite Ht1 in Hx1. simpl in Hx1.
        rewrite lookup_insert_ne in Hx1; [eauto 10|]. intros <-. by eapply Ntake.
    + intros u Hu. apply not_elem_of_cons in Hu as [Hne Hu]. rewrite Hot by done. rewrite Ht1. simpl. by rewrite lookup_insert_ne.
Qed.

(** What is left of a list; an empty one is dropped. *)
Definition left_over F (k : Z) (L : list Z) : gmap Z (list Z) := match L with [] => delete k F | _ => <[k := L]> F end.

Lemma left_over_ok F k L : (forall k, F !! k <> Some []) -> forall k', left_over F k L !! k' <> Some [].
Proof.
  intros HF k'. destruct L as [|t L]; simpl.
  - intros [_ H]%lookup_delete_Some. by apply (HF k').
  - destruct (decide (k' = k)) as [->|]; [by rewrite lookup_insert_eq|]. rewrite lookup_insert_ne by done. apply HF.
Qed.

Lemma finish_spec s M F k q L :
  fx_rep_of s M (<[k := L]> F) -> M !! k = Some q -> (forall k, F !! k <> Some []) ->
  exists s', drop_empty s k q = Some s' /\ fx_ok s' (left_over F k L) /\ fx_threads s' = fx_threads s /\ fx_sched s' = fx_sched s.
Proof.
  intros HF Hk Hne. destruct (drop_spec s M _ k q L HF Hk) as (s' & M' & E' & HF' & Ht & Hs & _); [by rewrite lookup_insert_eq|].
  exists s'. split; [done|]. split; [|done]. split; [|by apply left_over_ok]. exists M'.
  destruct L; simpl; [by rewrite delete_insert_eq in HF'|done].
Qed.

Lemma wake_fx s F K R k count L :
  fx_ok s F -> F !! k = Some L -> runs (fx_sched s) K R -> wakeable s K R L -> 0 < count < two31 ->
  let n := Nat.min (Z.to_nat count) (length L) in
  exists s', futex_wake wake malloc s k count = Some (s', Z.of_nat n) /\ fx_ok s' (left_over F k (drop n L)) /\
    runs (fx_sched s') K (R ∪ list_to_set (take n L)) /\ started s s' (take n L).
Proof.
  intros [[M HF] Hne] HLk Hr Hw Hc n. destruct (list_at _ _ _ _ _ HF HLk) as (q & c & Hq & Hq0 & Hcq & Hrep).
  unfold futex_wake. rewrite (get_list _ _ _ k HF), Hq. cbn [mbind option_bind]. change (default 0 (Some q)) with q. rewrite with_map_same.
  rewrite (proj2 (Z.eqb_neq _ _) Hq0). destruct (Z.leb_spec count 0); [lia|]. cbn [orb]. rewrite Hcq. cbn [mbind option_bind].
  rewrite (cr_size _ _ Hrep).
  destruct (wake_loop_spec M k q count (Datatypes.S (Z.to_nat (zlen L))) L s F K R 0 HF Hq HLk Hr Hw) as (s1 & -> & HF1 & Hr1 & Hst); [lia..| |].
  { unfold zlen. rewrite Nat2Z.id. lia. }
  rewrite Z.sub_0_r in HF1, Hr1, Hst. rewrite Z.sub_0_r. fold n in HF1, Hr1, Hst |- *. cbn [mbind option_bind].
  destruct (finish_spec s1 M F k q _ HF1 Hq Hne) as (s2 & -> & HF2 & Ht2 & Hs2). cbn [mbind option_bind].
  exists s2. split; [by rewrite Z.add_0_l|]. split; [done|]. rewrite Hs2. split; [done|]. unfold started in *. by rewrite Ht2.
Qed.

Lemma wake_none s F k count : fx_ok s F -> F !! k = None \/ count <= 0 -> futex_wake wake malloc s k count = Some (s, 0).
Proof.
  intros [[M HF] Hne] Hn. unfold futex_wake. rewrite (get_list _ _ _ k HF). cbn [mbind option_bind]. rewrite with_map_same.
  destruct Hn as [Hn|Hn].
  - assert (M !! k = None) as ->; [|done]. apply eq_None_not_Some. intros Hs%(fr_dom _ _ _ HF). rewrite Hn in Hs. by destruct Hs.
  - destruct (Z.leb_spec count 0); [|lia]. by rewrite orb_true_r.
Qed.

(** ** [futex_unblock] *)

Lemma zget_mid (A B : list Z) (t : Z) : zget (A ++ t :: B) (zlen A) = Some t.
Proof. rewrite zget_app_r by lia. by rewrite Z.sub_diag, zget_cons_0. Qed.

Lemma unblock_skip M k q t C s F B : forall A fuel,
  fx_rep_of s M F -> M !! k = Some q -> F !! k = Some (A ++ B ++ C) -> (t ∉ B) ->
  unblock_loop wake malloc (length B + fuel) s k q t (zlen A) = unblock_loop wake malloc fuel s k q t (zlen (A ++ B)).
Proof.
  induction B as [|u B IH]; intros A fuel HF Hk HLk Ht; [by rewrite app_nil_r|].
  destruct (list_at _ _ _ _ _ HF HLk) as (q' & c & Hq & Hq0 & Hcq & Hrep). assert (q' = q) as -> by congruence.
  cbn [Nat.add length unblock_loop]. rewrite Hcq. cbn [mbind option_bind]. rewrite (cr_size _ _ Hrep).
  pose proof (zlen_nonneg A). pose proof (zlen_nonneg (B ++ C)). pose proof (cr_small _ _ Hrep) as Hsm. rewrite zlen_app in Hsm. simpl in Hsm. rewrite zlen_cons in Hsm.
  assert ((zlen A <? zlen (A ++ (u :: B) ++ C)) = true) as -> by (rewrite zlen_app; simpl; rewrite zlen_cons; lia).
  rewrite (get_spec _ _ (zlen A) Hrep) by done. cbn [mbind option_bind]. simpl app. rewrite zget_mid. change (default 0 (Some u)) with u.
  rewrite with_queue_same by done. rewrite (proj2 (Z.eqb_neq u t)) by set_solver. cbn [negb].
  rewrite u64_id by lia. replace (zlen A + 1) with (zlen (A ++ [u])) by (rewrite zlen_app; done).
  rewrite (IH (A ++ [u]) fuel HF Hk); [by rewrite <- app_assoc|by rewrite <- app_assoc|set_solver].
Qed.

Lemma unblock_fx s F K R k t A B x :
  fx_ok s F -> F !! k = Some (A ++ t :: B) -> (t ∉ A) -> runs (fx_sched s) K R -> t ∈ K -> (t ∉ R) -> fx_threads s !! t = Some x ->
  exists s' y, futex_unblock wake malloc s k t = Some (s', true) /\ fx_ok s' (left_over F k (A ++ B)) /\
    runs (fx_sched s') K (if t_status x =? T_FUTEX then R ∪ {[t]} else R) /\
    fx_threads s' = <[t := y]> (fx_threads s) /\ t_status y = (if t_status x =? T_FUTEX then T_START else t_status x).
Proof.
  intros [[M HF] Hne] HLk HtA Hr HtK HtR Hx. destruct (list_at _ _ _ _ _ HF HLk) as (q & c & Hq & Hq0 & Hcq & Hrep).
  destruct (runs_known _ _ _ Hr) as (_ & H0 & _). assert (t <> 0) as Ht0 by congruence.
  unfold futex_unblock. rewrite (get_list _ _ _ k HF), Hq. cbn [mbind option_bind]. change (default 0 (Some q)) with q. rewrite with_map_same.
  rewrite (proj2 (Z.eqb_neq _ _) Hq0), (proj2 (Z.eqb_neq _ _) Ht0). cbn [orb]. rewrite Hcq. cbn [mbind option_bind].
  rewrite (cr_size _ _ Hrep). pose proof (zlen_nonneg A) as HzA. pose proof (zlen_nonneg B) as HzB.
  replace (Datatypes.S (Z.to_nat (zlen (A ++ t :: B)))) with (length A + Datatypes.S (Datatypes.S (length B)))%nat
    by (unfold zlen; rewrite Nat2Z.id, length_app; simpl; lia).
  change 0 with (zlen (@nil Z)) at 1. rewrite (unblock_skip M k q t (t :: B) s F A [] _ HF Hq); [|done|done]. simpl app.
  cbn [unblock_loop]. rewrite Hcq. cbn [mbind option_bind]. rewrite (cr_size _ _ Hrep).
  assert ((zlen A <? zlen (A ++ t :: B)) = true) as -> by (rewrite zlen_app, zlen_cons; lia).
  rewrite (get_spec _ _ (zlen A) Hrep) by done. cbn [mbind option_bind]. rewrite zget_mid. change (default 0 (Some t)) with t.
  rewrite with_queue_same by done. rewrite Z.eqb_refl. cbn [negb].
  destruct (remove_spec malloc c _ (zlen A) Hrep HzA) as (c' & -> & Hrep'). cbn [mbind option_bind].
  unfold zlen in Hrep' at 1. rewrite Nat2Z.id, delete_middle in Hrep'.
  pose proof (rep_set _ _ _ _ _ _ _ _ HF Hq HLk Hrep') as HF1. change (fx_threads (with_queue s q c')) with (fx_threads s). rewrite Hx. cbn [mbind option_bind].
  destruct (t_status x =? T_FUTEX).
  - destruct (start_spec (with_queue s q c') K R t x Hr HtK HtR Hx) as (s1 & -> & Hm1 & Hq1 & Ht1 & Hr1). cbn [mbind option_bind].
    pose proof (rep_ext _ s1 _ _ HF1 Hm1 Hq1) as HF2.
    destruct (finish_spec s1 M F k q _ HF2 Hq Hne) as (s2 & -> & HF3 & Ht2 & Hs2). cbn [mbind option_bind].
    eexists s2, _. split; [done|]. split; [done|]. rewrite Hs2. split; [done|]. rewrite Ht2, Ht1. done.
  - cbn [mbind option_bind]. destruct (finish_spec _ M F k q _ HF1 Hq Hne) as (s2 & -> & HF3 & Ht2 & Hs2). cbn [mbind option_bind].
    exists s2, x. split; [done|]. split; [done|]. rewrite Hs2. split; [done|]. rewrite Ht2. simpl. by rewrite insert_id.
Qed.

Lemma unblock_none s F k t :
  fx_ok s F -> (forall L, F !! k = Some L -> t ∉ L) -> futex_unblock wake malloc s k t = Some (s, false).
Proof.
  intros [[M HF] Hne] Hn. unfold futex_unblock. rewrite (get_list _ _ _ k HF). cbn [mbind option_bind]. rewrite with_map_same.
  destruct (F !! k) as [L|] eqn:HLk.
  - destruct (list_at _ _ _ _ _ HF HLk) as (q & c & Hq & Hq0 & Hcq & Hrep). rewrite Hq. change (default 0 (Some q)) with q.
    case_if; [done|]. rewrite Hcq. cbn [mbind option_bind]. rewrite (cr_size _ _ Hrep).
    replace (Datatypes.S (Z.to_nat (zlen L))) with (length L + 1)%nat by (unfold zlen; rewrite Nat2Z.id; lia).
    change 0 with (zlen (@nil Z)) at 1.
    rewrite (unblock_skip M k q t [] s F L [] _ HF Hq); [|by rewrite app_nil_r|by apply Hn]. cbn [unblock_loop app].
    rewrite Hcq. cbn [mbind option_bind]. rewrite (cr_size _ _ Hrep). by rewrite Z.ltb_irrefl.
  - assert (M !! k = None) as ->; [|done]. apply eq_None_not_Some. intros Hs%(fr_dom _ _ _ HF). rewrite HLk in Hs. by destruct Hs.
Qed.
(** ** [futex_add] *)

Context (realloc : list Z -> Z -> option (list Z)) (list_malloc : gmap Z cow_sys -> Z).
Context {HR : Reallocator realloc} {HL : ListAllocator list_malloc}.

(** There is room for one more address and one more thread. *)
Definition fx_room s : Prop :=
  2 * m_capacity (fx_map s) < two63 /\ m_size (fx_map s) < two63 /\
  forall q c, fx_queues s !! q = Some c -> blocks_capacity (cs_list c) < 2 ^ 59 /\ cow_size (cs_list c) < 2 ^ 62 - 1.

Lemma queue_spec b s M F k :
  fx_rep_of s M F -> fx_room s ->
  exists s' M' q c, futex_queue list_malloc true b s k = Some (s', q) /\ fx_rep_of s' M' (<[k := default [] (F !! k)]> F) /\
    M' !! k = Some q /\ fx_queues s' !! q = Some c /\ blocks_capacity (cs_list c) < 2 ^ 59 /\ cow_size (cs_list c) < 2 ^ 62 - 1 /\
    fx_threads s' = fx_threads s /\ fx_sched s' = fx_sched s.
Proof.
  intros HF (Hcap & Hsz & Hroom). unfold futex_queue. rewrite (get_list _ _ _ k HF). cbn [mbind option_bind]. rewrite with_map_same.
  destruct (F !! k) as [L|] eqn:HLk.
  - destruct (list_at _ _ _ _ _ HF HLk) as (q & c & Hq & Hq0 & Hcq & Hrep). rewrite Hq. change (default 0 (Some q)) with q.
    rewrite (proj2 (Z.eqb_neq _ _) Hq0). destruct (Hroom q c Hcq). exists s, M, q, c. rewrite insert_id by done. by split_and!.
  - assert (M !! k = None) as HMk.
    { apply eq_None_not_Some. intros Hs%(fr_dom _ _ _ HF). rewrite HLk in Hs. by destruct Hs. }
    rewrite HMk. change (default 0 None =? 0) with true. cbn iota.
    destruct (cow_create_spec ∅) as (l & El & Hl). rewrite El. cbn [mbind option_bind].
    destruct (list_fresh (fx_queues s)) as [Hq0 Hqn]. set (q := list_malloc (fx_queues s)) in *.
    destruct (map_set_spec b _ _ k q (fr_map _ _ _ HF) Hcap) as (m & -> & Hm & _); [by rewrite <- (mo_size _ _ (fr_map _ _ _ HF))|].
    cbn [mbind option_bind]. rewrite (proj2 (Z.eqb_neq _ _) Hq0). pose proof HF as [_ Hd Hls Hi Hu].
    assert (forall k' q', M !! k' = Some q' -> q' <> q) as Hnew.
    { intros k' q' Hk' ->. destruct (proj1 (Hd k') (ex_intro _ _ Hk')) as [L' HL'].
      destruct (Hls _ _ _ Hk' HL') as (_ & c & Hc & _). congruence. }
    eexists _, (<[k := q]> M), q, (mkCs l ∅). split; [done|]. split.
    + split; try done.
      * intros k'. destruct (decide (k' = k)) as [->|]; [rewrite !lookup_insert_eq; by split; eauto|]. by rewrite !lookup_insert_ne.
      * intros k' q' L'. simpl. destruct (decide (k' = k)) as [->|].
        -- rewrite !lookup_insert_eq. intros [= <-] [= <-]. split; [done|]. exists (mkCs l ∅). by rewrite lookup_insert_eq.
        -- rewrite !lookup_insert_ne by done. intros Hk' HL'. destruct (Hls _ _ _ Hk' HL') as (? & c & ? & ?). split; [done|].
           exists c. rewrite lookup_insert_ne; [done|]. apply not_eq_sym. by eapply Hnew.
      * intros k1 k2 q' [[<- <-]|[H1 Hk1]]%lookup_insert_Some [[<- H2]|[H2 Hk2]]%lookup_insert_Some; try done;
          [by destruct (Hnew _ _ Hk2)|subst; by destruct (Hnew _ _ Hk1)|by eapply Hi].
      * intros q'. simpl. destruct (decide (q' = q)) as [->|]; [intros _; exists k; apply lookup_insert_eq|].
        rewrite lookup_insert_ne by done. intros [k' Hk']%Hu. exists k'. rewrite lookup_insert_ne; congruence.
    + simpl. rewrite !lookup_insert_eq. split; [done|]. split; [done|]. injection El as <-. done.
Qed.

Lemma add_fx b s F K R k t x :
  fx_ok s F -> fx_room s -> runs (fx_sched s) K R -> sched_room (fx_sched s) -> t ∈ R -> fx_threads s !! t = Some x ->
  exists s' y, futex_add block malloc realloc list_malloc true b s k t = Some s' /\
    fx_ok s' (<[k := default [] (F !! k) ++ [t]]> F) /\ runs (fx_sched s') K (R ∖ {[t]}) /\
    fx_threads s' = <[t := y]> (fx_threads s) /\ t_status y = t_status x.
Proof.
  intros [[M HF] Hne] Hroom Hr Hsr HtR Hx. destruct (queue_spec b s M F k HF Hroom) as (s1 & M1 & q & c & E1 & HF1 & Hq & Hc & Hcap & Hsz & Ht1 & Hs1).
  unfold futex_add. rewrite E1. cbn [mbind option_bind]. rewrite Hc. cbn [mbind option_bind].
  destruct (list_at _ _ _ _ _ HF1 (lookup_insert_eq _ _ _)) as (q' & c' & Hq' & Hq0 & Hc' & Hrep).
  assert (q' = q) as -> by congruence. assert (c' = c) as -> by congruence. rewrite (cr_size _ _ Hrep) in Hsz.
  destruct (add_spec malloc realloc c _ t Hrep Hcap Hsz) as (c' & -> & Hrep'). cbn [mbind option_bind]. rewrite Ht1, Hx. cbn [mbind option_bind].
  destruct (block_runs _ _ _ t Hr HtR Hsr) as (b' & Eb & Hr'). cbn [with_tcb with_queue fx_sched]. rewrite Hs1, Eb. cbn [mbind option_bind].
  eexists _, (mkTcb (t_status x) (zlen (default [] (F !! k)))). split; [done|]. split; [|simpl; by rewrite Ht1].
  split.
  - exists M1. apply (rep_ext (with_queue s1 q c')); [|done..].
    assert (fx_rep_of (with_queue s1 q c') M1 (<[k := default [] (F !! k) ++ [t]]> (<[k := default [] (F !! k)]> F))) as HF2.
    { eapply rep_set; [done|done|apply lookup_insert_eq|done]. }
    by rewrite insert_insert_eq in HF2.
  - intros k'. destruct (decide (k' = k)) as [->|]; [rewrite lookup_insert_eq; by destruct (default [] (F !! k))|].
    rewrite lookup_insert_ne by done. apply Hne.
Qed.
End Ops.

(** * [futex_free]: a thread leaves every list *)

Section Free.
Context {S : Type}.
Context (malloc : gmap Z cow_block -> Z) {HA : BlockAllocator malloc}.

Implicit Types (s : fx_sys S) (F : gmap Z (list Z)) (M : gmap Z Z).

(** A list without the thread [t], and the map of all lists without it. *)
Definition without (t : Z) (L : list Z) : list Z := filter (fun x => x <> t) L.
Definition purged (t : Z) (L : list Z) : option (list Z) := match without t L with [] => None | L' => Some L' end.

Lemma purge_loop_spec t L : forall c A fuel,
  cow_rep c (A ++ L) -> (length L < fuel)%nat -> exists c', purge_loop malloc fuel c t (zlen A) = Some c' /\ cow_rep c' (A ++ without t L).
Proof.
  induction L as [|u L IH]; intros c A fuel Hrep Hf; (destruct fuel as [|fuel]; [simpl in Hf; lia|]); cbn [purge_loop]; rewrite (cr_size _ _ Hrep).
  - rewrite app_nil_r, Z.ltb_irrefl. exists c. split; [done|]. by rewrite app_nil_r in *.
  - pose proof (zlen_nonneg A) as HzA. pose proof (zlen_nonneg L). pose proof (cr_small _ _ Hrep) as Hsm. rewrite zlen_app, zlen_cons in Hsm.
    assert ((zlen A <? zlen (A ++ u :: L)) = true) as -> by (rewrite zlen_app, zlen_cons; lia).
    rewrite (get_spec _ _ (zlen A) Hrep) by done. cbn [mbind option_bind]. rewrite zget_mid. change (default 0 (Some u)) with u. simpl in Hf.
    unfold without. rewrite filter_cons. destruct (Z.eqb_spec u t) as [->|Hne].
    + rewrite decide_False by congruence. destruct (remove_spec malloc c _ (zlen A) Hrep HzA) as (c' & -> & Hrep'). cbn [mbind option_bind].
      unfold zlen in Hrep' at 1. rewrite Nat2Z.id, delete_middle in Hrep'. apply IH; [done|lia].
    + rewrite decide_True by done. rewrite u64_id by lia. replace (zlen A + 1) with (zlen (A ++ [u])) by (rewrite zlen_app; done).
      destruct (IH c (A ++ [u]) fuel) as (c' & -> & Hrep'); [by rewrite <- app_assoc|lia|]. exists c'. split; [done|]. by rewrite <- app_assoc in Hrep'.
Qed.

(** The map after the entries of [ks] have been looked at. *)
Definition purge_keys (t : Z) (ks : list Z) F : gmap Z (list Z) := map_imap (fun k L => if bool_decide (k ∈ ks) then purged t L else Some L) F.

Lemma purge_keys_lookup t ks F k : purge_keys t ks F !! k = (L ← F !! k; if bool_decide (k ∈ ks) then purged t L else Some L).
Proof. apply map_lookup_imap. Qed.

Lemma purge_keys_nil t F : purge_keys t [] F = F.
Proof. apply map_eq. intros k. rewrite purge_keys_lookup. rewrite bool_decide_eq_false_2 by set_solver. by destruct (F !! k). Qed.

Lemma purge_keys_cons t k ks F L :
  F !! k = Some L -> (k ∉ ks) -> purge_keys t ks (left_over F k (without t L)) = purge_keys t (k :: ks) F.
Proof.
  intros HL Hk. apply map_eq. intros k'. rewrite !purge_keys_lookup. unfold left_over, purged. destruct (decide (k' = k)) as [->|Hne].
  - rewrite HL. simpl. rewrite (bool_decide_eq_true_2 (k ∈ k :: ks)) by set_solver. destruct (without t L) eqn:E.
    + by rewrite lookup_delete_eq.
    + rewrite lookup_insert_eq. simpl. by rewrite bool_decide_eq_false_2.
  - assert (bool_decide (k' ∈ k :: ks) = bool_decide (k' ∈ ks)) as -> by (apply bool_decide_ext; set_solver).
    by destruct (without t L); rewrite ?lookup_delete_ne, ?lookup_insert_ne by done.
Qed.

(** Only the lists and the map change. *)
Definition same_tasks s s' : Prop := fx_threads s' = fx_threads s /\ fx_sched s' = fx_sched s.

Lemma free_chain_spec t chain : forall s M F,
  fx_rep_of s M F -> (forall k, F !! k <> Some []) -> NoDup (e_key <$> chain) ->
  (forall e, e ∈ chain -> M !! e_key e = Some (e_value e)) ->
  exists s' M', free_chain malloc chain t s = Some s' /\ fx_rep_of s' M' (purge_keys t (e_key <$> chain) F) /\
    (forall k, purge_keys t (e_key <$> chain) F !! k <> Some []) /\ same_tasks s s' /\
    m_capacity (fx_map s') = m_capacity (fx_map s) /\
    (forall k, k ∉ e_key <$> chain -> M' !! k = M !! k).
Proof.
  induction chain as [|e chain IH]; intros s M F HF Hne N Hin; cbn [free_chain].
  { exists s, M. simpl. rewrite purge_keys_nil. by split_and!. }
  assert (M !! e_key e = Some (e_value e)) as Hk by (apply Hin; set_solver). rewrite fmap_cons in *. apply NoDup_cons in N as [Ne N].
  destruct (proj1 (fr_dom _ _ _ HF (e_key e)) (ex_intro _ _ Hk)) as [L HL].
  destruct (fr_list _ _ _ HF _ _ _ Hk HL) as (Hq0 & c & Hc & Hrep). rewrite (proj2 (Z.eqb_neq _ _) Hq0). rewrite Hc. cbn [mbind option_bind].
  rewrite (cr_size _ _ Hrep).
  destruct (purge_loop_spec t L c [] (Datatypes.S (Z.to_nat (zlen L))) Hrep) as (c' & Ec & Hrep'); [unfold zlen; rewrite Nat2Z.id; lia|].
  change (zlen (@nil Z)) with 0 in Ec. rewrite Ec. cbn [mbind option_bind]. simpl in Hrep'.
  pose proof (rep_set _ _ _ _ _ _ _ _ HF Hk HL Hrep') as HF1.
  destruct (drop_spec _ M _ _ _ _ HF1 Hk (lookup_insert_eq _ _ _)) as (s1 & M1 & -> & HF2 & Ht1 & Hs1 & HM1 & Hcap1). cbn [mbind option_bind].
  assert (fx_rep_of s1 M1 (left_over F (e_key e) (without t L))) as HF3.
  { unfold left_over. destruct (without t L); [by rewrite delete_insert_eq in HF2|done]. }
  destruct (IH s1 M1 _ HF3) as (s2 & M2 & E2 & HF4 & Hne4 & [Ht2 Hs2] & Hcap2 & HM2).
  { by apply left_over_ok. } { done. }
  { intros e' He'. assert (M !! e_key e' = Some (e_value e')) as Hk' by (apply Hin; set_solver).
    assert (e_key e' <> e_key e) by (intros E; apply Ne; rewrite <- E; by apply list_elem_of_fmap_2).
    rewrite HM1. destruct (without t L); [by rewrite lookup_delete_ne|done]. }
  exists s2, M2. rewrite (purge_keys_cons t _ _ F L HL Ne) in HF4, Hne4. split_and!; try done.
  - split; [by rewrite Ht2, Ht1|by rewrite Hs2, Hs1].
  - by rewrite Hcap2, Hcap1.
  - intros k Hk'. rewrite HM2 by set_solver. rewrite HM1. destruct (without t L); [rewrite lookup_delete_ne; set_solver|done].
Qed.

(** ** All chains *)

(** The map after the chains below [i] have been looked at. *)
Definition purge_below (t c i : Z) F : gmap Z (list Z) := map_imap (fun k L => if hash_ptr k mod c <? i then purged t L else Some L) F.

Lemma purge_below_step t c i F ks :
  (forall k, is_Some (purge_below t c i F !! k) -> k ∈ ks <-> hash_ptr k mod c = i) -> purge_keys t ks (purge_below t c i F) = purge_below t c (i + 1) F.
Proof.
  intros Hks. apply map_eq. intros k. rewrite purge_keys_lookup. specialize (Hks k). unfold purge_below in *. rewrite !map_lookup_imap in *.
  destruct (F !! k) as [L|]; [|done]. simpl in *. destruct (Z.ltb_spec (hash_ptr k mod c) i) as [Hlt|Hge].
  - assert ((hash_ptr k mod c <? i + 1) = true) as -> by lia. destruct (purged t L) as [L'|]; [|done]. simpl.
    rewrite bool_decide_eq_false_2; [done|]. rewrite Hks by eauto. lia.
  - simpl. destruct (bool_decide_reflect (k ∈ ks)) as [Hin|Hout]; rewrite Hks in * by eauto.
    + by assert ((hash_ptr k mod c <? i + 1) = true) as -> by lia.
    + by assert ((hash_ptr k mod c <? i + 1) = false) as -> by lia.
Qed.

Lemma chain_entries m M i chain :
  map_ok m M -> zget (m_buckets m) i = Some chain ->
  NoDup (e_key <$> chain) /\ (forall e, e ∈ chain -> M !! e_key e = Some (e_value e)) /\
  (forall k, is_Some (M !! k) -> k ∈ e_key <$> chain <-> hash_ptr k mod m_capacity m = i).
Proof.
  intros [_ Hcap Ht _ _] Hch. pose proof Ht as [Hlen Hpl N HM]. destruct (concat_split _ _ _ Hch) as (X & Y & HX & _).
  assert (NoDup (e_key <$> chain)) as Nc.
  { rewrite HX, concat_app in N. simpl in N. rewrite !fmap_app in N. apply NoDup_app in N as (_ & _ & [N _]%NoDup_app). done. }
  assert (forall e, e ∈ chain -> M !! e_key e = Some (e_value e)) as He.
  { intros e Hin. rewrite HM. apply elem_of_list_to_map_1; [by rewrite <- list_fmap_compose|].
    apply list_elem_of_fmap. exists e. split; [done|]. rewrite HX, concat_app. simpl. set_solver. }
  split; [done|]. split; [done|]. intros k Hk. split.
  - intros (e & -> & Hin)%list_elem_of_fmap. by eapply Hpl.
  - intros Hi. destruct (table_lookup _ _ _ k chain Ht) as [Hg _]; [lia|by rewrite Hi|]. rewrite Hg in Hk. clear - Hk.
    induction chain as [|e chain IH]; simpl in Hk; [by destruct Hk|]. simpl. destruct (Z.eqb_spec (e_key e) k) as [->|]; set_solver.
Qed.

(** The lists without the thread, those that held nothing else dropped. *)
Lemma free_fx s F t :
  fx_ok s F -> t <> 0 ->
  exists s', futex_free malloc s t = Some s' /\ fx_ok s' (omap (purged t) F) /\ same_tasks s s'.
Proof.
  intros [[M HF] Hne] Ht0. unfold futex_free. rewrite (proj2 (Z.eqb_neq _ _) Ht0). set (c := m_capacity (fx_map s)).
  assert (0 < c < two63) as Hc by apply (mo_cap _ _ (fr_map _ _ _ HF)).
  destruct (for_range_inv (fun i s' => exists M', fx_rep_of s' M' (purge_below t c i F) /\ (forall k, purge_below t c i F !! k <> Some []) /\
      same_tasks s s' /\ m_capacity (fx_map s') = c) 0 c
    (fun bucket s => chain ← zget (m_buckets (fx_map s)) bucket; free_chain malloc chain t s) s) as (s' & E' & M' & HF' & Hne' & Hst & _).
  - lia.
  - exists M. assert (purge_below t c 0 F = F) as ->; [|by split_and!]. apply map_eq. intros k. unfold purge_below. rewrite map_lookup_imap.
    destruct (F !! k) as [L|]; [|done]. simpl. assert ((hash_ptr k mod c <? 0) = false) as ->; [|done].
    apply Z.ltb_ge, Z.mod_pos_bound. lia.
  - intros i s1 Hi (M1 & HF1 & Hne1 & [Ht1 Hs1] & Hc1).
    destruct (zget_ok (m_buckets (fx_map s1)) i) as [chain Hch]; [rewrite (tb_len _ _ _ (mo_table _ _ (fr_map _ _ _ HF1))); lia|].
    rewrite Hch. cbn [mbind option_bind]. destruct (chain_entries _ _ _ _ (fr_map _ _ _ HF1) Hch) as (Nc & He & Hks).
    destruct (free_chain_spec t chain s1 M1 _ HF1 Hne1 Nc He) as (s2 & M2 & E2 & HF2 & Hne2 & [Ht2 Hs2] & Hc2 & _).
    rewrite purge_below_step in HF2, Hne2 by (intros k Hk; rewrite <- Hc1; apply Hks; by apply (fr_dom _ _ _ HF1)).
    exists s2. split; [done|]. exists M2. split_and!; try done; [split; congruence|congruence].
  - exists s'. split; [done|]. assert (purge_below t c c F = omap (purged t) F) as <-; [|by split; [split; [eexists|]|]].
    apply map_eq. intros k. unfold purge_below. rewrite map_lookup_imap, lookup_omap. destruct (F !! k) as [L|]; [|done]. simpl.
    assert ((hash_ptr k mod c <? c) = true) as ->; [|done]. apply Z.ltb_lt, Z.mod_pos_bound. lia.
Qed.
End Free.
