(* ===== verification/FutexSched.v ===== *)
(** * Both schedulers meet the interface of futexes

    [futex_block_task] and [futex_wake_task] call the round-robin scheduler,
    or, when [EEVDF_SCHEDULER] is set, the EEVDF scheduler, of the thread's
    processor; the instances are for the threads of one processor. *)

From stdpp Require Import gmap.
From S2P Require Import Prelude Map Cow CowSpec CowProps LList LListSpec Rrs RrsProps RbTree RbShape RbProps Eevdf EevdfSpec EevdfInv EevdfOps EevdfProps.
From S2P Require Import Futex FutexSpec.

(** ** Round robin *)

(** Runnable threads have an entity; the idle thread is not among them. *)
Definition rrs_runs (s : rrs_sys) (K R : gset Z) : Prop :=
  (exists es, rrs_wf s es) /\ (forall t, t ∈ R <-> is_Some (rr_handle s !! t)) /\ R ⊆ K /\ (0 ∉ K) /\
  Z.of_nat (size K) < 2 ^ 60 /\ (thread_of s (rr_idle s) ∉ K).

Lemma rrs_length s es (R : gset Z) : rrs_wf s es -> (forall t, t ∈ R <-> is_Some (rr_handle s !! t)) -> (length es <= size R)%nat.
Proof.
  intros HW HR. pose proof (rw_nodup _ _ HW) as HN. assert (forall e, e ∈ es -> rr_handle s !! thread_of s e = Some e) as Hh.
  { intros e He. destruct (rw_ent _ _ e HW) as [x Hx]; [set_solver|]. unfold thread_of. rewrite Hx. by apply (rw_thread _ _ HW). }
  assert (NoDup (thread_of s <$> es)) as N.
  { apply NoDup_fmap_2_strong; [|by apply NoDup_cons in HN as [_ HN]]. intros a b Ha Hb Heq. pose proof (Hh a Ha) as Ea. pose proof (Hh b Hb) as Eb. congruence. }
  rewrite <- (length_fmap (thread_of s) es), <- (size_list_to_set (C := gset Z) _ N). apply subseteq_size.
  intros t (e & -> & He)%elem_of_list_to_set%list_elem_of_fmap. apply HR. rewrite Hh by done. eauto.
Qed.

Lemma rrs_small s K R : rrs_runs s K R -> forall es, rrs_wf s es -> zlen es < 2 ^ 60.
Proof.
  intros (_ & HR & Hsub & _ & Hsz & _) es HW. pose proof (rrs_length _ _ _ HW HR). apply subseteq_size in Hsub. unfold zlen. lia.
Qed.

(** A thread that is not runnable is not picked, however often the scheduler
    runs. *)
Lemma rrs_not_picked s K R t n :
  rrs_runs s K R -> t ∈ K -> (t ∉ R) -> exists s' ts, rrs_picks n s = Some (s', ts) /\ (t ∉ ts).
Proof.
  intros Hr Ht HtR. pose proof Hr as ([es HW] & HR & Hsub & H0 & Hsz & Hid). pose proof (rrs_small _ _ _ Hr _ HW) as Hlen.
  destruct (picks_members s es n HW) as (s' & ts & E' & Hts); [lia|]. exists s', ts. split; [done|]. intros Hin.
  destruct (Hts t Hin) as (e & [->|He]%elem_of_cons & ->); [done|]. apply HtR, HR.
  destruct (rw_ent _ _ e HW) as [x Hx]; [set_solver|]. unfold thread_of. rewrite Hx. exists e. by apply (rw_thread _ _ HW).
Qed.

Section Rrs.
Context (malloc : lheap -> Z) (junk : Z) {HM : NodeAllocator malloc}.
Context (ent_malloc : gmap Z rrs_entity -> Z) {HE : EntAllocator ent_malloc}.
(* the address of the processor's data *)
Context (cpu : Z) (Hcpu : cpu <> 0).

Definition futex_block_rrs (s : rrs_sys) (thread : Z) : option rrs_sys := remove_rrs_entity s thread cpu.
Definition futex_wake_rrs (s : rrs_sys) (thread : Z) : option rrs_sys := add_rrs_entity malloc junk ent_malloc s thread.

Lemma rrs_block_runs s K R t :
  rrs_runs s K R -> t ∈ R -> exists s', futex_block_rrs s t = Some s' /\ rrs_runs s' K (R ∖ {[t]}).
Proof.
  intros Hr Ht. pose proof Hr as ([es HW] & HR & Hsub & H0 & Hsz & Hid). destruct (proj1 (HR t) Ht) as [e He].
  destruct (rw_handle _ _ HW _ _ He) as [Hin _]. apply list_elem_of_split in Hin as (A & B & ->).
  pose proof (rrs_small _ _ _ Hr _ HW) as Hlen. assert (t <> 0) as Ht0 by (intros ->; apply H0, Hsub, Ht).
  destruct (remove_spec_rrs s A e B t cpu HW) as (s' & E' & HW' & _ & Hi & Hth); [lia|done..|].
  assert (rr_handle s' = delete t (rr_handle s)) as Hh'.
  { unfold remove_rrs_entity in E'. rewrite (proj2 (Z.eqb_neq _ _) Ht0), (proj2 (Z.eqb_neq _ _) Hcpu), He in E'. simpl in E'.
    destruct (rr_ents s !! e); [|done]. cbn [mbind option_bind] in E'. destruct (list_remove_node _ _); [|done]. by injection E' as <-. }
  exists s'. split; [done|]. split_and!; try done; [eauto| |set_solver|].
  - intros u. rewrite Hh', elem_of_difference, elem_of_singleton, HR. destruct (decide (u = t)) as [->|].
    + rewrite lookup_delete_eq. split; [by intros []|by intros []].
    + rewrite lookup_delete_ne by done. naive_solver.
  - rewrite Hi, Hth by set_solver. done.
Qed.

Lemma rrs_wake_runs s K R t :
  rrs_runs s K R -> t ∈ K -> (t ∉ R) -> exists s', futex_wake_rrs s t = Some s' /\ rrs_runs s' K (R ∪ {[t]}).
Proof.
  intros Hr Ht HtR. pose proof Hr as ([es HW] & HR & Hsub & H0 & Hsz & Hid). pose proof (rrs_small _ _ _ Hr _ HW) as Hlen.
  assert (rr_handle s !! t = None) as Hn by (apply eq_None_not_Some; by rewrite <- HR).
  destruct (add_spec_rrs malloc junk ent_malloc s es t HW) as (s' & E' & HW' & Hth & _ & Ho); [lia|done|].
  assert (rr_idle s' = rr_idle s /\ rr_handle s' = <[t := ent_malloc (rr_ents s)]> (rr_handle s)) as [Hi Hh'].
  { unfold add_rrs_entity in E'. rewrite (proj2 (Z.eqb_neq _ _) (ent_total (rr_ents s))) in E'.
    destruct (list_enqueue _ _ _ _) as [[q n]|]; [|done]. by injection E' as <-. }
  exists s'. split; [done|]. split_and!; try done; [eauto| |set_solver|by rewrite Hi, Ho by set_solver].
  intros u. rewrite Hh', elem_of_union, elem_of_singleton, HR. destruct (decide (u = t)) as [->|].
  - rewrite lookup_insert_eq. split; [by eauto|by right].
  - rewrite lookup_insert_ne by done. naive_solver.
Qed.

#[export] Instance rrs_scheduler : Scheduler futex_block_rrs futex_wake_rrs.
Proof.
  refine {| runs := rrs_runs; sched_room := fun _ => True |}.
  - intros s K R (_ & _ & ? & ? & ? & _). done.
  - intros s K R R' (_ & H1 & _) (_ & H2 & _). apply set_eq. intros t. by rewrite H1, H2.
  - intros s K R t Hr Ht _. by apply rrs_block_runs.
  - apply rrs_wake_runs.
Defined.
End Rrs.

(** ** EEVDF *)

Section Eevdf.
Context (malloc : gmap Z cow_block -> Z) (realloc : list Z -> Z -> option (list Z)).
Context {HA : BlockAllocator malloc} {HR : Reallocator realloc}.
Context (cpu : Z) (Hcpu : cpu <> 0).

Definition futex_block_eevdf (s : rq) (thread : Z) : option rq := wait_eevdf_entity malloc realloc s thread cpu.
Definition futex_wake_eevdf (s : rq) (thread : Z) : option rq := futex_eevdf_entity malloc s thread cpu.

(** The threads are those with an entity, runnable when it is in the tree. *)
Definition eevdf_runs (s : rq) (K R : gset Z) : Prop :=
  exists es W, sched_ok s es W /\ (forall t, t ∈ K <-> is_Some (rq_handle s !! t)) /\
    (forall t, t ∈ R <-> exists e, rq_handle s !! t = Some e /\ e ∈ es) /\ (0 ∉ K) /\ Z.of_nat (size K) < 2 ^ 60.

Lemma eevdf_block_runs s K R t :
  eevdf_runs s K R -> t ∈ R -> wait_room s -> exists s', futex_block_eevdf s t = Some s' /\ eevdf_runs s' K (R ∖ {[t]}).
Proof.
  intros (es & W & (HI & HW & HH) & HK & HRt & H0 & Hsz) Ht [Hcap Hlen]. destruct (proj1 (HRt t) Ht) as (e & He & Hin).
  assert (t <> 0) as Ht0 by (intros ->; apply H0, HK; eauto). rewrite (cr_size _ _ HW) in Hlen.
  pose proof (qp_nodup _ _ (proj1 (qi_wf _ _ HI))) as N. apply list_elem_of_split in Hin as (A & B & ->).
  destruct (wait_ok malloc realloc s A e B W t cpu) as (s' & y & E' & HI' & HW' & Hh & Hy & _ & _ & _ & Ho); try done.
  exists s'. split; [done|]. exists (A ++ B), (W ++ [e]). rewrite Hh. split_and!; try done.
  - split_and!; [done|done|]. eapply (handles_but s s' e); eauto.
  - apply NoDup_app in N as (NA & HAB & [HeB NB]%NoDup_cons). intros u. rewrite elem_of_difference, elem_of_singleton, HRt. split.
    + intros [(d & Hd & Hin) Hne]. exists d. split; [done|]. assert (d <> e) by (intros ->; apply Hne; by eapply (ho_inj _ HH)). set_solver.
    + intros (d & Hd & Hin). split; [exists d; split; [done|set_solver]|]. intros ->. assert (d = e) as -> by congruence.
      apply elem_of_app in Hin as [Hin|Hin]; [apply (HAB _ Hin); set_solver|done].
Qed.

Lemma eevdf_wake_runs s K R t :
  eevdf_runs s K R -> t ∈ K -> (t ∉ R) -> exists s', futex_wake_eevdf s t = Some s' /\ eevdf_runs s' K (R ∪ {[t]}).
Proof.
  intros (es & W & (HI & HW & HH) & HK & HRt & H0 & Hsz) Ht HtR. destruct (proj1 (HK t) Ht) as [e He].
  assert (t <> 0) as Ht0 by congruence. destruct (ho_ent _ HH _ _ He) as [x Hx].
  assert (e ∉ es) as Hne by (intros Hin; apply HtR, HRt; eauto).
  destruct (wake_ok malloc s es e x W t cpu) as (s' & A & B & y & E' & -> & HI' & HW' & Hh & Hy & _ & _ & Ho); try done.
  exists s'. split; [done|]. eexists (A ++ e :: B), _. rewrite Hh. split_and!; try done.
  - split_and!; [done|exact HW'|]. eapply (handles_but s s' e); eauto.
  - intros u. rewrite elem_of_union, elem_of_singleton, HRt. split.
    + intros [(d & Hd & Hin)| ->]; [exists d; split; [done|set_solver]|exists e; split; [done|set_solver]].
    + intros (d & Hd & Hin). destruct (decide (d = e)) as [->|]; [right; by eapply (ho_inj _ HH)|left; exists d; split; [done|set_solver]].
Qed.

#[export] Instance eevdf_scheduler : Scheduler futex_block_eevdf futex_wake_eevdf.
Proof.
  refine {| runs := eevdf_runs; sched_room := wait_room |}.
  - intros s K R (es & W & _ & HK & HRt & H0 & Hsz). split; [|done]. intros t (e & He & _)%HRt. apply HK. eauto.
  - intros s K R R' (es & W & (HI & _ & HH) & _ & H1 & _) (es' & W' & (HI' & _ & _) & _ & H2 & _). apply set_eq. intros t. rewrite H1, H2.
    split; intros (e & He & Hin); exists e; (split; [done|]); destruct (ho_ent _ HH _ _ He) as [x Hx];
      [by apply (qi_on _ _ HI' e x Hx), (qi_on _ _ HI e x Hx)|by apply (qi_on _ _ HI e x Hx), (qi_on _ _ HI' e x Hx)].
  - apply eevdf_block_runs.
  - apply eevdf_wake_runs.
Defined.
End Eevdf.
