(* ===== verification/FutexProps.v ===== *)
(** * Futexes: what they promise

    Stated for any scheduler that meets the interface, and used with both. *)

From stdpp Require Import gmap.
From S2P Require Import Prelude Fresh Map Cow CowSpec CowProps LList LListSpec Rrs RrsProps Futex FutexSpec FutexOps FutexSched.

Section Props.
Context {S : Type} {block wake : S -> Z -> option S} {HS : Scheduler block wake}.
Context (malloc : gmap Z cow_block -> Z) {HA : BlockAllocator malloc}.

Implicit Types (s : fx_sys S) (F : gmap Z (list Z)) (K R : gset Z).

(** C13: [futex_wake] wakes the threads that have waited longest at the
    address, as many as asked for or as there are, in the order in which they
    came; it returns their number, marks them, makes them runnable, leaves the
    others waiting, and drops the list when it is empty. *)
Theorem futex_wake_fifo s F K R k count L :
  fx_ok s F -> F !! k = Some L -> runs (fx_sched s) K R -> wakeable s K R L -> 0 < count < two31 ->
  exists s' now later, L = now ++ later /\ length now = Nat.min (Z.to_nat count) (length L) /\
    futex_wake wake malloc s k count = Some (s', Z.of_nat (length now)) /\ fx_ok s' (left_over F k later) /\
    runs (fx_sched s') K (R ∪ list_to_set now) /\ started s s' now.
Proof.
  intros HF HLk Hr Hw Hc. destruct (wake_fx malloc s F K R k count L HF HLk Hr Hw Hc) as (s' & E' & HF' & Hr' & Hst).
  exists s', (take (Nat.min (Z.to_nat count) (length L)) L), (drop (Nat.min (Z.to_nat count) (length L)) L).
  rewrite take_drop, length_take, Nat.min_l by lia. done.
Qed.

(** [futex_free] takes a thread that ends off every list, keeps all other
    threads waiting in their order, and drops the lists that are empty then. *)
Theorem futex_free_everywhere s F t :
  fx_ok s F -> t <> 0 ->
  exists s', futex_free malloc s t = Some s' /\ fx_ok s' (omap (purged t) F) /\
    (forall k L, omap (purged t) F !! k = Some L -> t ∉ L) /\ same_tasks s s'.
Proof.
  intros HF Ht. destruct (free_fx malloc s F t HF Ht) as (s' & E' & HF' & Hst). exists s'. split_and!; try done.
  intros k L HLk Hin. rewrite lookup_omap in HLk. destruct (F !! k) as [L0|]; [|done]. simpl in HLk. unfold purged, without in HLk.
  destruct (filter (fun x => x <> t) L0) as [|u L1] eqn:E; [done|]. injection HLk as <-. rewrite <- E in Hin.
  by apply list_elem_of_filter in Hin as [? _].
Qed.

(** ** No thread is lost *)

Record sys_ok s F K R : Prop := mkSo {
  so_fx : fx_ok s F;
  so_runs : runs (fx_sched s) K R;
  so_tcb : forall t, t ∈ K -> is_Some (fx_threads s !! t);
  so_wait : forall k L t, F !! k = Some L -> t ∈ L -> t ∈ K /\ (t ∉ R) /\ exists x, fx_threads s !! t = Some x /\ t_status x = T_FUTEX;
  so_nodup : forall k L, F !! k = Some L -> NoDup L;
  so_once : forall k k' L L' t, F !! k = Some L -> F !! k' = Some L' -> t ∈ L -> t ∈ L' -> k = k';
  so_all : forall t, t ∈ K -> (t ∉ R) -> exists k L, F !! k = Some L /\ t ∈ L;
}.

(** Some of the threads of one list go: they are [gone], the rest is [L']. *)
Lemma leave_sys s s' F K R k L L' (gone : list Z) :
  sys_ok s F K R -> F !! k = Some L -> (L ≡ₚ gone ++ L') -> fx_ok s' (left_over F k L') ->
  runs (fx_sched s') K (R ∪ list_to_set gone) -> started s s' gone -> sys_ok s' (left_over F k L') K (R ∪ list_to_set gone).
Proof.
  intros [HF Hr Htcb Hw Hn Ho Ha] HLk HL' HF' Hr' [Hst Hot].
  assert (NoDup (gone ++ L')) as N by (rewrite <- HL'; by eapply Hn). apply NoDup_app in N as (Ng & Hgl & NL').
  assert (forall k1 L1 u, left_over F k L' !! k1 = Some L1 -> u ∈ L1 -> (u ∉ gone) /\ exists L2, F !! k1 = Some L2 /\ u ∈ L2) as Hin.
  { intros k1 L1 u HL1 Hu. assert (k1 = k /\ L1 = L' \/ k1 <> k /\ F !! k1 = Some L1) as [[-> ->]|[Hne H1]].
    { unfold left_over in HL1. destruct L'; [apply lookup_delete_Some in HL1 as [? ?]; by right|].
      apply lookup_insert_Some in HL1 as [[<- <-]|[? ?]]; [by left|by right]. }
    - split; [intros Hg; by eapply Hgl|]. exists L. split; [done|]. rewrite HL'. set_solver.
    - split; [|eauto]. intros Hg. apply Hne. eapply (Ho k1 k L1 L u); try done. rewrite HL'. set_solver. }
  split; try done.
  - intros u Hu. destruct (decide (u ∈ gone)) as [Hg|Hg]; [destruct (Hst u Hg) as (? & y & _ & Hy & _); eauto|]. rewrite Hot by done. by apply Htcb.
  - intros k1 L1 u HL1 Hu. destruct (Hin _ _ _ HL1 Hu) as (Hg & L2 & HL2 & Hu2). destruct (Hw _ _ _ HL2 Hu2) as (? & ? & x & Hx & ?).
    split; [done|]. split; [set_solver|]. exists x. by rewrite Hot.
  - intros k1 L1 HL1. unfold left_over in HL1. destruct L' as [|u L']; [apply lookup_delete_Some in HL1 as [_ ?]; by eapply Hn|].
    apply lookup_insert_Some in HL1 as [[_ <-]|[_ ?]]; [done|by eapply Hn].
  - intros k1 k2 L1 L2 u H1 H2 Hu1 Hu2. destruct (Hin _ _ _ H1 Hu1) as (_ & L3 & HL3 & Hu3), (Hin _ _ _ H2 Hu2) as (_ & L4 & HL4 & Hu4).
    by eapply (Ho k1 k2 L3 L4).
  - intros u Hu HuR. destruct (Ha u Hu) as (k1 & L1 & HL1 & Hu1); [set_solver|]. destruct (decide (k1 = k)) as [->|Hne].
    + exists k, L'. assert (u ∈ L') as HuL by (assert (L1 = L) as -> by congruence; rewrite HL' in Hu1; set_solver).
      split; [|done]. unfold left_over. destruct L'; [set_solver|]. by rewrite lookup_insert_eq.
    + exists k1, L1. split; [|done]. unfold left_over. destruct L'; by rewrite ?lookup_delete_ne, ?lookup_insert_ne by done.
Qed.

Lemma sys_wakeable s F K R k L : sys_ok s F K R -> F !! k = Some L -> wakeable s K R L.
Proof.
  intros Hs HLk. split; [by eapply (so_nodup _ _ _ _ Hs)|]. intros t Ht. destruct (so_wait _ _ _ _ Hs _ _ _ HLk Ht) as (? & ? & x & Hx & _). eauto.
Qed.


Lemma unblock_sys s F K R k t :
  sys_ok s F K R -> exists s' b F' R', futex_unblock wake malloc s k t = Some (s', b) /\ sys_ok s' F' K R'.
Proof.
  intros Hs. destruct (F !! k) as [L|] eqn:HLk; [destruct (decide (t ∈ L)) as [Hin|Hn]|].
  - pose proof Hin as (A & B & -> & HtA)%list_elem_of_split_l.
    destruct (so_wait _ _ _ _ Hs _ _ _ HLk Hin) as (HtK & HtR & x & Hx & Hfx).
    destruct (unblock_fx malloc s F K R k t A B x (so_fx _ _ _ _ Hs) HLk HtA (so_runs _ _ _ _ Hs) HtK HtR Hx) as (s' & y & -> & HF' & Hr' & Ht' & Hy).
    rewrite Hfx in Hr', Hy. simpl in Hr', Hy. eexists s', _, _, (R ∪ list_to_set [t]). split; [done|].
    eapply leave_sys; try done; [by rewrite <- Permutation_middle|by rewrite list_to_set_singleton_L|].
    split; [intros u ->%list_elem_of_singleton; exists x, y; rewrite Ht', lookup_insert_eq; done|].
    intros u Hu. rewrite Ht', lookup_insert_ne by set_solver. done.
  - rewrite (unblock_none malloc s F k t (so_fx _ _ _ _ Hs)); [eauto 10|]. intros L' HL'. congruence.
  - rewrite (unblock_none malloc s F k t (so_fx _ _ _ _ Hs)); [eauto 10|]. congruence.
Qed.

Context (realloc : list Z -> Z -> option (list Z)) (list_malloc : gmap Z cow_sys -> Z).
Context {HR : Reallocator realloc} {HL : ListAllocator list_malloc}.

Lemma enter_sys b s F K R k t :
  sys_ok s F K R -> t ∈ R -> fx_room s -> sched_room (fx_sched s) ->
  exists s', futex_wait_enter block malloc realloc list_malloc true b s k t = Some s' /\
    sys_ok s' (<[k := default [] (F !! k) ++ [t]]> F) K (R ∖ {[t]}).
Proof.
  intros [HF Hr Htcb Hw Hn Ho Ha] HtR Hroom Hsr. destruct (runs_known _ _ _ Hr) as (Hsub & _).
  destruct (Htcb t (Hsub _ HtR)) as [x Hx]. unfold futex_wait_enter. rewrite Hx. cbn [mbind option_bind].
  set (x1 := mkTcb T_FUTEX (t_futex_index x)).
  assert (fx_ok (with_tcb s t x1) F) as HF1 by (destruct HF as [[M HM] Hne]; split; [exists M; by eapply rep_ext|done]).
  destruct (add_fx malloc realloc list_malloc b (with_tcb s t x1) F K R k t x1 HF1 Hroom Hr Hsr HtR (lookup_insert_eq _ _ _))
    as (s' & y & -> & HF' & Hr' & Ht' & Hst).
  exists s'. split; [done|]. set (L0 := default [] (F !! k)).
  assert (forall k' L u, <[k := L0 ++ [t]]> F !! k' = Some L -> u ∈ L -> u = t /\ k' = k \/ exists L1, F !! k' = Some L1 /\ u ∈ L1) as Hin.
  { intros k' L u [[<- <-]|[_ HL']]%lookup_insert_Some Hu; [|eauto]. apply elem_of_app in Hu as [Hu|Hu%list_elem_of_singleton]; [|by left].
    right. unfold L0 in Hu. destruct (F !! k) as [L1|]; [eauto|set_solver]. }
  assert (forall k' L, F !! k' = Some L -> t ∉ L) as Hnt by (intros k' L HL' Hin'; by destruct (Hw _ _ _ HL' Hin') as (_ & ? & _)).
  split; try done.
  - intros u Hu. rewrite Ht'. simpl. rewrite insert_insert_eq. destruct (decide (u = t)) as [->|]; [rewrite lookup_insert_eq; eauto|].
    rewrite lookup_insert_ne by done. by apply Htcb.
  - intros k' L u HL' Hu. rewrite Ht'. simpl. rewrite insert_insert_eq. destruct (Hin _ _ _ HL' Hu) as [[-> ->]|(L1 & HL1 & Hu1)].
    + split; [by apply Hsub|]. split; [set_solver|]. exists y. by rewrite lookup_insert_eq.
    + destruct (Hw _ _ _ HL1 Hu1) as (? & ? & z & Hz & ?). split; [done|]. split; [set_solver|]. exists z. rewrite lookup_insert_ne; [done|].
      intros <-. by eapply Hnt.
  - intros k' L [[<- <-]|[_ HL']]%lookup_insert_Some; [|by eapply Hn]. apply NoDup_app. unfold L0 in *. destruct (F !! k) as [L1|] eqn:HL1; simpl.
    + split_and!; [by eapply Hn|intros u Hu ->%list_elem_of_singleton; by eapply Hnt|apply NoDup_singleton].
    + split_and!; [constructor|set_solver|apply NoDup_singleton].
  - intros k1 k2 L1 L2 u H1 H2 Hu1 Hu2. destruct (Hin _ _ _ H1 Hu1) as [[-> ->]|(L3 & H3 & Hu3)], (Hin _ _ _ H2 Hu2) as [[? ->]|(L4 & H4 & Hu4)]; subst; try done.
    + by destruct (Hnt _ _ H4).
    + by destruct (Hnt _ _ H3).
    + by eapply (Ho k1 k2 L3 L4).
  - intros u Hu HuR. destruct (decide (u = t)) as [->|Hut].
    + exists k, (L0 ++ [t]). rewrite lookup_insert_eq. split; [done|set_solver].
    + destruct (Ha u Hu) as (k' & L & HL' & HuL); [set_solver|]. destruct (decide (k' = k)) as [->|].
      * exists k, (L0 ++ [t]). rewrite lookup_insert_eq. split; [done|]. unfold L0. rewrite HL'. set_solver.
      * exists k', L. by rewrite lookup_insert_ne.
Qed.

(** The steps of the threads [K]: a runnable one waits, anyone wakes or
    interrupts. *)
Inductive fx_reach (K : gset Z) : fx_sys S -> Prop :=
  | fx_start ts sched s :
      futex_init true true ts sched = Some s -> runs sched K K -> (forall t, t ∈ K -> is_Some (ts !! t)) -> fx_reach K s
  | fx_wait b s R k t s' :
      fx_reach K s -> runs (fx_sched s) K R -> t ∈ R -> fx_room s -> sched_room (fx_sched s) ->
      futex_wait_enter block malloc realloc list_malloc true b s k t = Some s' -> fx_reach K s'
  | fx_wake s k count s' n : fx_reach K s -> count < two31 -> futex_wake wake malloc s k count = Some (s', n) -> fx_reach K s'
  | fx_interrupt s k t s' b : fx_reach K s -> futex_unblock wake malloc s k t = Some (s', b) -> fx_reach K s'.



(** The test of the value and the wait are not one step: a thread that has
    seen the value it waits for, and enters the list only after the value was
    changed and the address woken, waits although the value is another; the
    wake-up that was for it reported that nobody waited. *)
Theorem futex_lost_wakeup s F K R uaddr k t old new time timeout b :
  sys_ok s F K R -> t ∈ R -> F !! k = None -> fx_room s -> sched_room (fx_sched s) -> old <> new ->
  futex_begin uaddr k 0 old old time = FxWait timeout ->
  futex_wake wake malloc s k 1 = Some (s, 0) /\ futex_begin uaddr k 0 old new time = FxReturn (fault 11) /\
  exists s', futex_wait_enter block malloc realloc list_malloc true b s k t = Some s' /\
    sys_ok s' (<[k := [t]]> F) K (R ∖ {[t]}).
Proof.
  intros Hs HtR HFk Hroom Hsr Hne Hb. split_and!.
  - apply (wake_none malloc s F k 1 (so_fx _ _ _ _ Hs)). by left.
  - unfold futex_begin in *. repeat (case_if; [done|]). simpl in *. by rewrite (proj2 (Z.eqb_neq new old)).
  - destruct (enter_sys b s F K R k t Hs HtR Hroom Hsr) as (s' & E' & H'). exists s'. split; [done|]. by rewrite HFk in H'.
Qed.

(** The turn of the wait loop that runs before the thread first gives up the
    processor ends the wait with ETIMEDOUT when the time is over by then. *)
Theorem futex_first_turn s F K R k L t timeout elapsed :
  sys_ok s F K R -> F !! k = Some L -> t ∈ L -> 0 <= timeout <= elapsed ->
  exists s', futex_wait_turn wake malloc s k t timeout elapsed false = Some (s', Some (fault 110)).
Proof.
  intros Hs HF Hin Ht. destruct (so_wait _ _ _ _ Hs k L t HF Hin) as (_ & _ & x & Hx & Hst).
  unfold futex_wait_turn. rewrite Hx. cbn [mbind option_bind]. rewrite Hst. change (negb (T_FUTEX =? T_FUTEX)) with false. cbn iota.
  assert ((timeout >=? 0) && (elapsed >=? timeout) = true) as -> by (apply andb_true_iff; lia).
  destruct (unblock_sys s F K R k t Hs) as (s2 & r & F' & R' & -> & _). cbn [mbind option_bind]. eauto.
Qed.
End Props.

(** ** With the round-robin scheduler *)

Section Rrs.
Context (node_malloc : lheap -> Z) (junk : Z) {HM : NodeAllocator node_malloc}.
Context (ent_malloc : gmap Z rrs_entity -> Z) {HE : EntAllocator ent_malloc}.
Context (cpu : Z) (Hcpu : cpu <> 0).
Context (malloc : gmap Z cow_block -> Z) (realloc : list Z -> Z -> option (list Z)) (list_malloc : gmap Z cow_sys -> Z).
Context {HA : BlockAllocator malloc} {HR : Reallocator realloc} {HL : ListAllocator list_malloc}.

#[local] Existing Instance rrs_scheduler.

(** Entering a wait takes the thread off the run queue: the round-robin
    scheduler does not pick it, however often it runs, until it is woken. *)
Theorem futex_wait_not_picked s F K R b k t :
  sys_ok (HS := rrs_scheduler node_malloc junk ent_malloc cpu Hcpu) s F K R -> t ∈ R -> fx_room s ->
  exists s', futex_wait_enter (futex_block_rrs cpu) malloc realloc list_malloc true b s k t = Some s' /\
    forall n, exists s2 ts, rrs_picks n (fx_sched s') = Some (s2, ts) /\ (t ∉ ts).
Proof.
  intros Hs HtR Hroom. pose proof (so_runs _ _ _ _ Hs) as Hr. destruct (runs_known _ _ _ Hr) as (Hsub & _).
  destruct (enter_sys malloc realloc list_malloc b s F K R k t Hs HtR Hroom) as (s' & E' & Hs'); [done|].
  exists s'. split; [done|].
  intros n. eapply (rrs_not_picked _ K (R ∖ {[t]})); [apply (so_runs _ _ _ _ Hs')|by apply Hsub|set_solver].
Qed.
End Rrs.

(** ** Witnesses *)

#[export] Instance top_list_allocator : ListAllocator top_addr.
Proof. intros g. pose proof (top_key_nonneg g). split; [unfold top_addr; lia|]. apply top_key_fresh. unfold top_addr. lia. Qed.

(** Threads 10 and 20 on the round-robin scheduler; processor data at 64. *)
Definition demo_tasks : gmap Z tcb := {[ 10 := mkTcb 1 0; 20 := mkTcb 1 0 ]}.
Definition demo_block := futex_block_rrs 64.
Definition demo_wake := futex_wake_rrs top_addr 0 top_addr.

#[export] Instance demo_scheduler : Scheduler demo_block demo_wake := rrs_scheduler top_addr 0 top_addr 64 ltac:(done).

Lemma demo_runs : exists s, demo_rrs = Some s /\ rrs_runs s {[10; 20]} {[10; 20]}.
Proof.
  destruct demo_wf as (s & E & HW). exists s. split; [exact E|].
  assert (dom (rr_handle s) = {[10; 20]} /\ thread_of s (rr_idle s) = 5) as [Hd Hi].
  { vm_compute in E. injection E as <-. split; vm_compute; reflexivity. }
  split_and!; [eauto| |done|set_solver|done|rewrite Hi; set_solver]. intros t. by rewrite <- Hd, elem_of_dom.
Qed.

Lemma demo_fx_reach : exists s, fx_reach top_block realloc_7 top_addr {[10; 20]} s /\ sys_ok s ∅ {[10; 20]} {[10; 20]} /\ fx_room s.
Proof.
  destruct demo_runs as (sched & _ & Hr). destruct (map_create_spec 20) as (m & Em & Hm); [done|].
  exists (mkFx m ∅ demo_tasks sched).
  assert (forall t : Z, t ∈ ({[10; 20]} : gset Z) -> is_Some (demo_tasks !! t)) as Ht.
  { intros t [->%elem_of_singleton| ->%elem_of_singleton]%elem_of_union; by eexists. }
  split; [|split].
  - apply (fx_start _ _ _ _ demo_tasks sched); [unfold futex_init; by rewrite Em|exact Hr|exact Ht].
  - split; try done. split; [|by intros k]. exists ∅.
    split; try done; [intros k; by rewrite !lookup_empty|intros q [c Hc]; simpl in Hc; by rewrite lookup_empty in Hc].
  - injection Em as <-. split_and!; [done..|]. intros q c Hc. simpl in Hc. by rewrite lookup_empty in Hc.
Qed.


Lemma futex_lost_wakeup_witness :
  exists s s', futex_wake demo_wake top_block s 4096 1 = Some (s, 0) /\
    futex_wait_enter demo_block top_block realloc_7 top_addr true true s 4096 10 = Some s' /\
    sys_ok s' (<[4096 := [10]]> ∅) {[10; 20]} ({[10; 20]} ∖ {[10]}).
Proof.
  destruct demo_fx_reach as (s & _ & Hs & Hroom). exists s.
  destruct (futex_lost_wakeup top_block realloc_7 top_addr s ∅ {[10; 20]} {[10; 20]} 4096 4096 10 0 1 None (-1) true) as (Hw & _ & s' & E' & Hs');
    [exact Hs|set_solver|done|exact Hroom|done|done|done|]. exists s'. split; [exact Hw|]. split; [exact E'|exact Hs'].
Defined.

(** Thread 10 waits. *)
Lemma demo_waiting :
  exists s, sys_ok s (<[4096 := [10]]> ∅) {[10; 20]} ({[10; 20]} ∖ {[10]}).
Proof.
  destruct demo_fx_reach as (s & _ & Hs & Hroom).
  destruct (enter_sys top_block realloc_7 top_addr true s ∅ {[10; 20]} {[10; 20]} 4096 10 Hs) as (s' & _ & Hs'); [set_solver|exact Hroom|done|].
  exists s'. exact Hs'.
Qed.

Lemma futex_wake_fifo_witness : exists s s' now, futex_wake demo_wake top_block s 4096 5 = Some (s', Z.of_nat (length now)) /\ now = [10].
Proof.
  destruct demo_waiting as (s & Hs). exists s.
  destruct (futex_wake_fifo top_block s _ _ _ 4096 5 [10] (so_fx _ _ _ _ Hs) (lookup_insert_eq _ _ _) (so_runs _ _ _ _ Hs))
    as (s' & now & later & E & Hl & E' & _); [exact (sys_wakeable _ _ _ _ 4096 [10] Hs (lookup_insert_eq _ _ _))|done|]. exists s', now. split; [exact E'|].
  destruct now as [|u [|v now]]; [done|simpl in E; injection E as <- _; reflexivity|done].
Defined.

Lemma futex_free_everywhere_witness : exists s s' : fx_sys rrs_sys, futex_free top_block s 10 = Some s' /\ fx_ok s' ∅.
Proof.
  destruct demo_waiting as (s & Hs). exists s. destruct (futex_free_everywhere top_block s _ 10 (so_fx _ _ _ _ Hs)) as (s' & E' & HF' & _); [done|].
  exists s'. split; [exact E'|]. replace ∅ with (omap (purged 10) (<[4096 := [10]]> (∅ : gmap Z (list Z)))) by reflexivity. exact HF'.
Defined.
