(* ===== verification/Mpool.v ===== *)
(** * The pool allocator of the kernel heap

    ([src/src/mem/heap/pool.c] and the headers [block.h], [area.h] and
    [freelist.h] of [src/src/include/mem/alloc/]; the kernel uses it on the
    architectures other than x86_64.) An area of memory is tiled by blocks,
    each with its size and flags in a word before and a word behind its data;
    free blocks are on doubly linked lists by size, with the links in their
    data. Memory is words by byte address; [None] is an access to a word that
    is not there, a loop that has not ended within its bound, or the endless
    loop on a double free. The callbacks that get and return memory are
    parameters. *)

From stdpp Require Import gmap.
From S2P Require Import Prelude.

Abbreviation wmem := (gmap Z Z).

Definition ldw (m : wmem) (a : Z) : option Z := m !! a.
Definition stw (m : wmem) (a v : Z) : option wmem := if bool_decide (is_Some (m !! a)) then Some (<[a := v]> m) else None.

(** ** Blocks ([block.h]) *)

Definition FREE_FLAG : Z := 1.
Definition AREA_FLAG : Z := 2.
Definition SIZE_FLAG : Z := 4.
Definition FLAG_BITS : Z := 7.
Definition SIZE_2M : Z := 2097152.
Definition SIZE_16k : Z := 16384.

(** [PADDING] and [PADDING_16k] *)
Definition PADDING (size : Z) : Z := Z.land (u64 (size + 15)) (Z.lnot 15).
Definition PADDING_16k (size : Z) : Z := Z.land (u64 (size + SIZE_16k - 1)) (Z.lnot (SIZE_16k - 1)).

Definition flag (w f : Z) : bool := negb (Z.land w f =? 0).

Definition blk_prevtail (m : wmem) (ptr : Z) : option Z := ldw m (ptr - 16).
Definition blk_head (m : wmem) (ptr : Z) : option Z := ldw m (ptr - 8).
Definition blk_tail (m : wmem) (ptr size : Z) : option Z := ldw m (ptr + size).
Definition blk_nexthead (m : wmem) (ptr size : Z) : option Z := ldw m (ptr + size + 8).

Definition blk_noprev (m : wmem) (ptr : Z) : option bool := w ← blk_prevtail m ptr; Some (flag w AREA_FLAG).
Definition blk_nonext (m : wmem) (ptr size : Z) : option bool := w ← blk_nexthead m ptr size; Some (flag w AREA_FLAG).
Definition blk_freed (m : wmem) (ptr : Z) : option bool := w ← blk_head m ptr; Some (flag w FREE_FLAG).

(** The same change of the two tags of a block: [|=] or [&= ~]. *)
Definition tags_map (m : wmem) (ptr size : Z) (g : Z -> Z) : option wmem :=
  h ← blk_head m ptr; m ← stw m (ptr - 8) (g h); t ← blk_tail m ptr size; stw m (ptr + size) (g t).
Definition tags_or (m : wmem) (ptr size f : Z) : option wmem := tags_map m ptr size (fun w => Z.lor w f).
Definition tags_clear (m : wmem) (ptr size f : Z) : option wmem := tags_map m ptr size (fun w => Z.land w (Z.lnot f)).

Definition blk_setalloced (m : wmem) (ptr size : Z) : option wmem := tags_clear m ptr size FREE_FLAG.
Definition blk_setfreed (m : wmem) (ptr size : Z) : option wmem := tags_or m ptr size FREE_FLAG.
Definition blk_set_area_4k (m : wmem) (ptr size : Z) : option wmem := tags_clear m ptr size SIZE_FLAG.
Definition blk_set_area_2M (m : wmem) (ptr size : Z) : option wmem := tags_or m ptr size SIZE_FLAG.

Definition blk_size (m : wmem) (ptr : Z) : option Z := w ← blk_head m ptr; Some (Z.land w (Z.lnot FLAG_BITS)).

Definition blk_setsize (m : wmem) (ptr size : Z) : option wmem := m ← stw m (ptr - 8) size; stw m (ptr + size) size.

Definition blk_area_is_2M (m : wmem) (ptr : Z) : option bool := w ← blk_head m ptr; Some (flag w SIZE_FLAG).

(** NULL is 0. *)
Definition blk_prev (m : wmem) (ptr : Z) : option Z :=
  no ← blk_noprev m ptr;
  if (no : bool) then Some 0 else w ← blk_prevtail m ptr; Some (ptr - 16 - Z.land w (Z.lnot FLAG_BITS)).
Definition blk_next (m : wmem) (ptr : Z) : option Z :=
  size ← blk_size m ptr;
  no ← blk_nonext m ptr size;
  if (no : bool) then Some 0 else Some (ptr + size + 16).

Definition blk_split (m : wmem) (ptr size : Z) : option (wmem * Z) :=
  is_2M ← blk_area_is_2M m ptr;
  oldsize ← blk_size m ptr;
  m ← blk_setsize m ptr size;
  m ← (if (is_2M : bool) then blk_set_area_2M m ptr size else Some m);
  let offset := u64 (size + 16) in
  let rest := u64 (oldsize - offset) in
  m ← blk_setsize m (ptr + offset) rest;
  m ← (if (is_2M : bool) then blk_set_area_2M m (ptr + offset) rest else Some m);
  Some (m, ptr + offset).

(** ** The area ([area.h]) *)

Definition allocarea_init (m : wmem) (addr size pdata : Z) : option wmem :=
  let size_flag := if size =? SIZE_2M then SIZE_FLAG else 0 in
  let len := size / 8 in
  let data := Z.lor (Z.lor pdata AREA_FLAG) size_flag in
  m ← stw m (addr + 8 * (len - 1)) data;
  m ← stw m addr data;
  let ptr := addr + 16 in
  let size := u64 (size - 32) in
  m ← blk_setsize m ptr size;
  m ← blk_setfreed m ptr size;
  if negb (size_flag =? 0) then blk_set_area_2M m ptr size else blk_set_area_4k m ptr size.

(** The new block, 0 for NULL. *)
Definition allocarea_reinit (m : wmem) (addr oldsize newsize : Z) : option (wmem * Z) :=
  if newsize =? oldsize then Some (m, 0)
  else
    w ← ldw m addr;
    let data := Z.lor (Z.lor (Z.land w (Z.lnot FLAG_BITS)) AREA_FLAG) (if newsize =? SIZE_2M then SIZE_FLAG else 0) in
    m ← stw m (addr + 8 * (newsize / 8 - 1)) data;
    m ← stw m addr data;
    if newsize <? oldsize then Some (m, 0)
    else
      let blk := addr + oldsize in
      m ← blk_setsize m blk (u64 (newsize - oldsize - 16));
      Some (m, blk).

(** ** Free lists ([freelist.h])

    The link to the next block is in the first word of a free block, the link
    to the one before it in the second. *)

Definition FREELIST_MAXBLKSIZE : Z := 16384.
Definition FREELIST_NUM : Z := 8.

(** [__builtin_clz] of a size below 2^32. *)
Definition freelists_size2id (size : Z) : Z :=
  if size <? 64 then 0
  else if size <? 256 then 1
  else if size >=? FREELIST_MAXBLKSIZE then -1
  else (32 - 9) - (31 - Z.log2 size) + 2.

(** The links of the neighbours of a node that is not the head. *)
Definition unlink_node (m : wmem) (ptr : Z) : option wmem :=
  next ← ldw m ptr;
  m ← (if next =? 0 then Some m else prev ← ldw m (ptr + 8); stw m (next + 8) prev);
  prev ← ldw m (ptr + 8);
  if prev =? 0 then Some m else next ← ldw m ptr; stw m prev next.

Definition freelist_detach (m : wmem) (list ptr : Z) : option (wmem * Z) :=
  if list =? ptr then next ← ldw m ptr; Some (m, next) else m ← unlink_node m ptr; Some (m, list).

Definition freelists_detach (m : wmem) (lists : list Z) (id ptr : Z) : option (wmem * list Z) :=
  head ← zget lists id;
  if head =? ptr then next ← ldw m ptr; lists ← zset lists id next; Some (m, lists)
  else m ← unlink_node m ptr; Some (m, lists).

Definition fl_fuel (m : wmem) : nat := Datatypes.S (size m).

(** The search along one list for a block that [fits]; 0 when there is none. *)
Fixpoint match_loop (fuel : nat) (m : wmem) (fits : Z -> option bool) (node : Z) : option Z :=
  match fuel with
  | O => None
  | Datatypes.S fuel =>
    if node =? 0 then Some 0
    else
      ok ← fits node;
      if (ok : bool) then Some node else next ← ldw m node; match_loop fuel m fits next
  end.

Definition size_fits (m : wmem) (size node : Z) : option bool := tgt_size ← blk_size m node; Some (tgt_size >=? size).

(** [aligned_size_of(list, align) >= (ssize_t)size] *)
Definition aligned_fits (m : wmem) (size align node : Z) : option bool :=
  tgt_size ← blk_size m node; Some (i64 (i64 tgt_size - i64 (PADDING_UP node align - node)) >=? i64 size).

Definition list_match (fits : wmem -> Z -> option bool) (m : wmem) (list : Z) : option (wmem * Z * Z) :=
  node ← match_loop (fl_fuel m) m (fits m) list;
  if node =? 0 then Some (m, list, 0) else '(m, list) ← freelist_detach m list node; Some (m, list, node).

Definition freelist_match (m : wmem) (list size : Z) : option (wmem * Z * Z) := list_match (fun m => size_fits m size) m list.
Definition freelist_aligned_match (m : wmem) (list size align : Z) : option (wmem * Z * Z) :=
  list_match (fun m => aligned_fits m size align) m list.

(** The loop over the lists from [id] on; [n] of them are left. *)
Fixpoint lists_loop (n : nat) (fits : wmem -> Z -> option bool) (m : wmem) (lists : list Z) (id : Z) : option (wmem * list Z * Z) :=
  match n with
  | O => Some (m, lists, 0)
  | Datatypes.S n =>
    head ← zget lists id;
    node ← match_loop (fl_fuel m) m (fits m) head;
    if node =? 0 then lists_loop n fits m lists (id + 1)
    else '(m, lists) ← freelists_detach m lists id node; Some (m, lists, node)
  end.

Definition lists_match (fits : wmem -> Z -> option bool) (m : wmem) (lists : list Z) (size : Z) : option (wmem * list Z * Z) :=
  let id := freelists_size2id size in
  if id <? 0 then Some (m, lists, 0) else lists_loop (Z.to_nat (FREELIST_NUM - id)) fits m lists id.

Definition freelists_match (m : wmem) (lists : list Z) (size : Z) : option (wmem * list Z * Z) :=
  lists_match (fun m => size_fits m size) m lists size.
Definition freelists_aligned_match (m : wmem) (lists : list Z) (size align : Z) : option (wmem * list Z * Z) :=
  lists_match (fun m => aligned_fits m size align) m lists size.

(** The memory; the block becomes the head. *)
Definition freelist_put (m : wmem) (list ptr : Z) : option wmem :=
  m ← stw m ptr list;
  m ← stw m (ptr + 8) 0;
  next ← ldw m ptr;
  if next =? 0 then Some m else stw m (next + 8) ptr.

Definition freelists_put (m : wmem) (lists : list Z) (ptr : Z) : option (wmem * list Z * bool) :=
  size ← blk_size m ptr;
  if size =? 0 then Some (m, lists, true)
  else
    let id := freelists_size2id size in
    if id <? 0 then Some (m, lists, false)
    else
      head ← zget lists id;
      m ← freelist_put m head ptr;
      lists ← zset lists id ptr;
      Some (m, lists, true).

(** ** The pool ([pool.c]) *)

Record mpool := mkMp { mp_ptr : Z; mp_size : Z; mp_alloced : Z; mp_large : Z; mp_freed : list Z }.

(** The pool and the memory. *)
Record hsys := mkH { h_mem : wmem; h_pool : mpool }.

Definition with_hmem (h : hsys) (m : wmem) : hsys := mkH m (h_pool h).
Definition with_large (h : hsys) (m : wmem) (l : Z) : hsys :=
  let p := h_pool h in mkH m (mkMp (mp_ptr p) (mp_size p) (mp_alloced p) l (mp_freed p)).
Definition with_freed (h : hsys) (m : wmem) (f : list Z) : hsys :=
  let p := h_pool h in mkH m (mkMp (mp_ptr p) (mp_size p) (mp_alloced p) (mp_large p) f).
Definition with_alloced (h : hsys) (n : Z) : hsys :=
  let p := h_pool h in mkH (h_mem h) (mkMp (mp_ptr p) (mp_size p) n (mp_large p) (mp_freed p)).

(** [_detach] *)
Definition pool_detach (h : hsys) (ptr : Z) : option hsys :=
  size ← blk_size (h_mem h) ptr;
  let id := freelists_size2id size in
  if id <? 0 then '(m, l) ← freelist_detach (h_mem h) (mp_large (h_pool h)) ptr; Some (with_large h m l)
  else '(m, f) ← freelists_detach (h_mem h) (mp_freed (h_pool h)) id ptr; Some (with_freed h m f).

(** [blk_mergeprev], [blk_mergenext] and [blk_trymerge] of [block.h], with
    [_detach] as the callback. *)
Definition blk_mergeprev (h : hsys) (ptr : Z) : option (hsys * Z) :=
  prev ← blk_prev (h_mem h) ptr;
  s1 ← blk_size (h_mem h) ptr;
  s2 ← blk_size (h_mem h) prev;
  h ← pool_detach h prev;
  m ← blk_setsize (h_mem h) prev (u64 (s1 + s2 + 16));
  Some (with_hmem h m, prev).

Definition blk_mergenext (h : hsys) (ptr : Z) : option (hsys * Z) :=
  next ← blk_next (h_mem h) ptr;
  s1 ← blk_size (h_mem h) ptr;
  s2 ← blk_size (h_mem h) next;
  h ← pool_detach h next;
  m ← blk_setsize (h_mem h) ptr (u64 (s1 + s2 + 16));
  Some (with_hmem h m, ptr).

Definition blk_trymerge (h : hsys) (ptr : Z) : option (hsys * Z) :=
  is_2M ← blk_area_is_2M (h_mem h) ptr;
  size ← blk_size (h_mem h) ptr;
  nonext ← blk_nonext (h_mem h) ptr size;
  nf ← (if (nonext : bool) then Some false else w ← blk_nexthead (h_mem h) ptr size; Some (flag w FREE_FLAG));
  '(h, ptr) ← (if (nf : bool) then blk_mergenext h ptr else Some (h, ptr));
  noprev ← blk_noprev (h_mem h) ptr;
  pf ← (if (noprev : bool) then Some false else w ← blk_prevtail (h_mem h) ptr; Some (flag w FREE_FLAG));
  '(h, ptr) ← (if (pf : bool) then blk_mergeprev h ptr else Some (h, ptr));
  m ← (if (is_2M : bool) then size ← blk_size (h_mem h) ptr; blk_set_area_2M (h_mem h) ptr size else Some (h_mem h));
  Some (with_hmem h m, ptr).

(** The pool was all zeroes or is used again; [false]: wrong arguments. *)
Definition mpool_init (m : wmem) (ptr size : Z) : option (option hsys) :=
  if (ptr =? 0) || (size =? 0) then Some None
  else if negb (Z.land size 15 =? 0) then Some None
  else
    m ← allocarea_init m ptr size 0;
    m ← freelist_put m 0 (ptr + 16);
    Some (Some (mkH m (mkMp ptr size 0 (ptr + 16) (replicate 8 0)))).

Definition mpool_alloced_size (h : hsys) : Z := mp_alloced (h_pool h).
Definition mpool_total_size (h : hsys) : Z := mp_size (h_pool h).
Definition mpool_msize (h : hsys) (ptr : Z) : option Z := if ptr =? 0 then Some 0 else blk_size (h_mem h) ptr.

Definition do_free (h : hsys) (ptr : Z) : option hsys :=
  size ← blk_size (h_mem h) ptr;
  m ← blk_setfreed (h_mem h) ptr size;
  '(m, f, puted) ← freelists_put m (mp_freed (h_pool h)) ptr;
  let h := with_freed h m f in
  if (puted : bool) then Some h
  else m ← freelist_put (h_mem h) (mp_large (h_pool h)) ptr; Some (with_large h m ptr).

Definition try_split_and_free (h : hsys) (ptr size : Z) : option hsys :=
  bsize ← blk_size (h_mem h) ptr;
  if bsize >=? u64 (size + 64) then
    '(m, new_ptr) ← blk_split (h_mem h) ptr size;
    do_free (with_hmem h m) new_ptr
  else Some h.

Section Pool.
(* [cb_reqmem] and [cb_delmem], which may be NULL: the memory afterwards and,
   of a request, the address of the new memory, 0 for NULL *)
Context (cb_reqmem : option (wmem -> Z -> Z -> wmem * Z)) (cb_delmem : option (wmem -> Z -> Z -> wmem)).

Definition mpool_deinit (h : hsys) : hsys :=
  let m := match cb_delmem with Some del => del (h_mem h) (mp_ptr (h_pool h)) (mp_size (h_pool h)) | None => h_mem h end in
  mkH m (mkMp 0 0 0 0 (replicate 8 0)).

Definition mpool_reqmem (h : hsys) (size : Z) : option (hsys * bool) :=
  match cb_reqmem with
  | None => Some (h, false)
  | Some req =>
    let p := h_pool h in
    let memsize := PADDING_16k size in
    let '(m, mem) := req (h_mem h) (mp_ptr p + mp_size p) memsize in
    if mem =? 0 then Some (with_hmem h m, false)
    else if negb (mem =? mp_ptr p + mp_size p) then
      Some (with_hmem h (match cb_delmem with Some del => del m mem memsize | None => m end), false)
    else
      '(m, ptr) ← allocarea_reinit m (mp_ptr p) (mp_size p) (u64 (mp_size p + memsize));
      let h := mkH m (mkMp (mp_ptr p) (u64 (mp_size p + memsize)) (mp_alloced p) (mp_large p) (mp_freed p)) in
      '(h, ptr) ← blk_trymerge h ptr;
      size ← blk_size (h_mem h) ptr;
      m ← blk_setfreed (h_mem h) ptr size;
      m ← freelist_put m (mp_large (h_pool h)) ptr;
      Some (with_large h m ptr, true)
  end.

(** The end of both allocation functions. *)
Definition finish_alloc (h : hsys) (ptr size : Z) : option (hsys * Z) :=
  h ← try_split_and_free h ptr size;
  size ← blk_size (h_mem h) ptr;
  m ← blk_setalloced (h_mem h) ptr size;
  Some (with_alloced (with_hmem h m) (u64 (mp_alloced (h_pool h) + size)), ptr).

(** The search of both allocation functions: the small lists, the list of
    large blocks, and that list again after more memory was asked for; 0: no
    memory. *)
Definition find_block (fits : wmem -> Z -> option bool) (h : hsys) (size more : Z) : option (hsys * Z) :=
  '(m, f, ptr) ← lists_match fits (h_mem h) (mp_freed (h_pool h)) size;
  let h := with_freed h m f in
  '(h, ptr) ←
    (if ptr =? 0 then '(m, l, ptr) ← list_match fits (h_mem h) (mp_large (h_pool h)); Some (with_large h m l, ptr)
     else Some (h, ptr));
  if ptr =? 0 then
    '(h, ok) ← mpool_reqmem h more;
    if negb ok then Some (h, -1)
    else '(m, l, ptr) ← list_match fits (h_mem h) (mp_large (h_pool h)); Some (with_large h m l, ptr)
  else Some (h, ptr).

Definition mpool_alloc (h : hsys) (size : Z) : option (hsys * Z) :=
  let size := if size =? 0 then 16 else PADDING size in
  '(h, ptr) ← find_block (fun m => size_fits m size) h size size;
  if ptr =? -1 then Some (h, 0) else finish_alloc h ptr size.

Definition mpool_aligned_alloc (h : hsys) (size align : Z) : option (hsys * Z) :=
  if negb (Z.land align (u64 (align - 1)) =? 0) then Some (h, 0)
  else if align <? 16 then mpool_alloc h size
  else
    let size := if size =? 0 then 16 else PADDING size in
    '(h, ptr) ← find_block (fun m => aligned_fits m size align) h size (u64 (size + align));
    if ptr =? -1 then Some (h, 0)
    else
      let offset := u64 (PADDING_UP ptr align - ptr) in
      '(h, ptr) ←
        (if offset >? 0 then
           '(m, new_ptr) ← blk_split (h_mem h) ptr (offset - 16);
           h ← do_free (with_hmem h m) ptr;
           Some (h, new_ptr)
         else Some (h, ptr));
      finish_alloc h ptr size.

Definition mpool_free (h : hsys) (ptr : Z) : option hsys :=
  if ptr =? 0 then Some h
  else
    w ← blk_head (h_mem h) ptr;
    if flag w FREE_FLAG then None
    else
      size ← blk_size (h_mem h) ptr;
      let h := with_alloced h (u64 (mp_alloced (h_pool h) - size)) in
      '(h, ptr) ← blk_trymerge h ptr;
      if ptr =? 0 then None else do_free h ptr.

(** [memcpy] of whole words. *)
Definition copy_words (m : wmem) (dst src size : Z) : option wmem :=
  for_range 0 (size / 8) (fun i m => w ← ldw m (src + 8 * i); stw m (dst + 8 * i) w) m.

(** The part that both reallocation functions share: shrink, grow into the
    next block, or, when [None], move. *)
Definition grow_in_place (h : hsys) (ptr newsize : Z) : option (option (hsys * Z)) :=
  size ← blk_size (h_mem h) ptr;
  if size >=? newsize then h ← try_split_and_free h ptr newsize; Some (Some (h, ptr))
  else
    next ← blk_next (h_mem h) ptr;
    nf ← (if next =? 0 then Some false else blk_freed (h_mem h) next);
    if (nf : bool) then
      nsize ← blk_size (h_mem h) next;
      if u64 (size + 16 + nsize) >=? newsize then
        '(h, ptr) ← blk_mergenext h ptr;
        h ← try_split_and_free h ptr newsize;
        Some (Some (h, ptr))
      else Some None
    else Some None.

(** [memcpy(new_ptr, ptr, size); mpool_free(pool, ptr)] *)
Definition move_block (h : hsys) (new_ptr ptr size : Z) : option (hsys * Z) :=
  m ← copy_words (h_mem h) new_ptr ptr size;
  h ← mpool_free (with_hmem h m) ptr;
  Some (h, new_ptr).

Definition mpool_realloc (h : hsys) (ptr newsize : Z) : option (hsys * Z) :=
  if ptr =? 0 then mpool_alloc h newsize
  else
    let newsize := if newsize =? 0 then 16 else PADDING newsize in
    size ← blk_size (h_mem h) ptr;
    r ← grow_in_place h ptr newsize;
    match r with
    | Some (h, ptr) => Some (h, ptr)
    | None => '(h, new_ptr) ← mpool_alloc h newsize; move_block h new_ptr ptr size
    end.

Definition mpool_aligned_realloc (h : hsys) (ptr newsize align : Z) : option (hsys * Z) :=
  if ptr =? 0 then mpool_aligned_alloc h newsize align
  else if negb (Z.land align (u64 (align - 1)) =? 0) then Some (h, 0)
  else if align <? 16 then mpool_realloc h ptr newsize
  else
    let newsize := if newsize =? 0 then 16 else PADDING newsize in
    size ← blk_size (h_mem h) ptr;
    r ← grow_in_place h ptr newsize;
    match r with
    | Some (h, ptr) => Some (h, ptr)
    | None => '(h, new_ptr) ← mpool_aligned_alloc h newsize align; move_block h new_ptr ptr size
    end.
End Pool.
