(* ===== verification/MpoolRep.v ===== *)
(** * The heap area: blocks that tile it, and their tags

    An area is described by the list of its blocks. [tiled] is their geometry,
    [tagged] what the tags of one block hold; the first part is about tags,
    the second about the free lists. *)

From stdpp Require Import gmap.
From S2P Require Import Prelude Mpool.

(** ** Words *)

Lemma stw_eq m a v w : m !! a = Some w -> stw m a v = Some (<[a := v]> m).
Proof. intros H. unfold stw. rewrite bool_decide_eq_true_2; eauto. Qed.

Lemma stw_some m a v : is_Some (m !! a) -> stw m a v = Some (<[a := v]> m).
Proof. intros [w Hw]. by eapply stw_eq. Qed.

(** A tag: the size, a multiple of 16, and flags in the low bits. *)
Definition tag (z : Z) (free big : bool) : Z := z + (if free then 1 else 0) + (if big then 4 else 0).

Lemma low4 z r s : (16 | z) -> 0 <= r < 16 -> 0 <= s < 16 ->
  Z.land (z + r) s = Z.land r s /\ Z.lor (z + r) s = z + Z.lor r s /\ Z.land (z + r) (Z.lnot s) = z + Z.land r (Z.lnot s).
Proof.
  intros [k ->] Hr Hs.
  assert (forall x, 0 <= x < 16 -> Z.land (k * 16) x = 0) as Hz.
  { intros x Hx. rewrite <- (Z.mod_small x (2 ^ 4)) by lia. rewrite <- Z.land_ones by lia.
    rewrite Z.land_comm, <- Z.land_assoc, (Z.land_comm (Z.ones 4)), Z.land_ones by lia. change (2 ^ 4) with 16. by rewrite Z.mod_mul, Z.land_0_r. }
  assert (forall x, 0 <= x < 16 -> k * 16 + x = Z.lor (k * 16) x) as Hl by (intros x Hx; apply Z.add_nocarry_lor, Hz; done).
  assert (0 <= Z.lor r s < 16) as Hrs.
  { split; [apply Z.lor_nonneg; lia|]. assert (Z.lor r s mod 2 ^ 4 = Z.lor r s) as <-; [|apply Z.mod_pos_bound; lia].
    rewrite <- Z.land_ones by lia. rewrite Z.land_lor_distr_l, !Z.land_ones by lia. change (2 ^ 4) with 16. rewrite !Z.mod_small by lia. done. }
  assert (0 <= Z.land r (Z.lnot s) < 16) as Hrn.
  { split; [apply Z.land_nonneg; lia|]. assert (Z.land r (Z.lnot s) mod 2 ^ 4 = Z.land r (Z.lnot s)) as <-; [|apply Z.mod_pos_bound; lia].
    rewrite <- Z.land_ones by lia. rewrite <- Z.land_assoc, (Z.land_comm (Z.lnot s)), Z.land_assoc, Z.land_ones by lia. change (2 ^ 4) with 16. rewrite Z.mod_small by lia. done. }
  split_and!.
  - rewrite Hl by done. by rewrite Z.land_lor_distr_l, Hz, Z.lor_0_l.
  - rewrite (Hl r), (Hl (Z.lor r s)) by done. by rewrite Z.lor_assoc.
  - rewrite (Hl r), (Hl (Z.land r (Z.lnot s))) by done. rewrite Z.land_lor_distr_l. f_equal.
    rewrite <- Z.ldiff_land. apply Z.bits_inj'. intros i Hi. rewrite Z.ldiff_spec.
    destruct (decide (i < 4)).
    + change 16 with (2 ^ 4). rewrite Z.mul_pow2_bits_low by done. done.
    + replace (Z.testbit s i) with false; [by rewrite andb_true_r|]. symmetry. rewrite <- (Z.mod_small s (2 ^ 4)) by lia. apply Z.mod_pow2_bits_high. lia.
Qed.

Lemma tag_facts z f g : (16 | z) ->
  Z.land (tag z f g) (Z.lnot FLAG_BITS) = z /\ flag (tag z f g) FREE_FLAG = f /\ flag (tag z f g) AREA_FLAG = false /\
  flag (tag z f g) SIZE_FLAG = g /\ Z.lor (tag z f g) FREE_FLAG = tag z true g /\ Z.land (tag z f g) (Z.lnot FREE_FLAG) = tag z false g /\
  Z.lor (tag z f g) SIZE_FLAG = tag z f true /\ Z.land (tag z f g) (Z.lnot SIZE_FLAG) = tag z f false.
Proof.
  intros Hz. unfold tag, flag, FLAG_BITS, FREE_FLAG, AREA_FLAG, SIZE_FLAG. rewrite <- !Z.add_assoc.
  set (r := (if f then 1 else 0) + (if g then 4 else 0)). assert (0 <= r < 16) as Hr by (unfold r; destruct f, g; lia).
  destruct (low4 z r 7 Hz Hr ltac:(lia)) as (_ & _ & ->). destruct (low4 z r 1 Hz Hr ltac:(lia)) as (-> & -> & ->).
  destruct (low4 z r 2 Hz Hr ltac:(lia)) as (-> & _ & _). destruct (low4 z r 4 Hz Hr ltac:(lia)) as (-> & -> & ->).
  unfold r. clear. destruct f, g; cbn; split_and!; first [done|lia|apply Z.add_0_r].
Qed.

(** ** Blocks *)

(** Address, size, the flag that it is free, and the free list it is on. *)
Record blk := mkB { bp : Z; bz : Z; bf : bool; bc : option Z }.

Definition with_bf (f : bool) (b : blk) : blk := mkB (bp b) (bz b) f (bc b).
Definition with_bc (c : option Z) (b : blk) : blk := mkB (bp b) (bz b) (bf b) c.

Section Tiles.
Implicit Types (bs A B : list blk) (b d : blk).

Fixpoint tiled (p : Z) bs (q : Z) : Prop :=
  match bs with
  | [] => p = q
  | b :: bs => bp b = p /\ 16 <= bz b /\ (16 | bz b) /\ tiled (p + bz b + 16) bs q
  end.

Lemma tiled_app p A B q : tiled p (A ++ B) q <-> exists r, tiled p A r /\ tiled r B q.
Proof.
  revert p. induction A as [|b A IH]; intros p; simpl; [naive_solver|]. rewrite IH. naive_solver.
Qed.

Lemma tiled_nil p q A : tiled p A q -> p <= q.
Proof. revert p. induction A as [|b A IH]; intros p; simpl; [lia|]. intros (_ & ? & _ & H). apply IH in H. lia. Qed.

Lemma tiled_in p bs q b : tiled p bs q -> b ∈ bs -> p <= bp b /\ bp b + bz b + 16 <= q /\ 16 <= bz b /\ (16 | bz b) /\ (16 | bp b - p).
Proof.
  revert p. induction bs as [|d bs IH]; intros p HT Hin; [set_solver|]. simpl in HT. destruct HT as (Hp & Hz & H16 & HT).
  pose proof (tiled_nil _ _ _ HT). apply elem_of_cons in Hin as [->|Hin].
  - rewrite Hp. split_and!; try lia; [done|exists 0; lia].
  - destruct (IH _ HT Hin) as (? & ? & ? & ? & H'). split_and!; try done; [lia|].
    replace (bp b - p) with (bp b - (p + bz d + 16) + (bz d + 16)) by lia. apply Z.divide_add_r; [done|]. apply Z.divide_add_r; [done|by exists 1].
Qed.

(** Two blocks of an area are the same or apart. *)
Lemma tiled_apart p bs q b d : tiled p bs q -> b ∈ bs -> d ∈ bs -> b = d \/ bp b + bz b + 16 <= bp d \/ bp d + bz d + 16 <= bp b.
Proof.
  revert p. induction bs as [|e bs IH]; intros p HT Hb Hd; [set_solver|]. simpl in HT. destruct HT as (Hp & Hz & H16 & HT).
  apply elem_of_cons in Hb as [->|Hb]; apply elem_of_cons in Hd as [->|Hd].
  - by left.
  - destruct (tiled_in _ _ _ _ HT Hd) as (? & _). right. left. lia.
  - destruct (tiled_in _ _ _ _ HT Hb) as (? & _). right. right. lia.
  - by eapply IH.
Qed.

(** The other blocks are apart from the one in the middle. *)
Lemma tiled_others p A b B q d : tiled p (A ++ b :: B) q -> d ∈ A ++ B -> bp b + bz b + 16 <= bp d \/ bp d + bz d + 16 <= bp b.
Proof.
  intros (r & HA & HB)%tiled_app [Hd|Hd]%elem_of_app; simpl in HB; destruct HB as (Hp & _ & _ & HB).
  - destruct (tiled_in _ _ _ _ HA Hd) as (_ & ? & _). lia.
  - destruct (tiled_in _ _ _ _ HB Hd) as (? & _). lia.
Qed.

(** Only flags differ. *)
Definition same_geo (A B : list blk) : Prop := ((fun b => (bp b, bz b)) <$> A) = ((fun b => (bp b, bz b)) <$> B).

Lemma tiled_geo p A B q : same_geo A B -> tiled p A q -> tiled p B q.
Proof.
  unfold same_geo. revert p B. induction A as [|a A IH]; intros p [|b B]; simpl; try done. intros [= Ep Ez E] (? & ? & ? & ?).
  rewrite <- Ep, <- Ez. split_and!; try done. by apply IH.
Qed.

(** ** Tags in memory *)

Definition tagged (m : wmem) b : Prop := exists g, m !! (bp b - 8) = Some (tag (bz b) (bf b) g) /\ m !! (bp b + bz b) = Some (tag (bz b) (bf b) g).

Lemma tagged_frame m m' b : m' !! (bp b - 8) = m !! (bp b - 8) -> m' !! (bp b + bz b) = m !! (bp b + bz b) -> tagged m b -> tagged m' b.
Proof. intros H1 H2 (g & ? & ?). exists g. by rewrite H1, H2. Qed.

Lemma size_ok m b : tagged m b -> (16 | bz b) -> blk_size m (bp b) = Some (bz b).
Proof. intros (g & Hh & _) H16. unfold blk_size, blk_head, ldw. rewrite Hh. cbn [mbind option_bind]. by rewrite (proj1 (tag_facts _ _ _ H16)). Qed.

Lemma freed_ok m b : tagged m b -> (16 | bz b) -> blk_freed m (bp b) = Some (bf b).
Proof.
  intros (g & Hh & _) H16. unfold blk_freed, blk_head, ldw. rewrite Hh. cbn [mbind option_bind].
  destruct (tag_facts (bz b) (bf b) g H16) as (_ & -> & _). done.
Qed.

(** Memory with the same words, the tags of [b] apart. *)
Definition but_tags (m m' : wmem) b : Prop :=
  (forall a, is_Some (m' !! a) <-> is_Some (m !! a)) /\ (forall a, a <> bp b - 8 -> a <> bp b + bz b -> m' !! a = m !! a).

(** Both tags get the same new value. *)
Lemma two_words m b v w :
  0 <= bz b -> is_Some (m !! (bp b - 8)) -> is_Some (m !! (bp b + bz b)) ->
  let m' := <[bp b + bz b := v]> (<[bp b - 8 := w]> m) in
  m' !! (bp b - 8) = Some w /\ m' !! (bp b + bz b) = Some v /\ but_tags m m' b.
Proof.
  intros H0 H1 H2 m'. unfold m', but_tags. split_and!.
  - rewrite lookup_insert_ne, lookup_insert_eq by lia. done.
  - apply lookup_insert_eq.
  - intros a. rewrite !lookup_insert_is_Some'. split; [|by eauto]. intros [<-|[<-|?]]; done.
  - intros a Ha1 Ha2. by rewrite !lookup_insert_ne by congruence.
Qed.

Lemma retag_ok m b g v w :
  m !! (bp b - 8) = Some w -> m !! (bp b + bz b) = Some w -> g w = v -> 0 <= bz b ->
  exists m', tags_map m (bp b) (bz b) g = Some m' /\ m' !! (bp b - 8) = Some v /\ m' !! (bp b + bz b) = Some v /\ but_tags m m' b.
Proof.
  intros Hh Ht Hg H0. unfold tags_map, blk_head, blk_tail, ldw. rewrite Hh. cbn [mbind option_bind]. rewrite (stw_eq _ _ _ _ Hh). cbn [mbind option_bind].
  rewrite lookup_insert_ne, Ht by lia. cbn [mbind option_bind]. rewrite (stw_eq _ _ _ w) by (by rewrite lookup_insert_ne by lia).
  rewrite Hg. eexists. split; [done|]. apply two_words; eauto.
Qed.

(** Setting and clearing flags. *)
Lemma setfreed_ok m b : tagged m b -> 0 <= bz b -> (16 | bz b) ->
  exists m', blk_setfreed m (bp b) (bz b) = Some m' /\ tagged m' (with_bf true b) /\ but_tags m m' b.
Proof.
  intros (g & Hh & Ht) H0 H16. destruct (tag_facts (bz b) (bf b) g H16) as (_ & _ & _ & _ & Hor & _).
  destruct (retag_ok m b (fun w => Z.lor w FREE_FLAG) _ _ Hh Ht Hor H0) as (m' & ? & ? & ? & ?). exists m'. split; [done|]. split; [by exists g|done].
Qed.

Lemma setalloced_ok m b : tagged m b -> 0 <= bz b -> (16 | bz b) ->
  exists m', blk_setalloced m (bp b) (bz b) = Some m' /\ tagged m' (with_bf false b) /\ but_tags m m' b.
Proof.
  intros (g & Hh & Ht) H0 H16. destruct (tag_facts (bz b) (bf b) g H16) as (_ & _ & _ & _ & _ & Hand & _).
  destruct (retag_ok m b (fun w => Z.land w (Z.lnot FREE_FLAG)) _ _ Hh Ht Hand H0) as (m' & ? & ? & ? & ?). exists m'. split; [done|]. split; [by exists g|done].
Qed.

(** [if (is_2M) blk_set_area_2M(...)] *)
Lemma set_big_ok m b (is_2M : bool) : tagged m b -> 0 <= bz b -> (16 | bz b) ->
  exists m', (if is_2M then blk_set_area_2M m (bp b) (bz b) else Some m) = Some m' /\ tagged m' b /\ but_tags m m' b.
Proof.
  intros Htag H0 H16. destruct is_2M; [|exists m; by split_and!]. destruct Htag as (g & Hh & Ht).
  destruct (tag_facts (bz b) (bf b) g H16) as (_ & _ & _ & _ & _ & _ & Hor & _).
  destruct (retag_ok m b (fun w => Z.lor w SIZE_FLAG) _ _ Hh Ht Hor H0) as (m' & ? & ? & ? & ?). exists m'. split; [done|]. split; [by exists true|done].
Qed.

(** [blk_setsize] makes the tags of an allocated block. *)
Lemma setsize_ok m b : bf b = false -> 0 <= bz b -> is_Some (m !! (bp b - 8)) -> is_Some (m !! (bp b + bz b)) ->
  exists m', blk_setsize m (bp b) (bz b) = Some m' /\ tagged m' b /\ but_tags m m' b.
Proof.
  intros Hf H0 H1 H2. unfold blk_setsize. rewrite stw_some by done. cbn [mbind option_bind].
  rewrite stw_some by (rewrite lookup_insert_ne by lia; done). eexists. split; [done|].
  destruct (two_words m b (bz b) (bz b) H0 H1 H2) as (E1 & E2 & H). split; [|done]. exists false. unfold tag. rewrite Hf, !Z.add_0_r. done.
Qed.

Lemma but_tags_trans m1 m2 m3 b : but_tags m1 m2 b -> but_tags m2 m3 b -> but_tags m1 m3 b.
Proof. intros [D1 H1] [D2 H2]. split; [intros a; by rewrite D2|intros a ? ?; by rewrite H2, H1]. Qed.

End Tiles.

(** * The free lists of the heap

    [seg] says what a doubly linked free list looks like in memory; the word
    before the head is arbitrary, since detaching the head leaves the old
    pointer in the next node. Putting, detaching and searching are shown to
    be the list operations, and to write links of nodes only. *)

Implicit Types (m : wmem) (l k : list Z).

(** The first node, [e] behind the end. *)
Definition first l (e : Z) : Z := match l with [] => e | x :: _ => x end.

Fixpoint seg m (prev : option Z) l (e : Z) : Prop :=
  match l with
  | [] => True
  | x :: l =>
    m !! x = Some (first l e) /\ match prev with Some p => m !! (x + 8) = Some p | None => is_Some (m !! (x + 8)) end /\
    seg m (Some x) l e
  end.

(** Nodes are blocks: not NULL and apart. *)
Definition spread l : Prop := (forall x, x ∈ l -> x <> 0) /\ (forall x y, x ∈ l -> y ∈ l -> x = y \/ x + 32 <= y \/ y + 32 <= x).

Lemma spread_sub l k : k ⊆ l -> spread l -> spread k.
Proof. intros Hs [H0 H]. split; [intros x Hx; apply H0, Hs, Hx|intros x y Hx Hy; apply H; by apply Hs]. Qed.

(** The links of the nodes [l] may have changed, nothing else. *)
Definition off_links l m m' : Prop :=
  (forall a, is_Some (m' !! a) <-> is_Some (m !! a)) /\ (forall a, (forall x, x ∈ l -> ~ (x <= a < x + 16)) -> m' !! a = m !! a).

Lemma off_links_refl l m : off_links l m m.
Proof. by split. Qed.

Lemma off_links_insert l m m' x a v : off_links l m m' -> x ∈ l -> x <= a < x + 16 -> is_Some (m !! a) -> off_links l m (<[a := v]> m').
Proof.
  intros [Hd H] Hx Ha Hs. split.
  - intros b. rewrite lookup_insert_is_Some', Hd. split; [|by eauto]. intros [<-|]; done.
  - intros b Hb. rewrite lookup_insert_ne; [by apply H|]. intros <-. by apply (Hb x).
Qed.

Lemma seg_ext m m' p l e : (forall x, x ∈ l -> m' !! x = m !! x /\ m' !! (x + 8) = m !! (x + 8)) -> seg m p l e -> seg m' p l e.
Proof.
  revert p. induction l as [|x l IH]; intros p Hx; simpl; [done|]. destruct (Hx x ltac:(set_solver)) as [-> ->]. intros (? & ? & ?).
  split_and!; try done. apply IH; set_solver.
Qed.

Lemma seg_weaken m p l e : seg m p l e -> seg m None l e.
Proof. destruct l as [|x l]; simpl; [done|]. destruct p; naive_solver. Qed.

(** The list in two parts around the node [p]. *)
Lemma chain_app m q k p l e : seg m q (k ++ p :: l) e <-> seg m q (k ++ [p]) (first l e) /\ seg m (Some p) l e.
Proof.
  revert q. induction k as [|x k IH]; intros q; simpl; [naive_solver|].
  replace (first ((k ++ [p])) (first l e)) with (first (k ++ p :: l) e) by (by destruct k). rewrite IH. naive_solver.
Qed.

(** A new next node of the last one. *)
Lemma seg_last m m' q k p e e' :
  (forall x, x ∈ k -> m' !! x = m !! x /\ m' !! (x + 8) = m !! (x + 8)) -> m' !! p = Some e' -> m' !! (p + 8) = m !! (p + 8) ->
  seg m q (k ++ [p]) e -> seg m' q (k ++ [p]) e'.
Proof.
  revert q. induction k as [|x k IH]; intros q Hx Hp Hp8; simpl.
  - intros (_ & ? & _). rewrite Hp8. by split_and!.
  - destruct (Hx x ltac:(set_solver)) as [-> ->]. intros (Hn & ? & ?). split_and!; try done.
    + rewrite Hn. by destruct k.
    + apply IH; set_solver.
Qed.

Lemma seg_mapped m p l e x : seg m p l e -> x ∈ l -> is_Some (m !! x) /\ is_Some (m !! (x + 8)).
Proof.
  revert p. induction l as [|y l IH]; intros p; [set_solver|]. simpl. intros (H1 & H2 & H3) [->|Hx]%elem_of_cons; [|by eapply IH].
  split; [by eauto|]. destruct p; [by eauto|done].
Qed.

Lemma freelist_put_ok m l x :
  seg m None l 0 -> NoDup (x :: l) -> spread (x :: l) -> is_Some (m !! x) -> is_Some (m !! (x + 8)) ->
  exists m', freelist_put m (first l 0) x = Some m' /\ seg m' None (x :: l) 0 /\ off_links (x :: l) m m'.
Proof.
  intros Hs Hnd [H0 Hap] Hx Hx8. unfold freelist_put. rewrite stw_some by done. cbn [mbind option_bind].
  rewrite stw_some by (rewrite lookup_insert_ne by lia; done). cbn [mbind option_bind]. unfold ldw.
  rewrite lookup_insert_ne, lookup_insert_eq by lia. cbn [mbind option_bind].
  set (m1 := <[x + 8 := 0]> (<[x := first l 0]> m)).
  assert (off_links (x :: l) m m1) as Hoff.
  { apply (off_links_insert _ _ _ x); [apply (off_links_insert _ _ _ x); [apply off_links_refl|set_solver|lia|done]|set_solver|lia|done]. }
  assert (forall z, z ∈ l -> x + 32 <= z \/ z + 32 <= x) as Haw.
  { intros z Hz. destruct (Hap x z) as [->|]; [set_solver|set_solver| |done]. apply NoDup_cons in Hnd as [? _]. done. }
  destruct l as [|y l]; cbn [first].
  - rewrite Z.eqb_refl. eexists. split; [done|]. split; [|done]. simpl. unfold m1. rewrite lookup_insert_ne, !lookup_insert_eq by lia. eauto.
  - destruct (Z.eqb_spec y 0) as [->|_]; [exfalso; apply (H0 0); set_solver|]. simpl in Hs. destruct Hs as (Hy & Hy8 & Hl).
    assert (is_Some (m1 !! (y + 8))) as Hym by (by apply Hoff).
    rewrite (stw_some m1 (y + 8) x Hym). eexists. split; [done|]. split.
    + pose proof (Haw y ltac:(set_solver)). simpl. unfold m1. cbn [first].
      rewrite !(lookup_insert_ne _ (y + 8)) by lia. rewrite (lookup_insert_ne _ (x + 8) x), !lookup_insert_eq by lia.
      rewrite !lookup_insert_ne by lia. rewrite Hy. split_and!; [done|by eauto|done|done|].
      eapply seg_ext; [|apply Hl]. intros z Hz. pose proof (Haw z ltac:(set_solver)).
      destruct (Hap y z) as [->|]; [set_solver|set_solver| |].
      { apply NoDup_cons in Hnd as [_ [? _]%NoDup_cons]. done. }
      by rewrite !lookup_insert_ne by lia.
    + apply (off_links_insert _ _ _ y); [done|set_solver|lia|done].
Qed.

(** Detaching a node, the head or another one. *)
Lemma unlink_ok m l1 x l2 :
  seg m None (l1 ++ x :: l2) 0 -> NoDup (l1 ++ x :: l2) -> spread (l1 ++ x :: l2) ->
  (l1 = [] /\ ldw m x = Some (first l2 0) /\ seg m None l2 0) \/
  (first (l1 ++ x :: l2) 0 <> x /\ first (l1 ++ x :: l2) 0 = first (l1 ++ l2) 0 /\
   exists m', unlink_node m x = Some m' /\ seg m' None (l1 ++ l2) 0 /\ off_links (l1 ++ l2) m m').
Proof.
  intros Hs Hnd [H0 Hap]. destruct (list_snoc l1) as [->|(k & p & ->)].
  { left. simpl in Hs. destruct Hs as (Hx & _ & Hs). split_and!; [done|done|by eapply seg_weaken]. }
  right. rewrite <- (assoc_L (++)) in Hs, Hnd, Hap, H0 |- *. cbn [app] in Hs, Hnd, Hap, H0 |- *.
  assert (forall a b, a ∈ k ++ p :: x :: l2 -> b ∈ k ++ p :: x :: l2 -> a <> b -> a + 32 <= b \/ b + 32 <= a) as Haw.
  { intros a b Ha Hb Hne. destruct (Hap a b Ha Hb); [done|done]. }
  assert ((p ∉ k) /\ (p ∉ l2) /\ p <> x /\ (x ∉ k) /\ (x ∉ l2) /\ (forall z, z ∈ k -> z ∉ l2) /\ NoDup l2) as (Hpk & Hp2 & Hpx & Hxk & Hx2 & Hk2 & Hn2).
  { apply NoDup_app in Hnd as (_ & Hd & Hn). apply NoDup_cons in Hn as [Hp Hn]. apply NoDup_cons in Hn as [Hx Hn]. set_solver. }
  split; [destruct k; set_solver|]. split; [by destruct k|].
  apply chain_app in Hs as [Hk Hs]. simpl in Hs. destruct Hs as (Hx & Hx8 & Hl).
  destruct (seg_mapped _ _ _ _ p Hk ltac:(set_solver)) as [Hpm Hpm8].
  unfold unlink_node, ldw. rewrite Hx. cbn [mbind option_bind]. rewrite Hx8. cbn [mbind option_bind].
  assert ((p =? 0) = false) as Hp0 by (apply Z.eqb_neq, H0; set_solver).
  assert (p + 32 <= x \/ x + 32 <= p) as Hpx' by (apply Haw; set_solver).
  rewrite <- (assoc_L (++)). cbn [app]. destruct l2 as [|n l2]; cbn [first].
  - cbn [Z.eqb mbind option_bind]. rewrite Hx8. cbn [mbind option_bind]. rewrite Hp0, Hx. cbn [mbind option_bind first]. rewrite stw_some by done. eexists. split; [done|]. split.
    + eapply seg_last; [|apply lookup_insert_eq|by rewrite lookup_insert_ne by lia|apply Hk].
      intros z Hz. assert (z + 32 <= p \/ p + 32 <= z) by (apply Haw; set_solver). by rewrite !lookup_insert_ne by lia.
    + apply (off_links_insert _ _ _ p); [apply off_links_refl|set_solver|lia|done].
  - cbn [first].
    assert ((n =? 0) = false) as -> by (apply Z.eqb_neq, H0; set_solver). simpl in Hl. destruct Hl as (Hn & Hn8 & Hl).
    assert (n + 32 <= x \/ x + 32 <= n) by (apply Haw; set_solver). assert (p + 32 <= n \/ n + 32 <= p) by (apply Haw; set_solver).
    rewrite (stw_eq _ _ _ _ Hn8). cbn [mbind option_bind]. rewrite (lookup_insert_ne _ _ (x + 8)), Hx8 by lia. cbn [mbind option_bind].
    rewrite Hp0. rewrite (lookup_insert_ne _ _ x), Hx by lia. cbn [mbind option_bind first].
    rewrite stw_some by (rewrite lookup_insert_ne by lia; done). eexists. split; [done|]. split.
    + apply chain_app. cbn [first]. split.
      * eapply seg_last; [|by rewrite lookup_insert_eq|by rewrite !lookup_insert_ne by lia|apply Hk].
        intros z Hz. assert (z + 32 <= p \/ p + 32 <= z) by (apply Haw; set_solver). assert (z + 32 <= n \/ n + 32 <= z) by (apply Haw; set_solver).
        by rewrite !lookup_insert_ne by lia.
      * simpl. rewrite (lookup_insert_ne _ p n), (lookup_insert_ne _ (n + 8) n), (lookup_insert_ne _ p (n + 8)), lookup_insert_eq by lia.
        split_and!; [done|done|]. eapply seg_ext; [|apply Hl]. intros z Hz. assert (z + 32 <= p \/ p + 32 <= z) by (apply Haw; set_solver).
        apply NoDup_cons in Hn2 as [? _]. assert (z + 32 <= n \/ n + 32 <= z) by (apply Haw; set_solver). by rewrite !lookup_insert_ne by lia.
    + apply (off_links_insert _ _ _ p); [|set_solver|lia|done].
      apply (off_links_insert _ _ _ n); [apply off_links_refl|set_solver|lia|by eauto].
Qed.

(** ** Searching *)

(** The bound on the search is enough: the nodes are words of the memory. *)
Lemma seg_short m p l e : seg m p l e -> NoDup l -> (length l < fl_fuel m)%nat.
Proof.
  intros Hs Hn. unfold fl_fuel. rewrite <- size_dom. rewrite <- (size_list_to_set (C := gset Z) l Hn).
  apply Nat.lt_succ_r, subseteq_size. intros x Hx. apply elem_of_list_to_set in Hx. apply elem_of_dom. by eapply seg_mapped.
Qed.

(** The search ends with the first node that fits, if there is one. *)
Lemma match_loop_ok fuel m (fits : Z -> option bool) (f : Z -> bool) p l :
  seg m p l 0 -> (forall x, x ∈ l -> x <> 0 /\ fits x = Some (f x)) -> (length l < fuel)%nat ->
  (match_loop fuel m fits (first l 0) = Some 0 /\ forall x, x ∈ l -> f x = false) \/
  (exists l1 x l2, l = l1 ++ x :: l2 /\ f x = true /\ match_loop fuel m fits (first l 0) = Some x).
Proof.
  revert p fuel. induction l as [|y l IH]; intros p fuel Hs Hf Hlen; (destruct fuel as [|fuel]; [simpl in Hlen; lia|]); cbn [match_loop first].
  { left. split; [done|set_solver]. }
  destruct (Hf y ltac:(set_solver)) as [Hy ->]. destruct (Z.eqb_spec y 0); [done|]. cbn [mbind option_bind].
  destruct (f y) eqn:E; [right; exists [], y, l; done|]. simpl in Hs, Hlen. destruct Hs as (Hn & _ & Hs). unfold ldw. rewrite Hn. cbn [mbind option_bind].
  destruct (IH _ fuel Hs) as [[H Hno]|(l1 & x & l2 & -> & Hx & H)]; [set_solver|lia| |].
  - left. split; [done|]. set_solver.
  - right. exists (y :: l1), x, l2. done.
Qed.
