(* ===== verification/MpoolInv.v ===== *)
(** * The representation of the heap

    [area]: the blocks tile the memory of the pool, between the two words that
    mark its ends, and their tags are right. [lists]: the free lists hold
    exactly the blocks that say so. The steps of the allocator are shown to
    change them one block at a time, and to keep the data of every block that
    is not on a list. *)

From stdpp Require Import gmap.
From S2P Require Import Prelude Mpool MpoolRep.

Implicit Types (m : wmem) (bs A B : list blk) (b d : blk) (L : Z -> list Z).

Definition end_mark m (a : Z) : Prop := exists w, m !! a = Some w /\ flag w AREA_FLAG = true.

Record area m (base len : Z) bs : Prop := {
  ar_pos : 64 <= base;
  ar_top : base + len < two64;
  ar_tiled : tiled (base + 16) bs (base + len);
  ar_mapped : forall a, base <= a < base + len -> (8 | a - base) -> is_Some (m !! a);
  ar_lo : end_mark m base;
  ar_hi : end_mark m (base + len - 8);
  ar_tags : forall b, b ∈ bs -> tagged m b
}.

Lemma area_blk m base len bs b : area m base len bs -> b ∈ bs ->
  base + 16 <= bp b /\ bp b + bz b + 16 <= base + len /\ 16 <= bz b /\ (16 | bz b) /\ (16 | bp b - base).
Proof.
  intros H Hb. destruct (tiled_in _ _ _ _ (ar_tiled _ _ _ _ H) Hb) as (? & ? & ? & ? & Hd). split_and!; try done.
  replace (bp b - base) with (bp b - (base + 16) + 16) by lia. apply Z.divide_add_r; [done|by exists 1].
Qed.

Lemma area_eq m base len bs b d : area m base len bs -> b ∈ bs -> d ∈ bs -> bp b = bp d -> b = d.
Proof.
  intros H Hb Hd E. destruct (tiled_apart _ _ _ _ _ (ar_tiled _ _ _ _ H) Hb Hd) as [|Hx]; [done|].
  destruct (area_blk _ _ _ _ _ H Hb) as (_ & _ & ? & _). destruct (area_blk _ _ _ _ _ H Hd) as (_ & _ & ? & _). lia.
Qed.

(** A word of a block is there. *)
Lemma area_word m base len bs b a : area m base len bs -> b ∈ bs -> bp b - 8 <= a <= bp b + bz b -> (8 | a - bp b) -> is_Some (m !! a).
Proof.
  intros H Hb Ha H8. destruct (area_blk _ _ _ _ _ H Hb) as (? & ? & ? & ? & [k Hk]). destruct H8 as [j Hj].
  apply (ar_mapped _ _ _ _ H); [lia|]. exists (j + 2 * k). lia.
Qed.

(** The words of a range are the same. *)
Definition same_on (lo hi : Z) m m' : Prop := forall a w, lo <= a < hi -> m !! a = Some w -> m' !! a = Some w.

Lemma same_on_eq lo hi m m' : (forall a, lo <= a < hi -> m' !! a = m !! a) -> same_on lo hi m m'.
Proof. intros H a w Ha Hw. by rewrite H. Qed.
Lemma same_on_mono lo hi m m' : m ⊆ m' -> same_on lo hi m m'.
Proof. intros H a w _ Hw. by eapply lookup_weaken. Qed.

Lemma same_on_refl lo hi m : same_on lo hi m m.
Proof. by intros a. Qed.
Lemma same_on_trans lo hi m1 m2 m3 : same_on lo hi m1 m2 -> same_on lo hi m2 m3 -> same_on lo hi m1 m3.
Proof. intros H1 H2 a w Ha Hw. by apply H2, H1. Qed.
Lemma same_on_sub lo hi lo' hi' m m' : lo <= lo' -> hi' <= hi -> same_on lo hi m m' -> same_on lo' hi' m m'.
Proof. intros ? ? H a w Ha. apply H. lia. Qed.

(** The data of [d] is the same. *)
Definition kept d m m' : Prop := same_on (bp d) (bp d + bz d) m m'.

Lemma kept_trans d m1 m2 m3 : kept d m1 m2 -> kept d m2 m3 -> kept d m1 m3.
Proof. apply same_on_trans. Qed.

(** ** Changes of tags and of links *)

Section Steps.
Context (base len : Z).

Lemma area_tags m m' A b b' B :
  area m base len (A ++ b :: B) -> but_tags m m' b -> tagged m' b' -> bp b' = bp b -> bz b' = bz b -> area m' base len (A ++ b' :: B).
Proof.
  intros H [Hd Hm] Ht Ep Ez. assert (b ∈ A ++ b :: B) as Hb by set_solver. destruct (area_blk _ _ _ _ _ H Hb) as (? & ? & ? & ? & _).
  assert (forall a, end_mark m a -> a <> bp b - 8 -> a <> bp b + bz b -> end_mark m' a) as Hend.
  { intros a (w & Hw & Hf) ? ?. exists w. by rewrite Hm. }
  split.
  - apply H.
  - apply H.
  - eapply tiled_geo; [|apply H]. unfold same_geo. rewrite !fmap_app. simpl. by rewrite Ep, Ez.
  - intros a Ha H8. apply Hd. by apply (ar_mapped _ _ _ _ H).
  - apply Hend; [apply H|lia|lia].
  - apply Hend; [apply H|lia|lia].
  - intros d Hdin. assert (d = b' \/ d ∈ A ++ B) as [->|Hin] by set_solver; [done|].
    assert (d ∈ A ++ b :: B) as Hd' by set_solver. destruct (area_blk _ _ _ _ _ H Hd') as (_ & _ & ? & _).
    eapply tagged_frame; [| |by apply (ar_tags _ _ _ _ H)].
    all: destruct (tiled_others _ _ _ _ _ _ (ar_tiled _ _ _ _ H) Hin); apply Hm; lia.
Qed.

Lemma tags_kept m m' bs b d : area m base len bs -> b ∈ bs -> d ∈ bs -> but_tags m m' b -> kept d m m'.
Proof.
  intros H Hb Hd [_ Hm]. apply same_on_eq. intros a Ha. destruct (area_blk _ _ _ _ _ H Hb) as (_ & _ & ? & _).
  destruct (tiled_apart _ _ _ _ _ (ar_tiled _ _ _ _ H) Hb Hd) as [->|Hx]; apply Hm; lia.
Qed.

Lemma area_links m m' bs l : area m base len bs -> (forall x, x ∈ l -> exists b, b ∈ bs /\ bp b = x) -> off_links l m m' -> area m' base len bs.
Proof.
  intros H Hl [Hd Hm].
  assert (forall a, end_mark m a -> (forall b, b ∈ bs -> ~ (bp b <= a < bp b + 16)) -> end_mark m' a) as Hend.
  { intros a (w & Hw & Hf) Ha. exists w. rewrite Hm; [done|]. intros x Hx. destruct (Hl x Hx) as (b & Hb & <-). by apply Ha. }
  split.
  - apply H.
  - apply H.
  - apply H.
  - intros a Ha H8. apply Hd. by apply (ar_mapped _ _ _ _ H).
  - apply Hend; [apply H|]. intros b Hb. destruct (area_blk _ _ _ _ _ H Hb) as (? & _). lia.
  - apply Hend; [apply H|]. intros b Hb. destruct (area_blk _ _ _ _ _ H Hb) as (? & ? & ? & _). lia.
  - intros d Hdin. eapply tagged_frame; [| |by apply (ar_tags _ _ _ _ H)].
    all: apply Hm; intros x Hx; destruct (Hl x Hx) as (b & Hb & <-); destruct (area_blk _ _ _ _ _ H Hb) as (_ & _ & ? & _);
      destruct (area_blk _ _ _ _ _ H Hdin) as (_ & _ & ? & _); destruct (tiled_apart _ _ _ _ _ (ar_tiled _ _ _ _ H) Hb Hdin) as [->|Hap]; lia.
Qed.

Lemma links_kept m m' bs l d : area m base len bs -> (forall x, x ∈ l -> exists b, b ∈ bs /\ bp b = x /\ b <> d) -> d ∈ bs -> off_links l m m' -> kept d m m'.
Proof.
  intros H Hl Hd [_ Hm]. apply same_on_eq. intros a Ha. apply Hm. intros x Hx. destruct (Hl x Hx) as (b & Hb & <- & Hne).
  destruct (area_blk _ _ _ _ _ H Hb) as (_ & _ & ? & _). destruct (tiled_apart _ _ _ _ _ (ar_tiled _ _ _ _ H) Hb Hd) as [->|Hap]; [done|]. lia.
Qed.

Lemma area_spread m bs l : area m base len bs -> (forall x, x ∈ l -> exists b, b ∈ bs /\ bp b = x) -> spread l.
Proof.
  intros H Hl. split.
  - intros x Hx. destruct (Hl x Hx) as (b & Hb & <-). destruct (area_blk _ _ _ _ _ H Hb) as (? & _). pose proof (ar_pos _ _ _ _ H). lia.
  - intros x y Hx Hy. destruct (Hl x Hx) as (b & Hb & <-). destruct (Hl y Hy) as (d & Hd & <-).
    destruct (area_blk _ _ _ _ _ H Hb) as (_ & _ & ? & _). destruct (area_blk _ _ _ _ _ H Hd) as (_ & _ & ? & _).
    destruct (tiled_apart _ _ _ _ _ (ar_tiled _ _ _ _ H) Hb Hd) as [->|Hap]; [by left|]. lia.
Qed.
End Steps.

(** ** The free lists *)

(** List -1 is the one of the large blocks. *)
Definition list_head (p : mpool) (c : Z) : option Z := if c <? 0 then Some (mp_large p) else zget (mp_freed p) c.

Record lists m (p : mpool) bs L : Prop := {
  ls_len : zlen (mp_freed p) = FREELIST_NUM;
  ls_head : forall c, -1 <= c < FREELIST_NUM -> list_head p c = Some (first (L c) 0);
  ls_seg : forall c, seg m None (L c) 0;
  ls_nodup : forall c, NoDup (L c);
  ls_on : forall c x, x ∈ L c <-> exists b, b ∈ bs /\ bp b = x /\ bc b = Some c
}.

Definition set_list L (c : Z) (l : list Z) : Z -> list Z := fun c' => if decide (c' = c) then l else L c'.

Lemma ls_block m p bs L c x : lists m p bs L -> x ∈ L c -> exists b, b ∈ bs /\ bp b = x.
Proof. intros H Hx. apply (ls_on _ _ _ _ H) in Hx as (b & ? & ? & _). eauto. Qed.

(** Tags have nothing to do with the lists. *)
Lemma lists_tags base len m m' p A b b' B L :
  area m base len (A ++ b :: B) -> lists m p (A ++ b :: B) L -> but_tags m m' b -> bp b' = bp b -> bc b' = bc b -> lists m' p (A ++ b' :: B) L.
Proof.
  intros Ha H [_ Hm] Ep Ec. split; [apply H|apply H| |apply H|].
  - intros c. eapply seg_ext; [|apply H]. intros x Hx. destruct (ls_block _ _ _ _ _ _ H Hx) as (d & Hd & <-).
    assert (b ∈ A ++ b :: B) as Hb by set_solver. destruct (area_blk _ _ _ _ _ Ha Hb) as (_ & _ & ? & _). destruct (area_blk _ _ _ _ _ Ha Hd) as (_ & _ & ? & _).
    destruct (tiled_apart _ _ _ _ _ (ar_tiled _ _ _ _ Ha) Hb Hd) as [->|Hap]; (split; apply Hm; lia).
  - intros c x. rewrite (ls_on _ _ _ _ H). split; intros (d & Hd & <- & <-).
    + assert (d = b \/ d ∈ A ++ B) as [->|Hin] by set_solver; [exists b'|exists d]; set_solver.
    + assert (d = b' \/ d ∈ A ++ B) as [->|Hin] by set_solver; [exists b|exists d]; set_solver.
Qed.

(** One list and the nodes on it change. *)
Lemma lists_change base len m m' p p' bs bs' L c l K :
  area m base len bs -> lists m p bs L -> off_links K m m' ->
  (forall x, x ∈ K -> exists b, b ∈ bs /\ bp b = x /\ (bc b = None \/ bc b = Some c)) ->
  seg m' None l 0 -> NoDup l -> zlen (mp_freed p') = FREELIST_NUM ->
  (forall c', -1 <= c' < FREELIST_NUM -> list_head p' c' = if decide (c' = c) then Some (first l 0) else list_head p c') ->
  (forall x, x ∈ l <-> exists b, b ∈ bs' /\ bp b = x /\ bc b = Some c) ->
  (forall x c', c' <> c -> (exists b, b ∈ bs' /\ bp b = x /\ bc b = Some c') <-> (exists b, b ∈ bs /\ bp b = x /\ bc b = Some c')) ->
  lists m' p' bs' (set_list L c l).
Proof.
  intros Ha H [_ Hm] HK Hs Hn Hlen Hh Hon Hother. split; [done| | | |].
  - intros c' Hc'. rewrite Hh by done. unfold set_list. case_decide; [done|]. by apply H.
  - intros c'. unfold set_list. case_decide as E; [done|]. eapply seg_ext; [|apply H]. intros x Hx.
    apply (ls_on _ _ _ _ H) in Hx as (d & Hd & <- & Hc). assert (forall a, bp d <= a < bp d + 16 -> m' !! a = m !! a) as Heq; [|split; apply Heq; lia].
    intros a Hlt. apply Hm. intros y Hy. destruct (HK y Hy) as (b & Hb & <- & Hbc).
    destruct (area_blk _ _ _ _ _ Ha Hb) as (_ & _ & ? & _). destruct (area_blk _ _ _ _ _ Ha Hd) as (_ & _ & ? & _).
    destruct (tiled_apart _ _ _ _ _ (ar_tiled _ _ _ _ Ha) Hb Hd) as [->|Hap]; [|lia]. destruct Hbc as [Hbc|Hbc]; congruence.
  - intros c'. unfold set_list. case_decide; [done|]. apply H.
  - intros c' x. unfold set_list. case_decide as E; [by subst|]. rewrite Hother by done. apply H.
Qed.

(** The blocks on a list, when one block comes to it or leaves it. *)
Lemma on_put A b b' B c c' x : bc b = None -> bp b' = bp b -> bc b' = Some c -> c' <> c ->
  (exists d, d ∈ A ++ b' :: B /\ bp d = x /\ bc d = Some c') <-> (exists d, d ∈ A ++ b :: B /\ bp d = x /\ bc d = Some c').
Proof.
  intros Hb Ep Hb' Hne. split; intros (d & Hd & <- & Hc).
  - assert (d = b' \/ d ∈ A ++ B) as [->|Hin] by set_solver; [congruence|exists d; set_solver].
  - assert (d = b \/ d ∈ A ++ B) as [->|Hin] by set_solver; [congruence|exists d; set_solver].
Qed.

Lemma on_put_here A b b' B c x : bc b = None -> bp b' = bp b -> bc b' = Some c ->
  (exists d, d ∈ A ++ b' :: B /\ bp d = x /\ bc d = Some c) <-> x = bp b \/ (exists d, d ∈ A ++ b :: B /\ bp d = x /\ bc d = Some c).
Proof.
  intros Hb Ep Hb'. split.
  - intros (d & Hd & <- & Hc). assert (d = b' \/ d ∈ A ++ B) as [->|Hin] by set_solver; [by left|right; exists d; set_solver].
  - intros [->|(d & Hd & <- & Hc)]; [exists b'; set_solver|].
    assert (d = b \/ d ∈ A ++ B) as [->|Hin] by set_solver; [congruence|exists d; set_solver].
Qed.
