(* ===== verification/MpoolOps.v ===== *)
(** * The heap operations on the block list: put, detach, merge, split

    [rep h bs]: the blocks [bs] are the ones of the heap [h]. Each step of the
    code changes one or two neighbouring blocks of the list. *)

From stdpp Require Import gmap.
From S2P Require Import Prelude Mpool MpoolRep MpoolInv.

Implicit Types (m : wmem) (bs A B : list blk) (b d : blk) (L : Z -> list Z) (h : hsys).

Definition rep_with h bs L : Prop := area (h_mem h) (mp_ptr (h_pool h)) (mp_size (h_pool h)) bs /\ lists (h_mem h) (h_pool h) bs L.
Definition rep h bs : Prop := exists L, rep_with h bs L.

(** The same area and the same account. *)
Definition same_pool h h' : Prop :=
  mp_ptr (h_pool h') = mp_ptr (h_pool h) /\ mp_size (h_pool h') = mp_size (h_pool h) /\ mp_alloced (h_pool h') = mp_alloced (h_pool h).

Lemma same_pool_refl h : same_pool h h.
Proof. done. Qed.
Lemma same_pool_trans h1 h2 h3 : same_pool h1 h2 -> same_pool h2 h3 -> same_pool h1 h3.
Proof. unfold same_pool. intros (? & ? & ?) (? & ? & ?). split_and!; congruence. Qed.

(** The data of the unlisted blocks among [ds] is the same. *)
Definition keeps (ds : list blk) h h' : Prop := forall d, d ∈ ds -> bc d = None -> kept d (h_mem h) (h_mem h').

Lemma hkeeps_trans ds h1 h2 h3 : keeps ds h1 h2 -> keeps ds h2 h3 -> keeps ds h1 h3.
Proof. intros H1 H2 d Hd Hc. eapply kept_trans; [by apply H1|by apply H2]. Qed.
Lemma hkeeps_sub ds es h h' : es ⊆ ds -> keeps ds h h' -> keeps es h h'.
Proof. intros Hs H d Hd. apply H, Hs, Hd. Qed.
Lemma hkeeps_refl ds h : keeps ds h h.
Proof. intros d _ _. apply same_on_refl. Qed.

(** ** Lists *)

(** A block comes to list [c]. *)
Lemma put_lists base len m p A b B L c :
  area m base len (A ++ b :: B) -> lists m p (A ++ b :: B) L -> bc b = None ->
  exists m', freelist_put m (first (L c) 0) (bp b) = Some m' /\ area m' base len (A ++ with_bc (Some c) b :: B) /\
    (forall d, d ∈ A ++ B -> bc d = None -> kept d m m') /\
    (forall p', zlen (mp_freed p') = FREELIST_NUM ->
       (forall c', -1 <= c' < FREELIST_NUM -> list_head p' c' = if decide (c' = c) then Some (bp b) else list_head p c') ->
       lists m' p' (A ++ with_bc (Some c) b :: B) (set_list L c (bp b :: L c))).
Proof.
  intros Ha Hl Hb. assert (b ∈ A ++ b :: B) as Hin by set_solver. destruct (area_blk _ _ _ _ _ Ha Hin) as (? & ? & ? & ? & _).
  assert (bp b ∉ L c) as Hni.
  { intros (d & Hd & E & Hc)%(ls_on _ _ _ _ Hl). rewrite (area_eq _ _ _ _ _ _ Ha Hd Hin E) in Hc. congruence. }
  assert (forall x, x ∈ bp b :: L c -> exists d, d ∈ A ++ b :: B /\ bp d = x /\ (bc d = None \/ bc d = Some c)) as HK.
  { intros x [->|Hx]%elem_of_cons; [eauto|]. apply (ls_on _ _ _ _ Hl) in Hx as (d & ? & ? & ?). eauto. }
  assert (forall x, x ∈ bp b :: L c -> exists d, d ∈ A ++ b :: B /\ bp d = x) as HK' by (intros x Hx; destruct (HK x Hx) as (d & ? & ? & _); eauto).
  destruct (freelist_put_ok m (L c) (bp b)) as (m' & Hput & Hs & Hoff).
  { apply Hl. } { apply NoDup_cons. split; [done|apply Hl]. } { by eapply area_spread. }
  { eapply area_word; [done|done|lia|exists 0; lia]. } { eapply area_word; [done|done|lia|exists 1; lia]. }
  exists m'. split; [done|]. pose proof (area_links _ _ _ _ _ _ Ha HK' Hoff) as Ha'. split_and!.
  - eapply area_tags; [exact Ha'|by split| |done|done]. apply (ar_tags _ _ _ _ Ha' b Hin).
  - intros d Hd Hc. eapply links_kept; [exact Ha| |set_solver|exact Hoff]. intros x Hx. apply elem_of_cons in Hx as [->|Hx].
    + exists b. split_and!; [done|done|]. intros <-. destruct (tiled_others _ _ _ _ _ _ (ar_tiled _ _ _ _ Ha) Hd); lia.
    + apply (ls_on _ _ _ _ Hl) in Hx as (e & ? & ? & ?). exists e. split_and!; [done|done|]. congruence.
  - intros p' Hlen Hh. eapply lists_change; [exact Ha|exact Hl|exact Hoff|exact HK|exact Hs| |done|exact Hh| |].
    + apply NoDup_cons. split; [done|apply Hl].
    + intros x. rewrite (on_put_here A b) by done. rewrite elem_of_cons, (ls_on _ _ _ _ Hl). done.
    + intros x c' Hc'. by eapply on_put.
Qed.

(** A block leaves list [c]: it was the head, or its neighbours are linked. *)
Lemma detach_lists base len m p A b B L c :
  area m base len (A ++ b :: B) -> lists m p (A ++ b :: B) L -> bc b = Some c ->
  exists m' l, (first (L c) 0 = bp b /\ m' = m /\ ldw m (bp b) = Some (first l 0) \/
               first (L c) 0 <> bp b /\ first (L c) 0 = first l 0 /\ unlink_node m (bp b) = Some m') /\
    area m' base len (A ++ with_bc None b :: B) /\ (forall d, d ∈ A ++ B -> bc d = None -> kept d m m') /\
    (forall p', zlen (mp_freed p') = FREELIST_NUM ->
       (forall c', -1 <= c' < FREELIST_NUM -> list_head p' c' = if decide (c' = c) then Some (first l 0) else list_head p c') ->
       lists m' p' (A ++ with_bc None b :: B) (set_list L c l)).
Proof.
  intros Ha Hl Hb. assert (b ∈ A ++ b :: B) as Hin by set_solver. destruct (area_blk _ _ _ _ _ Ha Hin) as (? & ? & ? & ? & _).
  assert (bp b ∈ L c) as Hon by (apply (ls_on _ _ _ _ Hl); eauto).
  apply list_elem_of_split in Hon as (l1 & l2 & El). pose proof (ls_seg _ _ _ _ Hl c) as Hs. pose proof (ls_nodup _ _ _ _ Hl c) as Hnd.
  assert (forall x, x ∈ L c -> exists d, d ∈ A ++ b :: B /\ bp d = x /\ bc d = Some c) as HK by (intros x Hx; by apply (ls_on _ _ _ _ Hl)).
  assert (spread (L c)) as Hsp by (eapply area_spread; [exact Ha|]; intros x Hx; destruct (HK x Hx) as (d & ? & ? & _); eauto).
  rewrite El in Hs, Hnd, HK, Hsp. assert ((bp b ∉ l1 ++ l2) /\ NoDup (l1 ++ l2)) as [Hni Hnd'].
  { rewrite <- Permutation_middle in Hnd. by apply NoDup_cons in Hnd. }
  assert (exists m', (first (L c) 0 = bp b /\ m' = m /\ ldw m (bp b) = Some (first (l1 ++ l2) 0) \/
     first (L c) 0 <> bp b /\ first (L c) 0 = first (l1 ++ l2) 0 /\ unlink_node m (bp b) = Some m') /\ seg m' None (l1 ++ l2) 0 /\ off_links (l1 ++ l2) m m')
    as (m' & Hcase & Hs' & Hoff).
  { rewrite El. destruct (unlink_ok _ _ _ _ Hs Hnd Hsp) as [(-> & Hx & H')|(Hne & E & m' & Hu & G1 & G2)].
    - exists m. split; [left; done|]. split; [done|apply off_links_refl].
    - exists m'. split; [right; done|done]. }
  exists m', (l1 ++ l2). split; [done|].
  assert (forall x, x ∈ l1 ++ l2 -> exists d, d ∈ A ++ b :: B /\ bp d = x) as HK' by (intros x Hx; destruct (HK x ltac:(set_solver)) as (d & ? & ? & _); eauto).
  pose proof (area_links _ _ _ _ _ _ Ha HK' Hoff) as Ha'. split_and!.
  - eapply area_tags; [exact Ha'|by split| |done|done]. apply (ar_tags _ _ _ _ Ha' b Hin).
  - intros d Hd Hc. eapply links_kept; [exact Ha| |set_solver|exact Hoff]. intros x Hx.
    destruct (HK x ltac:(set_solver)) as (e & ? & ? & ?). exists e. split_and!; [done|done|]. congruence.
  - intros p' Hlen Hh. eapply lists_change; [exact Ha|exact Hl|exact Hoff| |exact Hs'|done|done|exact Hh| |].
    + intros x Hx. destruct (HK x ltac:(set_solver)) as (e & ? & ? & ?). eauto.
    + intros x. split.
      * intros Hx. destruct (proj1 (on_put_here A (with_bc None b) b B c x eq_refl eq_refl Hb)) as [->|?]; [|done|done]. apply HK. set_solver.
      * intros (d & Hd & <- & Hc). assert (d = with_bc None b \/ d ∈ A ++ B) as [->|Hin'] by set_solver; [done|].
        assert (bp d ∈ L c) as Hx by (apply (ls_on _ _ _ _ Hl); exists d; set_solver). rewrite El in Hx.
        assert (bp d <> bp b) by (destruct (area_blk _ _ _ _ d Ha ltac:(set_solver)) as (_ & _ & ? & _); destruct (tiled_others _ _ _ _ _ _ (ar_tiled _ _ _ _ Ha) Hin'); lia).
        set_solver.
    + intros x c' Hc'. symmetry. by eapply on_put.
Qed.

(** The heads after a change of one. *)
Lemma head_freed h m' f id v c' :
  zset (mp_freed (h_pool h)) id v = Some f -> -1 <= c' < FREELIST_NUM ->
  list_head (h_pool (with_freed h m' f)) c' = if decide (c' = id) then Some v else list_head (h_pool h) c'.
Proof.
  intros Hz Hc'. unfold list_head. simpl. pose proof (zset_Some _ _ _ _ Hz) as [? _]. destruct (Z.ltb_spec c' 0).
  - rewrite decide_False by lia. done.
  - rewrite (zset_get _ _ _ _ _ Hz). destruct (decide (id = c')), (decide (c' = id)); congruence.
Qed.

Lemma head_large h m' v c' : -1 <= c' < FREELIST_NUM -> list_head (h_pool (with_large h m' v)) c' = if decide (c' = -1) then Some v else list_head (h_pool h) c'.
Proof. intros Hc'. unfold list_head. simpl. destruct (Z.ltb_spec c' 0); case_decide; try lia; done. Qed.

Lemma zset_same {T} (l : list T) i v : zget l i = Some v -> zset l i v = Some l.
Proof.
  intros H. rewrite zset_ok by (by eapply zget_range). f_equal. apply list_insert_id. unfold zget in H. destruct (i <? 0); done.
Qed.

Lemma freelists_detach_rep h A b B c :
  rep h (A ++ b :: B) -> bc b = Some c -> 0 <= c < FREELIST_NUM ->
  exists m' f', freelists_detach (h_mem h) (mp_freed (h_pool h)) c (bp b) = Some (m', f') /\
    rep (with_freed h m' f') (A ++ with_bc None b :: B) /\ keeps (A ++ B) h (with_freed h m' f').
Proof.
  intros (L & Ha & Hl) Hb Hc. destruct (detach_lists _ _ _ _ _ _ _ _ _ Ha Hl Hb) as (m' & l & Hcase & Ha' & Hk & Hls).
  pose proof (ls_head _ _ _ _ Hl c ltac:(unfold FREELIST_NUM in *; lia)) as Hh. unfold list_head in Hh. destruct (Z.ltb_spec c 0); [lia|].
  assert (exists f', zset (mp_freed (h_pool h)) c (first l 0) = Some f' /\
    freelists_detach (h_mem h) (mp_freed (h_pool h)) c (bp b) = Some (m', f')) as (f' & Hz & Hd).
  { unfold freelists_detach. rewrite Hh. cbn [mbind option_bind]. destruct Hcase as [(E & -> & Hn)|(E & E' & Hu)].
    - rewrite E, Z.eqb_refl, Hn. cbn [mbind option_bind]. rewrite zset_ok by (rewrite (ls_len _ _ _ _ Hl); done). eauto.
    - destruct (Z.eqb_spec (first (L c) 0) (bp b)); [done|]. rewrite Hu. cbn [mbind option_bind]. rewrite E' in Hh. rewrite (zset_same _ _ _ Hh). eauto. }
  exists m', f'. split; [done|]. split; [|intros d Hd' Hc'; by apply Hk].
  exists (set_list L c l). split; [done|]. apply Hls.
  - simpl. rewrite (zset_len _ _ _ _ Hz). apply Hl.
  - intros c' Hc'. by apply head_freed.
Qed.

Lemma freelist_detach_rep h A b B :
  rep h (A ++ b :: B) -> bc b = Some (-1) ->
  exists m' l', freelist_detach (h_mem h) (mp_large (h_pool h)) (bp b) = Some (m', l') /\
    rep (with_large h m' l') (A ++ with_bc None b :: B) /\ keeps (A ++ B) h (with_large h m' l').
Proof.
  intros (L & Ha & Hl) Hb. destruct (detach_lists _ _ _ _ _ _ _ _ _ Ha Hl Hb) as (m' & l & Hcase & Ha' & Hk & Hls).
  pose proof (ls_head _ _ _ _ Hl (-1) ltac:(unfold FREELIST_NUM; lia)) as Hh. unfold list_head in Hh. simpl in Hh. injection Hh as Hh.
  exists m', (first l 0). split.
  { unfold freelist_detach. rewrite Hh. destruct Hcase as [(E & -> & Hn)|(E & E' & Hu)].
    - rewrite E, Z.eqb_refl, Hn. done.
    - destruct (Z.eqb_spec (first (L (-1)) 0) (bp b)); [done|]. rewrite Hu, E'. done. }
  split; [|intros d Hd' Hc'; by apply Hk]. exists (set_list L (-1) l). split; [done|]. apply Hls; [apply Hl|]. intros c' Hc'. by apply head_large.
Qed.

(** ** Size classes *)

Lemma size2id_range z : 0 <= z -> -1 <= freelists_size2id z < FREELIST_NUM /\ (freelists_size2id z < 0 -> freelists_size2id z = -1 /\ FREELIST_MAXBLKSIZE <= z).
Proof.
  intros Hz. unfold freelists_size2id, FREELIST_NUM, FREELIST_MAXBLKSIZE. destruct (Z.ltb_spec z 64); [lia|]. destruct (Z.ltb_spec z 256); [lia|].
  destruct (Z.geb_spec z 16384); [lia|]. assert (8 <= Z.log2 z) by (apply Z.log2_le_pow2; lia). assert (Z.log2 z < 14) by (apply Z.log2_lt_pow2; lia). lia.
Qed.

(** A block that is large enough is on a list that is searched. *)
Lemma size2id_mono z z' : 0 <= z <= z' -> 0 <= freelists_size2id z' -> 0 <= freelists_size2id z <= freelists_size2id z'.
Proof.
  intros Hz. unfold freelists_size2id, FREELIST_MAXBLKSIZE. pose proof (Z.log2_le_mono z z').
  assert (256 <= z' -> 8 <= Z.log2 z') by (intros; apply Z.log2_le_pow2; lia). assert (256 <= z -> 8 <= Z.log2 z) by (intros; apply Z.log2_le_pow2; lia).
  destruct (Z.ltb_spec z 64), (Z.ltb_spec z' 64); try lia; destruct (Z.ltb_spec z 256), (Z.ltb_spec z' 256); try lia;
    destruct (Z.geb_spec z 16384), (Z.geb_spec z' 16384); lia.
Qed.

Definition class b : Z := freelists_size2id (bz b).

Lemma rep_blk h bs b : rep h bs -> b ∈ bs ->
  64 < bp b /\ bp b + bz b + 16 < two64 /\ 16 <= bz b /\ (16 | bz b) /\ blk_size (h_mem h) (bp b) = Some (bz b) /\ tagged (h_mem h) b.
Proof.
  intros (L & Ha & _) Hb. destruct (area_blk _ _ _ _ _ Ha Hb) as (? & ? & ? & ? & _). pose proof (ar_pos _ _ _ _ Ha). pose proof (ar_top _ _ _ _ Ha).
  pose proof (ar_tags _ _ _ _ Ha b Hb). split_and!; try lia; [done| |done]. by apply size_ok.
Qed.

(** [_detach] *)
Lemma pool_detach_ok h A b B :
  rep h (A ++ b :: B) -> bc b = Some (class b) ->
  exists h', pool_detach h (bp b) = Some h' /\ rep h' (A ++ with_bc None b :: B) /\ same_pool h h' /\ keeps (A ++ B) h h'.
Proof.
  intros Hr Hb. destruct (rep_blk _ _ b Hr ltac:(set_solver)) as (_ & _ & ? & _ & Hsz & _). unfold pool_detach. rewrite Hsz. cbn [mbind option_bind].
  destruct (size2id_range (bz b) ltac:(lia)) as [Hrange Hneg]. fold (class b) in *. destruct (Z.ltb_spec (class b) 0) as [Hlt|Hge].
  - destruct (Hneg Hlt) as [E _]. rewrite E in Hb. destruct (freelist_detach_rep _ _ _ _ Hr Hb) as (m' & l' & -> & Hr' & Hk). cbn [mbind option_bind]. eexists. split; [done|]. by split_and!.
  - destruct (freelists_detach_rep _ _ _ _ _ Hr Hb) as (m' & f' & -> & Hr' & Hk); [lia|]. cbn [mbind option_bind]. eexists. split; [done|]. by split_and!.
Qed.

(** [blk_setfreed] and [freelist_put] of one block. *)
Lemma setfreed_rep h A b B :
  rep h (A ++ b :: B) ->
  exists m', blk_setfreed (h_mem h) (bp b) (bz b) = Some m' /\ rep (with_hmem h m') (A ++ with_bf true b :: B) /\ keeps (A ++ B) h (with_hmem h m').
Proof.
  intros Hr. destruct (rep_blk _ _ b Hr ltac:(set_solver)) as (_ & _ & ? & ? & _ & Ht). destruct Hr as (L & Ha & Hl).
  destruct (setfreed_ok _ _ Ht ltac:(lia) ltac:(done)) as (m' & Hm & Ht' & Hbut). exists m'. split; [done|]. split.
  - exists L. split; [eapply area_tags|eapply lists_tags]; try done.
  - intros d Hd _. eapply tags_kept; [exact Ha| |set_solver|exact Hbut]. set_solver.
Qed.

Lemma setalloced_rep h A b B :
  rep h (A ++ b :: B) ->
  exists m', blk_setalloced (h_mem h) (bp b) (bz b) = Some m' /\ rep (with_hmem h m') (A ++ with_bf false b :: B) /\ keeps (A ++ b :: B) h (with_hmem h m').
Proof.
  intros Hr. destruct (rep_blk _ _ b Hr ltac:(set_solver)) as (_ & _ & ? & ? & _ & Ht). destruct Hr as (L & Ha & Hl).
  destruct (setalloced_ok _ _ Ht ltac:(lia) ltac:(done)) as (m' & Hm & Ht' & Hbut). exists m'. split; [done|]. split.
  - exists L. split; [eapply area_tags|eapply lists_tags]; try done.
  - intros d Hd _. eapply tags_kept; [exact Ha| |exact Hd|exact Hbut]. set_solver.
Qed.

Lemma put_large_rep h A b B :
  rep h (A ++ b :: B) -> bc b = None ->
  exists m', freelist_put (h_mem h) (mp_large (h_pool h)) (bp b) = Some m' /\
    rep (with_large h m' (bp b)) (A ++ with_bc (Some (-1)) b :: B) /\ keeps (A ++ B) h (with_large h m' (bp b)).
Proof.
  intros (L & Ha & Hl) Hb. destruct (put_lists _ _ _ _ _ _ _ _ (-1) Ha Hl Hb) as (m' & Hp & Ha' & Hk & Hls).
  pose proof (ls_head _ _ _ _ Hl (-1) ltac:(unfold FREELIST_NUM; lia)) as Hh. unfold list_head in Hh. simpl in Hh. injection Hh as Hh.
  rewrite Hh. exists m'. split; [done|]. split; [|intros d Hd' Hc'; by apply Hk]. eexists. split; [done|]. apply Hls; [apply Hl|]. intros c' Hc'. by apply head_large.
Qed.

Lemma put_small_rep h A b B :
  rep h (A ++ b :: B) -> bc b = None -> 0 <= class b ->
  exists m' f', freelists_put (h_mem h) (mp_freed (h_pool h)) (bp b) = Some (m', f', true) /\
    rep (with_freed h m' f') (A ++ with_bc (Some (class b)) b :: B) /\ keeps (A ++ B) h (with_freed h m' f').
Proof.
  intros Hr Hb Hc. destruct (rep_blk _ _ b Hr ltac:(set_solver)) as (_ & _ & ? & _ & Hsz & _). destruct Hr as (L & Ha & Hl).
  destruct (size2id_range (bz b) ltac:(lia)) as [Hrange _]. fold (class b) in *.
  destruct (put_lists _ _ _ _ _ _ _ _ (class b) Ha Hl Hb) as (m' & Hp & Ha' & Hk & Hls).
  pose proof (ls_head _ _ _ _ Hl (class b) Hrange) as Hh. unfold list_head in Hh. destruct (Z.ltb_spec (class b) 0); [lia|].
  pose proof (zset_ok (mp_freed (h_pool h)) (class b) (bp b) ltac:(rewrite (ls_len _ _ _ _ Hl); lia)) as Hz.
  unfold freelists_put. rewrite Hsz. cbn [mbind option_bind]. destruct (Z.eqb_spec (bz b) 0); [lia|]. fold (class b).
  destruct (Z.ltb_spec (class b) 0); [lia|]. rewrite Hh. cbn [mbind option_bind]. rewrite Hp. cbn [mbind option_bind]. rewrite Hz. cbn [mbind option_bind].
  eexists _, _. split; [done|]. split; [|intros d Hd' Hc'; by apply Hk]. eexists. split; [done|]. apply Hls.
  - simpl. rewrite (zset_len _ _ _ _ Hz). apply Hl.
  - intros c' Hc'. by apply head_freed.
Qed.

(** [do_free] *)
Definition freed b : blk := mkB (bp b) (bz b) true (Some (class b)).

Lemma do_free_ok h A b B :
  rep h (A ++ b :: B) -> bc b = None ->
  exists h', do_free h (bp b) = Some h' /\ rep h' (A ++ freed b :: B) /\ same_pool h h' /\ keeps (A ++ B) h h'.
Proof.
  intros Hr Hb. unfold do_free. destruct (rep_blk _ _ b Hr ltac:(set_solver)) as (_ & _ & ? & _ & -> & _). cbn [mbind option_bind].
  destruct (setfreed_rep _ _ _ _ Hr) as (m1 & -> & Hr1 & Hk1). cbn [mbind option_bind].
  destruct (size2id_range (bz b) ltac:(lia)) as [Hrange Hneg]. fold (class b) in *. destruct (Z.ltb_spec (class b) 0) as [Hlt|Hge].
  - destruct (Hneg Hlt) as [E _]. destruct (rep_blk _ _ (with_bf true b) Hr1 ltac:(set_solver)) as (_ & _ & _ & _ & Hsz & _). simpl in Hsz.
    unfold freelists_put. rewrite Hsz. cbn [mbind option_bind]. destruct (Z.eqb_spec (bz b) 0); [lia|]. fold (class b).
    destruct (Z.ltb_spec (class b) 0); [|lia]. cbn [mbind option_bind].
    destruct (put_large_rep _ _ _ _ Hr1 Hb) as (m2 & Hm2 & Hr2 & Hk2). simpl in Hm2 |- *. rewrite Hm2. cbn [mbind option_bind].
    eexists. split; [done|]. unfold freed. rewrite E. split; [exact Hr2|]. split; [done|]. eapply hkeeps_trans; [exact Hk1|exact Hk2].
  - destruct (put_small_rep _ _ _ _ Hr1 Hb Hge) as (m2 & f2 & Hm2 & Hr2 & Hk2). simpl in Hm2. rewrite Hm2. cbn [mbind option_bind].
    eexists. split; [done|]. split; [exact Hr2|]. split; [done|]. eapply hkeeps_trans; [exact Hk1|exact Hk2].
Qed.
