(* ===== verification/MpoolMerge.v ===== *)
(** * Splitting and merging heap blocks *)

From stdpp Require Import gmap.
From S2P Require Import Prelude Mpool MpoolRep MpoolInv MpoolOps.

Implicit Types (m : wmem) (bs A B X Y : list blk) (b d : blk) (L : Z -> list Z) (h : hsys).

Definition unlisted bs : Prop := forall b, b ∈ bs -> bc b = None.

(** Some neighbouring blocks that are on no list become others, with writes
    between the head of the first and the tail of the last only. *)
Lemma rep_replace h m' A X Y B r s :
  rep h (A ++ X ++ B) -> tiled r X s -> X <> [] -> tiled r Y s -> (forall p q, tiled p X q -> p = r /\ q = s) ->
  unlisted X -> unlisted Y -> (forall y, y ∈ Y -> tagged m' y) ->
  (forall a, is_Some (m' !! a) <-> is_Some (h_mem h !! a)) -> (forall a, ~ (r - 8 <= a < s - 8) -> m' !! a = h_mem h !! a) ->
  rep (with_hmem h m') (A ++ Y ++ B) /\ keeps (A ++ B) h (with_hmem h m').
Proof.
  intros (L & Ha & Hl) HX HX0 HY Hrs HuX HuY HtY Hd Hm. pose proof (ar_tiled _ _ _ _ Ha) as HT.
  apply tiled_app in HT as (r' & HA & HT). apply tiled_app in HT as (s' & HX' & HB). destruct (Hrs _ _ HX') as [-> ->].
  pose proof (tiled_nil _ _ _ HA). pose proof (tiled_nil _ _ _ HB).
  assert (forall d, d ∈ A ++ B -> bp d + bz d + 16 <= r \/ s <= bp d) as Hout.
  { intros d [Hd'|Hd']%elem_of_app; [left; by destruct (tiled_in _ _ _ _ HA Hd') as (_ & ? & _)|right; by destruct (tiled_in _ _ _ _ HB Hd') as (? & _)]. }
  assert (forall d, d ∈ A ++ B -> 16 <= bz d) as Hbz by (intros d Hdd; by destruct (area_blk _ _ _ _ d Ha ltac:(set_solver)) as (_ & _ & ? & _)).
  assert (r < s) as Hlt. { destruct X as [|x X]; [done|]. simpl in HX. destruct HX as (_ & ? & _ & HX). apply tiled_nil in HX. lia. }
  split; [exists L; split; split|].
  - apply Ha.
  - apply Ha.
  - simpl. apply tiled_app. exists r. split; [done|]. apply tiled_app. eauto.
  - intros a Haa H8. apply Hd. by apply (ar_mapped _ _ _ _ Ha).
  - destruct (ar_lo _ _ _ _ Ha) as (w & Hw & ?). exists w. simpl. rewrite Hm by lia. done.
  - destruct (ar_hi _ _ _ _ Ha) as (w & Hw & ?). exists w. simpl. rewrite Hm by lia. done.
  - intros d Hdin. simpl. assert (d ∈ Y \/ d ∈ A ++ B) as [HdY|HdAB] by set_solver; [by apply HtY|]. pose proof (Hbz d HdAB).
    eapply tagged_frame; [| |apply (ar_tags _ _ _ _ Ha d); set_solver]; (destruct (Hout d HdAB); apply Hm; lia).
  - apply Hl.
  - apply Hl.
  - intros c. eapply seg_ext; [|apply Hl]. intros x Hx. apply (ls_on _ _ _ _ Hl) in Hx as (d & Hd' & <- & Hc). simpl.
    assert (d ∈ X \/ d ∈ A ++ B) as [HdX|HdAB] by set_solver; [rewrite (HuX d HdX) in Hc; done|]. pose proof (Hbz d HdAB).
    split; (destruct (Hout d HdAB); apply Hm; lia).
  - apply Hl.
  - intros c x. rewrite (ls_on _ _ _ _ Hl). split; intros (d & Hd' & <- & Hc).
    + assert (d ∈ X \/ d ∈ A ++ B) as [HdX|HdAB] by set_solver; [rewrite (HuX d HdX) in Hc; done|]. exists d. set_solver.
    + assert (d ∈ Y \/ d ∈ A ++ B) as [HdX|HdAB] by set_solver; [rewrite (HuY d HdX) in Hc; done|]. exists d. set_solver.
  - intros d Hd' _. apply same_on_eq. intros a Haa. simpl. destruct (Hout d Hd'); apply Hm; lia.
Qed.

(** The neighbours [a] and [b] become one block. *)
Definition merged (a b : blk) : blk := mkB (bp a) (bz a + bz b + 16) false None.

Lemma merge_rep h A a b B :
  rep h (A ++ a :: b :: B) -> bc a = None -> bc b = None ->
  exists m', blk_setsize (h_mem h) (bp a) (u64 (bz a + bz b + 16)) = Some m' /\ rep (with_hmem h m') (A ++ merged a b :: B) /\
    keeps (A ++ B) h (with_hmem h m') /\ kept a (h_mem h) m'.
Proof.
  intros Hr Hca Hcb. destruct (rep_blk _ _ a Hr ltac:(set_solver)) as (Hpa & Hta & Hza & H16a & _). destruct (rep_blk _ _ b Hr ltac:(set_solver)) as (Hpb & Htb & Hzb & H16b & _).
  assert (bp b = bp a + bz a + 16) as Eb.
  { destruct Hr as (L & Ha & _). pose proof (ar_tiled _ _ _ _ Ha) as HT. apply tiled_app in HT as (r & _ & HT). simpl in HT. destruct HT as (? & _ & _ & ? & _). lia. }
  assert (is_Some (h_mem h !! (bp a - 8)) /\ is_Some (h_mem h !! (bp b + bz b))) as [Hm1 Hm2].
  { destruct Hr as (L & Ha & _). destruct H16b as [k Hk]. split.
    - apply (area_word _ _ _ _ a _ Ha); [set_solver|lia|exists (-1); lia].
    - apply (area_word _ _ _ _ b _ Ha); [set_solver|lia|exists (2 * k); lia]. }
  rewrite u64_id by lia. destruct (setsize_ok (h_mem h) (merged a b)) as (m' & Hs & Ht & Hd & Hm); [done|simpl; lia|done| |].
  { simpl. by replace (bp a + (bz a + bz b + 16)) with (bp b + bz b) by lia. }
  simpl in Hs, Hm. exists m'. split; [done|]. apply Logic.and_assoc. split.
  - apply (rep_replace h m' A [a; b] [merged a b] B (bp a) (bp b + bz b + 16)); try done.
    + simpl. split_and!; try done; lia.
    + simpl. split_and!; [done|lia| |lia]. apply Z.divide_add_r; [by apply Z.divide_add_r|by exists 1].
    + simpl. intros p q (<- & _ & _ & _ & _ & _ & E). lia.
    + intros d Hd'. set_solver.
    + intros d Hd'. by apply list_elem_of_singleton in Hd' as ->.
    + intros y Hy. by apply list_elem_of_singleton in Hy as ->.
    + intros x Hx. apply Hm; lia.
  - apply same_on_eq. intros x Hx. apply Hm; lia.
Qed.

(** [blk_split] *)
Definition lower b (z : Z) : blk := mkB (bp b) z false None.
Definition upper b (z : Z) : blk := mkB (bp b + z + 16) (bz b - z - 16) false None.

Lemma split_rep h A b B z :
  rep h (A ++ b :: B) -> bc b = None -> 16 <= z -> (16 | z) -> z + 32 <= bz b ->
  exists m', blk_split (h_mem h) (bp b) z = Some (m', bp (upper b z)) /\ rep (with_hmem h m') (A ++ lower b z :: upper b z :: B) /\
    keeps (A ++ B) h (with_hmem h m') /\ kept (lower b z) (h_mem h) m'.
Proof.
  intros Hr Hc Hz H16 Hlt. destruct (rep_blk _ _ b Hr ltac:(set_solver)) as (Hp & Ht & Hzb & H16b & Hsz & Htag).
  destruct H16 as [k Hk]. destruct H16b as [j Hj].
  assert (forall a, bp b - 8 <= a <= bp b + bz b -> (8 | a - bp b) -> is_Some (h_mem h !! a)) as Hw.
  { destruct Hr as (L & Ha & _). intros a Haa H8. eapply area_word; [exact Ha| |done|done]. set_solver. }
  unfold blk_split. unfold blk_area_is_2M, blk_head, ldw. destruct Htag as (g & Hh & _). rewrite Hh. cbn [mbind option_bind]. rewrite Hsz. cbn [mbind option_bind].
  set (big := flag _ SIZE_FLAG). rewrite (u64_id (z + 16)), (u64_id (bz b - (z + 16))) by lia.
  destruct (setsize_ok (h_mem h) (lower b z)) as (m1 & Hs1 & Ht1 & Hd1 & Hm1); [done|simpl; lia| | |].
  { simpl. apply Hw; [lia|exists (-1); lia]. } { simpl. apply Hw; [lia|exists (2 * k); lia]. }
  simpl in Hs1. rewrite Hs1. cbn [mbind option_bind].
  destruct (set_big_ok m1 (lower b z) big Ht1) as (m2 & Hs2 & Ht2 & Hd2 & Hm2); [simpl; lia|exists k; done|]. simpl in Hs2. rewrite Hs2. cbn [mbind option_bind].
  replace (bp b + (z + 16)) with (bp (upper b z)) by (simpl; lia). replace (bz b - (z + 16)) with (bz (upper b z)) by (simpl; lia).
  destruct (setsize_ok m2 (upper b z)) as (m3 & Hs3 & Ht3 & Hd3 & Hm3); [done|simpl; lia| | |].
  { simpl. rewrite Hd2, Hd1. apply Hw; [lia|exists (2 * k + 1); lia]. } { simpl. rewrite Hd2, Hd1. apply Hw; [lia|exists (2 * j); lia]. }
  rewrite Hs3. cbn [mbind option_bind].
  destruct (set_big_ok m3 (upper b z) big Ht3) as (m4 & Hs4 & Ht4 & Hd4 & Hm4); [simpl; lia|simpl; exists (j - k - 1); lia|]. rewrite Hs4. cbn [mbind option_bind].
  simpl in Hm1, Hm2, Hm3, Hm4. exists m4. split; [done|]. apply Logic.and_assoc. split.
  - apply (rep_replace h m4 A [b] [lower b z; upper b z] B (bp b) (bp b + bz b + 16)); try done.
    + simpl. split_and!; try done. by exists j.
    + simpl. split_and!; [done|lia|by exists k|done|lia|exists (j - k - 1); lia|lia].
    + simpl. intros p q (<- & _ & _ & E). lia.
    + intros d Hd'. by apply list_elem_of_singleton in Hd' as ->.
    + intros d Hd'. set_solver.
    + intros y Hy. assert (y = lower b z \/ y = upper b z) as [-> | ->] by set_solver; [|done].
      eapply tagged_frame; [| |exact Ht2]; simpl; rewrite Hm4, Hm3 by lia; done.
    + intros a. by rewrite Hd4, Hd3, Hd2, Hd1.
    + intros a Ha. rewrite Hm4, Hm3, Hm2, Hm1 by lia. done.
  - apply same_on_eq. intros a Ha. simpl in Ha. rewrite Hm4, Hm3, Hm2, Hm1 by lia. done.
Qed.

(** ** The neighbours, as the tags show them *)

Lemma next_word h A b B :
  rep h (A ++ b :: B) ->
  exists w, blk_nexthead (h_mem h) (bp b) (bz b) = Some w /\
    match B with
    | [] => flag w AREA_FLAG = true
    | n :: _ => flag w AREA_FLAG = false /\ flag w FREE_FLAG = bf n /\ bp n = bp b + bz b + 16
    end.
Proof.
  intros Hr. destruct Hr as (L & Ha & _). pose proof (ar_tiled _ _ _ _ Ha) as HT. apply tiled_app in HT as (r & _ & HT). simpl in HT. destruct HT as (<- & _ & _ & HT).
  unfold blk_nexthead, ldw. destruct B as [|n B]; simpl in HT.
  - destruct (ar_hi _ _ _ _ Ha) as (w & Hw & Hf). exists w. split; [|done]. rewrite <- Hw. f_equal. lia.
  - destruct HT as (Hn & _ & H16 & _). destruct (ar_tags _ _ _ _ Ha n ltac:(set_solver)) as (g & Hw & _).
    exists (tag (bz n) (bf n) g). destruct (tag_facts (bz n) (bf n) g H16) as (_ & ? & ? & _). split; [|done]. rewrite <- Hw. f_equal. lia.
Qed.

Lemma prev_word h A b B :
  rep h (A ++ b :: B) ->
  exists w, blk_prevtail (h_mem h) (bp b) = Some w /\
    match last A with
    | None => flag w AREA_FLAG = true
    | Some a => flag w AREA_FLAG = false /\ flag w FREE_FLAG = bf a /\ Z.land w (Z.lnot FLAG_BITS) = bz a /\ bp b = bp a + bz a + 16
    end.
Proof.
  intros Hr. destruct Hr as (L & Ha & _). pose proof (ar_tiled _ _ _ _ Ha) as HT. apply tiled_app in HT as (r & HA & HT). simpl in HT. destruct HT as (<- & _).
  unfold blk_prevtail, ldw. destruct (list_snoc A) as [->|(A0 & a & ->)]; simpl in HA.
  - destruct (ar_lo _ _ _ _ Ha) as (w & Hw & Hf). exists w. split; [|done]. rewrite <- Hw. f_equal. lia.
  - rewrite last_snoc. apply tiled_app in HA as (s & _ & HA). simpl in HA. destruct HA as (Hs & _ & H16 & HA).
    destruct (ar_tags _ _ _ _ Ha a ltac:(set_solver)) as (g & _ & Hw).
    exists (tag (bz a) (bf a) g). destruct (tag_facts (bz a) (bf a) g H16) as (? & ? & ? & _). split; [rewrite <- Hw; f_equal; lia|]. split_and!; try done. lia.
Qed.

(** A free block is on the list of its size. *)
Definition on_lists bs : Prop := forall b, b ∈ bs -> bf b = true -> bc b = Some (class b).

Lemma mergenext_ok h A b n B :
  rep h (A ++ b :: n :: B) -> bc b = None -> bc n = Some (class n) ->
  exists h', blk_mergenext h (bp b) = Some (h', bp b) /\ rep h' (A ++ merged b n :: B) /\ same_pool h h' /\ keeps (A ++ B) h h' /\ kept b (h_mem h) (h_mem h').
Proof.
  intros Hr Hb Hn. destruct (next_word _ _ _ _ Hr) as (w & Hw & Hfa & _ & En). unfold blk_mergenext, blk_next.
  destruct (rep_blk _ _ b Hr ltac:(set_solver)) as (_ & _ & _ & _ & Hsz & _). destruct (rep_blk _ _ n Hr ltac:(set_solver)) as (_ & _ & _ & _ & Hszn & _).
  rewrite Hsz. cbn [mbind option_bind]. unfold blk_nonext. rewrite Hw. cbn [mbind option_bind]. rewrite Hfa. cbn [mbind option_bind]. rewrite <- En, Hszn. cbn [mbind option_bind].
  change (A ++ b :: n :: B) with (A ++ [b] ++ n :: B) in Hr. rewrite (assoc_L (++)) in Hr.
  destruct (pool_detach_ok _ _ _ _ Hr Hn) as (h1 & -> & Hr1 & Hp1 & Hk1). cbn [mbind option_bind]. rewrite <- (assoc_L (++)) in Hr1. cbn [app] in Hr1.
  destruct (merge_rep _ _ _ _ _ Hr1 Hb eq_refl) as (m2 & Hs & Hr2 & Hk2 & Hkb). simpl in Hs. rewrite Hs. cbn [mbind option_bind].
  eexists. split; [done|]. split; [exact Hr2|]. split; [done|]. split.
  - eapply hkeeps_trans; [|exact Hk2]. eapply hkeeps_sub; [|exact Hk1]. set_solver.
  - eapply kept_trans; [|exact Hkb]. apply Hk1; [set_solver|done].
Qed.

Lemma mergeprev_ok h A a b B :
  rep h (A ++ a :: b :: B) -> bc b = None -> bc a = Some (class a) ->
  exists h', blk_mergeprev h (bp b) = Some (h', bp a) /\ rep h' (A ++ merged a b :: B) /\ same_pool h h' /\ keeps (A ++ B) h h'.
Proof.
  intros Hr Hb Hn. pose proof Hr as Hr'. change (A ++ a :: b :: B) with (A ++ [a] ++ b :: B) in Hr'. rewrite (assoc_L (++)) in Hr'.
  destruct (prev_word _ _ _ _ Hr') as (w & Hw & Hpw). rewrite last_snoc in Hpw. destruct Hpw as (Hfa & _ & Hza & Ep). unfold blk_mergeprev, blk_prev, blk_noprev.
  rewrite Hw. cbn [mbind option_bind]. rewrite Hfa. cbn [mbind option_bind]. rewrite Hza. replace (bp b - 16 - bz a) with (bp a) by lia.
  destruct (rep_blk _ _ b Hr ltac:(set_solver)) as (_ & _ & _ & _ & -> & _). destruct (rep_blk _ _ a Hr ltac:(set_solver)) as (_ & _ & _ & _ & -> & _). cbn [mbind option_bind].
  destruct (pool_detach_ok _ _ _ _ Hr Hn) as (h1 & -> & Hr1 & Hp1 & Hk1). cbn [mbind option_bind].
  destruct (merge_rep _ _ _ _ _ Hr1 eq_refl Hb) as (m2 & Hs & Hr2 & Hk2 & _). simpl in Hs. replace (bz b + bz a + 16) with (bz a + bz b + 16) by lia. rewrite Hs. cbn [mbind option_bind].
  eexists. split; [done|]. split; [exact Hr2|]. split; [done|]. eapply hkeeps_trans; [|exact Hk2]. eapply hkeeps_sub; [|exact Hk1]. set_solver.
Qed.

Lemma set_big_rep h A b B (big : bool) :
  rep h (A ++ b :: B) ->
  exists m', (if big then size ← blk_size (h_mem h) (bp b); blk_set_area_2M (h_mem h) (bp b) size else Some (h_mem h)) = Some m' /\
    rep (with_hmem h m') (A ++ b :: B) /\ keeps (A ++ b :: B) h (with_hmem h m').
Proof.
  intros Hr. destruct (rep_blk _ _ b Hr ltac:(set_solver)) as (_ & _ & ? & ? & Hsz & Ht). destruct Hr as (L & Ha & Hl).
  destruct (set_big_ok _ _ big Ht ltac:(lia) ltac:(done)) as (m' & Hm & Ht' & Hbut). exists m'. split.
  { rewrite <- Hm. destruct big; [|done]. rewrite Hsz. done. }
  split.
  - exists L. split; [eapply area_tags|eapply lists_tags]; try done.
  - intros d Hd _. eapply tags_kept; [exact Ha| |exact Hd|exact Hbut]. set_solver.
Qed.

(** ** [blk_trymerge] *)

(** [l] is the neighbour [e] when that is free, and nothing otherwise. *)
Definition taken (l : list blk) (e : option blk) : Prop :=
  match e with Some a => l = if bf a then [a] else [] | None => l = [] end.

Lemma trymerge_next h A b B :
  rep h (A ++ b :: B) -> bc b = None -> bf b = false -> on_lists B ->
  exists h' c Y B', B = Y ++ B' /\ taken Y (head B) /\
    (size ← blk_size (h_mem h) (bp b); nonext ← blk_nonext (h_mem h) (bp b) size;
     nf ← (if (nonext : bool) then Some false else w ← blk_nexthead (h_mem h) (bp b) size; Some (flag w FREE_FLAG));
     if (nf : bool) then blk_mergenext h (bp b) else Some (h, bp b)) = Some (h', bp c) /\
    rep h' (A ++ c :: B') /\ bc c = None /\ bf c = false /\ bz b <= bz c /\ same_pool h h' /\ keeps (A ++ B') h h'.
Proof.
  intros Hr Hb Hbf Hon. destruct (rep_blk _ _ b Hr ltac:(set_solver)) as (_ & _ & _ & _ & Hsz & _). rewrite Hsz. cbn [mbind option_bind].
  destruct (next_word _ _ _ _ Hr) as (w & Hw & Hcase). unfold blk_nonext. rewrite Hw. cbn [mbind option_bind]. destruct B as [|n B].
  - rewrite Hcase. cbn [mbind option_bind]. exists h, b, [], []. split_and!; try done; apply hkeeps_refl.
  - destruct Hcase as (-> & Hf & _). cbn [mbind option_bind head]. rewrite Hf. destruct (bf n) eqn:En.
    + destruct (mergenext_ok _ _ _ _ _ Hr Hb) as (h' & -> & Hr' & Hp & Hk & _); [apply Hon; [set_solver|done]|].
      destruct (rep_blk _ _ n Hr ltac:(set_solver)) as (_ & _ & ? & _). exists h', (merged b n), [n], B. simpl. rewrite En. split_and!; try done; lia.
    + exists h, b, [], (n :: B). simpl. rewrite En. split_and!; try done; apply hkeeps_refl.
Qed.

Lemma trymerge_prev h A b B :
  rep h (A ++ b :: B) -> bc b = None -> bf b = false -> on_lists A ->
  exists h' c X A', A = A' ++ X /\ taken X (last A) /\
    (noprev ← blk_noprev (h_mem h) (bp b);
     pf ← (if (noprev : bool) then Some false else w ← blk_prevtail (h_mem h) (bp b); Some (flag w FREE_FLAG));
     if (pf : bool) then blk_mergeprev h (bp b) else Some (h, bp b)) = Some (h', bp c) /\
    rep h' (A' ++ c :: B) /\ bc c = None /\ bf c = false /\ bz b <= bz c /\ same_pool h h' /\ keeps (A' ++ B) h h'.
Proof.
  intros Hr Hb Hbf Hon. destruct (prev_word _ _ _ _ Hr) as (w & Hw & Hcase). unfold blk_noprev. rewrite Hw. cbn [mbind option_bind].
  destruct (list_snoc A) as [->|(A0 & a & ->)].
  - simpl in Hcase. rewrite Hcase. cbn [mbind option_bind]. exists h, b, [], []. split_and!; try done; apply hkeeps_refl.
  - rewrite last_snoc in Hcase |- *. destruct Hcase as (-> & Hf & _). cbn [mbind option_bind]. rewrite Hf. destruct (bf a) eqn:En.
    + rewrite <- (assoc_L (++)) in Hr. cbn [app] in Hr.
      destruct (mergeprev_ok _ _ _ _ _ Hr Hb) as (h' & -> & Hr' & Hp & Hk); [apply Hon; [set_solver|done]|].
      destruct (rep_blk _ _ a Hr ltac:(set_solver)) as (_ & _ & ? & _). exists h', (merged a b), [a], A0. simpl. rewrite En. split_and!; try done; lia.
    + exists h, b, [], (A0 ++ [a]). simpl. rewrite En, app_nil_r. split_and!; try done; apply hkeeps_refl.
Qed.

Lemma trymerge_ok h A b B :
  rep h (A ++ b :: B) -> bc b = None -> bf b = false -> on_lists (A ++ B) ->
  exists h' c A' X Y B', A = A' ++ X /\ taken X (last A) /\ B = Y ++ B' /\ taken Y (head B) /\
    blk_trymerge h (bp b) = Some (h', bp c) /\ rep h' (A' ++ c :: B') /\ bc c = None /\ bf c = false /\ bz b <= bz c /\
    same_pool h h' /\ keeps (A' ++ B') h h'.
Proof.
  intros Hr Hb Hbf Hon.
  destruct (trymerge_next _ _ _ _ Hr Hb Hbf) as (h1 & c & Y & B' & -> & HY & E1 & Hr1 & Hc & Hcf & Hz & Hp1 & Hk1).
  { intros d Hd. apply Hon. set_solver. }
  destruct (trymerge_prev _ _ _ _ Hr1 Hc Hcf) as (h2 & e & X & A' & -> & HX & E2 & Hr2 & He & Hef & Hz2 & Hp2 & Hk2).
  { intros d Hd. apply Hon. set_solver. }
  unfold blk_trymerge, blk_area_is_2M.
  destruct (rep_blk _ _ b Hr ltac:(set_solver)) as (_ & _ & _ & _ & Hsz & (g & Hh & _)). unfold blk_head, ldw. rewrite Hh. cbn [mbind option_bind].
  set (big := flag _ SIZE_FLAG). destruct (set_big_rep _ _ _ _ big Hr2) as (m3 & E3 & Hr3 & Hk3).
  exists (with_hmem h2 m3), e, A', X, Y, B'. split_and!; try done.
  - destruct (blk_size (h_mem h) (bp b)) as [sz|]; [|done]. cbn [mbind option_bind] in E1 |- *.
    destruct (blk_nonext (h_mem h) (bp b) sz) as [no|]; [|done]. cbn [mbind option_bind] in E1 |- *.
    destruct (if no then _ else _) as [nf|]; [|done]. cbn [mbind option_bind] in E1 |- *. rewrite E1. cbn [mbind option_bind].
    destruct (blk_noprev (h_mem h1) (bp c)) as [no'|]; [|done]. cbn [mbind option_bind] in E2 |- *.
    destruct (if no' then _ else _) as [pf|]; [|done]. cbn [mbind option_bind] in E2 |- *. rewrite E2. cbn [mbind option_bind]. rewrite E3. done.
  - lia.
  - by eapply same_pool_trans.
  - eapply hkeeps_trans; [eapply hkeeps_sub; [|exact Hk1]; set_solver|]. eapply hkeeps_trans; [exact Hk2|]. eapply hkeeps_sub; [|exact Hk3]. set_solver.
Qed.
