(* ===== verification/MpoolFind.v ===== *)
(** * Searching the heap, and taking the block that was found *)

From stdpp Require Import gmap.
From S2P Require Import Prelude Mpool MpoolRep MpoolInv MpoolOps MpoolMerge.

Implicit Types (m : wmem) (bs A B : list blk) (b d : blk) (L : Z -> list Z) (h : hsys).

(** ** The search *)

Section Search.
Context (fits : wmem -> Z -> option bool).

Definition total h bs : Prop := forall b, b ∈ bs -> is_Some (fits (h_mem h) (bp b)).
Definition fit h b : Prop := fits (h_mem h) (bp b) = Some true.

(** The search along list [c]. *)
Lemma search_list h bs L c :
  rep_with h bs L -> total h bs ->
  let r := match_loop (fl_fuel (h_mem h)) (h_mem h) (fits (h_mem h)) (first (L c) 0) in
  (r = Some 0 /\ forall b, b ∈ bs -> bc b = Some c -> ~ fit h b) \/
  (exists A b B, bs = A ++ b :: B /\ bc b = Some c /\ fit h b /\ r = Some (bp b) /\ bp b <> 0).
Proof.
  intros [Ha Hl] Ht r. set (f := fun x => default false (fits (h_mem h) x)).
  assert (forall x, x ∈ L c -> exists b, b ∈ bs /\ bp b = x /\ bc b = Some c) as Hon by (intros x Hx; by apply (ls_on _ _ _ _ Hl)).
  destruct (match_loop_ok (fl_fuel (h_mem h)) (h_mem h) (fits (h_mem h)) f None (L c)) as [[E Hno]|(l1 & x & l2 & El & Hx & E)].
  - apply Hl.
  - intros x Hx. destruct (Hon x Hx) as (b & Hb & <- & _). destruct (area_blk _ _ _ _ _ Ha Hb) as (? & _). pose proof (ar_pos _ _ _ _ Ha).
    split; [lia|]. unfold f. destruct (Ht b Hb) as [w ->]. done.
  - eapply seg_short; [apply Hl|apply Hl].
  - left. split; [exact E|]. intros b Hb Hc Hfit. specialize (Hno (bp b)). unfold f in Hno. rewrite Hfit in Hno.
    discriminate Hno. apply (ls_on _ _ _ _ Hl). eauto.
  - right. destruct (Hon x) as (b & Hb & <- & Hc); [rewrite El; set_solver|]. destruct (area_blk _ _ _ _ _ Ha Hb) as (? & _). pose proof (ar_pos _ _ _ _ Ha).
    destruct (list_elem_of_split _ _ Hb) as (A & B & EAB). exists A, b, B. split_and!; try done; [|lia].
    unfold fit. unfold f in Hx. destruct (Ht b Hb) as [w Hw]. rewrite Hw in Hx |- *. simpl in Hx. by subst.
Qed.

(** [freelist_match] and its aligned form on the list of large blocks. *)
Lemma list_match_ok h bs :
  rep h bs -> total h bs ->
  (list_match fits (h_mem h) (mp_large (h_pool h)) = Some (h_mem h, mp_large (h_pool h), 0) /\ forall b, b ∈ bs -> bc b = Some (-1) -> ~ fit h b) \/
  (exists A b B m' l', bs = A ++ b :: B /\ bc b = Some (-1) /\ fit h b /\ list_match fits (h_mem h) (mp_large (h_pool h)) = Some (m', l', bp b) /\ bp b <> 0 /\
     rep (with_large h m' l') (A ++ with_bc None b :: B) /\ keeps (A ++ B) h (with_large h m' l')).
Proof.
  intros (L & Hr) Ht. pose proof (ls_head _ _ _ _ (proj2 Hr) (-1) ltac:(unfold FREELIST_NUM; lia)) as Hh. unfold list_head in Hh. simpl in Hh. injection Hh as Hh.
  unfold list_match. destruct (search_list _ _ _ (-1) Hr Ht) as [[E Hno]|(A & b & B & -> & Hc & Hf & E & H0)]; rewrite <- Hh in E; rewrite E; cbn [mbind option_bind].
  - left. done.
  - right. destruct (freelist_detach_rep h A b B) as (m' & l' & Hd & Hr' & Hk); [by eexists|done|]. exists A, b, B, m', l'.
    destruct (Z.eqb_spec (bp b) 0); [done|]. rewrite Hd. split_and!; done.
Qed.

(** The lists from [id] on. *)
Lemma lists_loop_ok n id h bs :
  rep h bs -> total h bs -> 0 <= id -> id + Z.of_nat n = FREELIST_NUM ->
  (lists_loop n fits (h_mem h) (mp_freed (h_pool h)) id = Some (h_mem h, mp_freed (h_pool h), 0) /\
   forall b c, b ∈ bs -> bc b = Some c -> id <= c < FREELIST_NUM -> ~ fit h b) \/
  (exists A b B c m' f', bs = A ++ b :: B /\ bc b = Some c /\ fit h b /\
     lists_loop n fits (h_mem h) (mp_freed (h_pool h)) id = Some (m', f', bp b) /\ bp b <> 0 /\
     rep (with_freed h m' f') (A ++ with_bc None b :: B) /\ keeps (A ++ B) h (with_freed h m' f')).
Proof.
  intros Hrep Ht. revert id. induction n as [|n IH]; intros id Hid Hn; cbn [lists_loop].
  { left. split; [done|]. intros; lia. }
  pose proof Hrep as (L & Hr). pose proof (ls_head _ _ _ _ (proj2 Hr) id ltac:(lia)) as Hh. unfold list_head in Hh. destruct (Z.ltb_spec id 0); [lia|].
  rewrite Hh. cbn [mbind option_bind]. destruct (search_list _ _ _ id Hr Ht) as [[E Hno]|(A & b & B & -> & Hc & Hf & E & H0)]; rewrite E; cbn [mbind option_bind].
  - cbn [Z.eqb]. destruct (IH (id + 1)) as [[E' Hno']|Hfound]; [lia|lia| |by right].
    left. split; [done|]. intros b c Hb Hc Hle. destruct (decide (c = id)) as [->|]; [by apply Hno|]. apply (Hno' b c); [done|done|lia].
  - right. destruct (freelists_detach_rep h A b B id Hrep Hc) as (m' & f' & Hd & Hr' & Hk); [lia|]. exists A, b, B, id, m', f'.
    destruct (Z.eqb_spec (bp b) 0); [done|]. rewrite Hd. split_and!; done.
Qed.
End Search.

(** ** The heap at rest *)

(** The blocks that are free are on the list of their size, the others on none. *)
Definition settled b : Prop := bc b = if bf b then Some (class b) else None.
Definition heap_ok h bs : Prop := rep h bs /\ Forall settled bs.

Lemma settled_on bs : Forall settled bs -> on_lists bs.
Proof. intros H b Hb Hf. rewrite Forall_forall in H. specialize (H b Hb). unfold settled in H. by rewrite Hf in H. Qed.

Lemma settled_freed b : settled (freed b).
Proof. done. Qed.

(** The allocated blocks: what the users of the heap have. *)
Definition live bs : list (Z * Z) := (fun b => (bp b, bz b)) <$> filter (fun b => bf b = false) bs.

Lemma live_app A B : live (A ++ B) = live A ++ live B.
Proof. unfold live. by rewrite filter_app, fmap_app. Qed.
Lemma live_used b : bf b = false -> live [b] = [(bp b, bz b)].
Proof. intros H. unfold live. rewrite filter_cons_True by done. done. Qed.
Lemma live_free b : bf b = true -> live [b] = [].
Proof. intros H. unfold live. rewrite filter_cons_False by congruence. done. Qed.
Lemma live_cons b B : live (b :: B) = live [b] ++ live B.
Proof. apply (live_app [b] B). Qed.

(** ** Taking a block *)

Lemma rep_alloced h bs n : rep h bs -> rep (with_alloced h n) bs.
Proof. intros (L & Ha & [? ? ? ? ?]). exists L. split; [exact Ha|by split]. Qed.

Lemma try_split_ok h A b B z :
  rep h (A ++ b :: B) -> bc b = None -> 16 <= z -> (16 | z) -> z <= bz b ->
  exists h' c T, try_split_and_free h (bp b) z = Some h' /\ rep h' (A ++ c :: T ++ B) /\ bp c = bp b /\ bc c = None /\ z <= bz c < z + 64 /\
    (c = b /\ T = [] \/ c = lower b z /\ T = [freed (upper b z)]) /\ same_pool h h' /\ keeps (A ++ B) h h' /\ same_on (bp b) (bp b + z) (h_mem h) (h_mem h').
Proof.
  intros Hr Hb Hz H16 Hle. destruct (rep_blk _ _ b Hr ltac:(set_solver)) as (? & ? & ? & ? & Hsz & _). unfold try_split_and_free. rewrite Hsz. cbn [mbind option_bind].
  rewrite u64_id by lia. destruct (Z.geb_spec (bz b) (z + 64)).
  - destruct (split_rep h A b B z Hr Hb Hz H16 ltac:(lia)) as (m1 & -> & Hr1 & Hk1 & Hk1'). cbn [mbind option_bind].
    change (A ++ lower b z :: upper b z :: B) with (A ++ [lower b z] ++ upper b z :: B) in Hr1. rewrite (assoc_L (++)) in Hr1.
    destruct (do_free_ok _ _ _ _ Hr1 eq_refl) as (h2 & -> & Hr2 & Hp2 & Hk2). rewrite <- (assoc_L (++)) in Hr2.
    exists h2, (lower b z), [freed (upper b z)]. split_and!; try done; simpl; [lia|by right| |].
    + eapply hkeeps_trans; [exact Hk1|]. eapply hkeeps_sub; [|exact Hk2]. set_solver.
    + eapply same_on_trans; [exact Hk1'|]. apply (Hk2 (lower b z)); [set_solver|done].
  - exists h, b, []. split_and!; try done; try lia; first [by left|apply hkeeps_refl|apply same_on_refl].
Qed.

Definition used b (z : Z) : blk := mkB (bp b) z false None.

Lemma finish_alloc_ok h A b B z :
  rep h (A ++ b :: B) -> bc b = None -> Forall settled (A ++ B) -> 16 <= z -> (16 | z) -> z <= bz b ->
  exists h' z' T, finish_alloc h (bp b) z = Some (h', bp b) /\ heap_ok h' (A ++ used b z' :: T ++ B) /\ z <= z' < z + 64 /\ live T = [] /\
    mp_ptr (h_pool h') = mp_ptr (h_pool h) /\ mp_size (h_pool h') = mp_size (h_pool h) /\ mp_alloced (h_pool h') = u64 (mp_alloced (h_pool h) + z') /\
    keeps (A ++ B) h h' /\ (z' = bz b /\ T = [] \/ exists d, T = [freed d]).
Proof.
  intros Hr Hb Hset Hz H16 Hle. destruct (try_split_ok _ _ _ _ _ Hr Hb Hz H16 Hle) as (h1 & c & T & Hs & Hr1 & Ec & Hc & Hzc & Hcase & Hp1 & Hk1 & _).
  unfold finish_alloc. rewrite Hs. cbn [mbind option_bind]. rewrite <- Ec. destruct (rep_blk _ _ c Hr1 ltac:(set_solver)) as (_ & _ & _ & _ & -> & _). cbn [mbind option_bind].
  destruct (setalloced_rep _ _ _ _ Hr1) as (m2 & -> & Hr2 & Hk2). cbn [mbind option_bind].
  eexists _, (bz c), T. split; [done|]. destruct Hp1 as (Ep1 & Ep2 & Ep3). simpl. rewrite Ep3. unfold heap_ok. split_and!; try done; try lia.
  - assert (used b (bz c) = with_bf false c) as -> by (unfold used, with_bf; rewrite Ec, Hc; done).
    exact (rep_alloced _ _ _ Hr2).
  - apply Forall_app in Hset as [HA HB]. apply Forall_app. split; [done|]. apply Forall_cons. split; [done|]. apply Forall_app. split; [|done].
    destruct Hcase as [[_ ->]|[_ ->]]; [done|]. repeat constructor.
  - destruct Hcase as [[_ ->]|[_ ->]]; [done|]. by apply live_free.
  - eapply hkeeps_trans; [exact Hk1|]. intros d Hd Hcd. apply (Hk2 d); [set_solver|done].
  - destruct Hcase as [[-> ->]|[-> ->]]; [by left|right; eauto].
Qed.

(** * Asking for more memory for the heap ([mpool_reqmem]) *)


(** What a callback for more memory promises: the words that were there stay,
    and when it returns the address it was asked for, the new words are
    there. Returning memory to it keeps the words from before the request. *)
Record req_ok (req : wmem -> Z -> Z -> wmem * Z) (cb_delmem : option (wmem -> Z -> Z -> wmem)) : Prop := {
  rq_keeps : forall m a n, m ⊆ (req m a n).1;
  rq_maps : forall m a n, (req m a n).2 = a -> a <> 0 -> a + n < two64 /\ forall x, a <= x < a + n -> (8 | x - a) -> is_Some ((req m a n).1 !! x);
  rq_del : forall m a n del, cb_delmem = Some del -> (req m a n).2 <> a -> m ⊆ del (req m a n).1 (req m a n).2 n
}.

Lemma rep_mono h m' bs : rep h bs -> h_mem h ⊆ m' -> rep (with_hmem h m') bs.
Proof.
  intros (L & Ha & Hl) Hs. assert (forall a w, h_mem h !! a = Some w -> m' !! a = Some w) as Hm by (intros a w Hw; by eapply lookup_weaken).
  exists L. split; split; simpl.
  - apply Ha.
  - apply Ha.
  - apply Ha.
  - intros a H1 H2. destruct (ar_mapped _ _ _ _ Ha a H1 H2) as [w Hw]. eauto.
  - destruct (ar_lo _ _ _ _ Ha) as (w & Hw & ?). exists w. eauto.
  - destruct (ar_hi _ _ _ _ Ha) as (w & Hw & ?). exists w. eauto.
  - intros b Hb. destruct (ar_tags _ _ _ _ Ha b Hb) as (g & ? & ?). exists g. eauto.
  - apply Hl.
  - apply Hl.
  - intros c. generalize (ls_seg _ _ _ _ Hl c). generalize (@None Z). induction (L c) as [|x l IH]; intros p; simpl; [done|].
    intros (H1 & H2 & H3). split_and!; [by apply Hm| |by apply IH]. destruct p; [by apply Hm|]. destruct H2 as [w Hw]. eauto.
  - apply Hl.
  - apply Hl.
Qed.

Lemma tiled_div p bs q : tiled p bs q -> (16 | q - p).
Proof.
  revert p. induction bs as [|b bs IH]; intros p; simpl; [intros ->; exists 0; lia|]. intros (_ & _ & H16 & H). apply IH in H.
  replace (q - p) with (q - (p + bz b + 16) + (bz b + 16)) by lia. apply Z.divide_add_r; [done|]. apply Z.divide_add_r; [done|by exists 1].
Qed.

Lemma area_flag_lor x s : flag (Z.lor (Z.lor x AREA_FLAG) s) AREA_FLAG = true.
Proof.
  unfold flag. apply negb_true_iff, Z.eqb_neq. intros E. apply (f_equal (fun z => Z.testbit z 1)) in E.
  rewrite Z.land_spec, !Z.lor_spec, Z.bits_0 in E. unfold AREA_FLAG in E. change (Z.testbit 2 1) with true in E.
  rewrite !orb_true_r, orb_true_l in E. done.
Qed.

Definition set_size (p : mpool) (n : Z) : mpool := mkMp (mp_ptr p) n (mp_alloced p) (mp_large p) (mp_freed p).

(** The block that new memory makes. *)
Definition fresh_blk (p : mpool) (n : Z) : blk := mkB (mp_ptr p + mp_size p) (n - 16) false None.

Lemma reinit_ok h bs n :
  rep h bs -> 32 <= n -> (16 | n) -> let p := h_pool h in let top := mp_ptr p + mp_size p in
  top + n < two64 -> (forall x, top <= x < top + n -> (8 | x - top) -> is_Some (h_mem h !! x)) ->
  exists m', allocarea_reinit (h_mem h) (mp_ptr p) (mp_size p) (u64 (mp_size p + n)) = Some (m', top) /\
    rep (mkH m' (set_size p (mp_size p + n))) (bs ++ [fresh_blk p n]) /\ keeps bs h (mkH m' (set_size p (mp_size p + n))).
Proof.
  intros (L & Ha & Hl) Hn [j Hj] p top Htop Hmap. pose proof (ar_pos _ _ _ _ Ha) as Hpos. pose proof (ar_tiled _ _ _ _ Ha) as HT. fold p top in Ha, Hl, Hpos, HT.
  pose proof (tiled_nil _ _ _ HT) as Hge. destruct (tiled_div _ _ _ HT) as [k Hk]. set (len := mp_size p) in *. set (base := mp_ptr p) in *.
  assert (len = 16 * (k + 1)) as Hlen by lia. unfold allocarea_reinit. rewrite u64_id by lia. destruct (Z.eqb_spec (len + n) len); [lia|].
  destruct (ar_lo _ _ _ _ Ha) as (w & Hw & _). unfold ldw. fold base in Hw. rewrite Hw. cbn [mbind option_bind]. set (data := Z.lor _ _).
  assert (8 * ((len + n) / 8 - 1) = len + n - 8) as -> by (replace (len + n) with ((2 * (k + 1) + 2 * j) * 8) by lia; rewrite Z.div_mul by lia; lia).
  destruct (Z.ltb_spec (len + n) len); [lia|]. replace (base + (len + n - 8)) with (top + n - 8) by lia. fold base len in top. fold top.
  rewrite stw_some by (apply Hmap; [lia|exists (2 * j - 1); lia]). cbn [mbind option_bind].
  rewrite (stw_eq _ _ _ w) by (rewrite lookup_insert_ne by lia; done). cbn [mbind option_bind]. set (m1 := <[base := data]> _).
  assert (forall a, a <> base -> a <> top + n - 8 -> m1 !! a = h_mem h !! a) as Hm1 by (intros a ? ?; unfold m1; by rewrite !lookup_insert_ne by lia).
  assert (forall a, is_Some (h_mem h !! a) -> is_Some (m1 !! a)) as Hd1 by (intros a ?; unfold m1; rewrite !lookup_insert_is_Some'; eauto).
  replace (u64 (len + n - len - 16)) with (n - 16) by (rewrite u64_id; lia).
  destruct (setsize_ok m1 (fresh_blk p n)) as (m2 & Hs & Ht & Hd2 & Hm2); [done|simpl; lia| | |].
  { apply Hd1. simpl. destruct (ar_hi _ _ _ _ Ha) as (v & Hv & _). fold base len top in Hv |- *. eauto. }
  { apply Hd1, Hmap; simpl; fold base len top; [lia|exists (2 * j - 2); lia]. }
  simpl in Hs, Hm2. fold base len top in Hs, Hm2. rewrite Hs. cbn [mbind option_bind]. exists m2. split; [done|].
  assert (forall d, d ∈ bs -> base + 16 <= bp d /\ bp d + bz d + 16 <= top /\ 16 <= bz d) as Hbs.
  { intros d Hd. destruct (area_blk _ _ _ _ d Ha Hd) as (? & ? & ? & _). done. }
  assert (forall a, base < a < top - 8 -> m2 !! a = h_mem h !! a) as Hold by (intros a Haa; rewrite Hm2, Hm1 by lia; done).
  split; [exists L; split; split; simpl; fold base len|].
  - done.
  - lia.
  - apply tiled_app. exists top. split; [done|]. simpl. split_and!; [done|lia|exists (j - 1); lia|lia].
  - intros a Haa [i Hi]. apply Hd2, Hd1. destruct (Z.lt_ge_cases a top); [apply (ar_mapped _ _ _ _ Ha); [lia|by exists i]|].
    apply Hmap; [lia|]. exists (i - 2 * (k + 1)). lia.
  - exists data. rewrite Hm2 by lia. split; [apply lookup_insert_eq|]. apply area_flag_lor.
  - exists data. rewrite Hm2 by lia. split; [|apply area_flag_lor]. unfold m1. rewrite lookup_insert_ne by lia. rewrite <- (lookup_insert_eq (h_mem h) (top + n - 8) data). f_equal. lia.
  - intros d [Hd|Hd]%elem_of_app; [|by apply list_elem_of_singleton in Hd as ->]. destruct (Hbs d Hd) as (? & ? & ?).
    eapply tagged_frame; [| |by apply (ar_tags _ _ _ _ Ha)]; apply Hold; lia.
  - apply Hl.
  - apply Hl.
  - intros c. eapply seg_ext; [|apply Hl]. intros x Hx. destruct (ls_block _ _ _ _ _ _ Hl Hx) as (d & Hd & <-). destruct (Hbs d Hd) as (? & ? & ?).
    split; apply Hold; lia.
  - apply Hl.
  - intros c x. rewrite (ls_on _ _ _ _ Hl). split; intros (d & Hd & <- & Hc); [exists d; set_solver|].
    apply elem_of_app in Hd as [Hd|Hd]; [eauto|]. apply list_elem_of_singleton in Hd as ->. done.
  - intros d Hd _. apply same_on_eq. intros a Haa. simpl. destruct (Hbs d Hd) as (? & ? & ?). apply Hold. lia.
Qed.

Lemma PADDING_16k_spec n : 0 <= n -> n + SIZE_16k <= two64 -> n <= PADDING_16k n < n + SIZE_16k /\ (SIZE_16k | PADDING_16k n) /\ (n < PADDING_16k n \/ (SIZE_16k | n)).
Proof.
  intros H0 H1. unfold PADDING_16k, SIZE_16k in *. rewrite u64_id by lia. change (16384 - 1) with (Z.ones 14). rewrite <- Z.ldiff_land, Z.ldiff_ones_r by lia.
  rewrite Z.shiftr_div_pow2, Z.shiftl_mul_pow2 by lia. change (2 ^ 14) with 16384. change (Z.ones 14) with 16383.
  pose proof (Z.div_mod (n + 16384 - 1) 16384). pose proof (Z.mod_pos_bound (n + 16384 - 1) 16384).
  set (q := (n + 16384 - 1) / 16384) in *. split; [lia|]. split; [by exists q|]. destruct (decide (q * 16384 = n)) as [E|]; [right; by exists q|left; lia].
Qed.

Lemma PADDING_spec n : 0 <= n -> n + 16 <= two64 -> n <= PADDING n < n + 16 /\ (16 | PADDING n).
Proof.
  intros H0 H1. assert (PADDING n = (n + 15) / 16 * 16) as ->.
  { unfold PADDING. rewrite u64_id by lia. change (Z.lnot 15) with (Z.lnot (Z.ones 4)). rewrite <- Z.ldiff_land, Z.ldiff_ones_r by lia.
    rewrite Z.shiftr_div_pow2, Z.shiftl_mul_pow2 by lia. done. }
  pose proof (Z.div_mod (n + 15) 16). pose proof (Z.mod_pos_bound (n + 15) 16). split; [lia|by exists ((n + 15) / 16)].
Qed.

(** The blocks [A'] and the new block [c], which took the last block when that
    was free, and is on the list of the large blocks whatever its size. *)
Definition grown h h' bs (A' : list blk) (c : blk) (n : Z) : Prop :=
  (exists X, bs = A' ++ X /\ taken X (last bs)) /\ rep h' (A' ++ [c]) /\ bf c = true /\ bc c = Some (-1) /\ n - 16 <= bz c /\
  mp_ptr (h_pool h') = mp_ptr (h_pool h) /\ mp_size (h_pool h') = mp_size (h_pool h) + n /\ mp_alloced (h_pool h') = mp_alloced (h_pool h) /\ keeps A' h h'.

Lemma reqmem_ok cb_reqmem cb_delmem h bs n :
  (forall req, cb_reqmem = Some req -> req_ok req cb_delmem) -> heap_ok h bs -> 16 <= n -> n + SIZE_16k <= two64 ->
  exists h' ok, mpool_reqmem cb_reqmem cb_delmem h n = Some (h', ok) /\
    if (ok : bool) then exists A' c, grown h h' bs A' c (PADDING_16k n) else h_mem h ⊆ h_mem h' /\ h_pool h' = h_pool h.
Proof.
  intros Hcb [Hr Hset] Hn Hmax. unfold mpool_reqmem. destruct cb_reqmem as [req|]; [|by exists h, false].
  specialize (Hcb req eq_refl). destruct (PADDING_16k_spec n ltac:(lia) Hmax) as (Hp & [q Hq] & _). unfold SIZE_16k in *. set (n' := PADDING_16k n) in *.
  set (top := mp_ptr (h_pool h) + mp_size (h_pool h)). pose proof (rq_keeps _ _ Hcb (h_mem h) top n') as Hsub. pose proof (rq_maps _ _ Hcb (h_mem h) top n') as Hmap.
  pose proof (rq_del _ _ Hcb (h_mem h) top n') as Hdel. destruct (req (h_mem h) top n') as [m mem]. simpl in Hsub, Hmap, Hdel.
  destruct (Z.eqb_spec mem 0) as [->|Hm0]; [exists (with_hmem h m), false; done|]. destruct (Z.eqb_spec mem top) as [->|Hne]; cbn [negb].
  2: { eexists _, false. split; [done|]. split; [|done]. simpl. destruct cb_delmem as [del|]; [by apply Hdel|done]. }
  destruct (Hmap eq_refl Hm0) as [Htop Hmap'].
  destruct (reinit_ok (with_hmem h m) bs n') as (m1 & E1 & Hr1 & Hk1); [by apply rep_mono|lia|exists (1024 * q); lia|done|done|].
  simpl in E1. fold top in E1. rewrite E1. cbn [mbind option_bind]. simpl in Hr1, Hk1. set (h1 := mkH m1 _) in Hr1, Hk1.
  replace (u64 (mp_size (h_pool h) + n')) with (mp_size (h_pool h) + n').
  2: { symmetry. destruct Hr as (L & Ha & _). pose proof (ar_pos _ _ _ _ Ha). pose proof (tiled_nil _ _ _ (ar_tiled _ _ _ _ Ha)). apply u64_id. lia. }
  change (mkH m1 (mkMp (mp_ptr (h_pool h)) (mp_size (h_pool h) + n') (mp_alloced (h_pool h)) (mp_large (h_pool h)) (mp_freed (h_pool h)))) with h1.
  destruct (trymerge_ok _ _ _ _ Hr1 eq_refl eq_refl) as (h2 & c & A' & X & Y & B' & EA & HX & EB & _ & E2 & Hr2 & Hc & Hcf & Hz & (Hp1 & Hp2 & Hp3) & Hk2).
  { rewrite app_nil_r. by apply settled_on. }
  simpl in E2. fold top in E2. rewrite E2. cbn [mbind option_bind]. symmetry in EB. apply app_eq_nil in EB as [_ ->].
  destruct (rep_blk _ _ c Hr2 ltac:(set_solver)) as (_ & _ & _ & _ & -> & _). cbn [mbind option_bind].
  destruct (setfreed_rep _ _ _ _ Hr2) as (m3 & -> & Hr3 & Hk3). cbn [mbind option_bind].
  destruct (put_large_rep _ _ _ _ Hr3 Hc) as (m4 & E4 & Hr4 & Hk4). simpl in E4. rewrite E4. cbn [mbind option_bind]. rewrite app_nil_r in Hk2, Hk3, Hk4.
  eexists _, true. split; [done|]. exists A', (with_bc (Some (-1)) (with_bf true c)). unfold grown. split_and!; try done.
  - eauto.
  - eapply hkeeps_trans; [|eapply hkeeps_trans; [exact Hk2|eapply hkeeps_trans; [exact Hk3|exact Hk4]]].
    intros d Hd Hcd. eapply kept_trans; [apply (same_on_mono _ _ _ _ Hsub)|]. apply (Hk1 d); [rewrite EA; set_solver|done].
Qed.
