(* ===== verification/MpoolAlloc.v ===== *)
(** * [mpool_alloc] and [mpool_free] *)

From stdpp Require Import gmap.
From S2P Require Import Prelude Mpool MpoolRep MpoolInv MpoolOps MpoolMerge MpoolFind.

Implicit Types (m : wmem) (bs A B : list blk) (b d : blk) (L : Z -> list Z) (h : hsys).

(** ** What the users have *)

Lemma live_drop A b B : bf b = true -> live (A ++ b :: B) = live (A ++ B).
Proof. intros H. rewrite !live_app, live_cons, (live_free b H). done. Qed.

Lemma live_add A b B : bf b = false -> live (A ++ b :: B) ≡ₚ (bp b, bz b) :: live (A ++ B).
Proof. intros H. rewrite !live_app, live_cons, (live_used b H). simpl. by rewrite Permutation_middle. Qed.

Lemma live_taken X (e : option blk) : taken X e -> live X = [].
Proof. unfold taken. destruct e as [a|]; [|by intros ->]. destruct (bf a) eqn:E; intros ->; [by apply live_free|done]. Qed.

Lemma live_in bs p z : (p, z) ∈ live bs -> exists b, b ∈ bs /\ bf b = false /\ bp b = p /\ bz b = z.
Proof. unfold live. intros (b & [= -> ->] & [? ?]%list_elem_of_filter)%list_elem_of_fmap. eauto. Qed.

Lemma in_live bs b : b ∈ bs -> bf b = false -> (bp b, bz b) ∈ live bs.
Proof. intros Hb Hf. unfold live. apply list_elem_of_fmap. exists b. split; [done|]. by apply list_elem_of_filter. Qed.

(** The data of the blocks [l]. *)
Definition intact (l : list (Z * Z)) h h' : Prop := forall p z, (p, z) ∈ l -> same_on p (p + z) (h_mem h) (h_mem h').

Lemma intact_sub l k h h' : k ⊆ l -> intact l h h' -> intact k h h'.
Proof. intros Hs H p z Hin. apply H, Hs, Hin. Qed.
Lemma intact_trans l h1 h2 h3 : intact l h1 h2 -> intact l h2 h3 -> intact l h1 h3.
Proof. intros H1 H2 p z Hin. eapply same_on_trans; [by apply H1|by apply H2]. Qed.

Lemma keeps_intact bs h h' : Forall settled bs -> keeps bs h h' -> intact (live bs) h h'.
Proof.
  intros Hs Hk p z Hin. apply live_in in Hin as (b & Hb & Hf & <- & <-). apply (Hk b Hb). rewrite Forall_forall in Hs. specialize (Hs b Hb). unfold settled in Hs. by rewrite Hf in Hs.
Qed.

(** ** No two neighbours are free *)

Definition is_free (o : option blk) : bool := match o with Some b => bf b | None => false end.

Fixpoint apart bs : Prop :=
  match bs with
  | [] => True
  | b :: bs => bf b && is_free (head bs) = false /\ apart bs
  end.

Lemma apart_app A B : apart (A ++ B) <-> apart A /\ apart B /\ is_free (last A) && is_free (head B) = false.
Proof.
  induction A as [|a A IH]; [simpl; naive_solver|]. simpl app. cbn [apart]. rewrite IH. destruct A as [|e A].
  - simpl. rewrite andb_false_r. naive_solver.
  - cbn [app head last]. naive_solver.
Qed.

Lemma apart_mid A b B : apart (A ++ b :: B) <-> apart A /\ apart B /\ is_free (last A) && bf b = false /\ bf b && is_free (head B) = false.
Proof. rewrite apart_app. cbn [apart head is_free]. naive_solver. Qed.

Lemma apart_taken A X (e : option blk) : apart (A ++ X) -> e = last (A ++ X) -> taken X e -> apart A /\ is_free (last A) = false.
Proof.
  intros Hap -> Ht. destruct (list_snoc (A ++ X)) as [E|(A0 & a & E)].
  - apply app_eq_nil in E as [-> ->]. done.
  - rewrite E, last_snoc in Ht. simpl in Ht. destruct (bf a) eqn:Ea; subst X.
    + apply apart_app in Hap as (? & _ & Hl). simpl in Hl. rewrite Ea, andb_true_r in Hl. done.
    + rewrite app_nil_r in *. rewrite E, last_snoc. rewrite E in Hap. done.
Qed.

Lemma apart_taken_head Y B : apart (Y ++ B) -> taken Y (head (Y ++ B)) -> apart B /\ is_free (head B) = false.
Proof.
  intros Hap Ht. destruct (Y ++ B) as [|a l] eqn:E; simpl in Ht.
  - apply app_eq_nil in E as [-> ->]. done.
  - destruct (bf a) eqn:Ea; subst Y; simpl in E; [injection E as E|]; subst.
    + cbn [apart] in Hap. rewrite Ea, andb_true_l in Hap. naive_solver.
    + done.
Qed.

(** ** The search of both allocation functions *)

Lemma tiled_end p bs q r : tiled p bs q -> tiled p bs r -> q = r.
Proof. revert p. induction bs as [|b bs IH]; intros p; simpl; [congruence|]. intros (_ & _ & _ & H1) (_ & _ & _ & H2). by eapply IH. Qed.

Section Find.
Context (cb_reqmem : option (wmem -> Z -> Z -> wmem * Z)) (cb_delmem : option (wmem -> Z -> Z -> wmem)).
Context (Hcb : forall req, cb_reqmem = Some req -> req_ok req cb_delmem).
Context (fits : wmem -> Z -> option bool) (phi : Z -> Z -> bool) (size : Z).
(* the heaps on which the test is as it should be *)
Context (P : hsys -> Prop).
Context (Hfits : forall h bs b, P h -> rep h bs -> b ∈ bs -> fits (h_mem h) (bp b) = Some (phi (bp b) (bz b))).
Context (Hphi : forall h bs b, P h -> rep h bs -> b ∈ bs -> phi (bp b) (bz b) = true -> size <= bz b).
Context (Hsize : 0 <= size).

Definition phi_of b : bool := phi (bp b) (bz b).

Lemma fits_total h bs : P h -> rep h bs -> total fits h bs.
Proof. intros HP Hr b Hb. rewrite (Hfits _ _ _ HP Hr Hb). eauto. Qed.

Lemma fit_phi h bs b : P h -> rep h bs -> b ∈ bs -> fit fits h b <-> phi_of b = true.
Proof. intros HP Hr Hb. unfold fit, phi_of. rewrite (Hfits _ _ _ HP Hr Hb). split; congruence. Qed.

(** A free block that fits was found and taken from its list. *)
Definition found h h' bs (ptr : Z) : Prop :=
  exists A b B, rep h' (A ++ b :: B) /\ bc b = None /\ phi_of b = true /\ ptr = bp b /\ Forall settled (A ++ B) /\ live (A ++ B) = live bs /\
    mp_ptr (h_pool h') = mp_ptr (h_pool h) /\ mp_size (h_pool h) <= mp_size (h_pool h') /\ mp_alloced (h_pool h') = mp_alloced (h_pool h) /\
    keeps (A ++ B) h h' /\ bf b = true /\ (apart bs -> apart (A ++ b :: B)) /\
    (bp b = mp_ptr (h_pool h) + mp_size (h_pool h) \/ exists d, d ∈ bs /\ bf d = true /\ bp d = bp b).

Lemma found_here h h' A b B :
  Forall settled (A ++ b :: B) -> bf b = true -> phi_of b = true -> rep h' (A ++ with_bc None b :: B) -> same_pool h h' -> keeps (A ++ B) h h' ->
  found h h' (A ++ b :: B) (bp b).
Proof.
  intros Hs Hb Hphi' Hr (E1 & E2 & E3) Hk. exists A, (with_bc None b), B. split_and!; try done; [| |lia| |].
  - apply Forall_app in Hs as [? [_ ?]%Forall_cons]. by apply Forall_app.
  - by rewrite live_drop.
  - intros Hap%apart_mid. by apply apart_mid.
  - right. exists b. split; [set_solver|done].
Qed.

(** The small lists and the list of large blocks. *)
Lemma find_old h bs :
  P h -> heap_ok h bs ->
  exists h' ptr, (forall more, find_block cb_reqmem cb_delmem fits h size more =
      if ptr =? 0 then '(h, ok) ← mpool_reqmem cb_reqmem cb_delmem h' more;
        if negb ok then Some (h, -1) else '(m, l, ptr) ← list_match fits (h_mem h) (mp_large (h_pool h)); Some (with_large h m l, ptr)
      else Some (h', ptr)) /\
    ((ptr = 0 /\ h' = h /\ forall b, b ∈ bs -> bf b = true -> phi_of b = false) \/ (ptr <> 0 /\ found h h' bs ptr /\ exists b, b ∈ bs /\ bf b = true /\ phi_of b = true)).
Proof.
  intros HP [Hr Hs]. pose proof (fits_total _ _ HP Hr) as Ht. unfold find_block, lists_match.
  assert (forall b c, b ∈ bs -> bc b = Some c -> bf b = true /\ c = class b) as Hbc.
  { intros b c Hb Hc. rewrite Forall_forall in Hs. specialize (Hs b Hb). unfold settled in Hs. destruct (bf b); [|congruence]. split; congruence. }
  assert (with_large (with_freed h (h_mem h) (mp_freed (h_pool h))) (h_mem h) (mp_large (h_pool h)) = h) as Eh by (by destruct h as [? []]).
  assert (with_freed h (h_mem h) (mp_freed (h_pool h)) = h) as Eh1 by (by destruct h as [? []]).
  set (r := if freelists_size2id size <? 0 then _ else _).
  assert ((r = Some (h_mem h, mp_freed (h_pool h), 0) /\ forall b, b ∈ bs -> bf b = true -> 0 <= class b -> phi_of b = false) \/
          (exists m' f' ptr, r = Some (m', f', ptr) /\ ptr <> 0 /\ found h (with_freed h m' f') bs ptr /\ exists b, b ∈ bs /\ bf b = true /\ phi_of b = true)) as [[-> Hno]|(m' & f' & ptr & -> & H0 & Hf)].
  { unfold r. destruct (size2id_range size Hsize) as [Hrg Hneg]. destruct (Z.ltb_spec (freelists_size2id size) 0) as [Hlt|Hge].
    - left. split; [done|]. intros b Hb Hf Hc. destruct (rep_blk _ _ _ Hr Hb) as (_ & _ & ? & _). destruct (phi_of b) eqn:E; [|done].
      pose proof (Hphi h bs b HP Hr Hb E). pose proof (size2id_mono size (bz b) ltac:(lia) Hc). lia.
    - destruct (lists_loop_ok fits (Z.to_nat (FREELIST_NUM - freelists_size2id size)) _ h bs Hr Ht Hge) as [[-> Hno]|(A & b & B & c & m' & f' & -> & Hc & Hfit & -> & H0 & Hr' & Hk)]; [lia| |].
      + left. split; [done|]. intros b Hb Hf Hc. destruct (phi_of b) eqn:E; [exfalso|done]. destruct (rep_blk _ _ _ Hr Hb) as (_ & _ & ? & _).
        pose proof (Hphi h bs b HP Hr Hb E). pose proof (size2id_mono size (bz b) ltac:(lia) Hc). destruct (size2id_range (bz b) ltac:(lia)) as [? _]. fold (class b) in *.
        apply (Hno b (class b)); [done|by apply (settled_on _ Hs)|lia|]. by apply (fit_phi _ _ _ HP Hr Hb).
      + right. exists m', f', (bp b). split; [done|]. split; [done|]. destruct (Hbc b c ltac:(set_solver) Hc) as [Hbf _].
        assert (phi_of b = true) by (apply (fit_phi _ _ b HP Hr); [set_solver|done]). split; [by apply found_here|exists b; set_solver]. }
  - cbn [mbind option_bind]. rewrite Eh1. cbn [Z.eqb].
    destruct (list_match_ok fits h bs Hr Ht) as [[-> Hno']|(A & b & B & m' & l' & -> & Hc & Hfit & -> & H0 & Hr' & Hk)]; cbn [mbind option_bind].
    + exists h, 0. split; [intros more; cbn [Z.eqb]; rewrite <- Eh1 at 1; rewrite Eh; done|]. left. split_and!; try done. intros b Hb Hf.
      destruct (Z.lt_ge_cases (class b) 0) as [Hlt|]; [|by apply Hno]. destruct (phi_of b) eqn:E; [exfalso|done]. apply (Hno' b Hb).
      * rewrite (settled_on _ Hs b Hb Hf). f_equal. destruct (rep_blk _ _ _ Hr Hb) as (_ & _ & ? & _). by apply size2id_range; [lia|].
      * by apply (fit_phi _ _ _ HP Hr Hb).
    + exists (with_large h m' l'), (bp b). split; [intros more; done|]. right. split; [done|]. destruct (Hbc b _ ltac:(set_solver) Hc) as [Hbf _].
      assert (phi_of b = true) by (apply (fit_phi _ _ b HP Hr); [set_solver|done]). split; [by apply found_here|exists b; set_solver].
  - cbn [mbind option_bind]. exists (with_freed h m' f'), ptr. destruct (Z.eqb_spec ptr 0); [done|]. cbn [mbind option_bind]. destruct (Z.eqb_spec ptr 0); [done|]. by split; [|right].
Qed.

(** The list of large blocks after the heap has grown: only the new block fits. *)
Lemma find_grown h h' bs A' c n :
  P h' -> heap_ok h bs -> (forall b, b ∈ bs -> bf b = true -> phi_of b = false) -> grown h h' bs A' c n -> 0 <= n -> phi_of c = true -> rep h bs ->
  exists m l, list_match fits (h_mem h') (mp_large (h_pool h')) = Some (m, l, bp c) /\ found h (with_large h' m l) bs (bp c) /\ bp c <> 0.
Proof.
  intros HP [_ Hs] Hno ((X & EX & HX) & Hr & Hcf & Hcc & Hz & E1 & E2 & E3 & Hk) Hn Hc Hr0. pose proof (fits_total _ _ HP Hr) as Ht.
  destruct (list_match_ok fits h' _ Hr Ht) as [[_ Hno']|(A & b & B & m & l & EAB & Hbc & Hfit & E & H0 & Hr' & Hk')].
  { exfalso. apply (Hno' c); [set_solver|done|]. apply (fit_phi _ _ c HP Hr); [set_solver|done]. }
  rewrite Forall_forall in Hs. assert (Forall settled A') as HsA by (apply Forall_forall; intros d Hd; apply Hs; rewrite EX; set_solver).
  assert (b = c) as ->.
  { assert (b ∈ A' ++ [c]) as Hin by (rewrite EAB; set_solver). apply elem_of_app in Hin as [Hin|Hin]; [exfalso|by apply list_elem_of_singleton in Hin].
    assert (phi_of b = false) as Hf; [|apply (fit_phi _ _ b HP Hr) in Hfit; [congruence|set_solver]]. assert (b ∈ bs) as Hb by (rewrite EX; set_solver).
    apply Hno; [done|]. specialize (Hs b Hb). unfold settled in Hs. destruct (bf b); [done|congruence]. }
  assert (forall d, d ∈ A ++ B -> d ∈ A') as Hin.
  { intros d Hd. assert (d ∈ A' ++ [c]) as Hin by (rewrite EAB; set_solver). apply elem_of_app in Hin as [Hin|Hin]; [done|exfalso].
    apply list_elem_of_singleton in Hin as ->. destruct Hr as (L & Ha & _). rewrite EAB in Ha.
    destruct (area_blk _ _ _ _ c Ha ltac:(set_solver)) as (_ & _ & ? & _). destruct (tiled_others _ _ _ _ _ _ (ar_tiled _ _ _ _ Ha) Hd); lia. }
  exists m, l. split; [done|]. split; [|done]. exists A, (with_bc None c), B. split_and!; try done.
  - apply Forall_forall. intros d Hd. rewrite Forall_forall in HsA. auto.
  - rewrite <- (live_drop A c B Hcf), <- EAB, live_drop, app_nil_r by done. rewrite EX, live_app, (live_taken X _ HX), app_nil_r. done.
  - simpl. lia.
  - intros d Hd Hcd. eapply kept_trans; [apply (Hk d); [by apply Hin|done]|by apply Hk'].
  - intros Hap. apply (apart_mid A (with_bc None c) B). apply (apart_mid A c B). rewrite <- EAB. apply apart_mid. rewrite EX in Hap.
    destruct (apart_taken _ _ _ Hap eq_refl ltac:(by rewrite <- EX)) as [? ->]. split_and!; try done. by rewrite andb_false_r.
  - destruct Hr as (L & Ha & _). destruct Hr0 as (L0 & Ha0 & _). pose proof (ar_tiled _ _ _ _ Ha) as HT. pose proof (ar_tiled _ _ _ _ Ha0) as HT0. rewrite E1 in HT.
    apply tiled_app in HT as (r & HA & HT). simpl in HT. destruct HT as [Er _]. rewrite EX in HT0, HX. apply tiled_app in HT0 as (r0 & HA0 & HT0).
    pose proof (tiled_end _ _ _ _ HA HA0) as <-. simpl. destruct (list_snoc (A' ++ X)) as [E0|(K & a & E0)].
    + left. apply app_eq_nil in E0 as [-> ->]. simpl in HT0. congruence.
    + rewrite E0, last_snoc in HX. simpl in HX. destruct (bf a) eqn:Hfa; subst X; simpl in HT0; [right|left; congruence].
      exists a. destruct HT0 as [? _]. split; [rewrite EX; set_solver|]. split; [done|congruence].
Qed.

Lemma find_block_ok h bs more :
  P h -> heap_ok h bs -> 16 <= more -> more + SIZE_16k <= two64 ->
  (cb_reqmem = None \/ forall h' A' c, rep h' (A' ++ [c]) -> mp_ptr (h_pool h') = mp_ptr (h_pool h) -> mp_size (h_pool h') = mp_size (h_pool h) + PADDING_16k more -> PADDING_16k more - 16 <= bz c -> P h' /\ phi_of c = true) ->
  exists h' ptr, find_block cb_reqmem cb_delmem fits h size more = Some (h', ptr) /\
    ((ptr = -1 /\ (forall b, b ∈ bs -> bf b = true -> phi_of b = false) /\ h_mem h ⊆ h_mem h' /\ h_pool h' = h_pool h) \/ (0 < ptr /\ found h h' bs ptr)).
Proof.
  intros HP Hok Hm1 Hm2 Hgrow. destruct (find_old h bs HP Hok) as (h1 & ptr & Hfb & [(-> & -> & Hno)|(H0 & Hf & _)]); rewrite Hfb.
  - cbn [Z.eqb]. destruct (reqmem_ok cb_reqmem cb_delmem h bs more Hcb Hok Hm1 Hm2) as (h2 & ok & Hreq & Hres). rewrite Hreq. cbn [mbind option_bind].
    destruct ok; cbn [negb]; [|exists h2, (-1); split; [done|left; by destruct Hres]].
    destruct Hres as (A' & c & Hg). destruct (PADDING_16k_spec more ltac:(lia) Hm2) as [? _]. assert (P h2 /\ phi_of c = true) as [HP2 Hc].
    { destruct Hgrow as [->|Hgrow]; [done|]. destruct Hg as (_ & ? & _ & _ & ? & ? & ? & _). by eapply Hgrow. }
    destruct (find_grown _ _ _ _ _ _ HP2 Hok Hno Hg ltac:(lia) Hc (proj1 Hok)) as (m & l & -> & Hf & H0). cbn [mbind option_bind]. eexists _, (bp c). split; [done|]. right. split; [|done].
    destruct Hg as (_ & Hr & _). destruct (rep_blk _ _ c Hr ltac:(set_solver)) as (? & _). lia.
  - destruct (Z.eqb_spec ptr 0); [done|]. exists h1, ptr. split; [done|]. right. split; [|done].
    destruct Hf as (A & b & B & Hr & _ & _ & -> & _). destruct (rep_blk _ _ b Hr ltac:(set_solver)) as (? & _). lia.
Qed.
End Find.

(** ** Allocating *)

(** The size that is asked for, padded. *)
Definition padded (size : Z) : Z := if size =? 0 then 16 else PADDING size.

Lemma padded_spec size : 0 <= size -> size + 16 <= two64 -> Z.max 16 size <= padded size < size + 17 /\ (16 | padded size).
Proof.
  intros H0 H1. unfold padded. destruct (Z.eqb_spec size 0) as [->|]; [split; [lia|by exists 1]|].
  destruct (PADDING_spec size H0 H1) as [? [k Hk]]. split; [|by exists k]. lia.
Qed.

Lemma size_fits_ok z h bs b : rep h bs -> b ∈ bs -> size_fits (h_mem h) z (bp b) = Some (bz b >=? z).
Proof. intros Hr Hb. unfold size_fits. destruct (rep_blk _ _ _ Hr Hb) as (_ & _ & _ & _ & -> & _). done. Qed.

(** What a successful allocation does. *)
Definition allocated h h' bs (p z : Z) : Prop :=
  exists bs' z', heap_ok h' bs' /\ z <= z' < z + 64 /\ live bs' ≡ₚ (p, z') :: live bs /\ (apart bs -> apart bs') /\
    mp_ptr (h_pool h') = mp_ptr (h_pool h) /\ mp_size (h_pool h) <= mp_size (h_pool h') /\ mp_alloced (h_pool h') = u64 (mp_alloced (h_pool h) + z') /\
    intact (live bs) h h'.

(** Nothing has changed but that there may be more memory. *)
Definition unchanged h h' : Prop := h_mem h ⊆ h_mem h' /\ h_pool h' = h_pool h.

Lemma unchanged_ok h h' bs : heap_ok h bs -> unchanged h h' -> heap_ok h' bs /\ intact (live bs) h h'.
Proof.
  intros [Hr Hs] [Hm Hp]. split; [split; [|done]|intros p z _; by apply same_on_mono].
  replace h' with (with_hmem h (h_mem h')); [by apply rep_mono|]. destruct h' as [m' p']. unfold with_hmem. simpl in *. by rewrite Hp.
Qed.

Lemma apart_finish A b B z' T :
  apart A /\ apart B /\ is_free (head B) = false -> (T = [] \/ exists d, T = [freed d]) -> apart (A ++ used b z' :: T ++ B).
Proof.
  intros (HA & HB & Hn) HT. apply apart_mid. split_and!; try done; [|by rewrite andb_false_r].
  destruct HT as [->|[d ->]]; [done|]. split; [|done]. simpl. done.
Qed.

Lemma apart_around A b B : bf b = true -> apart (A ++ b :: B) -> apart A /\ apart B /\ is_free (head B) = false.
Proof. intros Hb (HA & HB & _ & Hn)%apart_mid. rewrite Hb in Hn. done. Qed.

Lemma finish_found h0 h A b B bs z :
  rep h (A ++ b :: B) -> bc b = None -> Forall settled (A ++ B) -> live (A ++ B) = live bs -> (apart bs -> apart A /\ apart B /\ is_free (head B) = false) ->
  mp_ptr (h_pool h) = mp_ptr (h_pool h0) -> mp_size (h_pool h0) <= mp_size (h_pool h) -> mp_alloced (h_pool h) = mp_alloced (h_pool h0) -> intact (live bs) h0 h ->
  16 <= z -> (16 | z) -> z <= bz b -> exists h', finish_alloc h (bp b) z = Some (h', bp b) /\ allocated h0 h' bs (bp b) z.
Proof.
  intros Hr Hb Hs Hlive Hap E1 E2 E3 Hk Hz H16 Hle.
  destruct (finish_alloc_ok _ _ _ _ _ Hr Hb Hs Hz H16 Hle) as (h' & z' & T & Hf & Hok & Hz' & HT & F1 & F2 & F3 & Hk' & Hcase).
  exists h'. split; [done|]. eexists _, z'. split_and!; try done; try lia.
  - rewrite (live_add A (used b z') (T ++ B)) by done. simpl. rewrite !live_app, HT, app_nil_l. by rewrite <- live_app, Hlive.
  - intros Hbs. apply apart_finish; [by apply Hap|]. destruct Hcase as [[_ ->]|?]; [by left|by right].
  - congruence.
  - eapply intact_trans; [exact Hk|]. rewrite <- Hlive. by apply keeps_intact.
Qed.

Section Alloc.
Context (cb_reqmem : option (wmem -> Z -> Z -> wmem * Z)) (cb_delmem : option (wmem -> Z -> Z -> wmem)).
Context (Hcb : forall req, cb_reqmem = Some req -> req_ok req cb_delmem).

Lemma alloc_ok h bs size :
  heap_ok h bs -> 0 <= size -> size + SIZE_16k + 32 <= two64 -> (cb_reqmem = None \/ ~ (SIZE_16k | padded size)) ->
  exists h' p, mpool_alloc cb_reqmem cb_delmem h size = Some (h', p) /\
    ((p = 0 /\ unchanged h h' /\ forall b, b ∈ bs -> bf b = true -> bz b < padded size) \/ (0 < p /\ allocated h h' bs p (padded size))).
Proof.
  intros Hok H0 Hmax H16k. destruct (padded_spec size H0 ltac:(unfold SIZE_16k in *; lia)) as [Hz H16]. unfold mpool_alloc. fold (padded size). set (z := padded size) in *.
  destruct (find_block_ok cb_reqmem cb_delmem Hcb (fun m => size_fits m z) (fun _ n => n >=? z) z (fun _ => True)) with (h := h) (bs := bs) (more := z) as (h1 & ptr & -> & Hres).
  - intros h1 bs1 b _ Hr Hb. by eapply size_fits_ok.
  - intros h1 bs1 b _ _ _ Hn. lia.
  - lia.
  - done.
  - done.
  - lia.
  - unfold SIZE_16k in *. lia.
  - destruct H16k as [|Hn]; [by left|right]. intros h' A' c _ _ _ Hle. destruct (PADDING_16k_spec z ltac:(lia) ltac:(unfold SIZE_16k in *; lia)) as (? & [q Hq] & [Hlt|]); [|done].
    split; [done|]. unfold phi_of. apply Z.geb_le. unfold SIZE_16k in *. destruct H16 as [k Hk]. lia.
  - cbn [mbind option_bind]. destruct Hres as [(-> & Hno & Hun)|[Hp (A & b & B & Hr & Hc & Hphi & -> & Hs & Hl & E1 & E2 & E3 & Hk & Hbf & Hap & _)]].
    + cbn [Z.eqb]. exists h1, 0. split; [done|]. left. split; [done|]. split; [done|]. intros b Hb Hbf. specialize (Hno b Hb Hbf). unfold phi_of in Hno. lia.
    + destruct (Z.eqb_spec (bp b) (-1)); [lia|]. unfold phi_of in Hphi.
      destruct (finish_found h h1 A b B bs z) as (h' & -> & Hall); try done; [intros Hbs; by apply (apart_around _ b), Hap|rewrite <- Hl; by apply keeps_intact|lia|lia|]. exists h', (bp b). split; [done|]. by right.
Qed.
End Alloc.

(** ** Freeing *)

Lemma free_ok h bs p z :
  heap_ok h bs -> (p, z) ∈ live bs ->
  exists h' bs', mpool_free h p = Some h' /\ heap_ok h' bs' /\ live bs ≡ₚ (p, z) :: live bs' /\ (apart bs -> apart bs') /\
    mp_ptr (h_pool h') = mp_ptr (h_pool h) /\ mp_size (h_pool h') = mp_size (h_pool h) /\ mp_alloced (h_pool h') = u64 (mp_alloced (h_pool h) - z) /\
    intact (live bs') h h'.
Proof.
  intros [Hr Hs] Hin. apply live_in in Hin as (b & Hb & Hbf & <- & <-). apply list_elem_of_split in Hb as (A & B & ->).
  pose proof Hs as HsAB. apply Forall_app in HsAB as [HsA [Hsb HsB]%Forall_cons]. assert (bc b = None) as Hbc by (unfold settled in Hsb; by rewrite Hbf in Hsb).
  destruct (rep_blk _ _ b Hr ltac:(set_solver)) as (Hp & _ & _ & H16 & Hsz & Htag). unfold mpool_free. destruct (Z.eqb_spec (bp b) 0); [lia|].
  pose proof (freed_ok _ _ Htag H16) as Hfr. unfold blk_freed in Hfr. destruct (blk_head (h_mem h) (bp b)) as [w|]; [|done]. cbn [mbind option_bind] in Hfr |- *.
  injection Hfr as ->. rewrite Hbf, Hsz. cbn [mbind option_bind].
  destruct (trymerge_ok (with_alloced h (u64 (mp_alloced (h_pool h) - bz b))) A b B) as (h1 & c & A' & X & Y & B' & EA & HX & EB & HY & -> & Hr1 & Hc & Hcf & _ & (E1 & E2 & E3) & Hk1);
    [by apply rep_alloced|done|done| |].
  { apply settled_on. by apply Forall_app. }
  cbn [mbind option_bind]. destruct (rep_blk _ _ c Hr1 ltac:(set_solver)) as (Hpc & _). destruct (Z.eqb_spec (bp c) 0); [lia|].
  destruct (do_free_ok _ _ _ _ Hr1 Hc) as (h2 & -> & Hr2 & (F1 & F2 & F3) & Hk2). assert (Forall settled (A' ++ B')) as HsAB'.
  { rewrite EA in HsA. rewrite EB in HsB. apply Forall_app in HsA as [? _]. apply Forall_app in HsB as [_ ?]. by apply Forall_app. }
  exists h2, (A' ++ freed c :: B'). split; [done|]. simpl in E1, E2, E3. rewrite F1, F2, F3. split_and!; try done.
  - split; [done|]. apply Forall_app in HsAB' as [? ?]. apply Forall_app. split; [done|]. by apply Forall_cons.
  - rewrite live_add, live_drop by done. f_equiv. rewrite EA, EB, !live_app, (live_taken _ _ HX), (live_taken _ _ HY). by rewrite app_nil_r.
  - intros (HA & HB & _)%apart_mid. rewrite EA in HA, HX. rewrite EB in HB, HY. destruct (apart_taken _ _ _ HA eq_refl HX) as [? Hl].
    destruct (apart_taken_head _ _ HB HY) as [? Hh]. apply apart_mid. rewrite Hl, Hh, andb_false_r. done.
  - rewrite live_drop by done. apply keeps_intact; [done|]. eapply hkeeps_trans; [|exact Hk2]. exact Hk1.
Qed.
