(* ===== verification/MpoolRealloc.v ===== *)
(** * [mpool_init] and [mpool_realloc] *)

From stdpp Require Import gmap.
From S2P Require Import Prelude Mpool MpoolRep MpoolInv MpoolOps MpoolMerge MpoolFind MpoolAlloc.

Implicit Types (m : wmem) (bs A B : list blk) (b d : blk) (L : Z -> list Z) (h : hsys).

(** ** A new heap *)

Lemma set_area_ok m b (big : bool) : tagged m b -> 0 <= bz b -> (16 | bz b) ->
  exists m', (if big then blk_set_area_2M m (bp b) (bz b) else blk_set_area_4k m (bp b) (bz b)) = Some m' /\ tagged m' b /\ but_tags m m' b.
Proof.
  intros Ht H0 H16. destruct big; [exact (set_big_ok m b true Ht H0 H16)|]. destruct Ht as (g & Hh & Ht).
  destruct (tag_facts (bz b) (bf b) g H16) as (_ & _ & _ & _ & _ & _ & _ & Hand).
  destruct (retag_ok m b (fun w => Z.land w (Z.lnot SIZE_FLAG)) _ _ Hh Ht Hand H0) as (m' & ? & ? & ? & ?). exists m'. split; [done|]. split; [by exists false|done].
Qed.

Lemma init_ok m ptr size :
  64 <= ptr -> ptr + size < two64 -> FREELIST_MAXBLKSIZE + 32 <= size -> (16 | size) ->
  (forall a, ptr <= a < ptr + size -> (8 | a - ptr) -> is_Some (m !! a)) ->
  exists h b, mpool_init m ptr size = Some (Some h) /\ heap_ok h [b] /\ bf b = true /\ bz b = size - 32 /\
    mp_ptr (h_pool h) = ptr /\ mp_size (h_pool h) = size /\ mp_alloced (h_pool h) = 0.
Proof.
  intros Hpos Htop Hsize [k Hk] Hmap. unfold FREELIST_MAXBLKSIZE in Hsize. unfold mpool_init.
  destruct (Z.eqb_spec ptr 0); [lia|]. destruct (Z.eqb_spec size 0); [lia|]. cbn [orb].
  replace (Z.land size 15) with 0 by (change 15 with (Z.ones 4); rewrite Z.land_ones by lia; symmetry; apply Z.mod_divide; [lia|exists k; lia]). cbn [Z.eqb negb].
  unfold allocarea_init. replace (8 * (size / 8 - 1)) with (size - 8) by (replace size with ((2 * k) * 8) by lia; rewrite Z.div_mul by lia; lia).
  set (sf := if size =? SIZE_2M then SIZE_FLAG else 0). set (data := Z.lor _ sf). rewrite (u64_id (size - 32)) by lia.
  rewrite stw_some by (apply Hmap; [lia|exists (2 * k - 1); lia]). cbn [mbind option_bind].
  rewrite stw_some by (rewrite lookup_insert_ne by lia; apply Hmap; [lia|exists 0; lia]). cbn [mbind option_bind]. set (m1 := <[ptr := data]> _).
  assert (forall a, is_Some (m !! a) -> is_Some (m1 !! a)) as Hd1 by (intros a ?; unfold m1; rewrite !lookup_insert_is_Some'; eauto).
  set (b := mkB (ptr + 16) (size - 32) false None). change (ptr + 16) with (bp b). change (size - 32) with (bz b).
  assert ((16 | bz b)) as H16 by (exists (k - 2); simpl; lia). assert (0 <= bz b) as Hz0 by (simpl; lia).
  destruct (setsize_ok m1 b) as (m2 & -> & Ht2 & Hd2 & Hm2); [done|done|apply Hd1, Hmap; simpl; [lia|exists 1; lia]|apply Hd1, Hmap; simpl; [lia|exists (2 * k - 2); lia]|].
  cbn [mbind option_bind]. destruct (setfreed_ok m2 b Ht2 Hz0 H16) as (m3 & -> & Ht3 & Hd3 & Hm3). cbn [mbind option_bind].
  destruct (set_area_ok m3 (with_bf true b) (negb (sf =? 0)) Ht3 Hz0 H16) as (m4 & Hs4 & Ht4 & Hd4 & Hm4). simpl in Hs4, Hm4. simpl. rewrite Hs4. cbn [mbind option_bind].
  simpl in Hm2, Hm3. set (h0 := mkH m4 (mkMp ptr size 0 0 (replicate 8 0))).
  assert (forall a, is_Some (m !! a) -> is_Some (m4 !! a)) as Hd by (intros a ?; by apply Hd4, Hd3, Hd2, Hd1).
  assert (rep h0 ([] ++ with_bf true b :: [])) as Hr.
  { exists (fun _ => []). split; split; simpl.
    - done.
    - lia.
    - split_and!; [done|lia|done|lia].
    - intros a Ha H8. by apply Hd, Hmap.
    - exists data. rewrite Hm4, Hm3, Hm2 by lia. split; [apply lookup_insert_eq|]. apply area_flag_lor.
    - exists data. rewrite Hm4, Hm3, Hm2 by lia. split; [|apply area_flag_lor]. unfold m1. rewrite lookup_insert_ne by lia.
      rewrite <- (lookup_insert_eq m (ptr + (size - 8)) data). f_equal. lia.
    - intros d Hd'. by apply list_elem_of_singleton in Hd' as ->.
    - done.
    - unfold FREELIST_NUM. intros c Hc. unfold list_head. simpl. destruct (Z.ltb_spec c 0); [done|]. apply (zget_replicate 8). lia.
    - done.
    - intros. constructor.
    - intros c x. split; [set_solver|]. intros (d & Hd' & _ & Hc). apply list_elem_of_singleton in Hd' as ->. done. }
  destruct (put_large_rep _ _ _ _ Hr eq_refl) as (m5 & E5 & Hr5 & _). simpl in E5. rewrite E5. cbn [mbind option_bind].
  eexists _, _. split; [done|]. split; [split; [exact Hr5|]|done]. repeat constructor. unfold settled, class. simpl.
  destruct (size2id_range (size - 32) ltac:(lia)) as [? _]. unfold freelists_size2id. destruct (Z.ltb_spec (size - 32) 64); [lia|]. destruct (Z.ltb_spec (size - 32) 256); [lia|].
  destruct (Z.geb_spec (size - 32) FREELIST_MAXBLKSIZE); [done|]. unfold FREELIST_MAXBLKSIZE in *. lia.
Qed.

(** ** Writing the data of a block *)

Lemma rep_data h m' A b B :
  rep h (A ++ b :: B) -> bc b = None -> (forall a, is_Some (m' !! a) <-> is_Some (h_mem h !! a)) ->
  (forall a, ~ (bp b <= a < bp b + bz b) -> m' !! a = h_mem h !! a) -> rep (with_hmem h m') (A ++ b :: B) /\ keeps (A ++ B) h (with_hmem h m').
Proof.
  intros Hr Hb Hd Hm. destruct (rep_blk _ _ b Hr ltac:(set_solver)) as (_ & _ & Hz & H16 & _ & Ht).
  apply (rep_replace h m' A [b] [b] B (bp b) (bp b + bz b + 16)); try done.
  - simpl. intros p q (<- & _ & _ & E). lia.
  - intros d Hd'. by apply list_elem_of_singleton in Hd' as ->.
  - intros d Hd'. by apply list_elem_of_singleton in Hd' as ->.
  - intros d Hd'. apply list_elem_of_singleton in Hd' as ->. eapply tagged_frame; [| |exact Ht]; apply Hm; lia.
  - intros a Ha. apply Hm. lia.
Qed.

(** [memcpy] between two ranges that do not overlap. *)
Lemma copy_words_ok m dst src n :
  0 <= n -> (dst + 8 * n <= src \/ src + 8 * n <= dst) ->
  (forall i, 0 <= i < n -> is_Some (m !! (dst + 8 * i)) /\ is_Some (m !! (src + 8 * i))) ->
  exists m', copy_words m dst src (8 * n) = Some m' /\ (forall a, is_Some (m' !! a) <-> is_Some (m !! a)) /\
    (forall a, ~ (dst <= a < dst + 8 * n) -> m' !! a = m !! a) /\ (forall i, 0 <= i < n -> m' !! (dst + 8 * i) = m !! (src + 8 * i)).
Proof.
  intros Hn Hdis Hmap. unfold copy_words. replace (8 * n / 8) with n by (rewrite Z.mul_comm, Z.div_mul; lia).
  destruct (for_range_inv (fun i (t : wmem) => (forall a, is_Some (t !! a) <-> is_Some (m !! a)) /\ (forall a, ~ (dst <= a < dst + 8 * i) -> t !! a = m !! a) /\
    (forall j, 0 <= j < i -> t !! (dst + 8 * j) = m !! (src + 8 * j))) 0 n (fun i t => w ← ldw t (src + 8 * i); stw t (dst + 8 * i) w) m Hn)
    as (m' & E & Hd & Hout & Hin).
  - split; [done|]. split; [done|]. intros j Hj. lia.
  - intros i t Hi (Hd & Hout & Hin). destruct (Hmap i Hi) as [Hdm [w Hw]]. unfold ldw. rewrite (Hout (src + 8 * i)), Hw by lia. cbn [mbind option_bind].
    rewrite stw_some by (by apply Hd). eexists. split; [done|]. split_and!.
    + intros a. rewrite lookup_insert_is_Some', Hd. split; [|by eauto]. intros [<-|]; done.
    + intros a Ha. rewrite lookup_insert_ne by lia. apply Hout. lia.
    + intros j Hj. destruct (decide (j = i)) as [->|]; [by rewrite lookup_insert_eq|]. rewrite lookup_insert_ne by lia. apply Hin. lia.
  - exists m'. done.
Qed.

(** ** Reallocating *)

(** The first [n] bytes of the block at [p] are at [q] now. *)
Definition moved_data h h' (p q n : Z) : Prop := forall i w, 0 <= i -> 8 * i < n -> h_mem h !! (p + 8 * i) = Some w -> h_mem h' !! (q + 8 * i) = Some w.

(** The block [(p, z)] has become [(q, z')], the others are as they were. *)
Definition reallocated h h' bs (p z q n : Z) : Prop :=
  exists bs' z' rest, heap_ok h' bs' /\ n <= z' /\ live bs ≡ₚ (p, z) :: rest /\ live bs' ≡ₚ (q, z') :: rest /\ intact rest h h' /\
    moved_data h h' p q (Z.min z n) /\ (q = p -> mp_alloced (h_pool h') = mp_alloced (h_pool h)).

Lemma resize_ok h0 h A b b0 B bs n :
  rep h (A ++ b :: B) -> bc b = None -> bf b = false -> Forall settled (A ++ B) -> live bs ≡ₚ (bp b, bz b0) :: live (A ++ B) ->
  same_pool h0 h -> keeps (A ++ B) h0 h -> same_on (bp b) (bp b + bz b0) (h_mem h0) (h_mem h) -> bz b0 <= bz b -> 16 <= n -> (16 | n) -> n <= bz b ->
  exists h', try_split_and_free h (bp b) n = Some h' /\ reallocated h0 h' bs (bp b) (bz b0) (bp b) n.
Proof.
  intros Hr Hc Hf Hs Hlive Hp0 Hk0 Hd0 Hle0 Hn H16 Hle.
  destruct (try_split_ok _ _ _ _ _ Hr Hc Hn H16 Hle) as (h' & c & T & E & Hr' & Ep & Hcc & Hzc & Hcase & Hp & Hk & Hd). exists h'. split; [done|].
  assert (bf c = false) as Hcf by (destruct Hcase as [[-> _]|[-> _]]; done). assert (live T = []) as HT by (destruct Hcase as [[_ ->]|[_ ->]]; [done|by apply live_free]).
  exists (A ++ c :: T ++ B), (bz c), (live (A ++ B)). split_and!.
  - split; [done|]. apply Forall_app in Hs as [HA HB]. apply Forall_app. split; [done|]. apply Forall_cons. split; [unfold settled; by rewrite Hcf|].
    apply Forall_app. split; [|done]. destruct Hcase as [[_ ->]|[_ ->]]; [done|]. repeat constructor.
  - lia.
  - done.
  - rewrite live_add by done. rewrite !live_app, HT, Ep. done.
  - apply keeps_intact; [done|]. by eapply hkeeps_trans.
  - intros i w Hi Hlt Hw. apply Hd; [lia|]. apply Hd0; [lia|done].
  - intros _. destruct Hp as (_ & _ & ->). apply Hp0.
Qed.

Lemma grow_ok h A b B n :
  heap_ok h (A ++ b :: B) -> bf b = false -> 16 <= n -> (16 | n) ->
  exists r, grow_in_place h (bp b) n = Some r /\
    match r with
    | Some (h', q) => q = bp b /\ reallocated h h' (A ++ b :: B) (bp b) (bz b) (bp b) n
    | None => bz b < n
    end.
Proof.
  intros [Hr Hs] Hf Hn H16. pose proof Hs as HsAB. apply Forall_app in HsAB as [HsA [Hsb HsB]%Forall_cons].
  assert (bc b = None) as Hc by (unfold settled in Hsb; by rewrite Hf in Hsb).
  destruct (rep_blk _ _ b Hr ltac:(set_solver)) as (? & ? & ? & ? & Hsz & _). unfold grow_in_place. rewrite Hsz. cbn [mbind option_bind].
  destruct (Z.geb_spec (bz b) n) as [Hge|Hlt].
  { destruct (resize_ok h h A b b B (A ++ b :: B) n) as (h' & -> & Hre); try done; [by apply Forall_app|by apply live_add|apply hkeeps_refl|apply same_on_refl|].
    cbn [mbind option_bind]. eexists. split; [done|]. done. }
  destruct (next_word _ _ _ _ Hr) as (w & Hw & Hcase). unfold blk_next, blk_nonext. rewrite Hsz. cbn [mbind option_bind]. rewrite Hw. cbn [mbind option_bind].
  destruct B as [|d B]; [rewrite Hcase; cbn; exists None; by split|]. destruct Hcase as (-> & _ & Ed). cbn [mbind option_bind]. rewrite <- Ed.
  destruct (rep_blk _ _ d Hr ltac:(set_solver)) as (? & ? & ? & ? & Hszd & Htd). destruct (Z.eqb_spec (bp d) 0); [lia|]. rewrite (freed_ok _ _ Htd) by done. cbn [mbind option_bind].
  destruct (bf d) eqn:Hfd; [|exists None; by split]. rewrite Hszd. cbn [mbind option_bind]. rewrite u64_id by lia.
  destruct (Z.geb_spec (bz b + 16 + bz d) n) as [Hge|]; [|exists None; by split].
  apply Forall_cons in HsB as [Hsd HsB]. unfold settled in Hsd. rewrite Hfd in Hsd.
  destruct (mergenext_ok _ _ _ _ _ Hr Hc Hsd) as (h1 & -> & Hr1 & Hp1 & Hk1 & Hd1). cbn [mbind option_bind].
  destruct (resize_ok h h1 A (merged b d) b B (A ++ b :: d :: B) n) as (h' & E & Hre); try done.
  - by apply Forall_app.
  - rewrite live_add by done. simpl. by rewrite live_drop.
  - simpl. lia.
  - simpl. lia.
  - simpl in E. rewrite E. cbn [mbind option_bind]. eexists. split; [done|]. done.
Qed.

Lemma padded_idem n : 0 <= n -> n + 32 <= two64 -> padded (padded n) = padded n.
Proof.
  intros H0 H1. destruct (padded_spec n H0 ltac:(lia)) as [Hz [k Hk]]. destruct (PADDING_spec (padded n) ltac:(lia) ltac:(lia)) as [Hz' [j Hj]].
  unfold padded at 1. destruct (Z.eqb_spec (padded n) 0); lia.
Qed.

Lemma live_nodup h bs : rep h bs -> NoDup ((live bs).*1).
Proof.
  intros (L & Ha & _). assert (NoDup (bp <$> bs)) as Hnd.
  { pose proof (ar_tiled _ _ _ _ Ha) as HT. clear Ha. revert HT. generalize (mp_ptr (h_pool h) + 16). induction bs as [|b bs IH]; intros p HT; [constructor|].
    simpl in HT. destruct HT as (Hp & ? & _ & HT). simpl. apply NoDup_cons. split; [|by eapply IH]. intros (d & E & Hd)%list_elem_of_fmap.
    destruct (tiled_in _ _ _ _ HT Hd) as (? & _). lia. }
  unfold live. rewrite <- list_fmap_compose. eapply sublist_NoDup; [exact Hnd|]. apply fmap_sublist, sublist_filter.
Qed.


(** The copy to the new block, and freeing the old one. *)
Lemma move_ok h0 h bs0 bs p z q z' :
  heap_ok h bs -> (p, z) ∈ live bs0 -> live bs ≡ₚ (q, z') :: live bs0 -> z <= z' -> intact (live bs0) h0 h ->
  exists h', move_block h q p z = Some (h', q) /\ reallocated h0 h' bs0 p z q z'.
Proof.
  intros [Hr Hs] Hp0 Hlive Hzz Hint. assert ((p, z) ∈ live bs) as Hp by (rewrite Hlive; set_solver). assert ((q, z') ∈ live bs) as Hq by (rewrite Hlive; set_solver).
  assert (q <> p) as Hne.
  { intros ->. pose proof (live_nodup _ _ Hr) as Hnd. rewrite Hlive in Hnd. simpl in Hnd. apply NoDup_cons in Hnd as [Hni _]. apply Hni. apply list_elem_of_fmap. by exists (p, z). }
  apply live_in in Hp as (b & Hb & Hbf & Eb & Ez). apply live_in in Hq as (c & Hc & Hcf & Ec & Ecz). subst p z q z'.
  apply list_elem_of_split in Hc as (A & B & ->). pose proof Hs as HsAB. apply Forall_app in HsAB as [HsA [Hsc HsB]%Forall_cons].
  assert (bc c = None) as Hcc by (unfold settled in Hsc; by rewrite Hcf in Hsc). assert (Forall settled (A ++ B)) as HsAB by (by apply Forall_app).
  destruct (rep_blk _ _ b Hr Hb) as (_ & _ & ? & [k Hk] & _). pose proof Hr as (L & Ha & _).
  assert (bp c + bz c + 16 <= bp b \/ bp b + bz b + 16 <= bp c) as Hap.
  { destruct (tiled_apart _ _ _ c b (ar_tiled _ _ _ _ Ha)) as [E|]; [set_solver|done|by rewrite E in Hne|done]. }
  destruct (copy_words_ok (h_mem h) (bp c) (bp b) (2 * k)) as (m' & Ecp & Hd & Hout & Hin); [lia|lia| |].
  { intros i Hi. split; [apply (area_word _ _ _ _ c _ Ha)|apply (area_word _ _ _ _ b _ Ha)]; try (exists i; lia); try lia; set_solver. }
  replace (8 * (2 * k)) with (bz b) in Ecp, Hout by lia. unfold move_block. rewrite Ecp. cbn [mbind option_bind].
  destruct (rep_data h m' A c B Hr Hcc Hd) as [Hr1 Hk1]; [intros a Ha'; apply Hout; lia|]. set (h1 := with_hmem h m') in *.
  apply elem_of_Permutation in Hp0 as [rest Hrest]. pose proof Hlive as HliveAB. rewrite live_add in HliveAB by done. apply (inj (cons _)) in HliveAB.
  destruct (free_ok h1 (A ++ c :: B) (bp b) (bz b)) as (h2 & bs2 & -> & Hok2 & Hlive2 & _ & _ & _ & _ & Hint2); [by split|rewrite Hlive, Hrest; set_solver|].
  assert (live bs2 ≡ₚ (bp c, bz c) :: rest) as Hl2.
  { apply (inj (cons (bp b, bz b))). rewrite <- Hlive2, Hlive, Hrest. by apply Permutation_swap. }
  cbn [mbind option_bind]. exists h2. split; [done|]. exists bs2, (bz c), rest. split_and!; try done; try lia.
  - eapply intact_trans; [eapply intact_sub; [|exact Hint]; rewrite Hrest; set_solver|].
    eapply intact_trans; [eapply intact_sub; [|exact (keeps_intact _ _ _ HsAB Hk1)]; rewrite HliveAB, Hrest; set_solver|].
    eapply intact_sub; [|exact Hint2]. rewrite Hl2. set_solver.
  - intros i w Hi Hlt Hw. apply (Hint2 (bp c) (bz c)); [rewrite Hl2; set_solver|lia|]. simpl. rewrite Hin by lia. apply (Hint (bp b) (bz b)); [rewrite Hrest; set_solver|lia|done].
Qed.

Section Realloc.
Context (cb_reqmem : option (wmem -> Z -> Z -> wmem * Z)) (cb_delmem : option (wmem -> Z -> Z -> wmem)).
Context (Hcb : forall req, cb_reqmem = Some req -> req_ok req cb_delmem).

(** Only when the block has to move is new memory asked for. *)
Lemma realloc_ok h bs p z newsize :
  heap_ok h bs -> (p, z) ∈ live bs -> 0 <= newsize -> newsize + SIZE_16k + 64 <= two64 ->
  (grow_in_place h p (padded newsize) = Some None ->
   (cb_reqmem = None \/ ~ (SIZE_16k | padded newsize)) /\ forall h1, mpool_alloc cb_reqmem cb_delmem h (padded newsize) <> Some (h1, 0)) ->
  exists h' q, mpool_realloc cb_reqmem cb_delmem h p newsize = Some (h', q) /\ 0 < q /\ reallocated h h' bs p z q (padded newsize) /\
    (padded newsize <= z -> q = p).
Proof.
  intros Hok Hin H0 Hmax Hmove. unfold SIZE_16k in Hmax. destruct (padded_spec newsize H0 ltac:(lia)) as [Hz H16]. pose proof Hin as Hin'.
  apply live_in in Hin' as (b & Hb & Hbf & Eb & Ez). apply list_elem_of_split in Hb as (A & B & ->). pose proof Hok as [Hr _].
  destruct (rep_blk _ _ b Hr ltac:(set_solver)) as (Hpb & _ & _ & _ & Hsz & _). unfold mpool_realloc. destruct (Z.eqb_spec p 0); [lia|].
  subst p z. rewrite Hsz. cbn [mbind option_bind]. fold (padded newsize). set (nz := padded newsize) in *.
  destruct (grow_ok _ _ _ _ nz Hok Hbf ltac:(lia) H16) as ([[h1 q]|] & Eg & Hres); rewrite Eg; cbn [mbind option_bind].
  - destruct Hres as [-> Hre]. exists h1, (bp b). split; [done|]. split; [lia|done].
  - destruct (Hmove Eg) as [H16k Hmem]. assert (padded nz = nz) as Epad by (apply padded_idem; lia).
    destruct (alloc_ok cb_reqmem cb_delmem Hcb h _ nz Hok) as (h1 & q & E & Hcase); [lia|unfold SIZE_16k; lia|by rewrite Epad|].
    rewrite E. cbn [mbind option_bind]. destruct Hcase as [(-> & _)|(Hq & bs1 & z' & Hok1 & Hz' & Hlive & _ & _ & _ & _ & Hint)]; [by destruct (Hmem h1)|]. rewrite Epad in Hz'.
    destruct (move_ok h h1 (A ++ b :: B) bs1 (bp b) (bz b) q z' Hok1 Hin Hlive ltac:(lia) Hint) as (h2 & -> & Hre). exists h2, q. split; [done|]. split; [done|].
    split; [|lia]. destruct Hre as (bs' & z2 & rest & ? & ? & ? & ? & ? & Hmv & ?). exists bs', z2, rest. split_and!; try done; [lia|]. intros i w Hi Hlt. apply Hmv; lia.
Qed.
End Realloc.
