(* ===== verification/MpoolProps.v ===== *)
(** * Properties of the kernel heap

    The users of the heap see its live blocks, their addresses and sizes, and
    what is stored in them. [malloc], [free] and [realloc] are stated on these;
    the last two theorems are inputs on which the allocator faults. *)

From stdpp Require Import gmap.
From S2P Require Import Prelude Mpool MpoolRep MpoolInv MpoolOps MpoolMerge MpoolFind MpoolAlloc MpoolRealloc.

Implicit Types (m : wmem) (bs A B : list blk) (b d : blk) (h : hsys).

(** ** Histories *)

Inductive hop := HMalloc (n : Z) | HFree (i : nat).

(** One call of a client that keeps the pointers it has got and frees only
    those. *)
Definition hstep cb_reqmem cb_delmem (s : hsys * list Z) (o : hop) : option (hsys * list Z) :=
  match o with
  | HMalloc n => '(h, p) ← mpool_alloc cb_reqmem cb_delmem s.1 n; Some (h, if p =? 0 then s.2 else p :: s.2)
  | HFree i => match s.2 !! i with Some p => h ← mpool_free s.1 p; Some (h, delete i s.2) | None => Some s end
  end.

Fixpoint hrun cb_reqmem cb_delmem (s : hsys * list Z) (ops : list hop) : option (hsys * list Z) :=
  match ops with
  | [] => Some s
  | o :: ops => s ← hstep cb_reqmem cb_delmem s o; hrun cb_reqmem cb_delmem s ops
  end.

Definition total_live bs : Z := foldr Z.add 0 (live bs).*2.

(** The heap is well formed and coalesced, its live blocks are the ones the
    client has, and the account is their total size. *)
Definition hist_inv (s : hsys * list Z) : Prop :=
  exists bs, heap_ok s.1 bs /\ apart bs /\ s.2 ≡ₚ (live bs).*1 /\ mp_alloced (h_pool s.1) = total_live bs.

(** Live blocks do not overlap. *)
Definition no_overlap (l : list (Z * Z)) : Prop := forall p z q y, (p, z) ∈ l -> (q, y) ∈ l -> p <> q -> p + z <= q \/ q + y <= p.

Definition good_op (cb_reqmem : option (wmem -> Z -> Z -> wmem * Z)) (o : hop) : Prop :=
  match o with HMalloc n => 0 <= n /\ n + SIZE_16k + 32 <= two64 /\ (cb_reqmem = None \/ ~ (SIZE_16k | padded n)) | HFree _ => True end.

Lemma live_no_overlap h bs : rep h bs -> no_overlap (live bs).
Proof.
  intros (L & Ha & _) p z q y (b & Hb & _ & <- & <-)%live_in (d & Hd & _ & <- & <-)%live_in Hne.
  destruct (tiled_apart _ _ _ b d (ar_tiled _ _ _ _ Ha) Hb Hd) as [->|]; [done|lia].
Qed.

#[export] Instance foldr_add_perm : Proper ((≡ₚ) ==> (=)) (foldr Z.add 0).
Proof. intros l k Hp. induction Hp; simpl; lia. Qed.

Lemma total_live_bound h bs : rep h bs -> 0 <= total_live bs < two64.
Proof.
  intros (L & Ha & _). pose proof (ar_top _ _ _ _ Ha). pose proof (ar_pos _ _ _ _ Ha).
  pose proof (ar_tiled _ _ _ _ Ha) as HT. enough (forall p q, tiled p bs q -> 0 <= total_live bs <= q - p) as Hb by (specialize (Hb _ _ HT); lia).
  clear. induction bs as [|b bs IH]; intros p q HT; simpl in HT; [unfold total_live; simpl; lia|]. destruct HT as (_ & ? & _ & HT). specialize (IH _ _ HT).
  unfold total_live in *. rewrite live_cons. destruct (bf b) eqn:E; [rewrite (live_free b E)|rewrite (live_used b E)]; cbn [app fmap list_fmap foldr snd]; lia.
Qed.

Section History.
Context (cb_reqmem : option (wmem -> Z -> Z -> wmem * Z)) (cb_delmem : option (wmem -> Z -> Z -> wmem)).
Context (Hcb : forall req, cb_reqmem = Some req -> req_ok req cb_delmem).

Lemma hstep_inv s o : hist_inv s -> good_op cb_reqmem o -> exists s', hstep cb_reqmem cb_delmem s o = Some s' /\ hist_inv s'.
Proof.
  destruct s as [h own]. intros (bs & Hok & Hap & Hown & Hacc) Hgood. destruct o as [n|i]; simpl in *.
  - destruct Hgood as (H0 & Hmax & H16k). destruct (alloc_ok cb_reqmem cb_delmem Hcb h bs n Hok H0 Hmax H16k) as (h' & p & -> & Hcase). cbn [mbind option_bind].
    eexists. split; [done|]. destruct Hcase as [(-> & Hun & _)|(Hp & bs' & z' & Hok' & Hz' & Hlive & Hap' & _ & _ & Hacc' & _)].
    + exists bs. destruct (unchanged_ok _ _ _ Hok Hun) as [? _]. simpl. split_and!; try done. destruct Hun as [_ ->]. done.
    + exists bs'. simpl. destruct (Z.eqb_spec p 0); [lia|]. split_and!; [done|by apply Hap'|by rewrite Hlive, Hown|].
      assert (total_live bs' = z' + total_live bs) as Ht by (unfold total_live; by rewrite Hlive).
      pose proof (total_live_bound _ _ (proj1 Hok')). rewrite Hacc', Hacc, Ht, u64_id; lia.
  - destruct (own !! i) as [p|] eqn:Ei; [|exists (h, own); split; [done|by exists bs]].
    assert (p ∈ (live bs).*1) as Hp by (rewrite <- Hown; by eapply list_elem_of_lookup_2). apply list_elem_of_fmap in Hp as ([p' z] & -> & Hin). simpl in *.
    destruct (free_ok h bs p' z Hok Hin) as (h' & bs' & -> & Hok' & Hlive & Hap' & _ & _ & Hacc' & _). cbn [mbind option_bind]. eexists. split; [done|].
    exists bs'. simpl. split_and!; [done|by apply Hap'| |].
    + apply (inj (cons p')). rewrite <- (delete_Permutation _ _ _ Ei), Hown, Hlive. done.
    + assert (total_live bs = z + total_live bs') as Ht by (unfold total_live; by rewrite Hlive).
      pose proof (total_live_bound _ _ (proj1 Hok')). pose proof (total_live_bound _ _ (proj1 Hok)). rewrite Hacc', Hacc, Ht, u64_id; lia.
Qed.

Lemma hrun_inv s ops : hist_inv s -> Forall (good_op cb_reqmem) ops -> exists s', hrun cb_reqmem cb_delmem s ops = Some s' /\ hist_inv s'.
Proof.
  intros Hs Hops. revert s Hs. induction Hops as [|o ops Ho _ IH]; intros s Hs; simpl; [eauto|].
  destruct (hstep_inv s o Hs Ho) as (s' & -> & Hs'). cbn [mbind option_bind]. by apply IH.
Qed.
End History.

(** Memory of [n] words from [a] on. *)
Definition words (a n : Z) : wmem := list_to_map ((fun i => (a + 8 * i, 0)) <$> seqZ 0 n).

Lemma words_mapped a n x : a <= x < a + 8 * n -> (8 | x - a) -> is_Some (words a n !! x).
Proof.
  intros Hx [k Hk]. unfold words. destruct (list_to_map ((fun i => (a + 8 * i, 0)) <$> seqZ 0 n) !! x) as [w|] eqn:E; [eauto|]. exfalso.
  apply not_elem_of_list_to_map in E. apply E. rewrite <- list_fmap_compose. apply list_elem_of_fmap. exists k. split; [simpl; lia|]. apply elem_of_seqZ. lia.
Qed.

(** A callback that always has more memory. *)
Definition more_words (m : wmem) (a n : Z) : wmem * Z := if a + n <? two64 then (m ∪ words a ((n + 7) / 8), a) else (m, 0).

Lemma more_words_ok : req_ok more_words None.
Proof.
  unfold more_words. split.
  - intros m a n. destruct (a + n <? two64); simpl; [apply map_union_subseteq_l|done].
  - intros m a n. destruct (Z.ltb_spec (a + n) two64); simpl; [|by intros <-]. intros _ _. split; [done|]. intros x Hx H8.
    apply lookup_union_is_Some. right. apply words_mapped; [|done]. destruct H8 as [k Hk]. pose proof (Z.div_mod (n + 7) 8). pose proof (Z.mod_pos_bound (n + 7) 8). lia.
  - done.
Qed.

(** ** The claims *)

(** C16: mpool_free of any live block of a well-formed heap returns; the block is no longer live, every other live block keeps its address, its size and its data, the account shrinks by its size, and the block is merged with its free neighbours. *)
Theorem mpool_free_correct h bs p z :
  heap_ok h bs -> (p, z) ∈ live bs ->
  exists h' bs', mpool_free h p = Some h' /\ heap_ok h' bs' /\ live bs ≡ₚ (p, z) :: live bs' /\ intact (live bs') h h' /\
    mp_alloced (h_pool h') = u64 (mp_alloced (h_pool h) - z) /\ (apart bs -> apart bs').
Proof. intros Hok Hin. destruct (free_ok h bs p z Hok Hin) as (h' & bs' & ? & ? & ? & ? & _ & _ & ? & ?). exists h', bs'. by split_and!. Qed.

Section Claims.
Context (cb_reqmem : option (wmem -> Z -> Z -> wmem * Z)) (cb_delmem : option (wmem -> Z -> Z -> wmem)).
Context (Hcb : forall req, cb_reqmem = Some req -> req_ok req cb_delmem).

(** C15: on a well-formed heap, for a size at least 16 KiB and 32 bytes below 2^64, when the heap cannot grow (no callback for more memory) or the padded size is not a multiple of 16 KiB: mpool_alloc either returns NULL, and then no free block is large enough and nothing was changed, or the address of a new live block of at least the size that was asked for, rounded up, that is less than 64 bytes larger and overlaps no live block; every other live block keeps its address, its size and its data, the account grows by the size of the block, and no two neighbours are free if none were. *)
Theorem mpool_alloc_correct h bs size :
  heap_ok h bs -> 0 <= size -> size + SIZE_16k + 32 <= two64 -> (cb_reqmem = None \/ ~ (SIZE_16k | padded size)) ->
  exists h' p, mpool_alloc cb_reqmem cb_delmem h size = Some (h', p) /\
    ((p = 0 /\ heap_ok h' bs /\ h_pool h' = h_pool h /\ intact (live bs) h h' /\ forall b, b ∈ bs -> bf b = true -> bz b < padded size) \/
     (exists bs' z, 0 < p /\ heap_ok h' bs' /\ no_overlap (live bs') /\ live bs' ≡ₚ (p, z) :: live bs /\ size <= padded size /\ padded size <= z < padded size + 64 /\ intact (live bs) h h' /\
        mp_alloced (h_pool h') = u64 (mp_alloced (h_pool h) + z) /\ (apart bs -> apart bs'))).
Proof.
  intros Hok H0 Hmax H16k. destruct (alloc_ok _ _ Hcb h bs size Hok H0 Hmax H16k) as (h' & p & E & Hcase). exists h', p. split; [done|].
  destruct (padded_spec size H0 ltac:(unfold SIZE_16k in *; lia)) as [? _].
  destruct Hcase as [(-> & Hun & Hno)|(Hp & bs' & z & Hok' & Hz & Hlive & Hap & _ & _ & Hacc & Hint)].
  - left. destruct (unchanged_ok _ _ _ Hok Hun) as [? ?]. by destruct Hun.
  - right. exists bs', z. split_and!; try done; try lia. eapply live_no_overlap, Hok'.
Qed.

(** C18: mpool_realloc of a live block returns a live block of at least the new size with the data of the old one up to the smaller size, in place of the old block; the other live blocks keep their address, their size and their data. A block that is large enough stays where it is, and then the account is not changed. When the block can neither stay nor grow into the next one ([grow_in_place] gives nothing), two things are assumed: the heap cannot grow or the padded size is not a multiple of 16 KiB, and mpool_alloc of the new size does not return NULL. *)
Theorem mpool_realloc_correct h bs p z newsize :
  heap_ok h bs -> (p, z) ∈ live bs -> 0 <= newsize -> newsize + SIZE_16k + 64 <= two64 ->
  (grow_in_place h p (padded newsize) = Some None ->
   (cb_reqmem = None \/ ~ (SIZE_16k | padded newsize)) /\ forall h1, mpool_alloc cb_reqmem cb_delmem h (padded newsize) <> Some (h1, 0)) ->
  exists h' q, mpool_realloc cb_reqmem cb_delmem h p newsize = Some (h', q) /\ 0 < q /\ (padded newsize <= z -> q = p) /\
    exists bs' z' rest, heap_ok h' bs' /\ padded newsize <= z' /\ live bs ≡ₚ (p, z) :: rest /\ live bs' ≡ₚ (q, z') :: rest /\ intact rest h h' /\
      (forall i w, 0 <= i -> 8 * i < Z.min z (padded newsize) -> h_mem h !! (p + 8 * i) = Some w -> h_mem h' !! (q + 8 * i) = Some w) /\
      (q = p -> mp_alloced (h_pool h') = mp_alloced (h_pool h)).
Proof.
  intros Hok Hin H0 Hmax Hmove. destruct (realloc_ok _ _ Hcb h bs p z newsize Hok Hin H0 Hmax Hmove) as (h' & q & E & Hq & Hre & Hs).
  exists h', q. do 3 (split; [done|]). exact Hre.
Qed.

(** C17: from mpool_init on, any sequence of allocations and of frees of pointers the client has runs without a fault, provided that every size asked for is at least 16 KiB and 32 bytes below 2^64 and that the heap cannot grow (no callback for more memory) or no padded size is a multiple of 16 KiB ([good_op]); the client's pointers are the live blocks, which do not overlap, no two neighbouring blocks are free, and the account is the total size of the live blocks. *)
Theorem heap_history m ptr size ops :
  64 <= ptr -> ptr + size < two64 -> FREELIST_MAXBLKSIZE + 32 <= size -> (16 | size) ->
  (forall a, ptr <= a < ptr + size -> (8 | a - ptr) -> is_Some (m !! a)) -> Forall (good_op cb_reqmem) ops ->
  exists h0 h own bs, mpool_init m ptr size = Some (Some h0) /\ hrun cb_reqmem cb_delmem (h0, []) ops = Some (h, own) /\
    heap_ok h bs /\ own ≡ₚ (live bs).*1 /\ no_overlap (live bs) /\ apart bs /\ mp_alloced (h_pool h) = total_live bs.
Proof.
  intros Hp Htop Hsize H16 Hmap Hops. destruct (init_ok m ptr size Hp Htop Hsize H16 Hmap) as (h0 & b & Hi & Hok & Hbf & _ & _ & _ & Ha).
  destruct (hrun_inv _ _ Hcb (h0, []) ops) as ([h own] & Hrun & bs & Hok' & Hap & Hown & Hacc); [|done|].
  - exists [b]. simpl. split; [done|]. split; [by rewrite andb_false_r|]. unfold total_live. rewrite (live_free b Hbf). done.
  - exists h0, h, own, bs. split_and!; try done. eapply live_no_overlap, Hok'.
Qed.
End Claims.

(** ** Faults *)

(** When the last block is in use, the block that new memory makes is 16 bytes
    smaller than the memory. *)
Lemma grown_small h h' bs A' c n : rep h bs -> grown h h' bs A' c n -> is_free (last bs) = false -> A' = bs /\ bz c = n - 16.
Proof.
  intros (L & Ha & _) ((X & EX & HX) & (L' & Ha' & _) & _ & _ & _ & E1 & E2 & _) Hl.
  assert (X = []) as -> by (destruct (last bs) as [a|]; simpl in HX, Hl; [by rewrite Hl in HX|done]). rewrite app_nil_r in EX. subst A'. split; [done|].
  pose proof (ar_tiled _ _ _ _ Ha') as HT. apply tiled_app in HT as (r & HA & HT). simpl in HT. rewrite E1 in HA, HT. rewrite E2 in HT.
  pose proof (tiled_end _ _ _ _ HA (ar_tiled _ _ _ _ Ha)) as ->. destruct HT as (_ & _ & _ & HT). lia.
Qed.

(** A request that the callback grants. *)
Lemma reqmem_grants req cb_delmem h bs n :
  req_ok req cb_delmem -> heap_ok h bs -> 16 <= n -> n + SIZE_16k <= two64 ->
  (req (h_mem h) (mp_ptr (h_pool h) + mp_size (h_pool h)) (PADDING_16k n)).2 = mp_ptr (h_pool h) + mp_size (h_pool h) ->
  exists h' A' c, mpool_reqmem (Some req) cb_delmem h n = Some (h', true) /\ grown h h' bs A' c (PADDING_16k n).
Proof.
  intros Hreq Hok Hn Hmax Hgrant. destruct (reqmem_ok (Some req) cb_delmem h bs n) as (h' & ok & E & Hres); [by intros ? [= <-]|done|done|done|].
  destruct ok; [destruct Hres as (A' & c & Hg); eauto|exfalso]. unfold mpool_reqmem in E.
  destruct (req (h_mem h) (mp_ptr (h_pool h) + mp_size (h_pool h)) (PADDING_16k n)) as [m mem]. simpl in Hgrant. subst mem.
  destruct Hok as [(L & Ha & _) _]. pose proof (ar_pos _ _ _ _ Ha). pose proof (tiled_nil _ _ _ (ar_tiled _ _ _ _ Ha)).
  destruct (Z.eqb_spec (mp_ptr (h_pool h) + mp_size (h_pool h)) 0); [lia|]. rewrite Z.eqb_refl in E. cbn [negb] in E.
  repeat match type of E with mbind _ ?x = Some _ => destruct x as [?|]; [cbn [mbind option_bind] in E|done] | (let '(_, _) := ?x in _) = _ => destruct x end. done.
Qed.

(** C19: a request for a multiple of 16 KiB that makes the heap grow, with the last block in use, gets a block that is 16 bytes too small: the second search finds nothing, and mpool_alloc goes on with the null pointer; it faults unless there is memory below address zero. *)
Theorem mpool_alloc_16k_null req cb_delmem h bs k :
  req_ok req cb_delmem -> heap_ok h bs -> 1 <= k -> SIZE_16k * k + SIZE_16k + 32 <= two64 ->
  (forall b, b ∈ bs -> bf b = true -> bz b < SIZE_16k * k) -> is_free (last bs) = false ->
  (req (h_mem h) (mp_ptr (h_pool h) + mp_size (h_pool h)) (SIZE_16k * k)).2 = mp_ptr (h_pool h) + mp_size (h_pool h) ->
  exists h', mpool_alloc (Some req) cb_delmem h (SIZE_16k * k) = finish_alloc h' 0 (SIZE_16k * k) /\
    (h_mem h' !! (-8) = None -> mpool_alloc (Some req) cb_delmem h (SIZE_16k * k) = None).
Proof.
  intros Hreq Hok Hk Hmax Hno Hlast Hgrant. set (z := SIZE_16k * k) in *. assert (0 < z /\ z = 16384 * k) as [Hz Ez] by (unfold z, SIZE_16k; lia).
  assert (PADDING_16k z = z) as Epad.
  { destruct (PADDING_16k_spec z ltac:(lia) ltac:(unfold SIZE_16k in *; lia)) as (? & [q Hq] & _). unfold SIZE_16k in *. lia. }
  assert (padded z = z) as Epd by (unfold padded; destruct (Z.eqb_spec z 0); [lia|]; destruct (PADDING_spec z ltac:(lia) ltac:(unfold SIZE_16k in *; lia)) as [? [q Hq]]; lia).
  enough (exists h', find_block (Some req) cb_delmem (fun m => size_fits m z) h z z = Some (h', 0)) as (h' & E).
  { exists h'. unfold mpool_alloc. fold (padded z). rewrite Epd, E. cbn [mbind option_bind Z.eqb]. split; [done|]. intros Hn.
    unfold finish_alloc, try_split_and_free, blk_size, blk_head, ldw. change (0 - 8) with (-8). rewrite Hn. done. }
  pose proof (fun h bs b => size_fits_ok z h bs b) as Hfits. set (phi := fun _ n : Z => n >=? z) in *.
  assert (forall r, Some req = Some r -> req_ok r cb_delmem) as Hcb by (by intros ? [= <-]).
  destruct (find_old (Some req) cb_delmem Hcb (fun m => size_fits m z) phi z (fun _ => True) (fun h bs b _ => Hfits h bs b) ltac:(unfold phi; intros h' bs' b _ _ _ Hb; lia) ltac:(lia) h bs I Hok) as (h1 & ptr & -> & [(-> & -> & _)|(_ & _ & b & Hb & Hbf & Hphi)]).
  2: { specialize (Hno b Hb Hbf). unfold phi_of, phi in Hphi. lia. }
  cbn [Z.eqb]. pose proof (reqmem_grants req cb_delmem h bs z Hreq Hok ltac:(lia) ltac:(unfold SIZE_16k in *; lia)) as Hg. rewrite Epad in Hg.
  destruct (Hg Hgrant) as (h2 & A' & c & -> & Hgr). cbn [mbind option_bind negb]. destruct (grown_small _ _ _ _ _ _ (proj1 Hok) Hgr Hlast) as [-> Hc].
  destruct Hgr as (_ & Hr2 & _). destruct (list_match_ok (fun m => size_fits m z) h2 _ Hr2) as [[-> _]|(A & b & B & m' & l' & EAB & Hbc & Hfit & _)].
  - intros b Hb. rewrite (Hfits _ _ _ Hr2 Hb). eauto.
  - cbn [mbind option_bind]. eauto.
  - exfalso. assert (b ∈ bs ++ [c]) as Hb by (rewrite EAB; set_solver). unfold fit in Hfit. rewrite (Hfits _ _ _ Hr2 Hb) in Hfit. injection Hfit as Hfit.
    apply elem_of_app in Hb as [Hb|Hb]; [|apply list_elem_of_singleton in Hb as ->; lia]. destruct Hok as [_ Hs]. rewrite Forall_forall in Hs. specialize (Hs b Hb). unfold settled in Hs.
    destruct (bf b) eqn:Hbf; [|congruence]. specialize (Hno b Hb Hbf). lia.
Qed.

(** An allocation that is aligned to 32 bytes and starts 16 bytes above a free
    block splits off a block of no bytes, which is marked free and is on no
    list. Freeing the allocation merges it with that block: [_detach] takes
    the tag of the block for the link to the next one, and writes through it. *)
Lemma aligned_free_faults :
  match mpool_init (words 4096 2560) 4096 20480 with
  | Some (Some h) =>
    match mpool_aligned_alloc None None h 64 32 with
    | Some (h1, p) => p = 4128 /\ blk_size (h_mem h1) (p - 16) = Some 0 /\ blk_freed (h_mem h1) (p - 16) = Some true /\ mpool_free h1 p = None
    | None => False
    end
  | _ => False
  end.
Proof. vm_compute. done. Qed.

(** A request of almost [SIZE_MAX] bytes wraps around to no bytes: any free
    block fits, and its address is returned. *)
Lemma huge_alloc_wraps :
  match mpool_init (words 4096 2560) 4096 20480 with
  | Some (Some h) =>
    match mpool_alloc None None h 18446744073709551610 with
    | Some (h1, p) => p = 4112 /\ blk_size (h_mem h1) p = Some 0
    | None => False
    end
  | _ => False
  end.
Proof. vm_compute. done. Qed.

(** ** Witnesses *)

Lemma demo_init : exists h b, mpool_init (words 4096 2560) 4096 20480 = Some (Some h) /\ heap_ok h [b] /\ bf b = true /\ bz b = 20448.
Proof.
  destruct (init_ok (words 4096 2560) 4096 20480) as (h & b & E & Hok & Hf & Hz & _); [lia|lia|unfold FREELIST_MAXBLKSIZE; lia|by exists 1280| |].
  - intros a Ha H8. apply words_mapped; [lia|exact H8].
  - exists h, b. exact (conj E (conj Hok (conj Hf Hz))).
Qed.

Lemma more_ok : forall req, Some more_words = Some req -> req_ok req None.
Proof. intros req [= <-]. apply more_words_ok. Qed.

Lemma not_16k n : 0 < n mod SIZE_16k -> ~ (SIZE_16k | n).
Proof. unfold SIZE_16k. intros Hn H. apply Z.mod_divide in H; lia. Qed.

Lemma mpool_alloc_correct_witness :
  exists h b h' p, mpool_init (words 4096 2560) 4096 20480 = Some (Some h) /\ heap_ok h [b] /\ mpool_alloc (Some more_words) None h 100 = Some (h', p) /\
    exists bs' z, heap_ok h' bs' /\ live bs' ≡ₚ [(p, z)] /\ 112 <= z < 176.
Proof.
  destruct demo_init as (h & b & E & Hok & Hf & Hz).
  destruct (mpool_alloc_correct (Some more_words) None more_ok h [b] 100 Hok) as (h' & p & Ea & Hcase); [lia|unfold SIZE_16k; lia|right; apply not_16k; vm_compute; reflexivity|].
  exists h, b, h', p. split; [exact E|]. split; [exact Hok|]. split; [exact Ea|]. clear E Ea.
  change (padded 100) with 112 in Hcase. destruct Hcase as [(_ & _ & _ & _ & Hno)|(bs' & z & _ & Hok' & _ & Hlive & _ & Hz' & _)].
  - specialize (Hno b ltac:(set_solver) Hf). lia.
  - exists bs', z. split; [done|]. split; [rewrite Hlive, (live_free b Hf); done|]. lia.
Defined.

(** A heap with one live block and a large free one. *)
Lemma demo_one : exists h bs p z, heap_ok h bs /\ live bs ≡ₚ [(p, z)] /\ 112 <= z.
Proof.
  destruct demo_init as (h & b & E & Hok & Hf & Hz). clear E.
  destruct (alloc_ok None None ltac:(done) h [b] 100 Hok) as (h' & p & Ea & Hcase); [lia|unfold SIZE_16k; lia|by left|]. clear Ea.
  change (padded 100) with 112 in Hcase. destruct Hcase as [(_ & _ & Hno)|(_ & bs' & z & Hok' & Hz' & Hlive & _)].
  - specialize (Hno b ltac:(set_solver) Hf). lia.
  - exists h', bs', p, z. split; [done|]. split; [rewrite Hlive, (live_free b Hf); done|]. lia.
Qed.

Lemma mpool_free_correct_witness : exists h bs p z h' bs', heap_ok h bs /\ (p, z) ∈ live bs /\ mpool_free h p = Some h' /\ heap_ok h' bs' /\ live bs' = [].
Proof.
  destruct demo_one as (h & bs & p & z & Hok & Hlive & _). assert ((p, z) ∈ live bs) as Hin by (rewrite Hlive; set_solver).
  destruct (mpool_free_correct h bs p z Hok Hin) as (h' & bs' & E & Hok' & Hl & _). exists h, bs, p, z, h', bs'. split_and!; try done.
  rewrite Hlive in Hl. apply (inj (cons (p, z))) in Hl. by apply Permutation_nil in Hl.
Defined.

(** [mpool_alloc] of the initial heap, computed: it has memory for 48 bytes. *)
Lemma demo_has_memory :
  match mpool_init (words 4096 2560) 4096 20480 with
  | Some (Some h) =>
    match mpool_alloc None None h 100 with
    | Some (h1, p) => negb (p =? 0) && match mpool_alloc None None h1 (padded 300) with Some (_, q) => negb (q =? 0) | None => false end
    | None => false
    end
  | _ => false
  end = true.
Proof. vm_compute. reflexivity. Qed.

Lemma mpool_realloc_correct_witness :
  exists h bs p z h' q, heap_ok h bs /\ (p, z) ∈ live bs /\ mpool_realloc None None h p 300 = Some (h', q) /\ 0 < q /\
    forall w, h_mem h !! p = Some w -> h_mem h' !! q = Some w.
Proof.
  pose proof demo_has_memory as Hmem. destruct demo_init as (h0 & b & E & Hok0 & Hf & Hz). rewrite E in Hmem. clear E.
  destruct (alloc_ok None None ltac:(done) h0 [b] 100 Hok0) as (h & p & Ea & Hcase); [lia|unfold SIZE_16k; lia|by left|]. rewrite Ea in Hmem. clear Ea.
  change (padded 100) with 112 in Hcase. destruct Hcase as [(_ & _ & Hno)|(_ & bs & z & Hok & Hz' & Hlive & _)]; [specialize (Hno b ltac:(set_solver) Hf); lia|].
  assert ((p, z) ∈ live bs) as Hin by (rewrite Hlive; set_solver). apply andb_true_iff in Hmem as [_ Hmem].
  destruct (mpool_realloc_correct None None ltac:(done) h bs p z 300 Hok Hin) as (h' & q & Er & Hq & _ & bs' & z' & rest & _ & _ & _ & _ & _ & Hd & _); [lia|unfold SIZE_16k; lia| |].
  - intros _. split; [by left|]. intros h1 E1. rewrite E1 in Hmem. discriminate Hmem.
  - change (padded 300) with 304 in Hd. exists h, bs, p, z, h', q. split_and!; try done. intros w Hw. specialize (Hd 0 w). replace (p + 8 * 0) with p in Hd by lia. replace (q + 8 * 0) with q in Hd by lia. apply Hd; [lia|lia|exact Hw].
Defined.

Lemma heap_history_witness :
  exists h0 h own bs, mpool_init (words 4096 2560) 4096 20480 = Some (Some h0) /\
    hrun (Some more_words) None (h0, []) [HMalloc 100; HMalloc 40000; HFree 1; HMalloc 0; HFree 0] = Some (h, own) /\ heap_ok h bs /\ own ≡ₚ (live bs).*1.
Proof.
  destruct (heap_history (Some more_words) None more_ok (words 4096 2560) 4096 20480 [HMalloc 100; HMalloc 40000; HFree 1; HMalloc 0; HFree 0])
    as (h0 & h & own & bs & E1 & E2 & H1 & H2 & _).
  - lia.
  - lia.
  - unfold FREELIST_MAXBLKSIZE. lia.
  - by exists 1280.
  - intros a Ha H8. apply words_mapped; [lia|exact H8].
  - assert (forall n, 0 <= n -> n + SIZE_16k + 32 <= two64 -> 0 < padded n mod SIZE_16k -> good_op (Some more_words) (HMalloc n)) as Hgood.
    { intros n H0 H1 H2. split; [done|]. split; [done|]. right. by apply not_16k. }
    apply Forall_cons. split; [apply Hgood; vm_compute; congruence|]. apply Forall_cons. split; [apply Hgood; vm_compute; congruence|]. apply Forall_cons. split; [done|].
    apply Forall_cons. split; [apply Hgood; vm_compute; congruence|]. apply Forall_cons. split; [done|constructor].
  - exists h0, h, own, bs. exact (conj E1 (conj E2 (conj H1 H2))).
Defined.

(** A heap whose only block is in use. *)
Lemma demo_full : exists h b, heap_ok h [b] /\ bf b = false /\ mp_ptr (h_pool h) = 4096 /\ mp_size (h_pool h) = 20480.
Proof.
  destruct (init_ok (words 4096 2560) 4096 20480) as (h & b & E & [Hr Hs] & Hf & Hz & Ep & Es & _); [lia|lia|unfold FREELIST_MAXBLKSIZE; lia|by exists 1280| |].
  { intros a Ha H8. apply words_mapped; [lia|exact H8]. }
  clear E. apply Forall_cons in Hs as [Hs _]. unfold settled in Hs. rewrite Hf in Hs.
  destruct (pool_detach_ok h [] b [] Hr Hs) as (h1 & _ & Hr1 & (E1 & E2 & _) & _). destruct (setalloced_rep _ _ _ _ Hr1) as (m2 & _ & Hr2 & _).
  exists (with_hmem h1 m2), (with_bf false (with_bc None b)). simpl. split; [split; [exact Hr2|repeat constructor]|]. rewrite E1, E2. done.
Qed.

Lemma mpool_alloc_16k_null_witness : exists h b h', heap_ok h [b] /\ mpool_alloc (Some more_words) None h 16384 = finish_alloc h' 0 16384.
Proof.
  destruct demo_full as (h & b & Hok & Hf & Ep & Es).
  destruct (mpool_alloc_16k_null more_words None h [b] 1 more_words_ok Hok) as (h' & E & _).
  - lia.
  - unfold SIZE_16k. lia.
  - intros d Hd Hfd. apply list_elem_of_singleton in Hd as ->. congruence.
  - exact Hf.
  - rewrite Ep, Es. reflexivity.
  - exists h, b, h'. exact (conj Hok E).
Defined.
