(* ===== verification/MpoolAlign.v ===== *)
(** * [mpool_aligned_alloc]

    The block that is found is split in front of the aligned address. This is
    right unless that address is 16 bytes above the block (see
    [aligned_free_faults] for what happens then). *)

From stdpp Require Import gmap.
From S2P Require Import Prelude Mpool MpoolRep MpoolInv MpoolOps MpoolMerge MpoolFind MpoolAlloc MpoolRealloc MpoolProps.

Implicit Types (m : wmem) (bs A B : list blk) (b d : blk) (h : hsys).

(** The distance to the aligned address. *)
Definition gap (align p : Z) : Z := PADDING_UP p align - p.

Lemma pow2_land k : 0 <= k -> 2 ^ k <= two64 -> Z.land (2 ^ k) (u64 (2 ^ k - 1)) = 0.
Proof.
  intros Hk Hmax. pose proof (Z.pow_pos_nonneg 2 k ltac:(lia) Hk). rewrite u64_id by lia. rewrite Z.sub_1_r, <- Z.ones_equiv.
  rewrite Z.land_ones by done. by apply Z.mod_same; lia.
Qed.

Lemma pow2_16 k : 4 <= k -> (16 | 2 ^ k).
Proof. intros Hk. exists (2 ^ (k - 4)). change 16 with (2 ^ 4). rewrite <- Z.pow_add_r by lia. f_equal. lia. Qed.

Lemma gap_spec k p : 4 <= k -> 0 <= p -> (16 | p) -> p + 2 ^ k <= two64 -> 0 <= gap (2 ^ k) p < 2 ^ k /\ (16 | gap (2 ^ k) p) /\ (2 ^ k | p + gap (2 ^ k) p).
Proof.
  intros Hk Hp H16 Hmax. pose proof (Z.pow_pos_nonneg 2 k ltac:(lia) ltac:(lia)). unfold gap. destruct (PADDING_UP_spec p (2 ^ k)) as [Hb Hd]; [lia|lia|lia|]. split; [lia|].
  pose proof (pow2_16 k Hk) as H2.
  split; [apply Z.divide_sub_r; [by eapply Z.divide_trans|done]|]. by replace (p + (PADDING_UP p (2 ^ k) - p)) with (PADDING_UP p (2 ^ k)) by lia.
Qed.

Section Align.
Context (k : Z) (h : hsys) (bs : list blk).
Context (Hk : 4 <= k) (Hbase : (16 | mp_ptr (h_pool h))) (Htop : mp_ptr (h_pool h) + mp_size (h_pool h) + 2 ^ k <= two64) (Hlen : mp_size (h_pool h) < two63).

(** A block of a heap with this area. *)
Lemma align_blk h' bs' b :
  rep h' bs' -> mp_ptr (h_pool h') = mp_ptr (h_pool h) -> mp_size (h_pool h') = mp_size (h_pool h) -> b ∈ bs' ->
  64 < bp b /\ 16 <= bz b < two63 /\ (16 | bz b) /\ (16 | bp b) /\ bp b + bz b + 2 ^ k <= two64.
Proof.
  intros (L & Ha & _) E1 E2 Hb. rewrite E1, E2 in Ha. destruct (area_blk _ _ _ _ _ Ha Hb) as (? & ? & ? & ? & Hd). pose proof (ar_pos _ _ _ _ Ha).
  split_and!; try lia; [done|]. replace (bp b) with (bp b - mp_ptr (h_pool h) + mp_ptr (h_pool h)) by lia. by apply Z.divide_add_r.
Qed.

(** The test of the search, without wrap-around. *)
Lemma aligned_fits_ok z b : 0 <= z < two63 -> rep h bs -> b ∈ bs -> aligned_fits (h_mem h) z (2 ^ k) (bp b) = Some (bz b - gap (2 ^ k) (bp b) >=? z).
Proof.
  intros Hz Hr Hb. destruct (align_blk h bs b Hr eq_refl eq_refl Hb) as (? & ? & ? & ? & ?). destruct (rep_blk _ _ _ Hr Hb) as (_ & _ & _ & _ & Hsz & _).
  unfold aligned_fits. rewrite Hsz. cbn [mbind option_bind]. fold (gap (2 ^ k) (bp b)). destruct (gap_spec k (bp b)) as (? & _ & _); [lia|lia|done|lia|].
  assert (2 ^ k <= two63) by (change two63 with (2 ^ 63); apply Z.pow_le_mono_r; [lia|]; apply Z.lt_succ_r, (Z.pow_lt_mono_r_iff 2); [lia|lia|]; change (2 ^ Z.succ 63) with two64; lia).
  rewrite (i64_id (bz b)), (i64_id (gap _ _)), (i64_id z), i64_id by lia. done.
Qed.
End Align.

(** The end of the heap. *)
Lemma top_gap k h bs :
  rep h bs -> 4 <= k -> (16 | mp_ptr (h_pool h)) -> let top := mp_ptr (h_pool h) + mp_size (h_pool h) in top + 2 ^ k <= two64 ->
  64 < top /\ 0 <= gap (2 ^ k) top <= 2 ^ k - 16 /\ (16 | gap (2 ^ k) top) /\ (2 ^ k | top + gap (2 ^ k) top).
Proof.
  intros (L & Ha & _) Hk [i Hi] top Htop. pose proof (ar_pos _ _ _ _ Ha). pose proof (tiled_nil _ _ _ (ar_tiled _ _ _ _ Ha)). destruct (tiled_div _ _ _ (ar_tiled _ _ _ _ Ha)) as [j Hj].
  destruct (gap_spec k top) as (Hg & [l Hl] & Hd); [lia|unfold top; lia|exists (i + j + 1); unfold top; lia|lia|]. destruct (pow2_16 k Hk) as [q Hq].
  split; [unfold top; lia|]. split; [lia|]. split; [by exists l|done].
Qed.

(** The part of a found block in front of the aligned address is freed. *)
Lemma cut_ok h0 h A b B bs k z :
  4 <= k -> 0 <= gap (2 ^ k) (bp b) -> (16 | gap (2 ^ k) (bp b)) -> gap (2 ^ k) (bp b) <> 16 -> gap (2 ^ k) (bp b) < two64 ->
  rep h (A ++ b :: B) -> bc b = None -> bf b = true -> Forall settled (A ++ B) -> live (A ++ B) = live bs -> (apart bs -> apart (A ++ b :: B)) ->
  mp_ptr (h_pool h) = mp_ptr (h_pool h0) -> mp_size (h_pool h0) <= mp_size (h_pool h) -> mp_alloced (h_pool h) = mp_alloced (h_pool h0) -> keeps (A ++ B) h0 h ->
  16 <= z -> (16 | z) -> z <= bz b - gap (2 ^ k) (bp b) ->
  exists h', ('(h, ptr) ← (if u64 (gap (2 ^ k) (bp b)) >? 0 then
       '(m, new_ptr) ← blk_split (h_mem h) (bp b) (u64 (gap (2 ^ k) (bp b)) - 16); h ← do_free (with_hmem h m) (bp b); Some (h, new_ptr)
     else Some (h, bp b)); finish_alloc h ptr z) = Some (h', bp b + gap (2 ^ k) (bp b)) /\ allocated h0 h' bs (bp b + gap (2 ^ k) (bp b)) z.
Proof.
  intros Hk H0 H16 Hne Hlt Hr Hc Hbf Hs Hlive Hap E1 E2 E3 Hkeep Hz Hz16 Hle. rewrite u64_id by lia. set (g := gap (2 ^ k) (bp b)) in *.
  destruct (Z.gtb_spec g 0) as [Hg|Hg]; cbn [mbind option_bind].
  - destruct H16 as [j Hj]. destruct (split_rep h A b B (g - 16) Hr Hc ltac:(lia) ltac:(exists (j - 1); lia) ltac:(lia)) as (m1 & -> & Hr1 & Hk1 & _). cbn [mbind option_bind].
    destruct (do_free_ok _ _ _ _ Hr1 eq_refl) as (h2 & Hd & Hr2 & (F1 & F2 & F3) & Hk2). simpl in Hd. rewrite Hd. cbn [mbind option_bind].
    set (lo := freed (lower b (g - 16))) in *. set (up := upper b (g - 16)) in *.
    replace (bp b + g) with (bp up) by (simpl; lia). change (A ++ lo :: up :: B) with (A ++ [lo] ++ up :: B) in Hr2. rewrite (assoc_L (++)) in Hr2. simpl in F1, F2, F3.
    assert (mp_ptr (h_pool h2) = mp_ptr (h_pool h0)) by congruence. assert (mp_alloced (h_pool h2) = mp_alloced (h_pool h0)) by congruence.
    apply (finish_found h0 h2 (A ++ [lo]) up B bs z Hr2); try done; try lia.
    + apply Forall_app in Hs as [HA HB]. rewrite <- (assoc_L (++)). apply Forall_app. split; [done|]. by apply Forall_cons.
    + rewrite <- (assoc_L (++)). simpl. by rewrite live_drop.
    + intros Hbs. apply Hap in Hbs. apply apart_mid in Hbs as (HA & HB & Hl & Hh). rewrite Hbf in Hl, Hh. rewrite andb_true_r in Hl. split; [|done].
      apply apart_app. rewrite Hl. done.
    + rewrite <- Hlive. apply keeps_intact; [done|]. eapply hkeeps_trans; [exact Hkeep|]. eapply hkeeps_trans; [exact Hk1|]. eapply hkeeps_sub; [|exact Hk2]. set_solver.
    + simpl. lia.
  - replace (bp b + g) with (bp b) by lia. apply (finish_found h0 h A b B bs z Hr); try done; try lia.
    + intros Hbs. by apply (apart_around _ b), Hap.
    + rewrite <- Hlive. by apply keeps_intact.
Qed.

(** Mpool_aligned_alloc with an alignment that is a power of two from 16 on returns NULL, and then no free block has room behind the aligned address, or a multiple of the alignment at which there is a new live block of at least the size asked for, overlapping no live block; the other live blocks keep their data, and the account grows by the size. Here no free block, nor the end of the heap, may be 16 bytes below an aligned address. *)
Theorem mpool_aligned_alloc_correct cb_reqmem cb_delmem h bs size k :
  (forall req, cb_reqmem = Some req -> req_ok req cb_delmem) -> heap_ok h bs -> 0 <= size -> 4 <= k -> (16 | mp_ptr (h_pool h)) ->
  let top := mp_ptr (h_pool h) + mp_size (h_pool h) in let more := PADDING_16k (padded size + 2 ^ k) in
  top + more + 2 ^ k <= two64 -> mp_size (h_pool h) + more < two63 -> size + SIZE_16k + 32 + 2 ^ k <= two63 ->
  gap (2 ^ k) top <> 16 -> (forall b, b ∈ bs -> bf b = true -> gap (2 ^ k) (bp b) <> 16) ->
  exists h' p, mpool_aligned_alloc cb_reqmem cb_delmem h size (2 ^ k) = Some (h', p) /\
    ((p = 0 /\ heap_ok h' bs /\ h_pool h' = h_pool h /\ intact (live bs) h h' /\ forall b, b ∈ bs -> bf b = true -> bz b < gap (2 ^ k) (bp b) + padded size) \/
     (exists bs' z, 0 < p /\ (2 ^ k | p) /\ heap_ok h' bs' /\ no_overlap (live bs') /\ live bs' ≡ₚ (p, z) :: live bs /\ size <= padded size /\ padded size <= z < padded size + 64 /\
        intact (live bs) h h' /\ mp_alloced (h_pool h') = u64 (mp_alloced (h_pool h) + z) /\ (apart bs -> apart bs'))).
Proof.
  intros Hcb Hok H0 Hk Hbase top more Htop Hlen Hmax Hgt Hgb. destruct (padded_spec size H0 ltac:(unfold SIZE_16k in *; lia)) as [Hz H16]. set (z := padded size) in *.
  assert (16 <= 2 ^ k) as H2k by (change 16 with (2 ^ 4); apply Z.pow_le_mono_r; lia). unfold SIZE_16k in Hmax.
  destruct (PADDING_16k_spec (z + 2 ^ k) ltac:(lia) ltac:(unfold SIZE_16k; lia)) as (Hmore & _ & _). fold more in Hmore. unfold SIZE_16k in Hmore.
  unfold mpool_aligned_alloc. rewrite pow2_land by lia. cbn [Z.eqb negb]. destruct (Z.ltb_spec (2 ^ k) 16); [lia|]. fold (padded size). fold z. rewrite (u64_id (z + 2 ^ k)) by lia.
  set (P := fun h' => mp_ptr (h_pool h') = mp_ptr (h_pool h) /\ mp_size (h_pool h') <= mp_size (h_pool h) + more).
  assert (forall h' bs' b, P h' -> rep h' bs' -> b ∈ bs' -> aligned_fits (h_mem h') z (2 ^ k) (bp b) = Some (bz b - gap (2 ^ k) (bp b) >=? z)) as Hfits.
  { intros h' bs' b [E1 E2] Hr' Hb. apply (aligned_fits_ok k h' bs'); try done; try lia. by rewrite E1. }
  assert (forall h' bs' b, P h' -> rep h' bs' -> b ∈ bs' -> 64 < bp b /\ 0 <= gap (2 ^ k) (bp b) <= 2 ^ k - 16 /\ (16 | gap (2 ^ k) (bp b)) /\ (2 ^ k | bp b + gap (2 ^ k) (bp b))) as Hgap.
  { intros h' bs' b [E1 E2] Hr' Hb. destruct (align_blk k h' Hk) with (h' := h') (bs' := bs') (b := b) as (? & ? & ? & ? & ?); try done; try lia; [by rewrite E1|].
    destruct (gap_spec k (bp b)) as (Hg1 & [j Hj] & Hg3); [lia|lia|done|lia|]. split; [lia|]. split; [|split; [by exists j|done]].
    destruct (pow2_16 k Hk) as [i Hi]. lia. }
  destruct (find_block_ok cb_reqmem cb_delmem Hcb (fun m => aligned_fits m z (2 ^ k)) (fun p n => n - gap (2 ^ k) p >=? z) z P Hfits)
    with (h := h) (bs := bs) (more := z + 2 ^ k) as (h1 & ptr & -> & Hres).
  - intros h' bs' b HP Hr Hb Hphi. destruct (Hgap h' bs' b HP Hr Hb) as (_ & ? & _). lia.
  - lia.
  - unfold P. lia.
  - done.
  - lia.
  - unfold SIZE_16k. lia.
  - right. intros h' A' c Hr E1 E2 Hle. fold more in E2, Hle. assert (P h') as HP by (unfold P; lia). split; [done|].
    destruct (Hgap h' _ c HP Hr ltac:(set_solver)) as (_ & ? & _). unfold phi_of. lia.
  - cbn [mbind option_bind]. destruct Hres as [(-> & Hno & Hun)|[Hp (A & b & B & Hr & Hc & Hphi & -> & Hs & Hl & E1 & E2 & E3 & Hkp & Hbf & Hap & Hfrom)]].
    + cbn [Z.eqb]. exists h1, 0. split; [done|]. left. destruct (unchanged_ok _ _ _ Hok Hun) as [? ?]. destruct Hun as [_ ?]. split_and!; try done.
      intros b Hb Hbf. specialize (Hno b Hb Hbf). unfold phi_of in Hno. lia.
    + destruct (Z.eqb_spec (bp b) (-1)); [lia|]. unfold phi_of in Hphi. fold (gap (2 ^ k) (bp b)).
      assert (64 < bp b /\ 0 <= gap (2 ^ k) (bp b) <= 2 ^ k - 16 /\ (16 | gap (2 ^ k) (bp b)) /\ (2 ^ k | bp b + gap (2 ^ k) (bp b)) /\ gap (2 ^ k) (bp b) <> 16) as (? & ? & ? & ? & ?).
      { destruct Hfrom as [->|(d & Hd & Hdf & <-)].
        - destruct (top_gap k h bs (proj1 Hok) Hk Hbase ltac:(fold top; lia)) as (? & ? & ? & ?). split_and!; try done; lia.
        - destruct (Hgap h bs d ltac:(unfold P; lia) (proj1 Hok) Hd) as (? & ? & ? & ?). specialize (Hgb d Hd Hdf). split_and!; try done; lia. }
      destruct (cut_ok h h1 A b B bs k z) as (h' & E & bs' & z' & Hok' & Hz' & Hlive & Hap' & _ & _ & Hacc & Hint); try done; try lia.
      rewrite E. exists h', (bp b + gap (2 ^ k) (bp b)). split; [done|]. right. exists bs', z'. split_and!; try done; try lia. eapply live_no_overlap, Hok'.
Qed.

Lemma mpool_aligned_alloc_correct_witness :
  exists h b h' p, heap_ok h [b] /\ mpool_aligned_alloc (Some more_words) None h 100 (2 ^ 6) = Some (h', p) /\ (64 | p).
Proof.
  destruct (init_ok (words 4096 2560) 4096 20480) as (h & b & E & Hok & Hf & Hz & Ep & Es & _); [lia|lia|unfold FREELIST_MAXBLKSIZE; lia|by exists 1280| |].
  { intros a Ha H8. apply words_mapped; [lia|exact H8]. }
  clear E. assert (bp b = 4112) as Eb.
  { destruct Hok as [(L & Ha & _) _]. pose proof (ar_tiled _ _ _ _ Ha) as HT. simpl in HT. lia. }
  destruct (mpool_aligned_alloc_correct (Some more_words) None h [b] 100 6 more_ok Hok) as (h' & p & Ea & Hcase).
  - lia.
  - lia.
  - rewrite Ep. by exists 256.
  - rewrite Ep, Es. vm_compute. congruence.
  - rewrite Es. vm_compute. reflexivity.
  - unfold SIZE_16k. lia.
  - rewrite Ep, Es. vm_compute. congruence.
  - intros d Hd _. apply list_elem_of_singleton in Hd as ->. rewrite Eb. vm_compute. congruence.
  - exists h, b, h', p. split; [exact Hok|]. split; [exact Ea|]. clear Ea. destruct Hcase as [(-> & _)|(bs' & z & _ & Hp & _)]; [by exists 0|exact Hp].
Defined.
