(* ===== verification/Heap.v ===== *)
(** * The kernel's malloc

    ([src/src/mem/heap/heap.c], as built for the architectures that use the
    pool allocator, with the default settings [HEAP_CHECK] 0 and [KASAN_CHECK]
    0.) Each call closes interrupts and takes the heap's lock around a call of
    the pool. [None] is a fault, a lock that is never released, or the panic of
    [not_null_assert]. *)

From stdpp Require Import gmap.
From S2P Require Import Prelude Mpool MpoolRep MpoolInv MpoolOps MpoolMerge MpoolFind MpoolAlloc MpoolRealloc MpoolProps.

(** The pool with its memory, the lock, and whether interrupts are open. *)
Record heap_sys := mkHS { hs_heap : hsys; hs_lock : spin_t; hs_irq : bool }.

Definition alloc_enter (s : heap_sys) : option (heap_sys * bool) :=
  let is_sti := hs_irq s in l ← spin_lock (hs_lock s); Some (mkHS (hs_heap s) l false, is_sti).

Definition alloc_exit (s : heap_sys) (is_sti : bool) : heap_sys :=
  mkHS (hs_heap s) (spin_unlock (hs_lock s)) (if is_sti then true else hs_irq s).

(** A call of the pool between the two. *)
Definition locked {R} (s : heap_sys) (call : hsys -> option (hsys * R)) : option (heap_sys * R) :=
  '(s, is_sti) ← alloc_enter s;
  '(h, r) ← call (hs_heap s);
  Some (alloc_exit (mkHS h (hs_lock s) (hs_irq s)) is_sti, r).

(** [memset(ptr, 0, size)] on words: the last word may be cleared in part. *)
Definition clear_bytes (m : wmem) (ptr size : Z) : option wmem :=
  m ← for_range 0 (size / 8) (fun i m => stw m (ptr + 8 * i) 0) m;
  if size mod 8 =? 0 then Some m
  else w ← ldw m (ptr + 8 * (size / 8)); stw m (ptr + 8 * (size / 8)) (Z.land w (Z.lnot (Z.ones (8 * (size mod 8))))).

Section Heap.
Context (cb_reqmem : option (wmem -> Z -> Z -> wmem * Z)) (cb_delmem : option (wmem -> Z -> Z -> wmem)).

Definition malloc (s : heap_sys) (size : Z) : option (heap_sys * Z) := locked s (fun h => mpool_alloc cb_reqmem cb_delmem h size).

Definition free (s : heap_sys) (ptr : Z) : option heap_sys :=
  if ptr =? 0 then Some s
  else '(s, _) ← locked s (fun h => h ← mpool_free h ptr; Some (h, tt)); Some s.

Definition xmalloc (s : heap_sys) (size : Z) : option (heap_sys * Z) :=
  '(s, ptr) ← malloc s size; if ptr =? 0 then None else Some (s, ptr).

Definition calloc (s : heap_sys) (n size : Z) : option (heap_sys * Z) :=
  if n * size >=? two64 then Some (s, 0)
  else
    '(s, ptr) ← malloc s (n * size);
    if ptr =? 0 then Some (s, 0)
    else
      m ← clear_bytes (h_mem (hs_heap s)) ptr (n * size);
      Some (mkHS (with_hmem (hs_heap s) m) (hs_lock s) (hs_irq s), ptr).

Definition realloc (s : heap_sys) (ptr newsize : Z) : option (heap_sys * Z) :=
  locked s (fun h =>
    _ ← (if ptr =? 0 then Some 0 else mpool_msize h ptr);
    mpool_realloc cb_reqmem cb_delmem h ptr newsize).

Definition reallocarray (s : heap_sys) (ptr n size : Z) : option (heap_sys * Z) := realloc s ptr (u64 (n * size)).

Definition aligned_alloc (s : heap_sys) (align size : Z) : option (heap_sys * Z) :=
  locked s (fun h => mpool_aligned_alloc cb_reqmem cb_delmem h size align).

Definition malloc_usable_size (s : heap_sys) (ptr : Z) : option (heap_sys * Z) :=
  locked s (fun h => size ← mpool_msize h ptr; Some (h, size)).

Definition memalign (s : heap_sys) (align size : Z) : option (heap_sys * Z) :=
  locked s (fun h => mpool_aligned_alloc cb_reqmem cb_delmem h size align).

(** The result and, on success, what is stored in [*memptr]. *)
Definition posix_memalign (s : heap_sys) (alignment size : Z) : option (heap_sys * Z * option Z) :=
  '(s, ptr) ← locked s (fun h => mpool_aligned_alloc cb_reqmem cb_delmem h size alignment);
  if ptr =? 0 then Some (s, 1, None) else Some (s, 0, Some ptr).

Definition valloc (s : heap_sys) (size : Z) : option (heap_sys * Z) :=
  locked s (fun h => mpool_aligned_alloc cb_reqmem cb_delmem h size PAGE_SIZE).
Definition pvalloc (s : heap_sys) (size : Z) : option (heap_sys * Z) :=
  locked s (fun h => mpool_aligned_alloc cb_reqmem cb_delmem h size PAGE_SIZE).
End Heap.

(** ** Properties *)

Implicit Types (bs : list blk) (h : hsys).

(** The lock is free and the heap well formed. *)
Definition kheap_ok (s : heap_sys) bs : Prop := hs_lock s = false /\ heap_ok (hs_heap s) bs.

(** A call on a free lock is the call, and leaves lock and interrupts alone. *)
Lemma locked_eq {R} s (call : hsys -> option (hsys * R)) :
  hs_lock s = false -> locked s call = ('(h, r) ← call (hs_heap s); Some (mkHS h false (hs_irq s), r)).
Proof.
  intros Hl. unfold locked, alloc_enter. rewrite Hl. cbn [spin_lock mbind option_bind hs_heap hs_lock hs_irq]. destruct (call (hs_heap s)) as [[h r]|]; [|done].
  cbn [mbind option_bind]. unfold alloc_exit. simpl. by destruct (hs_irq s).
Qed.

(** Byte [i] of the memory at [p]. *)
Definition byte_at (m : wmem) (p i : Z) : option Z := w ← m !! (p + 8 * (i / 8)); Some (Z.shiftr w (8 * (i mod 8)) mod 256).

Lemma clear_byte w r j : 0 <= j < r -> Z.shiftr (Z.land w (Z.lnot (Z.ones (8 * r)))) (8 * j) mod 256 = 0.
Proof.
  intros Hj. change 256 with (2 ^ 8). rewrite <- Z.land_ones by lia. apply Z.bits_inj'. intros i Hi. rewrite Z.bits_0, Z.land_spec.
  destruct (Z.lt_ge_cases i 8) as [Hlt|Hge]; [|rewrite (Z.ones_spec_high 8) by lia; apply andb_false_r].
  rewrite Z.shiftr_spec, Z.land_spec, Z.lnot_spec by lia. rewrite Z.ones_spec_low by lia. by rewrite andb_false_r.
Qed.

Lemma clear_bytes_ok m p size :
  0 <= size -> (forall i, 0 <= 8 * i < size -> is_Some (m !! (p + 8 * i))) ->
  exists m', clear_bytes m p size = Some m' /\ (forall a, is_Some (m' !! a) <-> is_Some (m !! a)) /\
    (forall a, ~ (p <= a < p + size) -> m' !! a = m !! a) /\ (forall i, 0 <= i < size -> byte_at m' p i = Some 0).
Proof.
  intros H0 Hmap. unfold clear_bytes. pose proof (Z.div_mod size 8 ltac:(lia)) as Hdm. pose proof (Z.mod_pos_bound size 8 ltac:(lia)) as Hmb. set (q := size / 8) in *. set (r := size mod 8) in *.
  destruct (for_range_inv (fun i (t : wmem) => (forall a, is_Some (t !! a) <-> is_Some (m !! a)) /\ (forall a, ~ (p <= a < p + 8 * i) -> t !! a = m !! a) /\
    (forall j, 0 <= j < i -> t !! (p + 8 * j) = Some 0)) 0 q (fun i m => stw m (p + 8 * i) 0) m ltac:(lia)) as (m1 & -> & Hd & Hout & Hin).
  - split; [done|]. split; [done|]. lia.
  - intros i t Hi (Hd & Hout & Hin). rewrite stw_some by (apply Hd, Hmap; lia). eexists. split; [done|]. split_and!.
    + intros a. rewrite lookup_insert_is_Some', Hd. split; [|by eauto]. intros [<-|]; [apply Hmap; lia|done].
    + intros a Ha. rewrite lookup_insert_ne by lia. apply Hout. lia.
    + intros j Hj. destruct (decide (j = i)) as [->|]; [by rewrite lookup_insert_eq|]. rewrite lookup_insert_ne by lia. apply Hin. lia.
  - cbn [mbind option_bind]. assert (forall t, (forall j, 0 <= j < q -> t !! (p + 8 * j) = Some 0) -> forall i, 0 <= i < 8 * q -> byte_at t p i = Some 0) as Hbytes.
    { intros t Ht i Hi. unfold byte_at. rewrite Ht; [|pose proof (Z.div_mod i 8); pose proof (Z.mod_pos_bound i 8); lia]. cbn [mbind option_bind]. by rewrite Z.shiftr_0_l. }
    destruct (Z.eqb_spec r 0) as [Er|Er].
    + exists m1. split_and!; try done; [intros a Ha; apply Hout; lia|]. intros i Hi. apply Hbytes; [done|lia].
    + destruct (Hmap q ltac:(lia)) as [w Hw]. unfold ldw. rewrite Hout, Hw by lia. cbn [mbind option_bind]. rewrite stw_some by (apply Hd; eauto). eexists. split; [done|]. split_and!.
      * intros a. rewrite lookup_insert_is_Some', Hd. split; [|by eauto]. intros [<-|]; [eauto|done].
      * intros a Ha. rewrite lookup_insert_ne by lia. apply Hout. lia.
      * intros i Hi. destruct (Z.lt_ge_cases i (8 * q)) as [Hlt|Hge].
        -- apply Hbytes; [|lia]. intros j Hj. rewrite lookup_insert_ne by lia. by apply Hin.
        -- unfold byte_at. assert (i / 8 = q /\ i mod 8 = i - 8 * q) as [-> ->] by (split; [symmetry; apply (Z.div_unique i 8 q (i - 8 * q)); lia|symmetry; apply (Z.mod_unique i 8 q); lia]).
           rewrite lookup_insert_eq. cbn [mbind option_bind]. f_equal. apply clear_byte. lia.
Qed.

(** Data written to a live block. *)
Lemma heap_write h bs p z m' :
  heap_ok h bs -> (p, z) ∈ live bs -> (forall a, is_Some (m' !! a) <-> is_Some (h_mem h !! a)) -> (forall a, ~ (p <= a < p + z) -> m' !! a = h_mem h !! a) ->
  heap_ok (with_hmem h m') bs /\ forall rest, live bs ≡ₚ (p, z) :: rest -> intact rest h (with_hmem h m').
Proof.
  intros [Hr Hs] Hin Hd Hm. apply live_in in Hin as (b & Hb & Hbf & <- & <-). apply list_elem_of_split in Hb as (A & B & ->).
  pose proof Hs as HsAB. apply Forall_app in HsAB as [HsA [Hsb HsB]%Forall_cons]. unfold settled in Hsb. rewrite Hbf in Hsb.
  destruct (rep_data h m' A b B Hr Hsb Hd Hm) as [Hr' Hk]. split; [by split|]. intros rest Hrest. rewrite live_add in Hrest by done. apply (inj (cons _)) in Hrest.
  intros p z Hin. rewrite <- Hrest in Hin. eapply keeps_intact; [|exact Hk|exact Hin]. by apply Forall_app.
Qed.

(** Calloc on a well-formed heap whose lock is free returns with the lock free and interrupts as they were; it returns NULL when the product overflows or no block is large enough, leaving the heap as it was, and otherwise a new live block of at least n * size bytes, all zero; the data of the other live blocks stays. *)
Theorem calloc_correct cb_reqmem cb_delmem s bs n size :
  (forall req, cb_reqmem = Some req -> req_ok req cb_delmem) -> kheap_ok s bs -> 0 <= n -> 0 <= size ->
  (n * size >= two64 \/ n * size + SIZE_16k + 32 <= two64 /\ (cb_reqmem = None \/ ~ (SIZE_16k | padded (n * size)))) ->
  exists s' p bs', calloc cb_reqmem cb_delmem s n size = Some (s', p) /\ kheap_ok s' bs' /\ hs_irq s' = hs_irq s /\ intact (live bs) (hs_heap s) (hs_heap s') /\
    ((p = 0 /\ bs' = bs) \/
     (0 < p /\ exists z, n * size <= z /\ live bs' ≡ₚ (p, z) :: live bs /\ forall i, 0 <= i < n * size -> byte_at (h_mem (hs_heap s')) p i = Some 0)).
Proof.
  intros Hcb [Hl Hok] Hn Hsz Hsize. unfold calloc. destruct (Z.geb_spec (n * size) two64).
  { exists s, 0, bs. split; [done|]. split; [done|]. split; [done|]. split; [intros p z _; apply same_on_refl|by left]. }
  destruct Hsize as [|[Hmax H16k]]; [lia|]. assert (0 <= n * size) as H0 by lia. set (total := n * size) in *. unfold malloc. rewrite locked_eq by done.
  destruct (alloc_ok cb_reqmem cb_delmem Hcb (hs_heap s) bs total Hok H0 Hmax H16k) as (h' & p & -> & Hcase). cbn [mbind option_bind].
  destruct (padded_spec total H0 ltac:(unfold SIZE_16k in *; lia)) as [Hpd _].
  destruct Hcase as [(-> & Hun & _)|(Hp & bs' & z & Hok' & Hz & Hlive & _ & _ & _ & _ & Hint)].
  - cbn [Z.eqb]. destruct (unchanged_ok _ _ _ Hok Hun) as [Hok' Hint]. eexists _, 0, bs. split; [done|]. split; [done|]. split; [done|]. split; [exact Hint|by left].
  - destruct (Z.eqb_spec p 0); [lia|]. cbn [hs_heap hs_lock hs_irq]. assert ((p, z) ∈ live bs') as Hin by (rewrite Hlive; set_solver).
    destruct (clear_bytes_ok (h_mem h') p total H0) as (m' & -> & Hd & Hout & Hzero).
    { intros i Hi. apply live_in in Hin as (b & Hb & _ & <- & <-). destruct Hok' as [(L & Ha & _) _]. eapply area_word; [exact Ha|exact Hb|lia|exists i; lia]. }
    cbn [mbind option_bind]. destruct (heap_write h' bs' p z m' Hok' Hin Hd) as [Hok2 Hint2]; [intros a Ha; apply Hout; lia|].
    eexists _, p, bs'. split; [done|]. split; [done|]. split; [done|]. split; [eapply intact_trans; [exact Hint|by apply Hint2]|].
    right. split; [done|]. exists z. split; [lia|]. split; [done|exact Hzero].
Qed.

Lemma calloc_correct_witness :
  exists h b s' p bs', heap_ok h [b] /\ calloc (Some more_words) None (mkHS h false true) 3 7 = Some (s', p) /\ kheap_ok s' bs' /\ hs_irq s' = true.
Proof.
  destruct demo_init as (h & b & E & Hok & _). clear E.
  destruct (calloc_correct (Some more_words) None (mkHS h false true) [b] 3 7 more_ok (conj eq_refl Hok)) as (s' & p & bs' & Ec & Hok' & Hi & _).
  - lia.
  - lia.
  - right. split; [unfold SIZE_16k; lia|]. right. apply not_16k. vm_compute. reflexivity.
  - exists h, b, s', p, bs'. exact (conj Hok (conj Ec (conj Hok' Hi))).
Defined.

(** [reallocarray] multiplies without a check: an array of 2^61 + 1 elements of
    eight bytes gets a block of sixteen. *)
Lemma reallocarray_wraps cb_reqmem cb_delmem s ptr : reallocarray cb_reqmem cb_delmem s ptr (2 ^ 61 + 1) 8 = realloc cb_reqmem cb_delmem s ptr 8.
Proof. unfold reallocarray. f_equal. Qed.
