(* ===== verification/Signal.v ===== *)
(** * Signals

    ([src/src/task/signal.c].) Pending and blocked signals are bit sets of a
    thread, with a [siginfo_t] per signal. [do_signal] runs on the way back to
    user mode; it ends by killing the process, by setting up a handler, or with
    nothing more to do. [kill_proc] and [arch_signal_setup] are not part of
    the model: which of them is called, and with which signal, is the result. *)

From stdpp Require Import gmap.
From S2P Require Import Prelude.

Definition MINSIG : Z := 1.
Definition MAXSIG : Z := 32.
Definition SIGKILL : Z := 9.
Definition SIGSTOP : Z := 19.
Definition SIG_DFL : Z := 0.
Definition SIG_IGN : Z := 1.
Definition SI_KERNEL : Z := 128.
Definition SIGMASK (sig : Z) : Z := Z.shiftl 1 sig.

Inductive signal_internal := SIGNAL_INTERNAL_CORE | SIGNAL_INTERNAL_TERM | SIGNAL_INTERNAL_IGN | SIGNAL_INTERNAL_STOP | SIGNAL_INTERNAL_CONT.

Definition signal_sig_in_range (sig : Z) : bool := (sig >=? MINSIG) && (sig <=? MAXSIG).
Definition signal_sig_maskable (sig : Z) : bool := (sig >=? MINSIG) && (sig <? 64).
Definition signal_sigbit (sig : Z) : Z := u64 (Z.shiftl 1 sig).

Definition sigset_user_to_kernel (user_mask : Z) : Z :=
  let kernel_mask := u64 (Z.shiftl user_mask 1) in
  let kernel_mask := if signal_sig_maskable SIGKILL then Z.land kernel_mask (Z.lnot (signal_sigbit SIGKILL)) else kernel_mask in
  if signal_sig_maskable SIGSTOP then Z.land kernel_mask (Z.lnot (signal_sigbit SIGSTOP)) else kernel_mask.
Definition sigset_kernel_to_user (kernel_mask : Z) : Z := Z.shiftr kernel_mask 1.

(** The assignments of [signal_init], in order; the array was zero, that is
    [SIGNAL_INTERNAL_CORE]. *)
Definition signal_decisions : list (Z * signal_internal) :=
  [(6, SIGNAL_INTERNAL_CORE); (14, SIGNAL_INTERNAL_TERM); (7, SIGNAL_INTERNAL_CORE); (17, SIGNAL_INTERNAL_IGN); (18, SIGNAL_INTERNAL_CONT);
   (8, SIGNAL_INTERNAL_CORE); (1, SIGNAL_INTERNAL_TERM); (4, SIGNAL_INTERNAL_CORE); (2, SIGNAL_INTERNAL_TERM); (29, SIGNAL_INTERNAL_TERM);
   (6, SIGNAL_INTERNAL_CORE); (9, SIGNAL_INTERNAL_TERM); (13, SIGNAL_INTERNAL_TERM); (29, SIGNAL_INTERNAL_TERM); (27, SIGNAL_INTERNAL_TERM);
   (30, SIGNAL_INTERNAL_TERM); (3, SIGNAL_INTERNAL_CORE); (11, SIGNAL_INTERNAL_CORE); (16, SIGNAL_INTERNAL_TERM); (19, SIGNAL_INTERNAL_STOP);
   (20, SIGNAL_INTERNAL_STOP); (31, SIGNAL_INTERNAL_CORE); (15, SIGNAL_INTERNAL_TERM); (5, SIGNAL_INTERNAL_CORE); (21, SIGNAL_INTERNAL_STOP);
   (22, SIGNAL_INTERNAL_STOP); (31, SIGNAL_INTERNAL_CORE); (23, SIGNAL_INTERNAL_IGN); (10, SIGNAL_INTERNAL_TERM); (12, SIGNAL_INTERNAL_TERM);
   (26, SIGNAL_INTERNAL_TERM); (24, SIGNAL_INTERNAL_CORE); (25, SIGNAL_INTERNAL_CORE); (28, SIGNAL_INTERNAL_IGN)].
Definition signal_init : option (list signal_internal) :=
  foldl (fun t '(sig, d) => t ← t; zset t (sig - 1) d) (Some (replicate 32 SIGNAL_INTERNAL_CORE)) signal_decisions.

(** The union is its words; words 0 and 1 are the sender of a kill. *)
Record siginfo := mkSi { si_signo : Z; si_errno : Z; si_code : Z; si_fields : list Z }.
Definition no_info : siginfo := mkSi 0 0 0 (replicate 125 0).

Record sigaction := mkSa { sa_handler : Z; sa_flags : Z; sa_restorer : Z; sa_mask : Z }.

(** The part of a thread that signals use. *)
Record sig_task := mkSt {
  st_signal : Z; st_blocked : Z; st_actions : list sigaction; st_infos : list siginfo; st_info_mask : Z; st_status : Z
}.

Definition with_signal (t : sig_task) (s : Z) : sig_task := mkSt s (st_blocked t) (st_actions t) (st_infos t) (st_info_mask t) (st_status t).
Definition with_info (t : sig_task) (l : list siginfo) (m : Z) : sig_task := mkSt (st_signal t) (st_blocked t) (st_actions t) l m (st_status t).
Definition with_status (t : sig_task) (s : Z) : sig_task := mkSt (st_signal t) (st_blocked t) (st_actions t) (st_infos t) (st_info_mask t) s.

Definition has (set sig : Z) : bool := negb (Z.land set (SIGMASK sig) =? 0).

(** [sender]: the process of the current task, if there is one. *)
Definition signal_fill_kernel_siginfo (sender : option (option (Z * Z))) (sig code : Z) : siginfo :=
  match sender with
  | None => mkSi sig 0 code (replicate 125 0)
  | Some p => let '(pid, uid) := default (0, 0) p in mkSi sig 0 code (<[0%nat := pid]> (<[1%nat := uid]> (replicate 125 0)))
  end.

Definition signal_clear_pending_info (t : sig_task) (sig : Z) : option sig_task :=
  if negb (signal_sig_maskable sig) then Some t
  else l ← zset (st_infos t) sig no_info; Some (with_info t l (Z.land (st_info_mask t) (Z.lnot (signal_sigbit sig)))).

Section Decisions.
Context (decisions : list signal_internal).

(** [n] signals from [i] on are left. *)
Fixpoint pending_loop (n : nat) (t : sig_task) (unblocked_list i : Z) : option bool :=
  match n with
  | O => Some false
  | Datatypes.S n =>
    if negb (has unblocked_list i) then pending_loop n t unblocked_list (i + 1)
    else
      action ← zget (st_actions t) (i - 1);
      if sa_handler action =? SIG_IGN then pending_loop n t unblocked_list (i + 1)
      else if sa_handler action =? SIG_DFL then
        d ← zget decisions (i - 1);
        match d with SIGNAL_INTERNAL_IGN => pending_loop n t unblocked_list (i + 1) | _ => Some true end
      else Some true
  end.

Definition signals_pending_quick (t : sig_task) : option bool :=
  pending_loop (Z.to_nat (MAXSIG - MINSIG + 1)) t (Z.land (st_signal t) (Z.lnot (st_blocked t))) MINSIG.

(** How [do_signal] ends. *)
Inductive sig_effect := SigNone | SigKill (sig : Z) | SigHandler (sig : Z) (action : sigaction).

(** [task->signal &= ~SIGMASK(sig); signal_clear_pending_info(task, sig);] *)
Definition take_signal (t : sig_task) (sig : Z) : option sig_task :=
  signal_clear_pending_info (with_signal t (Z.land (st_signal t) (Z.lnot (SIGMASK sig)))) sig.

Fixpoint do_signal_loop (n : nat) (t : sig_task) (sig : Z) : option (sig_task * sig_effect) :=
  match n with
  | O => Some (t, SigNone)
  | Datatypes.S n =>
    if negb (has (st_signal t) sig) then do_signal_loop n t (sig + 1)
    else if has (st_blocked t) sig then do_signal_loop n t (sig + 1)
    else
      action ← zget (st_actions t) (sig - 1);
      if sig =? SIGKILL then t ← take_signal t sig; Some (t, SigKill sig)
      else if sa_handler action =? SIG_IGN then t ← take_signal t sig; do_signal_loop n t (sig + 1)
      else if sa_handler action =? SIG_DFL then
        decision ← zget decisions (sig - 1);
        match decision with
        | SIGNAL_INTERNAL_TERM | SIGNAL_INTERNAL_CORE => t ← take_signal t sig; Some (t, SigKill sig)
        | SIGNAL_INTERNAL_IGN | SIGNAL_INTERNAL_STOP | SIGNAL_INTERNAL_CONT => t ← take_signal t sig; do_signal_loop n t (sig + 1)
        end
      else t ← take_signal t sig; Some (t, SigHandler sig action)
  end.

Definition do_signal (t : sig_task) : option (sig_task * sig_effect) := do_signal_loop (Z.to_nat (MAXSIG - MINSIG + 1)) t MINSIG.
End Decisions.

(** ** Sending *)

Definition EINVAL : Z := 22.
Definition ESRCH : Z := 3.
Definition T_RUNNING : Z := 1.
Definition T_WAIT : Z := 2.
Definition T_DEATH : Z := 3.
Definition T_ZOMBIE : Z := 8.

Record proc := mkPc { pc_pgid : Z; pc_status : Z; pc_threads : list Z }.

(** Processes in the order of the process list, and threads by address. *)
Record sig_sys := mkSs { ss_procs : list Z; ss_proc : gmap Z proc; ss_task : gmap Z sig_task; ss_sender : option (option (Z * Z)) }.

Definition with_task (s : sig_sys) (p : Z) (t : sig_task) : sig_sys := mkSs (ss_procs s) (ss_proc s) (<[p := t]> (ss_task s)) (ss_sender s).

(** [cow_foreach(process->child_threads, target) { break; }] *)
Definition first_thread (l : list Z) : Z := default 0 (head (filter (fun p => p <> 0) l)).

Definition record_info (s : sig_sys) (t : sig_task) (sig : Z) (info : option siginfo) : option sig_task :=
  if negb (signal_sig_maskable sig) then Some t
  else
    let bit := signal_sigbit sig in
    if negb (Z.land (st_signal t) bit =? 0) then Some t
    else
      let i := match info with
               | Some i => mkSi sig (si_errno i) (si_code i) (si_fields i)
               | None => signal_fill_kernel_siginfo (ss_sender s) sig SI_KERNEL
               end in
      l ← zset (st_infos t) sig i;
      Some (with_info t l (Z.lor (st_info_mask t) bit)).

Definition send_signal_to_process_info (s : sig_sys) (process sig : Z) (info : option siginfo) : option (sig_sys * Z) :=
  if (process =? 0) || negb (signal_sig_in_range sig) then Some (s, - EINVAL)
  else
    p ← ss_proc s !! process;
    if (pc_status p =? T_DEATH) || (pc_status p =? T_ZOMBIE) then Some (s, - ESRCH)
    else
      let target := first_thread (pc_threads p) in
      if target =? 0 then Some (s, - ESRCH)
      else
        t ← ss_task s !! target;
        t ← record_info s t sig info;
        let t := with_signal t (Z.lor (st_signal t) (SIGMASK sig)) in
        let t := if st_status t =? T_WAIT then with_status t T_RUNNING else t in
        Some (with_task s target t, 0).

Definition send_signal_to_process (s : sig_sys) (process sig : Z) : option (sig_sys * Z) := send_signal_to_process_info s process sig None.

Fixpoint pgroup_loop (s : sig_sys) (l : list Z) (pgid sig : Z) (info : option siginfo) (sent : Z) : option (sig_sys * Z) :=
  match l with
  | [] => Some (s, sent)
  | process :: l =>
    if process =? 0 then pgroup_loop s l pgid sig info sent
    else
      p ← ss_proc s !! process;
      if pc_pgid p =? pgid then
        '(s, r) ← send_signal_to_process_info s process sig info;
        pgroup_loop s l pgid sig info (if r =? 0 then sent + 1 else sent)
      else pgroup_loop s l pgid sig info sent
  end.

Definition send_signal_to_pgroup_info (s : sig_sys) (pgid sig : Z) (info : option siginfo) : option (sig_sys * Z) :=
  if negb (signal_sig_in_range sig) then Some (s, - EINVAL)
  else
    '(s, sent) ← pgroup_loop s (ss_procs s) pgid sig info 0;
    Some (s, if sent >? 0 then 0 else - ESRCH).

Definition send_signal_to_pgroup (s : sig_sys) (pgid sig : Z) : option (sig_sys * Z) := send_signal_to_pgroup_info s pgid sig None.
