(* ===== verification/SignalProps.v ===== *)
(** * Properties of signals *)

From stdpp Require Import gmap.
From S2P Require Import Prelude Signal.

Implicit Types (t : sig_task) (s : sig_sys).

(** ** Bits *)

Lemma has_testbit set sig : 0 <= sig -> has set sig = Z.testbit set sig.
Proof.
  intros H. unfold has, SIGMASK. destruct (Z.testbit set sig) eqn:E.
  - apply negb_true_iff, Z.eqb_neq. intros E0. apply (f_equal (fun z => Z.testbit z sig)) in E0.
    rewrite Z.land_spec, E, Z.shiftl_spec, Z.sub_diag, Z.bits_0 in E0 by lia. done.
  - apply negb_false_iff, Z.eqb_eq, Z.bits_inj'. intros i Hi. rewrite Z.land_spec, Z.bits_0. destruct (decide (i = sig)) as [->|Hne]; [by rewrite E|].
    rewrite Z.shiftl_spec, testbit_1_l by lia. replace (i - sig =? 0) with false by lia. apply andb_false_r.
Qed.

Lemma clear_bit_spec x sig j : 0 <= sig -> Z.testbit (Z.land x (Z.lnot (SIGMASK sig))) j = Z.testbit x j && negb (j =? sig).
Proof.
  intros H. destruct (Z.ltb_spec j 0); [rewrite !Z.testbit_neg_r by lia; done|].
  rewrite Z.land_spec, Z.lnot_spec by lia. unfold SIGMASK. rewrite Z.shiftl_spec, testbit_1_l by lia. replace (j - sig =? 0) with (j =? sig) by lia. done.
Qed.

Lemma sigbit_mask sig : 0 <= sig < 64 -> signal_sigbit sig = SIGMASK sig.
Proof.
  intros H. unfold signal_sigbit, SIGMASK. apply u64_id. rewrite Z.shiftl_mul_pow2, Z.mul_1_l by lia.
  split; [apply Z.pow_nonneg; lia|]. change two64 with (2 ^ 64). apply Z.pow_lt_mono_r; lia.
Qed.

(** ** The well-formed threads *)

(** The arrays have their lengths, a recorded information is about a pending
    signal, and names it. *)
Record task_ok t : Prop := {
  tk_actions : zlen (st_actions t) = MAXSIG;
  tk_infos : zlen (st_infos t) = MAXSIG + 1;
  tk_mask : forall i, 1 <= i <= MAXSIG -> Z.testbit (st_info_mask t) i = true -> Z.testbit (st_signal t) i = true;
  tk_signo : forall i x, 1 <= i <= MAXSIG -> Z.testbit (st_info_mask t) i = true -> zget (st_infos t) i = Some x -> si_signo x = i
}.

(** Pending and not blocked. *)
Definition pend t (i : Z) : bool := Z.testbit (st_signal t) i && negb (Z.testbit (st_blocked t) i).

Section Deliver.
Context (decisions : list signal_internal) (Hdec : zlen decisions = MAXSIG).

(** What a signal does when its turn comes; nothing when it is ignored. *)
Definition verdict t (sig : Z) : option sig_effect :=
  if sig =? SIGKILL then Some (SigKill sig)
  else
    action ← zget (st_actions t) (sig - 1);
    if sa_handler action =? SIG_IGN then None
    else if sa_handler action =? SIG_DFL then
      match zget decisions (sig - 1) with Some SIGNAL_INTERNAL_TERM | Some SIGNAL_INTERNAL_CORE => Some (SigKill sig) | _ => None end
    else Some (SigHandler sig action).

(** [t'] is [t] with the signals below [k] that were pending and not blocked
    taken, their information too. *)
Record drained t t' (k : Z) : Prop := {
  dr_signal : forall j, Z.testbit (st_signal t') j = Z.testbit (st_signal t) j && negb ((1 <=? j) && (j <? k) && pend t j);
  dr_mask : forall j, 0 <= j -> Z.testbit (st_info_mask t') j = Z.testbit (st_info_mask t) j && negb ((1 <=? j) && (j <? k) && pend t j);
  dr_infos : forall j, zget (st_infos t') j = if (1 <=? j) && (j <? k) && pend t j then Some no_info else zget (st_infos t) j;
  dr_len : zlen (st_infos t') = zlen (st_infos t);
  dr_blocked : st_blocked t' = st_blocked t;
  dr_actions : st_actions t' = st_actions t;
  dr_status : st_status t' = st_status t
}.

Lemma drained_start t : drained t t 1.
Proof. split; try done; intros j; replace ((1 <=? j) && (j <? 1)) with false by lia; [|intros _|]; rewrite ?andb_true_r; done. Qed.

Lemma drained_skip t t' k : drained t t' k -> pend t k = false -> drained t t' (k + 1).
Proof.
  intros [] Hk. assert (forall j, (1 <=? j) && (j <? k + 1) && pend t j = (1 <=? j) && (j <? k) && pend t j) as E.
  { intros j. destruct (decide (j = k)) as [->|]; [by rewrite Hk, !andb_false_r|]. f_equal. lia. }
  split; try done; intros j; [|intros ?|]; rewrite E; auto.
Qed.

Lemma drained_take t t' k : zlen (st_infos t) = MAXSIG + 1 -> drained t t' k -> 1 <= k <= MAXSIG -> pend t k = true -> exists t'', take_signal t' k = Some t'' /\ drained t t'' (k + 1).
Proof.
  intros Hlen [Hs Hm Hi Hl Hb Ha Hst] Hk Hp. unfold MAXSIG in *. unfold take_signal, signal_clear_pending_info, signal_sig_maskable, MINSIG. replace ((k >=? 1) && (k <? 64)) with true by lia. cbn [negb].
  cbn [with_signal st_infos st_info_mask]. rewrite zset_ok by lia. cbn [mbind option_bind]. eexists. split; [done|].
  assert (forall j, (1 <=? j) && (j <? k + 1) && pend t j = (j =? k) || (1 <=? j) && (j <? k) && pend t j) as E.
  { intros j. destruct (decide (j = k)) as [->|]; [rewrite Hp; lia|]. replace (j =? k) with false by lia. cbn [orb]. f_equal. lia. }
  assert (zset (st_infos t') k no_info = Some (<[Z.to_nat k := no_info]> (st_infos t'))) as Hz by (apply zset_ok; lia).
  split; cbn [with_info with_signal st_signal st_info_mask st_infos st_blocked st_actions st_status]; try done.
  - intros j. rewrite clear_bit_spec, Hs, E by lia. destruct (j =? k), (Z.testbit (st_signal t) j); simpl; rewrite ?andb_true_r, ?andb_false_r; done.
  - intros j Hj. rewrite sigbit_mask by lia. rewrite clear_bit_spec, Hm, E by lia. destruct (j =? k), (Z.testbit (st_info_mask t) j); simpl; rewrite ?andb_true_r, ?andb_false_r; done.
  - intros j. rewrite (zset_get _ _ _ _ _ Hz), E, Hi. destruct (decide (k = j)) as [->|]; [by rewrite Z.eqb_refl|]. replace (j =? k) with false by lia. done.
  - rewrite (zset_len _ _ _ _ Hz). done.
Qed.

(** [e] is the verdict of the signal [last], the first that is not ignored, or
    all of them are ignored. *)
Definition delivered t (e : sig_effect) (last : Z) : Prop :=
  e = SigNone /\ last = MAXSIG /\ (forall j, 1 <= j <= last -> pend t j = true -> verdict t j = None) \/
  1 <= last <= MAXSIG /\ pend t last = true /\ verdict t last = Some e /\ (forall j, 1 <= j < last -> pend t j = true -> verdict t j = None).

(** The rest of the loop: up to the first signal that is not ignored. *)
Lemma do_signal_loop_ok n t t' k :
  task_ok t -> drained t t' k -> 1 <= k -> k + Z.of_nat n = MAXSIG + 1 -> (forall j, 1 <= j < k -> pend t j = true -> verdict t j = None) ->
  exists t'' e last, do_signal_loop decisions n t' k = Some (t'', e) /\ drained t t'' (last + 1) /\
    delivered t e last.
Proof.
  intros Hok. revert t' k. induction n as [|n IH]; intros t' k Hd Hk Hn Hno; cbn [do_signal_loop].
  { exists t', SigNone, MAXSIG. split; [done|]. assert (k = MAXSIG + 1) as -> by lia. split; [done|]. left. split_and!; try done. intros j Hj. apply Hno. lia. }
  assert (pend t k = false -> exists t'' e last, do_signal_loop decisions n t' (k + 1) = Some (t'', e) /\ drained t t'' (last + 1) /\
    delivered t e last) as Hskip.
  { intros Hp. apply IH; [by apply drained_skip|lia|lia|]. intros j Hj. destruct (decide (j = k)) as [->|]; [congruence|]. apply Hno. lia. }
  pose proof (dr_signal _ _ _ Hd k) as Hsk. replace ((1 <=? k) && (k <? k)) with false in Hsk by lia. cbn [andb negb] in Hsk. rewrite andb_true_r in Hsk.
  rewrite !has_testbit by lia. rewrite Hsk, (dr_blocked _ _ _ Hd). destruct (Z.testbit (st_signal t) k) eqn:Es; cbn [negb]; [|apply Hskip; unfold pend; by rewrite Es].
  destruct (Z.testbit (st_blocked t) k) eqn:Eb; [apply Hskip; unfold pend; by rewrite Es, Eb|]. assert (pend t k = true) as Hp by (unfold pend; by rewrite Es, Eb).
  destruct (drained_take t t' k (tk_infos _ Hok) Hd ltac:(lia) Hp) as (t1 & -> & Hd1). rewrite (dr_actions _ _ _ Hd).
  destruct (zget_ok (st_actions t) (k - 1)) as [a Ea]; [rewrite (tk_actions _ Hok); lia|]. destruct (zget_ok decisions (k - 1)) as [d Ed]; [lia|].
  assert (verdict t k = if k =? SIGKILL then Some (SigKill k) else if sa_handler a =? SIG_IGN then None else if sa_handler a =? SIG_DFL then
    match d with SIGNAL_INTERNAL_TERM | SIGNAL_INTERNAL_CORE => Some (SigKill k) | _ => None end else Some (SigHandler k a)) as Hv.
  { unfold verdict. rewrite Ea, Ed. cbn [mbind option_bind]. repeat case_if; done. }
  assert (forall e, verdict t k = Some e -> exists t'' e' last, Some (t1, e) = Some (t'', e') /\ drained t t'' (last + 1) /\
    delivered t e' last) as Hend.
  { intros e He. exists t1, e, k. split; [done|]. split; [done|]. right. split_and!; try done; lia. }
  assert (verdict t k = None -> exists t'' e last, do_signal_loop decisions n t1 (k + 1) = Some (t'', e) /\ drained t t'' (last + 1) /\
    delivered t e last) as Hgo.
  { intros Hv0. apply IH; [done|lia|lia|]. intros j Hj. destruct (decide (j = k)) as [->|]; [done|]. apply Hno. lia. }
  rewrite Ea, Ed. cbn [mbind option_bind]. destruct (k =? SIGKILL); [by apply Hend|]. destruct (sa_handler a =? SIG_IGN); [by apply Hgo|].
  destruct (sa_handler a =? SIG_DFL); [|by apply Hend]. destruct d; first [by apply Hend|by apply Hgo].
Qed.

Lemma drained_ok t t' k : task_ok t -> drained t t' k -> k <= MAXSIG + 1 -> task_ok t'.
Proof.
  intros [Ha Hi Hm Hs] [Es Em Ei El _ Ea _] Hk. split.
  - by rewrite Ea.
  - by rewrite El.
  - intros i Hi'. rewrite Em, Es by lia. intros [Hb ->]%andb_true_iff. rewrite andb_true_r. by apply Hm.
  - intros i x Hi'. rewrite Em, Ei by lia. intros [Hb Hn]%andb_true_iff. apply negb_true_iff in Hn. rewrite Hn. by apply Hs.
Qed.

(** ** Looking for a signal *)

(** A signal that interrupts a wait. *)
Definition noticed t (sig : Z) : bool :=
  match zget (st_actions t) (sig - 1), zget decisions (sig - 1) with
  | Some a, Some d => negb (sa_handler a =? SIG_IGN) && negb ((sa_handler a =? SIG_DFL) && match d with SIGNAL_INTERNAL_IGN => true | _ => false end)
  | _, _ => false
  end.

Lemma pending_loop_ok n t k :
  task_ok t -> 1 <= k -> k + Z.of_nat n = MAXSIG + 1 ->
  exists b, pending_loop decisions n t (Z.land (st_signal t) (Z.lnot (st_blocked t))) k = Some b /\
    (b = true <-> exists i, k <= i <= MAXSIG /\ pend t i = true /\ noticed t i = true).
Proof.
  intros Hok. revert k. induction n as [|n IH]; intros k Hk Hn; cbn [pending_loop].
  { exists false. split; [done|]. split; [done|]. intros (i & Hi & _). lia. }
  assert (pend t k && noticed t k = false -> exists b, pending_loop decisions n t (Z.land (st_signal t) (Z.lnot (st_blocked t))) (k + 1) = Some b /\
    (b = true <-> exists i, k <= i <= MAXSIG /\ pend t i = true /\ noticed t i = true)) as Hskip.
  { intros Hp. destruct (IH (k + 1) ltac:(lia) ltac:(lia)) as (b & E & Hb). exists b. split; [done|]. rewrite Hb. split; intros (i & Hi & H1 & H2); exists i; split_and!; try done; try lia.
    destruct (decide (i = k)) as [->|]; [by rewrite H1, H2 in Hp|lia]. }
  rewrite has_testbit, Z.land_spec, Z.lnot_spec by lia. fold (pend t k). destruct (pend t k) eqn:Ep; cbn [negb]; [|by apply Hskip].
  destruct (zget_ok (st_actions t) (k - 1)) as [a Ea]; [rewrite (tk_actions _ Hok); lia|]. destruct (zget_ok decisions (k - 1)) as [d Ed]; [lia|].
  assert (noticed t k = negb (sa_handler a =? SIG_IGN) && negb ((sa_handler a =? SIG_DFL) && match d with SIGNAL_INTERNAL_IGN => true | _ => false end)) as Hnot by (unfold noticed; by rewrite Ea, Ed).
  assert (noticed t k = true -> exists b, Some true = Some b /\ (b = true <-> exists i, k <= i <= MAXSIG /\ pend t i = true /\ noticed t i = true)) as Hyes.
  { intros Hy. exists true. split; [done|]. split; [|done]. intros _. exists k. split_and!; try done; lia. }
  rewrite Ea, Ed. cbn [mbind option_bind]. destruct (sa_handler a =? SIG_IGN); [by apply Hskip; rewrite Hnot|]. destruct (sa_handler a =? SIG_DFL); [|by apply Hyes].
  destruct d; first [by apply Hyes|by apply Hskip; rewrite Hnot].
Qed.
End Deliver.

(** ** The claims *)

(** The decisions after start-up. *)
Definition decisions : list signal_internal := default [] signal_init.

Lemma decisions_len : zlen decisions = MAXSIG.
Proof. reflexivity. Qed.

(** C24: do_signal looks at the pending signals that are not blocked in order; it takes the ignored ones up to the first that is not, takes that one, and kills the process or sets up the handler for it, or ends when all are ignored. Nothing else of the thread changes, and the thread stays well formed. *)
Theorem do_signal_correct t :
  task_ok t ->
  exists t' e last, do_signal decisions t = Some (t', e) /\ delivered decisions t e last /\ task_ok t' /\
    (forall j, Z.testbit (st_signal t') j = Z.testbit (st_signal t) j && negb ((1 <=? j) && (j <=? last) && pend t j)) /\
    (forall j, zget (st_infos t') j = if (1 <=? j) && (j <=? last) && pend t j then Some no_info else zget (st_infos t) j) /\
    st_blocked t' = st_blocked t /\ st_actions t' = st_actions t /\ st_status t' = st_status t.
Proof.
  intros Hok. destruct (do_signal_loop_ok decisions decisions_len 32 t t 1 Hok (drained_start t)) as (t' & e & last & E & Hd & Hdel); [lia|done|lia|].
  exists t', e, last. assert (last <= MAXSIG) as Hl by (destruct Hdel as [(_ & -> & _)|[? _]]; lia).
  assert (forall j, (j <? last + 1) = (j <=? last)) as Elt by lia. split; [done|]. split; [done|]. split; [by eapply (drained_ok t t' (last + 1)); [| |lia]|].
  destruct Hd as [Hs _ Hi _ Hb Ha Hst]. split_and!; try done; intros j; [rewrite Hs|rewrite Hi]; by rewrite Elt.
Qed.

(** A thread that do_signal would kill or run a handler for is never overlooked by signals_pending_quick, provided SIGKILL is not set to be ignored. *)
Theorem pending_quick_sees_delivery t :
  task_ok t -> (forall a, zget (st_actions t) (SIGKILL - 1) = Some a -> sa_handler a <> SIG_IGN) ->
  exists t' e b, do_signal decisions t = Some (t', e) /\ signals_pending_quick decisions t = Some b /\ (e <> SigNone -> b = true).
Proof.
  intros Hok Hkill. destruct (do_signal_loop_ok decisions decisions_len 32 t t 1 Hok (drained_start t)) as (t' & e & last & E & _ & Hdel); [lia|done|lia|].
  destruct (pending_loop_ok decisions decisions_len 32 t 1 Hok) as (b & Eb & Hb); [lia|done|]. exists t', e, b. split; [done|]. split; [done|]. intros He. apply Hb.
  destruct Hdel as [(? & _)|(Hl & Hp & Hv & _)]; [done|]. exists last. split; [lia|]. split; [done|]. unfold noticed, verdict in *.
  destruct (zget_ok (st_actions t) (last - 1)) as [a Ea]; [rewrite (tk_actions _ Hok); lia|]. destruct (zget_ok decisions (last - 1)) as [d Ed]; [rewrite decisions_len; lia|].
  rewrite Ea, Ed in *. cbn [mbind option_bind] in Hv. destruct (Z.eqb_spec last SIGKILL) as [->|].
  - specialize (Hkill a Ea). change (zget decisions (SIGKILL - 1)) with (Some SIGNAL_INTERNAL_TERM) in Ed. injection Ed as <-. rewrite andb_false_r, andb_true_r. by apply negb_true_iff, Z.eqb_neq.
  - destruct (sa_handler a =? SIG_IGN); [done|]. destruct (sa_handler a =? SIG_DFL); [|done]. by destruct d.
Qed.

(** Converting a signal set from user to kernel numbering and back loses SIGKILL, SIGSTOP and the last signal, and nothing else. *)
Theorem sigset_round_trip m i :
  0 <= m < two64 -> 0 <= i ->
  Z.testbit (sigset_kernel_to_user (sigset_user_to_kernel m)) i = Z.testbit m i && negb (i =? SIGKILL - 1) && negb (i =? SIGSTOP - 1) && (i <? 63).
Proof.
  intros Hm Hi. unfold sigset_kernel_to_user, sigset_user_to_kernel, signal_sig_maskable. change ((SIGKILL >=? MINSIG) && (SIGKILL <? 64)) with true. change ((SIGSTOP >=? MINSIG) && (SIGSTOP <? 64)) with true.
  cbn [negb]. rewrite !sigbit_mask by (unfold SIGKILL, SIGSTOP; lia). rewrite Z.shiftr_spec, !clear_bit_spec by (unfold SIGKILL, SIGSTOP; lia).
  unfold u64. change two64 with (2 ^ 64). unfold SIGKILL, SIGSTOP. replace (i + 1 =? 9) with (i =? 9 - 1) by lia. replace (i + 1 =? 19) with (i =? 19 - 1) by lia.
  destruct (Z.ltb_spec i 63).
  - rewrite Z.mod_pow2_bits_low, Z.shiftl_spec by lia. replace (i + 1 - 1) with i by lia. by rewrite andb_true_r.
  - rewrite Z.mod_pow2_bits_high by lia. by rewrite !andb_false_r.
Qed.

(** ** Sending *)

Definition sys_ok s : Prop := forall p t, ss_task s !! p = Some t -> task_ok t.

Lemma lor_mask_spec x sig j : 0 <= sig -> Z.testbit (Z.lor x (SIGMASK sig)) j = Z.testbit x j || (j =? sig).
Proof.
  intros H. destruct (Z.ltb_spec j 0); [rewrite !Z.testbit_neg_r by lia; lia|].
  rewrite Z.lor_spec. unfold SIGMASK. rewrite Z.shiftl_spec, testbit_1_l by lia. f_equal. lia.
Qed.

(** A process that can get a signal, and the thread that gets it. *)
Definition target_of s (process : Z) (t : sig_task) (p : Z) : Prop :=
  exists pr, process <> 0 /\ ss_proc s !! process = Some pr /\ pc_status pr <> T_DEATH /\ pc_status pr <> T_ZOMBIE /\ p = first_thread (pc_threads pr) /\ p <> 0 /\ ss_task s !! p = Some t.

(** C25: sending a signal to a process that is alive makes it pending for its first thread, and keeps every thread well formed: the recorded information names its signal, and that of a signal which was already pending is not replaced. *)
Theorem send_signal_correct s process t p sig info :
  sys_ok s -> target_of s process t p -> 1 <= sig <= MAXSIG ->
  exists s' t', send_signal_to_process_info s process sig info = Some (s', 0) /\ ss_task s' = <[p := t']> (ss_task s) /\ sys_ok s' /\
    (forall j, Z.testbit (st_signal t') j = Z.testbit (st_signal t) j || (j =? sig)) /\ st_blocked t' = st_blocked t /\ st_actions t' = st_actions t /\
    (forall j, j <> sig \/ Z.testbit (st_signal t) sig = true -> zget (st_infos t') j = zget (st_infos t) j).
Proof.
  intros Hs (pr & H0 & Hpr & Hd & Hz & -> & Hp0 & Ht) Hsig. pose proof (Hs _ _ Ht) as [Ha Hi Hm Hn]. unfold MAXSIG in *.
  unfold send_signal_to_process_info. destruct (Z.eqb_spec process 0); [done|]. unfold signal_sig_in_range, MINSIG, MAXSIG. replace ((sig >=? 1) && (sig <=? 32)) with true by lia. cbn [negb orb].
  rewrite Hpr. cbn [mbind option_bind]. destruct (Z.eqb_spec (pc_status pr) T_DEATH); [done|]. destruct (Z.eqb_spec (pc_status pr) T_ZOMBIE); [done|]. cbn [orb].
  destruct (Z.eqb_spec (first_thread (pc_threads pr)) 0); [done|]. rewrite Ht. cbn [mbind option_bind].
  unfold record_info, signal_sig_maskable, MINSIG. replace ((sig >=? 1) && (sig <? 64)) with true by lia. cbn [negb]. rewrite sigbit_mask by lia. fold (has (st_signal t) sig). rewrite has_testbit by lia.
  set (wake := fun t => if st_status t =? T_WAIT then with_status t T_RUNNING else t).
  assert (forall t1, (forall p' t', ss_task (with_task s (first_thread (pc_threads pr)) t1) !! p' = Some t' -> p' <> first_thread (pc_threads pr) -> task_ok t')) as Hother.
  { intros t1 p' t' H Hne. simpl in H. rewrite lookup_insert_ne in H by done. by eapply Hs. }
  assert (forall t1, st_signal (wake t1) = st_signal t1 /\ st_blocked (wake t1) = st_blocked t1 /\ st_actions (wake t1) = st_actions t1 /\ st_infos (wake t1) = st_infos t1 /\ st_info_mask (wake t1) = st_info_mask t1) as Hw.
  { intros t1. unfold wake. by destruct (st_status t1 =? T_WAIT). }
  destruct (Z.testbit (st_signal t) sig) eqn:E.
  - cbn [mbind option_bind]. eexists _, _. split; [done|]. split; [done|]. match goal with |- context [with_task s _ ?x] => set (t2 := x) end. change t2 with (wake (with_signal t (Z.lor (st_signal t) (SIGMASK sig)))) in *.
    destruct (Hw (with_signal t (Z.lor (st_signal t) (SIGMASK sig)))) as (W1 & W2 & W3 & W4 & W5). fold t2 in W1, W2, W3, W4, W5. simpl in W1, W2, W3, W4, W5. split_and!; try done.
    + intros p' t' Ht'. destruct (decide (p' = first_thread (pc_threads pr))) as [->|Hne]; [|by eapply Hother]. simpl in Ht'. rewrite lookup_insert_eq in Ht'. injection Ht' as <-.
      split; [by rewrite W3|by rewrite W4| |]; rewrite ?W5, ?W4, ?W1; [|done]. intros i Hi' Hb. rewrite lor_mask_spec by lia. rewrite Hm by done. done.
    + intros j. rewrite W1, lor_mask_spec by lia. done.
    + intros j _. by rewrite W4.
  - rewrite zset_ok by lia. cbn [mbind option_bind]. set (x := match info with Some i => _ | None => _ end). assert (si_signo x = sig) as Hx by (unfold x; destruct info; [done|]; unfold signal_fill_kernel_siginfo; destruct (ss_sender s) as [q|]; [destruct (default (0, 0) q)|]; done).
    assert (zset (st_infos t) sig x = Some (<[Z.to_nat sig := x]> (st_infos t))) as Hzs by (apply zset_ok; lia).
    eexists _, _. split; [done|]. split; [done|]. match goal with |- context [with_task s _ ?y] => set (t2 := y) end.
    change t2 with (wake (with_signal (with_info t (<[Z.to_nat sig := x]> (st_infos t)) (Z.lor (st_info_mask t) (SIGMASK sig))) (Z.lor (st_signal t) (SIGMASK sig)))) in *.
    match goal with |- context [wake ?y] => destruct (Hw y) as (W1 & W2 & W3 & W4 & W5) end. fold t2 in W1, W2, W3, W4, W5. simpl in W1, W2, W3, W4, W5. split_and!; try done.
    + intros p' t' Ht'. destruct (decide (p' = first_thread (pc_threads pr))) as [->|Hne]; [|by eapply Hother]. simpl in Ht'. rewrite lookup_insert_eq in Ht'. injection Ht' as <-.
      split; [by rewrite W3|rewrite W4; by rewrite (zset_len _ _ _ _ Hzs)| |]; rewrite ?W5, ?W4, ?W1.
      * intros i Hi'. rewrite !lor_mask_spec by lia. intros [Hb|Hb]%orb_true_iff; [by rewrite Hm|by rewrite Hb, orb_true_r].
      * intros i y Hi'. rewrite lor_mask_spec, (zset_get _ _ _ _ _ Hzs) by lia. destruct (decide (sig = i)) as [<-|]; [by intros _ [= <-]|]. replace (i =? sig) with false by lia. rewrite orb_false_r. by apply Hn.
    + intros j. rewrite W1, lor_mask_spec by lia. done.
    + intros j [Hj|Hj]; [|congruence]. rewrite W4, (zset_get _ _ _ _ _ Hzs). rewrite decide_False by lia. done.
Qed.

(** ** Witnesses *)

(** SIGCHLD, SIGUSR1 and SIGTERM are pending, SIGUSR1 is blocked. *)
Definition demo_task : sig_task := mkSt (Z.lor (Z.lor (SIGMASK 17) (SIGMASK 10)) (SIGMASK 15)) (SIGMASK 10) (replicate 32 (mkSa 0 0 0 0)) (replicate 33 no_info) 0 T_WAIT.

Lemma demo_task_ok : task_ok demo_task.
Proof. split; [done|done| |]; intros i ?; simpl; rewrite Z.bits_0; done. Qed.

Lemma do_signal_correct_witness : exists t' last, do_signal decisions demo_task = Some (t', SigKill 15) /\ delivered decisions demo_task (SigKill 15) last /\ st_signal t' = Z.lor (SIGMASK 17) (SIGMASK 10).
Proof.
  destruct (do_signal_correct demo_task demo_task_ok) as (t' & e & last & E & Hd & _). exists t', last. vm_compute in E. injection E as <- <-. split; [vm_compute; reflexivity|]. split; [exact Hd|reflexivity].
Defined.

Lemma pending_quick_sees_delivery_witness : signals_pending_quick decisions demo_task = Some true.
Proof.
  destruct (pending_quick_sees_delivery demo_task demo_task_ok) as (t' & e & b & E & Eb & Hb); [intros a Ha; vm_compute in Ha; injection Ha as <-; discriminate|].
  vm_compute in E. injection E as <- <-. rewrite Eb, Hb; [reflexivity|discriminate].
Defined.

Lemma sigset_round_trip_witness : Z.testbit (sigset_kernel_to_user (sigset_user_to_kernel 768)) 9 = true.
Proof. rewrite (sigset_round_trip 768 9); [reflexivity|lia|lia]. Defined.

Definition demo_sys : sig_sys := mkSs [100] {[ 100 := mkPc 1 T_RUNNING [0; 200] ]} {[ 200 := demo_task ]} (Some (Some (7, 0))).

Lemma send_signal_correct_witness : exists s' t', send_signal_to_process_info demo_sys 100 2 None = Some (s', 0) /\ ss_task s' = <[200 := t']> (ss_task demo_sys) /\ Z.testbit (st_signal t') 2 = true.
Proof.
  destruct (send_signal_correct demo_sys 100 demo_task 200 2 None) as (s' & t' & E & Et & _ & Hs & _).
  - intros p t Hp. change ((({[ 200 := demo_task ]} : gmap Z sig_task) !! p) = Some t) in Hp. apply lookup_singleton_Some in Hp as [<- <-]. exact demo_task_ok.
  - exists (mkPc 1 T_RUNNING [0; 200]). split_and!; try discriminate; reflexivity.
  - unfold MAXSIG. lia.
  - exists s', t'. split; [exact E|]. split; [exact Et|]. rewrite Hs. reflexivity.
Defined.
