(* ===== verification/Sleep.v ===== *)
(** * Sleeping threads

    ([src/src/task/scheduler.c], and how [src/src/task/task.c] ends a thread.)
    A thread that sleeps is taken from its scheduler and put on the
    copy-on-write list [sleep_list]; every tick of the timer looks for those
    whose time has come or who have a signal. [sleep_block_task] and
    [sleep_wake_task] make the same calls as the two functions of futexes, so
    they are the parameters [block] and [wake] with the laws of the class
    [Scheduler]. What runs while a thread sleeps is between the two halves of
    [scheduler_nano_sleep] and [scheduler_block_current]. *)

From stdpp Require Import gmap.
From S2P Require Import Prelude Cow Signal Futex.

Definition EINTR : Z := 4.
Definition ETIMEDOUT : Z := 110.
Definition T_OUT : Z := 6.
Definition scheduler_block_pending : Z := 2147483647.
Definition UINT64_MAX : Z := 18446744073709551615.

(** What sleeping uses of a thread; its status is that of [sig_task]. *)
Record sl_tcb := mkSl { sl_sig : sig_task; sl_deadline : Z; sl_code : Z }.

Record sl_sys (S : Type) := mkSleep {
  sl_list : option cow_sys;       (* [sleep_list], [None] for NULL *)
  sl_lock : spin_t;               (* [sleep_lock] *)
  sl_irq : bool;                  (* interrupts are open *)
  sl_threads : gmap Z sl_tcb;
  sl_count : Z;                   (* [task_count] of the processor *)
  sl_sched : S;
}.
Arguments mkSleep {S} _ _ _ _ _ _.
Arguments sl_list {S} _.
Arguments sl_lock {S} _.
Arguments sl_irq {S} _.
Arguments sl_threads {S} _.
Arguments sl_count {S} _.
Arguments sl_sched {S} _.

Section Code.
Context {S : Type}.
(* [sleep_block_task], [sleep_wake_task]; [remove_rrs_entity] or
   [remove_eevdf_entity] for a thread that ends, and whether its
   [sched_handle] is set *)
Context (block wake remove : S -> Z -> option S) (handle : S -> Z -> bool).
Context (malloc : gmap Z cow_block -> Z) (realloc : list Z -> Z -> option (list Z)).
(* [signal_internal_decisions] *)
Context (decisions : list signal_internal).

Implicit Types (s : sl_sys S).

Definition set_list s (l : option cow_sys) : sl_sys S := mkSleep l (sl_lock s) (sl_irq s) (sl_threads s) (sl_count s) (sl_sched s).
Definition set_lock s (l : spin_t) : sl_sys S := mkSleep (sl_list s) l (sl_irq s) (sl_threads s) (sl_count s) (sl_sched s).
Definition set_irq s (b : bool) : sl_sys S := mkSleep (sl_list s) (sl_lock s) b (sl_threads s) (sl_count s) (sl_sched s).
Definition set_tcb s (t : Z) (x : sl_tcb) : sl_sys S := mkSleep (sl_list s) (sl_lock s) (sl_irq s) (<[t := x]> (sl_threads s)) (sl_count s) (sl_sched s).
Definition set_count s (n : Z) : sl_sys S := mkSleep (sl_list s) (sl_lock s) (sl_irq s) (sl_threads s) n (sl_sched s).
Definition set_sched s (x : S) : sl_sys S := mkSleep (sl_list s) (sl_lock s) (sl_irq s) (sl_threads s) (sl_count s) x.

Definition sl_status (x : sl_tcb) : Z := st_status (sl_sig x).

(** The call of a scheduler, which is [f] at the thread. *)
Definition run_sched (f : S -> Z -> option S) s (thread : Z) : option (sl_sys S) := b ← f (sl_sched s) thread; Some (set_sched s b).

(** [arch_close_interrupt(); spin_lock(sleep_lock); ... spin_unlock(sleep_lock);
    if (int_enable) arch_open_interrupt();] *)
Definition sleep_locked (body : sl_sys S -> option (sl_sys S)) s : option (sl_sys S) :=
  let int_enable := sl_irq s in
  let s := set_irq s false in
  l ← spin_lock (sl_lock s);
  s ← body (set_lock s l);
  let s := set_lock s (spin_unlock (sl_lock s)) in
  Some (if int_enable then set_irq s true else s).

(** The loop of [sleep_remove_task_locked] on the list. *)
Fixpoint sleep_remove_loop (fuel : nat) (c : cow_sys) (thread i : Z) : option (cow_sys * bool) :=
  match fuel with
  | O => None
  | Datatypes.S fuel =>
    if i <? cow_size (cs_list c) then
      '(c, x) ← cow_list_get c i;
      if x =? thread then '(c, _) ← cow_list_remove malloc c i; Some (c, true)
      else sleep_remove_loop fuel c thread (u64 (i + 1))
    else Some (c, false)
  end.

Definition sleep_remove_task_locked s (thread : Z) : option (sl_sys S * bool) :=
  match sl_list s with
  | None => Some (s, false)
  | Some c =>
    '(c, b) ← sleep_remove_loop (Datatypes.S (Z.to_nat (cow_size (cs_list c)))) c thread 0;
    Some (set_list s (Some c), b)
  end.

(** [cow_list_remove(sleep_list, i); thread->sleep_deadline = 0; ...;
    thread->status = T_START; sleep_wake_task(thread);] *)
Definition check_wake s (c : cow_sys) (i thread : Z) (x : sl_tcb) : option (sl_sys S) :=
  '(c, _) ← cow_list_remove malloc c i;
  code ← (if sl_code x =? scheduler_block_pending then
            sig ← signals_pending_quick decisions (sl_sig x);
            Some (if (sig : bool) then - EINTR else ETIMEDOUT)
          else Some (sl_code x));
  run_sched wake (set_tcb (set_list s (Some c)) thread (mkSl (with_status (sl_sig x) T_START) 0 code)) thread.

(** The loop of [scheduler_check_sleep]. *)
Fixpoint check_sleep_loop (fuel : nat) s (now i : Z) : option (sl_sys S) :=
  match fuel with
  | O => None
  | Datatypes.S fuel =>
    c ← sl_list s;
    if i <? cow_size (cs_list c) then
      '(c, thread) ← cow_list_get c i;
      if thread =? 0 then '(c, _) ← cow_list_remove malloc c i; check_sleep_loop fuel (set_list s (Some c)) now i
      else
        x ← sl_threads s !! thread;
        wk ← (if now >=? sl_deadline x then Some true else signals_pending_quick decisions (sl_sig x));
        if (wk : bool) then s ← check_wake s c i thread x; check_sleep_loop fuel s now i
        else check_sleep_loop fuel (set_list s (Some c)) now (u64 (i + 1))
    else Some s
  end.

Definition scheduler_check_sleep s (now : Z) : option (sl_sys S) :=
  match sl_list s with
  | None => Some s
  | Some c =>
    if cow_size (cs_list c) =? 0 then Some s
    else if sl_lock s then Some s
    else
      s ← check_sleep_loop (Datatypes.S (Z.to_nat (cow_size (cs_list c)))) (set_lock s true) now 0;
      Some (set_lock s (spin_unlock (sl_lock s)))
  end.

(** The first half of both calls; [cow_list_add] on NULL is a fault. *)
Definition sleep_begin s (current deadline : Z) : option (sl_sys S) :=
  x ← sl_threads s !! current;
  let s := set_tcb s current (mkSl (with_status (sl_sig x) T_WAIT) deadline scheduler_block_pending) in
  sleep_locked (fun s =>
    c ← sl_list s;
    '(c, _) ← cow_list_add malloc realloc c current;
    run_sched block (set_list s (Some c)) current) s.

Definition sleep_list_create (malloc_ok calloc_ok : bool) s : sl_sys S :=
  match sl_list s with
  | None => set_list s (l ← cow_list_create malloc_ok calloc_ok; Some (mkCs l ∅))
  | Some _ => s
  end.

Definition nano_sleep_begin (malloc_ok calloc_ok : bool) s (current now nano : Z) : option (sl_sys S) :=
  sleep_begin (sleep_list_create malloc_ok calloc_ok s) current (u64 (now + nano)).

(** After [scheduler_yield()]. *)
Definition nano_sleep_end s (current : Z) : option (sl_sys S * Z) :=
  x ← sl_threads s !! current;
  let s := set_tcb s current (mkSl (sl_sig x) (sl_deadline x) 0) in
  if sl_code x =? - EINTR then Some (s, - EINTR)
  else
    sig ← signals_pending_quick decisions (sl_sig x);
    Some (s, if (sig : bool) then - EINTR else 0).

(** The call returns -EINVAL when there is no current task; after the
    yield it returns 0. *)
Definition block_current_begin (malloc_ok calloc_ok : bool) s (current now timeout_ns : Z) : option (sl_sys S * option Z) :=
  let s := sleep_list_create malloc_ok calloc_ok s in
  if current =? 0 then Some (s, Some (- EINVAL))
  else
    s ← sleep_begin s current (if timeout_ns =? UINT64_MAX then UINT64_MAX else u64 (now + timeout_ns));
    Some (s, None).

Definition scheduler_unblock s (thread code : Z) : option (sl_sys S) :=
  if thread =? 0 then Some s
  else
    sleep_locked (fun s =>
      '(s, found) ← sleep_remove_task_locked s thread;
      if (found : bool) then
        x ← sl_threads s !! thread;
        run_sched wake (set_tcb s thread (mkSl (with_status (sl_sig x) T_START) 0 code)) thread
      else Some s) s.

(** ** The end of a thread *)

(** [cpu] is the address of the processor's data; in the branch of a futex,
    [readd] is true for the scheduler that keeps a record of a waiting thread. *)
Definition scheduler_remove_task (readd : bool) s (thread cpu : Z) : option (sl_sys S) :=
  if (thread =? 0) || (cpu =? 0) then Some s
  else if negb (handle (sl_sched s) thread) then Some s
  else
    let s := if sl_count s >? 0 then set_count s (sl_count s - 1) else s in
    x ← sl_threads s !! thread;
    if (sl_status x =? T_WAIT) && negb (sl_deadline x =? 0) then
      let int_enable := sl_irq s in
      let s := set_irq s false in
      l ← spin_lock (sl_lock s);
      '(s, _) ← sleep_remove_task_locked (set_lock s l) thread;
      x ← sl_threads s !! thread;
      let s := set_tcb s thread (mkSl (sl_sig x) 0 (sl_code x)) in
      let s := set_lock s (spin_unlock (sl_lock s)) in
      s ← run_sched wake s thread;
      s ← run_sched remove s thread;
      Some (if int_enable then set_irq s true else s)
    else if sl_status x =? T_FUTEX then
      let int_enable := sl_irq s in
      let s := set_irq s false in
      s ← (if readd then run_sched wake s thread else Some s);
      s ← run_sched remove s thread;
      Some (if int_enable then set_irq s true else s)
    else run_sched remove s thread.

(** [task_exit_lock] is not held. *)
Definition claim_thread_exit s (task : Z) : option (sl_sys S * bool) :=
  x ← sl_threads s !! task;
  if (sl_status x =? T_DEATH) || (sl_status x =? T_OUT) then Some (s, false)
  else Some (set_tcb s task (mkSl (with_status (sl_sig x) T_DEATH) (sl_deadline x) (sl_code x)), true).

(** What [kill_thread] does to the schedulers and to the sleep list: the
    thread identifier in user memory, the futexes and the lists of the process
    are apart from these. *)
Definition kill_thread_sched (readd : bool) s (task cpu : Z) : option (sl_sys S) :=
  if task =? 0 then Some s
  else
    '(s, claimed) ← claim_thread_exit s task;
    if negb claimed then Some s
    else
      s ← (if handle (sl_sched s) task then scheduler_remove_task readd s task cpu else Some s);
      x ← sl_threads s !! task;
      Some (set_tcb s task (mkSl (with_status (sl_sig x) T_OUT) (sl_deadline x) (sl_code x))).
End Code.
