(* ===== verification/SleepSpec.v ===== *)
(** * Sleeping: what the operations do to the sleeping and the runnable threads

    Stated for any scheduler that meets the interface of [FutexSpec]. [due]
    is the reference definition of when a sleep ends. *)

From stdpp Require Import gmap.
From S2P Require Import Prelude Cow CowSpec CowProps Signal SignalProps Futex FutexSpec Sleep.

(** ** When a sleep ends, and how *)

Definition sig_due (x : sl_tcb) : bool := default false (signals_pending_quick decisions (sl_sig x)).
Definition due (now : Z) (x : sl_tcb) : bool := (now >=? sl_deadline x) || sig_due x.

(** A thread after it has been woken by a tick. *)
Definition woken (x : sl_tcb) : sl_tcb :=
  mkSl (with_status (sl_sig x) T_START) 0 (if sl_code x =? scheduler_block_pending then if sig_due x then - EINTR else ETIMEDOUT else sl_code x).

Lemma pending_quick_total t : task_ok t -> exists b, signals_pending_quick decisions t = Some b.
Proof. intros H. destruct (pending_loop_ok decisions decisions_len 32 t 1 H) as (b & E & _); [lia|done|]. exists b. exact E. Qed.

#[local] Opaque signals_pending_quick decisions.

Lemma task_ok_status t st : task_ok t -> task_ok (with_status t st).
Proof. intros []. by split. Qed.

(** The element behind [A]. *)
Lemma zget_middle (A B : list Z) t : zget (A ++ t :: B) (zlen A) = Some t.
Proof. rewrite zget_app_r by lia. by rewrite Z.sub_diag. Qed.

Lemma delete_middle_zlen (A B : list Z) t : delete (Z.to_nat (zlen A)) (A ++ t :: B) = A ++ B.
Proof. unfold zlen. by rewrite Nat2Z.id, delete_middle. Qed.

Lemma filter_ne_id (t : Z) (L : list Z) : (t ∉ L) -> filter (fun u => u <> t) L = L.
Proof. induction L as [|u L IH]; intros Hn; [done|]. rewrite filter_cons_True by set_solver. rewrite IH by set_solver. done. Qed.

Section Props.
Context {S : Type} {block wake : S -> Z -> option S} {HS : Scheduler block wake}.
Context (malloc : gmap Z cow_block -> Z) {HA : BlockAllocator malloc}.
Implicit Types (s : sl_sys S) (K R : gset Z) (L : list Z).

(** The list, NULL before the first sleep. *)
Definition list_is s L : Prop := match sl_list s with None => L = [] | Some c => cow_rep c L end.

(** The sleeping threads [L] and the runnable ones [R] are the threads [K]. *)
Record sleep_ok s L K R : Prop := mkSlOk {
  ok_list : list_is s L;
  ok_lock : sl_lock s = false;
  ok_runs : runs (sl_sched s) K R;
  ok_nodup : NoDup L;
  ok_asleep : forall t, t ∈ L <-> t ∈ K /\ (t ∉ R);
  ok_tcb : forall t, t ∈ K -> exists x, sl_threads s !! t = Some x /\ task_ok (sl_sig x);
}.

(** The threads are given to the scheduler one after the other. *)
Definition wake_all (b : S) (ts : list Z) : option S := foldl (fun o t => b ← o; wake b t) (Some b) ts.

Lemma wake_all_cons b b' t ts : wake b t = Some b' -> wake_all b (t :: ts) = wake_all b' ts.
Proof. intros E. unfold wake_all. simpl. by rewrite E. Qed.

(** ** The tick *)

Lemma set_list_same s c : sl_list s = Some c -> set_list s (Some c) = s.
Proof. intros E. destruct s. simpl in *. by subst. Qed.

Lemma check_wake_ok s c A t B K R x :
  cow_rep c (A ++ t :: B) -> runs (sl_sched s) K R -> t ∈ K -> (t ∉ R) -> task_ok (sl_sig x) ->
  exists s' c', check_wake wake malloc decisions s c (zlen A) t x = Some s' /\ sl_list s' = Some c' /\ cow_rep c' (A ++ B) /\
    runs (sl_sched s') K (R ∪ {[t]}) /\ wake (sl_sched s) t = Some (sl_sched s') /\ sl_threads s' = <[t := woken x]> (sl_threads s) /\
    sl_lock s' = sl_lock s /\ sl_irq s' = sl_irq s /\ sl_count s' = sl_count s.
Proof.
  intros Hc Hr Ht HtR Hx. unfold check_wake. destruct (remove_spec malloc c _ (zlen A) Hc (zlen_nonneg A)) as (c' & -> & Hc'). cbn [mbind option_bind].
  destruct (pending_quick_total _ Hx) as [b Eb]. assert (sig_due x = b) as Hb by (unfold sig_due; by rewrite Eb).
  rewrite Eb. cbn [mbind option_bind]. destruct (wake_runs _ _ _ t Hr Ht HtR) as (b' & Ew & Hr').
  rewrite delete_middle_zlen in Hc'. unfold woken. rewrite Hb.
  destruct (sl_code x =? scheduler_block_pending); cbn [mbind option_bind]; unfold run_sched; cbn [set_tcb set_list sl_sched]; rewrite Ew; cbn [mbind option_bind];
    eexists _, c'; (split; [done|]); by split_and!.
Qed.

Lemma tick_loop_ok now (D : Z -> bool) B : forall fuel s A K R c,
  sl_list s = Some c -> cow_rep c (A ++ B) -> runs (sl_sched s) K R -> NoDup B -> (forall t, t ∈ B -> t ∈ K /\ (t ∉ R)) ->
  (forall t, t ∈ B -> exists x, sl_threads s !! t = Some x /\ task_ok (sl_sig x) /\ due now x = D t) -> (length B < fuel)%nat ->
  exists s' c', check_sleep_loop wake malloc decisions fuel s now (zlen A) = Some s' /\ sl_list s' = Some c' /\ cow_rep c' (A ++ filter (fun t => D t = false) B) /\
    runs (sl_sched s') K (R ∪ list_to_set (filter (fun t => D t = true) B)) /\ wake_all (sl_sched s) (filter (fun t => D t = true) B) = Some (sl_sched s') /\
    (forall t, sl_threads s' !! t = (fun x => if bool_decide (t ∈ B) && D t then woken x else x) <$> sl_threads s !! t) /\
    sl_lock s' = sl_lock s /\ sl_irq s' = sl_irq s /\ sl_count s' = sl_count s.
Proof.
  induction B as [|t B IH]; intros fuel s A K R c Hl Hc Hr N Hm Hx Hf; (destruct fuel as [|fuel]; [simpl in Hf; lia|]);
    cbn [check_sleep_loop]; rewrite Hl; cbn [mbind option_bind]; rewrite (cr_size _ _ Hc).
  { rewrite app_nil_r, (proj2 (Z.ltb_ge _ _)) by done. exists s, c. rewrite app_nil_r in Hc. rewrite !filter_nil, app_nil_r, list_to_set_nil, union_empty_r_L. split_and!; try done.
    intros t. rewrite bool_decide_false by set_solver. simpl. by destruct (sl_threads s !! t). }
  rewrite (proj2 (Z.ltb_lt _ _)) by (rewrite zlen_app, zlen_cons; pose proof (zlen_nonneg B); lia).
  rewrite (get_spec _ _ _ Hc (zlen_nonneg A)), zget_middle. cbn [mbind option_bind]. change (default 0 (Some t)) with t.
  destruct (Hm t) as [HtK HtR]; [set_solver|]. destruct (runs_known _ _ _ Hr) as (_ & H0 & _). rewrite (proj2 (Z.eqb_neq t 0)) by congruence.
  destruct (Hx t) as (x & Hxt & Hok & HD); [set_solver|]. rewrite Hxt. cbn [mbind option_bind]. apply NoDup_cons in N as [Nt N].
  destruct (pending_quick_total _ Hok) as [b Eb]. unfold due, sig_due in HD. rewrite Eb in HD. simpl in HD.
  assert ((if now >=? sl_deadline x then Some true else signals_pending_quick decisions (sl_sig x)) = Some (D t)) as ->.
  { rewrite <- HD, Eb. by destruct (now >=? sl_deadline x). }
  cbn [mbind option_bind]. destruct (D t) eqn:HDt.
  - destruct (check_wake_ok s c A t B K R x Hc Hr HtK HtR Hok) as (s1 & c1 & -> & Hl1 & Hc1 & Hr1 & Hw1 & Ht1 & Hk1 & Hi1 & Hn1). cbn [mbind option_bind].
    destruct (IH fuel s1 A K (R ∪ {[t]}) c1 Hl1 Hc1 Hr1 N) as (s' & c' & E' & Hl' & Hc' & Hr' & Hw' & Ht' & Hk' & Hi' & Hn'); [| |simpl in Hf; lia|].
    { intros u Hu. destruct (Hm u) as [? ?]; [set_solver|]. split; [done|]. assert (u <> t) by congruence. set_solver. }
    { intros u Hu. rewrite Ht1, lookup_insert_ne by congruence. apply Hx. set_solver. }
    exists s', c'. rewrite filter_cons_False by congruence. rewrite filter_cons_True by done. rewrite (wake_all_cons _ _ _ _ Hw1). split_and!; try done; try congruence.
    + simpl. by rewrite (union_assoc_L R).
    + intros u. rewrite Ht', Ht1. destruct (decide (u = t)) as [->|Hne].
      * rewrite lookup_insert_eq, Hxt. simpl. rewrite bool_decide_false by done. rewrite bool_decide_true by set_solver. by rewrite HDt.
      * rewrite lookup_insert_ne by done. assert (bool_decide (u ∈ t :: B) = bool_decide (u ∈ B)) as -> by (apply bool_decide_ext; set_solver). done.
  - rewrite set_list_same by done. pose proof (cr_small _ _ Hc) as Hsm. rewrite zlen_app, zlen_cons in Hsm. pose proof (zlen_nonneg A). pose proof (zlen_nonneg B).
    rewrite u64_id by lia. replace (zlen A + 1) with (zlen (A ++ [t])) by (rewrite zlen_app; done).
    destruct (IH fuel s (A ++ [t]) K R c Hl) as (s' & c' & E' & Hl' & Hc' & Hr' & Hw' & Ht' & Hk' & Hi' & Hn'); [by rewrite <- app_assoc|done|done| | |simpl in Hf; lia|].
    { intros u Hu. apply Hm. set_solver. }
    { intros u Hu. apply Hx. set_solver. }
    exists s', c'. rewrite filter_cons_True by done. rewrite filter_cons_False by congruence. rewrite <- app_assoc in Hc'. split_and!; try done.
    intros u. rewrite Ht'. destruct (decide (u = t)) as [->|Hne]; [by rewrite HDt, !andb_false_r|].
    assert (bool_decide (u ∈ t :: B) = bool_decide (u ∈ B)) as -> by (apply bool_decide_ext; set_solver). done.
Qed.

(** Whether the sleep of a thread ends at a tick. *)
Definition ends s (now t : Z) : bool := match sl_threads s !! t with Some x => due now x | None => false end.

(** What a tick leaves asleep and what it wakes. *)
Definition still s (now : Z) L : list Z := filter (fun t => ends s now t = false) L.
Definition over s (now : Z) L : list Z := filter (fun t => ends s now t = true) L.

Lemma lock_same s : sl_lock s = false -> set_lock s false = s.
Proof. intros E. destruct s. simpl in *. by subst. Qed.

(** A state with the same threads asleep in all but names. *)
Lemma sleep_ok_tcb s s' L L' K R R' :
  sleep_ok s L K R -> list_is s' L' -> sl_lock s' = false -> runs (sl_sched s') K R' -> NoDup L' -> (forall t, t ∈ L' <-> t ∈ K /\ (t ∉ R')) ->
  (forall t x, sl_threads s !! t = Some x -> task_ok (sl_sig x) -> exists y, sl_threads s' !! t = Some y /\ task_ok (sl_sig y)) -> sleep_ok s' L' K R'.
Proof.
  intros [_ _ _ _ _ Hx] Hl Hk Hr N Ha Ht. split; try done. intros t HtK. destruct (Hx t HtK) as (x & E & Hok). by eapply Ht.
Qed.

Lemma tick_ok s L K R now :
  sleep_ok s L K R ->
  exists s', scheduler_check_sleep wake malloc decisions s now = Some s' /\ sleep_ok s' (still s now L) K (R ∪ list_to_set (over s now L)) /\
    wake_all (sl_sched s) (over s now L) = Some (sl_sched s') /\ (sl_irq s' = sl_irq s /\ sl_count s' = sl_count s) /\
    (forall t, sl_threads s' !! t = (fun x => if bool_decide (t ∈ L) && ends s now t then woken x else x) <$> sl_threads s !! t).
Proof.
  intros Hs. pose proof Hs as [Hl Hk Hr N Ha Hx]. unfold scheduler_check_sleep. unfold list_is in Hl.
  assert (L = [] -> exists s', Some s = Some s' /\ sleep_ok s' (still s now L) K (R ∪ list_to_set (over s now L)) /\
    wake_all (sl_sched s) (over s now L) = Some (sl_sched s') /\ (sl_irq s' = sl_irq s /\ sl_count s' = sl_count s) /\
    (forall t, sl_threads s' !! t = (fun x => if bool_decide (t ∈ L) && ends s now t then woken x else x) <$> sl_threads s !! t)) as Hnil.
  { intros ->. exists s. unfold still, over. rewrite !filter_nil, list_to_set_nil, union_empty_r_L. split_and!; try done.
    intros t. rewrite bool_decide_false by set_solver. simpl. by destruct (sl_threads s !! t). }
  destruct (sl_list s) as [c|] eqn:El; [|by apply Hnil]. rewrite (cr_size _ _ Hl). destruct (Z.eqb_spec (zlen L) 0) as [E0|E0]; [apply Hnil; destruct L; [done|by rewrite zlen_cons in E0; pose proof (zlen_nonneg L); lia]|].
  rewrite Hk. destruct (tick_loop_ok now (ends s now) L (Datatypes.S (Z.to_nat (zlen L))) (set_lock s true) [] K R c El Hl Hr N) as (s' & c' & E' & Hl' & Hc' & Hr' & Hw' & Ht' & Hk' & Hi' & Hn').
  { intros t Ht. by apply Ha. }
  { intros t [HtK _]%Ha. destruct (Hx t HtK) as (x & E & Hok). exists x. split; [done|]. split; [done|]. unfold ends. by rewrite E. }
  { unfold zlen. lia. }
  change (zlen (@nil Z)) with 0 in E'. rewrite E'. cbn [mbind option_bind]. eexists. split; [done|]. unfold spin_unlock. split; [|done].
  eapply (sleep_ok_tcb s); try done; simpl.
  - unfold list_is. simpl. by rewrite Hl'.
  - by apply NoDup_filter.
  - intros t. rewrite elem_of_union, elem_of_list_to_set. unfold still, over. rewrite !list_elem_of_filter, Ha. destruct (ends s now t); naive_solver.
  - intros t x E Hok. rewrite Ht'. simpl. rewrite E. simpl. eexists. split; [done|]. destruct (bool_decide (t ∈ L) && ends s now t); [by apply task_ok_status|done].
Qed.

(** ** Being woken *)

Lemma remove_loop_ok t B : forall fuel c A,
  cow_rep c (A ++ B) -> (t ∉ A) -> NoDup B -> (length B < fuel)%nat ->
  exists c', sleep_remove_loop malloc fuel c t (zlen A) = Some (c', bool_decide (t ∈ B)) /\ cow_rep c' (A ++ filter (fun u => u <> t) B).
Proof.
  induction B as [|u B IH]; intros fuel c A Hc HA' N Hf; (destruct fuel as [|fuel]; [simpl in Hf; lia|]); cbn [sleep_remove_loop]; rewrite (cr_size _ _ Hc).
  { rewrite app_nil_r in *. rewrite (proj2 (Z.ltb_ge _ _)) by done. exists c. rewrite filter_nil, app_nil_r, bool_decide_false by set_solver. done. }
  rewrite (proj2 (Z.ltb_lt _ _)) by (rewrite zlen_app, zlen_cons; pose proof (zlen_nonneg B); lia).
  rewrite (get_spec _ _ _ Hc (zlen_nonneg A)), zget_middle. cbn [mbind option_bind]. change (default 0 (Some u)) with u. apply NoDup_cons in N as [Nu N].
  destruct (Z.eqb_spec u t) as [->|Hne].
  - destruct (remove_spec malloc c _ (zlen A) Hc (zlen_nonneg A)) as (c' & -> & Hc'). cbn [mbind option_bind]. rewrite delete_middle_zlen in Hc'.
    exists c'. rewrite bool_decide_true by set_solver. split; [done|]. rewrite filter_cons_False by naive_solver.
    by rewrite filter_ne_id.
  - pose proof (cr_small _ _ Hc) as Hsm. rewrite zlen_app, zlen_cons in Hsm. pose proof (zlen_nonneg A). pose proof (zlen_nonneg B).
    rewrite u64_id by lia. replace (zlen A + 1) with (zlen (A ++ [u])) by (rewrite zlen_app; done).
    destruct (IH fuel c (A ++ [u])) as (c' & -> & Hc'); [by rewrite <- app_assoc|set_solver|done|simpl in Hf; lia|].
    exists c'. rewrite filter_cons_True by done. rewrite <- app_assoc in Hc'. split; [|done]. do 2 f_equal. apply bool_decide_ext. set_solver.
Qed.

Lemma list_remove_ok s L t :
  list_is s L -> NoDup L -> exists l', sleep_remove_task_locked malloc s t = Some (set_list s l', bool_decide (t ∈ L)) /\ list_is (set_list s l') (filter (fun u => u <> t) L).
Proof.
  unfold list_is, sleep_remove_task_locked. destruct (sl_list s) as [c|] eqn:E.
  - intros Hc N. rewrite (cr_size _ _ Hc). destruct (remove_loop_ok t L (Datatypes.S (Z.to_nat (zlen L))) c [] Hc) as (c' & E' & Hc'); [set_solver|done|unfold zlen; lia|].
    change (zlen (@nil Z)) with 0 in E'. rewrite E'. cbn [mbind option_bind]. by exists (Some c').
  - intros -> _. exists None. rewrite bool_decide_false by set_solver. split; [|done]. f_equal. f_equal. destruct s. simpl in *. by subst.
Qed.

(** Under the lock, with interrupts closed, and back. *)
Lemma locked_ok (body : sl_sys S -> option (sl_sys S)) s s' :
  sl_lock s = false -> body (set_lock (set_irq s false) true) = Some s' -> sl_irq s' = false ->
  sleep_locked body s = Some (set_irq (set_lock s' false) (sl_irq s)).
Proof. intros Hk Hb Hi. unfold sleep_locked. simpl. rewrite Hk. cbn [spin_lock mbind option_bind]. rewrite Hb. cbn [mbind option_bind]. destruct (sl_irq s); destruct s'; simpl in *; by subst. Qed.

Lemma unblock_ok s L K R t code :
  sleep_ok s L K R ->
  exists s', scheduler_unblock wake malloc s t code = Some s' /\ sleep_ok s' (filter (fun u => u <> t) L) K (if decide (t ∈ L) then R ∪ {[t]} else R) /\ sl_irq s' = sl_irq s /\
    sl_threads s' = (if decide (t ∈ L) then alter (fun x => mkSl (with_status (sl_sig x) T_START) 0 code) t (sl_threads s) else sl_threads s).
Proof.
  intros Hs. pose proof Hs as [Hl Hk Hr N Ha Hx]. unfold scheduler_unblock. destruct (runs_known _ _ _ Hr) as (_ & H0 & _).
  assert (t = 0 -> t ∉ L) as Ht0 by (intros -> [? _]%Ha; done).
  assert ((t ∉ L) -> filter (fun u => u <> t) L = L) as Hall by apply filter_ne_id.
  destruct (Z.eqb_spec t 0) as [Et|Et]; [exists s; rewrite !decide_False, Hall by auto; done|].
  destruct (list_remove_ok (set_lock (set_irq s false) true) L t Hl N) as (l' & El & Hl'). destruct (decide (t ∈ L)) as [Hin|Hn].
  - destruct (proj1 (Ha t) Hin) as [HtK HtR]. destruct (Hx t HtK) as (x & Ex & Hok). destruct (wake_runs _ _ _ t Hr HtK HtR) as (b & Eb & Hr').
    erewrite locked_ok; [|done| |]; cycle 1.
    { rewrite El, bool_decide_true by done. cbn [mbind option_bind]. simpl. rewrite Ex. cbn [mbind option_bind]. unfold run_sched. simpl. rewrite Eb. cbn [mbind option_bind]. done. }
    { done. }
    eexists. split; [done|]. simpl. split; [|split; [done|]].
    + eapply (sleep_ok_tcb s); try done; simpl; [by apply NoDup_filter| |].
      * intros u. rewrite list_elem_of_filter, Ha, not_elem_of_union, not_elem_of_singleton. naive_solver.
      * intros u y Ey Hoy. destruct (decide (u = t)) as [->|]; [rewrite lookup_insert_eq; eexists; split; [done|]; by apply task_ok_status|]. rewrite lookup_insert_ne by done. eauto.
    + apply map_eq. intros u. destruct (decide (u = t)) as [->|]; [by rewrite lookup_insert_eq, lookup_alter_eq, Ex|by rewrite lookup_insert_ne, lookup_alter_ne].
  - erewrite locked_ok; [|done| |]; cycle 1.
    { rewrite El, bool_decide_false by done. cbn [mbind option_bind]. done. }
    { done. }
    eexists. split; [done|]. rewrite Hall in * by done. simpl. split; [|done]. eapply (sleep_ok_tcb s); try done; simpl; eauto.
Qed.

(** ** Going to sleep *)

Context (realloc : list Z -> Z -> option (list Z)) {HR : Reallocator realloc}.

(** The list can grow. *)
Definition list_room s : Prop := forall c, sl_list s = Some c -> blocks_capacity (cs_list c) < 2 ^ 59.

Lemma asleep_small s L K R : sleep_ok s L K R -> zlen L < 2 ^ 60.
Proof.
  intros [_ _ Hr N Ha _]. destruct (runs_known _ _ _ Hr) as (_ & _ & Hsz). assert ((list_to_set L : gset Z) ⊆ K) as Hsub.
  { intros t [? _]%elem_of_list_to_set%Ha. done. }
  apply subseteq_size in Hsub. rewrite size_list_to_set in Hsub by done. unfold zlen. lia.
Qed.

Lemma sleep_create_ok s L : list_is s L -> list_room s -> exists c, sl_list (sleep_list_create true true s) = Some c /\ cow_rep c L /\ blocks_capacity (cs_list c) < 2 ^ 59.
Proof.
  unfold list_is, list_room, sleep_list_create. destruct (sl_list s) as [c|] eqn:E.
  - intros Hc Hroom. exists c. rewrite E. split_and!; auto.
  - intros -> _. destruct (cow_create_spec ∅) as (c & Ec & Hc). rewrite Ec. exists (mkCs c ∅). split; [done|]. split; [done|]. injection Ec as <-. done.
Qed.

Lemma begin_ok s L K R t deadline :
  sleep_ok s L K R -> t ∈ R -> list_room s -> sched_room (sl_sched s) ->
  exists s' x, sleep_begin block malloc realloc (sleep_list_create true true s) t deadline = Some s' /\ sleep_ok s' (L ++ [t]) K (R ∖ {[t]}) /\
    sl_threads s !! t = Some x /\ sl_threads s' = <[t := mkSl (with_status (sl_sig x) T_WAIT) deadline scheduler_block_pending]> (sl_threads s) /\ sl_irq s' = sl_irq s.
Proof.
  intros Hs HtR Hroom Hsr. pose proof Hs as [Hl Hk Hr N Ha Hx]. pose proof (asleep_small _ _ _ _ Hs) as Hsm. destruct (runs_known _ _ _ Hr) as (Hsub & _).
  destruct (sleep_create_ok s L Hl Hroom) as (c & Ec & Hc & Hcap). set (s0 := sleep_list_create true true s) in *.
  assert (sl_threads s0 = sl_threads s /\ sl_lock s0 = false /\ sl_irq s0 = sl_irq s /\ sl_sched s0 = sl_sched s) as (T0 & K0 & I0 & C0) by (unfold s0, sleep_list_create; destruct (sl_list s); done).
  destruct (Hx t (Hsub _ HtR)) as (x & Ex & Hok). destruct (block_runs _ _ _ t Hr HtR Hsr) as (b & Eb & Hr').
  destruct (add_spec malloc realloc c L t Hc Hcap) as (c' & Ea & Hc'); [lia|]. unfold sleep_begin. rewrite T0, Ex. cbn [mbind option_bind].
  erewrite locked_ok; [|done| |]; cycle 1.
  { simpl. rewrite Ec. cbn [mbind option_bind]. rewrite Ea. cbn [mbind option_bind]. unfold run_sched. simpl. rewrite C0, Eb. cbn [mbind option_bind]. done. }
  { done. }
  eexists _, x. split; [done|]. simpl. rewrite T0, I0. split; [|done].
  assert (t ∉ L) as HtL by (intros [_ ?]%Ha; done).
  eapply (sleep_ok_tcb s); try done; simpl.
  - apply NoDup_app. split_and!; [done|set_solver|apply NoDup_singleton].
  - intros u. rewrite elem_of_app, list_elem_of_singleton, Ha, elem_of_difference, elem_of_singleton. pose proof (Hsub u). destruct (decide (u = t)) as [->|]; naive_solver.
  - intros u y Ey Hoy. rewrite T0. destruct (decide (u = t)) as [->|]; [rewrite lookup_insert_eq; eexists; split; [done|]; by apply task_ok_status|]. rewrite lookup_insert_ne by done. eauto.
Qed.

(** The signals of a thread change: one is sent, taken, blocked. *)
Lemma signals_ok s L K R t x sig :
  sleep_ok s L K R -> sl_threads s !! t = Some x -> task_ok sig -> sleep_ok (set_tcb s t (mkSl sig (sl_deadline x) (sl_code x))) L K R.
Proof.
  intros Hs Ex Hok. pose proof Hs as [Hl Hk Hr N Ha Hx]. eapply (sleep_ok_tcb s); try done. intros u y Ey Hoy. simpl.
  destruct (decide (u = t)) as [->|]; [rewrite lookup_insert_eq; eauto|]. rewrite lookup_insert_ne by done. eauto.
Qed.
End Props.
