(* ===== verification/SleepProps.v ===== *)
(** * Sleeping: what it promises, and what the end of a thread breaks *)

From stdpp Require Import gmap.
From S2P Require Import Prelude Fresh Map Cow CowSpec CowProps LList LListSpec Rrs RrsProps Signal SignalProps Futex FutexSpec FutexSched FutexProps Sleep SleepSpec.

(** The status is no signal. *)
Lemma pending_loop_status d n t st u : forall i, pending_loop d n (with_status t st) u i = pending_loop d n t u i.
Proof. induction n as [|n IH]; intros i; [done|]. cbn [pending_loop]. rewrite !IH. done. Qed.

Lemma pending_quick_status d t st : signals_pending_quick d (with_status t st) = signals_pending_quick d t.
Proof. apply pending_loop_status. Qed.

#[local] Opaque signals_pending_quick decisions.

Section Props.
Context {S : Type} {block wake : S -> Z -> option S} {HS : Scheduler block wake}.
Context (malloc : gmap Z cow_block -> Z) {HA : BlockAllocator malloc}.
Implicit Types (s : sl_sys S) (K R : gset Z) (L : list Z).

(** C20: a tick of the timer wakes exactly the sleeping threads whose deadline has passed or that have a signal to take, in the order in which they went to sleep, marks them with the reason, and leaves all others asleep in their order. *)
Theorem check_sleep_correct s L K R now :
  sleep_ok s L K R ->
  exists s', scheduler_check_sleep wake malloc decisions s now = Some s' /\ sleep_ok s' (still s now L) K (R ∪ list_to_set (over s now L)) /\
    wake_all (wake := wake) (sl_sched s) (over s now L) = Some (sl_sched s') /\
    (forall t, sl_threads s' !! t = (fun x => if bool_decide (t ∈ L) && ends s now t then woken x else x) <$> sl_threads s !! t).
Proof. intros Hs. destruct (tick_ok malloc s L K R now Hs) as (s' & E & H1 & H2 & _ & H3). eauto 10. Qed.

Context (realloc : list Z -> Z -> option (list Z)) {HR : Reallocator realloc}.

(** A thread that went to sleep with a code still pending, at the next tick. *)
Lemma sleep_end_ok s L K R t x later :
  sleep_ok s L K R -> t ∈ L -> sl_threads s !! t = Some x -> sl_code x = scheduler_block_pending ->
  exists s' L' R', scheduler_check_sleep wake malloc decisions s later = Some s' /\ sleep_ok s' L' K R' /\
    if due later x then t ∈ R' /\ exists s2, nano_sleep_end decisions s' t = Some (s2, if sig_due x then - EINTR else 0)
    else t ∈ L' /\ sl_threads s' !! t = Some x.
Proof.
  intros Hs Ht Ex Hcode. destruct (tick_ok malloc s L K R later Hs) as (s' & E & Hs' & _ & _ & Hth). eexists s', _, _. split; [done|]. split; [done|].
  specialize (Hth t). rewrite Ex in Hth. simpl in Hth. rewrite bool_decide_true in Hth by done. unfold ends in Hth. rewrite Ex in Hth. simpl in Hth.
  assert (ends s later t = due later x) as He by (unfold ends; by rewrite Ex).
  destruct (due later x).
  - split; [apply elem_of_union_r, elem_of_list_to_set, list_elem_of_filter; done|]. unfold nano_sleep_end. rewrite Hth. cbn [mbind option_bind]. unfold woken. rewrite Hcode. simpl. rewrite pending_quick_status.
    destruct (proj1 (ok_asleep _ _ _ _ Hs t) Ht) as [HtK _]. destruct (ok_tcb _ _ _ _ Hs t HtK) as (x' & Ex' & Hok). assert (x' = x) as -> by congruence.
    destruct (pending_quick_total _ Hok) as [b Eb]. unfold sig_due. rewrite Eb. simpl. destruct b; eauto.
  - split; [|done]. apply list_elem_of_filter. done.
Qed.

(** C21: a thread that calls nanosleep leaves the run queue; a tick before its time leaves it asleep unless it has a signal to take, and the first tick at or after its time makes it runnable again; the call then returns 0, or -EINTR when there is a signal. *)
Theorem nano_sleep_correct s L K R t x now nano :
  sleep_ok s L K R -> t ∈ R -> list_room s -> sched_room (sl_sched s) -> 0 <= now + nano < two64 -> sl_threads s !! t = Some x ->
  exists s1, nano_sleep_begin block malloc realloc true true s t now nano = Some s1 /\ sleep_ok s1 (L ++ [t]) K (R ∖ {[t]}) /\ sl_irq s1 = sl_irq s /\
    forall later, exists s2 L2 R2, scheduler_check_sleep wake malloc decisions s1 later = Some s2 /\ sleep_ok s2 L2 K R2 /\
      if (later >=? now + nano) || sig_due x then t ∈ R2 /\ exists s3, nano_sleep_end decisions s2 t = Some (s3, if sig_due x then - EINTR else 0)
      else t ∈ L2.
Proof.
  intros Hs HtR Hroom Hsr Hb Ex. unfold nano_sleep_begin. rewrite u64_id by lia.
  destruct (begin_ok malloc realloc s L K R t (now + nano) Hs HtR Hroom Hsr) as (s1 & x' & E1 & Hs1 & Ex' & Ht1 & Hi). assert (x' = x) as -> by congruence.
  exists s1. split_and!; try done. intros later. set (y := mkSl (with_status (sl_sig x) T_WAIT) (now + nano) scheduler_block_pending) in *.
  destruct (sleep_end_ok s1 _ K _ t y later Hs1) as (s2 & L2 & R2 & E2 & Hs2 & Hr); [set_solver|by rewrite Ht1, lookup_insert_eq|done|].
  exists s2, L2, R2. split; [done|]. split; [done|]. assert (sig_due y = sig_due x) as Esig by (unfold sig_due, y; simpl; by rewrite pending_quick_status).
  unfold due in Hr. rewrite Esig in Hr. simpl in Hr. destruct ((later >=? now + nano) || sig_due x); [done|by destruct Hr].
Qed.

(** ** No thread is lost *)

(** The steps of the threads [K]. *)
Inductive sl_reach K : sl_sys S -> Prop :=
  | sl_start s :
      sl_list s = None -> sl_lock s = false -> runs (sl_sched s) K K -> (forall t, t ∈ K -> exists x, sl_threads s !! t = Some x /\ task_ok (sl_sig x)) -> sl_reach K s
  | sl_nano s R t now nano s' :
      sl_reach K s -> runs (sl_sched s) K R -> t ∈ R -> list_room s -> sched_room (sl_sched s) -> nano_sleep_begin block malloc realloc true true s t now nano = Some s' -> sl_reach K s'
  | sl_return s t s' r : sl_reach K s -> nano_sleep_end decisions s t = Some (s', r) -> sl_reach K s'
  | sl_block s R t now timeout s' r :
      sl_reach K s -> runs (sl_sched s) K R -> t ∈ R -> list_room s -> sched_room (sl_sched s) -> block_current_begin block malloc realloc true true s t now timeout = Some (s', r) -> sl_reach K s'
  | sl_unblock s t code s' : sl_reach K s -> scheduler_unblock wake malloc s t code = Some s' -> sl_reach K s'
  | sl_tick s now s' : sl_reach K s -> scheduler_check_sleep wake malloc decisions s now = Some s' -> sl_reach K s'
  | sl_signal s t x sig : sl_reach K s -> sl_threads s !! t = Some x -> task_ok sig -> sl_reach K (set_tcb s t (mkSl sig (sl_deadline x) (sl_code x))).

Lemma return_ok s L K R t s' r : sleep_ok s L K R -> nano_sleep_end decisions s t = Some (s', r) -> sleep_ok s' L K R.
Proof.
  intros Hs E. unfold nano_sleep_end in E. destruct (sl_threads s !! t) as [x|] eqn:Ex; [|done]. cbn [mbind option_bind] in E.
  assert (s' = set_tcb s t (mkSl (sl_sig x) (sl_deadline x) 0)) as ->.
  { destruct (sl_code x =? - EINTR); [by injection E as <- _|]. destruct (signals_pending_quick decisions (sl_sig x)); [|done]. by injection E as <- _. }
  pose proof Hs as [Hl Hk Hr N Ha _]. eapply (sleep_ok_tcb s); try done. intros u y Ey Hy. simpl.
  destruct (decide (u = t)) as [->|]; [rewrite lookup_insert_eq; assert (y = x) as -> by congruence; eauto|]. rewrite lookup_insert_ne by done. eauto.
Qed.

Lemma block_current_ok s L K R t now timeout :
  sleep_ok s L K R -> t ∈ R -> list_room s -> sched_room (sl_sched s) ->
  exists s', block_current_begin block malloc realloc true true s t now timeout = Some (s', None) /\ sleep_ok s' (L ++ [t]) K (R ∖ {[t]}).
Proof.
  intros Hs HtR Hroom Hsr. destruct (runs_known _ _ _ (ok_runs _ _ _ _ Hs)) as (Hsub & H0 & _). unfold block_current_begin.
  rewrite (proj2 (Z.eqb_neq t 0)) by (intros ->; apply H0; by apply Hsub).
  destruct (begin_ok malloc realloc s L K R t (if timeout =? UINT64_MAX then UINT64_MAX else u64 (now + timeout)) Hs HtR Hroom Hsr) as (s1 & x' & -> & Hs1 & _). cbn [mbind option_bind]. eauto.
Qed.

Lemma reach_sleep K s : sl_reach K s -> exists L R, sleep_ok s L K R.
Proof.
  induction 1 as [s Hl Hk Hr Hx|s R t now nano s' _ (L & R' & Hs) Hr Ht Hroom Hsr E|s t s' r _ (L & R & Hs) E|s R t now timeout s' r _ (L & R' & Hs) Hr Ht Hroom Hsr E|s t code s' _ (L & R & Hs) E|s now s' _ (L & R & Hs) E|s t x sig _ (L & R & Hs) Ex Hok].
  - exists [], K. split; try done; [unfold list_is; by rewrite Hl|constructor|]. intros t. split; [set_solver|naive_solver].
  - assert (R' = R) as -> by (eapply runs_det; [apply (ok_runs _ _ _ _ Hs)|done]).
    destruct (begin_ok malloc realloc s L K R t (u64 (now + nano)) Hs Ht Hroom Hsr) as (s1 & x & E1 & H1 & _). unfold nano_sleep_begin in E. rewrite E in E1. injection E1 as <-. eauto.
  - exists L, R. by eapply return_ok.
  - assert (R' = R) as -> by (eapply runs_det; [apply (ok_runs _ _ _ _ Hs)|done]).
    destruct (block_current_ok s L K R t now timeout Hs Ht Hroom Hsr) as (s1 & E1 & H1). rewrite E in E1. injection E1 as <- _. eauto.
  - destruct (unblock_ok malloc s L K R t code Hs) as (s1 & E1 & H1 & _). rewrite E in E1. injection E1 as <-. eauto.
  - destruct (tick_ok malloc s L K R now Hs) as (s1 & E1 & H1 & _). rewrite E in E1. injection E1 as <-. eauto.
  - exists L, R. by apply signals_ok.
Qed.

(** C22: whatever threads go to sleep, are unblocked, get signals or are woken by ticks, each is either runnable or on the sleep list, once, and never both; the lock is free after every step, and ticks and wake-ups never fault. *)
Theorem sleep_conserves K s :
  sl_reach K s ->
  exists L R, list_is s L /\ runs (sl_sched s) K R /\ NoDup L /\ (forall t, t ∈ L <-> t ∈ K /\ (t ∉ R)) /\ sl_lock s = false /\
    (forall now, is_Some (scheduler_check_sleep wake malloc decisions s now)) /\ (forall t code, is_Some (scheduler_unblock wake malloc s t code)).
Proof.
  intros (L & R & Hs)%reach_sleep. exists L, R. pose proof Hs as [Hl Hk Hr N Ha Hx]. split_and!; try done.
  - intros now. destruct (tick_ok malloc s L K R now Hs) as (? & -> & _). eauto.
  - intros t code. destruct (unblock_ok malloc s L K R t code Hs) as (? & -> & _). eauto.
Qed.

End Props.

(** ** The end of a thread *)

Section Kill.
Context {S : Type} {wake : S -> Z -> option S}.
Context (malloc : gmap Z cow_block -> Z) {HA : BlockAllocator malloc}.
Implicit Types (s : sl_sys S) (L : list Z).

(** A tick reads every thread of the list. *)
Lemma tick_reads now B : forall fuel s s' A c,
  sl_list s = Some c -> cow_rep c (A ++ B) -> check_sleep_loop wake malloc decisions fuel s now (zlen A) = Some s' -> forall t, t ∈ B -> t <> 0 -> is_Some (sl_threads s !! t).
Proof.
  induction B as [|u B IH]; intros fuel s s' A c Hl Hc E t Ht Ht0; [set_solver|]. destruct fuel as [|fuel]; [done|]. cbn [check_sleep_loop] in E. rewrite Hl in E. cbn [mbind option_bind] in E.
  rewrite (cr_size _ _ Hc), (proj2 (Z.ltb_lt _ _)) in E by (rewrite zlen_app, zlen_cons; pose proof (zlen_nonneg B); lia).
  rewrite (get_spec _ _ _ Hc (zlen_nonneg A)), zget_middle in E. cbn [mbind option_bind] in E. change (default 0 (Some u)) with u in E.
  destruct (remove_spec malloc c _ (zlen A) Hc (zlen_nonneg A)) as (c' & Ec & Hc'). rewrite delete_middle_zlen in Hc'. destruct (Z.eqb_spec u 0) as [->|Hu].
  { rewrite Ec in E. cbn [mbind option_bind] in E. apply elem_of_cons in Ht as [?|Ht]; [done|]. by apply (IH fuel (set_list s (Some c')) s' A c'). }
  destruct (sl_threads s !! u) as [x|] eqn:Ex; [|done]. apply elem_of_cons in Ht as [->|Ht]; [eauto|]. cbn [mbind option_bind] in E.
  destruct (if now >=? sl_deadline x then Some true else _) as [[]|]; [| |done]; cbn [mbind option_bind] in E.
  - unfold check_wake in E. rewrite Ec in E. cbn [mbind option_bind] in E. destruct (if sl_code x =? scheduler_block_pending then _ else _) as [code|]; [|done]. cbn [mbind option_bind] in E.
    unfold run_sched in E. destruct (wake _ u) as [b|]; [|done]. cbn [mbind option_bind] in E. destruct (decide (t = u)) as [->|Hne]; [eauto|].
    pose proof (fun H => IH fuel _ s' A c' H Hc' E t Ht Ht0) as HI. destruct (HI eq_refl) as [z Hz]. simpl in Hz. rewrite lookup_insert_ne in Hz by done. eauto.
  - pose proof (cr_small _ _ Hc) as Hsm. rewrite zlen_app, zlen_cons in Hsm. pose proof (zlen_nonneg A). pose proof (zlen_nonneg B).
    rewrite u64_id in E by lia. replace (zlen A + 1) with (zlen (A ++ [u])) in E by (rewrite zlen_app; done).
    apply (IH fuel (set_list s (Some c)) s' (A ++ [u]) c eq_refl); [by rewrite <- app_assoc|done..].
Qed.

(** A thread is freed. *)
Definition free_tcb s (t : Z) : sl_sys S := mkSleep (sl_list s) (sl_lock s) (sl_irq s) (delete t (sl_threads s)) (sl_count s) (sl_sched s).

Lemma tick_after_free s L t now : list_is s L -> sl_lock s = false -> t ∈ L -> t <> 0 -> scheduler_check_sleep wake malloc decisions (free_tcb s t) now = None.
Proof.
  unfold list_is, scheduler_check_sleep. cbn [free_tcb sl_list sl_lock]. intros Hl Hk Ht Ht0. destruct (sl_list s) as [c|] eqn:Ec; [|subst; set_solver]. rewrite (cr_size _ _ Hl), Hk.
  destruct (Z.eqb_spec (zlen L) 0) as [E0|_]; [destruct L; [set_solver|rewrite zlen_cons in E0; pose proof (zlen_nonneg L); lia]|].
  match goal with |- context [check_sleep_loop ?w ?m ?d ?f ?s0 ?n ?i] => destruct (check_sleep_loop w m d f s0 n i) as [s'|] eqn:E end; [|done]. exfalso.
  eapply (tick_reads now L _ (set_lock (free_tcb s t) true) s' [] c) in E as [z Hz]; try done. simpl in Hz. by rewrite lookup_delete_eq in Hz.
Qed.

(** Ending a thread does not look at the sleep list, whichever scheduler runs. *)
Lemma kill_keeps_list remove handle readd s t x cpu s1 :
  t <> 0 -> sl_threads s !! t = Some x -> sl_status x <> T_DEATH -> sl_status x <> T_OUT -> kill_thread_sched wake remove handle malloc readd s t cpu = Some s1 ->
  sl_list s1 = sl_list s /\ sl_lock s1 = sl_lock s /\ sl_threads s1 = <[t := mkSl (with_status (sl_sig x) T_OUT) (sl_deadline x) (sl_code x)]> (sl_threads s).
Proof.
  intros Ht0 Ex Hd Ho E. unfold kill_thread_sched, claim_thread_exit in E. rewrite (proj2 (Z.eqb_neq _ _) Ht0), Ex in E. cbn [mbind option_bind] in E.
  rewrite (proj2 (Z.eqb_neq _ _) Hd), (proj2 (Z.eqb_neq _ _) Ho) in E. cbn [orb negb mbind option_bind] in E. set (y := mkSl (with_status (sl_sig x) T_DEATH) (sl_deadline x) (sl_code x)) in E.
  assert (forall s2, (sl_list s2 = sl_list s /\ sl_lock s2 = sl_lock s /\ sl_threads s2 = <[t := y]> (sl_threads s)) ->
    (x ← sl_threads s2 !! t; Some (set_tcb s2 t (mkSl (with_status (sl_sig x) T_OUT) (sl_deadline x) (sl_code x)))) = Some s1 ->
    sl_list s1 = sl_list s /\ sl_lock s1 = sl_lock s /\ sl_threads s1 = <[t := mkSl (with_status (sl_sig x) T_OUT) (sl_deadline x) (sl_code x)]> (sl_threads s)) as Hend.
  { intros s2 (H1 & H2 & H3) E2. rewrite H3, lookup_insert_eq in E2. cbn [mbind option_bind] in E2. injection E2 as <-. simpl. rewrite H3, insert_insert_eq. done. }
  simpl in E. destruct (handle (sl_sched s) t) eqn:Eh; [|by apply (Hend (set_tcb s t y))].
  unfold scheduler_remove_task in E. simpl in E. rewrite (proj2 (Z.eqb_neq _ _) Ht0), Eh in E. simpl in E.
  destruct (cpu =? 0); [by apply (Hend (set_tcb s t y))|]. simpl in E.
  destruct (sl_count s >? 0); simpl in E; rewrite lookup_insert_eq in E; cbn [mbind option_bind] in E; unfold run_sched in E; simpl in E;
    (destruct (remove (sl_sched s) t) as [b|]; [|done]); cbn [mbind option_bind] in E; (eapply Hend; [|exact E]); done.
Qed.
End Kill.

(** ** With the round-robin scheduler *)

Section Rrs.
Context (node_malloc : lheap -> Z) (junk : Z) {HM : NodeAllocator node_malloc}.
Context (ent_malloc : gmap Z rrs_entity -> Z) {HE : EntAllocator ent_malloc}.
Context (cpu : Z) (Hcpu : cpu <> 0).
Context (malloc : gmap Z cow_block -> Z) {HA : BlockAllocator malloc}.

#[local] Existing Instance rrs_scheduler.

(** [sched_handle != NULL] *)
Definition rrs_handle (s : rrs_sys) (t : Z) : bool := bool_decide (is_Some (rr_handle s !! t)).

Lemma asleep_no_handle s K R t : rrs_runs s K R -> (t ∉ R) -> rrs_handle s t = false.
Proof. intros (_ & HR & _) Ht. apply bool_decide_false. by rewrite <- HR. Qed.

(** C23: kill_thread does not take a sleeping thread off the sleep list: the thread has no scheduler handle, so scheduler_remove_task is not called, and its status is no longer T_WAIT in any case. When the time of the sleep is over the dead thread is put on the run queue again, and once it has been freed every tick of the timer reads freed memory. *)
Theorem killed_sleeper_runs_again (s : sl_sys rrs_sys) L K R t x now :
  sleep_ok (HS := rrs_scheduler node_malloc junk ent_malloc cpu Hcpu) s L K R -> t ∈ L -> sl_threads s !! t = Some x ->
  sl_status x <> T_DEATH -> sl_status x <> T_OUT -> sl_deadline x <= now ->
  exists s1 s2 y, kill_thread_sched (futex_wake_rrs node_malloc junk ent_malloc) (futex_block_rrs cpu) rrs_handle malloc false s t cpu = Some s1 /\
    list_is s1 L /\ sl_status <$> sl_threads s1 !! t = Some T_OUT /\
    scheduler_check_sleep (futex_wake_rrs node_malloc junk ent_malloc) malloc decisions s1 now = Some s2 /\
    is_Some (rr_handle (sl_sched s2) !! t) /\ sl_threads s2 !! t = Some y /\ sl_status y = T_START /\
    forall later, scheduler_check_sleep (futex_wake_rrs node_malloc junk ent_malloc) malloc decisions (free_tcb s1 t) later = None.
Proof.
  intros Hs Ht Ex Hd Ho Hnow. pose proof Hs as [Hl Hk Hr N Ha Hx]. destruct (proj1 (Ha t) Ht) as [HtK HtR]. destruct (runs_known _ _ _ Hr) as (_ & H0 & _).
  assert (t <> 0) as Ht0 by congruence. destruct (Hx t HtK) as (x' & Ex' & Hok). assert (x' = x) as -> by congruence.
  set (y := mkSl (with_status (sl_sig x) T_OUT) (sl_deadline x) (sl_code x)).
  assert (exists s1, kill_thread_sched (futex_wake_rrs node_malloc junk ent_malloc) (futex_block_rrs cpu) rrs_handle malloc false s t cpu = Some s1 /\ sl_sched s1 = sl_sched s) as (s1 & E1 & Hsch).
  { unfold kill_thread_sched, claim_thread_exit. rewrite (proj2 (Z.eqb_neq _ _) Ht0), Ex. cbn [mbind option_bind]. rewrite (proj2 (Z.eqb_neq _ _) Hd), (proj2 (Z.eqb_neq _ _) Ho). cbn [orb negb mbind option_bind].
    cbn [set_tcb sl_sched]. rewrite (asleep_no_handle _ _ _ _ Hr HtR). cbn [mbind option_bind set_tcb sl_threads]. rewrite lookup_insert_eq. cbn [mbind option_bind]. eauto. }
  destruct (kill_keeps_list malloc _ _ _ s t x cpu s1 Ht0 Ex Hd Ho E1) as (Hl1 & Hk1 & Ht1). fold y in Ht1.
  assert (list_is s1 L) as Hl1' by (unfold list_is; by rewrite Hl1).
  assert (sleep_ok (HS := rrs_scheduler node_malloc junk ent_malloc cpu Hcpu) s1 L K R) as Hs1.
  { eapply (sleep_ok_tcb s); try done; [congruence|by rewrite Hsch|]. intros u z Ez Hz. rewrite Ht1.
    destruct (decide (u = t)) as [->|]; [rewrite lookup_insert_eq; eexists; split; [done|]; by apply task_ok_status|]. rewrite lookup_insert_ne by done. eauto. }
  destruct (tick_ok (HS := rrs_scheduler node_malloc junk ent_malloc cpu Hcpu) malloc s1 L K R now Hs1) as (s2 & E2 & Hs2 & _ & _ & Hth). exists s1, s2, (woken y).
  assert (sl_threads s1 !! t = Some y) as Ey by (by rewrite Ht1, lookup_insert_eq).
  assert (ends s1 now t = true) as He by (unfold ends; rewrite Ey; unfold due; simpl; apply orb_true_iff; left; lia).
  split_and!; try done.
  - by rewrite Ey.
  - destruct (ok_runs _ _ _ _ Hs2) as (_ & HR2 & _). apply HR2, elem_of_union_r, elem_of_list_to_set, list_elem_of_filter. done.
  - rewrite Hth, Ey, He. simpl. by rewrite bool_decide_true.
  - intros later. apply (tick_after_free malloc s1 L t later); [done|congruence|done|done].
Qed.
End Rrs.

(** ** Witnesses *)

Definition quiet_task : sig_task := mkSt 0 0 (replicate 32 (mkSa 0 0 0 0)) (replicate 33 no_info) 0 T_RUNNING.

Lemma quiet_task_ok : task_ok quiet_task.
Proof. split; [done|done| |]; intros i ?; simpl; rewrite Z.bits_0; done. Qed.

(** Threads 10 and 20 on the round-robin scheduler, before the first sleep. *)
Definition demo_sleepers : gmap Z sl_tcb := {[ 10 := mkSl quiet_task 0 0; 20 := mkSl quiet_task 0 0 ]}.

Lemma demo_awake : exists s, s = mkSleep None false true demo_sleepers 2 (sl_sched s) /\ sleep_ok (wake := demo_wake) s [] {[10; 20]} {[10; 20]} /\ sl_reach (wake := demo_wake) top_block realloc_7 {[10; 20]} s.
Proof.
  destruct demo_runs as (sched & _ & Hr). exists (mkSleep None false true demo_sleepers 2 sched). split; [done|].
  assert (forall t : Z, t ∈ ({[10; 20]} : gset Z) -> exists x, demo_sleepers !! t = Some x /\ task_ok (sl_sig x)) as Ht.
  { intros t [->%elem_of_singleton| ->%elem_of_singleton]%elem_of_union; exists (mkSl quiet_task 0 0); (split; [reflexivity|apply quiet_task_ok]). }
  split; [|by apply sl_start]. split; [done|done|exact Hr|constructor| |exact Ht]. intros t. split; [set_solver|naive_solver].
Qed.

(** Thread 10 sleeps until 500. *)
Lemma demo_asleep :
  exists s x, sleep_ok (wake := demo_wake) s [10] {[10; 20]} ({[10; 20]} ∖ {[10]}) /\ sl_threads s !! 10 = Some x /\ sl_deadline x = 500 /\ sl_status x = T_WAIT /\ sig_due x = false.
Proof.
  destruct demo_awake as (s & Hs & Hok & _).
  destruct (begin_ok top_block realloc_7 s [] {[10; 20]} {[10; 20]} 10 500 Hok) as (s' & x & _ & Hs' & Ex & Ht & _); [set_solver|intros c Hc; rewrite Hs in Hc; discriminate Hc|exact I|].
  exists s', (mkSl (with_status (sl_sig x) T_WAIT) 500 scheduler_block_pending). split; [exact Hs'|]. split; [by rewrite Ht, lookup_insert_eq|]. split; [reflexivity|]. split; [reflexivity|].
  rewrite Hs in Ex. change (demo_sleepers !! 10 = Some x) in Ex. assert (Some x = Some (mkSl quiet_task 0 0)) as [= ->] by (rewrite <- Ex; reflexivity). vm_compute. reflexivity.
Qed.

Lemma check_sleep_correct_witness :
  exists s s', scheduler_check_sleep demo_wake top_block decisions s 500 = Some s' /\ sleep_ok (wake := demo_wake) s' [] {[10; 20]} ({[10; 20]} ∖ {[10]} ∪ {[10]}).
Proof.
  destruct demo_asleep as (s & x & Hs & Ex & Ed & _). exists s. destruct (check_sleep_correct top_block s [10] _ _ 500 Hs) as (s' & E & Hs' & _). exists s'. split; [exact E|].
  assert (ends s 500 10 = true) as He by (unfold ends; rewrite Ex; unfold due; rewrite Ed; reflexivity).
  assert (still s 500 [10] = [] /\ over s 500 [10] = [10]) as [E1 E2].
  { unfold still, over. rewrite filter_cons_False by congruence. rewrite filter_cons_True by exact He. split; reflexivity. }
  rewrite E1, E2, list_to_set_singleton_L in Hs'. exact Hs'.
Defined.

Lemma nano_sleep_correct_witness :
  exists s s1 s2 R2, nano_sleep_begin demo_block top_block realloc_7 true true s 10 100 400 = Some s1 /\ scheduler_check_sleep demo_wake top_block decisions s1 500 = Some s2 /\
    runs (Scheduler := demo_scheduler) (sl_sched s2) {[10; 20]} R2 /\ 10 ∈ R2 /\ exists s3, nano_sleep_end decisions s2 10 = Some (s3, 0).
Proof.
  destruct demo_awake as (s & Hs & Hok & _). exists s.
  assert (sl_threads s !! 10 = Some (mkSl quiet_task 0 0)) as Ex by (rewrite Hs; reflexivity).
  destruct (nano_sleep_correct top_block realloc_7 s [] {[10; 20]} {[10; 20]} 10 (mkSl quiet_task 0 0) 100 400 Hok) as (s1 & E1 & _ & _ & H); [set_solver|intros c Hc; rewrite Hs in Hc; discriminate Hc|exact I|lia|exact Ex|].
  destruct (H 500) as (s2 & L2 & R2 & E2 & Hs2 & Hr). assert (sig_due (mkSl quiet_task 0 0) = false) as Eq by (vm_compute; reflexivity). rewrite Eq in Hr. destruct Hr as [Hin Hend].
  exists s1, s2, R2. split; [exact E1|]. split; [exact E2|]. split; [exact (ok_runs _ _ _ _ Hs2)|]. split; [exact Hin|exact Hend].
Defined.

Lemma sleep_conserves_witness : exists s, sl_reach (wake := demo_wake) top_block realloc_7 {[10; 20]} s /\ is_Some (scheduler_unblock demo_wake top_block s 10 0).
Proof.
  destruct demo_awake as (s & _ & _ & Hr). exists s. split; [exact Hr|]. destruct (sleep_conserves top_block realloc_7 {[10; 20]} s Hr) as (L & R & _ & _ & _ & _ & _ & _ & Hu). apply Hu.
Defined.

Lemma killed_sleeper_runs_again_witness :
  exists s s1 s2, kill_thread_sched demo_wake demo_block rrs_handle top_block false s 10 64 = Some s1 /\ scheduler_check_sleep demo_wake top_block decisions s1 600 = Some s2 /\ is_Some (rr_handle (sl_sched s2) !! 10).
Proof.
  destruct demo_asleep as (s & x & Hs & Ex & Ed & Est & _). exists s.
  destruct (killed_sleeper_runs_again top_addr 0 top_addr 64 ltac:(done) top_block s [10] {[10; 20]} ({[10; 20]} ∖ {[10]}) 10 x 600 Hs) as (s1 & s2 & y & E1 & _ & _ & E2 & Hh & _);
    [set_solver|exact Ex|rewrite Est; discriminate|rewrite Est; discriminate|lia|]. exists s1, s2. split; [exact E1|]. split; [exact E2|exact Hh].
Defined.
