(* ===== verification/Fds.v ===== *)
(** * File descriptors

    ([src/src/fs/fds.c], and the duplication of descriptors in
    [src/src/fs/fssys.c].) A table of descriptors is an array of pointers to
    descriptions; a description refers to a file-system node. Duplicating a
    description counts one more user of the node, and of the pipe or the
    socket behind it. Nodes, pipes and the ends of pipes are the heap objects
    of [Pipe]; the type of a node, the sockets and the descriptions are added
    here. *)

From stdpp Require Import gmap.
From S2P Require Import Prelude Pipe.

Definition FD_INITIAL_CAPACITY : Z := 5.
Definition FD_GROWTH_FACTOR : Z := 2.
Definition O_CLOEXEC : Z := 524288.
Definition file_pipe : Z := 256.
Definition file_socket : Z := 512.
Definition ENOENT : Z := 2.
Definition EBADF : Z := 9.
Definition ENOMEM : Z := 12.
Definition EEXIST : Z := 17.

Record fd_t := mkFd { fd_node : Z; fd_offset : Z; fd_dir_last : Z; fd_flags : Z; fd_fd : Z }.

Record fdt_t := mkFdt { fds : list Z; fds_length : Z }.

(** A socket, as far as descriptors use it. *)
Record sock_t := mkSock { so_refcount : Z; so_lock : spin_t }.

Record fd_sys := mkFs {
  fs_pipe : pipe_sys;            (* nodes, pipes and their ends *)
  fs_type : gmap Z Z;            (* [node->type] *)
  fs_handle : gmap Z Z;          (* [info] of a socket handle *)
  fs_sock : gmap Z sock_t;
  fs_fd : gmap Z fd_t;           (* descriptions *)
}.

Definition with_pipe (s : fd_sys) (x : pipe_sys) : fd_sys := mkFs x (fs_type s) (fs_handle s) (fs_sock s) (fs_fd s).
Definition with_sock (s : fd_sys) (p : Z) (x : sock_t) : fd_sys := mkFs (fs_pipe s) (fs_type s) (fs_handle s) (<[p := x]> (fs_sock s)) (fs_fd s).
Definition with_fd (s : fd_sys) (p : Z) (x : fd_t) : fd_sys := mkFs (fs_pipe s) (fs_type s) (fs_handle s) (fs_sock s) (<[p := x]> (fs_fd s)).

(** ** The table *)

Fixpoint find_free_loop (n : nat) (t : fdt_t) (i : Z) : option Z :=
  match n with
  | O => Some (- EBADF)
  | Datatypes.S n => p ← zget (fds t) i; if p =? 0 then Some (i32 i) else find_free_loop n t (i + 1)
  end.

(** A NULL table is [None]. *)
Definition find_free_fd (fdt : option fdt_t) : option Z :=
  match fdt with
  | None => Some (- ENOENT)
  | Some t => find_free_loop (Z.to_nat (fds_length t)) t 0
  end.

(** The array after [realloc] to [new_len] elements, the new ones cleared;
    clearing before the old end is a fault. *)
Definition grown (t : fdt_t) (new_len : Z) : option fdt_t :=
  if new_len <? fds_length t then None else Some (mkFdt (fds t ++ replicate (Z.to_nat (new_len - fds_length t)) 0) new_len).

Definition expand_fds_table (realloc_ok : bool) (t : fdt_t) : option (fdt_t * Z) :=
  let new_len := u64 (fds_length t * FD_GROWTH_FACTOR) in
  let new_len := if new_len =? 0 then FD_INITIAL_CAPACITY else new_len in
  if negb realloc_ok then Some (t, -1)
  else t ← grown t new_len; Some (t, 0).

Definition store_fd (t : fdt_t) (i p : Z) : option fdt_t := l ← zset (fds t) i p; Some (mkFdt l (fds_length t)).

Definition add_fd (realloc_ok : bool) (t : fdt_t) (new_fd : Z) : option (fdt_t * Z) :=
  fdid ← find_free_fd (Some t);
  if fdid <? 0 then
    '(t, r) ← expand_fds_table realloc_ok t;
    if negb (r =? 0) then Some (t, -1)
    else
      fdid ← find_free_fd (Some t);
      if fdid <? 0 then Some (t, -1)
      else t ← store_fd t fdid new_fd; Some (t, fdid)
  else t ← store_fd t fdid new_fd; Some (t, fdid).

(** The comparison is of unsigned numbers. *)
Definition get_fd (t : fdt_t) (fd : Z) : option Z :=
  if u64 fd >=? fds_length t then Some 0 else zget (fds t) fd.

Definition set_fd (t : fdt_t) (handle fd : Z) : option (fdt_t * Z) :=
  p ← zget (fds t) fd;
  if negb (p =? 0) then Some (t, - EEXIST)
  else t ← store_fd t fd handle; Some (t, EOK).

Definition remove_fd (s : fd_sys) (fdt : option fdt_t) (fd : Z) : option (fd_sys * option fdt_t * Z) :=
  match fdt with
  | None => Some (s, None, - ENOENT)
  | Some t =>
    if (fd <? 0) || (fd >=? fds_length t) then Some (s, Some t, - EBADF)
    else
      p ← zget (fds t) fd;
      if p =? 0 then Some (s, Some t, - EBADF)
      else
        t ← store_fd t fd 0;
        _ ← fs_fd s !! p;
        Some (mkFs (fs_pipe s) (fs_type s) (fs_handle s) (fs_sock s) (delete p (fs_fd s)), Some t, EOK)
  end.

Definition fds_init (malloc_ok : bool) : fdt_t :=
  if malloc_ok then mkFdt (replicate (Z.to_nat FD_INITIAL_CAPACITY) 0) FD_INITIAL_CAPACITY else mkFdt [] 0.

(** ** Duplication *)

Section Dup.
(* the address of a new description, 0 for NULL *)
Context (malloc : gmap Z fd_t -> Z).

(** [if (spec->write) pipe->write_fds++; else pipe->read_fds++;] *)
Definition count_end (write : bool) (x : pipe_info_t) : pipe_info_t :=
  if write then mkPipe (pi_ptr x) (pi_buf x) (pi_assigned x) (i32 (write_fds x + 1)) (read_fds x) (pi_active x) (pi_free_pending x) (pi_lock x) (read_node x) (write_node x)
  else mkPipe (pi_ptr x) (pi_buf x) (pi_assigned x) (write_fds x) (i32 (read_fds x + 1)) (pi_active x) (pi_free_pending x) (pi_lock x) (read_node x) (write_node x).

Definition dup_pipe (s : pipe_sys) (handle : Z) : option pipe_sys :=
  sp ← ps_specs s !! handle;
  s ← lock_pipe s (sp_info sp);
  s ← mod_pipe s (sp_info sp) (count_end (sp_write sp));
  unlock_pipe s (sp_info sp).

Definition dup_socket (s : fd_sys) (handle : Z) : option fd_sys :=
  if handle =? 0 then Some s
  else
    info ← fs_handle s !! handle;
    if info =? 0 then Some s
    else
      x ← fs_sock s !! info;
      l ← spin_lock (so_lock x);
      Some (with_sock s info (mkSock (i32 (so_refcount x + 1)) (spin_unlock l))).

Definition ref_node (v : vnode) : vnode := mkNode (vn_size v) (vn_flags v) (vn_handle v) (u32 (vn_refcount v + 1)) (vn_parent v) (vn_children v).

(** The kernel stops when there is no memory. *)
Definition fd_dup (s : fd_sys) (src : Z) : option (fd_sys * Z) :=
  let new := malloc (fs_fd s) in
  if new =? 0 then None
  else
    f ← fs_fd s !! src;
    ps ← mod_node (fs_pipe s) (fd_node f) ref_node;
    let s := with_fd (with_pipe s ps) new f in
    ty ← fs_type s !! fd_node f;
    v ← ps_nodes (fs_pipe s) !! fd_node f;
    s ← (if negb (Z.land ty file_pipe =? 0) then ps ← dup_pipe (fs_pipe s) (vn_handle v); Some (with_pipe s ps) else Some s);
    s ← (if negb (Z.land ty file_socket =? 0) then dup_socket s (vn_handle v) else Some s);
    Some (s, new).

Fixpoint copy_loop (s : fd_sys) (l : list Z) : option (fd_sys * list Z) :=
  match l with
  | [] => Some (s, [])
  | p :: l =>
    '(s, q) ← (if negb (p =? 0) then fd_dup s p else Some (s, 0));
    '(s, l) ← copy_loop s l;
    Some (s, q :: l)
  end.

(** [malloc_ok] and [array_ok] are about the table and its array. *)
Definition copy_fdt (malloc_ok array_ok : bool) (s : fd_sys) (src_fdt : option fdt_t) : option (fd_sys * option fdt_t) :=
  match src_fdt with
  | None => Some (s, None)
  | Some t =>
    if negb malloc_ok then Some (s, None)
    else if negb array_ok then Some (s, None)
    else '(s, l) ← copy_loop s (take (Z.to_nat (fds_length t)) (fds t)); Some (s, Some (mkFdt l (fds_length t)))
  end.

(** ** System calls *)

(** The loop ends after one round: the new length is above [expect_fd]. *)
Fixpoint ensure_loop (fuel : nat) (realloc_ok : bool) (t : fdt_t) (expect_fd : Z) : option (fdt_t * Z) :=
  match fuel with
  | O => None
  | Datatypes.S fuel =>
    if expect_fd >=? fds_length t then
      let new_len := u64 (fds_length t * FD_GROWTH_FACTOR) in
      let new_len := if new_len =? 0 then FD_INITIAL_CAPACITY else new_len in
      let new_len := if new_len <=? expect_fd then expect_fd + 1 else new_len in
      if negb realloc_ok then Some (t, - ENOMEM)
      else t ← grown t new_len; ensure_loop fuel realloc_ok t expect_fd
    else Some (t, EOK)
  end.

(** For a descriptor that is not negative. *)
Definition ensure_fdt_capacity (realloc_ok : bool) (t : fdt_t) (expect_fd : Z) : option (fdt_t * Z) := ensure_loop 2 realloc_ok t expect_fd.

(** [SYSCALL_FAULT_] *)
Definition syscall_fault (errno : Z) : Z := u64 (- errno).

(** The search for a free place from [newfd] on; a negative result is an
    error. *)
Fixpoint minfd_loop (fuel : nat) (realloc_ok : bool) (t : fdt_t) (newfd : Z) : option (fdt_t * option Z) :=
  match fuel with
  | O => None
  | Datatypes.S fuel =>
    '(t, r) ← (if newfd >=? fds_length t then ensure_fdt_capacity realloc_ok t newfd else Some (t, EOK));
    if r <? 0 then Some (t, None)
    else
      p ← zget (fds t) newfd;
      if p =? 0 then Some (t, Some newfd) else minfd_loop fuel realloc_ok t (newfd + 1)
  end.

Definition set_cloexec (f : fd_t) (fd : Z) (cloexec : bool) : fd_t :=
  let flags := Z.land (fd_flags f) (Z.lnot O_CLOEXEC) in
  mkFd (fd_node f) (fd_offset f) (fd_dir_last f) (if cloexec then Z.lor flags O_CLOEXEC else flags) fd.

Definition dup_with_minfd (realloc_ok : bool) (s : fd_sys) (t : fdt_t) (handle min_fd : Z) (cloexec : bool) : option (fd_sys * fdt_t * Z) :=
  if min_fd <? 0 then Some (s, t, syscall_fault EINVAL)
  else
    '(t, r) ← ensure_fdt_capacity realloc_ok t min_fd;
    if r <? 0 then Some (s, t, syscall_fault ENOMEM)
    else
      '(t, place) ← minfd_loop (Datatypes.S (Z.to_nat (fds_length t))) realloc_ok t min_fd;
      match place with
      | None => Some (s, t, syscall_fault ENOMEM)
      | Some newfd =>
        '(s, new_handle) ← fd_dup s handle;
        f ← fs_fd s !! new_handle;
        t ← store_fd t newfd new_handle;
        Some (with_fd s new_handle (set_cloexec f newfd cloexec), t, newfd)
      end.

Definition syscall_dup (realloc_ok : bool) (s : fd_sys) (t : fdt_t) (fd : Z) : option (fd_sys * fdt_t * Z) :=
  if fd <? 0 then Some (s, t, syscall_fault EINVAL)
  else
    handle ← get_fd t fd;
    if handle =? 0 then Some (s, t, syscall_fault EBADF)
    else
      '(s, new_handle) ← fd_dup s handle;
      '(t, r) ← add_fd realloc_ok t new_handle;
      f ← fs_fd s !! new_handle;
      Some (with_fd s new_handle (set_cloexec f r false), t, u64 r).
End Dup.
