(* ===== verification/FdsProps.v ===== *)
(** * Properties of file descriptors *)

From stdpp Require Import gmap.
From S2P Require Import Prelude Fresh Pipe Fds.

Implicit Types (t : fdt_t) (s : fd_sys).

(** ** The table as a function from descriptors *)

Record fdt_ok t : Prop := { ft_len : zlen (fds t) = fds_length t; ft_small : fds_length t < 2 ^ 30 }.

(** The description of a descriptor, 0 for none. *)
Definition slot t (i : Z) : Z := default 0 (zget (fds t) i).

Lemma slot_out t i : fdt_ok t -> ~ 0 <= i < fds_length t -> slot t i = 0.
Proof. intros [Hl _] Hi. unfold slot. by rewrite zget_none by lia. Qed.

Lemma slot_in t i : fdt_ok t -> 0 <= i < fds_length t -> zget (fds t) i = Some (slot t i).
Proof. intros [Hl _] Hi. unfold slot. destruct (zget_ok (fds t) i) as [p ->]; [lia|done]. Qed.

Lemma get_fd_slot t i : fdt_ok t -> - two31 <= i < two31 -> get_fd t i = Some (slot t i).
Proof.
  intros Ht Hi. pose proof Ht as [Hl Hs]. unfold get_fd. rewrite Z.geb_leb. pose proof (zlen_nonneg (fds t)). destruct (decide (0 <= i)) as [H0|H0].
  - rewrite u64_id by lia. destruct (Z.leb_spec (fds_length t) i); [by rewrite slot_out by (try done; lia)|]. apply slot_in; [done|lia].
  - rewrite slot_out by (try done; lia). assert (fds_length t <= u64 i) as ->%Z.leb_le; [|done].
    unfold u64. replace (i mod two64) with (i + two64); [lia|]. symmetry. rewrite <- (Z.mod_add i 1 two64) by lia. apply Z.mod_small. lia.
Qed.

Lemma store_ok t i p : fdt_ok t -> 0 <= i < fds_length t -> exists t', store_fd t i p = Some t' /\ fdt_ok t' /\ fds_length t' = fds_length t /\ forall j, slot t' j = if decide (j = i) then p else slot t j.
Proof.
  intros [Hl Hs] Hi. unfold store_fd. assert (zset (fds t) i p = Some (<[Z.to_nat i := p]> (fds t))) as E by (apply zset_ok; lia). rewrite E. cbn [mbind option_bind].
  eexists. split; [done|]. split; [split; simpl; [by rewrite (zset_len _ _ _ _ E)|done]|]. split; [done|]. intros j. unfold slot. simpl. rewrite (zset_get _ _ _ _ _ E).
  destruct (decide (i = j)) as [->|]; [by rewrite decide_True|by rewrite decide_False].
Qed.

Lemma grown_ok t n : fdt_ok t -> fds_length t <= n < 2 ^ 30 -> exists t', grown t n = Some t' /\ fdt_ok t' /\ fds_length t' = n /\ forall j, slot t' j = slot t j.
Proof.
  intros [Hl Hs] Hn. unfold grown. rewrite (proj2 (Z.ltb_ge _ _)) by lia. eexists. split; [done|]. split; [split; simpl; [rewrite zlen_app, zlen_replicate; lia|lia]|]. split; [done|].
  intros j. unfold slot. simpl. destruct (decide (j < zlen (fds t))) as [H|H]; [by rewrite zget_app_l|]. rewrite zget_app_r, (zget_none (fds t)) by lia.
  destruct (decide (j - zlen (fds t) < n - fds_length t)); [rewrite zget_replicate by lia; done|]. rewrite zget_none; [done|]. rewrite zlen_replicate. lia.
Qed.

(** The first free descriptor from [lo] on, or none in the table. *)
Definition first_free t (lo i : Z) : Prop := lo <= i /\ slot t i = 0 /\ forall j, lo <= j < i -> slot t j <> 0.

Lemma find_loop_ok t n i :
  fdt_ok t -> 0 <= i -> i + Z.of_nat n = fds_length t ->
  (exists r, find_free_loop n t i = Some r /\ r < fds_length t /\ first_free t i r) \/
  find_free_loop n t i = Some (- EBADF) /\ forall j, i <= j < fds_length t -> slot t j <> 0.
Proof.
  intros Ht. pose proof (ft_small _ Ht) as Hsm. revert i. induction n as [|n IH]; intros i Hi Hn; cbn [find_free_loop]; [right; split; [done|lia]|].
  rewrite (slot_in t i Ht) by lia. cbn [mbind option_bind]. destruct (Z.eqb_spec (slot t i) 0) as [E|E].
  { left. exists i. rewrite i32_id by lia. split; [done|]. split; [lia|]. split_and!; [lia|done|lia]. }
  destruct (IH (i + 1)) as [(r & Er & Hr & Hlo & H0 & Hj)|[Er Hj]]; [lia|lia| |].
  - left. exists r. split; [done|]. split; [done|]. split_and!; [lia|done|]. intros j Hj'. destruct (decide (j = i)) as [->|]; [done|]. apply Hj. lia.
  - right. split; [done|]. intros j Hj'. destruct (decide (j = i)) as [->|]; [done|]. apply Hj. lia.
Qed.

Lemma find_free_ok t :
  fdt_ok t -> (exists r, find_free_fd (Some t) = Some r /\ 0 <= r < fds_length t /\ first_free t 0 r) \/
  find_free_fd (Some t) = Some (- EBADF) /\ forall j, 0 <= j < fds_length t -> slot t j <> 0.
Proof.
  intros Ht. pose proof (zlen_nonneg (fds t)). rewrite (ft_len _ Ht) in *. destruct (find_loop_ok t (Z.to_nat (fds_length t)) 0 Ht) as [(r & E & Hr & Hf)|H']; [lia|lia| |by right].
  left. exists r. split; [done|]. split; [|done]. destruct Hf. lia.
Qed.

Lemma expand_ok t : fdt_ok t -> fds_length t < 2 ^ 28 -> exists t', expand_fds_table true t = Some (t', 0) /\ fdt_ok t' /\ fds_length t < fds_length t' /\ forall j, slot t' j = slot t j.
Proof.
  intros Ht Hs. pose proof (zlen_nonneg (fds t)) as H0. rewrite (ft_len _ Ht) in H0. unfold expand_fds_table, FD_GROWTH_FACTOR, FD_INITIAL_CAPACITY. rewrite u64_id by lia.
  set (n := if fds_length t * 2 =? 0 then 5 else fds_length t * 2). assert (fds_length t < n < 2 ^ 30) as Hn by (unfold n; destruct (Z.eqb_spec (fds_length t * 2) 0); lia).
  destruct (grown_ok t n Ht ltac:(lia)) as (t' & -> & Ht' & Hl & Hslot). cbn [negb mbind option_bind]. exists t'. split_and!; try done. lia.
Qed.

(** Add_fd stores the description at the lowest free descriptor, enlarging the table when it is full, and changes no other descriptor. *)
Theorem add_fd_correct t p :
  fdt_ok t -> fds_length t < 2 ^ 28 -> p <> 0 ->
  exists t' i, add_fd true t p = Some (t', i) /\ fdt_ok t' /\ first_free t 0 i /\
    forall j, - two31 <= j < two31 -> get_fd t' j = if decide (j = i) then Some p else get_fd t j.
Proof.
  intros Ht Hs Hp.
  assert (forall t1 i, fdt_ok t1 -> 0 <= i < fds_length t1 -> (forall j, slot t1 j = slot t j) ->
    exists t', (t' ← store_fd t1 i p; Some (t', i)) = Some (t', i) /\ fdt_ok t' /\ forall j, - two31 <= j < two31 -> get_fd t' j = if decide (j = i) then Some p else get_fd t j) as Hst.
  { intros t1 i Ht1 Hi Hsl. destruct (store_ok t1 i p Ht1 Hi) as (t' & -> & Ht' & _ & Hslot). cbn [mbind option_bind]. exists t'. split; [done|]. split; [done|].
    intros j Hj. rewrite !get_fd_slot, Hslot, Hsl by done. by destruct (decide (j = i)). }
  unfold add_fd. destruct (find_free_ok t Ht) as [(r & -> & Hr & Hf)|[-> Hfull]]; cbn [mbind option_bind].
  - rewrite (proj2 (Z.ltb_ge _ _)) by lia. destruct (Hst t r Ht Hr) as (t' & E & Ht' & Hg); [done|]. eauto 10.
  - change (- EBADF <? 0) with true. cbn iota. destruct (expand_ok t Ht Hs) as (t1 & -> & Ht1 & Hlt & Hsl). cbn [mbind option_bind]. change (negb (0 =? 0)) with false. cbn iota.
    assert (slot t (fds_length t) = 0) as H0 by (apply slot_out; [done|lia]). pose proof (zlen_nonneg (fds t)) as Hz. rewrite (ft_len _ Ht) in Hz.
    destruct (find_free_ok t1 Ht1) as [(r & -> & Hr & Hf)|[_ Hfull1]]; [|exfalso; apply (Hfull1 (fds_length t)); [lia|by rewrite Hsl]].
    cbn [mbind option_bind]. rewrite (proj2 (Z.ltb_ge _ _)) by lia. destruct (Hst t1 r Ht1 Hr Hsl) as (t' & E & Ht' & Hg). exists t', r. split_and!; try done.
    destruct Hf as (? & Hf0 & Hf1). split_and!; [done|by rewrite <- Hsl|]. intros j Hj. rewrite <- Hsl. by apply Hf1.
Qed.

(** ** Duplicating a description *)

(** The address of a new description. *)
Class FdAllocator (malloc : gmap Z fd_t -> Z) : Prop := fd_fresh : forall g, malloc g <> 0 /\ g !! malloc g = None.

(** The node a description refers to, the end of a pipe (the pipe, and whether
    it is the writing end) and the socket. *)
Definition node_of s (p : Z) : option Z := f ← fs_fd s !! p; Some (fd_node f).
Definition end_of s (p : Z) : option (Z * bool) :=
  n ← node_of s p; ty ← fs_type s !! n; v ← ps_nodes (fs_pipe s) !! n;
  if Z.land ty file_pipe =? 0 then None else sp ← ps_specs (fs_pipe s) !! vn_handle v; Some (sp_info sp, sp_write sp).
Definition sock_of s (p : Z) : option Z :=
  n ← node_of s p; ty ← fs_type s !! n; v ← ps_nodes (fs_pipe s) !! n;
  if (Z.land ty file_socket =? 0) || (vn_handle v =? 0) then None else info ← fs_handle s !! vn_handle v; if info =? 0 then None else Some info.

(** Everything a description refers to is there, and no lock is held. *)
Record fd_live s (p : Z) : Prop := {
  lv_node : exists f ty v, fs_fd s !! p = Some f /\ fs_type s !! fd_node f = Some ty /\ ps_nodes (fs_pipe s) !! fd_node f = Some v /\
    (Z.land ty file_pipe <> 0 -> exists sp x, ps_specs (fs_pipe s) !! vn_handle v = Some sp /\ ps_pipes (fs_pipe s) !! sp_info sp = Some x /\ pi_lock x = false) /\
    (Z.land ty file_socket <> 0 -> vn_handle v <> 0 -> exists info, fs_handle s !! vn_handle v = Some info /\ (info <> 0 -> exists x, fs_sock s !! info = Some x /\ so_lock x = false));
}.

(** [s'] is [s] with more users: [U n] of node [n], [E (p, w)] of the end of a
    pipe and [C i] of a socket; a count that does not overflow is exact. *)
Record counted s s' (U : Z -> Z) (E : Z * bool -> Z) (C : Z -> Z) : Prop := {
  ct_fd : forall p f, fs_fd s !! p = Some f -> fs_fd s' !! p = Some f;
  ct_type : fs_type s' = fs_type s;
  ct_handle : fs_handle s' = fs_handle s;
  ct_specs : ps_specs (fs_pipe s') = ps_specs (fs_pipe s);
  ct_node : forall n v, ps_nodes (fs_pipe s) !! n = Some v -> exists v', ps_nodes (fs_pipe s') !! n = Some v' /\ vn_handle v' = vn_handle v /\
    (0 <= vn_refcount v -> vn_refcount v + U n < two32 -> vn_refcount v' = vn_refcount v + U n);
  ct_pipe : forall p x, ps_pipes (fs_pipe s) !! p = Some x -> pi_lock x = false -> exists x', ps_pipes (fs_pipe s') !! p = Some x' /\ pi_lock x' = false /\ pi_buf x' = pi_buf x /\ pi_ptr x' = pi_ptr x /\
    (0 <= write_fds x -> write_fds x + E (p, true) < two31 -> write_fds x' = write_fds x + E (p, true)) /\
    (0 <= read_fds x -> read_fds x + E (p, false) < two31 -> read_fds x' = read_fds x + E (p, false));
  ct_sock : forall i x, fs_sock s !! i = Some x -> so_lock x = false -> exists x', fs_sock s' !! i = Some x' /\ so_lock x' = false /\
    (0 <= so_refcount x -> so_refcount x + C i < two31 -> so_refcount x' = so_refcount x + C i);
}.

Lemma counted_refl s : counted s s (fun _ => 0) (fun _ => 0) (fun _ => 0).
Proof.
  split; try done.
  - intros n v H. exists v. split_and!; try done. lia.
  - intros p x H Hl. exists x. split_and!; try done; lia.
  - intros i x H Hl. exists x. split_and!; try done. lia.
Qed.

Lemma counted_trans s1 s2 s3 U E C U' E' C' :
  counted s1 s2 U E C -> counted s2 s3 U' E' C' -> (forall n, 0 <= U n) -> (forall e, 0 <= E e) -> (forall i, 0 <= C i) -> (forall n, 0 <= U' n) -> (forall e, 0 <= E' e) -> (forall i, 0 <= C' i) ->
  counted s1 s3 (fun n => U n + U' n) (fun e => E e + E' e) (fun i => C i + C' i).
Proof.
  intros [Hf Ht Hh Hs Hn Hp Hk] [Hf' Ht' Hh' Hs' Hn' Hp' Hk'] PU PE PC PU' PE' PC'. split; try congruence.
  - intros p f H. by apply Hf', Hf.
  - intros n v H. destruct (Hn _ _ H) as (v1 & H1 & A1 & B1). destruct (Hn' _ _ H1) as (v2 & H2 & A2 & B2). exists v2. split; [done|]. split; [congruence|].
    intros H0 Hlt. specialize (PU n). specialize (PU' n). rewrite B1 in B2 by lia. rewrite B2 by lia. lia.
  - intros p x H Hl. destruct (Hp _ _ H Hl) as (x1 & H1 & L1 & F1 & P1 & W1 & R1). destruct (Hp' _ _ H1 L1) as (x2 & H2 & L2 & F2 & P2 & W2 & R2). exists x2. split_and!; try done; [congruence|congruence| |].
    + intros H0 Hlt. pose proof (PE (p, true)). pose proof (PE' (p, true)). rewrite W1 in W2 by lia. rewrite W2 by lia. lia.
    + intros H0 Hlt. pose proof (PE (p, false)). pose proof (PE' (p, false)). rewrite R1 in R2 by lia. rewrite R2 by lia. lia.
  - intros i x H Hl. destruct (Hk _ _ H Hl) as (x1 & H1 & L1 & W1). destruct (Hk' _ _ H1 L1) as (x2 & H2 & L2 & W2). exists x2. split_and!; try done.
    intros H0 Hlt. specialize (PC i). specialize (PC' i). rewrite W1 in W2 by lia. rewrite W2 by lia. lia.
Qed.

(** One user of [a], if any. *)
Definition one {A} `{EqDecision A} (o : option A) (a : A) : Z := if decide (o = Some a) then 1 else 0.

Lemma one_nonneg {A} `{EqDecision A} (o : option A) a : 0 <= one o a.
Proof. unfold one. destruct (decide _); lia. Qed.

Lemma one_none {A} `{EqDecision A} (a : A) : one None a = 0.
Proof. done. Qed.

(** The links of a description that was there stay the same. *)
Lemma counted_links s s' U E C p :
  counted s s' U E C -> fd_live s p -> fd_live s' p /\ node_of s' p = node_of s p /\ end_of s' p = end_of s p /\ sock_of s' p = sock_of s p.
Proof.
  intros [Hf Ht Hh Hs Hn Hp Hk] [(f & ty & v & Ef & Ety & Ev & Hpipe & Hsock)]. pose proof (Hf _ _ Ef) as Ef'. destruct (Hn _ _ Ev) as (v' & Ev' & Hv & _).
  split; [|unfold end_of, sock_of, node_of; rewrite Ef, Ef'; cbn [mbind option_bind]; rewrite Ht, Ety; cbn [mbind option_bind]; rewrite Ev, Ev'; cbn [mbind option_bind]; by rewrite Hv, Hs, Hh].
  split. exists f, ty, v'. split; [done|]. split; [by rewrite Ht|]. split; [done|]. split.
  - intros H. destruct (Hpipe H) as (sp & x & E1 & E2 & E3). destruct (Hp _ _ E2 E3) as (x' & E2' & E3' & _). exists sp, x'. by rewrite Hs, Hv.
  - intros H H0. rewrite Hv in *. destruct (Hsock H H0) as (info & E1 & E2). exists info. rewrite Hh. split; [done|]. intros Hi. destruct (E2 Hi) as (x & E3 & E4). destruct (Hk _ _ E3 E4) as (x' & ? & ? & _). eauto.
Qed.

Lemma count_end_lock w x : pi_lock x = false -> pi_with_lock (count_end w (pi_with_lock x true)) false = count_end w x.
Proof. destruct x, w; simpl; by intros ->. Qed.

Lemma dup_pipe_ok ps h sp x :
  ps_specs ps !! h = Some sp -> ps_pipes ps !! sp_info sp = Some x -> pi_lock x = false ->
  dup_pipe ps h = Some (put_pipe ps (sp_info sp) (count_end (sp_write sp) x)).
Proof.
  intros Es Ex Hl. unfold dup_pipe. rewrite Es. cbn [mbind option_bind]. unfold lock_pipe. rewrite Ex. cbn [mbind option_bind]. rewrite Hl. cbn [mbind option_bind spin_lock].
  unfold mod_pipe. simpl. rewrite lookup_insert_eq. cbn [mbind option_bind]. unfold unlock_pipe, mod_pipe. simpl. rewrite lookup_insert_eq. cbn [mbind option_bind]. unfold put_pipe. simpl.
  rewrite !insert_insert_eq. unfold spin_unlock. by rewrite count_end_lock.
Qed.

(** A pipe with one more user of an end. *)
Lemma counted_pipe s sp x :
  ps_pipes (fs_pipe s) !! sp_info sp = Some x -> pi_lock x = false ->
  counted s (with_pipe s (put_pipe (fs_pipe s) (sp_info sp) (count_end (sp_write sp) x))) (fun _ => 0) (one (Some (sp_info sp, sp_write sp))) (fun _ => 0).
Proof.
  intros Ex Hl. split; try done.
  - intros n v H. exists v. split_and!; try done. lia.
  - intros p y Ey Hly. simpl. destruct (decide (p = sp_info sp)) as [->|Hne].
    + rewrite lookup_insert_eq. assert (y = x) as -> by congruence. eexists. split; [done|]. unfold one. destruct (sp_write sp) eqn:Ew; simpl; split_and!; try done.
      * intros H0 Hlt. rewrite decide_True in * by done. rewrite i32_id by lia. done.
      * rewrite decide_False by congruence. lia.
      * rewrite decide_False by congruence. lia.
      * intros H0 Hlt. rewrite decide_True in * by done. rewrite i32_id by lia. done.
    + rewrite lookup_insert_ne by done. exists y. unfold one. rewrite !decide_False by congruence. split_and!; try done; lia.
  - intros i y Ey Hly. exists y. split_and!; try done. lia.
Qed.

Lemma counted_socket s info x :
  fs_sock s !! info = Some x -> so_lock x = false ->
  counted s (with_sock s info (mkSock (i32 (so_refcount x + 1)) false)) (fun _ => 0) (fun _ => 0) (one (Some info)).
Proof.
  intros Ex Hl. split; try done.
  - intros n v H. exists v. split_and!; try done. lia.
  - intros p y H Hy. exists y. split_and!; try done; lia.
  - intros i y Ey Hly. simpl. destruct (decide (i = info)) as [->|Hne].
    + rewrite lookup_insert_eq. assert (y = x) as -> by congruence. eexists. split; [done|]. split; [done|]. unfold one. rewrite decide_True by done. simpl. intros H0 Hlt. by rewrite i32_id by lia.
    + rewrite lookup_insert_ne by done. exists y. unfold one. rewrite decide_False by congruence. split_and!; try done. lia.
Qed.

Lemma counted_node s n v q f :
  ps_nodes (fs_pipe s) !! n = Some v -> fs_fd s !! q = None ->
  counted s (with_fd (with_pipe s (put_node (fs_pipe s) n (ref_node v))) q f) (one (Some n)) (fun _ => 0) (fun _ => 0).
Proof.
  intros Ev Hq. split; try done.
  - intros p g Hg. simpl. rewrite lookup_insert_ne by congruence. done.
  - intros m y Ey. simpl. destruct (decide (m = n)) as [->|Hne].
    + rewrite lookup_insert_eq. assert (y = v) as -> by congruence. eexists. split; [done|]. split; [done|]. unfold one. rewrite decide_True by done. simpl. intros H0 Hlt. by rewrite u32_id by lia.
    + rewrite lookup_insert_ne by done. exists y. unfold one. rewrite decide_False by congruence. split_and!; try done. lia.
  - intros p y H Hy. exists y. split_and!; try done; lia.
  - intros i y Ey Hly. exists y. split_and!; try done. lia.
Qed.

Lemma counted_ext s s' U E C U' E' C' :
  counted s s' U E C -> (forall n, U' n = U n) -> (forall e, E' e = E e) -> (forall i, C' i = C i) -> counted s s' U' E' C'.
Proof. intros [] HU HE HC. split; try done; intros; rewrite ?HU, ?HE, ?HC; auto. Qed.

Section Dup.
Context (malloc : gmap Z fd_t -> Z) {HM : FdAllocator malloc}.

Lemma dup_ok s p :
  fd_live s p ->
  exists s' q f, fd_dup malloc s p = Some (s', q) /\ q <> 0 /\ fs_fd s !! q = None /\ fs_fd s !! p = Some f /\ fs_fd s' = <[q := f]> (fs_fd s) /\
    counted s s' (one (node_of s p)) (one (end_of s p)) (one (sock_of s p)).
Proof.
  intros [(f & ty & v & Ef & Ety & Ev & Hpipe & Hsock)]. destruct (fd_fresh (fs_fd s)) as [Hq0 Hq]. set (q := malloc (fs_fd s)) in *.
  unfold fd_dup. fold q. rewrite (proj2 (Z.eqb_neq _ _) Hq0), Ef. cbn [mbind option_bind]. unfold mod_node. rewrite Ev. cbn [mbind option_bind].
  set (s1 := with_fd (with_pipe s (put_node (fs_pipe s) (fd_node f) (ref_node v))) q f). change (fs_type s1) with (fs_type s). rewrite Ety. cbn [mbind option_bind].
  assert (ps_nodes (fs_pipe s1) !! fd_node f = Some (ref_node v)) as Ev1 by (simpl; by rewrite lookup_insert_eq). rewrite Ev1. cbn [mbind option_bind]. change (vn_handle (ref_node v)) with (vn_handle v).
  pose proof (counted_node s (fd_node f) v q f Ev Hq) as C1. fold s1 in C1.
  assert (node_of s p = Some (fd_node f)) as En by (unfold node_of; by rewrite Ef).
  assert (exists s2, (if negb (Z.land ty file_pipe =? 0) then ps ← dup_pipe (fs_pipe s1) (vn_handle v); Some (with_pipe s1 ps) else Some s1) = Some s2 /\
    fs_fd s2 = fs_fd s1 /\ fs_sock s2 = fs_sock s1 /\ counted s1 s2 (fun _ => 0) (one (end_of s p)) (fun _ => 0)) as (s2 & -> & Hf2 & Hk2 & C2).
  { unfold end_of. rewrite En. cbn [mbind option_bind]. rewrite Ety. cbn [mbind option_bind]. rewrite Ev. cbn [mbind option_bind]. destruct (Z.eqb_spec (Z.land ty file_pipe) 0) as [E|E]; cbn [negb].
    - exists s1. split_and!; try done. eapply counted_ext; [apply counted_refl|done..].
    - destruct (Hpipe E) as (sp & x & Esp & Ex & Hl). rewrite (dup_pipe_ok (fs_pipe s1) _ sp x Esp Ex Hl), Esp. cbn [mbind option_bind]. eexists. split; [done|]. split; [done|]. split; [done|]. by apply (counted_pipe s1). }
  assert (exists s3, (if negb (Z.land ty file_socket =? 0) then dup_socket s2 (vn_handle v) else Some s2) = Some s3 /\
    fs_fd s3 = fs_fd s2 /\ counted s2 s3 (fun _ => 0) (fun _ => 0) (one (sock_of s p))) as (s3 & E3 & Hf3 & C3).
  { unfold sock_of. rewrite En. cbn [mbind option_bind]. rewrite Ety. cbn [mbind option_bind]. rewrite Ev. cbn [mbind option_bind].
    assert (exists s3, Some s2 = Some s3 /\ fs_fd s3 = fs_fd s2 /\ counted s2 s3 (fun _ => 0) (fun _ => 0) (one None)) as Hsame by (exists s2; split_and!; try done; eapply counted_ext; [apply counted_refl|done..]).
    destruct (Z.eqb_spec (Z.land ty file_socket) 0) as [E|E]; cbn [negb orb]; [done|]. unfold dup_socket. destruct (Z.eqb_spec (vn_handle v) 0) as [E0|E0]; [done|].
    destruct (Hsock E E0) as (info & Ei & Hx). rewrite (ct_handle _ _ _ _ _ C2). change (fs_handle s1) with (fs_handle s). rewrite Ei. cbn [mbind option_bind].
    destruct (Z.eqb_spec info 0) as [Ei0|Ei0]; [done|]. destruct (Hx Ei0) as (x & Ex & Hl). rewrite Hk2. change (fs_sock s1) with (fs_sock s). rewrite Ex. cbn [mbind option_bind]. rewrite Hl. cbn [mbind option_bind spin_lock].
    eexists. split; [done|]. split; [done|]. apply counted_socket; [|done]. by rewrite Hk2. }
  cbn [mbind option_bind]. rewrite E3. cbn [mbind option_bind]. exists s3, q, f. split_and!; try done; [by rewrite Hf3, Hf2|].
  assert (forall A (EQ : EqDecision A) (o : option A) a, 0 <= @one A EQ o a) as Hone by (intros; apply one_nonneg).
  eapply counted_ext; [eapply counted_trans; [eapply (counted_trans s s1 s2); [exact C1|exact C2|..]|exact C3|..]|..]; try (intros; simpl; rewrite ?En; first [lia|apply Hone|pose proof (Hone _ _ (Some (fd_node f)) n); lia]);
    intros; simpl; rewrite ?En; try lia; repeat apply Z.add_nonneg_nonneg; try lia; apply Hone.
Qed.

(** ** Copying a table *)

(** How many of the descriptions [L] use [a]. *)
Definition uses {A} `{EqDecision A} (g : Z -> option A) (L : list Z) (a : A) : Z := foldr (fun p n => (if p =? 0 then 0 else one (g p) a) + n) 0 L.

Lemma uses_nonneg {A} `{EqDecision A} (g : Z -> option A) L a : 0 <= uses g L a.
Proof. unfold uses. induction L as [|p L IH]; simpl; [lia|]. pose proof (one_nonneg (g p) a). destruct (p =? 0); lia. Qed.

Lemma uses_ext {A} `{EqDecision A} (g h : Z -> option A) L a : (forall p, p ∈ L -> p <> 0 -> g p = h p) -> uses g L a = uses h L a.
Proof.
  unfold uses. induction L as [|p L IH]; intros H; simpl; [done|]. rewrite IH by (intros; apply H; [set_solver|done]). destruct (Z.eqb_spec p 0); [done|]. by rewrite H by set_solver.
Qed.

(** An element that passes the filter is at one place. *)
Lemma NoDup_filter_lookup (l : list Z) : forall (i j : nat) q, NoDup (filter (fun q => q <> 0) l) -> l !! i = Some q -> l !! j = Some q -> q <> 0 -> i = j.
Proof.
  induction l as [|x l IH]; intros i j q N Hi Hj Hq; [done|]. assert (forall k, l !! k = Some q -> q ∈ filter (fun q => q <> 0) l) as Hin by (intros k Hk; apply list_elem_of_filter; split; [done|by eapply list_elem_of_lookup_2]).
  assert (NoDup (filter (fun q => q <> 0) l) /\ (x <> 0 -> x ∉ filter (fun q => q <> 0) l)) as [N' Hx].
  { destruct (decide (x <> 0)) as [H|H]; [rewrite filter_cons_True in N by done; apply NoDup_cons in N as [? ?]; done|rewrite filter_cons_False in N by done; done]. }
  destruct i as [|i], j as [|j]; simpl in *; [done| | |f_equal; by eapply IH].
  - injection Hi as ->. by destruct (Hx Hq); apply (Hin j).
  - injection Hj as ->. by destruct (Hx Hq); apply (Hin i).
Qed.

(** [q] is a copy of [p]. *)
Definition copied s s' (p q : Z) : Prop := p = 0 /\ q = 0 \/ p <> 0 /\ q <> 0 /\ fs_fd s !! q = None /\ is_Some (fs_fd s !! p) /\ fs_fd s' !! q = fs_fd s !! p.

Lemma copy_loop_ok L : forall s,
  (forall p, p ∈ L -> p <> 0 -> fd_live s p) ->
  exists s' l, copy_loop malloc s L = Some (s', l) /\ Forall2 (copied s s') L l /\ NoDup (filter (fun q => q <> 0) l) /\ counted s s' (uses (node_of s) L) (uses (end_of s) L) (uses (sock_of s) L).
Proof.
  induction L as [|p L IH]; intros s Hl; cbn [copy_loop].
  { exists s, []. split_and!; try done; [constructor|]. apply counted_refl. }
  destruct (Z.eqb_spec p 0) as [->|Hp]; cbn [negb mbind option_bind].
  { destruct (IH s) as (s' & l & -> & HF & HN & HC); [intros; apply Hl; [set_solver|done]|]. cbn [mbind option_bind]. exists s', (0 :: l). split_and!; try done.
    constructor; [by left|done]. }
  pose proof (Hl p ltac:(set_solver) Hp) as Hlp. destruct (dup_ok s p Hlp) as (s1 & q & f & -> & Hq0 & Hq & Ef & Hf1 & C1). cbn [mbind option_bind].
  assert (forall u, u ∈ L -> u <> 0 -> fd_live s1 u /\ node_of s1 u = node_of s u /\ end_of s1 u = end_of s u /\ sock_of s1 u = sock_of s u) as Hlk by (intros u Hu Hu0; eapply counted_links; [done|apply Hl; [set_solver|done]]).
  destruct (IH s1) as (s' & l & -> & HF & HN & HC); [intros; by apply Hlk|]. cbn [mbind option_bind]. exists s', (q :: l). split; [done|].
  assert (fs_fd s1 !! q = Some f) as Hq1 by (by rewrite Hf1, lookup_insert_eq).
  split_and!.
  - constructor; [right; split_and!; try done; rewrite Ef; by apply (ct_fd _ _ _ _ _ HC)|]. apply Forall2_same_length_lookup. apply Forall2_same_length_lookup in HF as [Hlen HF]. split; [done|].
    intros i u w Hu Hw. destruct (HF i u w Hu Hw) as [?|(Hu0 & Hw0 & Hwn & _ & Hww)]; [by left|right]. assert (u ∈ L) as HuL by (by eapply list_elem_of_lookup_2).
    destruct (Hl u) as [(fu & ? & ? & Efu & _)]; [set_solver|done|]. pose proof (ct_fd _ _ _ _ _ C1 _ _ Efu) as Efu1.
    split_and!; [done|done| |eauto|congruence]. destruct (fs_fd s !! w) eqn:Ew; [|done]. by rewrite (ct_fd _ _ _ _ _ C1 _ _ Ew) in Hwn.
  - rewrite filter_cons_True by done. constructor; [|done]. rewrite list_elem_of_filter. intros [_ (i & Hi)%list_elem_of_lookup_1]. apply Forall2_same_length_lookup in HF as [Hlen HF].
    destruct (lookup_lt_is_Some_2 L i) as [u Hu]; [rewrite Hlen; by eapply lookup_lt_Some|]. destruct (HF i u q Hu Hi) as [[_ ?]|(_ & _ & Hqn & _)]; [done|]. congruence.
  - eapply counted_ext; [eapply counted_trans; [exact C1|exact HC|..]|..]; try (intros; first [apply one_nonneg|apply uses_nonneg]); intros; simpl; rewrite (proj2 (Z.eqb_neq _ _) Hp); f_equal;
      apply uses_ext; intros u Hu Hu0; by destruct (Hlk u Hu Hu0) as (_ & ? & ? & ?).
Qed.

(** C26: copying the table of a process gives every descriptor a description of its own with the same contents, keeps all others, and adds exactly the new users to the counts of every node, of both ends of every pipe and of every socket; no lock is left held. *)
Theorem copy_fdt_correct s t :
  fdt_ok t -> (forall i, slot t i <> 0 -> fd_live s (slot t i)) ->
  exists s' t', copy_fdt malloc true true s (Some t) = Some (s', Some t') /\ fdt_ok t' /\ fds_length t' = fds_length t /\ (forall i, copied s s' (slot t i) (slot t' i)) /\
    (forall i j, slot t' i <> 0 -> slot t' i = slot t' j -> i = j) /\
    counted s s' (uses (node_of s) (fds t)) (uses (end_of s) (fds t)) (uses (sock_of s) (fds t)).
Proof.
  intros [Hlen Hsm] Hlive. unfold copy_fdt. cbn [negb]. rewrite take_ge by (unfold zlen in Hlen; lia).
  destruct (copy_loop_ok (fds t) s) as (s' & l & -> & HF & HN & HC).
  { intros p (i & Hi)%list_elem_of_lookup_1 Hp. assert (slot t (Z.of_nat i) = p) as <- by (unfold slot, zget; rewrite (proj2 (Z.ltb_ge _ _)) by lia; by rewrite Nat2Z.id, Hi). by apply Hlive. }
  cbn [mbind option_bind]. apply Forall2_same_length_lookup in HF as [Hl HF]. assert (zlen l = zlen (fds t)) as Hzl by (unfold zlen; by rewrite Hl).
  eexists _, _. split; [done|]. split; [split; simpl; [congruence|done]|]. split; [done|]. split_and!; try done.
  - intros i. unfold slot. simpl. destruct (decide (0 <= i < zlen l)) as [Hi|Hi].
    + destruct (zget_ok l i Hi) as [q Eq]. destruct (zget_ok (fds t) i) as [p Ep]; [lia|]. rewrite Eq, Ep. simpl. unfold zget in *. destruct (i <? 0); [done|]. by apply (HF (Z.to_nat i)).
    + rewrite !zget_none by lia. by left.
  - intros i j. unfold slot. simpl. intros Hi Hij. destruct (zget l i) as [q|] eqn:Ei; [|done]. destruct (zget l j) as [r|] eqn:Ej; [|done]. simpl in *. subst r.
    assert (0 <= i /\ 0 <= j) as [? ?] by (apply zget_range in Ei, Ej; lia). unfold zget in Ei, Ej. destruct (i <? 0); [done|]. destruct (j <? 0); [done|].
    assert (Z.to_nat i = Z.to_nat j); [|lia]. by eapply NoDup_filter_lookup.
Qed.
End Dup.

(** ** The system calls *)

Lemma ensure_ok t e B :
  fdt_ok t -> fds_length t < B -> 0 <= e < B -> 5 <= B <= 2 ^ 29 ->
  exists t', ensure_fdt_capacity true t e = Some (t', EOK) /\ fdt_ok t' /\ fds_length t <= fds_length t' < 2 * B /\ e < fds_length t' /\ forall j, slot t' j = slot t j.
Proof.
  intros Ht Hl He HB. pose proof (zlen_nonneg (fds t)) as H0. rewrite (ft_len _ Ht) in H0. unfold ensure_fdt_capacity. cbn [ensure_loop]. rewrite Z.geb_leb.
  destruct (Z.leb_spec (fds_length t) e) as [Hle|Hgt]; [|exists t; split_and!; try done; lia].
  unfold FD_GROWTH_FACTOR, FD_INITIAL_CAPACITY. rewrite u64_id by lia. set (n0 := if fds_length t * 2 =? 0 then 5 else fds_length t * 2). set (n := if n0 <=? e then e + 1 else n0).
  assert (fds_length t <= n < 2 * B /\ e < n) as [Hn Hen].
  { unfold n, n0. destruct (Z.eqb_spec (fds_length t * 2) 0); [destruct (Z.leb_spec 5 e)|destruct (Z.leb_spec (fds_length t * 2) e)]; lia. }
  destruct (grown_ok t n Ht ltac:(lia)) as (t' & -> & Ht' & Hl' & Hsl). cbn [negb mbind option_bind ensure_loop]. rewrite Z.geb_leb, (proj2 (Z.leb_gt _ _)) by lia.
  exists t'. split_and!; try done; lia.
Qed.

Lemma minfd_loop_ok fuel : forall t i,
  fdt_ok t -> fds_length t < 2 ^ 29 -> 0 <= i <= fds_length t -> fds_length t - i < Z.of_nat fuel ->
  exists t' r, minfd_loop fuel true t i = Some (t', Some r) /\ fdt_ok t' /\ r < fds_length t' /\ (forall j, slot t' j = slot t j) /\ first_free t i r.
Proof.
  induction fuel as [|fuel IH]; intros t i Ht Hs Hi Hf; [lia|]. cbn [minfd_loop]. rewrite Z.geb_leb. destruct (Z.leb_spec (fds_length t) i) as [Hge|Hlt].
  - destruct (ensure_ok t i (2 ^ 29) Ht Hs) as (t' & -> & Ht' & Hl' & Hi' & Hsl); [lia|lia|]. cbn [mbind option_bind]. change (EOK <? 0) with false. cbn iota. rewrite (slot_in t' i Ht'), Hsl, slot_out by (try done; lia).
    cbn [mbind option_bind]. exists t', i. change (0 =? 0) with true. cbn iota. split_and!; try done. split_and!; [lia|apply slot_out; [done|lia]|lia].
  - cbn [mbind option_bind]. change (EOK <? 0) with false. cbn iota. rewrite (slot_in t i Ht) by lia. cbn [mbind option_bind]. destruct (Z.eqb_spec (slot t i) 0) as [E|E].
    + exists t, i. split_and!; try done. split_and!; [lia|done|lia].
    + destruct (IH t (i + 1)) as (t' & r & -> & Ht' & Hr & Hsl & Hlo & H0 & Hj); [done|done|lia|lia|]. exists t', r. split_and!; try done. split_and!; [lia|done|].
      intros j Hj'. destruct (decide (j = i)) as [->|]; [done|]. apply Hj. lia.
Qed.

Section Calls.
Context (malloc : gmap Z fd_t -> Z) {HM : FdAllocator malloc}.

(** Fcntl with F_DUPFD duplicates the description at the lowest free descriptor not below the one asked for, enlarging the table as needed; the copy has its own number and close-on-exec flag, no other descriptor changes, and the counts of the node, the pipe end and the socket grow by one. *)
Theorem dup_with_minfd_correct s t h min_fd cloexec :
  fdt_ok t -> fds_length t < 2 ^ 28 -> 0 <= min_fd < 2 ^ 28 -> fd_live s h ->
  exists s' t' i q f, dup_with_minfd malloc true s t h min_fd cloexec = Some (s', t', i) /\ fdt_ok t' /\ first_free t min_fd i /\
    (forall j, slot t' j = if decide (j = i) then q else slot t j) /\ fs_fd s !! q = None /\ fs_fd s !! h = Some f /\ fs_fd s' !! q = Some (set_cloexec f i cloexec) /\
    counted s s' (one (node_of s h)) (one (end_of s h)) (one (sock_of s h)).
Proof.
  intros Ht Hs Hm Hlive. unfold dup_with_minfd. rewrite (proj2 (Z.ltb_ge _ _)) by lia.
  destruct (ensure_ok t min_fd (2 ^ 28) Ht Hs Hm) as (t1 & -> & Ht1 & Hl1 & Hm1 & Hsl1); [lia|]. cbn [mbind option_bind]. change (EOK <? 0) with false. cbn iota.
  destruct (minfd_loop_ok (Datatypes.S (Z.to_nat (fds_length t1))) t1 min_fd Ht1) as (t2 & i & -> & Ht2 & Hi & Hsl2 & Hlo & H0 & Hj); [lia|lia|lia|]. cbn [mbind option_bind].
  destruct (dup_ok malloc s h Hlive) as (s1 & q & f & -> & Hq0 & Hq & Ef & Hf1 & C1). cbn [mbind option_bind]. rewrite Hf1, lookup_insert_eq. cbn [mbind option_bind].
  destruct (store_ok t2 i q Ht2 ltac:(lia)) as (t3 & -> & Ht3 & _ & Hsl3). cbn [mbind option_bind]. eexists _, t3, i, q, f. split; [done|]. split; [done|].
  split; [split_and!; [done|by rewrite <- Hsl1|]; intros j Hj'; rewrite <- Hsl1; by apply Hj|]. split; [intros j; rewrite Hsl3, Hsl2, Hsl1; done|].
  split; [done|]. split; [done|]. split; [simpl; by rewrite lookup_insert_eq|]. destruct C1 as [Cf Ct Ch Cs Cn Cp Ck]. split; try done.
  intros p g Hg. simpl. rewrite lookup_insert_ne by congruence. by apply Cf.
Qed.
End Calls.

(** ** Witnesses *)

Definition top_fd (g : gmap Z fd_t) : Z := 1 + top_key g.

#[export] Instance top_fd_allocator : FdAllocator top_fd.
Proof. intros g. pose proof (top_key_nonneg g). split; [unfold top_fd; lia|]. apply top_key_fresh. unfold top_fd. lia. Qed.

Lemma add_fd_correct_witness : exists t' i, add_fd true (mkFdt [70; 0; 80] 3) 90 = Some (t', i) /\ i = 1 /\ get_fd t' 1 = Some 90 /\ get_fd t' 2 = Some 80.
Proof.
  destruct (add_fd_correct (mkFdt [70; 0; 80] 3) 90) as (t' & i & E & _ & _ & Hg); [split; done|simpl; lia|lia|]. exists t', i. vm_compute in E. injection E as Et Ei.
  split; [rewrite <- Et, <- Ei; reflexivity|]. split; [done|]. rewrite !Hg by lia. subst i. split; reflexivity.
Defined.

(** Descriptor 0 is the writing end of a pipe. *)
Definition demo_fds : fd_sys :=
  mkFs (mkPs {[ 300 := mkPipe 0 [] 0 1 1 0 false false 0 400 ]} {[ 200 := mkSpec true 300 400 0 false ]} {[ 400 := mkNode 0 0 200 1 0 [] ]} []) {[ 400 := file_pipe ]} ∅ ∅ {[ 70 := mkFd 400 0 0 O_CLOEXEC 0 ]}.

Lemma demo_live : fd_live demo_fds 70.
Proof.
  split. exists (mkFd 400 0 0 O_CLOEXEC 0), file_pipe, (mkNode 0 0 200 1 0 []). split; [reflexivity|]. split; [reflexivity|]. split; [reflexivity|]. split.
  - intros _. exists (mkSpec true 300 400 0 false), (mkPipe 0 [] 0 1 1 0 false false 0 400). split; [reflexivity|]. split; reflexivity.
  - intros H. exfalso. apply H. reflexivity.
Qed.

Lemma copy_fdt_correct_witness :
  exists s' t' x, copy_fdt top_fd true true demo_fds (Some (mkFdt [70; 0; 0; 0; 0] 5)) = Some (s', Some t') /\ ps_pipes (fs_pipe s') !! 300 = Some x /\ write_fds x = 2 /\ read_fds x = 1.
Proof.
  destruct (copy_fdt_correct top_fd demo_fds (mkFdt [70; 0; 0; 0; 0] 5)) as (s' & t' & E & _ & _ & _ & _ & HC).
  - split; done.
  - intros i Hi. assert (slot (mkFdt [70; 0; 0; 0; 0] 5) i = 70) as ->; [|apply demo_live]. unfold slot, zget in *. destruct (i <? 0); [done|]. simpl in *. destruct (Z.to_nat i) as [|[|[|[|[|n]]]]]; try done.
  - destruct (ct_pipe _ _ _ _ _ HC 300 (mkPipe 0 [] 0 1 1 0 false false 0 400)) as (x & Ex & _ & _ & _ & Hw & Hr); [reflexivity|reflexivity|].
    exists s', t', x. split; [exact E|]. split; [exact Ex|]. split; [apply Hw|apply Hr]; vm_compute; first [reflexivity|discriminate].
Defined.

Lemma dup_with_minfd_correct_witness :
  exists s' t' i, dup_with_minfd top_fd true demo_fds (mkFdt [70; 0; 0; 0; 0] 5) 70 8 true = Some (s', t', i) /\ first_free (mkFdt [70; 0; 0; 0; 0] 5) 8 i.
Proof.
  destruct (dup_with_minfd_correct top_fd demo_fds (mkFdt [70; 0; 0; 0; 0] 5) 70 8 true) as (s' & t' & i & q & f & E & _ & Hf & _); [split; done|simpl; lia|lia|apply demo_live|].
  exists s', t', i. split; [exact E|exact Hf].
Defined.
