(* ===== verification/Frames.v ===== *)
(** * What the frame allocator promises to its users

    The class [Frames] is the contract: a user has a set of blocks of page
    frames that do not overlap; [alloc] adds one, or fails with 0, and [free]
    takes one away. The buddy allocator meets it. *)

From stdpp Require Import gmap.
From S2P Require Import Prelude Bitmap PageRef PageList Buddy BuddyInv BuddySys BuddyFree Frame FrameInv FrameProps.

(** [owns s M]: the blocks of [M], from an address to a number of frames, have
    been handed out and not given back. *)
Class Frames {S : Type} (alloc : S -> Z -> option (S * Z)) (free : S -> Z -> Z -> option S) := {
  owns : S -> gmap Z Z -> Prop;
  owns_range : forall s M a n, owns s M -> M !! a = Some n -> 0 < a /\ 0 < n /\ a + n * PAGE_SIZE <= two64;
  owns_apart : forall s M a n a' n', owns s M -> M !! a = Some n -> M !! a' = Some n' -> a <> a' -> a + n * PAGE_SIZE <= a' \/ a' + n' * PAGE_SIZE <= a;
  alloc_owns : forall s M n, owns s M -> 1 <= n < two64 ->
    exists s' a, alloc s n = Some (s', a) /\ (a = 0 /\ owns s' M \/ a <> 0 /\ M !! a = None /\ owns s' (<[a := n]> M));
  free_owns : forall s M a n, owns s M -> M !! a = Some n -> exists s', free s a n = Some s' /\ owns s' (delete a M);
}.

(** ** The buddy allocator *)

Implicit Types (s : memsys) (pm : list Z) (M : gmap Z Z).

Lemma held_iff s pm o a v :
  0 <= o - MIN_ORDER ->
  frames_held s pm o a v = true <-> forall q, q ∈ pages_of (o, a) -> bit (ms_using s) q = true /\ bit (rc_usable (ms_ref s)) q = true /\ zget pm q = Some v.
Proof.
  intros Ho. assert (0 < 2 ^ (o - MIN_ORDER)) by (apply pow2_pos; lia). unfold frames_held. rewrite andb_true_iff, !all_from_true, Z2Nat.id by lia. unfold count_is. split.
  - intros [H1 H2] q Hq%elem_pages_of. specialize (H1 q Hq). specialize (H2 q Hq). apply andb_true_iff in H1 as [? ?]. apply bool_decide_eq_true in H2. done.
  - intros Hall. split; intros q Hq%elem_pages_of; destruct (Hall q Hq) as (H1 & H2 & H3); [by rewrite H1, H2|by apply bool_decide_eq_true].
Qed.

(** A block of order [o] in a zone of [s], handed out for [n] frames. *)
Record block_held s pm (a n o : Z) : Prop := {
  bh_zone : exists ty z p, ms_zones s ty = Some z /\ block_ok z (o, a) /\ count_to_order n = Some (Some (o, p));
  bh_count : 1 <= n < two64;
  bh_held : frames_held s pm o a 1 = true;
}.

Definition buddy_owns s M : Prop :=
  exists B pm C, mem_ok s B pm C /\ all_usable s B /\ (forall a n, M !! a = Some n -> exists o, block_held s pm a n o) /\
    (forall a n a' n' o o' q, M !! a = Some n -> M !! a' = Some n' -> a <> a' -> block_held s pm a n o -> block_held s pm a' n' o' -> q ∈ pages_of (o, a) -> q ∉ pages_of (o', a')).

Lemma held_zone s B pm C a n o :
  mem_ok s B pm C -> block_held s pm a n o ->
  exists ty z, ms_zones s ty = Some z /\ block_ok z (o, a) /\ zone_wf z /\ n <= 2 ^ (o - MIN_ORDER) /\ MIN_ORDER <= o /\ zone_end_pfn z <= bm_length (ms_using s) /\ zone_end_pfn z <= zlen pm.
Proof.
  intros H [(ty & z & p & Ez & Hok & Ho) Hn _]. exists ty, z. destruct (mo_zone _ _ _ _ H _ _ Ez) as [_ _ _ Hzi _]. destruct (count_to_order_spec n Hn) as (r & Er & Hr). rewrite Ho in Er. injection Er as <-.
  destruct Hr as (? & -> & ? & _). destruct (mo_cover _ _ _ _ H _ _ Ez). split_and!; try done; [apply Hzi|lia].
Qed.

Lemma held_bytes s B pm C a n o :
  mem_ok s B pm C -> block_held s pm a n o -> 0 < a /\ 0 < n /\ a = a / PAGE_SIZE * PAGE_SIZE /\ n <= 2 ^ (o - MIN_ORDER) /\ (a / PAGE_SIZE + 2 ^ (o - MIN_ORDER)) * PAGE_SIZE < two64.
Proof.
  intros H Hb. destruct (held_zone _ _ _ _ _ _ _ H Hb) as (ty & z & Ez & Hok & Hw & Hn & _). destruct (block_frames z o a Hw Hok) as (_ & He & Ea & _). destruct Hok as [_ _ _ _ H0]. simpl in H0.
  destruct Hw as (_ & _ & Hw). destruct (bh_count _ _ _ _ _ Hb). unfold PAGE_SIZE in *. split_and!; try lia.
Qed.

Lemma buddy_range s M a n : buddy_owns s M -> M !! a = Some n -> 0 < a /\ 0 < n /\ a + n * PAGE_SIZE <= two64.
Proof.
  intros (B & pm & C & H & _ & Hb & _) HM. destruct (Hb _ _ HM) as [o Ho]. destruct (held_bytes _ _ _ _ _ _ _ H Ho) as (? & ? & Ea & ? & ?). unfold PAGE_SIZE in *. lia.
Qed.

Lemma buddy_apart s M a n a' n' : buddy_owns s M -> M !! a = Some n -> M !! a' = Some n' -> a <> a' -> a + n * PAGE_SIZE <= a' \/ a' + n' * PAGE_SIZE <= a.
Proof.
  intros (B & pm & C & H & _ & Hb & Hd) H1 H2 Hne. destruct (Hb _ _ H1) as [o Ho], (Hb _ _ H2) as [o' Ho'].
  destruct (held_bytes _ _ _ _ _ _ _ H Ho) as (? & ? & Ea & ? & _), (held_bytes _ _ _ _ _ _ _ H Ho') as (? & ? & Ea' & ? & _).
  destruct (decide (a / PAGE_SIZE <= a' / PAGE_SIZE)) as [Hle|Hgt].
  - destruct (decide (a' / PAGE_SIZE < a / PAGE_SIZE + 2 ^ (o - MIN_ORDER))) as [Hlt|]; [|unfold PAGE_SIZE in *; lia].
    exfalso. apply (Hd a n a' n' o o' (a' / PAGE_SIZE)); try done; apply elem_pages_of; lia.
  - destruct (decide (a / PAGE_SIZE < a' / PAGE_SIZE + 2 ^ (o' - MIN_ORDER))) as [Hlt|]; [|unfold PAGE_SIZE in *; lia].
    exfalso. apply (Hd a n a' n' o o' (a / PAGE_SIZE)); try done; apply elem_pages_of; lia.
Qed.

(** A change of marks elsewhere keeps a block. *)
Lemma held_elsewhere s s' B pm C pm' oa aa v c a n o :
  mem_ok s B pm C -> marked s s' pm pm' oa aa v c -> rc_usable (ms_ref s') = rc_usable (ms_ref s) -> same_ranges s s' -> block_held s pm a n o ->
  (forall q, q ∈ pages_of (o, a) -> q ∉ pages_of (oa, aa)) -> block_held s' pm' a n o.
Proof.
  intros H (Hl & Hbit & Hcnt) Hu Hrg Hb Hdis. destruct (held_zone _ _ _ _ _ _ _ H Hb) as (_ & z1 & _ & Hok1 & Hw & _ & Ho & Hcov & _).
  destruct Hb as [(ty & z & p & Ez & Hok & Hord) Hn Hheld]. rewrite held_iff in Hheld by lia.
  destruct (ms_zones s' ty) as [z'|] eqn:Ez'; [|by rewrite (same_ranges_none _ _ _ Hrg Ez') in Ez]. destruct (same_ranges_zone _ _ _ _ Hrg Ez') as (z0 & Ez0 & E1 & E2). rewrite Ez in Ez0. injection Ez0 as <-.
  split; [exists ty, z', p; unfold block_ok in *; by rewrite E1, E2|done|]. apply held_iff; [lia|]. intros q Hq. destruct (Hheld q Hq) as (B1 & B2 & B3).
  destruct (block_frames z1 o a Hw Hok1) as (? & ? & _). destruct Hw as (? & _). pose proof (proj1 (elem_pages_of _ _ _) Hq) as Hq'.
  assert (within (aa / PAGE_SIZE) (aa / PAGE_SIZE + 2 ^ (oa - MIN_ORDER)) q = false) as Ew by (apply not_true_iff_false; rewrite within_pages; by apply Hdis).
  rewrite Hbit, Hcnt, Ew, Hu by lia. done.
Qed.

(** Blocks that are held before and after a change elsewhere stay apart. *)
Lemma order_unique s pm s' pm' a n o o' : block_held s pm a n o -> block_held s' pm' a n o' -> o = o'.
Proof. intros [(? & ? & ? & _ & _ & E) _ _] [(? & ? & ? & _ & _ & E') _ _]. rewrite E in E'. by injection E'. Qed.

Lemma usable_after s s' B B' pm' :
  all_usable s B -> ms_ref s' = with_maps (ms_ref s) pm' -> same_ranges s s' ->
  (forall ty z q, ms_zones s ty = Some z -> q ∈ frees (blks B' ty) -> q ∈ frees (blks B ty) \/ bit (rc_usable (ms_ref s)) q = true) -> all_usable s' B'.
Proof.
  intros Hall Er Hrg Hq ty z' Ez'. destruct (same_ranges_zone _ _ _ _ Hrg Ez') as (z & Ez & _ & E2). destruct (Hall ty z Ez) as (Hu & Hm & Hf). unfold usable_ok in *. rewrite Er, E2. simpl.
  split; [done|]. split; [done|]. intros q [Hin|?]%(Hq ty z q Ez); [by apply Hf|done].
Qed.

Lemma buddy_alloc_owns s M n :
  buddy_owns s M -> 1 <= n < two64 ->
  exists s' a, alloc_frames s n = Some (s', a) /\ (a = 0 /\ buddy_owns s' M \/ a <> 0 /\ M !! a = None /\ buddy_owns s' (<[a := n]> M)).
Proof.
  intros (B & pm & C & H & Hall & Hb & Hd) Hn. destruct (alloc_frames_from_spec [ZONE_NORMAL; ZONE_DMA32; ZONE_DMA] s B pm C n H Hn) as (s' & a & B' & pm' & E & H' & _ & Er & Hrg & Hres).
  exists s', a. split; [exact E|]. destruct (Z.eqb_spec a 0) as [->|Ha].
  - left. split; [done|]. destruct Hres as (HB & Hu & -> & _). exists B', pm, C. split; [done|].
    assert (forall a n o, block_held s' pm a n o <-> block_held s pm a n o) as Hsame.
    { assert (forall s1 s2 a n o, same_ranges s1 s2 -> ms_using s2 = ms_using s1 -> rc_usable (ms_ref s2) = rc_usable (ms_ref s1) -> block_held s1 pm a n o -> block_held s2 pm a n o) as Hgo.
      { intros s1 s2 a0 n0 o0 Hr Hu1 Hu2 [(ty & z & p & Ez & Hok & Ho) Hc Hh]. split; [|done|unfold frames_held in *; by rewrite Hu1, Hu2].
        destruct (ms_zones s2 ty) as [z2|] eqn:Ez2; [|by rewrite (same_ranges_none _ _ _ Hr Ez2) in Ez]. destruct (same_ranges_zone _ _ _ _ Hr Ez2) as (z0 & Ez0 & E1 & E2). rewrite Ez in Ez0. injection Ez0 as <-.
        exists ty, z2, p. unfold block_ok in *. by rewrite E1, E2. }
      intros a0 n0 o0. split; apply Hgo; try done; [intros ty; symmetry; apply Hrg|by rewrite Er|by rewrite Er]. }
    split; [eapply usable_after; try done; intros ty z q _; rewrite HB; by left|]. split.
    + intros a0 n0 HM. destruct (Hb _ _ HM) as [o Ho]. exists o. by apply Hsame.
    + intros a0 n0 a1 n1 o0 o1 q H1 H2 Hne Hh0 Hh1. apply Hsame in Hh0, Hh1. by eapply Hd.
  - right. split; [done|]. destruct Hres as (ty & z & o & p & _ & Ez & Ho & Hok & Hfr & Hoth & Hmk).
    assert (forall q, q ∈ pages_of (o, a) -> q ∈ frees (blks B ty)) as Hfree by (intros q Hq; rewrite Hfr; apply elem_of_app; by left).
    assert (forall a0 n0 o0 q, block_held s pm a0 n0 o0 -> q ∈ pages_of (o0, a0) -> q ∉ pages_of (o, a)) as Hdis.
    { intros a0 n0 o0 q Hh Hq Hin. destruct (held_zone _ _ _ _ _ _ _ H Hh) as (_ & _ & _ & _ & _ & _ & Hmin & _). destruct (mo_free _ _ _ _ H ty z q Ez (Hfree q Hin)) as [Hf _].
      destruct (proj1 (held_iff s pm o0 a0 1 ltac:(lia)) (bh_held _ _ _ _ _ Hh) q Hq) as [Ht _]. congruence. }
    destruct (mo_zone _ _ _ _ H _ _ Ez) as [_ _ _ Hzi _]. pose proof (zi_wf _ _ Hzi) as Hw. destruct (block_frames z o a Hw Hok) as (_ & _ & _ & Hpos). destruct (mo_cover _ _ _ _ H _ _ Ez) as [Hcu _].
    assert (M !! a = None) as HMa.
    { destruct (M !! a) as [n0|] eqn:EM; [|done]. exfalso. destruct (Hb _ _ EM) as [o0 Ho0]. destruct (held_zone _ _ _ _ _ _ _ H Ho0) as (_ & z0 & _ & Hok0 & Hw0 & _).
      destruct (block_frames z0 o0 a Hw0 Hok0) as (_ & _ & _ & Hpos0). apply (Hdis a n0 o0 (a / PAGE_SIZE) Ho0); apply elem_pages_of; lia. }
    split; [done|].
    assert (forall a0 n0 o0, block_held s pm a0 n0 o0 -> block_held s' pm' a0 n0 o0) as Hkeep by (intros a0 n0 o0 Hh; apply (held_elsewhere s s' B pm C pm' o a true 1 a0 n0 o0); [done|done|by rewrite Er|done|done|intros q Hq; by eapply Hdis]).
    assert (block_held s' pm' a n o) as Hnew.
    { destruct (ms_zones s' ty) as [z'|] eqn:Ez'; [|by rewrite (same_ranges_none _ _ _ Hrg Ez') in Ez]. destruct (same_ranges_zone _ _ _ _ Hrg Ez') as (z0 & Ez0 & E1 & E2). rewrite Ez in Ez0. injection Ez0 as <-.
      split; [exists ty, z', p; unfold block_ok in *; by rewrite E1, E2|done|]. eapply (marked_held s s' pm pm' z o a); try done. intros q Hq. rewrite Er. simpl. destruct (Hall ty z Ez) as (_ & _ & Hu). by apply Hu, Hfree. }
    exists B', pm', C. split; [done|]. split.
    { eapply usable_after; try done. intros ty' z' q Ez' Hq. left. destruct (decide (ty' = ty)) as [->|Hne]; [rewrite Hfr; apply elem_of_app; by right|by rewrite <- Hoth]. }
    split.
    + intros a0 n0 [[<- <-]|[_ HM]]%lookup_insert_Some; [eauto|]. destruct (Hb _ _ HM) as [o0 Ho0]. eauto.
    + intros a0 n0 a1 n1 o0 o1 q [[<- <-]|[_ HM0]]%lookup_insert_Some [[<- <-]|[_ HM1]]%lookup_insert_Some Hne Hh0 Hh1 Hq0 Hq1; [done| | |].
      * destruct (Hb _ _ HM1) as [o1' Hb1]. assert (o1' = o1) as -> by (by eapply order_unique). assert (o0 = o) as -> by (by eapply (order_unique s' pm' s' pm')). by eapply (Hdis a1 n1 o1 q).
      * destruct (Hb _ _ HM0) as [o0' Hb0]. assert (o0' = o0) as -> by (by eapply order_unique). assert (o1 = o) as -> by (by eapply (order_unique s' pm' s' pm')). by eapply (Hdis a0 n0 o0 q).
      * destruct (Hb _ _ HM0) as [o0' Hb0]. assert (o0' = o0) as -> by (by eapply order_unique). destruct (Hb _ _ HM1) as [o1' Hb1]. assert (o1' = o1) as -> by (by eapply order_unique). by eapply (Hd a0 n0 a1 n1 o0 o1 q).
Qed.

Lemma buddy_free_owns s M a n : buddy_owns s M -> M !! a = Some n -> exists s', free_frames s a n = Some s' /\ buddy_owns s' (delete a M).
Proof.
  intros (B & pm & C & H & Hall & Hb & Hd) HM. destruct (Hb _ _ HM) as [o Ho]. pose proof Ho as Hbh. destruct Ho as [(ty & z & p & Ez & Hok & Hord) Hn Hheld].
  destruct (Hall ty z Ez) as (Hu & Hmem & _). destruct (held_zone _ _ _ _ _ _ _ H Hbh) as (_ & _ & _ & _ & _ & _ & Hmin & _).
  assert (a <= rc_memory_size (ms_ref s)) as Hle by (destruct Hok as [_ _ _ He _]; simpl in He; assert (0 < 2 ^ o) by (apply pow2_pos; unfold MIN_ORDER in *; lia); lia).
  destruct (free_common_spec s B pm C ty z o p a n false H Ez Hok Hu Hn Hord Hle) as (s' & B' & pm' & E & H' & _ & Er & Hrg & Hres).
  cbn iota in Hres. rewrite Hheld in Hres. destruct Hres as (Hfr & Hoth & Hmk). exists s'. split; [exact E|]. rewrite held_iff in Hheld by lia.
  assert (forall a0 n0, delete a M !! a0 = Some n0 -> exists o0, block_held s pm a0 n0 o0 /\ block_held s' pm' a0 n0 o0) as Hkeep.
  { intros a0 n0 [Hne HM0]%lookup_delete_Some. destruct (Hb _ _ HM0) as [o0 Ho0]. exists o0. split; [done|]. apply (held_elsewhere s s' B pm C pm' o a false 0 a0 n0 o0); [done|done|by rewrite Er|done|done|].
    intros q Hq. by apply (Hd a0 n0 a n o0 o q). }
  exists B', pm', C. split; [done|]. split.
  { eapply usable_after; try done. intros ty' z' q Ez' Hq. destruct (decide (ty' = ty)) as [->|Hne]; [|left; by rewrite <- Hoth]. rewrite Hfr in Hq. apply elem_of_app in Hq as [Hq|Hq]; [right; by apply Hheld|by left]. }
  split.
  - intros a0 n0 HM0. destruct (Hkeep _ _ HM0) as (o0 & _ & ?). eauto.
  - intros a0 n0 a1 n1 o0 o1 q HM0 HM1 Hne Hh0 Hh1. destruct (Hkeep _ _ HM0) as (o0' & Hb0 & _), (Hkeep _ _ HM1) as (o1' & Hb1 & _).
    assert (o0' = o0) as -> by (by eapply order_unique). assert (o1' = o1) as -> by (by eapply order_unique). apply lookup_delete_Some in HM0 as [_ HM0], HM1 as [_ HM1]. by eapply (Hd a0 n0 a1 n1).
Qed.

#[export] Instance buddy_frames : Frames alloc_frames free_frames := {|
  owns := buddy_owns; owns_range := buddy_range; owns_apart := buddy_apart; alloc_owns := buddy_alloc_owns; free_owns := buddy_free_owns |}.
