(* ===== verification/Tmpfs.v ===== *)
(** * The memory file system

    ([src/src/fs/tmpfs.c].) The data of a file is one block of page frames,
    replaced by a larger one when it is full. The frame allocator is a
    parameter with the contract of [Frames]; the bytes of a block are found by
    its virtual address. Files and nodes are heap objects; a file that has been
    freed, or an access outside a block, is [None]. *)

From stdpp Require Import gmap.
From S2P Require Import Prelude Frame.

Inductive tmpfs_type := tp_file_dir | tp_file_file | tp_file_symlink | tp_file_char | tp_file_blk | tp_file_socket.

Definition file_none : Z := 1.
Definition file_dir : Z := 2.
Definition file_block : Z := 4.
Definition file_stream : Z := 8.
Definition file_socket : Z := 512.
Definition S_IFMT : Z := 61440.
Definition S_IFBLK : Z := 24576.
Definition S_IFCHR : Z := 8192.
Definition S_IFSOCK : Z := 49152.
Definition POLLIN : Z := 1.
Definition POLLOUT : Z := 4.
Definition EOK : Z := 0.

Record tmpfs_file := mkTf {
  tf_type : tmpfs_type; tf_name : list Z; tf_data : Z; tf_size : Z; tf_page_num : Z; tf_link_count : Z; tf_node : Z; tf_root : Z; tf_capacity : Z
}.

(** What the file system uses of a node. *)
Record tnode := mkTn { tn_type : Z; tn_size : Z; tn_handle : Z; tn_mode : Z; tn_dev : Z; tn_rdev : Z }.

Record tm_sys (S : Type) := mkTm {
  tm_frames : S;
  tm_mem : gmap Z (list Z);      (* the bytes of the blocks *)
  tm_files : gmap Z tmpfs_file;
  tm_nodes : gmap Z tnode;
}.
Arguments mkTm {S} _ _ _ _.
Arguments tm_frames {S} _.
Arguments tm_mem {S} _.
Arguments tm_files {S} _.
Arguments tm_nodes {S} _.

(** ** Bytes *)

(** [memcpy] from and to a block. *)
Definition slice (m : list Z) (off n : Z) : option (list Z) := if (0 <=? off) && (off + n <=? zlen m) then Some (take (Z.to_nat n) (drop (Z.to_nat off) m)) else None.
Definition blit (m : list Z) (off : Z) (b : list Z) : option (list Z) :=
  if (0 <=? off) && (off + zlen b <=? zlen m) then Some (take (Z.to_nat off) m ++ b ++ drop (Z.to_nat (off + zlen b)) m) else None.

(** [strncpy(name, src, 64)] for a string without its end. *)
Definition strncpy64 (src : list Z) : list Z := take 64 (src ++ replicate 64 0).

Definition tmpfs_size_to_pages (size : Z) : option Z :=
  if size =? 0 then Some 0
  else if size >? SIZE_MAX - (PAGE_SIZE - 1) then None
  else Some ((size + PAGE_SIZE - 1) / PAGE_SIZE).

(** The loop that doubles the number of pages. *)
Fixpoint double_loop (fuel : nat) (new_pages need_pages : Z) : option Z :=
  match fuel with
  | O => None
  | Datatypes.S fuel =>
    if new_pages <? need_pages then
      if new_pages >? SIZE_MAX / 2 then Some need_pages else double_loop fuel (u64 (new_pages * 2)) need_pages
    else Some new_pages
  end.

Definition tf_with_data (f : tmpfs_file) (data page_num capacity : Z) : tmpfs_file :=
  mkTf (tf_type f) (tf_name f) data (tf_size f) page_num (tf_link_count f) (tf_node f) (tf_root f) capacity.
Definition tf_with_size (f : tmpfs_file) (size : Z) : tmpfs_file :=
  mkTf (tf_type f) (tf_name f) (tf_data f) size (tf_page_num f) (tf_link_count f) (tf_node f) (tf_root f) (tf_capacity f).
Definition tf_with_links (f : tmpfs_file) (n : Z) : tmpfs_file :=
  mkTf (tf_type f) (tf_name f) (tf_data f) (tf_size f) (tf_page_num f) n (tf_node f) (tf_root f) (tf_capacity f).
Definition tf_with_name (f : tmpfs_file) (name : list Z) : tmpfs_file :=
  mkTf (tf_type f) name (tf_data f) (tf_size f) (tf_page_num f) (tf_link_count f) (tf_node f) (tf_root f) (tf_capacity f).

Section Code.
Context {S : Type} (alloc : S -> Z -> option (S * Z)) (free : S -> Z -> Z -> option S).
(* where physical memory is mapped; the address of a new file *)
Context (offset_ : Z) (malloc : gmap Z tmpfs_file -> Z).

Implicit Types (s : tm_sys S).

Definition set_file s (p : Z) (f : tmpfs_file) : tm_sys S := mkTm (tm_frames s) (tm_mem s) (<[p := f]> (tm_files s)) (tm_nodes s).
Definition set_node s (n : Z) (v : tnode) : tm_sys S := mkTm (tm_frames s) (tm_mem s) (tm_files s) (<[n := v]> (tm_nodes s)).
Definition set_bytes s (d : Z) (m : list Z) : tm_sys S := mkTm (tm_frames s) (<[d := m]> (tm_mem s)) (tm_files s) (tm_nodes s).
Definition set_frames s (x : S) : tm_sys S := mkTm x (tm_mem s) (tm_files s) (tm_nodes s).

Definition tmpfs_release_pages s (p : Z) : option (tm_sys S) :=
  if p =? 0 then Some s
  else
    f ← tm_files s !! p;
    s ← (if negb (tf_data f =? 0) && negb (tf_page_num f =? 0) then
           x ← free (tm_frames s) (virt_to_phys offset_ (tf_data f)) (tf_page_num f);
           Some (mkTm x (delete (tf_data f) (tm_mem s)) (tm_files s) (tm_nodes s))
         else Some s);
    Some (set_file s p (tf_with_data f 0 0 0)).

Definition tmpfs_ensure_capacity s (p end_ : Z) : option (tm_sys S * bool) :=
  if p =? 0 then Some (s, false)
  else
    f ← tm_files s !! p;
    if end_ <=? tf_capacity f then Some (s, true)
    else
      match tmpfs_size_to_pages end_ with
      | None => Some (s, false)
      | Some need_pages =>
        if need_pages =? 0 then Some (s, false)
        else
          new_pages ← double_loop 66 (if negb (tf_page_num f =? 0) then tf_page_num f else 1) need_pages;
          if new_pages >? SIZE_MAX / PAGE_SIZE then Some (s, false)
          else
            '(x, phys) ← alloc (tm_frames s) new_pages;
            let s := set_frames s x in
            if phys =? 0 then Some (s, false)
            else
              let new_data := phys_to_virt offset_ phys in
              if new_data =? 0 then x ← free (tm_frames s) phys new_pages; Some (set_frames s x, false)
              else
                let new_capacity := u64 (new_pages * PAGE_SIZE) in
                let m := replicate (Z.to_nat new_capacity) 0 in
                m ← (if negb (tf_data f =? 0) && negb (tf_size f =? 0) then
                       old ← tm_mem s !! tf_data f; b ← slice old 0 (tf_size f); blit m 0 b
                     else Some m);
                s ← tmpfs_release_pages (set_bytes s new_data m) p;
                f ← tm_files s !! p;
                Some (set_file s p (tf_with_data f new_data new_pages new_capacity), true)
      end.

(** The bytes that are copied; their number is the result of the call. *)
Definition tmpfs_read s (p offset size : Z) : option (list Z) :=
  f ← tm_files s !! p;
  if offset >=? tf_size f then Some []
  else
    let actual := if u64 (offset + size) >? tf_size f then tf_size f - offset else size in
    if actual =? 0 then Some [] else m ← tm_mem s !! tf_data f; slice m offset actual.

(** [b] are the bytes to be written. *)
Definition tmpfs_write s (p : Z) (b : list Z) (offset : Z) : option (tm_sys S * Z) :=
  let size := zlen b in
  if size =? 0 then Some (s, 0)
  else if offset + size >=? two64 then Some (s, 0)
  else
    let end_ := offset + size in
    '(s, ok) ← tmpfs_ensure_capacity s p end_;
    if negb ok then Some (s, 0)
    else
      f ← tm_files s !! p;
      m ← tm_mem s !! tf_data f;
      m ← (if offset >? tf_size f then blit m (tf_size f) (replicate (Z.to_nat (offset - tf_size f)) 0) else Some m);
      m ← blit m offset b;
      let f := if end_ >? tf_size f then tf_with_size f end_ else f in
      v ← tm_nodes s !! tf_node f;
      Some (set_node (set_file (set_bytes s (tf_data f) m) p f) (tf_node f) (mkTn (tn_type v) (tf_size f) (tn_handle v) (tn_mode v) (tn_dev v) (tn_rdev v)), size).

Definition free_file s (p : Z) : option (tm_sys S) := _ ← tm_files s !! p; Some (mkTm (tm_frames s) (tm_mem s) (delete p (tm_files s)) (tm_nodes s)).

Definition tmpfs_delete s (node : Z) : option (tm_sys S * Z) :=
  v ← tm_nodes s !! node;
  let p := tn_handle v in
  if p =? 0 then Some (s, EOK)
  else
    f ← tm_files s !! p;
    if tf_link_count f >? 1 then Some (set_file s p (tf_with_links f (tf_link_count f - 1)), EOK)
    else s ← tmpfs_release_pages s p; s ← free_file s p; Some (s, EOK).

Definition tmpfs_free s (handle : Z) : option (tm_sys S * Z) :=
  if handle =? 0 then Some (s, EOK)
  else
    f ← tm_files s !! handle;
    if tf_link_count f >? 1 then Some (set_file s handle (tf_with_links f (tf_link_count f - 1)), EOK)
    else
      s ← (match tf_type f with tp_file_file => tmpfs_release_pages s handle | _ => Some s end);
      s ← free_file s handle;
      Some (s, EOK).

(** A new file is cleared memory; without memory the kernel faults. *)
Definition new_file s (ty : tmpfs_type) (name : list Z) (node : Z) : option (tm_sys S * Z) :=
  let p := malloc (tm_files s) in
  if p =? 0 then None
  else Some (set_file s p (mkTf ty name 0 0 0 1 node 0 0), p).

Definition tmpfs_mk s (name : list Z) (node : Z) (is_dir : bool) : option (tm_sys S * Z) :=
  '(s, p) ← new_file s (if is_dir then tp_file_dir else tp_file_file) (strncpy64 name) node;
  v ← tm_nodes s !! node;
  Some (set_node s node (mkTn (Z.lor (tn_type v) (if is_dir then file_dir else file_none)) (tn_size v) p (tn_mode v) (tn_dev v) (tn_rdev v)), EOK).

Definition tmpfs_symlink s (name : list Z) (node : Z) : option (tm_sys S * Z) :=
  '(s, p) ← new_file s tp_file_symlink (strncpy64 name) node;
  v ← tm_nodes s !! node;
  Some (set_node s node (mkTn (tn_type v) (tn_size v) p (tn_mode v) (tn_dev v) (tn_rdev v)), EOK).

Definition tmpfs_mknod s (name : list Z) (node mode dev : Z) : option (tm_sys S * Z) :=
  v ← tm_nodes s !! node;
  let '(nty, fty) :=
    if Z.land mode S_IFMT =? S_IFBLK then (file_block, tp_file_blk)
    else if Z.land mode S_IFMT =? S_IFCHR then (file_stream, tp_file_char)
    else if Z.land mode S_IFMT =? S_IFSOCK then (file_socket, tp_file_socket)
    else (file_none, tp_file_file) in
  '(s, p) ← new_file s fty (strncpy64 name) node;
  Some (set_node s node (mkTn nty (tn_size v) p (Z.land mode 511) (u64 dev) (u64 dev)), 0).

Definition tmpfs_rename s (p : Z) (new_name : list Z) : option (tm_sys S * Z) :=
  f ← tm_files s !! p; Some (set_file s p (tf_with_name f (strncpy64 new_name)), EOK).

Definition tmpfs_chmod s (node mode : Z) : option (tm_sys S * Z) :=
  v ← tm_nodes s !! node; Some (set_node s node (mkTn (tn_type v) (tn_size v) (tn_handle v) mode (tn_dev v) (tn_rdev v)), EOK).

Definition tmpfs_poll (events : Z) : Z := Z.lor (if negb (Z.land events POLLIN =? 0) then POLLIN else 0) (if negb (Z.land events POLLOUT =? 0) then POLLOUT else 0).
End Code.
