(* ===== verification/TmpfsProps.v ===== *)
(** * Properties of the memory file system

    Stated for every frame allocator that meets the contract of [Frames], and
    used with the buddy allocator. *)

From stdpp Require Import gmap.
From S2P Require Import Prelude Fresh Bitmap PageRef PageList Buddy BuddyInv BuddySys BuddyFree Frame FrameInv FrameProps Frames Tmpfs.

(** ** Bytes *)

Lemma slice_ok m off n : 0 <= off -> off + n <= zlen m -> slice m off n = Some (take (Z.to_nat n) (drop (Z.to_nat off) m)).
Proof. intros H1 H2. unfold slice. assert ((0 <=? off) && (off + n <=? zlen m) = true) as -> by lia. done. Qed.

Lemma blit_ok m off b : 0 <= off -> off + zlen b <= zlen m -> exists m', blit m off b = Some m' /\ zlen m' = zlen m /\ m' = take (Z.to_nat off) m ++ b ++ drop (Z.to_nat (off + zlen b)) m.
Proof.
  intros H1 H2. unfold blit. assert ((0 <=? off) && (off + zlen b <=? zlen m) = true) as -> by lia. eexists. split; [done|]. split; [|done].
  unfold zlen in *. rewrite !length_app, length_take, length_drop. lia.
Qed.

(** [b] written at [off] over [old], with zeros in a gap. *)
Definition overlay (old : list Z) (off : Z) (b : list Z) : list Z :=
  take (Z.to_nat off) (old ++ replicate (Z.to_nat (off - zlen old)) 0) ++ b ++ drop (Z.to_nat (off + zlen b)) old.

(** The first [n] bytes of a block after the two stores of a write. *)
Lemma overlay_blit m n off b m' :
  0 <= n <= zlen m -> 0 <= off -> off + zlen b <= zlen m ->
  (m1 ← (if off >? n then blit m n (replicate (Z.to_nat (off - n)) 0) else Some m); blit m1 off b) = Some m' ->
  zlen m' = zlen m /\ take (Z.to_nat (Z.max n (off + zlen b))) m' = overlay (take (Z.to_nat n) m) off b.
Proof.
  intros Hn Ho Hend. assert (zlen (take (Z.to_nat n) m) = n) as Hlt by (unfold zlen in *; rewrite length_take; lia). unfold overlay. rewrite Hlt. rewrite Z.gtb_ltb. pose proof (zlen_nonneg b) as Hb. destruct (Z.ltb_spec n off) as [Hgap|Hno].
  - destruct (blit_ok m n (replicate (Z.to_nat (off - n)) 0)) as (m1 & -> & Hl1 & Em1); [lia|rewrite zlen_replicate; lia|]. cbn [mbind option_bind].
    destruct (blit_ok m1 off b) as (m2 & -> & Hl2 & Em2); [lia|lia|]. intros [= <-]. split; [lia|]. rewrite Em2, Em1.
    rewrite (take_ge (take (Z.to_nat n) m ++ replicate _ 0)) by (unfold zlen in *; rewrite length_app, length_take, length_replicate; lia).
    rewrite (drop_ge (take (Z.to_nat n) m)) by (unfold zlen in *; rewrite length_take; lia). rewrite app_nil_r.
    rewrite Z.max_r by lia. rewrite zlen_replicate in *. rewrite (app_assoc (take (Z.to_nat n) m)). rewrite (take_app_length' _ _ (Z.to_nat off)) by (unfold zlen in *; rewrite length_app, length_take, length_replicate; lia).
    rewrite (app_assoc _ b). apply take_app_length'. unfold zlen in *. rewrite !length_app, length_take, length_replicate. lia.
  - cbn [mbind option_bind]. destruct (blit_ok m off b) as (m2 & -> & Hl2 & Em2); [lia|lia|]. intros [= <-]. split; [lia|]. rewrite Em2.
    rewrite (take_app_le (take (Z.to_nat n) m)) by (unfold zlen in *; rewrite length_take; lia). rewrite take_take, Nat.min_l by lia.
    rewrite take_app, take_ge by (unfold zlen in *; rewrite length_take; lia). f_equal. rewrite take_app, take_ge by (unfold zlen in *; rewrite length_take; lia). f_equal.
    rewrite length_take. unfold zlen in *. rewrite Nat.min_l by lia.
    rewrite skipn_firstn_comm. f_equal. lia.
Qed.

Lemma double_loop_ok need k : forall n, 1 <= n < two64 -> 1 <= need < two64 -> need <= n * 2 ^ Z.of_nat k -> exists r, double_loop (Datatypes.S k) n need = Some r /\ need <= r < two64.
Proof.
  induction k as [|k IH]; intros n Hn Hneed Hle; cbn [double_loop].
  - rewrite (proj2 (Z.ltb_ge _ _)) by (simpl in Hle; lia). exists n. simpl in Hle. split; [done|lia].
  - destruct (Z.ltb_spec n need) as [Hlt|]; [|exists n; split; [done|lia]]. rewrite Z.gtb_ltb. change (SIZE_MAX / 2) with 9223372036854775807. destruct (Z.ltb_spec 9223372036854775807 n); [exists need; split; [done|lia]|].
    rewrite u64_id by lia. apply IH; [lia|done|]. rewrite Nat2Z.inj_succ, Z.pow_succ_r in Hle by lia. lia.
Qed.

Section Props.
Context {S : Type} {alloc : S -> Z -> option (S * Z)} {free : S -> Z -> Z -> option S} {HF : Frames alloc free}.
Context (offset_ : Z).
Implicit Types (s : tm_sys S) (f g : tmpfs_file) (M : gmap Z Z).

(** The physical address of the data. *)
Definition ph f : Z := virt_to_phys offset_ (tf_data f).

Lemma virt_phys a : 0 < a < two64 -> phys_to_virt offset_ a <> 0 -> virt_to_phys offset_ (phys_to_virt offset_ a) = a.
Proof.
  intros Ha. unfold virt_to_phys, phys_to_virt. destruct (Z.eqb_spec a 0); [lia|]. destruct (Z.eqb_spec (u64 (a + offset_)) 0); [done|]. intros _.
  unfold u64. rewrite Zminus_mod_idemp_l, Z.add_simpl_r. by apply Z.mod_small; lia.
Qed.

(** A file has no data yet, or one block with room for its size. *)
Definition file_ok s M f : Prop :=
  tf_data f = 0 /\ tf_size f = 0 /\ tf_page_num f = 0 /\ tf_capacity f = 0 \/
  tf_data f <> 0 /\ 0 <= tf_size f <= tf_capacity f /\ tf_capacity f = tf_page_num f * PAGE_SIZE /\ M !! ph f = Some (tf_page_num f) /\
  exists m, tm_mem s !! tf_data f = Some m /\ zlen m = tf_capacity f.

(** [M] are exactly the blocks of the files. *)
Record tm_ok s M : Prop := {
  tk_frames : owns (tm_frames s) M;
  tk_file : forall p f, tm_files s !! p = Some f -> p <> 0 /\ file_ok s M f /\ is_Some (tm_nodes s !! tf_node f);
  tk_apart : forall p q f g, p <> q -> tm_files s !! p = Some f -> tm_files s !! q = Some g -> tf_data f <> 0 -> tf_data g <> 0 -> ph f <> ph g;
  tk_all : forall a n, M !! a = Some n -> exists p f, tm_files s !! p = Some f /\ tf_data f <> 0 /\ ph f = a;
}.

(** The bytes of a file. *)
Definition content s f : list Z := match tm_mem s !! tf_data f with Some m => take (Z.to_nat (tf_size f)) m | None => [] end.

Lemma content_empty s f : tf_size f = 0 -> content s f = [].
Proof. intros E. unfold content. rewrite E. by destruct (tm_mem s !! tf_data f). Qed.

(** The other files keep their records and blocks. *)
Definition others s s' (p : Z) : Prop :=
  forall q, q <> p -> tm_files s' !! q = tm_files s !! q /\ forall g, tm_files s !! q = Some g -> tf_data g <> 0 -> tm_mem s' !! tf_data g = tm_mem s !! tf_data g.

Lemma others_content s s' M p q g : tm_ok s M -> others s s' p -> q <> p -> tm_files s !! q = Some g -> content s' g = content s g.
Proof.
  intros Hok Ho Hq Hg. destruct (Ho q Hq) as [_ Hm]. destruct (tk_file _ _ Hok _ _ Hg) as (_ & [(_ & Hz & _)|(Hd & _)] & _); [by rewrite !content_empty|]. unfold content. by rewrite (Hm g Hg Hd).
Qed.

(** The block of a file is replaced by a new one, of [n] pages. *)
Lemma swap_block s M p f x a n m0 :
  tm_ok s M -> tm_files s !! p = Some f -> owns x (<[a := n]> M) -> M !! a = None -> 0 < a < two64 -> phys_to_virt offset_ a <> 0 ->
  zlen m0 = n * PAGE_SIZE -> 0 <= tf_size f <= n * PAGE_SIZE -> n * PAGE_SIZE < two64 ->
  exists s' M', (s ← tmpfs_release_pages free offset_ (set_bytes (set_frames s x) (phys_to_virt offset_ a) m0) p; f ← tm_files s !! p;
      Some (set_file s p (tf_with_data f (phys_to_virt offset_ a) n (n * PAGE_SIZE)), true)) = Some (s', true) /\
    tm_ok s' M' /\ tm_nodes s' = tm_nodes s /\ tm_files s' !! p = Some (tf_with_data f (phys_to_virt offset_ a) n (n * PAGE_SIZE)) /\ tm_mem s' !! phys_to_virt offset_ a = Some m0 /\ others s s' p.
Proof.
  intros Hok Hf Hx HMa Ha Hd Hm0 Hsz Hn. pose proof Hok as [Hown Hfile Hapart Hall]. set (d := phys_to_virt offset_ a) in *. assert (virt_to_phys offset_ d = a) as Hva by (by apply virt_phys).
  destruct (Hfile _ _ Hf) as (Hp0 & Hfk & Hnode). unfold tmpfs_release_pages. rewrite (proj2 (Z.eqb_neq _ _) Hp0). unfold set_bytes, set_frames. cbn [tm_frames tm_mem tm_files tm_nodes]. rewrite Hf. cbn [mbind option_bind].
  assert (forall q g, tm_files s !! q = Some g -> tf_data g <> 0 -> ph g <> a /\ tf_data g <> d) as Hnew.
  { intros q g Hg Hgd. destruct (Hfile _ _ Hg) as (_ & [(? & _)|(_ & _ & _ & HMg & _)] & _); [done|]. split; [congruence|]. intros E. unfold ph in HMg. rewrite E, Hva in HMg. congruence. }
  assert (exists y M', (if negb (tf_data f =? 0) && negb (tf_page_num f =? 0) then x0 ← free x (virt_to_phys offset_ (tf_data f)) (tf_page_num f); Some (mkTm x0 (delete (tf_data f) (<[d := m0]> (tm_mem s))) (tm_files s) (tm_nodes s))
      else Some (mkTm x (<[d := m0]> (tm_mem s)) (tm_files s) (tm_nodes s))) = Some (mkTm y.1 y.2 (tm_files s) (tm_nodes s)) /\
    owns y.1 M' /\ M' !! a = Some n /\ y.2 !! d = Some m0 /\
    (forall q g, q <> p -> tm_files s !! q = Some g -> tf_data g <> 0 -> M' !! ph g = M !! ph g /\ y.2 !! tf_data g = tm_mem s !! tf_data g) /\
    (forall b k, M' !! b = Some k -> b = a \/ M !! b = Some k /\ (tf_data f <> 0 -> b <> ph f))) as (y & M' & Ey & Hy & HMa' & Hyd & Hyo & Hym).
  { destruct Hfk as [(Hz & _)|(Hfd & Hfs & Hcap & HMf & _)].
    - rewrite Hz. change (negb (0 =? 0)) with false. cbn [andb]. exists (x, <[d := m0]> (tm_mem s)), (<[a := n]> M). split; [done|]. simpl. rewrite !lookup_insert_eq. split; [done|]. split; [done|]. split; [done|]. split.
      + intros q g Hq Hg Hgd. destruct (Hnew q g Hg Hgd). by rewrite !lookup_insert_ne.
      + intros b k [[<- _]|[_ ?]]%lookup_insert_Some; [by left|right]. done.
    - destruct (owns_range _ _ _ _ Hown HMf) as (_ & Hpn & _). rewrite (proj2 (Z.eqb_neq _ _) Hfd), (proj2 (Z.eqb_neq (tf_page_num f) 0)) by lia. cbn [negb andb].
      destruct (Hnew p f Hf Hfd) as [Hpa Hda]. destruct (free_owns x (<[a := n]> M) (ph f) (tf_page_num f) Hx) as (x1 & E1 & Hx1); [by rewrite lookup_insert_ne|].
      unfold ph in E1. rewrite E1. cbn [mbind option_bind]. exists (x1, delete (tf_data f) (<[d := m0]> (tm_mem s))), (delete (ph f) (<[a := n]> M)). split; [done|]. simpl. split; [done|].
      rewrite !lookup_delete_ne, !lookup_insert_eq by done. split; [done|]. split; [done|]. split.
      + intros q g Hq Hg Hgd. destruct (Hnew q g Hg Hgd). pose proof (Hapart p q f g ltac:(congruence) Hf Hg Hfd Hgd) as Hph.
        rewrite !lookup_delete_ne, !lookup_insert_ne; try done. intros E. apply Hph. unfold ph. by rewrite E.
      + intros b k [Hne [[<- _]|[_ ?]]%lookup_insert_Some]%lookup_delete_Some; [by left|right]. done. }
  rewrite Ey. cbn [mbind option_bind]. unfold set_file. cbn [tm_frames tm_mem tm_files tm_nodes]. rewrite lookup_insert_eq. cbn [mbind option_bind].
  eexists _, M'. split; [done|]. cbn [tm_frames tm_mem tm_files tm_nodes]. rewrite insert_insert_eq. set (f' := tf_with_data (tf_with_data f 0 0 0) d n (n * PAGE_SIZE)). change (tf_with_data f d n (n * PAGE_SIZE)) with f'.
  split; [|rewrite lookup_insert_eq; split_and!; try done; intros q Hq; cbn [tm_files tm_mem]; rewrite lookup_insert_ne by done; split; [done|]; intros g Hg Hgd; by apply (Hyo q g)].
  split; cbn [tm_frames tm_files tm_nodes]; [done| | |].
  - intros q g [[<- <-]|[Hq Hg]]%lookup_insert_Some.
    + split; [done|]. split; [|done]. right. simpl. split; [done|]. split; [done|]. split; [done|]. split; [unfold ph; simpl; by rewrite Hva|]. by exists m0.
    + destruct (Hfile _ _ Hg) as (? & Hgk & ?). split; [done|]. split; [|done]. destruct Hgk as [?|(Hgd & ? & ? & HMg & m & Hm & ?)]; [by left|]. right. destruct (Hyo q g ltac:(done) Hg Hgd) as [E1 E2].
      split; [done|]. split; [done|]. split; [done|]. split; [by rewrite E1|]. exists m. simpl. by rewrite E2.
  - intros q r g h Hne [[<- <-]|[Hq Hg]]%lookup_insert_Some [[<- <-]|[Hr Hh]]%lookup_insert_Some Hgd Hhd; [done| | |by eapply (Hapart q r)].
    + unfold ph at 1. simpl. rewrite Hva. destruct (Hnew r h Hh Hhd). congruence.
    + unfold ph at 2. simpl. rewrite Hva. by destruct (Hnew q g Hg Hgd).
  - intros b k [->|[HMb Hbf]]%Hym; [exists p, f'; rewrite lookup_insert_eq; by unfold ph|]. destruct (Hall _ _ HMb) as (q & g & Hg & Hgd & Hgp). exists q, g. split; [|done].
    rewrite lookup_insert_ne; [done|]. intros <-. assert (g = f) as -> by congruence. by apply Hbf.
Qed.
(** The frames change, the files do not. *)
Lemma frames_ok s M x : tm_ok s M -> owns x M -> tm_ok (set_frames s x) M.
Proof. intros [Hown Hfile Hapart Hall] Hx. by split. Qed.

(** The new block with the bytes of the old one. *)
Lemma fresh_copy s M f n :
  file_ok s M f -> tf_capacity f <= n * PAGE_SIZE ->
  exists m0, (if negb (tf_data f =? 0) && negb (tf_size f =? 0) then old ← tm_mem s !! tf_data f; b ← slice old 0 (tf_size f); blit (replicate (Z.to_nat (n * PAGE_SIZE)) 0) 0 b else Some (replicate (Z.to_nat (n * PAGE_SIZE)) 0)) = Some m0 /\
    zlen m0 = n * PAGE_SIZE /\ take (Z.to_nat (tf_size f)) m0 = content s f.
Proof.
  intros Hfk Hn. assert (0 <= tf_capacity f) as Hc0 by (destruct Hfk as [(_ & _ & _ & ->)|(_ & ? & _)]; lia).
  assert (zlen (replicate (Z.to_nat (n * PAGE_SIZE)) 0) = n * PAGE_SIZE) as Hrep by (rewrite zlen_replicate; lia). destruct (Z.eqb_spec (tf_size f) 0) as [Ez|Ez].
  - rewrite andb_false_r. eexists. split; [done|]. split; [done|]. by rewrite content_empty, Ez.
  - destruct Hfk as [(_ & ? & _)|(Hd & Hsz & Hcap & _ & m & Hm & Hl)]; [done|]. rewrite (proj2 (Z.eqb_neq _ _) Hd), Hm. cbn [negb andb mbind option_bind]. rewrite slice_ok by lia. cbn [mbind option_bind].
    set (b := take (Z.to_nat (tf_size f)) (drop (Z.to_nat 0) m)). assert (zlen b = tf_size f) as Hb by (unfold b, zlen in *; simpl; rewrite drop_0, length_take; lia).
    destruct (blit_ok (replicate (Z.to_nat (n * PAGE_SIZE)) 0) 0 b) as (m0 & -> & Hl0 & Em0); [lia|lia|]. exists m0. split; [done|]. split; [lia|].
    rewrite Em0. simpl. rewrite take_app_length' by (unfold zlen in Hb; lia). unfold content. rewrite Hm. unfold b. simpl. by rewrite drop_0.
Qed.

(** After [tmpfs_ensure_capacity]: nothing changed but the frames, or the file
    has the same bytes and room for more. *)
Lemma ensure_room_ok s M p f end_ :
  tm_ok s M -> tm_files s !! p = Some f -> 0 < end_ < two64 ->
  exists s' b M', tmpfs_ensure_capacity alloc free offset_ s p end_ = Some (s', b) /\ tm_ok s' M' /\ tm_nodes s' = tm_nodes s /\ others s s' p /\
    if b then exists f' m, tm_files s' !! p = Some f' /\ tf_size f' = tf_size f /\ tf_node f' = tf_node f /\ tf_data f' <> 0 /\ tm_mem s' !! tf_data f' = Some m /\ end_ <= zlen m /\ 0 <= tf_size f' <= zlen m /\ take (Z.to_nat (tf_size f')) m = content s f
    else tm_files s' = tm_files s /\ tm_mem s' = tm_mem s.
Proof.
  intros Hok Hf Hend. pose proof Hok as [Hown Hfile Hapart _]. destruct (Hfile _ _ Hf) as (Hp0 & Hfk & _). unfold tmpfs_ensure_capacity. rewrite (proj2 (Z.eqb_neq _ _) Hp0), Hf. cbn [mbind option_bind].
  assert (forall x, owns x M -> exists s' b M', Some (set_frames s x, false) = Some (s', b) /\ tm_ok s' M' /\ tm_nodes s' = tm_nodes s /\ others s s' p /\
    if b : bool then exists f' m, tm_files s' !! p = Some f' /\ tf_size f' = tf_size f /\ tf_node f' = tf_node f /\ tf_data f' <> 0 /\ tm_mem s' !! tf_data f' = Some m /\ end_ <= zlen m /\ 0 <= tf_size f' <= zlen m /\ take (Z.to_nat (tf_size f')) m = content s f
    else tm_files s' = tm_files s /\ tm_mem s' = tm_mem s) as Hfail.
  { intros x Hx. exists (set_frames s x), false, M. split; [done|]. split; [by apply frames_ok|]. by split_and!. }
  pose proof (Hfail (tm_frames s) Hown) as Hsame. replace (set_frames s (tm_frames s)) with s in Hsame by (by destruct s). destruct (Z.leb_spec end_ (tf_capacity f)) as [Hle|Hgt].
  { exists s, true, M. split; [done|]. split; [done|]. split; [done|]. split; [intros q Hq; done|]. destruct Hfk as [(_ & _ & _ & Hc)|(Hd & Hs & _ & _ & m & Hm & Hl)]; [lia|].
    exists f, m. split_and!; try done; try lia. unfold content. by rewrite Hm. }
  assert (0 <= tf_size f <= tf_capacity f /\ 0 <= tf_page_num f < two64) as [Hsz Hpn].
  { destruct Hfk as [(_ & -> & -> & ->)|(_ & Hs & _ & HMf & _)]; [lia|]. destruct (owns_range _ _ _ _ Hown HMf) as (? & ? & ?). unfold PAGE_SIZE in *. lia. }
  unfold tmpfs_size_to_pages. rewrite (proj2 (Z.eqb_neq end_ 0)) by lia. rewrite Z.gtb_ltb. change (SIZE_MAX - (PAGE_SIZE - 1)) with 18446744073709547520.
  destruct (Z.ltb_spec 18446744073709547520 end_); [exact Hsame|].
  set (need := (end_ + PAGE_SIZE - 1) / PAGE_SIZE). assert (1 <= need < two64 /\ end_ <= need * PAGE_SIZE) as [Hneed Hcov].
  { unfold need, PAGE_SIZE. pose proof (Z.div_mod (end_ + 4096 - 1) 4096 ltac:(lia)). pose proof (Z.mod_pos_bound (end_ + 4096 - 1) 4096 ltac:(lia)). lia. }
  rewrite (proj2 (Z.eqb_neq need 0)) by lia. set (start := if negb (tf_page_num f =? 0) then tf_page_num f else 1).
  assert (1 <= start < two64) as Hst by (unfold start; destruct (Z.eqb_spec (tf_page_num f) 0); simpl; lia).
  destruct (double_loop_ok need 65 start Hst Hneed) as (n & -> & Hn); [change (2 ^ Z.of_nat 65) with 36893488147419103232; lia|]. cbn [mbind option_bind].
  rewrite Z.gtb_ltb. change (SIZE_MAX / PAGE_SIZE) with 4503599627370495. destruct (Z.ltb_spec 4503599627370495 n); [exact Hsame|].
  destruct (alloc_owns (tm_frames s) M n Hown ltac:(lia)) as (x & a & -> & Ha). cbn [mbind option_bind]. destruct Ha as [[-> Hx]|(Ha & HMa & Hx)]; [by apply Hfail|].
  rewrite (proj2 (Z.eqb_neq a 0)) by done. destruct (owns_range _ _ _ _ Hx (lookup_insert_eq M a n)) as (Ha0 & _ & Har). unfold PAGE_SIZE in Har.
  destruct (Z.eqb_spec (phys_to_virt offset_ a) 0) as [E0|E0].
  { cbn [set_frames tm_frames]. destruct (free_owns x (<[a := n]> M) a n Hx (lookup_insert_eq M a n)) as (x1 & -> & Hx1). cbn [mbind option_bind]. change (set_frames (set_frames s x) x1) with (set_frames s x1).
    rewrite delete_insert_id in Hx1 by done. by apply Hfail. }
  rewrite u64_id by (unfold PAGE_SIZE; lia). change (tm_mem (set_frames s x)) with (tm_mem s).
  destruct (fresh_copy s M f n Hfk) as (m0 & -> & Hm0 & Hcont); [unfold PAGE_SIZE in *; lia|].
  cbn [mbind option_bind]. destruct (swap_block s M p f x a n m0 Hok Hf Hx HMa) as (s' & M' & E' & Hok' & Hnd & Hf' & Hm' & Ho); [unfold PAGE_SIZE; lia|done|done|unfold PAGE_SIZE in *; lia|unfold PAGE_SIZE; lia|].
  exists s', true, M'. split; [exact E'|]. split; [done|]. split; [done|]. split; [done|]. eexists _, m0. split; [done|]. simpl. split_and!; try done; try lia; unfold PAGE_SIZE in *; lia.
Qed.
(** The bytes of one file, and its node, change. *)
Lemma store_ok_tm s M p f m m' size v :
  tm_ok s M -> tm_files s !! p = Some f -> tf_data f <> 0 -> tm_mem s !! tf_data f = Some m -> zlen m' = zlen m -> 0 <= size <= zlen m -> tm_nodes s !! tf_node f = Some v ->
  forall v', let s' := set_node (set_file (set_bytes s (tf_data f) m') p (tf_with_size f size)) (tf_node f) v' in tm_ok s' M /\ others s s' p /\ content s' (tf_with_size f size) = take (Z.to_nat size) m'.
Proof.
  intros [Hown Hfile Hapart Hall] Hf Hd Hm Hl Hsz Hv v' s'. assert (forall q g, q <> p -> tm_files s !! q = Some g -> tf_data g <> 0 -> tf_data g <> tf_data f) as Hne.
  { intros q g Hq Hg Hgd E. apply (Hapart q p g f Hq Hg Hf Hgd Hd). unfold ph. by rewrite E. }
  destruct (Hfile _ _ Hf) as (Hp0 & [(? & _)|(_ & Hs & Hcap & HMf & m1 & Hm1 & Hl1)] & _); [done|]. rewrite Hm in Hm1. injection Hm1 as <-. split; [|split].
  - split; [done| | |].
    + intros q g Hg. simpl in Hg. apply lookup_insert_Some in Hg as [[<- <-]|[Hq Hg]].
      * split; [done|]. split; [|simpl; rewrite lookup_insert_eq; eauto]. right. simpl. split; [done|]. split; [lia|]. split; [done|]. split; [done|]. exists m'. rewrite lookup_insert_eq. split; [done|lia].
      * destruct (Hfile _ _ Hg) as (? & Hgk & Hgn). split; [done|]. split.
        -- destruct Hgk as [?|(Hgd & ? & ? & ? & mg & Hmg & ?)]; [by left|right]. split; [done|]. split; [done|]. split; [done|]. split; [done|]. exists mg. simpl. rewrite lookup_insert_ne; [done|]. apply not_eq_sym. by eapply (Hne q g).
        -- simpl. destruct (decide (tf_node g = tf_node f)) as [->|]; [rewrite lookup_insert_eq; eauto|]. by rewrite lookup_insert_ne.
    + intros q r g h Hqr Hg Hh. simpl in Hg, Hh. apply lookup_insert_Some in Hg as [[<- <-]|[Hq Hg]], Hh as [[<- <-]|[Hr Hh]]; [done| | |by eapply (Hapart q r)].
      * intros _ Hhd. by apply (Hapart p r f h).
      * intros Hgd _. by apply (Hapart q p g f).
    + intros a k HM. destruct (Hall _ _ HM) as (q & g & Hg & Hgd & Hgp). simpl. destruct (decide (q = p)) as [->|]; [exists p, (tf_with_size f size); rewrite lookup_insert_eq; assert (g = f) as -> by congruence; done|]. exists q, g. by rewrite lookup_insert_ne.
  - intros q Hq. simpl. rewrite lookup_insert_ne by done. split; [done|]. intros g Hg Hgd. rewrite lookup_insert_ne; [done|]. apply not_eq_sym. by eapply Hne.
  - unfold content. simpl. by rewrite lookup_insert_eq.
Qed.

Lemma others_trans s1 s2 s3 p : others s1 s2 p -> others s2 s3 p -> others s1 s3 p.
Proof.
  intros H1 H2 q Hq. destruct (H1 q Hq) as [F1 M1], (H2 q Hq) as [F2 M2]. split; [congruence|]. intros g Hg Hgd. rewrite M2, M1; try done. congruence.
Qed.

Lemma tf_size_id f : tf_with_size f (tf_size f) = f.
Proof. by destruct f. Qed.

(** A read whose end does not wrap around returns the bytes of the file from
    the offset on, as many as asked for or as there are. *)
Theorem tmpfs_read_correct s M p f offset size :
  tm_ok s M -> tm_files s !! p = Some f -> 0 <= offset -> 0 <= size -> offset + size < two64 ->
  tmpfs_read s p offset size = Some (take (Z.to_nat size) (drop (Z.to_nat offset) (content s f))).
Proof.
  intros Hok Hf Ho Hs Hlt. unfold tmpfs_read. rewrite Hf. cbn [mbind option_bind]. destruct (tk_file _ _ Hok _ _ Hf) as (_ & Hfk & _). rewrite Z.geb_leb.
  destruct Hfk as [(_ & Hz & _)|(_ & Hsz & _ & _ & m & Hm & Hl)].
  { rewrite Hz, content_empty by done. rewrite (proj2 (Z.leb_le 0 offset)) by lia. by rewrite drop_nil, take_nil. }
  unfold content. rewrite Hm. assert (zlen (take (Z.to_nat (tf_size f)) m) = tf_size f) as Hlt' by (unfold zlen in *; rewrite length_take; lia). destruct (Z.leb_spec (tf_size f) offset) as [Hge|Hin].
  { rewrite drop_ge by (unfold zlen in Hlt'; lia). by rewrite take_nil. }
  rewrite u64_id by lia. rewrite Z.gtb_ltb. rewrite skipn_firstn_comm, take_take. destruct (Z.ltb_spec (tf_size f) (offset + size)).
  - rewrite (proj2 (Z.eqb_neq _ _)) by lia. cbn [mbind option_bind]. rewrite slice_ok by lia. do 2 f_equal. lia.
  - destruct (Z.eqb_spec size 0) as [->|]; [done|]. cbn [mbind option_bind]. rewrite slice_ok by lia. do 2 f_equal. lia.
Qed.

(** A write returns 0 and changes no file, or the number of bytes, and then the file holds the old bytes with the new ones over them from the offset on, zeros in between when the offset is past the end, in as many frames as needed; the size of the node follows, no other file changes, no frame is lost or given back twice, and a read returns what was written. *)
Lemma tmpfs_write_ok s M p f b offset :
  tm_ok s M -> tm_files s !! p = Some f -> 0 <= offset ->
  exists s' r M', tmpfs_write alloc free offset_ s p b offset = Some (s', r) /\ tm_ok s' M' /\
    (forall q g, q <> p -> tm_files s !! q = Some g -> tm_files s' !! q = Some g /\ content s' g = content s g) /\
    ((r = 0 /\ tm_files s' = tm_files s /\ content s' f = content s f) \/
     (r = zlen b /\ exists f' v, tm_files s' !! p = Some f' /\ content s' f' = overlay (content s f) offset b /\ tf_size f' = Z.max (tf_size f) (offset + zlen b) /\ tm_nodes s' !! tf_node f = Some v /\ tn_size v = tf_size f' /\
        forall o n, 0 <= o -> 0 <= n -> o + n < two64 -> tmpfs_read s' p o n = Some (take (Z.to_nat n) (drop (Z.to_nat o) (overlay (content s f) offset b))))).
Proof.
  intros Hok Hf Ho. unfold tmpfs_write. pose proof (zlen_nonneg b) as Hb. pose proof (fun s' => others_content s s' M p) as Hothers.
  assert (exists s' r M', Some (s, 0) = Some (s', r) /\ tm_ok s' M' /\ (forall q g, q <> p -> tm_files s !! q = Some g -> tm_files s' !! q = Some g /\ content s' g = content s g) /\
    ((r = 0 /\ tm_files s' = tm_files s /\ content s' f = content s f) \/ (r = zlen b /\ exists f' v, tm_files s' !! p = Some f' /\ content s' f' = overlay (content s f) offset b /\ tf_size f' = Z.max (tf_size f) (offset + zlen b) /\ tm_nodes s' !! tf_node f = Some v /\ tn_size v = tf_size f' /\
        forall o n, 0 <= o -> 0 <= n -> o + n < two64 -> tmpfs_read s' p o n = Some (take (Z.to_nat n) (drop (Z.to_nat o) (overlay (content s f) offset b)))))) as Hno.
  { exists s, 0, M. split; [done|]. split; [done|]. split; [done|]. by left. }
  destruct (Z.eqb_spec (zlen b) 0) as [?|Hb0]; [exact Hno|]. rewrite Z.geb_leb. destruct (Z.leb_spec two64 (offset + zlen b)); [exact Hno|]. clear Hno.
  destruct (ensure_room_ok s M p f (offset + zlen b) Hok Hf ltac:(lia)) as (s1 & ok & M1 & -> & Hok1 & Hn1 & Ho1 & Hres). cbn [mbind option_bind]. destruct ok; cbn [negb].
  2: { destruct Hres as [Ef Em]. exists s1, 0, M1. split; [done|]. split; [done|]. assert (forall g, content s1 g = content s g) as Hc by (intros g; unfold content; by rewrite Em). split; [|left; split_and!; done]. intros q g _ Hg. by rewrite Ef. }
  destruct Hres as (f1 & m & Hf1 & Hsz & Hnd & Hd1 & Hm & Hend & Hsize & Hcont). rewrite Hf1. cbn [mbind option_bind]. rewrite Hm. cbn [mbind option_bind].
  set (n := tf_size f1) in *. destruct (m1 ← (if offset >? n then blit m n (replicate (Z.to_nat (offset - n)) 0) else Some m); blit m1 offset b) as [m'|] eqn:Eb.
  2: { exfalso. rewrite Z.gtb_ltb in Eb. destruct (Z.ltb_spec n offset).
       - destruct (blit_ok m n (replicate (Z.to_nat (offset - n)) 0)) as (m1 & E1 & Hl1 & _); [lia|rewrite zlen_replicate; lia|]. rewrite E1 in Eb. cbn [mbind option_bind] in Eb. destruct (blit_ok m1 offset b) as (? & E2 & _); [lia|lia|congruence].
       - cbn [mbind option_bind] in Eb. destruct (blit_ok m offset b) as (? & E2 & _); [lia|lia|congruence]. }
  destruct (overlay_blit m n offset b m' ltac:(lia) Ho Hend Eb) as [Hl' Hov]. destruct (if offset >? n then _ else _) as [m1|]; [|done]. cbn [mbind option_bind] in Eb |- *. rewrite Eb. cbn [mbind option_bind].
  set (size := Z.max (tf_size f) (offset + zlen b)). assert ((if offset + zlen b >? n then tf_with_size f1 (offset + zlen b) else f1) = tf_with_size f1 size) as ->.
  { rewrite Z.gtb_ltb. unfold size. rewrite <- Hsz. destruct (Z.ltb_spec n (offset + zlen b)); [by rewrite Z.max_r by lia|]. rewrite Z.max_l by lia. unfold n. by rewrite tf_size_id. }
  destruct (tk_file _ _ Hok1 _ _ Hf1) as (_ & _ & [v Hv]). change (tf_node (tf_with_size f1 size)) with (tf_node f1). change (tf_data (tf_with_size f1 size)) with (tf_data f1). change (tm_nodes (set_file (set_bytes s1 (tf_data f1) m') p (tf_with_size f1 size))) with (tm_nodes s1). rewrite Hv. cbn [mbind option_bind].
  set (v' := mkTn _ _ _ _ _ _). destruct (store_ok_tm s1 M1 p f1 m m' size v Hok1 Hf1 Hd1 Hm Hl' ltac:(lia) Hv v') as (Hok2 & Ho2 & Hc2).
  eexists _, _, M1. split; [done|]. split; [exact Hok2|]. split.
  - intros q g Hq Hg. pose proof (others_trans _ _ _ _ Ho1 Ho2) as Hoo. split; [destruct (Hoo q Hq) as [-> _]; done|]. by eapply Hothers.
  - right. split; [done|]. exists (tf_with_size f1 size), v'. split; [simpl; by rewrite lookup_insert_eq|]. split; [rewrite Hc2; unfold size; rewrite <- Hsz; fold n; by rewrite Hov, Hcont|]. split; [done|].
    split; [rewrite <- Hnd; simpl; by rewrite lookup_insert_eq|]. split; [done|]. intros o k Ho' Hk Hok'. rewrite <- Hcont, <- Hov. fold n. replace (Z.max n (offset + zlen b)) with size by (unfold size; lia). rewrite <- Hc2.
    apply (tmpfs_read_correct _ M1); try done. simpl. by rewrite lookup_insert_eq.
Qed.

(** C29: the test for the end of the file adds offset and size without a check: a read of so many bytes that the sum wraps around to a position inside the file copies bytes from behind the frames of the file. *)
Theorem tmpfs_read_overrun s M p f offset size :
  tm_ok s M -> tm_files s !! p = Some f -> 0 < offset < tf_size f -> size < two64 -> two64 <= offset + size <= two64 + tf_size f ->
  tmpfs_read s p offset size = None.
Proof.
  intros Hok Hf Ho Hs Hw. unfold tmpfs_read. rewrite Hf. cbn [mbind option_bind]. rewrite Z.geb_leb, (proj2 (Z.leb_gt _ _)) by lia.
  destruct (tk_file _ _ Hok _ _ Hf) as (_ & [(_ & Hz & _)|(_ & Hsz & Hcap & HM & m & Hm & Hl)] & _); [lia|]. destruct (owns_range _ _ _ _ (tk_frames _ _ Hok) HM) as (Hpos & _ & Hr). rewrite <- Hcap in Hr.
  assert (u64 (offset + size) = offset + size - two64) as -> by (unfold u64; symmetry; apply (Z.mod_unique_pos _ _ 1); lia). rewrite Z.gtb_ltb, (proj2 (Z.ltb_ge _ _)) by lia.
  rewrite (proj2 (Z.eqb_neq size 0)) by lia. rewrite Hm. cbn [mbind option_bind]. unfold slice. rewrite (proj2 (Z.leb_gt (offset + size) (zlen m))) by lia. by rewrite andb_false_r.
Qed.
(** Deleting a file with other links only counts one link less; deleting the
    last link frees the record and gives exactly the frames of the file back,
    and no other file changes. *)
Lemma tmpfs_delete_ok s M node v f :
  tm_ok s M -> tm_nodes s !! node = Some v -> tm_files s !! tn_handle v = Some f ->
  exists s', tmpfs_delete free offset_ s node = Some (s', EOK) /\ others s s' (tn_handle v) /\
    if tf_link_count f >? 1 then tm_ok s' M /\ tm_files s' !! tn_handle v = Some (tf_with_links f (tf_link_count f - 1)) /\ content s' (tf_with_links f (tf_link_count f - 1)) = content s f
    else tm_ok s' (delete (ph f) M) /\ tm_files s' !! tn_handle v = None.
Proof.
  intros Hok Hv Hf. pose proof Hok as [Hown Hfile Hapart Hall]. set (p := tn_handle v) in *. destruct (Hfile _ _ Hf) as (Hp0 & Hfk & Hnode). unfold tmpfs_delete. rewrite Hv. cbn [mbind option_bind]. fold p.
  rewrite (proj2 (Z.eqb_neq _ _) Hp0), Hf. cbn [mbind option_bind]. destruct (tf_link_count f >? 1).
  - eexists. split; [done|]. split; [intros q Hq; simpl; by rewrite lookup_insert_ne|]. split; [|split; [simpl; by rewrite lookup_insert_eq|done]]. set (f' := tf_with_links f _). unfold set_file.
    split; cbn [tm_frames tm_files tm_nodes]; [done| | |].
    + intros q g [[<- <-]|[_ Hg]]%lookup_insert_Some; [|by apply Hfile]. split; [done|]. split; [exact Hfk|done].
    + intros q r g h Hqr [[<- <-]|[Hq Hg]]%lookup_insert_Some [[<- <-]|[Hr Hh]]%lookup_insert_Some; [done| | |by eapply (Hapart q r)].
      * by apply (Hapart p r f h).
      * by apply (Hapart q p g f).
    + intros a k HM. destruct (Hall _ _ HM) as (q & g & Hg & Hgd & Hgp). destruct (decide (q = p)) as [->|]; [exists p, f'; rewrite lookup_insert_eq; assert (g = f) as -> by congruence; done|]. exists q, g. by rewrite lookup_insert_ne.
  - unfold tmpfs_release_pages. rewrite (proj2 (Z.eqb_neq _ _) Hp0), Hf. cbn [mbind option_bind].
    assert (exists y, (if negb (tf_data f =? 0) && negb (tf_page_num f =? 0) then x0 ← free (tm_frames s) (virt_to_phys offset_ (tf_data f)) (tf_page_num f); Some (mkTm x0 (delete (tf_data f) (tm_mem s)) (tm_files s) (tm_nodes s)) else Some s) = Some (mkTm y.1 y.2 (tm_files s) (tm_nodes s)) /\
      owns y.1 (delete (ph f) M) /\ forall q g, q <> p -> tm_files s !! q = Some g -> tf_data g <> 0 -> ph g <> ph f /\ y.2 !! tf_data g = tm_mem s !! tf_data g) as (y & Ey & Hy & Hyo).
    { destruct Hfk as [(Hz & _)|(Hfd & _ & _ & HMf & _)].
      - rewrite Hz. change (negb (0 =? 0)) with false. cbn [andb]. exists (tm_frames s, tm_mem s). assert (ph f = 0) as Hph by (unfold ph; by rewrite Hz). assert (M !! 0 = None) as HM0 by (destruct (M !! 0) eqn:E0; [destruct (owns_range _ _ _ _ Hown E0); lia|done]).
        split; [by destruct s|]. simpl. rewrite Hph, delete_id by done. split; [done|]. intros q g Hq Hg Hgd. split; [|done]. destruct (Hfile _ _ Hg) as (_ & [(? & _)|(_ & _ & _ & HMg & _)] & _); [done|]. congruence.
      - destruct (owns_range _ _ _ _ Hown HMf) as (_ & Hpn & _). rewrite (proj2 (Z.eqb_neq _ _) Hfd), (proj2 (Z.eqb_neq (tf_page_num f) 0)) by lia. cbn [negb andb].
        destruct (free_owns _ _ _ _ Hown HMf) as (x1 & E1 & Hx1). unfold ph in E1. rewrite E1. cbn [mbind option_bind]. exists (x1, delete (tf_data f) (tm_mem s)). split; [done|]. split; [done|].
        intros q g Hq Hg Hgd. pose proof (Hapart q p g f Hq Hg Hf Hgd Hfd) as Hph. split; [done|]. simpl. rewrite lookup_delete_ne; [done|]. intros E. apply Hph. unfold ph. by rewrite E. }
    rewrite Ey. cbn [mbind option_bind]. unfold free_file, set_file. cbn [tm_files]. rewrite lookup_insert_eq. cbn [mbind option_bind tm_frames tm_mem tm_files tm_nodes]. rewrite delete_insert_eq.
    eexists. split; [done|]. split; [intros q Hq; simpl; rewrite lookup_delete_ne by done; split; [done|]; intros g Hg Hgd; by apply (Hyo q g)|]. split; [|simpl; by rewrite lookup_delete_eq].
    split; [done| | |]; simpl.
    + intros q g [Hq Hg]%lookup_delete_Some. destruct (Hfile _ _ Hg) as (? & Hgk & ?). split; [done|]. split; [|done]. destruct Hgk as [?|(Hgd & ? & ? & HMg & m & Hm & ?)]; [by left|right].
      destruct (Hyo q g ltac:(done) Hg Hgd) as [Hph E2]. split; [done|]. split; [done|]. split; [done|]. split; [by rewrite lookup_delete_ne|]. exists m. simpl. by rewrite E2.
    + intros q r g h Hqr [_ Hg]%lookup_delete_Some [_ Hh]%lookup_delete_Some. by eapply (Hapart q r).
    + intros a k [Hne HM]%lookup_delete_Some. destruct (Hall _ _ HM) as (q & g & Hg & Hgd & Hgp). exists q, g. rewrite lookup_delete_ne; [done|]. intros <-. apply Hne. assert (g = f) as -> by congruence. done.
Qed.
(** C27: a write returns 0 and changes no file, or the number of bytes, and then the file holds the old bytes with the new ones over them from the offset on, zeros in between when the offset is past the end, in as many frames as needed; the size of the node follows, no other file changes, no frame is lost or given back twice, and a read returns what was written. *)
Theorem tmpfs_write_correct s M p f b offset :
  tm_ok s M -> tm_files s !! p = Some f -> 0 <= offset ->
  exists s' r M', tmpfs_write alloc free offset_ s p b offset = Some (s', r) /\ tm_ok s' M' /\
    (forall q g, q <> p -> tm_files s !! q = Some g -> tm_files s' !! q = Some g /\ content s' g = content s g) /\
    ((r = 0 /\ tm_files s' = tm_files s /\ content s' f = content s f) \/
     (r = zlen b /\ exists f' v, tm_files s' !! p = Some f' /\ content s' f' = overlay (content s f) offset b /\ tf_size f' = Z.max (tf_size f) (offset + zlen b) /\ tm_nodes s' !! tf_node f = Some v /\ tn_size v = tf_size f' /\
        forall o n, 0 <= o -> 0 <= n -> o + n < two64 -> tmpfs_read s' p o n = Some (take (Z.to_nat n) (drop (Z.to_nat o) (overlay (content s f) offset b))))).
Proof. apply tmpfs_write_ok. Qed.

(** ** Histories *)

Context (malloc : gmap Z tmpfs_file -> Z).

Lemma mk_ok_tm s M name node is_dir s' r :
  malloc (tm_files s) <> 0 /\ tm_files s !! malloc (tm_files s) = None -> tm_ok s M -> tmpfs_mk malloc s name node is_dir = Some (s', r) -> tm_ok s' M.
Proof.
  intros [Hp0 Hp] [Hown Hfile Hapart Hall] E. unfold tmpfs_mk, new_file in E. set (p := malloc (tm_files s)) in *. rewrite (proj2 (Z.eqb_neq _ _) Hp0) in E. cbn [mbind option_bind] in E.
  change (tm_nodes (set_file s p _)) with (tm_nodes s) in E. destruct (tm_nodes s !! node) as [v|] eqn:Ev; [|done]. cbn [mbind option_bind] in E. injection E as <- <-.
  set (f := mkTf _ _ 0 0 0 1 node 0 0). split; [done| | |]; unfold set_node, set_file; cbn [tm_files tm_nodes].
  - intros q g [[<- <-]|[Hq Hg]]%lookup_insert_Some.
    + split; [done|]. split; [by left|]. simpl. rewrite lookup_insert_eq. eauto.
    + destruct (Hfile _ _ Hg) as (? & Hgk & Hgn). split; [done|]. split; [exact Hgk|]. destruct (decide (tf_node g = node)) as [->|]; [rewrite lookup_insert_eq; eauto|]. by rewrite lookup_insert_ne.
  - intros q r g h Hqr [[<- <-]|[Hq Hg]]%lookup_insert_Some [[<- <-]|[Hr Hh]]%lookup_insert_Some; [done|done|done|by eapply (Hapart q r)].
  - intros a k HM. destruct (Hall _ _ HM) as (q & g & Hg & Hgd & Hgp). exists q, g. rewrite lookup_insert_ne; [done|]. intros <-. by rewrite Hp in Hg.
Qed.

(** From a file system without files on. *)
Inductive tm_reach : tm_sys S -> Prop :=
  | tr_start x nodes : owns x ∅ -> tm_reach (mkTm x ∅ ∅ nodes)
  | tr_mk s name node is_dir s' r : tm_reach s -> malloc (tm_files s) <> 0 /\ tm_files s !! malloc (tm_files s) = None -> tmpfs_mk malloc s name node is_dir = Some (s', r) -> tm_reach s'
  | tr_write s p b off s' r : tm_reach s -> 0 <= off -> tmpfs_write alloc free offset_ s p b off = Some (s', r) -> tm_reach s'
  | tr_delete s node s' r : tm_reach s -> tmpfs_delete free offset_ s node = Some (s', r) -> tm_reach s'.

Lemma reach_tm s : tm_reach s -> exists M, tm_ok s M.
Proof.
  induction 1 as [x nodes Hx|s name node d s' r _ [M Hok] Hm E|s p b off s' r _ [M Hok] Ho E|s node s' r _ [M Hok] E].
  - exists ∅. split; [done| | |]; simpl; intros *; rewrite ?lookup_empty; done.
  - exists M. by eapply mk_ok_tm.
  - destruct (tm_files s !! p) as [f|] eqn:Hf.
    + destruct (tmpfs_write_ok s M p f b off Hok Hf Ho) as (s1 & r1 & M1 & E1 & Hok1 & _). rewrite E in E1. injection E1 as <- _. eauto.
    + assert (s' = s) as ->; [|eauto]. unfold tmpfs_write, tmpfs_ensure_capacity in E. rewrite Hf in E. destruct (zlen b =? 0); [congruence|]. destruct (off + zlen b >=? two64); [congruence|].
      destruct (p =? 0); cbn [mbind option_bind negb] in E; [congruence|done].
  - destruct (tm_nodes s !! node) as [v|] eqn:Ev; [|unfold tmpfs_delete in E; rewrite Ev in E; done]. destruct (tm_files s !! tn_handle v) as [f|] eqn:Hf.
    + destruct (tmpfs_delete_ok s M node v f Hok Ev Hf) as (s1 & E1 & _ & Hres). rewrite E in E1. injection E1 as <- _. destruct (tf_link_count f >? 1); destruct Hres as [? _]; eauto.
    + exists M. unfold tmpfs_delete in E. rewrite Ev in E. cbn [mbind option_bind] in E. rewrite Hf in E. destruct (tn_handle v =? 0); [congruence|done].
Qed.

(** C28: after any creations, writes and deletions the frames taken from the allocator are exactly those of the files, each file's frames hold its size, and the data of two files never overlap. *)
Theorem tmpfs_history s :
  tm_reach s ->
  exists M, owns (tm_frames s) M /\ (forall a n, M !! a = Some n <-> exists p f, tm_files s !! p = Some f /\ tf_data f <> 0 /\ ph f = a /\ tf_page_num f = n) /\
    (forall p f, tm_files s !! p = Some f -> 0 <= tf_size f <= tf_capacity f /\ tf_capacity f = tf_page_num f * PAGE_SIZE) /\
    (forall p q f g, p <> q -> tm_files s !! p = Some f -> tm_files s !! q = Some g -> tf_data f <> 0 -> tf_data g <> 0 -> ph f + tf_capacity f <= ph g \/ ph g + tf_capacity g <= ph f).
Proof.
  intros [M [Hown Hfile Hapart Hall]]%reach_tm. exists M. split; [done|].
  assert (forall p f, tm_files s !! p = Some f -> tf_data f <> 0 -> M !! ph f = Some (tf_page_num f) /\ tf_capacity f = tf_page_num f * PAGE_SIZE) as Hblk.
  { intros p f Hf Hd. destruct (Hfile _ _ Hf) as (_ & [(? & _)|(_ & _ & ? & ? & _)] & _); done. }
  split_and!.
  - intros a n. split; [|intros (p & f & Hf & Hd & <- & <-); by eapply Hblk]. intros HM. destruct (Hall _ _ HM) as (p & f & Hf & Hd & <-). exists p, f. split_and!; try done. destruct (Hblk p f Hf Hd) as [HM' _]. congruence.
  - intros p f Hf. destruct (Hfile _ _ Hf) as (_ & [(_ & -> & -> & ->)|(_ & ? & ? & _)] & _); [unfold PAGE_SIZE; lia|done].
  - intros p q f g Hpq Hf Hg Hfd Hgd. destruct (Hblk _ _ Hf Hfd) as [H1 ->], (Hblk _ _ Hg Hgd) as [H2 ->]. eapply owns_apart; try done. by eapply (Hapart p q).
Qed.
End Props.

(** ** Witnesses *)

(** Two nodes on the machine of [FrameProps], physical memory at 0xffff800000000000. *)
Definition demo_base : Z := 0xffff800000000000.
Definition demo_nodes : gmap Z tnode := {[ 100 := mkTn 0 0 0 0 0 0; 200 := mkTn 0 0 0 0 0 0 ]}.

Lemma demo_owns : exists s, ex_sys = Some s /\ buddy_owns s ∅.
Proof.
  destruct ex_sys_ok as (s & z & B & pm & E & H & _ & _ & _ & _ & _ & _ & Hall). exists s. split; [exact E|]. exists B, pm, (boot_share ex_frames). split; [exact H|]. split; [exact Hall|].
  split; intros *; rewrite lookup_empty; done.
Qed.

Definition top_file (g : gmap Z tmpfs_file) : Z := 1 + top_key g.

Lemma top_file_fresh g : top_file g <> 0 /\ g !! top_file g = None.
Proof. pose proof (top_key_nonneg g). split; [unfold top_file; lia|]. apply top_key_fresh. unfold top_file. lia. Qed.

(** A new file of node 100. *)
Lemma demo_file : exists s, tm_reach (alloc := alloc_frames) (free := free_frames) demo_base top_file s /\ tm_files s = {[ 1 := mkTf tp_file_file (strncpy64 [97]) 0 0 0 1 100 0 0 ]} /\ Some (tm_frames s) = ex_sys /\ tm_nodes s = <[100 := mkTn 1 0 1 0 0 0]> demo_nodes /\ tm_mem s = ∅.
Proof.
  destruct demo_owns as (x & Ex & Hx). exists (mkTm x ∅ {[ 1 := mkTf tp_file_file (strncpy64 [97]) 0 0 0 1 100 0 0 ]} (<[100 := mkTn 1 0 1 0 0 0]> demo_nodes)).
  split; [|split_and!; try reflexivity; by rewrite Ex]. eapply (tr_mk demo_base top_file (mkTm x ∅ ∅ demo_nodes) [97] 100 false); [by apply tr_start|apply top_file_fresh|reflexivity].
Qed.

Lemma demo_file_ok : exists s M, tm_ok (alloc := alloc_frames) (free := free_frames) demo_base s M /\ tm_files s !! 1 = Some (mkTf tp_file_file (strncpy64 [97]) 0 0 0 1 100 0 0) /\ tm_mem s = ∅.
Proof.
  destruct demo_file as (s & Hr & Hf & _ & _ & Hm). destruct (reach_tm demo_base top_file s Hr) as [M HM]. exists s, M. split; [exact HM|]. split; [|exact Hm]. rewrite Hf. reflexivity.
Qed.

(** The file written past its end. *)
Lemma tmpfs_write_correct_witness :
  exists s s' r M', tmpfs_write alloc_frames free_frames demo_base s 1 [5; 6] 3 = Some (s', r) /\ tm_ok demo_base s' M' /\
    (r = 0 \/ tmpfs_read s' 1 2 10 = Some [0; 5; 6]).
Proof.
  destruct demo_file_ok as (s & M & Hok & Hf & Hm). exists s. destruct (tmpfs_write_correct demo_base s M 1 _ [5; 6] 3 Hok Hf) as (s' & r & M' & E & Hok' & _ & Hres); [lia|].
  exists s', r, M'. split; [exact E|]. split; [exact Hok'|]. destruct Hres as [[-> _]|(_ & f' & v & _ & _ & _ & _ & _ & Hread)]; [by left|right]. rewrite Hread by lia. unfold content. rewrite Hm. reflexivity.
Defined.

Lemma tmpfs_history_witness : exists s M, tm_reach (alloc := alloc_frames) (free := free_frames) demo_base top_file s /\ owns (Frames := buddy_frames) (tm_frames s) M.
Proof. destruct demo_file as (s & Hr & _). destruct (tmpfs_history demo_base top_file s Hr) as (M & HM & _). exists s, M. split; [exact Hr|exact HM]. Defined.

(** The write has memory. *)
Lemma demo_write_result : (x ← ex_sys; '(_, r) ← tmpfs_write alloc_frames free_frames demo_base (mkTm x ∅ {[ 1 := mkTf tp_file_file (strncpy64 [97]) 0 0 0 1 100 0 0 ]} (<[100 := mkTn 1 0 1 0 0 0]> demo_nodes)) 1 [5; 6] 3; Some r) = Some 2.
Proof. vm_compute. reflexivity. Qed.

Lemma demo_written : exists s M f, tm_ok (alloc := alloc_frames) (free := free_frames) demo_base s M /\ tm_files s !! 1 = Some f /\ tf_size f = 5.
Proof.
  destruct demo_file as (s & Hr & Hf & Ex & Hn & Hm). destruct (reach_tm demo_base top_file s Hr) as [M HM].
  destruct (tmpfs_write_ok demo_base s M 1 (mkTf tp_file_file (strncpy64 [97]) 0 0 0 1 100 0 0) [5; 6] 3 HM) as (s' & r & M' & E & Hok' & _ & Hres); [by rewrite Hf|lia|].
  assert (Some r = Some 2) as [= ->].
  { rewrite <- demo_write_result, <- Ex. cbn [mbind option_bind]. rewrite <- Hf, <- Hn, <- Hm. replace (mkTm (tm_frames s) (tm_mem s) (tm_files s) (tm_nodes s)) with s by (by destruct s). by rewrite E. }
  destruct Hres as [[? _]|(_ & f' & v & Hf' & _ & Hsz & _)]; [discriminate|]. exists s', M', f'. split; [exact Hok'|]. split; [exact Hf'|]. rewrite Hsz. reflexivity.
Qed.

Lemma tmpfs_read_overrun_witness : exists s : tm_sys memsys, tmpfs_read s 1 2 18446744073709551615 = None.
Proof.
  destruct demo_written as (s & M & f & Hok & Hf & Hsz). exists s. apply (tmpfs_read_overrun demo_base s M 1 f 2 18446744073709551615 Hok Hf); [rewrite Hsz|..|rewrite Hsz]; lia.
Defined.
